(* ===== verification/_CoqProject ===== *)
-Q . S2P
Prelude.v
Errors.v
Wql.v
TagSql.v
DbQuery.v
TagSqlSem.v
SqlEval.v
Buffers.v
Words.v
Random.v
Entry.v
Utf8.v
Aead.v
Aes.v
Protect.v
Secrets.v
Kdf.v
KeyAlg.v
Jwk.v
Options.v
StoreKey.v
DbUtils.v
Session.v
SqliteDb.v
PgDb.v
Sqlite.v
Postgres.v
Store.v
Backend.v
Scans.v
PgStore.v
SqliteBackend.v
PgProvision.v
Lifecycle.v
PgSession.v
PgBackend.v
Copying.v
OdbcSql.v
OdbcDb.v
Odbc.v
OdbcStore.v
OdbcBackend.v
OdbcLaws.v
OdbcStoreLaws.v
AnyStore.v
JwkAttrs.v
JwkToy.v
Repr.v
EcKeys.v
EdKeys.v
BlsKeys.v
AnyKey.v
AnyKeyLaws.v
CryptoBox.v
LocalKey.v
KeyEntry.v
StoreApi.v
KeyQueries.v
Migration.v
MigrationLaws.v
FfiTags.v
FfiHandles.v
FfiPool.v
FfiPoolInv.v
FfiDraws.v
FfiPoolLaws.v
FfiStore.v
FfiKey.v
Hardware.v
FfiLog.v
DebugFmt.v
