(* ===== verification/Prelude.v ===== *)
(** * Aries Askar: a verification library

    Aries Askar is an encrypted store for keys and records.  The repository has
    three Rust crates: askar-crypto (key types, encryption, key derivation,
    buffers that hold secrets), askar-storage (entries, tag queries, the
    protection of stored data and the database backends) and the top crate (the
    API: keys, stores and sessions).  This library models the crypto layer's own
    logic, the storage layer with its SQLite, PostgreSQL and ODBC backends, the API over
    them, and the foreign function interface that callers in other languages use.

    ** The program and its model

    A value enters the store through a session.  Its category, name and tags are
    encrypted so that equal texts have equal ciphertexts, its value is encrypted
    under a key derived from category and name; the rows go to a database, and are
    found again by encrypting the texts of a query.  The files follow that path.

    - Prelude: results with panics as a third outcome, a state monad whose state
      survives errors (code behind a mutable reference), bytes, shared lemmas and
      automation ([lens] for lengths, [run_bind], [bind_inv], the hint databases
      [lengths] and [wf]).
    - Errors: the error types of the three crates and their conversions
      (askar-crypto, askar-storage and src, error.rs).
    - Wql, TagSql, TagSqlSem, SqlEval: the query language (wql/query.rs), its
      encoding as an SQL condition (wql/tags.rs, wql/sql.rs), a syntax and
      semantics of the conditions, and a parser and evaluator of their text, so
      that what is proved is about the text sent to the database.
    - DbQuery, DbUtils: parameters, placeholders and the extension of queries,
      tag columns, the encoding of filters (backend/db_utils.rs).
    - Buffers: the buffer traits as a class [ResizeBuffer] with laws
      [LawfulBuffer], implemented by vectors, [SecretBytes] (with its capacity
      and the allocations it gave back) and writers (askar-crypto/src/buffer).
    - Entry, Utf8: entries, tags, filters and the paged scan (entry.rs); UTF-8
      validation as Rust's standard library does it.
    - Aead, Aes: authenticated encryption in place as a class [KeyAeadInPlace]
      with its contract [LawfulAead] (encrypt/mod.rs), the ChaCha20 keys
      (alg/chacha20.rs), AES-GCM, key wrapping and CBC-HMAC (alg/aes).
    - Kdf, KeyAlg, Jwk: Concat KDF and the two ECDH key agreements (kdf), the
      names of algorithms (alg/mod.rs), JSON web keys (jwk).
    - Secrets: how secret buffers and fixed-length keys are made, compared, converted and
      serialized (buffer/secret.rs, buffer/array.rs, protect/hmac_key.rs).
    - Protect: profile keys and the searchable encryption of entries behind the
      class [EntryEncryptor] with laws [LawfulEncryptor] (protect).
    - Options, StoreKey: option URIs (options.rs); pass keys, store keys, key
      methods and references, the key cache (protect/store_key.rs and others).
    - Session: sessions and nested transactions (backend/db_utils.rs) over a
      connection whose calls may fail; [World] is the database contents, the
      contents saved at each open transaction, the coming failures, the key cache
      and the session.  The pool of connections of a store ([PoolState]) is open or closed;
      a closed one gives no connection any more.
    - SqliteDb, Sqlite: the tables as lists of rows with the statements the
      backend issues, and the session's operations (backend/sqlite/mod.rs).
    - Store, Scans: the abstract store, a finite map from kind, category and name
      to value, tags and expiry, and the simulation of its operations.
    - PgDb, Postgres, PgStore: the same for PostgreSQL (backend/postgres/mod.rs):
      sequences no rollback takes back, transactions an error aborts, the
      conditions its server refuses; the session's operations; their simulation.
    - Backend: the traits of backends and sessions as classes (backend/mod.rs), the
      contract [SessionContract] that a session owes its clients, copying between
      stores, and the erased backend (any.rs).
    - SqliteBackend, Lifecycle, Copying: profiles, rekeying, provisioning and opening
      (backend/sqlite/mod.rs, provision.rs), the properties of a store as a whole, and
      SQLite as an instance of the traits that keeps the contract.
    - PgProvision, PgSession, PgBackend: options, provisioning and opening on a server
      of databases and schemas (backend/postgres/provision.rs), the session and the
      store as instances of the traits, the properties of such a store.
    - OdbcSql, OdbcDb, Odbc, OdbcStore, OdbcBackend, OdbcLaws, OdbcStoreLaws: the third
      backend (backend/odbc): its query texts and how a driver reads them, the tables of
      db2.sql and a connection with its commit mode and pool, the session, its simulation,
      the store with its schema; what sessions and the store do.
    - Words, Random: integers of fixed width, key material from random sources
      (random.rs).
    - JwkAttrs, JwkToy, Repr: what an encoder of JWKs is given and what a reader finds
      in its output (jwk), with an instance of the reader; the traits of key types
      (repr.rs, sign.rs, askar-crypto/src/backend/mod.rs).
    - EcKeys, EdKeys, BlsKeys: the key pairs on secp256k1, P-256 and P-384 as one
      development at three curves, Ed25519 and X25519, BLS12-381 (alg).
    - AnyStore: stores by URI (any.rs): the three backends boxed, and the dispatch that
      opens, provisions and removes stores on a file system and two servers.
    - AnyKey, AnyKeyLaws: keys of any algorithm (alg/any.rs), and what holds of all of
      them.
    - CryptoBox: boxes and sealed boxes (encrypt/crypto_box.rs).
    - LocalKey, KeyEntry: the keys of the API, messages and key agreement
      (src/kms/local_key.rs, enc.rs, envelope.rs), keys as stored entries
      (src/kms/entry.rs, mod.rs).
    - StoreApi, KeyQueries: stores and sessions of the API (src/store.rs) over any
      backend, proved against the contract, and queries over keys.
    - Hardware: P-256 keys in a secure element (alg/p256_hardware.rs) and what they change
      in keys of any algorithm, local keys and stored keys.
    - Migration, MigrationLaws: wallets of the Indy SDK turned into stores
      (askar-storage/src/migration): the tables of a file on its way from one to the
      other, the wallet's keys, the items decrypted and encrypted again.
    - FfiTags, FfiHandles: tags as JSON objects (src/ffi/tags.rs), counted references
      behind pointers, lists of results, buffers, error codes (src/ffi/handle.rs,
      result_list.rs, secret.rs, error.rs, macros.rs).  Where the behaviour of the code
      is undefined, a definition gives no value.  How the library was built is a parameter
      ([Build]): the width of [usize], at which the counters of handles wrap around, and
      whether panics abort the process, as src/Cargo.toml has it for release builds
      ([release_build]), or unwind.
    - FfiPool, FfiPoolInv, FfiDraws, FfiPoolLaws: the state of src/ffi/store.rs, maps of
      stores, sessions and scans with locks and references, and the asynchronous part of its
      functions as tasks that interleave where they wait, for a lock or, when a store is
      closed, for its connections to come back; callbacks (src/ffi/mod.rs), panics, the
      runtime, not started, running or gone (future.rs); the invariant of the maps, the
      handles drawn and entered, and what follows from them.
    - FfiStore: the exported functions on stores, scans and sessions, and the one that
      migrates a wallet; their calls run
      as those tasks, over the API as the system below ([api_system]).
    - FfiKey: the exported functions on keys (src/ffi/key.rs).
    - FfiLog: the logger of the interface (src/ffi/log.rs), records handed to callbacks.
    - DebugFmt: the Debug implementations of what holds secrets or leads to them, as trees
      of calls of the formatter and their text, and the options that opening a store logs.

    Code that is not in the repository is a parameter, in a class of its own with
    its documented laws: the detached ciphers, the block cipher, HMAC, HKDF,
    digests, Argon2, curve arithmetic and signatures, the Salsa20 box, CBOR, JSON text, hexadecimal, base58, base64 and URL encodings,
    the allocator's growth, the database's LIKE and the order it scans rows in, what the
    client library reads out of a PostgreSQL URI, the widths and the clock of an ODBC database,
    the secure element, the facade for logging, the Debug output of third-party types.  Each
    class has an instance in the library on which the theorems are applied.

    ** What the theorems show

    - The SQLite and PostgreSQL backends refine the same abstract store: every sequence of
      operations of a session returns the abstract results and keeps the tables standing
      for the abstract store (C2, C4); from a blank file or server on
      (C1, C3); scans return the matching entries (C14).  The exported
      functions, waited for, do the same (C7).
    - The ODBC backend does so for every operation but one (C6, C5): a
      replacement deletes the tags of another entry (C37); and
      a second insertion fails with another error.
    - A store named by a URI is made, opened and removed on the system its scheme names
      and on no other (C8).
    - A tag filter's SQL condition selects what the filter selects, through encryption,
      placeholder numbering and the text of the condition (C9), two kinds of
      filters apart that the code gets wrong ([TagSqlSem.or_true_alternative_dropped],
      [TagSqlSem.negated_exist_requires_all_absent]); and an ODBC query
      read with its parameters bound in order is the query asked for (C10).
    - Copying a profile carries over its live entries and nothing else (C11).
    - Keys kept in a store are found again as they were (C12), also by queries over
      them (C22); of a key in a secure element the store has
      the identifier alone, and the element is asked for it (C13).
    - A wallet of the Indy SDK whose items have identifiers of 32 bits becomes a store with
      its items (C15); another identifier ends the migration ([MigrationLaws.wide_id_refused]).
    - Stores survive rekeying and reopening, a failure leaves a PostgreSQL store unchanged,
      and profiles are separate (C23, C24); the names in an
      URI are safe to quote (C26).
    - Transactions: the depth counter, commit, rollback and destructors under failing
      calls (C16, [Session.session_close_outcome]); what an ODBC session leaves behind that is
      dropped in a transaction (C25).
    - Concurrent calls of the interface: references, locks and handles under every
      interleaving, handles never given out twice before a counter wraps (C17); no set of
      calls blocks itself, but a close waits for what was registered behind its back and has
      a connection (C18), and gives no new ones ([FfiStore.late_session_refused]); one
      callback for every call, unless a panic ends the process (C19).
    - The logger of the interface is installed once, and takes no records once it is
      cleared, though it is still flushed (C20).
    - Debug output tells nothing of secrets (C21), except that of
      BLS keys ([DebugFmt.bls_debug_shows_secret]); what is logged of the options of a
      store has its password (C40).
    - Keys of every algorithm: the invariant of their types, JWKs, thumbprints
      (C27, C28, C29), signatures between two callers of the
      interface (C30), messages and key agreement (C31, C32); generation by
      rejection ends with the right key (C36).
    - Queries: optimisation keeps their meaning (C33); tags survive JSON with the
      exceptions stated (C34); buffers zero what they release (C35).
    - Behaviour that a caller would not expect: the replacement above, a rekey that stops
      half way (C38), a commit that loses everything (C39), a migration that cannot be taken up again ([MigrationLaws.migration_once]).

    Theorems beside these, among them rekeying on SQLite ([SqliteBackend.rekey_reopen]), the
    separation of keys and items ([KeyQueries.kinds_separate]), a close that fails and loses
    its transaction ([FfiPoolLaws.session_close_busy]), hardware keys and their signatures
    ([Hardware.hardware_key_public], [Hardware.hardware_signs]), the boxes around sessions
    ([AnyStore.boxes_transparent]), the delivery of records
    ([FfiLog.custom_logger_delivers]), that queries survive JSON ([Wql.query_json_stable]),
    searchable encryption ([Protect.encrypt_searchable_correct]), the Concat KDF
    ([Kdf.concat_kdf_correct]), transactions ([Session.with_txn_atomic],
    [SqliteBackend.rekey_atomic], [OdbcLaws.odbc_transaction_outcome],
    [OdbcLaws.odbc_begin_unchecked]), scans, rekeying and profiles of an ODBC store
    ([OdbcLaws.odbc_scan_correct], [OdbcStoreLaws.odbc_rekey_correct],
    [OdbcStoreLaws.odbc_profiles_listed], [OdbcStoreLaws.odbc_missing_profile]), stand in the
    files of their components.

    ** Bounds and fuel

    Machine integers are bounded where the code is exposed to it: query
    parameters count in i64, lengths are encoded in 32 bits, the counter of the
    Concat KDF is a u32, additional data of CBC-HMAC is measured in 64 bits.
    Messages are bounded by the cipher ([cipher_max]).  Loops that are not
    structural take fuel and the theorems give an amount that is enough:
    draining a scan, moving the items of a wallet (one more than their number), the Concat KDF ([n] bytes), the tags of a key entry (their number), decoding the tags column,
    numbering placeholders and parsing SQL conditions (the length of the text).
    A task of the interface makes at most six steps, and a session call that nothing
    else is in the way of exactly four.
    Generation of keys by rejection has no bound of its own: its theorem says that it
    returns exactly when its source gives a valid scalar.
    Instants are milliseconds; expiry is compared in whole seconds as SQLite's
    DATETIME does, and to the microsecond in the ODBC backend, whose batches hold 64 rows
    and whose buffers for text hold 1023 bytes.

    ** Not modelled

    Of the ODBC backend one connection is modelled, which the sessions of a store use one
    after the other; what the columns for text hold is taken to come back byte for byte,
    and which options r2d2 refuses with a panic is a parameter ([PoolBuilder]).  Keys in a secure element are behind a feature that is off
    by default: Hardware models the code with it, the files on keys the code without it.
    A backend that is opened has the contents of its database from then on: the systems of
    AnyStore do not see what it does later.
    Two sessions that use one database at a time are left to the database: each is
    modelled on its own connection; what the tasks of the interface share is modelled.
    Their waiting for a lock is not: any of them that could get it may.  The records that the
    functions log are left out but for the options of a store, and so is the Debug output
    of sessions and of the key cache, as is the helper for tests against a
    PostgreSQL server (backend/postgres/test_db.rs). *)

From Stdlib Require Strings.Ascii.
From Stdlib Require Export Strings.Byte Lia.
From stdpp Require Export base tactics option strings list numbers gmap.
Export Ascii.AsciiSyntax.
Delimit Scope char_scope with char.

(** ** Results: Rust's [Result<A, E>], with panics as a third outcome *)

Inductive res (E A : Type) : Type :=
| Ok (a : A)
| Err (e : E)
| Panic.
Arguments Ok {E A} _.
Arguments Err {E A} _.
Arguments Panic {E A}.

#[export] Instance res_ret {E} : MRet (res E) := λ A a, Ok a.
#[export] Instance res_bind {E} : MBind (res E) :=
  λ A B f r, match r with Ok a => f a | Err e => Err e | Panic => Panic end.
#[export] Instance res_fmap {E} : FMap (res E) :=
  λ A B f r, match r with Ok a => Ok (f a) | Err e => Err e | Panic => Panic end.

(** [Result::map_err]. *)
Definition map_err {E F A} (f : E → F) (r : res E A) : res F A :=
  match r with Ok a => Ok a | Err e => Err (f e) | Panic => Panic end.

(** [Option::ok_or]. *)
Definition ok_or {E A} (o : option A) (e : E) : res E A :=
  match o with Some a => Ok a | None => Err e end.

(** [Option::unwrap] / [expect]: panics on [None]. *)
Definition unwrap {E A} (o : option A) : res E A :=
  match o with Some a => Ok a | None => Panic end.

Definition is_ok {E A} (r : res E A) : bool :=
  match r with Ok _ => true | _ => false end.

(** ** Stateful fallible code: the state survives an error, as it does
    behind a [&mut] reference. *)

Definition stm (S E A : Type) : Type := S → S * res E A.

#[export] Instance stm_ret {S E} : MRet (stm S E) := λ A a s, (s, Ok a).
#[export] Instance stm_bind {S E} : MBind (stm S E) :=
  λ A B f m s,
    match m s with
    | (s', Ok a) => f a s'
    | (s', Err e) => (s', Err e)
    | (s', Panic) => (s', Panic)
    end.

Definition sget {S E} : stm S E S := λ s, (s, Ok s).
Definition sput {S E} (s : S) : stm S E () := λ _, (s, Ok ()).
Definition smod {S E} (f : S → S) : stm S E () := λ s, (f s, Ok ()).
Definition lift {S E A} (r : res E A) : stm S E A := λ s, (s, r).
Definition sfail {S E A} (e : E) : stm S E A := λ s, (s, Err e).

(** ** Bytes and strings: a Rust [String] is its UTF-8 bytes *)

#[export] Instance byte_eq_dec : EqDecision byte := Byte.byte_eq_dec.

Abbreviation bytes := (list byte).

(** [str::as_bytes], [String::into_bytes]. *)
Definition as_bytes (s : string) : bytes := String.list_byte_of_string s.
(** [String::from_utf8_unchecked]. *)
Definition string_of_bytes (b : bytes) : string := String.string_of_list_byte b.

Lemma string_of_as_bytes s : string_of_bytes (as_bytes s) = s.
Proof. apply String.string_of_list_byte_of_string. Qed.
Lemma as_bytes_of_string b : as_bytes (string_of_bytes b) = b.
Proof. apply String.list_byte_of_string_of_list_byte. Qed.

Lemma as_bytes_inj s t : as_bytes s = as_bytes t → s = t.
Proof. intros H. by rewrite <- (string_of_as_bytes s), H, string_of_as_bytes. Qed.

(** ** Automation *)

(** Lengths of byte strings and lists: rewritten to arithmetic and decided. *)
Create HintDb lengths.
#[export] Hint Rewrite @length_app @length_take @length_drop @length_replicate @length_resize @length_map
  @length_rev : lengths.
Ltac lens := autorewrite with lengths; cbn [length]; lia.

(** Runs the binds of a result whose first steps have been rewritten. *)
Ltac run_bind := cbn [mbind res_bind mret res_ret].

(** Well-formedness of states and preservation of it, by the component lemmas. *)
Create HintDb wf.

(** ** Sequencing over lists *)

Lemma mapM_cons `{MBind M, MRet M} {A B} (g : A → M B) x l :
  mapM g (x :: l) = (y ← g x; ys ← mapM g l; mret (y :: ys)).
Proof. done. Qed.

Lemma mapM_ok {E A B} (g : A → res E B) (f : A → B) (l : list A) :
  Forall (λ x, g x = Ok (f x)) l → mapM g l = Ok (List.map f l).
Proof. induction 1 as [|x l Hx _ IH]; [done|]. by rewrite mapM_cons, Hx, IH. Qed.

(** Case analysis of the first step of a sequenced computation that succeeded. *)
Lemma bind_ok_inv {E A B} (m : res E A) (f : A → res E B) b :
  (m ≫= f) = Ok b → ∃ a, m = Ok a ∧ f a = Ok b.
Proof. destruct m; naive_solver. Qed.

Lemma bind_ok {E A B} (m : res E A) (f : A → res E B) a : m = Ok a → (m ≫= f) = f a.
Proof. by intros ->. Qed.

Lemma mapM_ok_inv {E A B} (g : A → res E B) (l : list A) (l' : list B) :
  mapM g l = Ok l' ↔ Forall2 (λ x y, g x = Ok y) l l'.
Proof.
  split.
  - revert l'. induction l as [|x l IH]; intros l' H; [by injection H as <-|].
    rewrite mapM_cons in H. apply bind_ok_inv in H as (y & Hx & H).
    apply bind_ok_inv in H as (ys & Hl & H). injection H as <-. eauto.
  - induction 1 as [|x y l l' Hx _ IH]; [done|]. by rewrite mapM_cons, Hx, IH.
Qed.

Ltac bind_inv H :=
  let a := fresh "a" in let E := fresh "E" in
  apply bind_ok_inv in H as (a & E & H).

Lemma stm_bind_inv {S E A B} (m : stm S E A) (f : A → stm S E B) s s' b :
  (m ≫= f) s = (s', Ok b) → ∃ a s1, m s = (s1, Ok a) ∧ f a s1 = (s', Ok b).
Proof. unfold mbind, stm_bind. destruct (m s) as [s1 []]; naive_solver. Qed.

Lemma stm_bind_ok {S E A B} (m : stm S E A) (f : A → stm S E B) s s1 a :
  m s = (s1, Ok a) → (m ≫= f) s = f a s1.
Proof. unfold mbind, stm_bind. by intros ->. Qed.

Lemma stm_bind_err {S E A B} (m : stm S E A) (f : A → stm S E B) s s1 e :
  m s = (s1, Err e) → (m ≫= f) s = (s1, Err e).
Proof. unfold mbind, stm_bind. by intros ->. Qed.

Lemma lift_ok {S E A} (r : res E A) a (s : S) : r = Ok a → lift r s = (s, Ok a).
Proof. by intros ->. Qed.

Lemma lift_bind {S E A B} (r : res E A) a (f : A → stm S E B) s : r = Ok a → (lift r ≫= f) s = f a s.
Proof. by intros ->. Qed.

Lemma stm_bind_ret {S E A B} (a : A) (f : A → stm S E B) s : ((mret a : stm S E A) ≫= f) s = f a s.
Proof. done. Qed.

Lemma stm_bind_assoc {S E A B C} (m : stm S E A) (f : A → stm S E B) (g : B → stm S E C) s :
  ((m ≫= f) ≫= g) s = (m ≫= (λ a, f a ≫= g)) s.
Proof. unfold mbind, stm_bind. by destruct (m s) as [s1 []]. Qed.

(** ** Boolean quantifiers *)

Lemma forallb_Forall {A} (b : A → bool) (l : list A) :
  forallb b l = true ↔ Forall (λ x, b x = true) l.
Proof. rewrite List.forallb_forall, Forall_forall. split; intros H x Hx; apply H; by apply list_elem_of_In. Qed.

Lemma Forall_guard {A} (b : A → bool) (P : A → Prop) (l : list A) :
  Forall (λ x, b x = true → P x) l → forallb b l = true → Forall P l.
Proof.
  induction 1 as [|x l Hx _ IH]; [done|]. simpl. intros [??]%andb_prop. constructor; auto.
Qed.

Lemma bind_ext {E A B} (m : res E A) (f g : A → res E B) :
  (∀ a, f a = g a) → (m ≫= f) = (m ≫= g).
Proof. intros H. destruct m; simpl; auto. Qed.

(** ** Byte strings in memory order *)

Definition byte_val (b : byte) : N := Byte.to_N b.

(** [n as u8]. *)
Definition byte_of (n : N) : byte := default x00 (Byte.of_N (n mod 256)).

Lemma byte_of_val b : byte_of (byte_val b) = b.
Proof. by destruct b. Qed.

Lemma byte_val_inj a b : byte_val a = byte_val b → a = b.
Proof.
  unfold byte_val. intros H. apply (f_equal Byte.of_N) in H. rewrite !Byte.of_to_N in H.
  by injection H.
Qed.

(** Lexicographic comparison, as for Rust slices and SQL blobs. *)
Fixpoint bytes_compare (a b : bytes) : comparison :=
  match a, b with
  | [], [] => Datatypes.Eq
  | [], _ :: _ => Datatypes.Lt
  | _ :: _, [] => Datatypes.Gt
  | x :: a', y :: b' =>
      match N.compare (byte_val x) (byte_val y) with
      | Datatypes.Eq => bytes_compare a' b'
      | c => c
      end
  end.

Lemma bytes_compare_eq a b : bytes_compare a b = Datatypes.Eq ↔ a = b.
Proof.
  revert b. induction a as [|x a IH]; intros [|y b]; simpl; try done.
  destruct (N.compare_spec (byte_val x) (byte_val y)) as [H|H|H].
  - apply byte_val_inj in H as ->. rewrite IH. naive_solver.
  - split; [done|]. intros [= -> _]. lia.
  - split; [done|]. intros [= -> _]. lia.
Qed.

Lemma bytes_compare_refl a : bytes_compare a a = Datatypes.Eq.
Proof. by apply bytes_compare_eq. Qed.

Lemma bytes_compare_antisym a b : bytes_compare b a = CompOpp (bytes_compare a b).
Proof.
  revert b. induction a as [|x a IH]; intros [|y b]; simpl; try done.
  rewrite (N.compare_antisym (byte_val x) (byte_val y)).
  destruct (N.compare (byte_val x) (byte_val y)); simpl; auto.
Qed.

(** Comparing prefixes never reverses the comparison. *)
Lemma bytes_compare_take n a b :
  bytes_compare (take n a) (take n b) = Datatypes.Eq
  ∨ bytes_compare (take n a) (take n b) = bytes_compare a b.
Proof.
  revert a b. induction n as [|n IH]; intros [|x a] [|y b]; simpl; auto.
  destruct (N.compare (byte_val x) (byte_val y)); auto.
Qed.

(** Searching a list for what an equivalent test accepts. *)
Lemma existsb_ext_in {A} (f g : A → bool) (l : list A) :
  (∀ x, x ∈ l → f x = g x) → existsb f l = existsb g l.
Proof.
  induction l as [|x l IH]; [done|]. intros H. simpl. rewrite H by set_solver.
  rewrite IH by set_solver. done.
Qed.

Lemma forallb_ext_in {A} (f g : A → bool) (l : list A) :
  (∀ x, x ∈ l → f x = g x) → forallb f l = forallb g l.
Proof.
  induction l as [|x l IH]; [done|]. intros H. simpl. rewrite H by set_solver.
  rewrite IH by set_solver. done.
Qed.
