(* ===== verification/Errors.v ===== *)
(** * Error types and their conversions

    [CryptoError] models askar-crypto/src/error.rs, [StorageError] models
    askar-storage/src/error.rs and [AskarError] models src/error.rs.  The
    [cause] of an error is a boxed foreign error in Rust; here it is the text
    that error displays, which is all the code ever does with it. *)

From S2P Require Import Prelude.
Local Open Scope string_scope.

(** What [Display] appends for an error with a cause. *)
Definition display_cause (cause : option string) : string :=
  match cause with
  | Some c => "
Caused by: " +:+ c
  | None => ""
  end.

Module CryptoError.

Inductive ErrorKind : Set :=
| Custom
| Encryption
| ExceededBuffer
| Invalid
| InvalidKeyData
| InvalidNonce
| MissingSecretKey
| Unexpected
| Usage
| Unsupported.

#[export] Instance ErrorKind_eq_dec : EqDecision ErrorKind.
Proof. solve_decision. Defined.

Definition as_str (k : ErrorKind) : string :=
  match k with
  | Custom => "Custom error"
  | Encryption => "Encryption error"
  | ExceededBuffer => "Exceeded buffer size"
  | Invalid => "Invalid input"
  | InvalidNonce => "Invalid encryption nonce"
  | InvalidKeyData => "Invalid key data"
  | MissingSecretKey => "Missing secret key"
  | Unexpected => "Unexpected error"
  | Usage => "Usage error"
  | Unsupported => "Unsupported"
  end.

Record Error : Set := mkError {
  kind : ErrorKind;
  cause : option string;
  message_opt : option string;
}.

Definition from_msg (k : ErrorKind) (msg : string) : Error := mkError k None (Some msg).
Definition from_kind (k : ErrorKind) : Error := mkError k None None.
Definition with_cause (e : Error) (c : string) : Error := mkError (kind e) (Some c) (message_opt e).

(** The accessor falls back on the kind's text. *)
Definition message (e : Error) : string := default (as_str (kind e)) (message_opt e).

Definition fmt (e : Error) : string :=
  (match message_opt e with Some msg => msg | None => as_str (kind e) end)
  +:+ display_cause (cause e).

Definition eqb (e1 e2 : Error) : bool :=
  bool_decide (kind e1 = kind e2) && bool_decide (message_opt e1 = message_opt e2).

End CryptoError.

Module StorageError.

Inductive ErrorKind : Set :=
| Backend
| Busy
| Custom
| Duplicate
| Encryption
| Input
| NotFound
| Unexpected
| Unsupported.

#[export] Instance ErrorKind_eq_dec : EqDecision ErrorKind.
Proof. solve_decision. Defined.

Definition as_str (k : ErrorKind) : string :=
  match k with
  | Backend => "Backend error"
  | Busy => "Busy"
  | Custom => "Custom error"
  | Duplicate => "Duplicate"
  | Encryption => "Encryption error"
  | Input => "Input error"
  | NotFound => "Not found"
  | Unexpected => "Unexpected error"
  | Unsupported => "Unsupported"
  end.

Record Error : Set := mkError {
  kind : ErrorKind;
  cause : option string;
  message : option string;
}.

(** The forms of the [err_msg!] and [err_map!] macros. *)
Definition from_msg (k : ErrorKind) (msg : string) : Error := mkError k None (Some msg).
Definition from_kind (k : ErrorKind) : Error := mkError k None None.
Definition with_cause (e : Error) (c : string) : Error := mkError (kind e) (Some c) (message e).
Definition err_map (k : ErrorKind) (msg : string) (c : string) : Error := with_cause (from_msg k msg) c.
Definition err_map_kind (k : ErrorKind) (c : string) : Error := with_cause (from_kind k) c.

Definition into_parts (e : Error) : ErrorKind * option string * option string :=
  (kind e, cause e, message e).

Definition fmt (e : Error) : string :=
  (match message e with Some msg => msg | None => as_str (kind e) end)
  +:+ display_cause (cause e).

Definition eqb (e1 e2 : Error) : bool :=
  bool_decide (kind e1 = kind e2) && bool_decide (message e1 = message e2).

(** [impl From<CryptoError> for Error]. *)
Definition from_crypto (err : CryptoError.Error) : Error :=
  let k :=
    match CryptoError.kind err with
    | CryptoError.Custom => Custom
    | CryptoError.Encryption => Encryption
    | CryptoError.ExceededBuffer | CryptoError.Unexpected => Unexpected
    | CryptoError.Invalid
    | CryptoError.InvalidKeyData
    | CryptoError.InvalidNonce
    | CryptoError.MissingSecretKey
    | CryptoError.Usage => Input
    | CryptoError.Unsupported => Unsupported
    end in
  from_msg k (CryptoError.message err).

(** [impl From<sqlx::Error>], [From<FromUtf8Error>], [From<Utf8Error>]. *)
Definition from_sqlx (c : string) : Error := with_cause (from_kind Backend) c.
(** [impl From<std::io::Error>]. *)
Definition from_io (c : string) : Error := with_cause (from_kind Input) c.

End StorageError.

Module AskarError.

Inductive ErrorKind : Set :=
| Backend
| Busy
| Custom
| Duplicate
| Encryption
| Input
| NotFound
| Unexpected
| Unsupported.

Definition as_str (k : ErrorKind) : string :=
  match k with
  | Backend => "Backend error"
  | Busy => "Busy"
  | Custom => "Custom error"
  | Duplicate => "Duplicate"
  | Encryption => "Encryption error"
  | Input => "Input error"
  | NotFound => "Not found"
  | Unexpected => "Unexpected error"
  | Unsupported => "Unsupported"
  end.

Record Error : Set := mkError {
  kind : ErrorKind;
  cause : option string;
  message : option string;
}.

Definition from_msg (k : ErrorKind) (msg : string) : Error := mkError k None (Some msg).
Definition from_kind (k : ErrorKind) : Error := mkError k None None.

Definition fmt (e : Error) : string :=
  (match message e with Some msg => msg | None => as_str (kind e) end)
  +:+ display_cause (cause e).

Definition from_crypto (err : CryptoError.Error) : Error :=
  let k :=
    match CryptoError.kind err with
    | CryptoError.Custom => Custom
    | CryptoError.Encryption => Encryption
    | CryptoError.ExceededBuffer | CryptoError.Unexpected => Unexpected
    | CryptoError.Invalid
    | CryptoError.InvalidKeyData
    | CryptoError.InvalidNonce
    | CryptoError.MissingSecretKey
    | CryptoError.Usage => Input
    | CryptoError.Unsupported => Unsupported
    end in
  from_msg k (CryptoError.message err).

Definition from_storage (err : StorageError.Error) : Error :=
  let '(k, c, m) := StorageError.into_parts err in
  let k :=
    match k with
    | StorageError.Backend => Backend
    | StorageError.Busy => Busy
    | StorageError.Custom => Custom
    | StorageError.Duplicate => Duplicate
    | StorageError.Encryption => Encryption
    | StorageError.Input => Input
    | StorageError.NotFound => NotFound
    | StorageError.Unexpected => Unexpected
    | StorageError.Unsupported => Unsupported
    end in
  mkError k c m.

End AskarError.

(** The storage crate's [Result]. *)
Abbreviation sres := (res StorageError.Error).
(** The crypto crate's [Result]. *)
Abbreviation cres := (res CryptoError.Error).

(** The [?] operator on a crypto result inside storage code. *)
Definition from_cres {A} (r : cres A) : sres A := map_err StorageError.from_crypto r.

(** An error raised in the crypto layer reaches the top-level API with the same
    kind, message and cause whether it is converted there directly or passes
    through the storage layer, and a storage error is displayed unchanged. *)
Lemma error_conversion_coherent :
  (∀ e : CryptoError.Error,
     AskarError.from_storage (StorageError.from_crypto e) = AskarError.from_crypto e)
  ∧ (∀ e : StorageError.Error, AskarError.fmt (AskarError.from_storage e) = StorageError.fmt e).
Proof. split; intros [[] ? []]; reflexivity. Qed.
