(* ===== verification/Wql.v ===== *)
(** * The wallet query language: queries, optimisation, JSON form, tag queries

    Models askar-storage/src/wql/query.rs and the query half of
    askar-storage/src/wql/tags.rs: [AbstractQuery] with [optimise] and [map],
    its JSON value form ([to_value], [parse_query]), and the split of tag names
    into encrypted and plaintext ones ([tag_query]). *)

From S2P Require Import Prelude.
#[local] Set Warnings "-register-all".
Local Open Scope string_scope.

(** ** Queries *)

Inductive AbstractQuery (K V : Type) : Type :=
| And (subqueries : list (AbstractQuery K V))
| Or (subqueries : list (AbstractQuery K V))
| Not (subquery : AbstractQuery K V)
| Eq (k : K) (v : V)
| Neq (k : K) (v : V)
| Gt (k : K) (v : V)
| Gte (k : K) (v : V)
| Lt (k : K) (v : V)
| Lte (k : K) (v : V)
| Like (k : K) (v : V)
| In (k : K) (vs : list V)
| Exist (ks : list K).
Arguments And {K V} _.
Arguments Or {K V} _.
Arguments Not {K V} _.
Arguments Eq {K V} _ _.
Arguments Neq {K V} _ _.
Arguments Gt {K V} _ _.
Arguments Gte {K V} _ _.
Arguments Lt {K V} _ _.
Arguments Lte {K V} _ _.
Arguments Like {K V} _ _.
Arguments In {K V} _ _.
Arguments Exist {K V} _.

Abbreviation Query := (AbstractQuery string string).

(** [impl Default for AbstractQuery]. *)
Definition default_query {K V} : AbstractQuery K V := And [].

(** Induction through the subquery lists. *)
Section Induction.
Context {K V : Type} (P : AbstractQuery K V → Prop).
Hypothesis HAnd : ∀ l, Forall P l → P (And l).
Hypothesis HOr : ∀ l, Forall P l → P (Or l).
Hypothesis HNot : ∀ q, P q → P (Not q).
Hypothesis HLeaf : ∀ q, match q with And _ | Or _ | Not _ => False | _ => True end → P q.

Fixpoint query_ind (q : AbstractQuery K V) : P q :=
  let go := fix go (l : list (AbstractQuery K V)) : Forall P l :=
    match l with
    | [] => @List.Forall_nil _ P
    | x :: l' => @List.Forall_cons _ P x l' (query_ind x) (go l')
    end in
  match q with
  | And l => HAnd l (go l)
  | Or l => HOr l (go l)
  | Not q' => HNot q' (query_ind q')
  | Eq k v => HLeaf (Eq k v) I
  | Neq k v => HLeaf (Neq k v) I
  | Gt k v => HLeaf (Gt k v) I
  | Gte k v => HLeaf (Gte k v) I
  | Lt k v => HLeaf (Lt k v) I
  | Lte k v => HLeaf (Lte k v) I
  | Like k v => HLeaf (Like k v) I
  | In k vs => HLeaf (In k vs) I
  | Exist ks => HLeaf (Exist ks) I
  end.

End Induction.

(** ** Optimisation *)

Section FilterMap.
Context {A B : Type} (f : A → option B).

(** [Iterator::filter_map]. *)
Fixpoint filter_map (l : list A) : list B :=
  match l with
  | [] => []
  | x :: l' => match f x with Some y => y :: filter_map l' | None => filter_map l' end
  end.

End FilterMap.

Fixpoint optimise {K V} (q : AbstractQuery K V) : option (AbstractQuery K V) :=
  match q with
  | Not boxed_query =>
      match optimise boxed_query with
      | None => None
      | Some (Not nested_query) => Some nested_query
      | Some other => Some (Not other)
      end
  | And subqueries =>
      match filter_map optimise subqueries with
      | [] => None
      | [q0] => Some q0
      | l => Some (And l)
      end
  | Or subqueries =>
      match filter_map optimise subqueries with
      | [] => None
      | [q0] => Some q0
      | l => Some (Or l)
      end
  | In key [target] => Some (Eq key target)
  | other => Some other
  end.

(** ** Transforming names and values *)

Section Map.
Context {K V RK RV E : Type} (kf : K → res E RK) (vf : K → V → res E RV).

Definition map_leaf (c : RK → RV → AbstractQuery RK RV) (tag_name : K) (tag_value : V)
    : res E (AbstractQuery RK RV) :=
  v ← vf tag_name tag_value;
  k ← kf tag_name;
  mret (c k v).

(** The value of a clause is converted before its name; subqueries in order. *)
Fixpoint map_query (q : AbstractQuery K V) : res E (AbstractQuery RK RV) :=
  match q with
  | Eq k v => map_leaf Eq k v
  | Neq k v => map_leaf Neq k v
  | Gt k v => map_leaf Gt k v
  | Gte k v => map_leaf Gte k v
  | Lt k v => map_leaf Lt k v
  | Lte k v => map_leaf Lte k v
  | Like k v => map_leaf Like k v
  | In k vs =>
      vs' ← mapM (vf k) vs;
      k' ← kf k;
      mret (In k' vs')
  | Exist ks =>
      ks' ← mapM kf ks;
      mret (Exist ks')
  | And l =>
      l' ← mapM map_query l;
      mret (And l')
  | Or l =>
      l' ← mapM map_query l;
      mret (Or l')
  | Not q' =>
      q'' ← map_query q';
      mret (Not q'')
  end.

End Map.

Definition map_names {K V RK E} (f : K → res E RK) (q : AbstractQuery K V)
    : res E (AbstractQuery RK V) :=
  map_query f (λ _ v, Ok v) q.

Definition map_values {K V RV E} (f : K → V → res E RV) (q : AbstractQuery K V)
    : res E (AbstractQuery K RV) :=
  map_query (λ k, Ok k) f q.

(** ** JSON values *)

(** [serde_json::Value]; an object in the iteration order of its map, a number
    as its literal text. *)
Inductive JsonValue : Type :=
| JNull
| JBool (b : bool)
| JNumber (n : string)
| JString (s : string)
| JArray (l : list JsonValue)
| JObject (m : list (string * JsonValue)).

(** [AbstractQuery::to_value], the names converted to strings by [into]. *)
Section ToValue.
Context {K : Type} (into : K → string).

Definition op_value (k : K) (op : string) (v : JsonValue) : JsonValue :=
  JObject [(into k, JObject [(op, v)])].

Fixpoint to_value (q : AbstractQuery K string) : JsonValue :=
  match q with
  | Eq k v => JObject [(into k, JString v)]
  | Neq k v => op_value k "$neq" (JString v)
  | Gt k v => op_value k "$gt" (JString v)
  | Gte k v => op_value k "$gte" (JString v)
  | Lt k v => op_value k "$lt" (JString v)
  | Lte k v => op_value k "$lte" (JString v)
  | Like k v => op_value k "$like" (JString v)
  | In k vs => op_value k "$in" (JArray (List.map JString vs))
  | Exist ks => JObject [("$exist", JArray (List.map (λ k, JString (into k)) ks))]
  | And [] => JObject []
  | And l => JObject [("$and", JArray (List.map to_value l))]
  | Or [] => JObject []
  | Or l => JObject [("$or", JArray (List.map to_value l))]
  | Not q' => JObject [("$not", to_value q')]
  end.

End ToValue.

(** ** Parsing the JSON form; an error is its message *)

Abbreviation pres := (res string).

Definition as_json_string (err : string) (v : JsonValue) : pres string :=
  match v with JString s => Ok s | _ => Err err end.

Definition parse_single_operator (operator_name key : string) (value : JsonValue) : pres Query :=
  if String.eqb operator_name "$neq" then
    v ← as_json_string "$neq must be used with string" value; mret (Neq key v)
  else if String.eqb operator_name "$gt" then
    v ← as_json_string "$gt must be used with string" value; mret (Gt key v)
  else if String.eqb operator_name "$gte" then
    v ← as_json_string "$gte must be used with string" value; mret (Gte key v)
  else if String.eqb operator_name "$lt" then
    v ← as_json_string "$lt must be used with string" value; mret (Lt key v)
  else if String.eqb operator_name "$lte" then
    v ← as_json_string "$lte must be used with string" value; mret (Lte key v)
  else if String.eqb operator_name "$like" then
    v ← as_json_string "$like must be used with string" value; mret (Like key v)
  else if String.eqb operator_name "$in" then
    match value with
    | JArray values =>
        vs ← mapM (as_json_string "$in must be used with array of strings") values;
        mret (In key vs)
    | _ => Err "$in must be used with array of strings"
    end
  else Err "Unknown operator".

(** [parse_query], over the parser of one member. *)
Section ParseQuery.
Context (parse_operator : string → JsonValue → pres (option Query)).

Fixpoint parse_members (m : list (string * JsonValue)) : pres (list Query) :=
  match m with
  | [] => mret []
  | (key, value) :: m' =>
      o ← parse_operator key value;
      rest ← parse_members m';
      mret (match o with Some operator_ => operator_ :: rest | None => rest end)
  end.

Definition parse_query_with (m : list (string * JsonValue)) : pres Query :=
  operators ← parse_members m;
  mret (match operators with [q] => q | _ => And operators end).

Fixpoint parse_list_operators (operators : list JsonValue) : pres (list Query) :=
  match operators with
  | [] => mret []
  | JObject m :: operators' =>
      subquery ← parse_query_with m;
      rest ← parse_list_operators operators';
      mret (subquery :: rest)
  | _ :: _ => Err "operator must be array of JSON objects"
  end.

End ParseQuery.

Definition exist_error : string := "$exist must be used with a string or array of strings".

Fixpoint parse_operator (key : string) (value : JsonValue) : pres (option Query) :=
  if String.eqb key "$and" then
    match value with
    | JArray [] => mret None
    | JArray values => l ← parse_list_operators parse_operator values; mret (Some (And l))
    | _ => Err "$and must be array of JSON objects"
    end
  else if String.eqb key "$or" then
    match value with
    | JArray [] => mret None
    | JArray values => l ← parse_list_operators parse_operator values; mret (Some (Or l))
    | _ => Err "$or must be array of JSON objects"
    end
  else if String.eqb key "$not" then
    match value with
    | JObject m => operator ← parse_query_with parse_operator m; mret (Some (Not operator))
    | _ => Err "$not must be JSON object"
    end
  else if String.eqb key "$exist" then
    match value with
    | JString k => mret (Some (Exist [k]))
    | JArray [] => mret None
    | JArray keys => ks ← mapM (as_json_string exist_error) keys; mret (Some (Exist ks))
    | _ => Err exist_error
    end
  else
    match value with
    | JString v => mret (Some (Eq key v))
    | JObject [(operator_name, v)] =>
        q ← parse_single_operator operator_name key v; mret (Some q)
    | JObject _ => Err "value must be JSON object of length 1"
    | _ => Err "Unsupported value"
    end.

Definition parse_query : list (string * JsonValue) → pres Query := parse_query_with parse_operator.

Definition is_null (v : JsonValue) : bool := match v with JNull => true | _ => false end.

(** [impl Deserialize for Query]: an object, or the older array of
    restrictions, read as their disjunction with null members dropped. *)
Fixpoint restrictions (array : list JsonValue) : pres (list JsonValue) :=
  match array with
  | [] => mret []
  | JObject m :: array' =>
      rest ← restrictions array';
      mret (match List.filter (λ kv, negb (is_null kv.2)) m with
            | [] => rest
            | m' => JObject m' :: rest
            end)
  | _ :: _ => Err "Restriction is invalid"
  end.

Definition deserialize_query (v : JsonValue) : pres Query :=
  match v with
  | JObject m => parse_query m
  | JArray array => res_ ← restrictions array; parse_query [("$or", JArray res_)]
  | _ => Err "Restriction must be either object or array"
  end.

(** ** Tag queries *)

(** Comparison operators of a clause. *)
Module CompareOp.
Inductive t : Set :=
| Eq
| Neq
| Gt
| Gte
| Lt
| Lte
| Like.
End CompareOp.
Abbreviation CompareOp := CompareOp.t.

Inductive TagName : Set :=
| Encrypted (name : string)
| Plaintext (name : string).

#[export] Instance TagName_eq_dec : EqDecision TagName.
Proof. solve_decision. Defined.

Abbreviation TagQuery := (AbstractQuery TagName string).

(** [str::strip_prefix] for the one character [~]. *)
Definition strip_tilde (k : string) : option string :=
  match k with
  | String "~"%char plain => Some plain
  | _ => None
  end.

(** The closure of [tag_query]. *)
Definition split_tag_name (k : string) : TagName :=
  match strip_tilde k with
  | Some plain => Plaintext plain
  | None => Encrypted k
  end.

Definition tag_name_to_string (n : TagName) : string :=
  match n with
  | Encrypted v => v
  | Plaintext v => "~" +:+ v
  end.

Definition is_plaintext (n : TagName) : bool :=
  match n with Plaintext _ => true | Encrypted _ => false end.

Definition validate_tag_query {E} (_ : TagQuery) : res E () := Ok ().

Definition tag_query {E} (query : Query) : res E TagQuery :=
  result ← unwrap (match map_names (E := ()) (λ k, Ok (split_tag_name k)) query with
                   | Ok q => Some q
                   | _ => None
                   end);
  _ ← validate_tag_query result;
  mret result.

(** ** Meaning of a query

    A query is evaluated against a record through the truth of its leaf
    clauses: whether the record has a field of the given name whose value
    compares as required, and whether it has a field of the given name. *)

Section Eval.
Context {K V : Type} (holds : CompareOp → K → V → bool) (has : K → bool).

Fixpoint eval (q : AbstractQuery K V) : bool :=
  match q with
  | And l => forallb eval l
  | Or l => existsb eval l
  | Not q' => negb (eval q')
  | Eq k v => holds CompareOp.Eq k v
  | Neq k v => holds CompareOp.Neq k v
  | Gt k v => holds CompareOp.Gt k v
  | Gte k v => holds CompareOp.Gte k v
  | Lt k v => holds CompareOp.Lt k v
  | Lte k v => holds CompareOp.Lte k v
  | Like k v => holds CompareOp.Like k v
  | In k vs => existsb (holds CompareOp.Eq k) vs
  | Exist ks => forallb has ks
  end.

End Eval.

(** No conjunction or disjunction of the query is empty. *)
Fixpoint no_empty {K V} (q : AbstractQuery K V) : bool :=
  match q with
  | And [] | Or [] => false
  | And l | Or l => forallb no_empty l
  | Not q' => no_empty q'
  | _ => true
  end.

(** The shapes [optimise] leaves. *)
Fixpoint normal {K V} (q : AbstractQuery K V) : bool :=
  match q with
  | And l | Or l => (1 <? length l)%nat && forallb normal l
  | Not (Not _) => false
  | Not q' => normal q'
  | In _ [_] => false
  | _ => true
  end.

(** ** Lemmas on optimisation *)

Section OptimiseLemmas.
Context {K V : Type}.
Implicit Types q : AbstractQuery K V.
Implicit Types l : list (AbstractQuery K V).

Lemma filter_map_total (f : AbstractQuery K V → option (AbstractQuery K V))
    (ev : AbstractQuery K V → bool) l :
  Forall (λ q, ∃ q', f q = Some q' ∧ ev q' = ev q) l →
  length (filter_map f l) = length l
  ∧ forallb ev (filter_map f l) = forallb ev l
  ∧ existsb ev (filter_map f l) = existsb ev l.
Proof.
  induction 1 as [|q l (q' & Hf & He) _ (IHl & IHa & IHo)]; [done|].
  simpl. rewrite Hf. simpl. by rewrite IHl, IHa, IHo, He.
Qed.

Lemma optimise_not q :
  optimise (Not q) = (optimise q ≫= λ q', Some (match q' with Not n => n | o => Not o end)).
Proof. simpl. destruct (optimise q) as [[]|]; done. Qed.

(** The list case shared by conjunctions and disjunctions. *)
Definition collapse (c : list (AbstractQuery K V) → AbstractQuery K V) l
    : option (AbstractQuery K V) :=
  match l with [] => None | [q0] => Some q0 | _ => Some (c l) end.

Lemma optimise_and l : optimise (And l) = collapse And (filter_map optimise l).
Proof. simpl. by destruct (filter_map _ _) as [|? []]. Qed.
Lemma optimise_or l : optimise (Or l) = collapse Or (filter_map optimise l).
Proof. simpl. by destruct (filter_map _ _) as [|? []]. Qed.

Lemma collapse_sound c (ev : AbstractQuery K V → bool) (agg : list (AbstractQuery K V) → bool) l :
  (∀ q, agg [q] = ev q) → (∀ l, ev (c l) = agg l) → l ≠ [] →
  ∃ q', collapse c l = Some q' ∧ ev q' = agg l.
Proof.
  intros H1 Hc Hl. destruct l as [|q [|q2 l]]; [done| |]; simpl; eexists; split; eauto.
Qed.

Lemma collapse_normal c l :
  (∀ l, normal (c l) = (1 <? length l)%nat && forallb normal l) →
  forallb normal l = true → ∀ q', collapse c l = Some q' → normal q' = true.
Proof.
  intros Hc Hl q' Hq. destruct l as [|q [|q2 l]]; simplify_eq/=.
  - by destruct (normal q').
  - rewrite Hc. simpl. done.
Qed.

Lemma filter_map_normal l :
  Forall (λ q, normal q = true → optimise q = Some q) l →
  forallb normal l = true → filter_map optimise l = l.
Proof.
  induction 1 as [|q l Hq _ IH]; [done|]. simpl. intros [Hn Hl]%andb_prop.
  by rewrite Hq, IH.
Qed.

Lemma normal_optimised q : normal q = true → optimise q = Some q.
Proof.
  induction q as [l IH|l IH|q IH|q Hleaf] using query_ind; intros Hn.
  - apply andb_prop in Hn as [Hlen Hl]. rewrite optimise_and, filter_map_normal by done.
    by destruct l as [|? []].
  - apply andb_prop in Hn as [Hlen Hl]. rewrite optimise_or, filter_map_normal by done.
    by destruct l as [|? []].
  - rewrite optimise_not, IH; destruct q; done.
  - destruct q as [| | | | | | | | | |k [|v [|]]|]; done.
Qed.

Lemma filter_map_all_normal l :
  Forall (λ q, ∀ q', optimise q = Some q' → normal q' = true) l →
  forallb normal (filter_map optimise l) = true.
Proof.
  induction 1 as [|q l Hq _ IHl]; [done|]. simpl.
  destruct (optimise q) as [q0|]; simpl; [|done]. by rewrite (Hq q0 eq_refl).
Qed.

Lemma optimise_normal q : ∀ q', optimise q = Some q' → normal q' = true.
Proof.
  induction q as [l IH|l IH|q IH|q Hleaf] using query_ind; intros q'.
  - rewrite optimise_and. by apply collapse_normal, filter_map_all_normal.
  - rewrite optimise_or. by apply collapse_normal, filter_map_all_normal.
  - rewrite optimise_not. destruct (optimise q) as [q0|]; [|done]. specialize (IH _ eq_refl).
    intros [= <-]. destruct q0; try done. by destruct q0.
  - destruct q as [| | | | | | | | | |k [|v [|]]|]; try done; intros [= <-]; done.
Qed.

Section Sound.
Context (holds : CompareOp → K → V → bool) (has : K → bool).

Lemma optimise_eval_list l (agg : list (AbstractQuery K V) → bool) c :
  (agg = forallb (eval holds has) ∨ agg = existsb (eval holds has)) →
  (∀ l, eval holds has (c l) = agg l) →
  Forall (λ q, no_empty q = true →
    ∃ q', optimise q = Some q' ∧ eval holds has q' = eval holds has q) l →
  l ≠ [] → forallb no_empty l = true →
  ∃ q', collapse c (filter_map optimise l) = Some q' ∧ eval holds has q' = agg l.
Proof.
  intros Hagg Hc IH Hl Hn.
  destruct (filter_map_total optimise (eval holds has) l) as (Hlen & Ha & Ho).
  { clear -IH Hn. induction IH as [|q l Hq _ IHl]; constructor;
      apply andb_prop in Hn as [??]; auto. }
  destruct (collapse_sound c (eval holds has) agg (filter_map optimise l)) as (q' & ? & He).
  - destruct Hagg as [-> | ->]; intros q; simpl; by destruct (eval _ _ q).
  - done.
  - intros E. rewrite E in Hlen. by destruct l.
  - exists q'. split; [done|]. rewrite He. by destruct Hagg as [-> | ->].
Qed.

Lemma optimise_eval q :
  no_empty q = true → ∃ q', optimise q = Some q' ∧ eval holds has q' = eval holds has q.
Proof.
  induction q as [l IH|l IH|q IH|q Hleaf] using query_ind; intros Hn.
  - rewrite optimise_and. apply (optimise_eval_list l _ And); auto; by destruct l.
  - rewrite optimise_or. apply (optimise_eval_list l _ Or); auto; by destruct l.
  - rewrite optimise_not. destruct (IH Hn) as (q0 & -> & He). simpl. eexists; split; [done|].
    rewrite <- He. destruct q0; simpl; by rewrite ?negb_involutive.
  - destruct q as [| | | | | | | | | |k [|v [|]]|]; try done; eexists; split; try done.
    simpl. by destruct (holds _ _ _).
Qed.

End Sound.

End OptimiseLemmas.

(** ** Lemmas on the JSON form *)

Section JsonInduction.
Context (P : JsonValue → Prop).
Hypothesis HArray : ∀ l, Forall P l → P (JArray l).
Hypothesis HObject : ∀ m, Forall (λ kv, P kv.2) m → P (JObject m).
Hypothesis HScalar : ∀ v, match v with JArray _ | JObject _ => False | _ => True end → P v.

Fixpoint json_ind (v : JsonValue) : P v :=
  let go := fix go (l : list JsonValue) : Forall P l :=
    match l with
    | [] => @List.Forall_nil _ P
    | x :: l' => @List.Forall_cons _ P x l' (json_ind x) (go l')
    end in
  let gom := fix gom (m : list (string * JsonValue)) : Forall (λ kv, P kv.2) m :=
    match m with
    | [] => @List.Forall_nil _ _
    | kv :: m' => @List.Forall_cons _ (λ kv, P kv.2) kv m' (json_ind kv.2) (gom m')
    end in
  match v with
  | JArray l => HArray l (go l)
  | JObject m => HObject m (gom m)
  | JNull => HScalar JNull I
  | JBool b => HScalar (JBool b) I
  | JNumber n => HScalar (JNumber n) I
  | JString s => HScalar (JString s) I
  end.

End JsonInduction.

(** Keys of an object that are not field names. *)
Definition reserved (k : string) : bool :=
  String.eqb k "$and" || String.eqb k "$or" || String.eqb k "$not" || String.eqb k "$exist".

(** The queries whose JSON form denotes them: no field has a reserved name, and
    no disjunction or existence clause is empty. *)
Fixpoint json_ok {K V} (into : K → string) (q : AbstractQuery K V) : bool :=
  match q with
  | And l => forallb (json_ok into) l
  | Or l => negb (bool_decide (l = [])) && forallb (json_ok into) l
  | Not q' => json_ok into q'
  | Exist ks => negb (bool_decide (ks = []))
  | Eq k _ | Neq k _ | Gt k _ | Gte k _ | Lt k _ | Lte k _ | Like k _ | In k _ =>
      negb (reserved (into k))
  end.

(** Renaming the fields of a query. *)
Fixpoint rename {K K' V} (f : K → K') (q : AbstractQuery K V) : AbstractQuery K' V :=
  match q with
  | And l => And (List.map (rename f) l)
  | Or l => Or (List.map (rename f) l)
  | Not q' => Not (rename f q')
  | Eq k v => Eq (f k) v
  | Neq k v => Neq (f k) v
  | Gt k v => Gt (f k) v
  | Gte k v => Gte (f k) v
  | Lt k v => Lt (f k) v
  | Lte k v => Lte (f k) v
  | Like k v => Like (f k) v
  | In k vs => In (f k) vs
  | Exist ks => Exist (List.map f ks)
  end.

Lemma map_names_rename {K K' V E} (f : K → K') (q : AbstractQuery K V) :
  map_names (E := E) (λ k, Ok (f k)) q = Ok (rename f q).
Proof.
  unfold map_names. induction q as [l IH|l IH|q IH|q Hleaf] using query_ind; cbn.
  - by rewrite (mapM_ok _ _ _ IH).
  - by rewrite (mapM_ok _ _ _ IH).
  - by rewrite IH.
  - destruct q as [| | | | | | | | | |k vs|ks]; try done; cbn.
    + rewrite (mapM_ok _ id) by by apply Forall_true. cbn. by rewrite List.map_id.
    + rewrite (mapM_ok _ f) by by apply Forall_true. done.
Qed.

Lemma rename_ext {K K' V} (f g : K → K') (q : AbstractQuery K V) :
  (∀ k, f k = g k) → rename f q = rename g q.
Proof.
  intros Hfg. induction q as [l IH|l IH|q IH|q Hleaf] using query_ind; cbn.
  - f_equal. by apply List.map_ext_Forall.
  - f_equal. by apply List.map_ext_Forall.
  - by f_equal.
  - destruct q; cbn; try done; rewrite ?Hfg; try done. f_equal. by apply List.map_ext.
Qed.

Lemma rename_id {K V} (q : AbstractQuery K V) : rename id q = q.
Proof.
  induction q as [l IH|l IH|q IH|q Hleaf] using query_ind; cbn.
  - f_equal. induction IH; cbn; by f_equal.
  - f_equal. induction IH; cbn; by f_equal.
  - by f_equal.
  - destruct q; cbn; try done. f_equal. apply List.map_id.
Qed.

Lemma parse_field key value :
  reserved key = false →
  parse_operator key value =
    match value with
    | JString v => mret (Some (Eq key v))
    | JObject [(operator_name, v)] =>
        q ← parse_single_operator operator_name key v; mret (Some q)
    | JObject _ => Err "value must be JSON object of length 1"
    | _ => Err "Unsupported value"
    end.
Proof.
  unfold reserved. intros H.
  destruct (String.eqb key "$and") eqn:E1; [done|].
  destruct (String.eqb key "$or") eqn:E2; [done|].
  destruct (String.eqb key "$not") eqn:E3; [done|]. simpl in H.
  destruct value; cbn; by rewrite E1, E2, E3, H.
Qed.

Lemma parse_query_single key value q :
  parse_operator key value = Ok (Some q) → parse_query [(key, value)] = Ok q.
Proof. intros H. unfold parse_query, parse_query_with. cbn. by rewrite H. Qed.

Lemma parse_strings err {A} (f : A → string) (l : list A) :
  mapM (as_json_string err) (List.map (λ x, JString (f x)) l) = Ok (List.map f l).
Proof.
  induction l as [|x l IH]; [done|]. cbn [List.map]. by rewrite mapM_cons, IH.
Qed.

Lemma parse_list_map {A} (f : A → list (string * JsonValue)) (g : A → Query) (l : list A) :
  Forall (λ x, parse_query (f x) = Ok (g x)) l →
  parse_list_operators parse_operator (List.map (λ x, JObject (f x)) l) = Ok (List.map g l).
Proof.
  induction 1 as [|x l Hx _ IH]; [done|]. cbn. unfold parse_query in Hx. rewrite Hx. cbn.
  by rewrite IH.
Qed.

(** The equations of [parse_operator] on the reserved keys. *)
Lemma parse_and values :
  values ≠ [] → parse_operator "$and" (JArray values) =
    (l ← parse_list_operators parse_operator values; mret (Some (And l))).
Proof. by destruct values. Qed.

Lemma parse_or values :
  values ≠ [] → parse_operator "$or" (JArray values) =
    (l ← parse_list_operators parse_operator values; mret (Some (Or l))).
Proof. by destruct values. Qed.

Lemma parse_not m :
  parse_operator "$not" (JObject m) = (q ← parse_query m; mret (Some (Not q))).
Proof. done. Qed.

Lemma parse_exist keys :
  keys ≠ [] → parse_operator "$exist" (JArray keys) =
    (ks ← mapM (as_json_string exist_error) keys; mret (Some (Exist ks))).
Proof. by destruct keys. Qed.

(** The members of the object a query serializes to. *)
Definition members (v : JsonValue) : list (string * JsonValue) :=
  match v with JObject m => m | _ => [] end.

Lemma to_value_object {K} (into : K → string) q :
  to_value into q = JObject (members (to_value into q)).
Proof. by destruct q as [[]|[]| | | | | | | | | |]. Qed.

Lemma to_value_and {K} (into : K → string) l :
  l ≠ [] → to_value into (And l) = JObject [("$and", JArray (List.map (to_value into) l))].
Proof. by destruct l. Qed.

Lemma to_value_or {K} (into : K → string) l :
  l ≠ [] → to_value into (Or l) = JObject [("$or", JArray (List.map (to_value into) l))].
Proof. by destruct l. Qed.

Lemma parse_conj_values {K} (into : K → string) (l : list (AbstractQuery K string)) :
  Forall (λ q, parse_query (members (to_value into q)) = Ok (rename into q)) l →
  parse_list_operators parse_operator (List.map (to_value into) l) = Ok (List.map (rename into) l).
Proof.
  intros H. rewrite <- (parse_list_map (λ q, members (to_value into q))) by done. f_equal.
  apply List.map_ext. intros q. apply to_value_object.
Qed.

Lemma parse_to_value {K} (into : K → string) (q : AbstractQuery K string) :
  json_ok into q = true → parse_query (members (to_value into q)) = Ok (rename into q).
Proof.
  induction q as [l IH|l IH|q IH|q Hleaf] using query_ind; intros Hok.
  - apply Forall_guard, parse_conj_values in IH; [|done].
    destruct (decide (l = [])) as [->|Hne]; [done|]. rewrite to_value_and by done.
    apply parse_query_single. rewrite parse_and, IH; [done|]. by destruct l.
  - apply andb_prop in Hok as [Hne Hok]. apply Forall_guard, parse_conj_values in IH; [|done].
    apply negb_true_iff, bool_decide_eq_false in Hne. rewrite to_value_or by done.
    apply parse_query_single. rewrite parse_or, IH; [done|]. by destruct l.
  - change (parse_query [("$not", to_value into q)] = Ok (Not (rename into q))).
    apply parse_query_single. by rewrite to_value_object, parse_not, IH.
  - destruct q as [| | |k v|k v|k v|k v|k v|k v|k v|k vs|ks]; try done; apply parse_query_single;
      try (apply negb_true_iff in Hok; rewrite parse_field by done; done).
    + apply negb_true_iff in Hok. rewrite parse_field by done. cbn.
      by rewrite (parse_strings _ id), List.map_id.
    + destruct ks as [|k ks]; [done|]. by rewrite parse_exist, (parse_strings _ into).
Qed.

(** Splits a chain of tests on a key. *)
Ltac case_keys Hp :=
  repeat match type of Hp with
  | (if String.eqb ?a ?b then _ else _) = _ => destruct (String.eqb a b) eqn:?
  end.

(** Parsing only produces queries whose JSON form denotes them. *)
Lemma parse_members_ok m ops :
  Forall (λ kv, ∀ key q, parse_operator key kv.2 = Ok (Some q) → json_ok id q = true) m →
  parse_members parse_operator m = Ok ops → forallb (json_ok id) ops = true.
Proof.
  intros H. revert ops. induction H as [|[key v] m Hv _ IH]; intros ops Hp; cbn in Hp.
  - by injection Hp as <-.
  - bind_inv Hp. bind_inv Hp. injection Hp as <-. rewrite <- (IH _ E0).
    destruct a as [q|]; [|done]. simpl. by rewrite (Hv key q E).
Qed.

Lemma parse_query_ok m q :
  Forall (λ kv, ∀ key q, parse_operator key kv.2 = Ok (Some q) → json_ok id q = true) m →
  parse_query m = Ok q → json_ok id q = true.
Proof.
  intros H Hp. unfold parse_query, parse_query_with in Hp. bind_inv Hp.
  apply parse_members_ok in E; [|done]. destruct a as [|q0 [|q1 l]]; injection Hp as <-; simpl in *.
  - done.
  - by apply andb_prop in E as [? _].
  - done.
Qed.

Lemma parse_single_ok op key v q :
  reserved key = false → parse_single_operator op key v = Ok q → json_ok id q = true.
Proof.
  unfold parse_single_operator. intros Hr Hp.
  case_keys Hp; try (bind_inv Hp; injection Hp as <-; simpl; by rewrite Hr).
  - destruct v; try done. bind_inv Hp. injection Hp as <-. simpl. by rewrite Hr.
  - done.
Qed.

Lemma parse_list_ok l qs :
  Forall (λ v, ∀ m q, v = JObject m → parse_query m = Ok q → json_ok id q = true) l →
  parse_list_operators parse_operator l = Ok qs →
  length qs = length l ∧ forallb (json_ok id) qs = true.
Proof.
  intros H. revert qs. induction H as [|v l Hv _ IH]; intros qs Hp; cbn in Hp.
  - by injection Hp as <-.
  - destruct v; try done. bind_inv Hp. bind_inv Hp. injection Hp as <-. simpl.
    destruct (IH _ E0) as [-> ->]. by rewrite (Hv _ _ eq_refl E).
Qed.

Lemma parse_operator_ok v : ∀ key q, parse_operator key v = Ok (Some q) → json_ok id q = true.
Proof.
  enough (H : (∀ key q, parse_operator key v = Ok (Some q) → json_ok id q = true)
    ∧ (∀ m q, v = JObject m → parse_query m = Ok q → json_ok id q = true)) by apply H.
  induction v as [l IH|m IH|v Hv] using json_ind.
  - split; [|done]. intros key q Hp. cbn in Hp.
    apply Forall_and in IH as [_ IH].
    case_keys Hp.
    + destruct l as [|v l]; [done|]. bind_inv Hp. injection Hp as <-. simpl.
      by apply (parse_list_ok (v :: l)).
    + destruct l as [|v l]; [done|]. bind_inv Hp. injection Hp as <-. simpl.
      apply (parse_list_ok (v :: l)) in E as [Hlen Hok]; [|done]. by destruct a.
    + done.
    + destruct l as [|v l]; [done|]. bind_inv Hp. injection Hp as <-.
      apply mapM_ok_inv, Forall2_length in E. by destruct a.
    + done.
  - assert (Hq : ∀ q, parse_query m = Ok q → json_ok id q = true).
    { intros q. apply parse_query_ok. eapply Forall_impl; [exact IH|]. by intros [] [? _]. }
    split; [|by intros ? ? [= <-]; apply Hq]. intros key q Hp.
    destruct (reserved key) eqn:Hr.
    + cbn in Hp. unfold reserved in Hr.
      case_keys Hp; try done.
      bind_inv Hp. injection Hp as <-. simpl. by apply Hq.
    + rewrite parse_field in Hp by done. destruct m as [|[op v] [|]]; try done.
      bind_inv Hp. injection Hp as <-. by eapply parse_single_ok.
  - split; [|by destruct v]. intros key q Hp. destruct v; try done; cbn in Hp;
      case_keys Hp;
      try done; injection Hp as <-; simpl; try done.
    apply negb_true_iff. unfold reserved. simpl. by repeat match goal with H : String.eqb _ _ = false |- _ => rewrite H; clear H end.
Qed.

(** Every field name of the query satisfies [p]. *)
Fixpoint all_names {K V} (p : K → bool) (q : AbstractQuery K V) : bool :=
  match q with
  | And l | Or l => forallb (all_names p) l
  | Not q' => all_names p q'
  | Exist ks => forallb p ks
  | Eq k _ | Neq k _ | Gt k _ | Gte k _ | Lt k _ | Lte k _ | Like k _ | In k _ => p k
  end.

Lemma rename_inverse {K K' V} (f : K → K') (g : K' → K) (p : K → bool) (q : AbstractQuery K V) :
  (∀ k, p k = true → g (f k) = k) → all_names p q = true → rename g (rename f q) = q.
Proof.
  intros Hgf. assert (Hk : ∀ ks, forallb p ks = true → List.map g (List.map f ks) = ks).
  { induction ks as [|k ks IH]; [done|]. simpl. intros [??]%andb_prop. rewrite Hgf, IH; done. }
  induction q as [l IH|l IH|q IH|q Hleaf] using query_ind; cbn; intros Hp.
  - apply Forall_guard in IH; [|done]. f_equal. clear Hp.
    induction IH as [|x l Hx _ IHl]; [done|]. cbn. by rewrite Hx, IHl.
  - apply Forall_guard in IH; [|done]. f_equal. clear Hp.
    induction IH as [|x l Hx _ IHl]; [done|]. cbn. by rewrite Hx, IHl.
  - by rewrite IH.
  - destruct q; try done; cbn; rewrite ?Hgf, ?Hk; done.
Qed.

(** A name that is not mistaken for a plaintext one. *)
Definition tag_name_ok (n : TagName) : bool :=
  match n with
  | Encrypted v => match strip_tilde v with Some _ => false | None => true end
  | Plaintext _ => true
  end.

Lemma split_to_string n : tag_name_ok n = true → split_tag_name (tag_name_to_string n) = n.
Proof.
  destruct n as [v|v]; [|done]. unfold tag_name_ok, split_tag_name. simpl.
  by destruct (strip_tilde v).
Qed.

Lemma tag_query_rename {E} (q : Query) : tag_query (E := E) q = Ok (rename split_tag_name q).
Proof. unfold tag_query. by rewrite map_names_rename. Qed.

Lemma deserialize_to_value {K} (into : K → string) q :
  json_ok into q = true → deserialize_query (to_value into q) = Ok (rename into q).
Proof. intros H. rewrite to_value_object. by apply parse_to_value. Qed.

(** ** Theorems *)

(** C33: Optimisation of a query with no empty conjunction or disjunction always
    yields a query, in normal form (no nested negation, no conjunction or
    disjunction of fewer than two clauses, no one-element set), which
    optimisation leaves as it is, and which matches exactly the same records. *)
Theorem optimise_correct {K V} (q : AbstractQuery K V) :
  no_empty q = true →
  ∃ q', optimise q = Some q' ∧ normal q' = true ∧ optimise q' = Some q'
    ∧ ∀ holds has, eval holds has q' = eval holds has q.
Proof.
  intros Hn. destruct (optimise_eval (λ _ _ _, true) (λ _, true) q Hn) as (q' & Hq & _).
  exists q'. pose proof (optimise_normal _ _ Hq). repeat split; auto using normal_optimised.
  intros holds has. destruct (optimise_eval holds has q Hn) as (q2 & Hq2 & He). congruence.
Qed.

Lemma optimise_correct_witness :
  let q : Query := Not (And [Or [In "a" ["x"]; Not (Not (Eq "b" "y"))]]) in
  no_empty q = true
  ∧ ∃ q', optimise q = Some q' ∧ normal q' = true ∧ optimise q' = Some q'
    ∧ ∀ holds has, eval holds has q' = eval holds has q.
Proof. split; [reflexivity|]. apply optimise_correct. reflexivity. Defined.

(** Whatever JSON value a query was read from, writing the query out as JSON
    and reading it back gives the same query. *)
Theorem query_json_stable (v : JsonValue) (q : Query) :
  deserialize_query v = Ok q → deserialize_query (to_value id q) = Ok q.
Proof.
  intros Hv. rewrite deserialize_to_value, rename_id; [done|].
  assert (Hok : ∀ m, Forall (λ kv : string * JsonValue,
    ∀ key q, parse_operator key kv.2 = Ok (Some q) → json_ok id q = true) m).
  { intros m. apply Forall_forall. intros kv _. apply parse_operator_ok. }
  destruct v; try done; unfold deserialize_query in Hv.
  - bind_inv Hv. by eapply parse_query_ok.
  - by eapply parse_query_ok.
Qed.

Lemma query_json_stable_witness :
  let v := JArray [JObject [("n", JString "v"); ("x", JNull)];
                   JObject [("$not", JObject [("t", JObject [("$in", JArray [JString "a"])])])]] in
  let q : Query := Or [Eq "n" "v"; Not (In "t" ["a"])] in
  deserialize_query v = Ok q ∧ deserialize_query (to_value id q) = Ok q.
Proof.
  split; [reflexivity|].
  apply (query_json_stable (JArray [JObject [("n", JString "v"); ("x", JNull)];
    JObject [("$not", JObject [("t", JObject [("$in", JArray [JString "a"])])])]])).
  reflexivity.
Defined.

(** A tag query written out as JSON, with plaintext names marked by a tilde,
    is read back and split into the same tag query, provided no encrypted name
    starts with a tilde, no name is a reserved key, and no disjunction or
    existence clause is empty. *)
Theorem tag_query_json_roundtrip (tq : TagQuery) :
  json_ok tag_name_to_string tq = true → all_names tag_name_ok tq = true →
  (q ← deserialize_query (to_value tag_name_to_string tq); tag_query q) = Ok tq.
Proof.
  intros Hj Hn. rewrite deserialize_to_value by done. cbn. rewrite tag_query_rename.
  f_equal. apply (rename_inverse _ _ tag_name_ok); [apply split_to_string|done].
Qed.

Lemma tag_query_json_roundtrip_witness :
  let tq : TagQuery := And [Eq (Encrypted "e") "v"; Exist [Plaintext "p"]] in
  (q ← deserialize_query (to_value tag_name_to_string tq); tag_query q) = Ok tq.
Proof. apply tag_query_json_roundtrip; reflexivity. Defined.

(** The query with no alternatives matches no record, but its JSON form is the
    empty object, which is read back as the query that matches every record. *)
Theorem empty_or_json_flips :
  deserialize_query (to_value id (Or [] : Query)) = Ok (And [])
  ∧ ∀ holds has, eval holds has (Or [] : Query) = false
      ∧ eval holds has (And [] : Query) = true.
Proof. repeat split. Qed.

(** Optimisation of the negation of a trivially true query gives no query at
    all, which callers read as unconditional, although it matches no record. *)
Theorem optimise_drops_not_true :
  optimise (Not (And []) : Query) = None
  ∧ ∀ holds has, eval holds has (Not (And []) : Query) = false.
Proof. repeat split. Qed.
