(* ===== verification/TagSql.v ===== *)
(** * Encoding tag queries as SQL

    Models the encoder half of askar-storage/src/wql/tags.rs (the
    [TagQueryEncoder] trait as a type class, [encode_tag_query] and its helpers
    against it) and askar-storage/src/wql/sql.rs ([TagSqlEncoder], the instance
    that writes SQL text and collects the query arguments). *)

From stdpp Require Import pretty.
From S2P Require Import Prelude Errors Wql.
Local Open Scope string_scope.

Definition as_sql_str (op : CompareOp) : string :=
  match op with
  | CompareOp.Eq => "="
  | CompareOp.Neq => "!="
  | CompareOp.Gt => ">"
  | CompareOp.Gte => ">="
  | CompareOp.Lt => "<"
  | CompareOp.Lte => "<="
  | CompareOp.Like => "LIKE"
  end.

(** The operator used on the 12-byte prefix of an encrypted value; the prefix
    test is weaker than the full comparison for orderings. *)
Definition as_sql_str_for_prefix (op : CompareOp) : option string :=
  match op with
  | CompareOp.Eq => Some "="
  | CompareOp.Neq => Some "!="
  | CompareOp.Gt | CompareOp.Gte => Some ">="
  | CompareOp.Lt | CompareOp.Lte => Some "<="
  | _ => None
  end.

Module ConjunctionOp.
Inductive t : Set :=
| And
| Or.
End ConjunctionOp.
Abbreviation ConjunctionOp := ConjunctionOp.t.

#[export] Instance ConjunctionOp_eq_dec : EqDecision ConjunctionOp.
Proof. solve_decision. Defined.

Definition conj_sql_str (op : ConjunctionOp) : string :=
  match op with
  | ConjunctionOp.And => " AND "
  | ConjunctionOp.Or => " OR "
  end.

Definition negate (op : ConjunctionOp) : ConjunctionOp :=
  match op with
  | ConjunctionOp.And => ConjunctionOp.Or
  | ConjunctionOp.Or => ConjunctionOp.And
  end.

(** ** The encoder interface; [S] is the state behind [&mut self] *)

Class TagQueryEncoder (S Arg Clause : Type) := {
  encode_name : TagName → stm S StorageError.Error Arg;
  encode_value : string → bool → stm S StorageError.Error Arg;
  encode_op_clause :
    CompareOp → Arg → Arg → bool → bool → stm S StorageError.Error (option Clause);
  encode_in_clause :
    Arg → list Arg → bool → bool → stm S StorageError.Error (option Clause);
  encode_exist_clause : Arg → bool → bool → stm S StorageError.Error (option Clause);
  encode_conj_clause :
    ConjunctionOp → list Clause → stm S StorageError.Error (option Clause);
}.

Section Encode.
Context {S Arg Clause : Type} {enc : TagQueryEncoder S Arg Clause}.
Abbreviation M := (stm S StorageError.Error).

Definition encode_tag_op (op : CompareOp) (name : TagName) (value : string) (neg : bool)
    : M (option Clause) :=
  let plain := is_plaintext name in
  enc_name ← encode_name name;
  enc_value ← encode_value value plain;
  encode_op_clause op enc_name enc_value plain neg.

Definition encode_tag_in (name : TagName) (values : list string) (neg : bool)
    : M (option Clause) :=
  let plain := is_plaintext name in
  enc_name ← encode_name name;
  enc_values ← mapM (λ val, encode_value val plain) values;
  encode_in_clause enc_name enc_values plain neg.

(** The loops that encode each element in turn and keep the clauses produced. *)
Section Clauses.
Context {A : Type} (f : A → M (option Clause)).
Fixpoint encode_each (l : list A) : M (list Clause) :=
  match l with
  | [] => mret []
  | x :: l' =>
      o ← f x;
      cs ← encode_each l';
      mret (match o with Some c => c :: cs | None => cs end)
  end.
End Clauses.

(** The one-name case of [encode_tag_exist]. *)
Definition encode_exist_one (neg : bool) (name : TagName) : M (option Clause) :=
  let plain := is_plaintext name in
  enc_name ← encode_name name;
  encode_exist_clause enc_name plain neg.

Definition encode_tag_exist (names : list TagName) (neg : bool) : M (option Clause) :=
  match names with
  | [] => mret None
  | [name] => encode_exist_one neg name
  | _ =>
      cs ← encode_each (encode_exist_one neg) names;
      encode_conj_clause ConjunctionOp.And cs
  end.

Definition encode_tag_conj_with (encode : TagQuery → M (option Clause)) (op : ConjunctionOp)
    (subqueries : list TagQuery) (neg : bool) : M (option Clause) :=
  let op := if neg then negate op else op in
  clauses ← encode_each encode subqueries;
  encode_conj_clause op clauses.

Fixpoint encode_tag_query (query : TagQuery) (neg : bool) : M (option Clause) :=
  match query with
  | Eq tag_name target_value => encode_tag_op CompareOp.Eq tag_name target_value neg
  | Neq tag_name target_value => encode_tag_op CompareOp.Neq tag_name target_value neg
  | Gt tag_name target_value => encode_tag_op CompareOp.Gt tag_name target_value neg
  | Gte tag_name target_value => encode_tag_op CompareOp.Gte tag_name target_value neg
  | Lt tag_name target_value => encode_tag_op CompareOp.Lt tag_name target_value neg
  | Lte tag_name target_value => encode_tag_op CompareOp.Lte tag_name target_value neg
  | Like tag_name target_value => encode_tag_op CompareOp.Like tag_name target_value neg
  | In tag_name target_values => encode_tag_in tag_name target_values neg
  | Exist tag_names => encode_tag_exist tag_names neg
  | And subqueries =>
      encode_tag_conj_with (λ q, encode_tag_query q neg) ConjunctionOp.And subqueries neg
  | Or subqueries =>
      encode_tag_conj_with (λ q, encode_tag_query q neg) ConjunctionOp.Or subqueries neg
  | Not subquery => encode_tag_query subquery (negb neg)
  end.

(** [TagQueryEncoder::encode_query]. *)
Definition encode_query (query : TagQuery) : M (option Clause) := encode_tag_query query false.

End Encode.

(** ** The SQL encoder

    Its two closures encrypt names and values; its mutable state is the list of
    arguments. *)

Record TagSqlEncoder := {
  enc_name : string → sres bytes;
  enc_value : string → sres bytes;
}.

Definition in_str (neg : bool) : string := if neg then "NOT IN" else "IN".
Definition plain_str (plain : bool) : string := if plain then "1" else "0".

(** [Itertools::intersperse(..).collect::<String>()]. *)
Definition join (sep : string) (l : list string) : string := String.concat sep l.

Section SqlEncoder.
Context (self : TagSqlEncoder).
Abbreviation M := (stm (list bytes) StorageError.Error).

(** [self.arguments.push], [self.arguments.extend]. *)
Definition push_arg (v : bytes) : M () := smod (λ args, (args ++ [v])%list).
Definition extend_args (vs : list bytes) : M () := smod (λ args, (args ++ vs)%list).

Definition sql_encode_name (name : TagName) : M bytes :=
  match name with Encrypted n | Plaintext n => lift (enc_name self n) end.

Definition sql_encode_value (value : string) (plain : bool) : M bytes :=
  if plain then mret (as_bytes value) else lift (enc_value self value).

Definition sql_encode_op_clause (op : CompareOp) (name value : bytes) (plain neg : bool)
    : M (option string) :=
  arguments ← sget;
  let idx := length arguments in
  let '(op_prefix, match_prefix) :=
    match plain, as_sql_str_for_prefix op with
    | false, Some pfx_op =>
        if (12 <? length value)%nat then
          (" AND SUBSTR(value, 1, 12) " +:+ pfx_op +:+ " $" +:+ pretty (idx + 3),
           Some (take 12 value))
        else ("", None)
    | _, _ => ("", None)
    end in
  _ ← push_arg name;
  _ ← push_arg value;
  _ ← match match_prefix with Some v => push_arg v | None => mret () end;
  mret (Some ("i.id " +:+ in_str neg
    +:+ " (SELECT item_id FROM items_tags WHERE name = $" +:+ pretty (idx + 1)
    +:+ " AND value " +:+ as_sql_str op +:+ " $" +:+ pretty (idx + 2)
    +:+ op_prefix +:+ " AND plaintext = " +:+ plain_str plain +:+ ")")).

Definition sql_encode_in_clause (name : bytes) (values : list bytes) (plain neg : bool)
    : M (option string) :=
  let args_in := join ", " (replicate (length values) "$$") in
  let query := "i.id " +:+ in_str neg
    +:+ " (SELECT item_id FROM items_tags WHERE name = $$ AND value IN (" +:+ args_in
    +:+ ") AND plaintext = " +:+ plain_str plain +:+ ")" in
  _ ← push_arg name;
  _ ← extend_args values;
  mret (Some query).

Definition sql_encode_exist_clause (name : bytes) (plain neg : bool) : M (option string) :=
  let query := "i.id " +:+ in_str neg
    +:+ " (SELECT item_id FROM items_tags WHERE name = $$ AND plaintext = "
    +:+ plain_str plain +:+ ")" in
  _ ← push_arg name;
  mret (Some query).

Definition sql_encode_conj_clause (op : ConjunctionOp) (clauses : list string)
    : M (option string) :=
  match clauses with
  | [] => if decide (op = ConjunctionOp.Or) then mret (Some "0") else mret None
  | [clause] => mret (Some clause)
  | _ => mret (Some ("(" +:+ join (conj_sql_str op) clauses +:+ ")"))
  end.

#[export] Instance sql_encoder : TagQueryEncoder (list bytes) bytes string := {
  encode_name := sql_encode_name;
  encode_value := sql_encode_value;
  encode_op_clause := sql_encode_op_clause;
  encode_in_clause := sql_encode_in_clause;
  encode_exist_clause := sql_encode_exist_clause;
  encode_conj_clause := sql_encode_conj_clause;
}.

(** [TagSqlEncoder::new(..)] followed by [encode_query]: the clause, if any, and
    the arguments collected. *)
Definition sql_encode_query (query : TagQuery) : list bytes * sres (option string) :=
  encode_query query [].

End SqlEncoder.
