(* ===== verification/DbQuery.v ===== *)
(** * Building parameterised queries

    Models the query-building part of askar-storage/src/backend/db_utils.rs:
    [QueryParams], the [QueryPrepare] trait (a type class with the instances of
    the SQLite and Postgres backends), [replace_arg_placeholders] and
    [extend_query].  A [String] is its UTF-8 bytes; none of the characters the
    code looks for occurs inside a multi-byte character. *)

From stdpp Require Import pretty.
From S2P Require Import Prelude Errors.
Local Open Scope string_scope.

Definition i64_max : Z := 2 ^ 63 - 1.
Definition i64_min : Z := - 2 ^ 63.

(** [i64] addition, with overflow checks on. *)
Definition i64_add {E} (a b : Z) : res E Z :=
  if decide (i64_min ≤ a + b ≤ i64_max)%Z then Ok (a + b)%Z else Panic.

(** ** Query parameters *)

Inductive SqlArg : Type :=
| ArgInt (z : Z)
| ArgOptInt (o : option Z)
| ArgBytes (b : bytes)
| ArgOptBytes (o : option bytes).

Record QueryParams := mkParams {
  params_args : list SqlArg;
  params_count : nat;
}.

Definition params_new : QueryParams := mkParams [] 0.

Definition params_push (p : QueryParams) (val : SqlArg) : QueryParams :=
  mkParams (params_args p ++ [val])%list (params_count p + 1).

Definition params_extend (p : QueryParams) (vals : list SqlArg) : QueryParams :=
  foldl params_push p vals.

Definition params_len (p : QueryParams) : nat := params_count p.

(** ** Placeholder replacement *)

Definition is_digit (c : Ascii.ascii) : bool :=
  let n := Ascii.nat_of_ascii c in (48 <=? n)%nat && (n <=? 57)%nat.

Definition digit_value (c : Ascii.ascii) : Z := Z.of_nat (Ascii.nat_of_ascii c) - 48.

(** The longest run of digits a string starts with, and the rest. *)
Fixpoint span_digits (s : string) : string * string :=
  match s with
  | String c s' =>
      if is_digit c then let '(ds, rest) := span_digits s' in (String c ds, rest)
      else ("", s)
  | EmptyString => ("", "")
  end.

Fixpoint digits_value (acc : Z) (s : string) : Z :=
  match s with
  | String c s' => digits_value (10 * acc + digit_value c) s'
  | EmptyString => acc
  end.

(** [str::parse::<i64>().unwrap()] on a run of digits. *)
Definition parse_i64 {E} (ds : string) : res E Z :=
  if decide (digits_value 0 ds ≤ i64_max)%Z then Ok (digits_value 0 ds) else Panic.

Section Replace.
Context (placeholder : Z → string) (start_index : Z).

(** One pass of the loop consumes at least one character of [remain]. *)
Fixpoint replace_loop (fuel : nat) (remain : string) (index : Z) : sres string :=
  match fuel with
  | O => mret remain
  | S fuel =>
      match remain with
      | EmptyString => mret ""
      | String c remain' =>
          if Ascii.eqb c "$" then
            match remain' with
            | String d remain'' =>
                if Ascii.eqb d "$" then
                  index' ← i64_add index 1;
                  rest ← replace_loop fuel remain'' index';
                  mret (placeholder index +:+ rest)
                else if is_digit d then
                  let '(ds, after) := span_digits remain' in
                  n ← parse_i64 ds;
                  s ← i64_add n start_index;
                  sub_index ← i64_add s (-1);
                  index' ← i64_add index 1;
                  rest ← replace_loop fuel after index';
                  mret (placeholder sub_index +:+ rest)
                else
                  rest ← replace_loop fuel remain' index;
                  mret (String c rest)
            | EmptyString => mret (String c "")
            end
          else
            rest ← replace_loop fuel remain' index;
            mret (String c rest)
      end
  end.

Definition replace_arg_placeholders (filter : string) : sres string :=
  replace_loop (String.length filter) filter start_index.

End Replace.

(** ** The backend's query dialect *)

Module OrderBy.
Inductive t : Set := Id.
End OrderBy.
Abbreviation OrderBy := OrderBy.t.

Class QueryPrepare := {
  placeholder : Z → string;
  limit_query : string → QueryParams → option Z → option Z → sres (string * QueryParams);
}.

(** [QueryPrepare::order_by_query], which no backend overrides. *)
Definition order_by_query (query : string) (order_by : OrderBy) (descending : bool) : string :=
  query +:+ " ORDER BY " +:+ (match order_by with OrderBy.Id => "id" end)
  +:+ (if descending then " DESC" else "").

Definition sqlite_placeholder (index : Z) : string := "?" +:+ pretty index.

(** The default [limit_query], used by SQLite. *)
Definition sqlite_limit_query (query : string) (p : QueryParams) (offset limit : option Z)
    : sres (string * QueryParams) :=
  if bool_decide (is_Some offset) || bool_decide (is_Some limit) then
    let last_idx := Z.of_nat (params_len p + 1) in
    let p := params_push p (ArgInt (default 0%Z offset)) in
    let p := params_push p (ArgInt (default (-1)%Z limit)) in
    text ← replace_arg_placeholders sqlite_placeholder last_idx " LIMIT $$, $$";
    mret (query +:+ text, p)
  else mret (query, p).

Definition postgres_placeholder (index : Z) : string := "$" +:+ pretty index.

Definition postgres_limit_query (query : string) (p : QueryParams) (offset limit : option Z)
    : sres (string * QueryParams) :=
  if bool_decide (is_Some offset) || bool_decide (is_Some limit) then
    let last_idx := Z.of_nat (params_len p + 1) in
    let p := params_push p (ArgOptInt limit) in
    let p := params_push p (ArgInt (default 0%Z offset)) in
    text ← replace_arg_placeholders postgres_placeholder last_idx " LIMIT $$ OFFSET $$";
    mret (query +:+ text, p)
  else mret (query, p).

Definition SqlitePrepare : QueryPrepare :=
  {| placeholder := sqlite_placeholder; limit_query := sqlite_limit_query |}.
Definition PostgresPrepare : QueryPrepare :=
  {| placeholder := postgres_placeholder; limit_query := postgres_limit_query |}.

(** [str::trim_start] and [to_uppercase] on the ASCII base queries. *)
Definition is_space (c : Ascii.ascii) : bool :=
  let n := Ascii.nat_of_ascii c in (n =? 32)%nat || ((9 <=? n)%nat && (n <=? 13)%nat).

Fixpoint trim_start (s : string) : string :=
  match s with
  | String c s' => if is_space c then trim_start s' else s
  | EmptyString => ""
  end.

Definition upper (c : Ascii.ascii) : Ascii.ascii :=
  let n := Ascii.nat_of_ascii c in
  if (97 <=? n)%nat && (n <=? 122)%nat then Ascii.ascii_of_nat (n - 32) else c.

Fixpoint to_uppercase (s : string) : string :=
  match s with String c s' => String (upper c) (to_uppercase s') | EmptyString => "" end.

Definition is_select (query : string) : bool :=
  String.prefix "SELECT" (to_uppercase (trim_start query)).

Definition extend_query `{QueryPrepare} (query : string) (p : QueryParams)
    (tag_filter : option (string * list bytes)) (offset limit : option Z)
    (order_by : option OrderBy) (descending : bool) : sres (string * QueryParams) :=
  let '(query, p) :=
    match tag_filter with
    | Some (filter_clause, filter_args) =>
        (query +:+ " AND " +:+ filter_clause, params_extend p (ArgBytes <$> filter_args))
    | None => (query, p)
    end in
  if is_select query then
    let query :=
      match order_by with
      | Some order_by_value => order_by_query query order_by_value descending
      | None => query
      end in
    if bool_decide (is_Some offset) || bool_decide (is_Some limit)
    then limit_query query p offset limit
    else mret (query, p)
  else mret (query, p).

(** ** Lemmas *)

Lemma append_cons c s t : String c s +:+ t = String c (s +:+ t).
Proof. done. Qed.

Lemma append_assoc s t u : (s +:+ t) +:+ u = s +:+ (t +:+ u).
Proof. induction s as [|c s IH]; [done|]. by rewrite !append_cons, IH. Qed.

Lemma append_nil_r s : s +:+ "" = s.
Proof. induction s as [|c s IH]; [done|]. by rewrite append_cons, IH. Qed.

Lemma length_append s t : String.length (s +:+ t) = (String.length s + String.length t)%nat.
Proof. induction s as [|c s IH]; [done|]. rewrite append_cons. simpl. by rewrite IH. Qed.

Fixpoint all_chars (p : Ascii.ascii → bool) (s : string) : bool :=
  match s with String c s' => p c && all_chars p s' | EmptyString => true end.

Lemma all_chars_append p s t : all_chars p (s +:+ t) = all_chars p s && all_chars p t.
Proof. induction s as [|c s IH]; [done|]. rewrite append_cons. simpl. by rewrite IH, andb_assoc. Qed.

Definition first_char (p : Ascii.ascii → bool) (s : string) : bool :=
  match s with String c _ => p c | EmptyString => true end.

Lemma span_digits_append ds s :
  all_chars is_digit ds = true → first_char (negb ∘ is_digit) s = true →
  span_digits (ds +:+ s) = (ds, s).
Proof.
  intros Hds Hs. induction ds as [|c ds IH].
  - destruct s as [|c s]; [done|]. simpl in *. by destruct (is_digit c).
  - rewrite append_cons. simpl in *. apply andb_prop in Hds as [-> Hds]. by rewrite IH.
Qed.

Lemma span_digits_length s : (String.length (span_digits s).2 ≤ String.length s)%nat.
Proof.
  induction s as [|c s IH]; [done|]. simpl. destruct (is_digit c); [|done].
  destruct (span_digits s). simpl in *. lia.
Qed.

(** The decimal text of a number. *)
Lemma digits_value_app acc ds c :
  digits_value acc (ds +:+ String c "") = (10 * digits_value acc ds + digit_value c)%Z.
Proof. revert acc. induction ds as [|d ds IH]; intros acc; [done|]. rewrite append_cons. simpl. apply IH. Qed.

Lemma pretty_char_digit x : (x < 10)%N →
  is_digit (pretty_N_char x) = true ∧ digit_value (pretty_N_char x) = Z.of_N x.
Proof.
  intros Hx. destruct x as [|p]; [done|].
  do 4 (destruct p as [p|p|]; try (split; reflexivity)); exfalso; lia.
Qed.

Lemma pretty_N_go_digits x : ∀ s, ∃ ds,
  pretty_N_go x s = ds +:+ s ∧ all_chars is_digit ds = true ∧ digits_value 0 ds = Z.of_N x
  ∧ (x ≠ 0%N → ds ≠ "").
Proof.
  induction (N.lt_wf_0 x) as [x _ IH]; intros s.
  destruct (decide (x = 0%N)) as [->|Hx]; [by exists ""|].
  rewrite pretty_N_go_step by lia.
  destruct (IH (x `div` 10)%N ltac:(apply N.div_lt; lia) (String (pretty_N_char (x `mod` 10)) s))
    as (ds & -> & Hd & Hv & _).
  destruct (pretty_char_digit (x `mod` 10)) as [Hc Hcv]; [apply N.mod_lt; lia|].
  exists (ds +:+ String (pretty_N_char (x `mod` 10)) ""). split_and!.
  - by rewrite append_assoc.
  - rewrite all_chars_append, Hd. simpl. by rewrite Hc.
  - rewrite digits_value_app, Hv, Hcv. rewrite (N.div_mod x 10) at 3 by lia. lia.
  - by destruct ds.
Qed.

Lemma pretty_nat_digits (n : nat) :
  all_chars is_digit (pretty n) = true ∧ digits_value 0 (pretty n) = Z.of_nat n ∧ pretty n ≠ "".
Proof.
  change (pretty n) with (pretty (N.of_nat n)). unfold pretty, pretty_N.
  case_decide as H; [assert (n = 0%nat) as -> by lia; done|].
  destruct (pretty_N_go_digits (N.of_nat n) "") as (ds & -> & Hd & Hv & Hne).
  rewrite append_nil_r. split_and!; [done|lia|auto].
Qed.

Section ReplaceLemmas.
Context (placeholder : Z → string) (start_index : Z).
Abbreviation loop := (replace_loop placeholder start_index).
Abbreviation replace := (λ s, loop (String.length s) s).

Lemma replace_loop_step f1 f2 :
  (∀ s idx, (String.length s ≤ f1)%nat → loop f1 s idx = loop f2 s idx) →
  ∀ s idx, (String.length s ≤ S f1)%nat → loop (S f1) s idx = loop (S f2) s idx.
Proof.
  intros IH [|c s] idx Hs; [done|]. simpl in Hs |- *.
  destruct (Ascii.eqb c "$"); [|by rewrite IH by lia].
  destruct s as [|d s]; [done|]. simpl in Hs.
  destruct (Ascii.eqb d "$").
  { destruct (i64_add idx 1); simpl; rewrite ?IH by lia; done. }
  destruct (is_digit d) eqn:Hd; [|by rewrite IH by (simpl; lia)].
  pose proof (span_digits_length s) as Hlen.
  destruct (span_digits (String d s)) as [ds after] eqn:Hspan.
  assert (String.length after ≤ f1)%nat.
  { simpl in Hspan. rewrite Hd in Hspan. destruct (span_digits s). simplify_eq/=. lia. }
  destruct (parse_i64 ds); simpl; [|done..].
  destruct (i64_add _ start_index); simpl; [|done..].
  destruct (i64_add _ (-1)); simpl; [|done..].
  destruct (i64_add idx 1); simpl; rewrite ?IH by lia; done.
Qed.

(** The result does not depend on the fuel once it covers the text. *)
Lemma replace_loop_fuel f1 : ∀ f2 s idx,
  (String.length s ≤ f1)%nat → (String.length s ≤ f2)%nat → loop f1 s idx = loop f2 s idx.
Proof.
  induction f1 as [|f1 IH]; intros f2 s idx H1 H2.
  - destruct s; [|simpl in H1; lia]. by destruct f2.
  - destruct f2 as [|f2]; [destruct s; [done|simpl in H2; lia]|].
    destruct (decide (String.length s ≤ f2)%nat) as [Hle|Hgt].
    + destruct s as [|c s]; [done|]. simpl in Hle.
      assert (IH2 : ∀ s idx, (String.length s ≤ f1)%nat → (String.length s ≤ f2)%nat →
        loop f1 s idx = loop f2 s idx) by auto.
      destruct (decide (f1 ≤ f2)%nat).
      * apply replace_loop_step; [|done]. intros; apply IH; lia.
      * symmetry. apply replace_loop_step; [|simpl; lia]. intros; symmetry; apply IH; lia.
    + destruct (decide (f1 ≤ f2)%nat).
      * apply replace_loop_step; [|done]. intros; apply IH; lia.
      * symmetry. apply replace_loop_step; [|done]. intros; symmetry; apply IH; lia.
Qed.

(** The equation of one pass. *)
Lemma replace_loop_cons fuel c remain' index :
  loop (S fuel) (String c remain') index =
    if Ascii.eqb c "$" then
      match remain' with
      | String d remain'' =>
          if Ascii.eqb d "$" then
            index' ← i64_add index 1;
            rest ← loop fuel remain'' index';
            mret (placeholder index +:+ rest)
          else if is_digit d then
            let '(ds, after) := span_digits remain' in
            n ← parse_i64 ds;
            s ← i64_add n start_index;
            sub_index ← i64_add s (-1);
            index' ← i64_add index 1;
            rest ← loop fuel after index';
            mret (placeholder sub_index +:+ rest)
          else
            rest ← loop fuel remain' index;
            mret (String c rest)
      | EmptyString => mret (String c "")
      end
    else
      rest ← loop fuel remain' index;
      mret (String c rest).
Proof. done. Qed.

Lemma replace_char c s idx :
  Ascii.eqb c "$" = false →
  replace (String c s) idx = (rest ← replace s idx; mret (String c rest)).
Proof. intros Hc. simpl. by rewrite Hc. Qed.

Lemma replace_auto s idx :
  replace ("$$" +:+ s) idx =
    (idx' ← i64_add idx 1; rest ← replace s idx'; mret (placeholder idx +:+ rest)).
Proof.
  change ("$$" +:+ s) with (String "$" (String "$" s)). cbn [String.length].
  rewrite replace_loop_cons. change (Ascii.eqb "$" "$") with true. cbn iota.
  apply bind_ext. intros idx'.
  by rewrite (replace_loop_fuel (S (String.length s)) (String.length s)) by lia.
Qed.

Lemma replace_num ds s idx :
  all_chars is_digit ds = true → ds ≠ "" → first_char (negb ∘ is_digit) s = true →
  replace ("$" +:+ ds +:+ s) idx =
    (n ← parse_i64 ds; m ← i64_add n start_index; sub ← i64_add m (-1); idx' ← i64_add idx 1;
     rest ← replace s idx'; mret (placeholder sub +:+ rest)).
Proof.
  intros Hds Hne Hs. destruct ds as [|d ds]; [done|].
  assert (Hsp := span_digits_append _ _ Hds Hs).
  apply andb_prop in Hds as [Hd _].
  assert (Hd' : Ascii.eqb d "$" = false) by (by destruct d as [[] [] [] [] [] [] [] []]).
  rewrite append_cons in Hsp.
  change ("$" +:+ String d ds +:+ s) with (String "$" (String d (ds +:+ s))).
  cbn [String.length]. rewrite replace_loop_cons. change (Ascii.eqb "$" "$") with true. cbn iota.
  rewrite Hd', Hd, Hsp.
  do 4 (apply bind_ext; intros ?).
  rewrite (replace_loop_fuel _ (String.length s)) by (rewrite ?length_append; simpl; lia). done.
Qed.

End ReplaceLemmas.

(** ** Text with placeholders

    The text an encoder writes, as literal parts and placeholders, the latter
    either written [$$] or with their ordinal. *)

Inductive tok : Type :=
| Lit (s : string)
| Auto
| Num.

Fixpoint render_raw (o : nat) (l : list tok) : string :=
  match l with
  | [] => ""
  | Lit s :: l' => s +:+ render_raw o l'
  | Auto :: l' => "$$" +:+ render_raw (S o) l'
  | Num :: l' => "$" +:+ pretty (S o) +:+ render_raw (S o) l'
  end.

(** The text with the placeholder of ordinal [o] written as [ph o]. *)
Fixpoint render_with (ph : nat → string) (o : nat) (l : list tok) : string :=
  match l with
  | [] => ""
  | Lit s :: l' => s +:+ render_with ph o l'
  | Auto :: l' | Num :: l' => ph o +:+ render_with ph (S o) l'
  end.

Definition is_ph (t : tok) : bool := match t with Lit _ => false | _ => true end.

Fixpoint n_placeholders (l : list tok) : nat :=
  match l with
  | [] => 0
  | Lit _ :: l' => n_placeholders l'
  | _ :: l' => S (n_placeholders l')
  end.

(** Literals hold no dollar sign, and a numbered placeholder is not followed by
    a digit. *)
Fixpoint toks_ok (l : list tok) : bool :=
  match l with
  | [] => true
  | Lit s :: l' => all_chars (λ c, negb (Ascii.eqb c "$")) s && toks_ok l'
  | Auto :: l' => toks_ok l'
  | Num :: l' =>
      (match l' with
       | Lit (String c _) :: _ => negb (is_digit c)
       | Lit EmptyString :: _ => false
       | _ => true
       end) && toks_ok l'
  end.

Lemma render_raw_app o l1 l2 :
  render_raw o (l1 ++ l2)%list = render_raw o l1 +:+ render_raw (o + n_placeholders l1) l2.
Proof.
  revert o. induction l1 as [|[s| |] l1 IH]; intros o; simpl.
  - by rewrite Nat.add_0_r.
  - by rewrite IH, append_assoc.
  - rewrite IH. by replace (S o + n_placeholders l1)%nat with (o + S (n_placeholders l1))%nat by lia.
  - rewrite IH, !append_assoc.
    by replace (S o + n_placeholders l1)%nat with (o + S (n_placeholders l1))%nat by lia.
Qed.

Lemma n_placeholders_app l1 l2 :
  n_placeholders (l1 ++ l2) = (n_placeholders l1 + n_placeholders l2)%nat.
Proof. induction l1 as [|[s| |] l1 IH]; simpl; auto. Qed.

Section ReplaceToks.
Context (placeholder : Z → string) (start_index : Z).
Abbreviation replace := (λ s, replace_loop placeholder start_index (String.length s) s).

Lemma replace_lit s r idx :
  all_chars (λ c, negb (Ascii.eqb c "$")) s = true →
  replace (s +:+ r) idx = (rest ← replace r idx; mret (s +:+ rest)).
Proof.
  induction s as [|c s IH]; intros Hs.
  - change ("" +:+ r) with r. by destruct (replace_loop _ _ _ r idx).
  - apply andb_prop in Hs as [Hc%negb_true_iff Hs]. rewrite append_cons, replace_char, IH by done.
    by destruct (replace_loop _ _ _ r idx).
Qed.

Lemma i64_add_ok {E} a b : (i64_min ≤ a + b ≤ i64_max)%Z → i64_add (E := E) a b = Ok (a + b)%Z.
Proof. intros H. unfold i64_add. by rewrite decide_True. Qed.

Lemma render_first_nondigit o l :
  (match l with
   | Lit (String c _) :: _ => negb (is_digit c)
   | Lit EmptyString :: _ => false
   | _ => true
   end) = true → first_char (negb ∘ is_digit) (render_raw o l) = true.
Proof. by destruct l as [|[[|c s]| |] l]. Qed.

(** Both forms of placeholder are replaced by the backend's placeholder for the
    same position: the ordinal of the placeholder counted from [start_index]. *)
Lemma replace_toks l : ∀ o,
  toks_ok l = true → (0 ≤ start_index)%Z →
  (start_index + Z.of_nat o + Z.of_nat (n_placeholders l) ≤ i64_max)%Z →
  replace (render_raw o l) (start_index + Z.of_nat o)%Z
  = Ok (render_with (λ k, placeholder (start_index + Z.of_nat k)%Z) o l).
Proof.
  induction l as [|[s| |] l IH]; intros o Hok Hs Hmax; simpl in Hok, Hmax.
  - done.
  - apply andb_prop in Hok as [Hlit Hok]. cbn [render_raw render_with].
    by rewrite replace_lit, IH by done.
  - cbn [render_raw render_with]. rewrite replace_auto, i64_add_ok by (unfold i64_min; lia).
    run_bind.
    replace (start_index + Z.of_nat o + 1)%Z with (start_index + Z.of_nat (S o))%Z by lia.
    by rewrite IH by (done || lia).
  - apply andb_prop in Hok as [Hnext Hok]. cbn [render_raw render_with].
    destruct (pretty_nat_digits (S o)) as (Hd & Hv & Hne).
    rewrite replace_num by auto using render_first_nondigit.
    unfold parse_i64. rewrite Hv, decide_True by lia. run_bind.
    rewrite i64_add_ok by (unfold i64_min; lia). run_bind.
    rewrite i64_add_ok by (unfold i64_min; lia). run_bind.
    rewrite i64_add_ok by (unfold i64_min; lia). run_bind.
    replace (start_index + Z.of_nat o + 1)%Z with (start_index + Z.of_nat (S o))%Z by lia.
    rewrite IH by (done || lia). run_bind.
    do 3 f_equal. lia.
Qed.

End ReplaceToks.

(** ** The extended query names exactly the parameters pushed *)

(** The count kept beside the arguments is their number. *)
Definition params_wf (p : QueryParams) : Prop := params_count p = length (params_args p).

Lemma params_push_wf p v : params_wf p → params_wf (params_push p v).
Proof. unfold params_wf. simpl. rewrite length_app. simpl. lia. Qed.

Lemma params_extend_spec p vs :
  params_args (params_extend p vs) = (params_args p ++ vs)%list
  ∧ (params_wf p → params_wf (params_extend p vs)).
Proof.
  unfold params_extend. revert p. induction vs as [|v vs IH]; intros p; simpl.
  - by rewrite app_nil_r.
  - destruct (IH (params_push p v)) as [-> Hwf]. split; [cbn; by rewrite <- app_assoc|].
    intros. by apply Hwf, params_push_wf.
Qed.

Lemma to_uppercase_append s t : to_uppercase (s +:+ t) = to_uppercase s +:+ to_uppercase t.
Proof. induction s as [|c s IH]; [done|]. rewrite !append_cons. simpl. by rewrite IH. Qed.

Lemma trim_start_append s t : trim_start s ≠ "" → trim_start (s +:+ t) = trim_start s +:+ t.
Proof.
  induction s as [|c s IH]; [done|]. rewrite append_cons. simpl.
  destruct (is_space c); auto.
Qed.

Lemma prefix_append p s t : String.prefix p s = true → String.prefix p (s +:+ t) = true.
Proof.
  revert s. induction p as [|c p IH]; intros s H; [by destruct (s +:+ t)|].
  destruct s as [|d s]; [done|]. rewrite append_cons. simpl in *.
  destruct (Ascii.ascii_dec c d); auto.
Qed.

Lemma is_select_append s t : is_select s = true → is_select (s +:+ t) = true.
Proof.
  unfold is_select. intros H. rewrite trim_start_append.
  - rewrite to_uppercase_append. by apply prefix_append.
  - intros E. by rewrite E in H.
Qed.

(** The tokens of the two dialects' limit clauses. *)
Definition sqlite_limit_toks : list tok := [Lit " LIMIT "; Auto; Lit ", "; Auto].
Definition postgres_limit_toks : list tok := [Lit " LIMIT "; Auto; Lit " OFFSET "; Auto].

Lemma replace_limit placeholder l n :
  toks_ok l = true → n_placeholders l = 2%nat → (Z.of_nat n + 3 ≤ i64_max)%Z →
  replace_arg_placeholders placeholder (Z.of_nat (n + 1)) (render_raw 0 l)
  = Ok (render_with (λ k, placeholder (Z.of_nat (n + 1) + Z.of_nat k)%Z) 0 l).
Proof.
  intros Hl Hn H.
  pose proof (replace_toks placeholder (Z.of_nat (n + 1)) l 0 Hl) as Hr.
  rewrite Hn, Z.add_0_r in Hr. apply Hr; lia.
Qed.

(** What a dialect appends for an offset and a limit, [n] parameters being bound
    already, and the parameters it adds. *)
Class LimitDialect `{QueryPrepare} := {
  limit_text : nat → string;
  limit_args : option Z → option Z → list SqlArg;
  limit_query_spec : ∀ query p offset limit,
    params_wf p → (Z.of_nat (params_count p) + 3 ≤ i64_max)%Z →
    is_Some offset ∨ is_Some limit →
    ∃ p', limit_query query p offset limit = Ok (query +:+ limit_text (params_count p), p')
      ∧ params_args p' = (params_args p ++ limit_args offset limit)%list ∧ params_wf p';
}.

Lemma requested (offset limit : option Z) :
  is_Some offset ∨ is_Some limit →
  bool_decide (is_Some offset) || bool_decide (is_Some limit) = true.
Proof. intros H. apply orb_true_iff. by rewrite !bool_decide_eq_true. Qed.

Definition sqlite_limit_text (n : nat) : string :=
  " LIMIT ?" +:+ pretty (Z.of_nat (n + 1)) +:+ ", ?" +:+ pretty (Z.of_nat (n + 2)).
Definition sqlite_limit_args (offset limit : option Z) : list SqlArg :=
  [ArgInt (default 0%Z offset); ArgInt (default (-1)%Z limit)].
Definition postgres_limit_text (n : nat) : string :=
  " LIMIT $" +:+ pretty (Z.of_nat (n + 1)) +:+ " OFFSET $" +:+ pretty (Z.of_nat (n + 2)).
Definition postgres_limit_args (offset limit : option Z) : list SqlArg :=
  [ArgOptInt limit; ArgInt (default 0%Z offset)].

Lemma sqlite_limit_spec query p offset limit :
  params_wf p → (Z.of_nat (params_count p) + 3 ≤ i64_max)%Z → is_Some offset ∨ is_Some limit →
  ∃ p', @limit_query SqlitePrepare query p offset limit
      = Ok (query +:+ sqlite_limit_text (params_count p), p')
    ∧ params_args p' = (params_args p ++ sqlite_limit_args offset limit)%list ∧ params_wf p'.
Proof.
  intros Hwf Hmax Hr. cbn [limit_query SqlitePrepare]. unfold sqlite_limit_query. rewrite requested by done.
  pose proof (replace_limit sqlite_placeholder sqlite_limit_toks (params_count p)) as E.
  change (render_raw 0 sqlite_limit_toks) with " LIMIT $$, $$" in E.
  unfold params_len. rewrite E by done. eexists. split_and!; [|cbn [params_args params_push]..].
  - run_bind. do 3 f_equal. cbn [render_with sqlite_limit_toks].
    unfold sqlite_placeholder, sqlite_limit_text. rewrite append_nil_r, !append_assoc.
    by replace (Z.of_nat (params_count p + 1) + Z.of_nat 1)%Z
      with (Z.of_nat (params_count p + 2)) by lia; rewrite Z.add_0_r.
  - unfold params_push. cbn [params_args]. by rewrite <- app_assoc.
  - by do 2 apply params_push_wf.
Qed.

Lemma postgres_limit_spec query p offset limit :
  params_wf p → (Z.of_nat (params_count p) + 3 ≤ i64_max)%Z → is_Some offset ∨ is_Some limit →
  ∃ p', @limit_query PostgresPrepare query p offset limit
      = Ok (query +:+ postgres_limit_text (params_count p), p')
    ∧ params_args p' = (params_args p ++ postgres_limit_args offset limit)%list ∧ params_wf p'.
Proof.
  intros Hwf Hmax Hr. cbn [limit_query PostgresPrepare]. unfold postgres_limit_query. rewrite requested by done.
  pose proof (replace_limit postgres_placeholder postgres_limit_toks (params_count p)) as E.
  change (render_raw 0 postgres_limit_toks) with " LIMIT $$ OFFSET $$" in E.
  unfold params_len. rewrite E by done. eexists. split_and!; [|cbn [params_args params_push]..].
  - run_bind. do 3 f_equal. cbn [render_with postgres_limit_toks].
    unfold postgres_placeholder, postgres_limit_text. rewrite append_nil_r, !append_assoc.
    by replace (Z.of_nat (params_count p + 1) + Z.of_nat 1)%Z
      with (Z.of_nat (params_count p + 2)) by lia; rewrite Z.add_0_r.
  - unfold params_push. cbn [params_args]. by rewrite <- app_assoc.
  - by do 2 apply params_push_wf.
Qed.

#[export] Instance sqlite_dialect : @LimitDialect SqlitePrepare :=
  {| limit_text := sqlite_limit_text; limit_args := sqlite_limit_args;
     limit_query_spec := sqlite_limit_spec |}.
#[export] Instance postgres_dialect : @LimitDialect PostgresPrepare :=
  {| limit_text := postgres_limit_text; limit_args := postgres_limit_args;
     limit_query_spec := postgres_limit_spec |}.

(** A [SELECT] extended with a filter, an order and a limit, for either dialect:
    the text is the concatenation of the parts in that order, the parameters are
    those of the base query, the filter and the limit in that order, and the
    limit's placeholders are the ordinals of its two parameters. *)
Theorem extend_query_select `{LimitDialect} query p clause fargs offset limit order_by descending :
  is_select query = true → params_wf p →
  (Z.of_nat (params_count p + length fargs) + 3 ≤ i64_max)%Z →
  is_Some offset ∨ is_Some limit →
  ∃ p', extend_query query p (Some (clause, fargs)) offset limit order_by descending
    = Ok (query +:+ " AND " +:+ clause
          +:+ (match order_by with Some o => order_by_query "" o descending | None => "" end)
          +:+ limit_text (params_count p + length fargs), p')
    ∧ params_args p' = (params_args p ++ (ArgBytes <$> fargs) ++ limit_args offset limit)%list
    ∧ params_wf p'.
Proof.
  intros Hsel Hwf Hmax Hr. unfold extend_query. rewrite is_select_append by done.
  rewrite requested by done.
  destruct (params_extend_spec p (ArgBytes <$> fargs)) as [Hargs Hwf'].
  specialize (Hwf' Hwf). set (p1 := params_extend p (ArgBytes <$> fargs)) in *.
  assert (Hc : params_count p1 = (params_count p + length fargs)%nat).
  { rewrite Hwf', Hargs, length_app, length_fmap, <- Hwf. done. }
  edestruct (limit_query_spec
    (match order_by with
     | Some o => order_by_query (query +:+ " AND " +:+ clause) o descending
     | None => query +:+ " AND " +:+ clause
     end) p1 offset limit) as (p' & E & Ha & Hw); [done|rewrite Hc; done|done|].
  exists p'. split_and!; [|by rewrite Ha, Hargs, <- app_assoc|done].
  rewrite Hc in E. etransitivity; [|etransitivity; [exact E|]]; [done|].
  destruct order_by; unfold order_by_query; rewrite ?append_assoc; done.
Qed.

Lemma extend_query_select_witness :
  ∃ p', @extend_query SqlitePrepare "SELECT id FROM items i WHERE profile_id = ?1"
      (params_push params_new (ArgInt 1)) (Some ("i.id IN (...name = ?2)", [[x61]]))
      None (Some 5%Z) (Some OrderBy.Id) true
    = Ok ("SELECT id FROM items i WHERE profile_id = ?1 AND i.id IN (...name = ?2) ORDER BY id DESC LIMIT ?3, ?4", p')
    ∧ params_args p' = [ArgInt 1; ArgBytes [x61]; ArgInt 0; ArgInt 5] ∧ params_wf p'.
Proof.
  apply (@extend_query_select SqlitePrepare sqlite_dialect
    "SELECT id FROM items i WHERE profile_id = ?1" (params_push params_new (ArgInt 1))
    "i.id IN (...name = ?2)" [[x61]] None (Some 5%Z) (Some OrderBy.Id) true);
    [reflexivity|reflexivity|vm_compute; discriminate|right; eexists; reflexivity].
Defined.

(** Any other statement, such as a [DELETE], gets the filter but neither order
    nor limit. *)
Theorem extend_query_other `{QueryPrepare} query p clause fargs offset limit order_by descending :
  is_select (query +:+ " AND " +:+ clause) = false →
  extend_query query p (Some (clause, fargs)) offset limit order_by descending
  = Ok (query +:+ " AND " +:+ clause, params_extend p (ArgBytes <$> fargs)).
Proof. intros Hsel. unfold extend_query. by rewrite Hsel. Qed.

Lemma extend_query_other_witness :
  @extend_query SqlitePrepare "DELETE FROM items AS i WHERE i.profile_id = ?1" params_new
    (Some ("0", [])) None (Some 5%Z) None false
  = Ok ("DELETE FROM items AS i WHERE i.profile_id = ?1 AND 0", params_new).
Proof.
  apply (@extend_query_other SqlitePrepare "DELETE FROM items AS i WHERE i.profile_id = ?1"
    params_new "0" [] None (Some 5%Z) None false). reflexivity.
Defined.
