(* ===== verification/TagSqlSem.v ===== *)
(** * Meaning of the SQL written for a tag query

    The text the SQL encoder writes is the rendering of a small syntax of SQL
    clauses over the tag rows of an item.  This file gives that syntax its SQL
    meaning and proves that the encoder is a correct compiler: the clause, with
    its placeholders bound in order to the collected arguments, holds of the tag
    rows of an item exactly when the query does. *)

From Stdlib Require Import Btauto.
From stdpp Require Import pretty.
From S2P Require Import Prelude Errors Wql TagSql DbQuery.
#[local] Set Warnings "-register-all".
Local Open Scope string_scope.

(** ** Clauses; each carries the arguments its placeholders are bound to *)

Inductive Sql : Type :=
| SOp (neg : bool) (op : CompareOp) (name value : bytes) (pfx : option (CompareOp * bytes))
    (plain : bool)
| SIn (neg : bool) (name : bytes) (values : list bytes) (plain : bool)
| SExist (neg : bool) (name : bytes) (plain : bool)
| SFalse
| SConj (op : ConjunctionOp) (l : list Sql).

Definition select_text (neg : bool) : string :=
  "i.id " +:+ in_str neg +:+ " (SELECT item_id FROM items_tags WHERE name = ".

Definition end_text (plain : bool) : string := " AND plaintext = " +:+ plain_str plain +:+ ")".

(** [n] placeholders separated by commas. *)
Fixpoint commas (n : nat) : list tok :=
  match n with
  | 0 => []
  | 1 => [Auto]
  | S n' => [Auto; Lit ", "] ++ commas n'
  end%list.

Section Toks.
Context (f : Sql → list tok) (sep : string).
Fixpoint sep_toks (l : list Sql) : list tok :=
  match l with
  | [] => []
  | [c] => f c
  | c :: l' => f c ++ [Lit sep] ++ sep_toks l'
  end%list.
End Toks.

Fixpoint toks (c : Sql) : list tok :=
  match c with
  | SOp neg op _ _ pfx plain =>
      [Lit (select_text neg); Num; Lit (" AND value " +:+ as_sql_str op +:+ " "); Num]
      ++ (match pfx with
          | Some (pop, _) => [Lit (" AND SUBSTR(value, 1, 12) " +:+ as_sql_str pop +:+ " "); Num]
          | None => []
          end)
      ++ [Lit (end_text plain)]
  | SIn neg _ values plain =>
      [Lit (select_text neg); Auto; Lit " AND value IN ("] ++ commas (length values)
      ++ [Lit (")" +:+ end_text plain)]
  | SExist neg _ plain => [Lit (select_text neg); Auto; Lit (end_text plain)]
  | SFalse => [Lit "0"]
  | SConj op l => [Lit "("] ++ sep_toks toks (conj_sql_str op) l ++ [Lit ")"]
  end%list.

Fixpoint args_of (c : Sql) : list bytes :=
  match c with
  | SOp _ _ name value pfx _ =>
      [name; value] ++ match pfx with Some (_, p) => [p] | None => [] end
  | SIn _ name values _ => name :: values
  | SExist _ name _ => [name]
  | SFalse => []
  | SConj _ l => List.flat_map args_of l
  end%list.

(** ** SQL meaning over the tag rows of one item *)

Record TagRow := mkRow {
  row_name : bytes;
  row_value : bytes;
  row_plain : bool;
}.

Section Meaning.
Context (like : bytes → bytes → bool).

(** Comparison of two blobs; [like] is the database's [LIKE]. *)
Definition sql_compare (op : CompareOp) (a b : bytes) : bool :=
  match op with
  | CompareOp.Eq => match bytes_compare a b with Datatypes.Eq => true | _ => false end
  | CompareOp.Neq => match bytes_compare a b with Datatypes.Eq => false | _ => true end
  | CompareOp.Gt => match bytes_compare a b with Datatypes.Gt => true | _ => false end
  | CompareOp.Gte => match bytes_compare a b with Datatypes.Lt => false | _ => true end
  | CompareOp.Lt => match bytes_compare a b with Datatypes.Lt => true | _ => false end
  | CompareOp.Lte => match bytes_compare a b with Datatypes.Gt => false | _ => true end
  | CompareOp.Like => like a b
  end.

Context (rows : list TagRow).

(** [i.id IN (SELECT item_id FROM items_tags WHERE p)], or its negation. *)
Definition in_select (neg : bool) (p : TagRow → bool) : bool := xorb neg (existsb p rows).

Definition row_is (name : bytes) (plain : bool) (r : TagRow) : bool :=
  bool_decide (row_name r = name) && Bool.eqb (row_plain r) plain.

Fixpoint sem (c : Sql) : bool :=
  match c with
  | SOp neg op name value pfx plain =>
      in_select neg (λ r, row_is name plain r && sql_compare op (row_value r) value
        && match pfx with
           | Some (pop, p) => sql_compare pop (take 12 (row_value r)) p
           | None => true
           end)
  | SIn neg name values plain =>
      in_select neg (λ r, row_is name plain r && existsb (sql_compare CompareOp.Eq (row_value r)) values)
  | SExist neg name plain => in_select neg (row_is name plain)
  | SFalse => false
  | SConj ConjunctionOp.And l => forallb sem l
  | SConj ConjunctionOp.Or l => existsb sem l
  end.

(** No clause is no condition. *)
Definition opt_sem (o : option Sql) : bool := match o with Some c => sem c | None => true end.

End Meaning.

(** ** The clause of a query *)

Section Compile.
Context (En Ev : string → bytes).

Definition name_text (n : TagName) : string := match n with Encrypted s | Plaintext s => s end.
Definition name_bytes (n : TagName) : bytes := En (name_text n).
Definition value_bytes (n : TagName) (v : string) : bytes :=
  if is_plaintext n then as_bytes v else Ev v.

Definition prefix_op (op : CompareOp) : option CompareOp :=
  match op with
  | CompareOp.Eq => Some CompareOp.Eq
  | CompareOp.Neq => Some CompareOp.Neq
  | CompareOp.Gt | CompareOp.Gte => Some CompareOp.Gte
  | CompareOp.Lt | CompareOp.Lte => Some CompareOp.Lte
  | CompareOp.Like => None
  end.

Definition op_sql (op : CompareOp) (n : TagName) (v : string) (neg : bool) : Sql :=
  let value := value_bytes n v in
  SOp neg op (name_bytes n) value
    (if is_plaintext n then None
     else if (12 <? length value)%nat then (λ p, (p, take 12 value)) <$> prefix_op op else None)
    (is_plaintext n).

Definition conj_sql (op : ConjunctionOp) (l : list Sql) : option Sql :=
  match l with
  | [] => match op with ConjunctionOp.Or => Some SFalse | ConjunctionOp.And => None end
  | [c] => Some c
  | _ => Some (SConj op l)
  end.

Definition exist_sql (neg : bool) (n : TagName) : Sql := SExist neg (name_bytes n) (is_plaintext n).

Definition neg_op (neg : bool) (op : ConjunctionOp) : ConjunctionOp :=
  if neg then negate op else op.

Fixpoint compile (q : TagQuery) (neg : bool) : option Sql :=
  match q with
  | Eq n v => Some (op_sql CompareOp.Eq n v neg)
  | Neq n v => Some (op_sql CompareOp.Neq n v neg)
  | Gt n v => Some (op_sql CompareOp.Gt n v neg)
  | Gte n v => Some (op_sql CompareOp.Gte n v neg)
  | Lt n v => Some (op_sql CompareOp.Lt n v neg)
  | Lte n v => Some (op_sql CompareOp.Lte n v neg)
  | Like n v => Some (op_sql CompareOp.Like n v neg)
  | In n vs => Some (SIn neg (name_bytes n) (List.map (value_bytes n) vs) (is_plaintext n))
  | Exist [] => None
  | Exist [n] => Some (exist_sql neg n)
  | Exist ns => conj_sql ConjunctionOp.And (List.map (exist_sql neg) ns)
  | And l => conj_sql (neg_op neg ConjunctionOp.And) (filter_map (λ q, compile q neg) l)
  | Or l => conj_sql (neg_op neg ConjunctionOp.Or) (filter_map (λ q, compile q neg) l)
  | Not q' => compile q' (negb neg)
  end.

End Compile.

(** ** The encoder's text is the rendering of the clause *)

Section SqlInduction.
Context (P : Sql → Prop).
Hypothesis HConj : ∀ op l, Forall P l → P (SConj op l).
Hypothesis HLeaf : ∀ c, match c with SConj _ _ => False | _ => True end → P c.
Fixpoint sql_ind (c : Sql) : P c :=
  let go := fix go (l : list Sql) : Forall P l :=
    match l with
    | [] => @List.Forall_nil _ P
    | x :: l' => @List.Forall_cons _ P x l' (sql_ind x) (go l')
    end in
  match c with
  | SConj op l => HConj op l (go l)
  | SOp a b d e f g => HLeaf (SOp a b d e f g) I
  | SIn a b d e => HLeaf (SIn a b d e) I
  | SExist a b d => HLeaf (SExist a b d) I
  | SFalse => HLeaf SFalse I
  end.
End SqlInduction.

Lemma commas_placeholders n : n_placeholders (commas n) = n.
Proof. induction n as [|[|n] IH]; [done..|]. cbn in *. by rewrite IH. Qed.

Lemma toks_args c : n_placeholders (toks c) = length (args_of c).
Proof.
  induction c as [op l IH|c Hc] using sql_ind.
  - cbn [toks args_of]. rewrite !n_placeholders_app. cbn. rewrite Nat.add_0_r.
    induction IH as [|c l Hc _ IHl]; [done|]. cbn [List.flat_map]. rewrite length_app, <- Hc, <- IHl.
    destruct l as [|c' l]; cbn [sep_toks]; [cbn; lia|]. by rewrite !n_placeholders_app.
  - destruct c as [? ? ? ? [[]|] ?|? ? vs ?| | |]; try done. cbn.
    by rewrite n_placeholders_app, commas_placeholders, Nat.add_0_r.
Qed.

(** Token lists that can be concatenated. *)
Definition toks_safe (l : list tok) : Prop := toks_ok l = true ∧ last l ≠ Some Num.

Lemma toks_safe_app l1 l2 : toks_safe l1 → toks_safe l2 → toks_safe (l1 ++ l2).
Proof.
  intros [H1 E1] [H2 E2]. split; [|rewrite last_app; by destruct (last l2)].
  induction l1 as [|t l1 IH]; [done|].
  assert (IH' : toks_ok l1 = true → toks_ok (l1 ++ l2) = true).
  { intros H. apply IH; [done|]. destruct l1; [done|]. by rewrite last_cons_cons in E1. }
  destruct t as [s| |]; cbn in H1 |- *.
  - apply andb_prop in H1 as [-> ?]. auto.
  - auto.
  - apply andb_prop in H1 as [H1 ?]. rewrite IH', andb_true_r by done.
    by destruct l1 as [|t l1].
Qed.

Lemma commas_safe n : toks_safe (commas n).
Proof.
  induction n as [|[|n] IH]; [done..|].
  change (commas (S (S n))) with ([Auto; Lit ", "] ++ commas (S n))%list.
  by apply toks_safe_app.
Qed.

Lemma sep_toks_cons f sep c c' l :
  sep_toks f sep (c :: c' :: l) = (f c ++ [Lit sep] ++ sep_toks f sep (c' :: l))%list.
Proof. done. Qed.

Lemma sep_toks_safe sep l :
  toks_safe [Lit sep] → Forall (λ c, toks_safe (toks c)) l → toks_safe (sep_toks toks sep l).
Proof.
  intros Hs. induction 1 as [|c [|c' l] Hc Hl IH]; [done..|].
  rewrite sep_toks_cons. auto using toks_safe_app.
Qed.

Lemma toks_wf c : toks_safe (toks c).
Proof.
  induction c as [op l IH|c Hc] using sql_ind.
  - cbn [toks]. apply toks_safe_app; [done|]. apply toks_safe_app; [|done].
    apply sep_toks_safe; [by destruct op|done].
  - destruct c as [neg op ? ? [[pop ?]|] plain|neg ? vs plain|neg ? plain| |]; try done.
    + by destruct neg, op, pop, plain.
    + by destruct neg, op, plain.
    + apply toks_safe_app; [by destruct neg|]. apply toks_safe_app; [apply commas_safe|].
      by destruct plain.
    + by destruct neg, plain.
Qed.

(** The names and values a query mentions. *)
Fixpoint query_texts (q : TagQuery) : list string :=
  match q with
  | Eq n v | Neq n v | Gt n v | Gte n v | Lt n v | Lte n v | Like n v => [name_text n; v]
  | In n vs => name_text n :: vs
  | Exist ns => List.map name_text ns
  | And l | Or l => List.flat_map query_texts l
  | Not q' => query_texts q'
  end.

Lemma query_texts_sub P l :
  Forall P (List.flat_map query_texts l) → Forall (λ q, Forall P (query_texts q)) l.
Proof.
  induction l as [|q l IH]; cbn; [done|]. rewrite Forall_app. intros [? ?]. constructor; auto.
Qed.

Section EncodeText.
Context (self : TagSqlEncoder) (En Ev : string → bytes) (ok : string → Prop).
Hypothesis HEn : ∀ s, ok s → enc_name self s = Ok (En s).
Hypothesis HEv : ∀ s, ok s → enc_value self s = Ok (Ev s).

(** The texts of clauses written one after the other, from argument [o] on. *)
Fixpoint texts (o : nat) (l : list Sql) : list string :=
  match l with
  | [] => []
  | c :: l' => render_raw o (toks c) :: texts (o + length (args_of c)) l'
  end.

Definition opt_args (c : option Sql) : list bytes := default [] (args_of <$> c).

(** A computation of the encoder that produces the text of the clause [c]. *)
Definition writes (m : stm (list bytes) StorageError.Error (option string)) (c : option Sql) : Prop :=
  ∀ arguments, m arguments
    = ((arguments ++ opt_args c)%list, Ok ((λ c, render_raw (length arguments) (toks c)) <$> c)).

Lemma join_texts sep o l :
  join sep (texts o l) = render_raw o (sep_toks toks sep l).
Proof.
  revert o. induction l as [|c [|c' l] IH]; intros o; [done..|].
  rewrite sep_toks_cons, !render_raw_app, toks_args. cbn [n_placeholders render_raw].
  rewrite Nat.add_0_r, append_nil_r, <- IH. done.
Qed.

Lemma writes_conj op o l :
  sql_encode_conj_clause op (texts o l)
  = mret ((λ c, render_raw o (toks c)) <$> conj_sql op l).
Proof.
  destruct l as [|c [|c' l]].
  - by destruct op.
  - done.
  - cbn [conj_sql fmap option_fmap option_map toks]. rewrite !render_raw_app.
    cbn [n_placeholders render_raw]. rewrite !append_nil_r, Nat.add_0_r, <- join_texts. done.
Qed.

Lemma conj_args op l : opt_args (conj_sql op l) = List.flat_map args_of l.
Proof. destruct l as [|c [|c' l]]; [by destruct op|cbn; by rewrite app_nil_r|done]. Qed.

Lemma writes_each {A} (f : A → stm (list bytes) StorageError.Error (option string))
    (g : A → option Sql) (l : list A) :
  Forall (λ x, writes (f x) (g x)) l →
  ∀ arguments, encode_each f l arguments
    = ((arguments ++ List.flat_map args_of (filter_map g l))%list,
       Ok (texts (length arguments) (filter_map g l))).
Proof.
  induction 1 as [|x l Hx _ IH]; intros arguments; cbn [encode_each filter_map].
  - by rewrite app_nil_r.
  - rewrite (stm_bind_ok _ _ _ _ _ (Hx arguments)), (stm_bind_ok _ _ _ _ _ (IH _)).
    unfold opt_args. destruct (g x) as [c|]; cbn.
    + by rewrite <- app_assoc, length_app.
    + by rewrite app_nil_r.
Qed.

Lemma writes_conj_each {A} (f : A → stm (list bytes) StorageError.Error (option string))
    (g : A → option Sql) op (l : list A) :
  Forall (λ x, writes (f x) (g x)) l →
  writes (cs ← encode_each f l; sql_encode_conj_clause op cs) (conj_sql op (filter_map g l)).
Proof.
  intros H arguments. rewrite (stm_bind_ok _ _ _ _ _ (writes_each f g l H arguments)).
  rewrite writes_conj, conj_args. done.
Qed.

Lemma prefix_op_str op : as_sql_str_for_prefix op = as_sql_str <$> prefix_op op.
Proof. by destruct op. Qed.

Lemma writes_op op n v neg :
  ok (name_text n) → ok v →
  writes (encode_tag_op (enc := sql_encoder self) op n v neg) (Some (op_sql En Ev op n v neg)).
Proof.
  intros Hokn Hokv arguments. unfold encode_tag_op, op_sql, value_bytes, name_bytes.
  cbn [encode_name encode_value encode_op_clause sql_encoder].
  assert (Hn : sql_encode_name self n arguments = (arguments, Ok (En (name_text n)))).
  { destruct n; unfold sql_encode_name, lift; cbn in Hokn; by rewrite HEn. }
  assert (Hv : sql_encode_value self v (is_plaintext n) arguments
    = (arguments, Ok (if is_plaintext n then as_bytes v else Ev v))).
  { unfold sql_encode_value, lift. destruct (is_plaintext n); [done|]. by rewrite HEv. }
  rewrite (stm_bind_ok _ _ _ _ _ Hn), (stm_bind_ok _ _ _ _ _ Hv).
  unfold sql_encode_op_clause. rewrite prefix_op_str.
  set (value := if is_plaintext n then _ else _). clearbody value. clear Hn Hv.
  assert (H1 : (length arguments + 1)%nat = S (length arguments)) by lia.
  assert (H2 : (length arguments + 2)%nat = S (S (length arguments))) by lia.
  assert (H3 : (length arguments + 3)%nat = S (S (S (length arguments)))) by lia.
  unfold mbind, stm_bind, sget. rewrite H1, H2, H3.
  destruct (is_plaintext n), (prefix_op op), (12 <? length value)%nat;
    cbn -[String.append pretty plain_str end_text]; unfold push_arg, smod;
    rewrite <- ?app_assoc; repeat f_equal; unfold select_text, end_text;
    rewrite ?append_assoc, ?append_nil_r; done.
Qed.

Lemma encode_name_ok n arguments :
  ok (name_text n) →
  sql_encode_name self n arguments = (arguments, Ok (name_bytes En n)).
Proof. intros Hn. destruct n; unfold sql_encode_name, lift; cbn in Hn; by rewrite HEn. Qed.

Lemma encode_values_ok n vs arguments :
  Forall ok vs →
  mapM (λ val, sql_encode_value self val (is_plaintext n)) vs arguments
  = (arguments, Ok (List.map (value_bytes Ev n) vs)).
Proof.
  induction 1 as [|v vs Hokv _ IH]; [done|]. rewrite mapM_cons. cbn [List.map].
  assert (Hv : sql_encode_value self v (is_plaintext n) arguments = (arguments, Ok (value_bytes Ev n v))).
  { unfold sql_encode_value, value_bytes, lift. destruct (is_plaintext n); [done|]. by rewrite HEv. }
  rewrite (stm_bind_ok _ _ _ _ _ Hv). by rewrite (stm_bind_ok _ _ _ _ _ IH).
Qed.

Lemma join_commas o k : join ", " (replicate k "$$") = render_raw o (commas k).
Proof.
  revert o. induction k as [|[|k] IH]; intros o; [done..|].
  change (commas (S (S k))) with ([Auto; Lit ", "] ++ commas (S k))%list.
  rewrite render_raw_app. cbn [render_raw n_placeholders].
  rewrite <- IH. done.
Qed.

Lemma writes_in n vs neg :
  ok (name_text n) → Forall ok vs →
  writes (encode_tag_in (enc := sql_encoder self) n vs neg)
    (Some (SIn neg (name_bytes En n) (List.map (value_bytes Ev n) vs) (is_plaintext n))).
Proof.
  intros Hn Hvs arguments. unfold encode_tag_in.
  cbn [encode_name encode_value encode_in_clause sql_encoder].
  rewrite (stm_bind_ok _ _ _ _ _ (encode_name_ok n arguments Hn)).
  rewrite (stm_bind_ok _ _ _ _ _ (encode_values_ok n vs arguments Hvs)).
  unfold sql_encode_in_clause, mbind, stm_bind, push_arg, extend_args, smod.
  rewrite <- app_assoc. cbn [opt_args fmap option_fmap option_map default args_of]. f_equal.
  cbn [toks]. rewrite !render_raw_app. cbn [render_raw n_placeholders].
  rewrite <- join_commas. unfold select_text, end_text.
  rewrite !append_nil_r, !append_assoc. done.
Qed.

Lemma writes_exist_one neg n :
  ok (name_text n) →
  writes (encode_exist_one (enc := sql_encoder self) neg n) (Some (exist_sql En neg n)).
Proof.
  intros Hn arguments. unfold encode_exist_one. cbn [encode_name encode_exist_clause sql_encoder].
  rewrite (stm_bind_ok _ _ _ _ _ (encode_name_ok n arguments Hn)).
  unfold sql_encode_exist_clause, mbind, stm_bind, push_arg, smod. cbn -[String.append plain_str].
  unfold select_text, end_text. by rewrite !append_nil_r, !append_assoc.
Qed.

Lemma filter_map_some {A B} (h : A → B) (l : list A) : filter_map (λ x, Some (h x)) l = List.map h l.
Proof. induction l as [|x l IH]; [done|]. cbn. by rewrite IH. Qed.

Lemma writes_exist ns neg :
  Forall ok (List.map name_text ns) →
  writes (encode_tag_exist (enc := sql_encoder self) ns neg) (compile En Ev (Exist ns) neg).
Proof.
  rewrite List.Forall_map. intros Hns. destruct ns as [|n [|n' ns]].
  - intros arguments. cbn. by rewrite app_nil_r.
  - apply writes_exist_one. by inversion Hns.
  - cbn [compile]. rewrite <- filter_map_some. apply writes_conj_each.
    eapply Forall_impl; [exact Hns|]. intros x. apply writes_exist_one.
Qed.

Lemma writes_query q : ∀ neg, Forall ok (query_texts q) →
  writes (encode_tag_query (enc := sql_encoder self) q neg) (compile En Ev q neg).
Proof.
  induction q as [l IH|l IH|q IH|q Hleaf] using query_ind; intros neg Hok.
  - cbn [encode_tag_query compile]. apply writes_conj_each.
    apply query_texts_sub in Hok. eapply Forall_impl; [exact (proj2 (Forall_and _ _) (conj IH Hok))|].
    intros x [Hx Hxok]. auto.
  - cbn [encode_tag_query compile]. apply writes_conj_each.
    apply query_texts_sub in Hok. eapply Forall_impl; [exact (proj2 (Forall_and _ _) (conj IH Hok))|].
    intros x [Hx Hxok]. auto.
  - by apply IH.
  - destruct q; try done; cbn in Hok; try (inversion Hok as [|? ? ? Hok']; inversion Hok'; subst);
      first [by apply writes_op | by apply writes_in | by apply writes_exist].
Qed.

End EncodeText.

(** ** The clause means the query *)

(** The query encodes to no condition at all. *)
Fixpoint trivial_query {V} (q : AbstractQuery TagName V) (neg : bool) : bool :=
  match q with
  | And l => if neg then false else forallb (λ q, trivial_query q neg) l
  | Or l => if neg then forallb (λ q, trivial_query q neg) l else false
  | Not q' => trivial_query q' (negb neg)
  | Exist [] => true
  | _ => false
  end.

(** The queries the encoding is faithful for: a clause that encodes to no
    condition is never an alternative, and an existence clause in a negated
    position names exactly one tag. *)
Fixpoint supported {V} (q : AbstractQuery TagName V) (neg : bool) : bool :=
  match q with
  | And l =>
      forallb (λ q, supported q neg) l
      && (if neg then forallb (λ q, negb (trivial_query q neg)) l else true)
  | Or l =>
      forallb (λ q, supported q neg) l
      && (if neg then true else forallb (λ q, negb (trivial_query q neg)) l)
  | Not q' => supported q' (negb neg)
  | Exist ns => negb neg || (length ns =? 1)%nat
  | _ => true
  end.

Section Correct.
Context (En Ev : string → bytes) (like : bytes → bytes → bool) (rows : list TagRow).
Context (ok : string → Prop).

(** The truth of the leaf clauses over the encoded tag rows. *)
Definition rows_hold (op : CompareOp) (n : TagName) (v : string) : bool :=
  existsb (λ r, row_is (name_bytes En n) (is_plaintext n) r
    && sql_compare like op (row_value r) (value_bytes Ev n v)) rows.

Definition rows_have (n : TagName) : bool :=
  existsb (row_is (name_bytes En n) (is_plaintext n)) rows.

(** Encrypted values start with a 12-byte nonce derived from the value: among
    the rows, the prefix of the encryption of a value looked for determines it. *)
Hypothesis nonce_determines : ∀ r, r ∈ rows → row_plain r = false →
  ∀ v, ok v → take 12 (row_value r) = take 12 (Ev v) → row_value r = Ev v.

Lemma prefix_test_redundant op pop a b :
  prefix_op op = Some pop → (op = CompareOp.Neq → take 12 a = take 12 b → a = b) →
  sql_compare like op a b = true → sql_compare like pop (take 12 a) (take 12 b) = true.
Proof.
  intros Hp Hneq H. destruct (bytes_compare_take 12 a b) as [E|E];
    destruct op; simplify_eq/=; rewrite ?E; try done; try by destruct (bytes_compare a b).
  apply bytes_compare_eq, Hneq in E; [|done]. by rewrite E, bytes_compare_refl in H.
Qed.

Lemma op_sem op n v neg :
  ok v →
  sem like rows (op_sql En Ev op n v neg) = xorb neg (rows_hold op n v).
Proof.
  intros Hokv. unfold op_sql. cbn [sem]. unfold in_select, rows_hold. f_equal. apply existsb_ext_in. intros r Hr.
  destruct (row_is _ _ r) eqn:Hrow; [|done]. cbn [andb].
  destruct (sql_compare like op (row_value r) _) eqn:Hc; [|done]. cbn [andb].
  unfold row_is in Hrow. apply andb_prop in Hrow as [_ Hplain%Bool.eqb_prop].
  destruct (is_plaintext n) eqn:Hn; [done|].
  destruct (12 <? _)%nat; [|done]. destruct (prefix_op op) as [pop|] eqn:Hpop; [|done]. cbn.
  eapply prefix_test_redundant; [done| |done].
  intros _. unfold value_bytes. rewrite Hn. by apply nonce_determines.
Qed.

Lemma in_sem n vs neg :
  sem like rows (SIn neg (name_bytes En n) (List.map (value_bytes Ev n) vs) (is_plaintext n))
  = xorb neg (existsb (rows_hold CompareOp.Eq n) vs).
Proof.
  cbn -[sql_compare]. unfold in_select. f_equal. induction vs as [|v vs IH]; cbn -[sql_compare].
  - clear nonce_determines. induction rows as [|r l IHl]; [done|]. cbn. by rewrite andb_false_r, IHl.
  - rewrite <- IH. unfold rows_hold. clear nonce_determines IH.
    induction rows as [|r l IHl]; [done|]. cbn -[sql_compare]. rewrite IHl.
    destruct (row_is _ _ r); cbn -[sql_compare]; [|done].
    btauto.
Qed.

Lemma conj_sem op l :
  opt_sem like rows (conj_sql op l)
  = match op with
    | ConjunctionOp.And => forallb (sem like rows) l
    | ConjunctionOp.Or => existsb (sem like rows) l
    end.
Proof. destruct l as [|c [|]], op; cbn; by rewrite ?andb_true_r, ?orb_false_r. Qed.

Lemma conj_none op l : conj_sql op l = None ↔ op = ConjunctionOp.And ∧ l = [].
Proof. destruct l as [|c [|]], op; naive_solver. Qed.

Lemma compile_none q : ∀ neg, trivial_query q neg = true ↔ compile En Ev q neg = None.
Proof.
  assert (Hl : ∀ neg l,
    Forall (λ q, ∀ neg, trivial_query q neg = true ↔ compile En Ev q neg = None) l →
    forallb (λ q, trivial_query q neg) l = true ↔ filter_map (λ q, compile En Ev q neg) l = []).
  { clear q. intros neg. induction 1 as [|q l Hq _ IH]; [done|]. cbn.
    rewrite andb_true_iff, IH, Hq. destruct (compile En Ev q neg); naive_solver. }
  induction q as [l IH|l IH|q IH|q Hleaf] using query_ind; intros neg; cbn.
  - rewrite conj_none. destruct neg; cbn; [naive_solver|]. rewrite Hl by done. naive_solver.
  - rewrite conj_none. destruct neg; cbn; [|naive_solver]. rewrite Hl by done. naive_solver.
  - apply IH.
  - destruct q as [| | | | | | | | | | |[|n [|]]]; try done; cbn; naive_solver.
Qed.

Lemma filter_map_and (g : TagQuery → option Sql) l :
  forallb (sem like rows) (filter_map g l) = forallb (λ q, opt_sem like rows (g q)) l.
Proof. induction l as [|q l IH]; [done|]. cbn. destruct (g q); cbn; by rewrite IH. Qed.

Lemma filter_map_or (g : TagQuery → option Sql) l :
  Forall (λ q, g q ≠ None) l →
  existsb (sem like rows) (filter_map g l) = existsb (λ q, opt_sem like rows (g q)) l.
Proof. induction 1 as [|q l Hq _ IH]; [done|]. cbn. destruct (g q); [|done]. cbn. by rewrite IH. Qed.

Lemma non_trivial_compiled neg l :
  forallb (λ q, negb (trivial_query q neg)) l = true →
  Forall (λ q, compile En Ev q neg ≠ None) l.
Proof.
  intros H. apply forallb_Forall in H. eapply Forall_impl; [exact H|].
  intros q Hq Hn. apply compile_none in Hn. cbn in Hq. by rewrite Hn in Hq.
Qed.

Lemma existsb_negb {A} (f : A → bool) l : existsb (λ x, negb (f x)) l = negb (forallb f l).
Proof. induction l as [|x l IH]; [done|]. cbn. by rewrite IH, negb_andb. Qed.
Lemma forallb_negb {A} (f : A → bool) l : forallb (λ x, negb (f x)) l = negb (existsb f l).
Proof. induction l as [|x l IH]; [done|]. cbn. by rewrite IH, negb_orb. Qed.

Lemma compile_sem q : ∀ neg,
  Forall ok (query_texts q) → supported q neg = true →
  opt_sem like rows (compile En Ev q neg) = xorb neg (eval rows_hold rows_have q).
Proof.
  assert (Hsub : ∀ neg l (ev := λ q, xorb neg (eval rows_hold rows_have q)),
    Forall (λ q, ∀ neg, Forall ok (query_texts q) → supported q neg = true →
      opt_sem like rows (compile En Ev q neg) = xorb neg (eval rows_hold rows_have q)) l →
    Forall ok (List.flat_map query_texts l) → forallb (λ q, supported q neg) l = true →
    ∀ q, q ∈ l → opt_sem like rows (compile En Ev q neg) = ev q).
  { intros neg l ev IH Ho Hs. apply query_texts_sub in Ho. rewrite Forall_forall in IH, Ho.
    apply forallb_Forall in Hs. rewrite Forall_forall in Hs. auto. }
  induction q as [l IH|l IH|q IH|q Hleaf] using query_ind; intros neg Hok Hsup.
  - apply andb_prop in Hsup as [Hs Ht]. cbn [compile eval]. rewrite conj_sem.
    destruct neg; cbn [neg_op negate].
    + rewrite filter_map_or by by apply non_trivial_compiled.
      rewrite (existsb_ext_in _ _ _ (Hsub true l IH Hok Hs)). apply existsb_negb.
    + rewrite filter_map_and, (forallb_ext_in _ _ _ (Hsub false l IH Hok Hs)). cbn.
      apply forallb_ext_in. intros x _. by destruct (eval _ _ x).
  - apply andb_prop in Hsup as [Hs Ht]. cbn [compile eval]. rewrite conj_sem.
    destruct neg; cbn [neg_op negate].
    + rewrite filter_map_and, (forallb_ext_in _ _ _ (Hsub true l IH Hok Hs)). apply forallb_negb.
    + rewrite filter_map_or by by apply non_trivial_compiled.
      rewrite (existsb_ext_in _ _ _ (Hsub false l IH Hok Hs)). cbn.
      apply existsb_ext_in. intros x _. by destruct (eval _ _ x).
  - cbn [compile eval]. rewrite IH by done. by destruct neg, (eval _ _ q).
  - destruct q as [| | |n v|n v|n v|n v|n v|n v|n v|n vs|ns]; try done;
      cbn [compile eval opt_sem]; try (apply op_sem; inversion Hok as [|? ? ? Hok']; by inversion Hok');
      [apply in_sem|].
    destruct ns as [|n [|n' ns]]; cbn in Hsup.
    + by destruct neg.
    + cbn. by rewrite andb_true_r.
    + destruct neg; [done|]. clear Hok. rewrite conj_sem. cbn [xorb].
      induction (n :: n' :: ns) as [|x l IHl]; [done|]. cbn. by rewrite IHl.
Qed.

End Correct.

(** ** The text bound to the database *)

(** The clause as the database receives it: the placeholder of the [k]-th
    argument (from 0) is the backend's placeholder for parameter
    [offset + 1 + k]. *)
Definition bound_text (placeholder : Z → string) (offset : nat) (c : Sql) : string :=
  render_with (λ k, placeholder (Z.of_nat offset + 1 + Z.of_nat k)%Z) 0 (toks c).

Lemma encode_query_compiles self En Ev (ok : string → Prop) q :
  (∀ s, ok s → enc_name self s = Ok (En s)) → (∀ s, ok s → enc_value self s = Ok (Ev s)) →
  Forall ok (query_texts q) →
  sql_encode_query self q
  = (opt_args (compile En Ev q false), Ok ((λ c, render_raw 0 (toks c)) <$> compile En Ev q false)).
Proof. intros Hn Hv Hok. exact (writes_query self En Ev ok Hn Hv q false Hok []). Qed.

Lemma replace_clause placeholder offset c :
  (Z.of_nat offset + 1 + Z.of_nat (length (args_of c)) ≤ i64_max)%Z →
  replace_arg_placeholders placeholder (Z.of_nat offset + 1) (render_raw 0 (toks c))
  = Ok (bound_text placeholder offset c).
Proof.
  intros H. destruct (toks_wf c) as [Hok _].
  pose proof (replace_toks placeholder (Z.of_nat offset + 1) (toks c) 0 Hok) as Hr.
  rewrite toks_args, Z.add_0_r in Hr. apply Hr; lia.
Qed.

(** ** Where the encoding departs from the query *)

(** An alternative that is always true is dropped from a disjunction: the
    condition written for [{"$or": [{}, q]}] is that of [q] alone, although the
    query holds of every item. *)
Theorem or_true_alternative_dropped self q args t (hold : CompareOp → TagName → string → bool) have :
  sql_encode_query self q = (args, Ok (Some t)) →
  sql_encode_query self (Or [And []; q]) = (args, Ok (Some t))
  ∧ eval hold have (Or [And []; q]) = true.
Proof.
  unfold sql_encode_query, encode_query. intros H. split; [|done].
  cbn [encode_tag_query]. unfold encode_tag_conj_with. cbn [encode_each].
  erewrite stm_bind_ok; [|erewrite stm_bind_ok by done; erewrite stm_bind_ok;
    [done|erewrite stm_bind_ok by exact H; done]]. done.
Qed.

Lemma or_true_alternative_dropped_witness :
  let self := {| enc_name := λ s, Ok (as_bytes s); enc_value := λ s, Ok (as_bytes s) |} in
  sql_encode_query self (Or [And []; Exist [Plaintext "a"]])
  = ([as_bytes "a"], Ok (Some
      "i.id IN (SELECT item_id FROM items_tags WHERE name = $$ AND plaintext = 1)")).
Proof.
  intros self.
  apply (or_true_alternative_dropped self (Exist [Plaintext "a"]) [as_bytes "a"]
    "i.id IN (SELECT item_id FROM items_tags WHERE name = $$ AND plaintext = 1)"
    (λ _ _ _, false) (λ _, false)).
  vm_compute. reflexivity.
Defined.

(** A negated existence test of two names requires that both tags are absent,
    not that one of them is: it is written as the conjunction of the two
    negated tests. *)
Theorem negated_exist_requires_all_absent self a b :
  sql_encode_query self (Not (Exist [a; b]))
  = sql_encode_query self (And [Not (Exist [a]); Not (Exist [b])]).
Proof.
  unfold sql_encode_query, encode_query. cbn [encode_tag_query negb]. done.
Qed.
