(* ===== verification/SqlEval.v ===== *)
(** * Reading the SQL conditions back

    A database's reading of the conditions that the encoder of
    askar-storage/src/wql/sql.rs writes into its queries: a parser for that
    fragment of SQL, in which a placeholder, [?n] in SQLite and [$n] in PostgreSQL,
    stands for the [n]-th bound parameter, and the evaluation of the condition on the tag rows of an item.
    The parser inverts the printer of [TagSqlSem], so that a printed condition
    with its parameters means what the clause does. *)

From stdpp Require Import pretty.
From S2P Require Import Prelude Wql TagSql DbQuery TagSqlSem.
Local Open Scope string_scope.

(** ** The parser *)

Fixpoint strip (p s : string) : option string :=
  match p with
  | "" => Some s
  | String a p' =>
      match s with
      | String b s' => if Ascii.eqb a b then strip p' s' else None
      | "" => None
      end
  end.

Section Parse.
(** [mark] starts a placeholder; [offset] parameters precede [args]. *)
Context (mark : string) (offset : nat) (args : list bytes).

Definition parse_arg (s : string) : option (bytes * string) :=
  s ← strip mark s;
  let '(ds, s) := span_digits s in
  let i := (digits_value 0 ds - Z.of_nat offset - 1)%Z in
  if (i <? 0)%Z then None else
  a ← args !! Z.to_nat i;
  Some (a, s).

Definition parse_end (s : string) : option (bool * string) :=
  s ← strip " AND plaintext = " s;
  match strip "1)" s, strip "0)" s with
  | Some s, _ => Some (true, s)
  | None, Some s => Some (false, s)
  | None, None => None
  end.

(** A comparison operator and the space after it. *)
Fixpoint parse_op (ops : list CompareOp) (s : string) : option (CompareOp * string) :=
  match ops with
  | [] => None
  | op :: ops' =>
      match strip (as_sql_str op +:+ " ") s with
      | Some s => Some (op, s)
      | None => parse_op ops' s
      end
  end.

Definition all_ops : list CompareOp :=
  [CompareOp.Eq; CompareOp.Neq; CompareOp.Gt; CompareOp.Gte; CompareOp.Lt; CompareOp.Lte; CompareOp.Like].

(** The values after a comma, to the closing parenthesis. *)
Fixpoint parse_values (fuel : nat) (s : string) : option (list bytes * string) :=
  match fuel with
  | O => None
  | S fuel =>
      match strip ")" s with
      | Some s => Some ([], s)
      | None =>
          s ← strip ", " s;
          '(a, s) ← parse_arg s;
          '(l, s) ← parse_values fuel s;
          Some (a :: l, s)
      end
  end.

(** After the name of a tag. *)
Definition parse_test (neg : bool) (name : bytes) (s : string) : option (Sql * string) :=
  match strip " AND value IN (" s with
  | Some s =>
      '(values, s) ← match strip ")" s with
        | Some s => Some ([], s)
        | None => '(a, s) ← parse_arg s; '(l, s) ← parse_values (String.length s) s; Some (a :: l, s)
        end;
      '(plain, s) ← parse_end s;
      Some (SIn neg name values plain, s)
  | None =>
      match strip " AND value " s with
      | Some s =>
          '(op, s) ← parse_op all_ops s;
          '(value, s) ← parse_arg s;
          match strip " AND SUBSTR(value, 1, 12) " s with
          | Some s =>
              '(pop, s) ← parse_op all_ops s;
              '(p, s) ← parse_arg s;
              '(plain, s) ← parse_end s;
              Some (SOp neg op name value (Some (pop, p)) plain, s)
          | None => '(plain, s) ← parse_end s; Some (SOp neg op name value None plain, s)
          end
      | None => '(plain, s) ← parse_end s; Some (SExist neg name plain, s)
      end
  end.

Definition parse_select (s : string) : option (Sql * string) :=
  match strip (select_text false) s with
  | Some s => '(name, s) ← parse_arg s; parse_test false name s
  | None => s ← strip (select_text true) s; '(name, s) ← parse_arg s; parse_test true name s
  end.

Fixpoint parse (fuel : nat) (s : string) {struct fuel} : option (Sql * string) :=
  match fuel with
  | O => None
  | S fuel =>
      match strip "0" s with
      | Some s => Some (SFalse, s)
      | None =>
          match strip "(" s with
          | Some s =>
              '(c, s) ← parse fuel s;
              let op := match strip (conj_sql_str ConjunctionOp.And) s with
                | Some _ => ConjunctionOp.And | None => ConjunctionOp.Or end in
              '(l, s) ← parse_more fuel op s;
              Some (SConj op (c :: l), s)
          | None => parse_select s
          end
      end
  end
with parse_more (fuel : nat) (op : ConjunctionOp) (s : string) {struct fuel} : option (list Sql * string) :=
  match fuel with
  | O => None
  | S fuel =>
      match strip ")" s with
      | Some s => Some ([], s)
      | None =>
          s ← strip (conj_sql_str op) s;
          '(c, s) ← parse fuel s;
          '(l, s) ← parse_more fuel op s;
          Some (c :: l, s)
      end
  end.

(** The whole text must be one condition. *)
Definition parse_clause (s : string) : option Sql :=
  match parse (S (String.length s)) s with
  | Some (c, "") => Some c
  | _ => None
  end.
End Parse.

(** The condition of a query, on the tag rows of an item; a text that could not be
    read selects nothing. *)
Definition eval_clause (mark : string) (like : bytes → bytes → bool) (offset : nat) (s : string)
    (args : list bytes) (rows : list TagRow) : bool :=
  match parse_clause mark offset args s with
  | Some c => sem like rows c
  | None => false
  end.

(** ** The parser inverts the printer *)

(** A placeholder, as [placeholder] of the backends writes it. *)
Definition marked (mark : string) (index : Z) : string := mark +:+ pretty index.

Lemma strip_append p s : strip p (p +:+ s) = Some s.
Proof. induction p as [|a p IH]; [done|]. rewrite append_cons. cbn. by rewrite Ascii.eqb_refl. Qed.

Lemma render_with_app ph o l1 l2 :
  render_with ph o (l1 ++ l2) = render_with ph o l1 +:+ render_with ph (o + n_placeholders l1) l2.
Proof.
  revert o. induction l1 as [|t l1 IH]; intros o; cbn [app render_with n_placeholders].
  - by rewrite Nat.add_0_r.
  - destruct t; cbn [render_with]; rewrite IH, append_assoc; [done| |]; by rewrite Nat.add_succ_comm.
Qed.

Section Inverse.
Context (mark : string) (offset : nat) (args : list bytes).
Hypothesis mark_parsed : ∀ s, strip ")" (mark +:+ s) = None.
Abbreviation ph := (λ k : nat, marked mark (Z.of_nat offset + 1 + Z.of_nat k)%Z).

Lemma parse_arg_ph k a s :
  args !! k = Some a → first_char (negb ∘ is_digit) s = true →
  parse_arg mark offset args (ph k +:+ s) = Some (a, s).
Proof.
  intros Ha Hs. unfold parse_arg, marked. rewrite append_assoc, strip_append. cbn [mbind option_bind].
  replace (Z.of_nat offset + 1 + Z.of_nat k)%Z with (Z.of_nat (offset + 1 + k)) by lia.
  destruct (pretty_nat_digits (offset + 1 + k)) as (Hd & Hv & _).
  assert (Ep : pretty (Z.of_nat (offset + 1 + k)) = pretty (offset + 1 + k)%nat) by (by rewrite Nat.add_1_r).
  rewrite Ep, span_digits_append by done. rewrite Hv.
  rewrite (proj2 (Z.ltb_ge _ _)) by lia.
  replace (Z.to_nat _) with k by lia. by rewrite Ha.
Qed.

Lemma parse_end_text plain s : parse_end (end_text plain +:+ s) = Some (plain, s).
Proof. unfold end_text. rewrite !append_assoc. unfold parse_end. rewrite strip_append. by destruct plain. Qed.

Lemma parse_op_text op s : parse_op all_ops (as_sql_str op +:+ " " +:+ s) = Some (op, s).
Proof. by destruct op. Qed.

(** The arguments from [o] on. *)
Definition bound (o : nat) (vs : list bytes) : Prop := ∀ i v, vs !! i = Some v → args !! (o + i)%nat = Some v.

Lemma bound_cons o v vs : bound o (v :: vs) → args !! o = Some v ∧ bound (S o) vs.
Proof.
  intros H. split; [rewrite <- (Nat.add_0_r o); by apply (H 0%nat)|].
  intros i w Hi. rewrite Nat.add_succ_comm. by apply (H (S i)).
Qed.

Lemma bound_app o l1 l2 : bound o (l1 ++ l2) → bound o l1 ∧ bound (o + length l1) l2.
Proof.
  intros H. split; intros i v Hi.
  - apply H. by apply lookup_app_l_Some.
  - rewrite <- Nat.add_assoc. apply H. rewrite lookup_app_r by lia. by rewrite Nat.add_sub'.
Qed.

(** The placeholders after the first of [n + 1]. *)
Fixpoint more_values (o n : nat) : string :=
  match n with
  | O => ""
  | S n => ", " +:+ ph (S o) +:+ more_values (S o) n
  end.

Lemma commas_more n : ∀ o, render_with ph o (commas (S n)) = ph o +:+ more_values o n.
Proof.
  induction n as [|n IH]; intros o; [done|].
  change (commas (S (S n))) with ([Auto; Lit ", "] ++ commas (S n))%list.
  cbn [app render_with]. rewrite IH. done.
Qed.

Lemma more_values_length o n : (n ≤ String.length (more_values o n))%nat.
Proof.
  revert o. induction n as [|n IH]; intros o; cbn [more_values]; [cbn; lia|]. specialize (IH (S o)).
  rewrite !length_append. cbn. lia.
Qed.

Lemma parse_values_more vs : ∀ o fuel s,
  bound (S o) vs → (length vs < fuel)%nat →
  parse_values mark offset args fuel (more_values o (length vs) +:+ ")" +:+ s) = Some (vs, s).
Proof.
  induction vs as [|v vs IH]; intros o [|fuel] s Hb Hf; cbn [length] in *; try lia; [done|].
  apply bound_cons in Hb as [Hv Hb]. cbn [more_values parse_values].
  rewrite !append_assoc. change (strip ")" (", " +:+ _)) with (@None string). cbv iota.
  rewrite strip_append. cbn [mbind option_bind].
  rewrite (parse_arg_ph (S o) v); [|done|by destruct vs].
  cbn [mbind option_bind]. by rewrite IH by (done || lia).
Qed.

(** Conditions on one tag. *)
Lemma test_exist neg name plain s :
  parse_test mark offset args neg name (end_text plain +:+ s) = Some (SExist neg name plain, s).
Proof. by destruct plain. Qed.

Lemma test_in neg name vs plain o s :
  bound (S o) vs →
  parse_test mark offset args neg name
    (" AND value IN (" +:+ render_with ph (S o) (commas (length vs)) +:+ ")" +:+ end_text plain +:+ s)
  = Some (SIn neg name vs plain, s).
Proof.
  intros Hb. unfold parse_test. rewrite strip_append. destruct vs as [|v vs].
  - cbn [length commas render_with]. change ("" +:+ ?x) with x. rewrite strip_append. cbn [mbind option_bind].
    by rewrite parse_end_text.
  - cbn [length]. rewrite commas_more, append_assoc.
    apply bound_cons in Hb as [Hv Hb].
    assert (Ec : ∀ r, strip ")" (ph (S o) +:+ r) = None)
      by (intros r; unfold marked; rewrite append_assoc; apply mark_parsed). rewrite Ec. rewrite (parse_arg_ph (S o) v); [|done|by destruct vs].
    cbn [mbind option_bind].
    rewrite parse_values_more; [|done|].
    + cbn [mbind option_bind]. by rewrite parse_end_text.
    + pose proof (more_values_length (S o) (length vs)). rewrite !length_append.
      change (String.length ")") with 1%nat. lia.
Qed.

Lemma test_op neg op name v pfx plain o s :
  bound (S o) (v :: match pfx with Some (_, p) => [p] | None => [] end) →
  parse_test mark offset args neg name
    (" AND value " +:+ as_sql_str op +:+ " " +:+ ph (S o)
     +:+ match pfx with
         | Some (pop, _) => " AND SUBSTR(value, 1, 12) " +:+ as_sql_str pop +:+ " " +:+ ph (S (S o))
         | None => ""
         end +:+ end_text plain +:+ s)
  = Some (SOp neg op name v pfx plain, s).
Proof.
  intros [Hv Hb]%bound_cons. unfold parse_test.
  set (rest := ph (S o) +:+ _).
  assert (En : strip " AND value IN (" (" AND value " +:+ as_sql_str op +:+ " " +:+ rest) = None)
    by (by destruct op).
  rewrite En, strip_append, parse_op_text. cbn [mbind option_bind]. unfold rest.
  rewrite (parse_arg_ph (S o) v); [|done|by destruct pfx as [[]|]; destruct plain].
  cbn [mbind option_bind]. destruct pfx as [[pop p]|].
  - apply bound_cons in Hb as [Hp _]. rewrite !append_assoc, strip_append, parse_op_text.
    cbn [mbind option_bind]. rewrite (parse_arg_ph (S (S o)) p); [|done|by destruct plain].
    cbn [mbind option_bind]. by rewrite parse_end_text.
  - change ("" +:+ ?x) with x.
    assert (Es : strip " AND SUBSTR(value, 1, 12) " (end_text plain +:+ s) = None) by (by destruct plain).
    by rewrite Es, parse_end_text.
Qed.

(** Conjunctions have at least two members. *)
Fixpoint clause_wf (c : Sql) : bool :=
  match c with
  | SConj _ l => (2 <=? length l)%nat && forallb clause_wf l
  | _ => true
  end.

Definition is_leaf (c : Sql) : bool := match c with SConj _ _ | SFalse => false | _ => true end.

Lemma parse_leaf c o s :
  is_leaf c = true → bound o (args_of c) →
  parse_select mark offset args (render_with ph o (toks c) +:+ s) = Some (c, s).
Proof.
  assert (Hsel : ∀ neg name rest, args !! o = Some name → first_char (negb ∘ is_digit) rest = true →
    parse_select mark offset args (select_text neg +:+ ph o +:+ rest) = parse_test mark offset args neg name rest).
  { intros neg name rest Ha Hr. unfold parse_select. destruct neg.
    - change (strip (select_text false) (select_text true +:+ _)) with (@None string). cbv iota.
      rewrite strip_append. cbn [mbind option_bind]. by rewrite (parse_arg_ph o name).
    - rewrite strip_append. by rewrite (parse_arg_ph o name). }
  destruct c as [n op nm v pfx plain|n nm vs plain|n nm plain| |]; try done; intros _ Hb;
    cbn [args_of app] in Hb; apply bound_cons in Hb as [Hn Hb]; cbn [toks app render_with];
    rewrite !append_assoc, (Hsel _ nm); try done.
  - rewrite <- (test_op n op nm v pfx plain o s Hb). f_equal. rewrite ?append_assoc.
    destruct pfx as [[pop p]|]; cbn [app render_with]; rewrite ?append_assoc; done.
  - rewrite <- (test_in n nm vs plain o s Hb). f_equal. rewrite render_with_app, ?append_assoc. cbn [render_with].
    by rewrite ?append_assoc.
  - change ("" +:+ ?x) with x. apply test_exist.
Qed.

(** Fuel that is enough for a clause. *)
Fixpoint clause_size (c : Sql) : nat :=
  match c with
  | SConj _ l => S (list_sum (List.map (λ c, S (clause_size c)) l))
  | _ => 1
  end.

Definition parses (c : Sql) : Prop := ∀ o fuel s,
  clause_wf c = true → bound o (args_of c) → (clause_size c ≤ fuel)%nat →
  parse mark offset args fuel (render_with ph o (toks c) +:+ s) = Some (c, s).

Lemma parse_more_ok op l : Forall parses l → ∀ o fuel s,
  forallb clause_wf l = true → bound o (List.flat_map args_of l) →
  (list_sum (List.map (λ c, S (clause_size c)) l) < fuel)%nat →
  parse_more mark offset args fuel op
    (match l with [] => "" | _ => conj_sql_str op +:+ render_with ph o (sep_toks toks (conj_sql_str op) l) end
     +:+ ")" +:+ s) = Some (l, s).
Proof.
  induction 1 as [|c l Hc _ IH]; intros o [|fuel] s Hwf Hb Hf; try lia; [done|].
  cbn [forallb] in Hwf. apply andb_true_iff in Hwf as [Hwc Hwf].
  cbn [List.flat_map] in Hb. apply bound_app in Hb as [Hbc Hb].
  change (S (clause_size c) + list_sum (List.map (λ c, S (clause_size c)) l) < S fuel)%nat in Hf.
  cbn [parse_more]. rewrite append_assoc.
  assert (Ec : ∀ r, strip ")" (conj_sql_str op +:+ r) = None) by (by destruct op). rewrite Ec, strip_append.
  cbn [mbind option_bind].
  assert (Es : render_with ph o (sep_toks toks (conj_sql_str op) (c :: l)) +:+ ")" +:+ s
    = render_with ph o (toks c) +:+ (match l with [] => "" | _ => conj_sql_str op
        +:+ render_with ph (o + length (args_of c)) (sep_toks toks (conj_sql_str op) l) end +:+ ")" +:+ s)).
  { destruct l as [|c' l]; [done|]. rewrite sep_toks_cons, render_with_app, toks_args, append_assoc.
    cbn [app render_with]. by rewrite append_assoc. }
  rewrite Es, Hc by (done || lia). cbn [mbind option_bind].
  by rewrite IH by (done || lia).
Qed.

Lemma parse_conj fuel s :
  parse mark offset args (S fuel) ("(" +:+ s) =
  ('(c, s) ← parse mark offset args fuel s;
   let op := match strip (conj_sql_str ConjunctionOp.And) s with
     | Some _ => ConjunctionOp.And | None => ConjunctionOp.Or end in
   '(l, s) ← parse_more mark offset args fuel op s;
   Some (SConj op (c :: l), s)).
Proof. done. Qed.

Lemma parse_ok c : parses c.
Proof.
  induction c as [op l IH|c Hc] using sql_ind; intros o fuel s Hwf Hb Hf.
  - destruct l as [|c [|c' l]]; [done|done|]. inversion IH as [|? ? Hc IH']; subst.
    destruct fuel as [|fuel]; [cbn in Hf; lia|].
    change (clause_wf c && forallb clause_wf (c' :: l) = true) in Hwf.
    apply andb_true_iff in Hwf as [Hwc Hwf]. cbn [args_of List.flat_map] in Hb.
    apply bound_app in Hb as [Hbc Hb].
    change (S (S (clause_size c) + list_sum (List.map (λ c, S (clause_size c)) (c' :: l))) ≤ S fuel)%nat in Hf.
    cbn [toks app render_with]. rewrite !append_assoc, parse_conj.
    rewrite sep_toks_cons, <- app_assoc, !render_with_app, toks_args, !append_assoc.
    rewrite Hc by (done || lia). cbn [mbind option_bind render_with n_placeholders].
    rewrite !append_nil_r, Nat.add_0_r.
    set (tail := render_with ph _ _ +:+ ")" +:+ s).
    assert (Eop : match strip (conj_sql_str ConjunctionOp.And) (conj_sql_str op +:+ tail) with
      | Some _ => ConjunctionOp.And | None => ConjunctionOp.Or end = op) by (by destruct op).
    rewrite Eop.
    pose proof (parse_more_ok op (c' :: l) IH' (o + length (args_of c)) fuel s) as Hm.
    cbv iota in Hm. rewrite append_assoc in Hm. fold tail in Hm. rewrite Hm by (done || lia). done.
  - destruct fuel as [|fuel]; [destruct c; cbn in Hf; lia|]. destruct (is_leaf c) eqn:El; [|by destruct c].
    rewrite <- (parse_leaf c o s El Hb). cbn [parse].
    by destruct c as [[]| [] | [] | |].
Qed.

Lemma clause_size_length clause : ∀ o, clause_wf clause = true →
  (clause_size clause ≤ String.length (render_with ph o (toks clause)))%nat.
Proof.
  assert (Hl : ∀ op l, Forall (λ c, ∀ o, clause_wf c = true →
      (clause_size c ≤ String.length (render_with ph o (toks c)))%nat) l →
    ∀ o, forallb clause_wf l = true →
    (list_sum (List.map (λ c, S (clause_size c)) l)
     ≤ S (String.length (render_with ph o (sep_toks toks (conj_sql_str op) l))))%nat).
  { intros op l. induction 1 as [|c l Hc Hl IH]; intros o Hwf; [cbn; lia|].
    cbn [forallb] in Hwf. apply andb_true_iff in Hwf as [Hwc Hwf].
    change (S (clause_size c) + list_sum (List.map (λ c, S (clause_size c)) l)
      ≤ S (String.length (render_with ph o (sep_toks toks (conj_sql_str op) (c :: l)))))%nat.
    destruct l as [|c' l]; [specialize (Hc o Hwc); cbn [sep_toks List.map]; change (list_sum []) with 0%nat; lia|].
    rewrite sep_toks_cons, !render_with_app, !length_append. specialize (Hc o Hwc).
    specialize (IH (o + n_placeholders (toks c) + n_placeholders [Lit (conj_sql_str op)])%nat Hwf).
    assert (2 ≤ String.length (conj_sql_str op +:+ ""))%nat by (destruct op; vm_compute; lia).
    cbn [render_with]. lia. }
  induction clause as [op l IH|c Hc] using sql_ind; intros o Hwf.
  - cbn [clause_wf] in Hwf. apply andb_true_iff in Hwf as [_ Hwf]. specialize (Hl op l IH o Hwf).
    cbn [toks clause_size app render_with]. rewrite render_with_app, !length_append.
    cbn [render_with]. rewrite length_append. change (String.length "(") with 1%nat.
    change (String.length ")") with 1%nat. lia.
  - assert (Hsel : ∀ neg r, (1 ≤ String.length (select_text neg +:+ r))%nat).
    { intros neg r. rewrite length_append. destruct neg; vm_compute String.length; lia. }
    destruct c; try done; cbn [toks app render_with clause_size]; apply Hsel.
Qed.

End Inverse.

Lemma parse_clause_bound mark offset c :
  (∀ s, strip ")" (mark +:+ s) = None) → clause_wf c = true →
  parse_clause mark offset (args_of c) (bound_text (marked mark) offset c) = Some c.
Proof.
  intros Hmark Hwf. unfold parse_clause. set (text := bound_text (marked mark) offset c).
  pose proof (parse_ok mark offset (args_of c) Hmark c 0 (S (String.length text)) "" Hwf) as Hp.
  rewrite append_nil_r in Hp. unfold text, bound_text in *. rewrite Hp; [done|by intros i v|].
  pose proof (clause_size_length mark offset c 0 Hwf). lia.
Qed.

(** The compiler writes only clauses the parser reads. *)
Lemma conj_sql_wf op l c : Forall (λ c, clause_wf c = true) l → conj_sql op l = Some c → clause_wf c = true.
Proof.
  intros Hl. destruct l as [|c1 [|c2 l]]; cbn.
  - destruct op; [done|]. by intros [= <-].
  - intros [= <-]. by inversion Hl.
  - intros [= <-]. change (forallb clause_wf (c1 :: c2 :: l) = true). by apply forallb_Forall.
Qed.

Lemma compile_wf En Ev q : ∀ neg c, compile En Ev q neg = Some c → clause_wf c = true.
Proof.
  assert (Hl : ∀ neg l, Forall (λ q, ∀ neg c, compile En Ev q neg = Some c → clause_wf c = true) l →
    Forall (λ c, clause_wf c = true) (filter_map (λ q, compile En Ev q neg) l)).
  { clear q. intros neg l. induction 1 as [|q l Hq _ IH]; [constructor|]. cbn.
    destruct (compile En Ev q neg) as [c|] eqn:E; [constructor; eauto|done]. }
  induction q as [l IH|l IH|q IH|q Hleaf] using query_ind; intros neg c E; cbn [compile] in E; eauto using conj_sql_wf.
  destruct q as [| | |n v|n v|n v|n v|n v|n v|n v|n vs|ns]; try done; cbn [compile] in E;
    try (by injection E as <-).
  destruct ns as [|n1 [|n2 ns]]; [done|by injection E as <-|].
  eapply conj_sql_wf; [|exact E]. apply List.Forall_map, Forall_forall. done.
Qed.

Lemma eval_clause_sem mark like offset c rows :
  (∀ s, strip ")" (mark +:+ s) = None) → clause_wf c = true →
  eval_clause mark like offset (bound_text (marked mark) offset c) (args_of c) rows = sem like rows c.
Proof. intros Hmark Hwf. unfold eval_clause. by rewrite parse_clause_bound. Qed.
