(* ===== verification/Buffers.v ===== *)
(** * Byte buffers

    Models askar-crypto/src/buffer: the [WriteBuffer]/[ResizeBuffer] traits as a
    type class with the contract its implementations promise, [Vec<u8>],
    [SecretBytes] (with its capacity, and what becomes of the memory it gives
    up), [Writer] over a fixed slice and over another buffer, [ArrayKey] and
    [HexRepr].

    An operation takes the buffer and returns it; every operation that fails
    does so before it touches the buffer.  Lengths are natural numbers: a buffer
    longer than the address space is not modelled. *)

From S2P Require Import Prelude Errors.
Local Open Scope string_scope.
Local Open Scope list_scope.

(** ** The buffer traits *)

Class ResizeBuffer (B : Type) := {
  as_ref : B → bytes;
  (** Overwrite the bytes seen through [as_mut] with as many others. *)
  as_mut_set : B → bytes → B;
  buffer_write : bytes → B → cres B;
  buffer_insert : nat → bytes → B → cres B;
  (** An exclusive range. *)
  buffer_remove : nat → nat → B → cres B;
  buffer_resize : nat → B → cres B;
}.

(** [buffer_extend]: the provided method; with the buffer, the slice returned. *)
Definition buffer_extend `{ResizeBuffer B} (len : nat) (b : B) : cres (B * bytes) :=
  let pos := length (as_ref b) in
  let end_ := (pos + len)%nat in
  b ← buffer_resize end_ b;
  if (end_ <=? length (as_ref b))%nat
  then Ok (b, take len (drop pos (as_ref b))) else Panic.

(** [Vec::resize(len, 0)]. *)
Definition resize_zero (n : nat) (v : bytes) : bytes := resize n x00 v.

(** What the traits promise, for buffers satisfying [buf_ok]. *)
Class LawfulBuffer (B : Type) `{ResizeBuffer B} := {
  buf_ok : B → Prop;
  as_mut_spec b d : buf_ok b → length d = length (as_ref b) →
    buf_ok (as_mut_set b d) ∧ as_ref (as_mut_set b d) = d;
  write_spec b d : buf_ok b → ∃ b', buffer_write d b = Ok b'
    ∧ buf_ok b' ∧ as_ref b' = as_ref b ++ d;
  insert_spec b pos d : buf_ok b → (pos ≤ length (as_ref b))%nat →
    ∃ b', buffer_insert pos d b = Ok b'
    ∧ buf_ok b' ∧ as_ref b' = take pos (as_ref b) ++ d ++ drop pos (as_ref b);
  remove_spec b i j : buf_ok b → (i ≤ j)%nat → (j ≤ length (as_ref b))%nat →
    ∃ b', buffer_remove i j b = Ok b'
    ∧ buf_ok b' ∧ as_ref b' = take i (as_ref b) ++ drop j (as_ref b);
  resize_spec b n : buf_ok b → ∃ b', buffer_resize n b = Ok b'
    ∧ buf_ok b' ∧ as_ref b' = resize_zero n (as_ref b);
}.

(** [buffer_extend] of a lawful buffer appends zeroes and returns them. *)
Lemma extend_spec `{LawfulBuffer B} b len :
  buf_ok b → ∃ b', buffer_extend len b = Ok (b', replicate len x00)
    ∧ buf_ok b' ∧ as_ref b' = as_ref b ++ replicate len x00.
Proof.
  intros Hb. unfold buffer_extend.
  destruct (resize_spec b (length (as_ref b) + len) Hb) as (b' & -> & Hok & E).
  unfold resize_zero in E. rewrite resize_add_eq in E by done.
  exists b'. cbn. rewrite E, length_app, length_replicate, Nat.leb_refl, drop_app_length.
  by rewrite take_ge by (by rewrite length_replicate).
Qed.

(** ** [Vec<u8>] *)

Definition vec_splice {E} (i j : nat) (d v : bytes) : res E bytes :=
  if (i <=? j)%nat && (j <=? length v)%nat then Ok (take i v ++ d ++ drop j v) else Panic.

Definition vec_drain {E} (i j : nat) (v : bytes) : res E bytes := vec_splice i j [] v.

#[export] Instance vec_buffer : ResizeBuffer bytes := {
  as_ref v := v;
  as_mut_set _ d := d;
  buffer_write d v := Ok (v ++ d);
  buffer_insert pos d v := vec_splice pos pos d v;
  buffer_remove i j v := vec_drain i j v;
  buffer_resize n v := Ok (resize_zero n v);
}.

(** ** [SecretBytes]

    [sec_released] records the contents of the allocations the buffer has given
    back to the allocator; the code never reads it. *)

Class Allocator := {
  (** The capacity of [Vec::with_capacity(n)]. *)
  alloc_cap : nat → nat;
  (** The capacity chosen when a vector of some capacity must hold more. *)
  grow_cap : nat → nat → nat;
  alloc_cap_ge n : (n ≤ alloc_cap n)%nat;
  grow_cap_ge cap n : (n ≤ grow_cap cap n)%nat;
}.

Record SecretBytes := mkSecret {
  sec_data : bytes;
  sec_cap : nat;
  sec_released : list bytes;
}.

Definition sec_ok (s : SecretBytes) : Prop := (length (sec_data s) ≤ sec_cap s)%nat.

(** A vector dropped after [zeroize]: its whole allocation is zero. *)
Definition zeroed (cap : nat) : bytes := replicate cap x00.

Section Secret.
Context `{Allocator}.

(** [Vec::reserve]: a vector that must grow moves, and leaves its bytes behind. *)
Definition vec_reserve (additional : nat) (s : SecretBytes) : SecretBytes :=
  let len := length (sec_data s) in
  if (len + additional <=? sec_cap s)%nat then s
  else mkSecret (sec_data s) (grow_cap (sec_cap s) (len + additional))
         (if (sec_cap s =? 0)%nat then sec_released s else sec_data s :: sec_released s).

Definition with_capacity (max_len : nat) : SecretBytes := mkSecret [] (alloc_cap max_len) [].

Definition secret_from_slice (data : bytes) : SecretBytes :=
  mkSecret data (alloc_cap (length data)) [].

Definition secret_from_slice_reserve (data : bytes) (reserve : nat) : SecretBytes :=
  mkSecret data (alloc_cap (length data + reserve)) [].

(** [From<Vec<u8>>]: takes over the vector and its allocation. *)
Definition secret_from_vec (data : bytes) (cap : nat) : SecretBytes := mkSecret data cap [].

(** A new allocation is filled and swapped in; the old one is zeroized. *)
Definition secret_move (new_cap : nat) (s : SecretBytes) : SecretBytes :=
  mkSecret (sec_data s) (alloc_cap new_cap) (zeroed (sec_cap s) :: sec_released s).

Definition ensure_capacity (min_cap : nat) (s : SecretBytes) : SecretBytes :=
  let cap := sec_cap s in
  if (cap =? 0)%nat then vec_reserve min_cap s
  else if (0 <? cap)%nat && (cap <=? min_cap)%nat then
    secret_move (Nat.max (Nat.max min_cap (cap * 2)) 32) s
  else s.

Definition secret_reserve (extra : nat) (s : SecretBytes) : SecretBytes :=
  ensure_capacity (length (sec_data s) + extra) s.

Definition set_data (d : bytes) (s : SecretBytes) : SecretBytes :=
  mkSecret d (sec_cap s) (sec_released s).

Definition extend_from_slice (data : bytes) (s : SecretBytes) : SecretBytes :=
  let s := vec_reserve (length data) (secret_reserve (length data) s) in
  set_data (sec_data s ++ data) s.

(** [zeroize] empties the vector; [truncate(0)] then has nothing to do. *)
Definition secret_clear (s : SecretBytes) : SecretBytes := set_data [] s.

Definition shrink_to_fit (s : SecretBytes) : SecretBytes :=
  let len := length (sec_data s) in
  if (len <? sec_cap s)%nat then secret_move len s else s.

(** The vector and, in the emptied buffer, what was released before. *)
Definition into_vec (s : SecretBytes) : bytes * SecretBytes :=
  (sec_data s, mkSecret [] 0 (sec_released s)).

Definition secret_splice (i j : nat) (d : bytes) (s : SecretBytes) : cres SecretBytes :=
  if (j <? i)%nat then Panic else
  let rem_len := (j - i)%nat in
  let ins_len := length d in
  let s := if (rem_len <? ins_len)%nat then secret_reserve (ins_len - rem_len) s else s in
  data ← vec_splice i j d (sec_data s);
  mret (set_data data (vec_reserve (ins_len - rem_len) s)).

Definition secret_remove (i j : nat) (s : SecretBytes) : cres SecretBytes :=
  data ← vec_drain i j (sec_data s);
  mret (set_data data s).

Definition secret_resize (n : nat) (s : SecretBytes) : SecretBytes :=
  let s := ensure_capacity n s in
  let s := vec_reserve (n - length (sec_data s)) s in
  set_data (resize_zero n (sec_data s)) s.

(** [Drop]. *)
Definition secret_drop (s : SecretBytes) : SecretBytes :=
  mkSecret [] 0 (zeroed (sec_cap s) :: sec_released s).

#[export] Instance secret_buffer : ResizeBuffer SecretBytes := {
  as_ref := sec_data;
  as_mut_set s d := set_data d s;
  buffer_write d s := Ok (extend_from_slice d s);
  buffer_insert pos d s := secret_splice pos pos d s;
  buffer_remove i j s := secret_remove i j s;
  buffer_resize n s := Ok (secret_resize n s);
}.

(** Any mutation of a [SecretBytes]. *)
Inductive SecretOp : Type :=
| OpEnsureCapacity (n : nat)
| OpReserve (n : nat)
| OpExtend (d : bytes)
| OpClear
| OpShrink
| OpInsert (pos : nat) (d : bytes)
| OpSplice (i j : nat) (d : bytes)
| OpRemove (i j : nat)
| OpResize (n : nat)
| OpWriteThrough (d : bytes)
| OpDrop.

Definition secret_step (op : SecretOp) (s : SecretBytes) : cres SecretBytes :=
  match op with
  | OpEnsureCapacity n => Ok (ensure_capacity n s)
  | OpReserve n => Ok (secret_reserve n s)
  | OpExtend d => buffer_write d s
  | OpClear => Ok (secret_clear s)
  | OpShrink => Ok (shrink_to_fit s)
  | OpInsert pos d => buffer_insert pos d s
  | OpSplice i j d => secret_splice i j d s
  | OpRemove i j => buffer_remove i j s
  | OpResize n => buffer_resize n s
  | OpWriteThrough d =>
      if (length d =? length (sec_data s))%nat then Ok (as_mut_set s d) else Panic
  | OpDrop => Ok (secret_drop s)
  end.

Fixpoint secret_run (ops : list SecretOp) (s : SecretBytes) : cres SecretBytes :=
  match ops with
  | [] => Ok s
  | op :: ops' => s ← secret_step op s; secret_run ops' s
  end.

End Secret.

(** ** [Writer] over a fixed slice *)

Record SliceWriter := mkWriter {
  w_inner : bytes;
  w_pos : nat;
}.

Definition from_slice (slice : bytes) : SliceWriter := mkWriter slice 0.
Definition from_slice_position (slice : bytes) (pos : nat) : SliceWriter := mkWriter slice pos.

(** [slice::copy_within(s..e, dest)]. *)
Definition copy_within {E} (s e dest : nat) (v : bytes) : res E bytes :=
  if (s <=? e)%nat && (e <=? length v)%nat && (dest <=? length v - (e - s))%nat
  then Ok (take dest v ++ take (e - s) (drop s v) ++ drop (dest + (e - s)) v)
  else Panic.

(** The bytes from [i] on overwritten with [d]; panics out of range. *)
Definition write_at {E} (i : nat) (d v : bytes) : res E bytes :=
  if (i + length d <=? length v)%nat
  then Ok (take i v ++ d ++ drop (i + length d) v) else Panic.

(** Subtraction on [usize]. *)
Definition usize_sub {E} (a b : nat) : res E nat := if (b <=? a)%nat then Ok (a - b)%nat else Panic.

Definition exceeded : CryptoError.Error := CryptoError.from_kind CryptoError.ExceededBuffer.

Definition writer_splice (i j : nat) (d : bytes) (w : SliceWriter) : cres SliceWriter :=
  if (j <? i)%nat then Panic else
  let rem_len := (j - i)%nat in
  let ins_len := length d in
  w ← (if (rem_len <? ins_len)%nat then
         let diff := (ins_len - rem_len)%nat in
         if (length (w_inner w) <? w_pos w + diff)%nat then Err exceeded else
         s ← usize_sub j diff;
         inner ← copy_within s (w_pos w) j (w_inner w);
         mret (mkWriter inner (w_pos w + diff))
       else if (ins_len <? rem_len)%nat then
         let diff := (rem_len - ins_len)%nat in
         dest ← usize_sub j diff;
         inner ← copy_within j (w_pos w) dest (w_inner w);
         pos ← usize_sub (w_pos w) diff;
         mret (mkWriter inner pos)
       else mret w);
  inner ← write_at i d (w_inner w);
  mret (mkWriter inner (w_pos w)).

Definition writer_write (d : bytes) (w : SliceWriter) : cres SliceWriter :=
  let total := length (w_inner w) in
  let end_ := (w_pos w + length d)%nat in
  if (total <? end_)%nat then Err exceeded else
  inner ← write_at (w_pos w) d (w_inner w);
  mret (mkWriter inner end_).

Definition writer_remove (i j : nat) (w : SliceWriter) : cres SliceWriter :=
  if (j <? i)%nat then Panic else
  let diff := (j - i)%nat in
  inner ← copy_within j (w_pos w) i (w_inner w);
  pos ← usize_sub (w_pos w) diff;
  mret (mkWriter inner pos).

Definition writer_resize (len : nat) (w : SliceWriter) : cres SliceWriter :=
  let len := (w_pos w + len)%nat in
  if (length (w_inner w) <? len)%nat then Err exceeded else
  mret (mkWriter (w_inner w) len).

#[export] Instance slice_writer_buffer : ResizeBuffer SliceWriter := {
  as_ref w := take (w_pos w) (w_inner w);
  as_mut_set w d := mkWriter (d ++ drop (w_pos w) (w_inner w)) (w_pos w);
  buffer_write := writer_write;
  buffer_insert pos d w := writer_splice pos pos d w;
  buffer_remove := writer_remove;
  buffer_resize := writer_resize;
}.

(** ** [Writer] over another buffer, skipping a prefix *)

Record BufWriter (B : Type) := mkBufWriter {
  bw_inner : B;
  bw_pos : nat;
}.
Arguments mkBufWriter {B}.
Arguments bw_inner {B}.
Arguments bw_pos {B}.

Definition from_buffer {B} (b : B) : BufWriter B := mkBufWriter b 0.
Definition from_vec_skip (v : bytes) (pos : nat) : BufWriter bytes := mkBufWriter v pos.

Definition bw_with {B} (w : BufWriter B) (r : cres B) : cres (BufWriter B) :=
  (λ b, mkBufWriter b (bw_pos w)) <$> r.

#[export] Instance buf_writer_buffer `{ResizeBuffer B} : ResizeBuffer (BufWriter B) := {
  as_ref w := drop (bw_pos w) (as_ref (bw_inner w));
  as_mut_set w d :=
    mkBufWriter (as_mut_set (bw_inner w) (take (bw_pos w) (as_ref (bw_inner w)) ++ d)) (bw_pos w);
  buffer_write d w := bw_with w (buffer_write d (bw_inner w));
  buffer_insert pos d w := bw_with w (buffer_insert (bw_pos w + pos) d (bw_inner w));
  buffer_remove i j w := bw_with w (buffer_remove (bw_pos w + i) (bw_pos w + j) (bw_inner w));
  buffer_resize n w := bw_with w (buffer_resize (bw_pos w + n) (bw_inner w));
}.

(** ** [ArrayKey<L>]: [L] bytes *)

(** [ArrayKey::from_slice]. *)
Definition array_from_slice {E} (L : nat) (data : bytes) : res E bytes :=
  if (length data =? L)%nat then Ok data else Panic.

(** [try_new_with]: the initializer overwrites a zeroed array of [L] bytes. *)
Definition array_try_new_with {E} (L : nat) (f : bytes → res E bytes) : res E bytes :=
  f (replicate L x00).

(** [KeyVisitor::visit_bytes]. *)
Definition array_visit_bytes (L : nat) (value : bytes) : option bytes :=
  if negb (length value =? L)%nat then None else Some value.

(** ** [HexRepr] *)

Definition hex_digit (n : N) : byte :=
  default x30 (Byte.of_N (if (n <? 10)%N then 48 + n else 87 + n)%N).

Definition hex_byte (c : byte) : bytes :=
  [hex_digit (Byte.to_N c / 16)%N; hex_digit (Byte.to_N c mod 16)%N].

(** [Display]. *)
Definition hex_fmt (b : bytes) : bytes := List.flat_map hex_byte b.

(** [CmpWrite::write_str]: consumes the iterator [other] byte by byte. *)
Fixpoint cmp_write (s other : bytes) : option bytes :=
  match s with
  | [] => Some other
  | c :: s' =>
      match other with
      | o :: other' => if decide (o = c) then cmp_write s' other' else None
      | [] => None
      end
  end.

(** [PartialEq<[u8]>]. *)
Definition hex_eq (b other : bytes) : bool :=
  match cmp_write (hex_fmt b) other with Some _ => true | None => false end.

(** ** The contract holds of vectors and secret buffers *)

Lemma vec_splice_ok {E} i j d v :
  (i ≤ j)%nat → (j ≤ length v)%nat →
  vec_splice (E := E) i j d v = Ok (take i v ++ d ++ drop j v).
Proof. intros Hi Hj. unfold vec_splice. by rewrite !(proj2 (Nat.leb_le _ _)). Qed.

#[export] Instance vec_lawful : LawfulBuffer bytes.
Proof.
  refine {| buf_ok _ := True |}.
  - done.
  - intros b d _. by eexists.
  - intros b pos d _ Hp. eexists. cbn in *. by rewrite vec_splice_ok.
  - intros b i j _ Hi Hj. eexists. cbn in *. unfold vec_drain. by rewrite vec_splice_ok.
  - intros b n _. by eexists.
Defined.

Section SecretLemmas.
Context `{Allocator}.

(** Everything the buffer released was zeroed. *)
Definition released_zero (s : SecretBytes) : Prop :=
  Forall (Forall (λ c, c = x00)) (sec_released s).

Definition sec_inv (s : SecretBytes) : Prop := sec_ok s ∧ released_zero s.

Lemma zeroed_zero n : Forall (λ c, c = x00) (zeroed n).
Proof. by apply Forall_replicate. Qed.

Lemma vec_reserve_data n s : sec_data (vec_reserve n s) = sec_data s.
Proof. unfold vec_reserve. by case_match. Qed.

Lemma ensure_capacity_data n s : sec_data (ensure_capacity n s) = sec_data s.
Proof.
  unfold ensure_capacity. case_match; [apply vec_reserve_data|]. by case_match.
Qed.

(** A vector with room does not move. *)
Lemma vec_reserve_room n s :
  (length (sec_data s) + n ≤ sec_cap s)%nat → vec_reserve n s = s.
Proof. intros Hn. unfold vec_reserve. by rewrite (proj2 (Nat.leb_le _ _)). Qed.

Lemma ensure_capacity_inv n s :
  sec_inv s → sec_inv (ensure_capacity n s) ∧ (n ≤ sec_cap (ensure_capacity n s))%nat.
Proof.
  intros [Hok Hz]. unfold ensure_capacity, sec_inv, sec_ok in *. cbv zeta.
  destruct (Nat.eqb_spec (sec_cap s) 0) as [E|E].
  - unfold vec_reserve. rewrite E in *. destruct (Nat.leb_spec (length (sec_data s) + n) 0).
    + rewrite E. split; [done|lia].
    + cbn. pose proof (grow_cap_ge 0 (length (sec_data s) + n)). split; [split; [lia|done]|lia].
  - destruct (Nat.leb_spec (sec_cap s) n) as [Hle|Hgt].
    + rewrite (proj2 (Nat.ltb_lt 0 _)) by lia. cbn.
      pose proof (alloc_cap_ge (Nat.max (Nat.max n (sec_cap s * 2)) 32)).
      split; [split; [lia|]|lia]. by constructor; [apply zeroed_zero|].
    + rewrite andb_false_r. split; [done|lia].
Qed.

Lemma secret_move_inv n s :
  (length (sec_data s) ≤ n)%nat → released_zero s → sec_inv (secret_move n s).
Proof.
  intros Hn Hz. unfold sec_inv, sec_ok. cbn. pose proof (alloc_cap_ge n).
  split; [lia|]. by constructor; [apply zeroed_zero|].
Qed.

(** Once [n] more bytes are reserved, filling them moves nothing. *)
Lemma secret_fill_inv n d s :
  sec_inv s → (length d ≤ length (sec_data s) + n)%nat →
  (length (sec_data s) + n ≤ sec_cap s)%nat → sec_inv (set_data d (vec_reserve n s)).
Proof.
  intros [Hok Hz] Hd Hn. rewrite vec_reserve_room by lia. split; [|done].
  unfold sec_ok. cbn. lia.
Qed.

Lemma secret_extend_inv d s :
  sec_inv s → sec_inv (extend_from_slice d s) ∧ sec_data (extend_from_slice d s) = sec_data s ++ d.
Proof.
  intros Hs. unfold extend_from_slice, secret_reserve.
  destruct (ensure_capacity_inv (length (sec_data s) + length d) s Hs) as [Hi Hc].
  split.
  - apply secret_fill_inv; [done|..]; rewrite ?vec_reserve_data, ?length_app, ensure_capacity_data; done.
  - cbn. by rewrite vec_reserve_data, ensure_capacity_data.
Qed.

Lemma secret_resize_inv n s :
  sec_inv s → sec_inv (secret_resize n s) ∧ sec_data (secret_resize n s) = resize_zero n (sec_data s).
Proof.
  intros Hs. unfold secret_resize.
  destruct (ensure_capacity_inv n s Hs) as [[Hok Hz] Hc]. unfold sec_ok in *.
  split.
  - apply secret_fill_inv; [done|..]; unfold resize_zero;
      rewrite ?length_resize; rewrite ?ensure_capacity_data in *; lia.
  - cbn. by rewrite vec_reserve_data, ensure_capacity_data.
Qed.

Lemma secret_splice_inv i j d s s' :
  sec_inv s → secret_splice i j d s = Ok s' →
  sec_inv s' ∧ (i ≤ j)%nat ∧ (j ≤ length (sec_data s))%nat
  ∧ sec_data s' = take i (sec_data s) ++ d ++ drop j (sec_data s).
Proof.
  intros Hs. unfold secret_splice. destruct (Nat.ltb_spec j i) as [|Hij]; [done|].
  set (s1 := if (_ <? _)%nat then _ else s). intros Hsp. bind_inv Hsp. injection Hsp as <-.
  assert (sec_inv s1 ∧ sec_data s1 = sec_data s
    ∧ (length (sec_data s) + (length d - (j - i)) ≤ sec_cap s1)%nat) as (Hi & Hd & Hc).
  { unfold s1. destruct (Nat.ltb_spec (j - i) (length d)); unfold secret_reserve.
    - edestruct ensure_capacity_inv as [Hi Hc]; [exact Hs|].
      rewrite ensure_capacity_data. by split_and!.
    - destruct Hs as [Hok ?]. unfold sec_ok in Hok. by split_and!; [..|lia]. }
  rewrite Hd in E. unfold vec_splice in E.
  destruct (Nat.leb_spec i j), (Nat.leb_spec j (length (sec_data s))); [|done..].
  injection E as <-. split_and!; [|done..].
  apply secret_fill_inv; [done| |by rewrite Hd].
  rewrite !length_app, length_take, length_drop, Hd. lia.
Qed.

Lemma secret_splice_total i j d s :
  (i ≤ j)%nat → (j ≤ length (sec_data s))%nat → ∃ s', secret_splice i j d s = Ok s'.
Proof.
  intros Hi Hj. unfold secret_splice. rewrite (proj2 (Nat.ltb_ge j i)) by done.
  set (s1 := if (_ <? _)%nat then _ else s).
  assert (sec_data s1 = sec_data s) as ->
    by (unfold s1; case_match; [apply ensure_capacity_data|done]).
  rewrite vec_splice_ok by done. by eexists.
Qed.

Lemma secret_remove_inv i j s s' :
  sec_inv s → secret_remove i j s = Ok s' → sec_inv s'.
Proof.
  intros [Hok Hz] Hr. unfold secret_remove in Hr. bind_inv Hr. injection Hr as <-.
  unfold vec_drain, vec_splice in E.
  destruct (Nat.leb_spec i j), (Nat.leb_spec j (length (sec_data s))); [|done..].
  injection E as <-. split; [|done]. unfold sec_ok in *. cbn.
  lens.
Qed.

#[export] Instance secret_lawful : LawfulBuffer SecretBytes.
Proof.
  refine {| buf_ok := sec_inv |}.
  - intros b d [Hok Hz] Hd. unfold sec_inv, sec_ok in *. cbn in *. by rewrite Hd.
  - intros b d Hb. by eexists; split; [|apply secret_extend_inv].
  - intros b pos d Hb Hp. destruct (secret_splice_total pos pos d b) as [b' Hb']; [done..|].
    exists b'. split; [done|]. by destruct (secret_splice_inv _ _ _ _ _ Hb Hb') as (? & _ & _ & ?).
  - intros b i j Hb Hi Hj. cbn. unfold secret_remove, vec_drain.
    pose proof (vec_splice_ok (E := CryptoError.Error) i j [] (sec_data b) Hi Hj) as E.
    eexists. rewrite E. split; [done|]. split; [|done].
    apply (secret_remove_inv i j b); [done|]. unfold secret_remove, vec_drain. by rewrite E.
  - intros b n Hb. by eexists; split; [|apply secret_resize_inv].
Defined.

Lemma secret_step_inv op s s' : sec_inv s → secret_step op s = Ok s' → sec_inv s'.
Proof.
  intros Hs E. destruct op; cbn in E; simplify_eq.
  - by apply ensure_capacity_inv.
  - by apply ensure_capacity_inv.
  - by apply secret_extend_inv.
  - destruct Hs. split; [|done]. unfold sec_ok. cbn. lia.
  - unfold shrink_to_fit. case_match; [|done]. apply secret_move_inv; [done|apply Hs].
  - by eapply secret_splice_inv.
  - by eapply secret_splice_inv.
  - by eapply secret_remove_inv.
  - by apply secret_resize_inv.
  - destruct (Nat.eqb_spec (length d) (length (sec_data s))) as [Hd|]; [|done].
    simplify_eq. destruct Hs. split; [|done]. unfold sec_ok in *. cbn. by rewrite Hd.
  - split; [unfold sec_ok; cbn; lia|]. constructor; [apply zeroed_zero|apply Hs].
Qed.

Lemma secret_run_inv ops : ∀ s s', sec_inv s → secret_run ops s = Ok s' → sec_inv s'.
Proof.
  induction ops as [|op ops IH]; intros s s' Hs E; cbn in E; [by simplify_eq|].
  bind_inv E. eauto using secret_step_inv.
Qed.

End SecretLemmas.

#[export] Instance buf_writer_lawful `{LawfulBuffer B} : LawfulBuffer (BufWriter B).
Proof.
  refine {| buf_ok w := buf_ok (bw_inner w) ∧ (bw_pos w ≤ length (as_ref (bw_inner w)))%nat |}.
  - intros [b p] d [Hb Hp] Hd. cbn in *. rewrite length_drop in Hd.
    destruct (as_mut_spec b (take p (as_ref b) ++ d)) as [Hok E]; [done| |].
    { lens. }
    rewrite E, length_app, length_take, drop_app_length' by lens.
    split_and!; [done|lia|done].
  - intros [b p] d [Hb Hp]. cbn in *. destruct (write_spec b d Hb) as (b' & -> & Hok & E).
    eexists. split; [done|]. cbn. rewrite E, length_app, drop_app_le by done.
    split_and!; [done|lia|done].
  - intros [b p] pos d [Hb Hp] Hpos. cbn in *. rewrite length_drop in Hpos.
    destruct (insert_spec b (p + pos) d Hb) as (b' & -> & Hok & E); [lia|].
    eexists. split; [done|]. cbn.
    rewrite E, !length_app, drop_app_le, skipn_firstn_comm, drop_drop;
      rewrite ?length_take; [|lia].
    split_and!; [done|lia|]. do 2 f_equal. lia.
  - intros [b p] i j [Hb Hp] Hi Hj. cbn in *. rewrite length_drop in Hj.
    destruct (remove_spec b (p + i) (p + j) Hb) as (b' & -> & Hok & E); [lia..|].
    eexists. split; [done|]. cbn.
    rewrite E, !length_app, drop_app_le, skipn_firstn_comm, drop_drop;
      rewrite ?length_take; [|lia].
    split_and!; [done|lia|]. do 2 f_equal. lia.
  - intros [b p] n [Hb Hp]. cbn in *.
    destruct (resize_spec b (p + n) Hb) as (b' & -> & Hok & E).
    eexists. split; [done|]. cbn. rewrite E. unfold resize_zero. rewrite length_resize.
    split_and!; [done|lia|]. rewrite resize_add, drop_app_length' by (by rewrite length_resize). done.
Defined.

(** ** The fixed-size writer *)

Definition w_ok (w : SliceWriter) : Prop := (w_pos w ≤ length (w_inner w))%nat.

Lemma copy_within_ok {E} s e dest v :
  (s ≤ e)%nat → (e ≤ length v)%nat → (dest + (e - s) ≤ length v)%nat →
  copy_within (E := E) s e dest v
  = Ok (take dest v ++ take (e - s) (drop s v) ++ drop (dest + (e - s)) v).
Proof.
  intros ???. unfold copy_within. by rewrite !(proj2 (Nat.leb_le _ _)) by lia.
Qed.

Lemma write_at_ok {E} i d v :
  (i + length d ≤ length v)%nat →
  write_at (E := E) i d v = Ok (take i v ++ d ++ drop (i + length d) v).
Proof. intros ?. unfold write_at. by rewrite (proj2 (Nat.leb_le _ _)). Qed.

Lemma usize_sub_ok {E} a b : (b ≤ a)%nat → usize_sub (E := E) a b = Ok (a - b)%nat.
Proof. intros. unfold usize_sub. by rewrite (proj2 (Nat.leb_le _ _)). Qed.

(** Replacing [i..j] once the tail [j..pos] has been moved to follow [d]. *)
Lemma splice_moved (v u d : bytes) i j pos :
  (i ≤ j)%nat → (j ≤ pos)%nat → (pos ≤ length v)%nat →
  (i + length d + (pos - j) ≤ length u)%nat →
  take i u = take i v → take (pos - j) (drop (i + length d) u) = take (pos - j) (drop j v) →
  take (i + length d + (pos - j)) (take i u ++ d ++ drop (i + length d) u)
  = take i (take pos v) ++ d ++ drop j (take pos v).
Proof.
  intros Hi Hj Hp Hu Ht Hd.
  assert (Hl : length (take i u) = i) by lens.
  rewrite take_app, Hl, (take_ge (take i u)) by lia.
  replace (i + length d + (pos - j) - i)%nat with (length d + (pos - j))%nat by lia.
  rewrite take_app, (take_ge d) by lia.
  replace (length d + (pos - j) - length d)%nat with (pos - j)%nat by lia.
  rewrite Hd, Ht, take_take, Nat.min_l by lia. do 2 f_equal.
  by rewrite skipn_firstn_comm.
Qed.

Lemma writer_splice_grow i j d w :
  w_ok w → (i ≤ j)%nat → (j ≤ w_pos w)%nat → (j - i < length d)%nat →
  let diff := (length d - (j - i))%nat in
  (w_pos w + diff ≤ length (w_inner w))%nat → (diff ≤ j)%nat →
  ∃ w', writer_splice i j d w = Ok w' ∧ w_pos w' = (w_pos w + diff)%nat
    ∧ length (w_inner w') = length (w_inner w)
    ∧ as_ref w' = take i (as_ref w) ++ d ++ drop j (as_ref w).
Proof.
  destruct w as [v pos]. unfold w_ok. cbn. intros Hw Hi Hj Hlt Hroom Hdiff.
  unfold writer_splice. cbn [w_inner w_pos]. rewrite (proj2 (Nat.ltb_ge j i)), (proj2 (Nat.ltb_lt _ _)) by lia.
  rewrite (proj2 (Nat.ltb_ge (length v) _)), usize_sub_ok by lia.
  cbn. rewrite copy_within_ok by lia. cbn.
  set (u := take j v ++ _ ++ _).
  assert (Hu : length u = length v).
  { unfold u. lens. }
  rewrite write_at_ok by lia. eexists. split; [done|]. cbn.
  split_and!; [done| |].
  { lens. }
  replace (pos + (length d - (j - i)))%nat with (i + length d + (pos - j))%nat by lia.
  apply splice_moved; try lia; unfold u.
  - rewrite take_app_le by lens. rewrite take_take. f_equal. lia.
  - rewrite drop_app, length_take, (drop_ge (take j v)), app_nil_l by lens.
    rewrite drop_app_le, take_app_le by lens.
    rewrite skipn_firstn_comm, drop_drop, take_take. f_equal; [lia|]. f_equal. lia.
Qed.

Lemma writer_splice_shrink i j d w :
  w_ok w → (i ≤ j)%nat → (j ≤ w_pos w)%nat → (length d ≤ j - i)%nat →
  ∃ w', writer_splice i j d w = Ok w' ∧ w_pos w' = (w_pos w - (j - i - length d))%nat
    ∧ length (w_inner w') = length (w_inner w)
    ∧ as_ref w' = take i (as_ref w) ++ d ++ drop j (as_ref w).
Proof.
  destruct w as [v pos]. unfold w_ok. cbn. intros Hw Hi Hj Hle.
  unfold writer_splice. cbn [w_inner w_pos]. rewrite (proj2 (Nat.ltb_ge j i)), (proj2 (Nat.ltb_ge _ _)) by lia.
  destruct (Nat.ltb_spec (length d) (j - i)).
  - unfold mbind, res_bind, mret, res_ret. rewrite usize_sub_ok by lia. cbv beta iota. rewrite copy_within_ok by lia. cbv beta iota.
    rewrite usize_sub_ok by lia. cbv beta iota. cbn [w_inner w_pos]. set (u := take _ v ++ _ ++ _).
    assert (Hu : length u = length v).
    { unfold u. lens. }
    rewrite write_at_ok by lia. eexists. split; [done|]. cbn. split_and!; [done| |].
    { lens. }
    replace (pos - (j - i - length d))%nat with (i + length d + (pos - j))%nat by lia.
    apply splice_moved; try lia; unfold u.
    + rewrite take_app_le by lens. rewrite take_take. f_equal. lia.
    + rewrite drop_app_length' by lens.
      rewrite take_app_le by lens.
      rewrite take_take. f_equal. lia.
  - unfold mbind, res_bind, mret, res_ret; cbv beta iota; cbn [w_inner w_pos]. rewrite write_at_ok by lia. eexists. split; [done|]. cbn. split_and!; [lia| |].
    { lens. }
    replace pos with (i + length d + (pos - j))%nat at 1 by lia.
    apply splice_moved; try lia; [done|]. do 2 f_equal. lia.
Qed.

(** A replacement that does not fit is refused and leaves the buffer alone; one
    that fits but would shift by more than the end of the range panics. *)
Lemma writer_splice_refused i j d w :
  (i ≤ j)%nat → (j - i < length d)%nat →
  let diff := (length d - (j - i))%nat in
  ((length (w_inner w) < w_pos w + diff)%nat → writer_splice i j d w = Err exceeded)
  ∧ ((w_pos w + diff ≤ length (w_inner w))%nat → (j < diff)%nat → writer_splice i j d w = Panic).
Proof.
  intros Hi Hlt diff. unfold writer_splice.
  rewrite (proj2 (Nat.ltb_ge j i)), (proj2 (Nat.ltb_lt (j - i) (length d))) by lia.
  split.
  - intros H. by rewrite (proj2 (Nat.ltb_lt _ _)).
  - intros H Hj. rewrite (proj2 (Nat.ltb_ge _ _)) by done. unfold usize_sub.
    by rewrite (proj2 (Nat.leb_gt _ _)).
Qed.

(** ** Properties *)

(** C35: Whatever is done to a secret buffer, every allocation it gives back has been
    zeroed first, and the data never exceeds the allocation it lives in. *)
Theorem secret_never_leaks `{Allocator} data cap ops s :
  (length data ≤ cap)%nat → secret_run ops (secret_from_vec data cap) = Ok s →
  Forall (Forall (λ c, c = x00)) (sec_released s) ∧ (length (sec_data s) ≤ sec_cap s)%nat.
Proof.
  intros Hcap E. assert (Hinv : sec_inv s).
  { apply secret_run_inv in E; [done|]. by split; [|constructor]. }
  by destruct Hinv.
Qed.

(** Exact allocation, with growth to the next multiple of 8. *)
Definition demo_allocator : Allocator.
Proof.
  refine {| alloc_cap n := n; grow_cap _ n := (n + 7)%nat |}; intros; lia.
Defined.

Lemma secret_never_leaks_witness :
  let ops := [OpInsert 0 [x01; x02; x03]; OpExtend [x04]; OpResize 40; OpShrink; OpDrop] in
  ∃ s, @secret_run demo_allocator ops (secret_from_vec [x61] 1) = Ok s
    ∧ length (sec_released s) = 4%nat
    ∧ Forall (Forall (λ c, c = x00)) (sec_released s) ∧ (length (sec_data s) ≤ sec_cap s)%nat.
Proof.
  intros ops. eexists. split; [vm_compute; reflexivity|]. split; [reflexivity|].
  apply (@secret_never_leaks demo_allocator [x61] 1 ops); [cbn; lia|vm_compute; reflexivity].
Defined.

(** [Writer::<[u8]>::splice] of a range within the written part, on every
    branch: when the result fits and the shift does not exceed the end of the
    range, the range is replaced and nothing else changes; when it does not fit
    it is refused. *)
Theorem writer_splice_correct i j d w :
  (w_pos w ≤ length (w_inner w))%nat → (i ≤ j)%nat → (j ≤ w_pos w)%nat →
  let grow := (length d - (j - i))%nat in
  let shrink := ((j - i) - length d)%nat in
  ((w_pos w + grow ≤ length (w_inner w))%nat → (grow ≤ j)%nat →
   ∃ w', writer_splice i j d w = Ok w' ∧ w_pos w' = (w_pos w + grow - shrink)%nat
     ∧ length (w_inner w') = length (w_inner w)
     ∧ as_ref w' = take i (as_ref w) ++ d ++ drop j (as_ref w))
  ∧ ((length (w_inner w) < w_pos w + grow)%nat → writer_splice i j d w = Err exceeded).
Proof.
  intros Hw Hi Hj grow shrink. subst grow shrink.
  destruct (decide (j - i < length d)%nat) as [Hlt|Hge].
  - split; [|by apply writer_splice_refused].
    intros Hroom Hdiff.
    destruct (writer_splice_grow i j d w) as (w' & E & Hpos & Hl & Hr); [done..|].
    exists w'. split_and!; [done|lia|done|done].
  - split; [|lia]. intros _ _.
    destruct (writer_splice_shrink i j d w) as (w' & E & Hpos & Hl & Hr); [done..|lia|].
    exists w'. split_and!; [done|lia|done|done].
Qed.

Lemma writer_splice_correct_witness :
  ∃ w', writer_splice 1 3 [x07; x08; x09] (mkWriter [x01; x02; x03; x04; x00] 4) = Ok w'
    ∧ w_pos w' = 5%nat ∧ length (w_inner w') = 5%nat ∧ as_ref w' = [x01; x07; x08; x09; x04].
Proof.
  apply (writer_splice_correct 1 3 [x07; x08; x09] (mkWriter [x01; x02; x03; x04; x00] 4));
    cbn; lia.
Defined.

(** Inserting into the fixed-size writer at a position smaller than the length
    of the data, for example at the start, panics although there is room. *)
Theorem writer_insert_panics pos d w :
  (pos < length d)%nat → (w_pos w + length d ≤ length (w_inner w))%nat →
  buffer_insert pos d w = Panic.
Proof.
  intros Hp Hroom. cbn. destruct (writer_splice_refused pos pos d w) as [_ H]; [lia..|].
  apply H; lia.
Qed.

Lemma writer_insert_panics_witness :
  buffer_insert 0 [x61] (mkWriter [x00; x00] 0) = Panic.
Proof. apply (writer_insert_panics 0 [x61] (mkWriter [x00; x00] 0)); cbn; lia. Defined.

(** [buffer_resize] of the fixed-size writer grows by the given length instead of
    resizing to it, and does not zero what it takes in: only from an empty
    zeroed writer does it do what the trait documents. *)
Theorem writer_resize_adds len w :
  (w_pos w + len ≤ length (w_inner w))%nat →
  ∃ w', buffer_resize len w = Ok w'
    ∧ as_ref w' = as_ref w ++ take len (drop (w_pos w) (w_inner w))
    ∧ length (as_ref w') = (length (as_ref w) + len)%nat.
Proof.
  intros Hroom. cbn. unfold writer_resize. rewrite (proj2 (Nat.ltb_ge _ _)) by done.
  eexists. split; [done|]. cbn. rewrite !length_take. split; [|lia].
  by rewrite take_take_drop.
Qed.

Lemma writer_resize_adds_witness :
  ∃ w', buffer_resize 2 (mkWriter [x61; x62; x63; x64] 1) = Ok w'
    ∧ as_ref w' = [x61; x62; x63] ∧ length (as_ref w') = 3%nat.
Proof. apply (writer_resize_adds 2 (mkWriter [x61; x62; x63; x64] 1)); cbn; lia. Defined.

(** Hex comparison accepts every text that starts with the hex form. *)
Lemma cmp_write_prefix s other : cmp_write s other ≠ None ↔ s `prefix_of` other.
Proof.
  revert other. induction s as [|c s IH]; intros other; cbn.
  - split; [|done]. intros _. apply prefix_nil.
  - destruct other as [|o other]; [by split; [|intros []%prefix_nil_not]|].
    destruct (decide (o = c)) as [->|Hne].
    + rewrite IH. split; [apply prefix_cons|by intros ?%prefix_cons_inv_2].
    + split; [done|]. by intros ->%prefix_cons_inv_1.
Qed.

Theorem hex_eq_is_prefix b other :
  hex_eq b other = true ↔ ∃ rest, other = hex_fmt b ++ rest.
Proof.
  unfold hex_eq. pose proof (cmp_write_prefix (hex_fmt b) other) as [H1 H2].
  destruct (cmp_write (hex_fmt b) other); split; intros H; try done.
  - by apply H1.
  - by destruct (H2 H).
Qed.
