(* ===== verification/Words.v ===== *)
(** * Integers as byte strings

    The values of byte strings in either byte order, integers written in a number
    of bytes, and the limbs in which the curve implementations keep scalars. *)

From S2P Require Import Prelude.

(** The value of a little-endian byte string, and of a big-endian one. *)
Fixpoint le_value (b : bytes) : N :=
  match b with [] => 0 | x :: b => byte_val x + 256 * le_value b end.
Definition be_value (b : bytes) : N := le_value (rev b).

(** [v] in [n] bytes, reduced to what fits; [to_le_bytes] and [to_be_bytes]. *)
Fixpoint le_bytes (n : nat) (v : N) : bytes :=
  match n with O => [] | S n => byte_of v :: le_bytes n (v / 256) end.
Definition be_bytes (n : nat) (v : N) : bytes := rev (le_bytes n v).

(** Limbs of 64 bits, the least significant first. *)
Fixpoint limbs_value (l : list N) : N :=
  match l with [] => 0 | x :: l => x + 2 ^ 64 * limbs_value l end.
Definition is_limb (x : N) : Prop := (x < 2 ^ 64)%N.

Lemma byte_val_of n : byte_val (byte_of n) = (n mod 256)%N.
Proof.
  unfold byte_of, byte_val. destruct (Byte.of_N (n mod 256)) as [b|] eqn:E; cbn.
  - by apply Byte.to_of_N in E.
  - apply Byte.of_N_None_iff in E. pose proof (N.mod_upper_bound n 256). lia.
Qed.

Lemma byte_val_lt b : (byte_val b < 256)%N.
Proof. pose proof (Byte.to_N_bounded b). unfold byte_val. lia. Qed.

Lemma le_bytes_length n v : length (le_bytes n v) = n.
Proof. revert v. induction n; intros v; cbn; auto. Qed.
Lemma be_bytes_length n v : length (be_bytes n v) = n.
Proof. unfold be_bytes. by rewrite length_rev, le_bytes_length. Qed.
#[export] Hint Rewrite le_bytes_length be_bytes_length : lengths.

Lemma le_value_bound b : (le_value b < 256 ^ N.of_nat (length b))%N.
Proof.
  induction b as [|x b IH]; [by cbn|]. cbn [le_value length].
  rewrite Nat2N.inj_succ, N.pow_succ_r'. pose proof (byte_val_lt x). nia.
Qed.
Lemma be_value_bound b : (be_value b < 256 ^ N.of_nat (length b))%N.
Proof. unfold be_value. rewrite <- length_rev. apply le_value_bound. Qed.

Lemma le_value_bytes n v : (v < 256 ^ N.of_nat n)%N → le_value (le_bytes n v) = v.
Proof.
  revert v. induction n as [|n IH]; intros v Hv; [cbn in *; lia|].
  rewrite Nat2N.inj_succ, N.pow_succ_r' in Hv. cbn [le_bytes le_value].
  rewrite byte_val_of, IH by (apply N.Div0.div_lt_upper_bound; lia).
  rewrite N.add_comm. symmetry. apply N.div_mod'.
Qed.

Lemma le_bytes_value b : le_bytes (length b) (le_value b) = b.
Proof.
  induction b as [|x b IH]; [done|]. cbn [le_value length le_bytes].
  pose proof (byte_val_lt x) as Hx. f_equal.
  - apply byte_val_inj. rewrite byte_val_of, N.mul_comm, N.Div0.mod_add. by apply N.mod_small.
  - rewrite N.mul_comm, N.div_add by done. by rewrite N.div_small, N.add_0_l.
Qed.

Lemma be_bytes_value b : be_bytes (length b) (be_value b) = b.
Proof.
  unfold be_bytes, be_value. rewrite <- (length_rev b), le_bytes_value. apply rev_involutive.
Qed.
Lemma be_value_bytes n v : (v < 256 ^ N.of_nat n)%N → be_value (be_bytes n v) = v.
Proof. unfold be_bytes, be_value. rewrite rev_involutive. apply le_value_bytes. Qed.

Lemma le_value_app a b : le_value (a ++ b) = (le_value a + 256 ^ N.of_nat (length a) * le_value b)%N.
Proof.
  induction a as [|x a IH]; cbn [app le_value length]; [by rewrite N.mul_1_l|].
  rewrite IH, Nat2N.inj_succ, N.pow_succ_r'. lia.
Qed.

Lemma le_value_zeroes n : le_value (replicate n x00) = 0%N.
Proof. induction n as [|n IH]; [done|]. cbn. by rewrite IH. Qed.

Lemma be_value_inj a b : length a = length b → be_value a = be_value b → a = b.
Proof. intros El Ev. by rewrite <- (be_bytes_value a), <- (be_bytes_value b), El, Ev. Qed.

(** The limbs of a number, each in little-endian order, are its bytes. *)
Lemma limbs_le_value l : Forall is_limb l →
  le_value (concat (List.map (le_bytes 8) l)) = limbs_value l.
Proof.
  induction 1 as [|x l Hx _ IH]; [done|]. cbn [List.map concat limbs_value].
  rewrite le_value_app, le_bytes_length, IH, le_value_bytes; [done|exact Hx].
Qed.

Lemma limbs_bytes_length l : length (concat (List.map (le_bytes 8) l)) = (8 * length l)%nat.
Proof. induction l as [|x l IH]; [done|]. cbn [List.map concat]. rewrite length_app, IH. lens. Qed.

(** Written from the most significant limb on, each in big-endian order, they are
    the big-endian form of the number. *)
Lemma limbs_be_bytes l : Forall is_limb l →
  concat (List.map (be_bytes 8) (rev l)) = be_bytes (8 * length l) (limbs_value l).
Proof.
  intros Hl. unfold be_bytes at 2. rewrite <- (limbs_le_value l Hl), <- limbs_bytes_length, le_bytes_value.
  clear Hl. induction l as [|x l IH]; [done|]. cbn [rev List.map concat].
  rewrite map_app, concat_app, IH, rev_app_distr. cbn [List.map concat]. by rewrite app_nil_r.
Qed.
