(* ===== verification/Random.v ===== *)
(** * Key material

    Models askar-crypto/src/random.rs: sources of key material as a class, and the
    deterministic generator, whose stream cipher is a third-party crate. *)

From S2P Require Import Prelude Errors Buffers.
Local Open Scope string_scope.
Local Open Scope list_scope.

(** [KeyMaterial]: a read fills the buffer it is given and moves the source on. *)
Class KeyMaterial (R : Type) := {
  read_okm : nat → R → cres (R * bytes);
  read_okm_length n r r' b : read_okm n r = Ok (r', b) → length b = n;
}.

(** ** The deterministic generator *)

(** ChaCha20: the bytes of the key stream from a position on. *)
Class StreamCipher := {
  key_stream : bytes → bytes → nat → nat → bytes;
  key_stream_length key nonce pos n : length (key_stream key nonce pos n) = n;
  (** What is read in two parts is what is read at once. *)
  key_stream_app key nonce pos n m :
    key_stream key nonce pos (n + m) = key_stream key nonce pos n ++ key_stream key nonce (pos + n) m;
}.

Definition DETERMINISTIC_SEED_LENGTH : nat := 32.

(** The key and nonce of the cipher, and how much of the stream was used. *)
Record RandomDet := mkRandomDet {
  det_key : bytes;
  det_nonce : bytes;
  det_pos : nat;
}.

Definition from_seed (seed : bytes) : RandomDet := mkRandomDet seed (as_bytes "LibsodiumDRG") 0.

(** The seed is copied over zeroes, and cut off. *)
Definition random_det_new (seed : bytes) : RandomDet :=
  let seed_len := Nat.min (length seed) DETERMINISTIC_SEED_LENGTH in
  from_seed (take seed_len seed ++ replicate (DETERMINISTIC_SEED_LENGTH - seed_len) x00).

Section Det.
Context `{StreamCipher}.

(** Zeroes with the key stream applied. *)
Definition det_fill_bytes (n : nat) (r : RandomDet) : RandomDet * bytes :=
  (mkRandomDet (det_key r) (det_nonce r) (det_pos r + n), key_stream (det_key r) (det_nonce r) (det_pos r) n).

#[export] Instance random_det_material : KeyMaterial RandomDet.
Proof.
  refine {| read_okm n r := Ok (det_fill_bytes n r) |}.
  intros n r r' b [= <- <-]. apply key_stream_length.
Defined.

Definition fill_random_deterministic (seed : bytes) (output_len : nat) : cres bytes :=
  Ok (snd (det_fill_bytes output_len (random_det_new seed))).

(** The seed as the cipher sees it. *)
Lemma random_det_key seed : det_key (random_det_new seed) = resize 32 x00 seed.
Proof.
  unfold random_det_new, DETERMINISTIC_SEED_LENGTH. cbn [det_key from_seed].
  destruct (decide (length seed ≤ 32)%nat) as [Hl|Hl].
  - by rewrite Nat.min_l, firstn_all, resize_ge by lia.
  - rewrite Nat.min_r, Nat.sub_diag, app_nil_r, resize_le by lia. done.
Qed.

(** Reading in parts continues the stream: what two reads give is what one
    read of both lengths gives from the same seed. *)
Lemma det_reads_continue seed n m :
  let '(r, a) := det_fill_bytes n (random_det_new seed) in
  let '(_, b) := det_fill_bytes m r in
  fill_random_deterministic seed (n + m) = Ok (a ++ b).
Proof. unfold fill_random_deterministic. cbn. by rewrite key_stream_app. Qed.

(** Only the first 32 bytes of a seed count, and a shorter one stands for itself
    followed by zeroes. *)
Lemma det_seed_normal seed n :
  fill_random_deterministic seed n = fill_random_deterministic (resize 32 x00 seed) n.
Proof.
  unfold fill_random_deterministic, det_fill_bytes. cbn [snd].
  rewrite !random_det_key, resize_idemp. done.
Qed.
End Det.

Definition toy_stream : StreamCipher.
Proof.
  refine {| key_stream key nonce pos n := List.map (λ i, nth (i mod 32) key x00) (List.seq pos n) |}.
  - intros. by rewrite length_map, length_seq.
  - intros. by rewrite seq_app, map_app.
Defined.

(** A source for examples that gives the elements of a list in turn, then zeroes. *)
Record ListSource := mkSource { source_rest : list bytes }.
#[export] Instance list_source : KeyMaterial ListSource.
Proof.
  refine {| read_okm n r := match source_rest r with
                            | [] => Ok (r, replicate n x00)
                            | b :: l => Ok (mkSource l, resize n x00 b)
                            end |}.
  intros n [[|b l]] r' b'; cbn; intros [= <- <-]; lens.
Defined.
