(* ===== verification/Entry.v ===== *)
(** * Entries, tags, tag filters and scans

    Models askar-storage/src/entry.rs.  The stream behind a [Scan] is the list
    of the pages it will still produce. *)

From stdpp Require Import sorting pretty.
From S2P Require Import Prelude Errors Wql.
Local Open Scope string_scope.
Local Open Scope list_scope.

(** ** Tags *)

Module EntryTag.
Inductive t : Set :=
| Encrypted (name value : string)
| Plaintext (name value : string).

Definition name (tag : t) : string := match tag with Encrypted n _ | Plaintext n _ => n end.
Definition value (tag : t) : string := match tag with Encrypted _ v | Plaintext _ v => v end.
Definition into_value (tag : t) : string := value tag.

Definition map_ref (f : string → string → string * string) (tag : t) : t :=
  match tag with
  | Encrypted n v => let '(n, v) := f n v in Encrypted n v
  | Plaintext n v => let '(n, v) := f n v in Plaintext n v
  end.

Definition update_name (f : string → string) (tag : t) : t :=
  match tag with
  | Encrypted n v => Encrypted (f n) v
  | Plaintext n v => Plaintext (f n) v
  end.

(** The derived [Ord]: the variant, then the name, then the value. *)
Definition variant (tag : t) : nat := match tag with Encrypted _ _ => 0 | Plaintext _ _ => 1 end.

Definition then_cmp (c d : comparison) : comparison := match c with Datatypes.Eq => d | _ => c end.

Definition cmp (a b : t) : comparison :=
  then_cmp (Nat.compare (variant a) (variant b))
    (then_cmp (bytes_compare (as_bytes (name a)) (as_bytes (name b)))
      (bytes_compare (as_bytes (value a)) (as_bytes (value b)))).

Definition le (a b : t) : Prop := cmp a b ≠ Datatypes.Gt.
End EntryTag.
Abbreviation EntryTag := EntryTag.t.

#[export] Instance EntryTag_eq_dec : EqDecision EntryTag.
Proof. solve_decision. Defined.

#[export] Instance EntryTag_le_dec : RelDecision EntryTag.le.
Proof. intros a b. unfold EntryTag.le. apply _. Defined.

Record EncEntryTag := mkEncTag {
  enc_tag_name : bytes;
  enc_tag_value : bytes;
  enc_tag_plaintext : bool;
}.

#[export] Instance EncEntryTag_eq_dec : EqDecision EncEntryTag.
Proof. solve_decision. Defined.

(** ** Entries *)

Module EntryKind.
Inductive t : Set :=
| Kms
| Item.
End EntryKind.
Abbreviation EntryKind := EntryKind.t.

#[export] Instance EntryKind_eq_dec : EqDecision EntryKind.
Proof. solve_decision. Defined.

(** [kind as i16]. *)
Definition kind_value (k : EntryKind) : Z :=
  match k with EntryKind.Kms => 1 | EntryKind.Item => 2 end%Z.

(** [TryFrom<usize>]. *)
Definition kind_try_from (value : Z) : sres EntryKind :=
  if decide (value = 1%Z) then Ok EntryKind.Kms
  else if decide (value = 2%Z) then Ok EntryKind.Item
  else Err (StorageError.from_msg StorageError.Input ("Unknown entry kind: " +:+ pretty value)).

Module EntryOperation.
Inductive t : Set :=
| Insert
| Replace
| Remove.
End EntryOperation.
Abbreviation EntryOperation := EntryOperation.t.

Record Entry := mkEntry {
  kind : EntryKind;
  category : string;
  name : string;
  value : bytes;
  tags : list EntryTag;
}.

Definition entry_new : EntryKind → string → string → bytes → list EntryTag → Entry := mkEntry.

Definition sorted_tags (tags : list EntryTag) : list EntryTag :=
  match tags with
  | [] => []
  | _ => merge_sort EntryTag.le tags
  end.

(** [PartialEq for Entry]. *)
Definition entry_eq (a b : Entry) : bool :=
  bool_decide (category a = category b)
  && bool_decide (name a = name b)
  && bool_decide (value a = value b)
  && bool_decide (sorted_tags (tags a) = sorted_tags (tags b)).

(** ** Tag filters *)

Record TagFilter := mkFilter { filter_query : Query }.

Definition all_of (each : list TagFilter) : TagFilter := mkFilter (And (List.map filter_query each)).
Definition any_of (each : list TagFilter) : TagFilter := mkFilter (Or (List.map filter_query each)).
Definition filter_negate (filter : TagFilter) : TagFilter := mkFilter (Not (filter_query filter)).
Definition is_eq (name value : string) : TagFilter := mkFilter (Eq name value).
Definition is_not_eq (name value : string) : TagFilter := mkFilter (Neq name value).
Definition is_gt (name value : string) : TagFilter := mkFilter (Gt name value).
Definition is_gte (name value : string) : TagFilter := mkFilter (Gte name value).
Definition is_lt (name value : string) : TagFilter := mkFilter (Lt name value).
Definition is_lte (name value : string) : TagFilter := mkFilter (Lte name value).
Definition is_like (name value : string) : TagFilter := mkFilter (Like name value).
Definition is_in (name : string) (values : list string) : TagFilter := mkFilter (In name values).
Definition exist (names : list string) : TagFilter := mkFilter (Exist names).

Section Json.
(** The text parser and printer of [serde_json]. *)
Context (json_parse : string → res string JsonValue) (json_print : JsonValue → res string string).

Definition filter_to_string (filter : TagFilter) : sres string :=
  map_err (StorageError.err_map StorageError.Input "Error encoding tag filter")
    (json_print (to_value id (filter_query filter))).

Definition filter_from_str (query : string) : sres TagFilter :=
  query ← map_err (StorageError.err_map StorageError.Input "Error parsing tag query")
    (v ← json_parse query; map_err id (deserialize_query v));
  mret (mkFilter query).
End Json.

(** ** Scans *)

Record Scan (T : Type) := mkScan {
  scan_stream : option (list (sres (list T)));
  scan_page_size : nat;
}.
Arguments mkScan {T}.
Arguments scan_stream {T}.
Arguments scan_page_size {T}.

Definition scan_new {T} (stream : list (sres (list T))) (page_size : nat) : Scan T :=
  mkScan (Some stream) page_size.

Definition fetch_next {T} : stm (Scan T) StorageError.Error (option (list T)) :=
  self ← sget;
  match scan_stream self with
  | None => mret None
  | Some s =>
      (* [take] *)
      _ ← sput (mkScan None (scan_page_size self));
      match s with
      | [] => mret None
      | Err e :: _ => sfail e
      | Panic :: _ => lift Panic
      | Ok val :: s' =>
          _ ← (if (length val =? scan_page_size self)%nat
               then sput (mkScan (Some s') (scan_page_size self)) else mret ());
          mret (Some val)
      end
  end.

(** The caller's loop [while let Some(rows) = scan.fetch_next()?]. *)
Fixpoint drain {T} (fuel : nat) : stm (Scan T) StorageError.Error (list T) :=
  match fuel with
  | O => mret []
  | S fuel =>
      o ← fetch_next;
      match o with
      | None => mret []
      | Some rows => rest ← drain fuel; mret (rows ++ rest)
      end
  end.

(** ** The order of tags *)

Lemma bytes_compare_trans a b c :
  bytes_compare a b ≠ Datatypes.Gt → bytes_compare b c ≠ Datatypes.Gt →
  bytes_compare a c ≠ Datatypes.Gt
  ∧ (bytes_compare a c = Datatypes.Eq → bytes_compare a b = Datatypes.Eq ∧ bytes_compare b c = Datatypes.Eq).
Proof.
  revert b c. induction a as [|x a IH]; intros [|y b] [|z c]; cbn; try done.
  destruct (N.compare_spec (byte_val x) (byte_val y)) as [Hxy|Hxy|Hxy],
    (N.compare_spec (byte_val y) (byte_val z)) as [Hyz|Hyz|Hyz],
    (N.compare_spec (byte_val x) (byte_val z)) as [Hxz|Hxz|Hxz]; try done; try lia.
  apply IH.
Qed.

(** Comparisons that are the comparison of a total order. *)
Record order_cmp {A} (cmp : A → A → comparison) : Prop := {
  cmp_antisym a b : cmp b a = CompOpp (cmp a b);
  cmp_trans a b c : cmp a b ≠ Datatypes.Gt → cmp b c ≠ Datatypes.Gt →
    cmp a c ≠ Datatypes.Gt
    ∧ (cmp a c = Datatypes.Eq → cmp a b = Datatypes.Eq ∧ cmp b c = Datatypes.Eq);
}.

Lemma order_bytes : order_cmp bytes_compare.
Proof. split; [apply bytes_compare_antisym|apply bytes_compare_trans]. Qed.

Lemma order_nat : order_cmp Nat.compare.
Proof.
  split; [intros; apply Nat.compare_antisym|]. intros a b c.
  destruct (Nat.compare_spec a b), (Nat.compare_spec b c), (Nat.compare_spec a c);
    repeat split; intros; try done; lia.
Qed.

Lemma order_by {A B} (f : A → B) cmp : order_cmp cmp → order_cmp (λ a b, cmp (f a) (f b)).
Proof. intros [H1 H2]. split; intros; [apply H1|by eapply H2]. Qed.

Lemma order_then {A} (c d : A → A → comparison) :
  order_cmp c → order_cmp d → order_cmp (λ x y, EntryTag.then_cmp (c x y) (d x y)).
Proof.
  intros [C1 C2] [D1 D2]. split.
  - intros x y. rewrite C1, D1. by destruct (c x y), (d x y).
  - intros x y z. pose proof (C2 x y z) as H. pose proof (C2 z y x) as H'.
    rewrite (C1 y z), (C1 x y), (C1 x z) in H'. specialize (D2 x y z).
    destruct (c x y), (c y z), (c x z); cbn in *; intuition congruence.
Qed.

Lemma order_tags : order_cmp EntryTag.cmp.
Proof.
  apply order_then; [exact (order_by EntryTag.variant _ order_nat)|]. apply order_then.
  - exact (order_by (λ t, as_bytes (EntryTag.name t)) _ order_bytes).
  - exact (order_by (λ t, as_bytes (EntryTag.value t)) _ order_bytes).
Qed.

Lemma tag_cmp_eq a b : EntryTag.cmp a b = Datatypes.Eq → a = b.
Proof.
  destruct a as [n v|n v], b as [n' v'|n' v']; unfold EntryTag.cmp, EntryTag.then_cmp;
    cbn [EntryTag.variant EntryTag.name EntryTag.value Nat.compare]; try done;
    destruct (bytes_compare (as_bytes n) (as_bytes n')) eqn:En; try done; intros Ev;
    apply bytes_compare_eq, as_bytes_inj in En as ->;
    by apply bytes_compare_eq, as_bytes_inj in Ev as ->.
Qed.

#[export] Instance tag_le_trans : Transitive EntryTag.le.
Proof. intros a b c. apply order_tags. Qed.

#[export] Instance tag_le_total : Total EntryTag.le.
Proof.
  intros a b. unfold EntryTag.le. rewrite (cmp_antisym _ order_tags a b).
  destruct (EntryTag.cmp a b); cbn; auto.
Qed.

#[export] Instance tag_le_antisymm : AntiSymm (=) EntryTag.le.
Proof.
  intros a b. unfold EntryTag.le. rewrite (cmp_antisym _ order_tags a b).
  destruct (EntryTag.cmp a b) eqn:E; [by intros; apply tag_cmp_eq|done..].
Qed.

Lemma sorted_tags_sort l : sorted_tags l = merge_sort EntryTag.le l.
Proof. by destruct l. Qed.

Lemma sorted_tags_perm l1 l2 : sorted_tags l1 = sorted_tags l2 ↔ l1 ≡ₚ l2.
Proof.
  rewrite !sorted_tags_sort. split.
  - intros E. by rewrite <- (merge_sort_Permutation EntryTag.le l1), E, merge_sort_Permutation.
  - intros E. eapply (StronglySorted_unique EntryTag.le).
    + apply (StronglySorted_merge_sort EntryTag.le).
    + apply (StronglySorted_merge_sort EntryTag.le).
    + by rewrite !(merge_sort_Permutation EntryTag.le).
Qed.

(** Two entries are equal exactly when category, name and value agree and the
    tags are the same up to their order; the kind is not compared. *)
Theorem entry_eq_spec a b :
  entry_eq a b = true ↔
  category a = category b ∧ name a = name b ∧ value a = value b ∧ tags a ≡ₚ tags b.
Proof.
  unfold entry_eq. rewrite !andb_true_iff, !bool_decide_eq_true, sorted_tags_perm. tauto.
Qed.

(** ** Draining a scan *)

(** Every page but the last has [n] rows. *)
Fixpoint pages_full {T} (n : nat) (pages : list (list T)) : Prop :=
  match pages with
  | [] | [_] => True
  | p :: pages' => length p = n ∧ pages_full n pages'
  end.

Lemma fetch_next_full {T} (p : list T) rest n :
  length p = n → fetch_next (mkScan (Some (Ok p :: rest)) n) = (mkScan (Some rest) n, Ok (Some p)).
Proof. intros E. unfold fetch_next, mbind, stm_bind, sget, sput. cbn. by rewrite E, Nat.eqb_refl. Qed.

Lemma drain_pages {T} n (pages : list (list T)) : ∀ fuel,
  pages_full n pages → (length pages < fuel)%nat →
  (drain fuel (mkScan (Some (List.map Ok pages)) n)).2 = Ok (concat pages).
Proof.
  induction pages as [|p pages IH]; intros [|fuel] Hp Hf; cbn in Hf; try lia; [done|].
  cbn [drain List.map concat]. destruct pages as [|p' pages].
  - destruct fuel as [|fuel]; [cbn in Hf; lia|].
    unfold fetch_next, mbind, stm_bind, sget, sput. cbn.
    by destruct (length p =? n)%nat; cbn.
  - destruct Hp as [Hp Hps]. specialize (IH fuel Hps ltac:(cbn in *; lia)).
    rewrite (stm_bind_ok _ _ _ _ _ (fetch_next_full p _ n Hp)). cbv beta iota.
    unfold mbind at 1, stm_bind at 1. cbn [List.map] in IH.
    destruct (drain fuel _) as [sc r] eqn:E. cbn in IH. by subst r.
Qed.

(** A short page is taken for the last one: the scan ends with it whatever the
    stream still holds, and a failed page ends it with the error. *)
Lemma fetch_next_ends {T} (rest : list (sres (list T))) n :
  (∀ p, length p ≠ n →
     fetch_next (mkScan (Some (Ok p :: rest)) n) = (mkScan None n, Ok (Some p)))
  ∧ (∀ e, fetch_next (mkScan (Some (Err e :: rest)) n) = (mkScan None n, Err e))
  ∧ fetch_next (mkScan (T := T) None n) = (mkScan None n, Ok None).
Proof.
  split_and!; [|done|done]. intros p Hp. unfold fetch_next, mbind, stm_bind, sget, sput. cbn.
  by rewrite (proj2 (Nat.eqb_neq _ _)).
Qed.
