(* ===== verification/Utf8.v ===== *)
(** * UTF-8 validation

    The part of the standard library behind [String::from_utf8]: which byte
    strings are valid, where the first error is and how it is displayed. *)

From stdpp Require Import pretty.
From S2P Require Import Prelude.
Local Open Scope string_scope.

Definition in_range (lo hi : N) (b : byte) : bool := (lo <=? byte_val b)%N && (byte_val b <=? hi)%N.

Definition is_cont : byte → bool := in_range 128 191.

(** The range of the second byte of a sequence of three or four, by its first. *)
Definition second_ok (b0 b1 : byte) : bool :=
  if (byte_val b0 =? 224)%N then in_range 160 191 b1
  else if (byte_val b0 =? 237)%N then in_range 128 159 b1
  else if (byte_val b0 =? 240)%N then in_range 144 191 b1
  else if (byte_val b0 =? 244)%N then in_range 128 143 b1
  else is_cont b1.

(** The first error: the index up to which the input is valid, and the length of
    the invalid sequence unless the input just ends too early. *)
Fixpoint utf8_error (i : nat) (l : bytes) : option (nat * option nat) :=
  match l with
  | [] => None
  | b0 :: l1 =>
      if (byte_val b0 <? 128)%N then utf8_error (i + 1) l1
      else if in_range 194 223 b0 then
        match l1 with
        | [] => Some (i, None)
        | b1 :: l2 => if is_cont b1 then utf8_error (i + 2) l2 else Some (i, Some 1%nat)
        end
      else if in_range 224 239 b0 then
        match l1 with
        | [] => Some (i, None)
        | b1 :: l2 =>
            if negb (second_ok b0 b1) then Some (i, Some 1%nat) else
            match l2 with
            | [] => Some (i, None)
            | b2 :: l3 => if is_cont b2 then utf8_error (i + 3) l3 else Some (i, Some 2%nat)
            end
        end
      else if in_range 240 244 b0 then
        match l1 with
        | [] => Some (i, None)
        | b1 :: l2 =>
            if negb (second_ok b0 b1) then Some (i, Some 1%nat) else
            match l2 with
            | [] => Some (i, None)
            | b2 :: l3 =>
                if negb (is_cont b2) then Some (i, Some 2%nat) else
                match l3 with
                | [] => Some (i, None)
                | b3 :: l4 => if is_cont b3 then utf8_error (i + 4) l4 else Some (i, Some 3%nat)
                end
            end
        end
      else Some (i, Some 1%nat)
  end.

Definition utf8_valid (l : bytes) : bool :=
  match utf8_error 0 l with None => true | Some _ => false end.

(** [Display for Utf8Error]. *)
Definition utf8_error_text (e : nat * option nat) : string :=
  match e with
  | (i, Some n) =>
      "invalid utf-8 sequence of " +:+ pretty n +:+ " bytes from index " +:+ pretty i
  | (i, None) => "incomplete utf-8 byte sequence from index " +:+ pretty i
  end.

(** [String::from_utf8]; an error is the text it displays. *)
Definition from_utf8 (l : bytes) : res string string :=
  match utf8_error 0 l with
  | None => Ok (string_of_bytes l)
  | Some e => Err (utf8_error_text e)
  end.

(** What holds of every Rust [String]. *)
Definition str_ok (s : string) : Prop := utf8_valid (as_bytes s) = true.

Lemma from_utf8_str s : str_ok s → from_utf8 (as_bytes s) = Ok s.
Proof.
  unfold str_ok, utf8_valid, from_utf8. destruct (utf8_error 0 _); [done|].
  by rewrite string_of_as_bytes.
Qed.

Lemma from_utf8_inv l s : from_utf8 l = Ok s → as_bytes s = l ∧ str_ok s.
Proof.
  unfold from_utf8, str_ok, utf8_valid. destruct (utf8_error 0 l) eqn:E; [done|].
  intros [= <-]. by rewrite as_bytes_of_string, E.
Qed.

(** Text of ASCII characters is valid. *)
Lemma ascii_utf8 l : ∀ i, forallb (λ b, byte_val b <? 128)%N l = true → utf8_error i l = None.
Proof.
  induction l as [|b l IH]; intros i H; [done|]. apply andb_prop in H as [Hb H].
  cbn. rewrite Hb. by apply IH.
Qed.
