(* ===== verification/Aead.v ===== *)
(** * Authenticated encryption in place

    Models askar-crypto/src/encrypt/mod.rs (the [KeyAeadInPlace] and
    [KeyAeadMeta] traits as a type class, with the contract its clients rely on)
    and the ChaCha20-Poly1305 implementation of it in
    askar-crypto/src/alg/chacha20.rs.  The detached cipher is a third-party
    crate: a parameter, with the laws an AEAD documents. *)

From S2P Require Import Prelude Errors Buffers.
Local Open Scope string_scope.
Local Open Scope list_scope.

(** ** The trait *)

Record KeyAeadParams := mkAeadParams {
  nonce_length : nat;
  tag_length : nat;
}.

Class KeyAeadInPlace (K : Type) := {
  aead_params : K → KeyAeadParams;
  aead_padding : K → nat → nat;
  (** Nonce and additional data; the length of the ciphertext is returned. *)
  encrypt_in_place {B} `{ResizeBuffer B} : K → bytes → bytes → B → cres (B * nat);
  decrypt_in_place {B} `{ResizeBuffer B} : K → bytes → bytes → B → cres B;
}.

(** The contract: encryption replaces the contents by a function of key, nonce,
    additional data and contents, tag included, and decryption undoes it. *)
Class LawfulAead (K : Type) `{KeyAeadInPlace K} := {
  key_ok : K → Prop;
  (** The longest message accepted. *)
  msg_max : nat;
  sealed : K → bytes → bytes → bytes → bytes;
  sealed_length k nonce aad m :
    length nonce = nonce_length (aead_params k) → (length m ≤ msg_max)%nat → key_ok k →
    length (sealed k nonce aad m)
    = (length m + aead_padding k (length m) + tag_length (aead_params k))%nat;
  encrypt_spec {B} `{LawfulBuffer B} k nonce aad b :
    key_ok k → length nonce = nonce_length (aead_params k) → buf_ok b →
    (length (as_ref b) ≤ msg_max)%nat →
    ∃ b', encrypt_in_place k nonce aad b
        = Ok (b', (length (as_ref b) + aead_padding k (length (as_ref b)))%nat)
      ∧ buf_ok b' ∧ as_ref b' = sealed k nonce aad (as_ref b);
  decrypt_spec {B} `{LawfulBuffer B} k nonce aad b m :
    key_ok k → length nonce = nonce_length (aead_params k) → buf_ok b →
    (length m ≤ msg_max)%nat → as_ref b = sealed k nonce aad m →
    ∃ b', decrypt_in_place k nonce aad b = Ok b' ∧ buf_ok b' ∧ as_ref b' = m;
}.

(** ** The detached cipher *)

Class AeadCipher := {
  cipher_key_size : nat;
  cipher_nonce_size : nat;
  cipher_tag_size : nat;
  (** Key, nonce, additional data, message: ciphertext and tag. *)
  encrypt_detached : bytes → bytes → bytes → bytes → option (bytes * bytes);
  decrypt_detached : bytes → bytes → bytes → bytes → bytes → option bytes;
}.

Class CipherLaws `{AeadCipher} := {
  cipher_max : nat;
  encrypt_detached_total key nonce aad m :
    length key = cipher_key_size → length nonce = cipher_nonce_size →
    (length m ≤ cipher_max)%nat → encrypt_detached key nonce aad m ≠ None;
  encrypt_detached_sizes key nonce aad m c t :
    encrypt_detached key nonce aad m = Some (c, t) →
    length c = length m ∧ length t = cipher_tag_size;
  decrypt_detached_inverts key nonce aad m c t :
    encrypt_detached key nonce aad m = Some (c, t) → decrypt_detached key nonce aad c t = Some m;
}.

(** ** ChaCha20 keys *)

Record Chacha20Key := mkChacha { chacha_bytes : bytes }.

Section Chacha.
Context `{AeadCipher}.

Definition chacha_from_secret_bytes (key : bytes) : cres Chacha20Key :=
  if negb (length key =? cipher_key_size)%nat
  then Err (CryptoError.from_kind CryptoError.InvalidKeyData)
  else k ← array_from_slice cipher_key_size key; mret (mkChacha k).

(** [derive] fills the array it is given. *)
Definition chacha_from_key_derivation (derive : nat → cres bytes) : cres Chacha20Key :=
  k ← array_try_new_with cipher_key_size (λ arr, derive (length arr)); mret (mkChacha k).

(** [exchange] writes the shared secret to a buffer. *)
Definition chacha_from_key_exchange (exchange : SliceWriter → cres SliceWriter) : cres Chacha20Key :=
  k ← array_try_new_with cipher_key_size (λ arr,
    buf ← exchange (from_slice arr);
    if negb (w_pos buf =? cipher_key_size)%nat
    then Err (CryptoError.from_msg CryptoError.Usage "Invalid length for key exchange output")
    else mret (w_inner buf));
  mret (mkChacha k).

Definition chacha_encrypt_in_place {B} `{ResizeBuffer B} (self : Chacha20Key)
    (nonce aad : bytes) (buffer : B) : cres (B * nat) :=
  if negb (length nonce =? cipher_nonce_size)%nat
  then Err (CryptoError.from_kind CryptoError.InvalidNonce) else
  '(ctext, tag) ← ok_or (encrypt_detached (chacha_bytes self) nonce aad (as_ref buffer))
    (CryptoError.from_msg CryptoError.Encryption "AEAD encryption error");
  let buffer := as_mut_set buffer ctext in
  let ctext_len := length (as_ref buffer) in
  buffer ← buffer_write tag buffer;
  mret (buffer, ctext_len).

Definition chacha_decrypt_in_place {B} `{ResizeBuffer B} (self : Chacha20Key)
    (nonce aad : bytes) (buffer : B) : cres B :=
  if negb (length nonce =? cipher_nonce_size)%nat
  then Err (CryptoError.from_kind CryptoError.InvalidNonce) else
  let buf_len := length (as_ref buffer) in
  if (buf_len <? cipher_tag_size)%nat
  then Err (CryptoError.from_msg CryptoError.Invalid "Invalid size for encrypted data") else
  let tag_start := (buf_len - cipher_tag_size)%nat in
  let tag := drop tag_start (as_ref buffer) in
  msg ← ok_or
    (decrypt_detached (chacha_bytes self) nonce aad (take tag_start (as_ref buffer)) tag)
    (CryptoError.from_msg CryptoError.Encryption "AEAD decryption error");
  let buffer := as_mut_set buffer (msg ++ tag) in
  buffer_resize tag_start buffer.

#[export] Instance chacha_aead : KeyAeadInPlace Chacha20Key := {
  aead_params _ := mkAeadParams cipher_nonce_size cipher_tag_size;
  aead_padding _ _ := 0%nat;
  encrypt_in_place := @chacha_encrypt_in_place;
  decrypt_in_place := @chacha_decrypt_in_place;
}.

Context {laws : CipherLaws}.

Definition chacha_sealed (k : Chacha20Key) (nonce aad m : bytes) : bytes :=
  match encrypt_detached (chacha_bytes k) nonce aad m with
  | Some (c, t) => c ++ t
  | None => []
  end.

Definition chacha_ok (k : Chacha20Key) : Prop := length (chacha_bytes k) = cipher_key_size.

Lemma seal_cases k nonce aad m :
  chacha_ok k → length nonce = cipher_nonce_size → (length m ≤ cipher_max)%nat →
  ∃ c t, encrypt_detached (chacha_bytes k) nonce aad m = Some (c, t)
    ∧ chacha_sealed k nonce aad m = c ++ t ∧ length c = length m ∧ length t = cipher_tag_size.
Proof.
  intros Hk Hn Hm. unfold chacha_sealed.
  destruct (encrypt_detached (chacha_bytes k) nonce aad m) as [[c t]|] eqn:E.
  - destruct (encrypt_detached_sizes _ _ _ _ _ _ E). eauto 10.
  - by apply encrypt_detached_total in E.
Qed.

Lemma chacha_encrypt_spec {B} `{LawfulBuffer B} k nonce aad (b : B) :
  chacha_ok k → length nonce = cipher_nonce_size → buf_ok b →
  (length (as_ref b) ≤ cipher_max)%nat →
  ∃ b', chacha_encrypt_in_place k nonce aad b = Ok (b', (length (as_ref b) + 0)%nat)
    ∧ buf_ok b' ∧ as_ref b' = chacha_sealed k nonce aad (as_ref b).
Proof.
  intros Hk Hn Hb Hm. unfold chacha_encrypt_in_place. rewrite Hn, Nat.eqb_refl. cbn [negb].
  destruct (seal_cases k nonce aad (as_ref b)) as (c & t & -> & -> & Hc & Ht); [done..|]. cbn.
  destruct (as_mut_spec b c Hb Hc) as [Hb1 E1].
  destruct (write_spec _ t Hb1) as (b' & -> & Hb' & E'). cbn.
  exists b'. by rewrite E', E1, Hc, Nat.add_0_r.
Qed.

Lemma chacha_decrypt_spec {B} `{LawfulBuffer B} k nonce aad (b : B) m :
  chacha_ok k → length nonce = cipher_nonce_size → buf_ok b →
  (length m ≤ cipher_max)%nat → as_ref b = chacha_sealed k nonce aad m →
  ∃ b', chacha_decrypt_in_place k nonce aad b = Ok b' ∧ buf_ok b' ∧ as_ref b' = m.
Proof.
  intros Hk Hn Hb Hm E. unfold chacha_decrypt_in_place. rewrite Hn, Nat.eqb_refl. cbn [negb].
  destruct (seal_cases k nonce aad m) as (c & t & Hs & Hst & Hc & Ht); [done..|].
  rewrite Hst in E. rewrite E, length_app, (proj2 (Nat.ltb_ge _ _)) by lia.
  rewrite Ht, Nat.add_sub, drop_app_length, take_app_length.
  rewrite (decrypt_detached_inverts _ _ _ _ _ _ Hs). cbn.
  destruct (as_mut_spec b (m ++ t) Hb) as [Hb1 E1]; [rewrite E, !length_app; lia|].
  destruct (resize_spec _ (length c) Hb1) as (b' & -> & Hb' & E').
  exists b'. split_and!; [done..|]. rewrite E', E1, Hc. unfold resize_zero.
  by rewrite resize_app.
Qed.

#[export] Instance chacha_lawful : LawfulAead Chacha20Key.
Proof.
  refine {| key_ok := chacha_ok; msg_max := cipher_max; sealed := chacha_sealed |}.
  - intros k nonce aad m Hn Hm Hk. cbn in *.
    destruct (seal_cases k nonce aad m) as (c & t & _ & -> & Hc & Ht); [done..|].
    lens.
  - intros B RB LB. exact (@chacha_encrypt_spec B RB LB).
  - intros B RB LB. exact (@chacha_decrypt_spec B RB LB).
Defined.

End Chacha.

(** ** A toy cipher with the laws, for examples: the tag is taken from key and
    nonce *)

Definition toy_tag (key nonce : bytes) : bytes := resize 16 x00 (nonce ++ key).

Definition toy_cipher : AeadCipher := {|
  cipher_key_size := 32;
  cipher_nonce_size := 12;
  cipher_tag_size := 16;
  encrypt_detached key nonce aad m := Some (m, toy_tag key nonce);
  decrypt_detached key nonce aad c t := if decide (t = toy_tag key nonce) then Some c else None;
|}.

#[export] Instance toy_cipher_laws : @CipherLaws toy_cipher.
Proof.
  refine {| cipher_max := 1000 : nat |}.
  - done.
  - intros key nonce aad m c t [= <- <-]. split; [done|apply length_resize].
  - intros key nonce aad m c t [= <- <-]. cbn. by rewrite decide_True.
Defined.

(** ** Properties *)

(** Sealing a buffer appends the tag, and opening it with the same key, nonce
    and additional data restores it, whatever buffer implementation either side
    uses. *)
Theorem chacha_roundtrip `{CipherLaws} {B1} `{LawfulBuffer B1} {B2} `{LawfulBuffer B2}
    key nonce aad (b : B1) (c : B2) :
  length (chacha_bytes key) = cipher_key_size → length nonce = cipher_nonce_size →
  (length (as_ref b) ≤ cipher_max)%nat → buf_ok b → buf_ok c →
  ∃ b', chacha_encrypt_in_place key nonce aad b = Ok (b', length (as_ref b))
    ∧ length (as_ref b') = (length (as_ref b) + cipher_tag_size)%nat
    ∧ (as_ref c = as_ref b' →
       ∃ c', chacha_decrypt_in_place key nonce aad c = Ok c' ∧ as_ref c' = as_ref b).
Proof.
  intros Hk Hn Hm Hb Hc.
  destruct (chacha_encrypt_spec key nonce aad b Hk Hn Hb Hm) as (b' & E & Hb' & Er).
  exists b'. rewrite Nat.add_0_r in E. split_and!; [done| |].
  - rewrite Er. destruct (seal_cases key nonce aad (as_ref b)) as (ct & t & _ & -> & Hl & Ht); [done..|].
    by rewrite length_app, Hl, Ht.
  - rewrite Er. intros Ec.
    destruct (chacha_decrypt_spec key nonce aad c (as_ref b) Hk Hn Hc Hm Ec) as (c' & Ed & _ & Hr).
    by exists c'.
Qed.

Lemma chacha_roundtrip_witness :
  let key := mkChacha (replicate 32 x07) in
  let nonce := replicate 12 x01 in
  ∃ b', @chacha_encrypt_in_place toy_cipher _ _ key nonce [] [x61; x62] = Ok (b', 2%nat)
    ∧ length (as_ref b') = 18%nat
    ∧ ([x61; x62] ++ toy_tag (replicate 32 x07) nonce = as_ref b' →
       ∃ c', @chacha_decrypt_in_place toy_cipher _ _ key nonce []
               ([x61; x62] ++ toy_tag (replicate 32 x07) nonce) = Ok c'
         ∧ as_ref c' = [x61; x62]).
Proof.
  intros key nonce.
  pose proof (@chacha_roundtrip toy_cipher toy_cipher_laws bytes _ _ bytes _ _ key nonce [] [x61; x62]
    ([x61; x62] ++ toy_tag (replicate 32 x07) nonce)) as E.
  apply E; [reflexivity|reflexivity|cbn; lia|exact I|exact I].
Defined.

(** Opening data that is too short for a tag, or with a nonce of the wrong size,
    is refused. *)
Theorem chacha_decrypt_refuses `{AeadCipher} `{ResizeBuffer B} key nonce aad (b : B) :
  (length nonce ≠ cipher_nonce_size →
   chacha_decrypt_in_place key nonce aad b = Err (CryptoError.from_kind CryptoError.InvalidNonce))
  ∧ (length nonce = cipher_nonce_size → (length (as_ref b) < cipher_tag_size)%nat →
     chacha_decrypt_in_place key nonce aad b
     = Err (CryptoError.from_msg CryptoError.Invalid "Invalid size for encrypted data")).
Proof.
  unfold chacha_decrypt_in_place. split.
  - intros Hn. by rewrite (proj2 (Nat.eqb_neq _ _)).
  - intros Hn Hl. by rewrite Hn, Nat.eqb_refl, (proj2 (Nat.ltb_lt _ _)).
Qed.
