(* ===== verification/Aes.v ===== *)
(** * AES keys: GCM, key wrapping and CBC-HMAC

    Models askar-crypto/src/alg/aes/mod.rs (AES keys and AES-GCM),
    key_wrap.rs (RFC 3394) and cbc_hmac.rs (RFC 7518, section 5.2) over any buffer.
    The block cipher, the padded CBC mode and the HMAC are third-party crates:
    parameters, with the laws they document. *)

From S2P Require Import Prelude Errors Buffers Random Aead.
Local Open Scope string_scope.
Local Open Scope list_scope.

(** ** Words *)

Definition byte_xor (a b : byte) : byte := byte_of (N.lxor (byte_val a) (byte_val b)).

(** [for (a, t) in iv.iter_mut().zip(t) { *a ^= t }]. *)
Definition xor_bytes (a b : bytes) : bytes := zip_with byte_xor a b.

(** [u64::to_be_bytes]. *)
Definition u64_be (n : N) : bytes :=
  List.map (λ i, byte_of (N.shiftr (n mod 2 ^ 64) (8 * i))) [7; 6; 5; 4; 3; 2; 1; 0]%N.

(** [chunks_exact(8)]. *)
Fixpoint chunks8 (fuel : nat) (l : bytes) : list bytes :=
  match fuel with
  | O => []
  | S fuel => if (length l <? 8)%nat then [] else take 8 l :: chunks8 fuel (drop 8 l)
  end.
Definition chunks_of (l : bytes) : list bytes := chunks8 (length l) l.

(** ** Key wrapping *)

Class BlockCipher := {
  encrypt_block : bytes → bytes → bytes;
  decrypt_block : bytes → bytes → bytes;
}.

(** Permutations of blocks of 16 bytes. *)
Class BlockCipherLaws `{BlockCipher} := {
  encrypt_block_length key b : length b = 16%nat → length (encrypt_block key b) = 16%nat;
  decrypt_block_length key b : length b = 16%nat → length (decrypt_block key b) = 16%nat;
  decrypt_encrypt key b : length b = 16%nat → decrypt_block key (encrypt_block key b) = b;
}.

Definition AES_KW_DEFAULT_IV : bytes := replicate 8 xa6.

Definition kw_err (k : CryptoError.ErrorKind) (msg : string) : CryptoError.Error := CryptoError.from_msg k msg.

Section KeyWrap.
Context `{BlockCipher} (key : bytes).

(** The inner loop, from chunk [i] on. *)
Fixpoint wrap_pass (blocks j i : nat) (iv : bytes) (chunks : list bytes) : bytes * list bytes :=
  match chunks with
  | [] => (iv, [])
  | chunk :: chunks' =>
      let block := encrypt_block key (iv ++ chunk) in
      let t := u64_be (N.of_nat (blocks * j + i + 1)) in
      let iv := xor_bytes (take 8 block) t in
      let '(iv, rest) := wrap_pass blocks j (S i) iv chunks' in
      (iv, drop 8 block :: rest)
  end.

Fixpoint wrap_rounds (blocks : nat) (js : list nat) (iv : bytes) (chunks : list bytes) : bytes * list bytes :=
  match js with
  | [] => (iv, chunks)
  | j :: js' => let '(iv, chunks) := wrap_pass blocks j 0 iv chunks in wrap_rounds blocks js' iv chunks
  end.

(** The inner loop in reverse: the later chunks first. *)
Fixpoint unwrap_pass (blocks j i : nat) (iv : bytes) (chunks : list bytes) : bytes * list bytes :=
  match chunks with
  | [] => (iv, [])
  | chunk :: chunks' =>
      let '(iv, rest) := unwrap_pass blocks j (S i) iv chunks' in
      let t := u64_be (N.of_nat (blocks * j + i + 1)) in
      let block := decrypt_block key (xor_bytes iv t ++ chunk) in
      (take 8 block, drop 8 block :: rest)
  end.

Fixpoint unwrap_rounds (blocks : nat) (js : list nat) (iv : bytes) (chunks : list bytes) : bytes * list bytes :=
  match js with
  | [] => (iv, chunks)
  | j :: js' => let '(iv, chunks) := unwrap_pass blocks j 0 iv chunks in unwrap_rounds blocks js' iv chunks
  end.

Definition kw_encrypt_in_place {B} `{ResizeBuffer B} (nonce aad : bytes) (buffer : B) : cres (B * nat) :=
  if negb (length nonce =? 0)%nat then Err (kw_err CryptoError.Unsupported "Custom nonce not supported") else
  if negb (length aad =? 0)%nat then Err (kw_err CryptoError.Unsupported "AAD not supported") else
  let buf_len := length (as_ref buffer) in
  if negb (buf_len mod 8 =? 0)%nat
  then Err (kw_err CryptoError.Unsupported "Data length must be a multiple of 8 bytes") else
  let blocks := (buf_len / 8)%nat in
  buffer ← buffer_insert 0 (replicate 8 x00) buffer;
  let '(iv, chunks) := wrap_rounds blocks (List.seq 0 6) AES_KW_DEFAULT_IV (chunks_of (drop 8 (as_ref buffer))) in
  mret (as_mut_set buffer (iv ++ concat chunks), (buf_len + 8)%nat).

Definition kw_decrypt_in_place {B} `{ResizeBuffer B} (nonce aad : bytes) (buffer : B) : cres B :=
  if negb (length nonce =? 0)%nat then Err (kw_err CryptoError.Unsupported "Custom nonce not supported") else
  if negb (length aad =? 0)%nat then Err (kw_err CryptoError.Unsupported "AAD not supported") else
  if negb (length (as_ref buffer) mod 8 =? 0)%nat
  then Err (kw_err CryptoError.Encryption "Data length must be a multiple of 8 bytes") else
  let blocks := (length (as_ref buffer) / 8)%nat in
  if (blocks <? 1)%nat then Err (CryptoError.from_kind CryptoError.Encryption) else
  let iv := take 8 (as_ref buffer) in
  buffer ← buffer_remove 0 8 buffer;
  let '(iv, chunks) := unwrap_rounds (blocks - 1) (rev (List.seq 0 6)) iv (chunks_of (as_ref buffer)) in
  let buffer := as_mut_set buffer (concat chunks) in
  if bool_decide (iv = AES_KW_DEFAULT_IV) then mret buffer
  else Err (CryptoError.from_kind CryptoError.Encryption).
End KeyWrap.

(** ** AES-CBC-HMAC *)

(** The cipher in CBC mode with PKCS #7 padding, and the HMAC. *)
Class CbcHmac := {
  cbc_block_size : nat;
  cbc_key_size : nat;
  digest_size : nat;
  (** Key, nonce, message; and the reverse, when the padding is right. *)
  cbc_encrypt : bytes → bytes → bytes → option bytes;
  cbc_decrypt : bytes → bytes → bytes → option bytes;
  cbc_hmac : bytes → bytes → bytes;
}.

(** [padding_length]: a whole block when the message fills its blocks. *)
Definition padding_length `{CbcHmac} (len : nat) : nat := (cbc_block_size - len mod cbc_block_size)%nat.

Class CbcHmacLaws `{CbcHmac} := {
  cbc_block_pos : (0 < cbc_block_size)%nat;
  tag_fits : (cbc_key_size ≤ digest_size)%nat;
  cbc_hmac_size key m : length (cbc_hmac key m) = digest_size;
  cbc_encrypt_total key nonce m : length key = cbc_key_size → length nonce = cbc_block_size →
    ∃ c, cbc_encrypt key nonce m = Some c ∧ length c = (length m + padding_length (length m))%nat
      ∧ cbc_decrypt key nonce c = Some m;
  (** Decryption in place gives at most as many bytes back. *)
  cbc_decrypt_length key nonce c m : cbc_decrypt key nonce c = Some m → (length m ≤ length c)%nat;
}.

Section CbcHmacOps.
Context `{CbcHmac} (key : bytes).

Definition u64_max : N := 2 ^ 64 - 1.

(** The MAC key comes first. *)
Definition cbc_mac (nonce aad ctext : bytes) : bytes :=
  take cbc_key_size (cbc_hmac (take cbc_key_size key)
    (aad ++ nonce ++ ctext ++ u64_be (N.of_nat (length aad) * 8))).

Definition cbc_encrypt_in_place {B} `{ResizeBuffer B} (nonce aad : bytes) (buffer : B) : cres (B * nat) :=
  if negb (length nonce =? cbc_block_size)%nat then Err (CryptoError.from_kind CryptoError.InvalidNonce) else
  if (digest_size <? cbc_key_size)%nat
  then Err (kw_err CryptoError.Encryption "AES-CBC-HMAC tag size exceeds maximum supported") else
  if (u64_max / 8 <? N.of_nat (length aad))%N
  then Err (kw_err CryptoError.Encryption "AES-CBC-HMAC AAD size exceeds maximum supported") else
  let msg := as_ref buffer in
  let msg_len := length msg in
  let pad_len := padding_length msg_len in
  '(buffer, _) ← buffer_extend (pad_len + cbc_key_size) buffer;
  c ← ok_or (cbc_encrypt (drop cbc_key_size key) nonce msg)
    (kw_err CryptoError.Encryption "AES-CBC encryption error");
  let ctext_end := (msg_len + pad_len)%nat in
  let buffer := as_mut_set buffer (c ++ drop ctext_end (as_ref buffer)) in
  let tag := cbc_mac nonce aad (take ctext_end (as_ref buffer)) in
  let buffer := as_mut_set buffer
    (take ctext_end (as_ref buffer) ++ tag ++ drop (ctext_end + cbc_key_size) (as_ref buffer)) in
  mret (buffer, ctext_end).

Definition cbc_decrypt_in_place {B} `{ResizeBuffer B} (nonce aad : bytes) (buffer : B) : cres B :=
  if negb (length nonce =? cbc_block_size)%nat then Err (CryptoError.from_kind CryptoError.InvalidNonce) else
  if (u64_max / 8 <? N.of_nat (length aad))%N
  then Err (kw_err CryptoError.Encryption "AES-CBC-HMAC AAD size exceeds maximum supported") else
  let buf_len := length (as_ref buffer) in
  if (buf_len <? cbc_key_size)%nat
  then Err (kw_err CryptoError.Encryption "Invalid size for encrypted data") else
  let ctext_end := (buf_len - cbc_key_size)%nat in
  let ctext := take ctext_end (as_ref buffer) in
  let tag := drop ctext_end (as_ref buffer) in
  let tag_match := bool_decide (tag = cbc_mac nonce aad ctext) in
  msg ← ok_or (cbc_decrypt (drop cbc_key_size key) nonce ctext)
    (kw_err CryptoError.Encryption "AES-CBC decryption error");
  let dec_len := length msg in
  let buffer := as_mut_set buffer (msg ++ drop dec_len (as_ref buffer)) in
  buffer ← buffer_resize dec_len buffer;
  if negb tag_match then Err (kw_err CryptoError.Encryption "AEAD decryption error") else mret buffer.
End CbcHmacOps.

(** ** AES keys and AES-GCM *)

Record AesKey := mkAes { aes_bytes : bytes }.

(** Keys of [AesType::KeySize] bytes. *)
Section AesKeys.
Context (key_length : nat).

(** [ArrayKey::generate]. *)
Definition aes_generate `{KeyMaterial R} (rng : R) : cres (R * AesKey) :=
  '(rng, key) ← read_okm key_length rng; mret (rng, mkAes key).

Definition aes_from_secret_bytes (key : bytes) : cres AesKey :=
  if negb (length key =? key_length)%nat
  then Err (CryptoError.from_kind CryptoError.InvalidKeyData)
  else k ← array_from_slice key_length key; mret (mkAes k).

Definition aes_from_key_derivation (derive : nat → cres bytes) : cres AesKey :=
  k ← array_try_new_with key_length (λ arr, derive (length arr)); mret (mkAes k).

Definition aes_from_key_exchange (exchange : SliceWriter → cres SliceWriter) : cres AesKey :=
  k ← array_try_new_with key_length (λ arr,
    buf ← exchange (from_slice arr);
    if negb (w_pos buf =? key_length)%nat
    then Err (CryptoError.from_msg CryptoError.Usage "Invalid length for key exchange output")
    else mret (w_inner buf));
  mret (mkAes k).

End AesKeys.

Section AesGcm.
Context `{AeadCipher}.

Definition aes_encrypt_in_place {B} `{ResizeBuffer B} (self : AesKey) (nonce aad : bytes) (buffer : B)
    : cres (B * nat) :=
  if negb (length nonce =? cipher_nonce_size)%nat
  then Err (CryptoError.from_kind CryptoError.InvalidNonce) else
  '(ctext, tag) ← ok_or (encrypt_detached (aes_bytes self) nonce aad (as_ref buffer))
    (CryptoError.from_msg CryptoError.Encryption "AEAD encryption error");
  let buffer := as_mut_set buffer ctext in
  let ctext_len := length (as_ref buffer) in
  buffer ← buffer_write tag buffer;
  mret (buffer, ctext_len).

Definition aes_decrypt_in_place {B} `{ResizeBuffer B} (self : AesKey) (nonce aad : bytes) (buffer : B) : cres B :=
  if negb (length nonce =? cipher_nonce_size)%nat
  then Err (CryptoError.from_kind CryptoError.InvalidNonce) else
  let buf_len := length (as_ref buffer) in
  if (buf_len <? cipher_tag_size)%nat
  then Err (CryptoError.from_msg CryptoError.Encryption "Invalid size for encrypted data") else
  let tag_start := (buf_len - cipher_tag_size)%nat in
  let tag := drop tag_start (as_ref buffer) in
  msg ← ok_or
    (decrypt_detached (aes_bytes self) nonce aad (take tag_start (as_ref buffer)) tag)
    (CryptoError.from_msg CryptoError.Encryption "AEAD decryption error");
  let buffer := as_mut_set buffer (msg ++ tag) in
  buffer_resize tag_start buffer.

#[export] Instance aes_aead : KeyAeadInPlace AesKey := {
  aead_params _ := mkAeadParams cipher_nonce_size cipher_tag_size;
  aead_padding _ _ := 0%nat;
  encrypt_in_place := @aes_encrypt_in_place;
  decrypt_in_place := @aes_decrypt_in_place;
}.

Context {laws : CipherLaws}.

(** On data that is long enough the code is that of the ChaCha20 keys. *)
Lemma aes_decrypt_spec {B} `{LawfulBuffer B} k nonce aad (b : B) m :
  length (aes_bytes k) = cipher_key_size → length nonce = cipher_nonce_size → buf_ok b →
  (length m ≤ cipher_max)%nat → as_ref b = chacha_sealed (mkChacha (aes_bytes k)) nonce aad m →
  ∃ b', aes_decrypt_in_place k nonce aad b = Ok b' ∧ buf_ok b' ∧ as_ref b' = m.
Proof.
  intros Hk Hn Hb Hm Es.
  destruct (chacha_decrypt_spec (mkChacha (aes_bytes k)) nonce aad b m Hk Hn Hb Hm Es) as (b' & E & Hb').
  exists b'. split; [|done]. rewrite <- E. unfold aes_decrypt_in_place, chacha_decrypt_in_place.
  rewrite Hn, Nat.eqb_refl. cbn [negb].
  destruct (seal_cases (mkChacha (aes_bytes k)) nonce aad m) as (c & t & _ & Hst & Hc & Ht); [done..|].
  rewrite Es, Hst, length_app, (proj2 (Nat.ltb_ge _ _)) by lia. done.
Qed.

(** AES-GCM keys keep the contract of authenticated encryption. *)
#[export] Instance aes_lawful : LawfulAead AesKey.
Proof.
  refine {| key_ok k := length (aes_bytes k) = cipher_key_size; msg_max := cipher_max;
            sealed k := chacha_sealed (mkChacha (aes_bytes k)) |}.
  - intros k nonce aad m Hn Hm Hk. exact (sealed_length (mkChacha (aes_bytes k)) nonce aad m Hn Hm Hk).
  - intros B RB LB k. exact (@chacha_encrypt_spec _ _ B RB LB (mkChacha (aes_bytes k))).
  - intros B RB LB. exact (@aes_decrypt_spec B RB LB).
Defined.
End AesGcm.

(** ** Lemmas *)

(** Every byte, for arguments by enumeration. *)
Definition all_bytes : bytes := List.map (λ n, byte_of (N.of_nat n)) (List.seq 0 256).

Lemma all_bytes_elem b : b ∈ all_bytes.
Proof.
  unfold all_bytes. apply list_elem_of_In, in_map_iff. exists (N.to_nat (byte_val b)).
  rewrite N2Nat.id, byte_of_val. split; [done|]. apply in_seq.
  pose proof (Byte.to_N_bounded b). unfold byte_val. lia.
Qed.

Lemma byte_xor_involutive a b : byte_xor (byte_xor a b) b = a.
Proof.
  assert (forallb (λ a, forallb (λ b, bool_decide (byte_xor (byte_xor a b) b = a)) all_bytes) all_bytes = true)
    as H by (vm_compute; reflexivity).
  rewrite forallb_Forall, Forall_forall in H. specialize (H a (all_bytes_elem a)). cbv beta in H.
  rewrite forallb_Forall, Forall_forall in H. specialize (H b (all_bytes_elem b)). cbv beta in H.
  by apply bool_decide_eq_true in H.
Qed.

Lemma xor_bytes_length a t : length a = length t → length (xor_bytes a t) = length a.
Proof. intros. unfold xor_bytes. rewrite length_zip_with. lia. Qed.

Lemma xor_bytes_involutive a t : length a = length t → xor_bytes (xor_bytes a t) t = a.
Proof.
  revert t. induction a as [|x a IH]; intros [|y t] E; try done. simpl in E.
  unfold xor_bytes in *. simpl. rewrite byte_xor_involutive. f_equal. apply IH. lia.
Qed.

Lemma u64_be_length n : length (u64_be n) = 8%nat.
Proof. done. Qed.

(** Chunks of eight bytes cover a list whose length is a multiple of eight. *)
Lemma chunks8_spec n l : (length l = 8 * n)%nat →
  concat (chunks_of l) = l ∧ Forall (λ c, length c = 8%nat) (chunks_of l) ∧ length (chunks_of l) = n.
Proof.
  unfold chunks_of. generalize (Nat.le_refl (length l)). generalize (length l) at 2 4 5 6 as fuel.
  intros fuel. revert n l. induction fuel as [|fuel IH]; intros n l Hf Hn.
  - assert (n = 0%nat) as -> by lia. destruct l; simpl in *; [done|lia].
  - cbn [chunks8]. destruct (length l <? 8)%nat eqn:E8.
    + apply Nat.ltb_lt in E8. assert (n = 0%nat) as -> by lia. destruct l; simpl in *; [done|lia].
    + apply Nat.ltb_ge in E8. destruct n as [|n]; [lia|].
      destruct (IH n (drop 8 l)) as (Ec & Hc & Hl); [lens..|].
      cbn [concat length]. rewrite Ec, Hl, take_drop. split_and!; [done| |done].
      constructor; [lens|done].
Qed.

(** A list of chunks of eight bytes is recovered from its concatenation. *)
Lemma chunks8_concat cs fuel : Forall (λ c, length c = 8%nat) cs → (8 * length cs ≤ fuel)%nat →
  chunks8 fuel (concat cs) = cs.
Proof.
  intros H. revert fuel. induction H as [|c cs Hc _ IH]; intros fuel Hf.
  - by destruct fuel.
  - simpl in Hf. destruct fuel as [|fuel]; [lia|]. cbn [concat chunks8].
    rewrite length_app, Hc, (proj2 (Nat.ltb_ge _ _)) by lia.
    rewrite take_app_length', drop_app_length' by done. rewrite IH by lia. done.
Qed.

Lemma concat_length8 (cs : list bytes) : Forall (λ c, length c = 8%nat) cs → length (concat cs) = (8 * length cs)%nat.
Proof. induction 1 as [|c cs Hc _ IH]; [done|]. cbn [concat length]. rewrite length_app, Hc, IH. lia. Qed.

Lemma chunks_of_concat cs : Forall (λ c, length c = 8%nat) cs → chunks_of (concat cs) = cs.
Proof. intros H. unfold chunks_of. apply chunks8_concat; [done|]. by rewrite concat_length8. Qed.

Section KeyWrapLemmas.
Context `{BlockCipherLaws} (key : bytes).

Abbreviation chunks_ok cs := (Forall (λ c, length c = 8%nat) cs).

(** A step of the inner loop and its inverse. *)
Lemma unwrap_wrap_block iv chunk t : length iv = 8%nat → length chunk = 8%nat → length t = 8%nat →
  let block := encrypt_block key (iv ++ chunk) in
  length (xor_bytes (take 8 block) t) = 8%nat ∧ length (drop 8 block) = 8%nat
  ∧ decrypt_block key (xor_bytes (xor_bytes (take 8 block) t) t ++ drop 8 block) = iv ++ chunk.
Proof.
  intros Hi Hc Ht block.
  assert (length block = 16%nat) as Hb by (apply encrypt_block_length; lens).
  assert (length (take 8 block) = 8%nat) as H8 by lens.
  split_and!.
  - by rewrite xor_bytes_length by congruence.
  - lens.
  - rewrite xor_bytes_involutive, take_drop by congruence.
    apply decrypt_encrypt. lens.
Qed.

Lemma unwrap_wrap_pass blocks j i iv cs iv' cs' :
  length iv = 8%nat → chunks_ok cs → wrap_pass key blocks j i iv cs = (iv', cs') →
  length iv' = 8%nat ∧ chunks_ok cs' ∧ length cs' = length cs
  ∧ unwrap_pass key blocks j i iv' cs' = (iv, cs).
Proof.
  intros Hi Hcs. revert i iv Hi iv' cs'. induction Hcs as [|c cs Hc _ IH]; intros i iv Hi iv' cs' E.
  - by injection E as <- <-.
  - cbn [wrap_pass] in E. revert E. generalize (u64_be_length (N.of_nat (blocks * j + i + 1))).
    set (t := u64_be (N.of_nat (blocks * j + i + 1))). intros Ht.
    destruct (unwrap_wrap_block iv c t Hi Hc Ht) as (Hx & Hd & Hinv).
    destruct (wrap_pass _ _ _ _ _ cs) as [iv1 rest] eqn:Ew. intros [= <- <-].
    destruct (IH _ _ Hx _ _ Ew) as (Hi1 & Hr & Hl & Eu).
    split_and!; [done|by constructor|simpl; congruence|].
    cbn [unwrap_pass]. rewrite Eu. fold t. rewrite Hinv.
    by rewrite take_app_length', drop_app_length'.
Qed.

Lemma unwrap_rounds_app blocks js1 js2 iv cs :
  unwrap_rounds key blocks (js1 ++ js2) iv cs
  = (let '(iv', cs') := unwrap_rounds key blocks js1 iv cs in unwrap_rounds key blocks js2 iv' cs').
Proof.
  revert iv cs. induction js1 as [|j js1 IH]; intros iv cs; [done|].
  cbn [app unwrap_rounds]. destruct (unwrap_pass _ _ _ _ _ _). apply IH.
Qed.

Lemma unwrap_wrap_rounds blocks js iv cs iv' cs' :
  length iv = 8%nat → chunks_ok cs → wrap_rounds key blocks js iv cs = (iv', cs') →
  length iv' = 8%nat ∧ chunks_ok cs' ∧ length cs' = length cs
  ∧ unwrap_rounds key blocks (rev js) iv' cs' = (iv, cs).
Proof.
  revert iv cs. induction js as [|j js IH]; intros iv cs Hi Hcs E.
  - by injection E as <- <-.
  - cbn [wrap_rounds] in E. destruct (wrap_pass key blocks j 0 iv cs) as [iv1 cs1] eqn:Ep.
    destruct (unwrap_wrap_pass _ _ _ _ _ _ _ Hi Hcs Ep) as (Hi1 & Hcs1 & Hl1 & Eu1).
    destruct (IH _ _ Hi1 Hcs1 E) as (Hi' & Hcs' & Hl' & Eu').
    split_and!; [done|done|congruence|]. cbn [rev]. rewrite unwrap_rounds_app, Eu'.
    cbn [unwrap_rounds]. by rewrite Eu1.
Qed.

(** The wrapped form of a message. *)
Definition kw_sealed (m : bytes) : bytes :=
  let '(iv, cs) := wrap_rounds key (length m / 8) (List.seq 0 6) AES_KW_DEFAULT_IV (chunks_of m) in
  iv ++ concat cs.

Lemma kw_sealed_spec n m : (length m = 8 * n)%nat →
  ∃ iv cs, wrap_rounds key n (List.seq 0 6) AES_KW_DEFAULT_IV (chunks_of m) = (iv, cs)
    ∧ kw_sealed m = iv ++ concat cs ∧ length iv = 8%nat ∧ chunks_ok cs ∧ length cs = n
    ∧ unwrap_rounds key n (rev (List.seq 0 6)) iv cs = (AES_KW_DEFAULT_IV, chunks_of m).
Proof.
  intros Hm. destruct (chunks8_spec n m Hm) as (Ec & Hc & Hl). unfold kw_sealed.
  replace (length m / 8)%nat with n by (rewrite Hm, Nat.mul_comm; symmetry; by apply Nat.div_mul).
  destruct (wrap_rounds key n (List.seq 0 6) AES_KW_DEFAULT_IV (chunks_of m)) as [iv cs] eqn:E.
  destruct (unwrap_wrap_rounds n (List.seq 0 6) AES_KW_DEFAULT_IV _ _ _ eq_refl Hc E) as (? & ? & ? & ?).
  exists iv, cs. split_and!; congruence.
Qed.

Lemma kw_encrypt_spec `{LawfulBuffer B} n (b : B) : buf_ok b → (length (as_ref b) = 8 * n)%nat →
  ∃ b', kw_encrypt_in_place key [] [] b = Ok (b', (length (as_ref b) + 8)%nat)
    ∧ buf_ok b' ∧ as_ref b' = kw_sealed (as_ref b).
Proof.
  intros Hb Hn. unfold kw_encrypt_in_place. cbn [length negb Nat.eqb].
  replace (length (as_ref b) mod 8)%nat with 0%nat
    by (rewrite Hn, Nat.mul_comm; symmetry; by apply Nat.Div0.mod_mul).
  cbn [negb Nat.eqb]. destruct (insert_spec b 0 (replicate 8 x00) Hb) as (b1 & -> & Hb1 & E1); [lia|].
  run_bind. rewrite take_0, drop_0, app_nil_l in E1.
  rewrite E1, drop_app_length' by done.
  replace (length (as_ref b) / 8)%nat with n by (rewrite Hn, Nat.mul_comm; symmetry; by apply Nat.div_mul).
  destruct (kw_sealed_spec n (as_ref b) Hn) as (iv & cs & -> & -> & Hi & Hc & Hl & _).
  destruct (as_mut_spec b1 (iv ++ concat cs) Hb1) as [Hb2 E2]; [|by eexists].
  rewrite E1, !length_app, length_replicate, concat_length8 by done. lia.
Qed.

Lemma kw_decrypt_spec `{LawfulBuffer B} n m (b : B) : buf_ok b → (length m = 8 * n)%nat →
  as_ref b = kw_sealed m →
  ∃ b', kw_decrypt_in_place key [] [] b = Ok b' ∧ buf_ok b' ∧ as_ref b' = m.
Proof.
  intros Hb Hn Eb. destruct (kw_sealed_spec n m Hn) as (iv & cs & _ & Es & Hi & Hc & Hl & Eu).
  destruct (chunks8_spec n m Hn) as (Em & _ & _).
  assert (length (as_ref b) = (S n * 8)%nat) as Hlen.
  { rewrite Eb, Es, length_app, concat_length8 by done. lia. }
  unfold kw_decrypt_in_place. cbn [length negb Nat.eqb].
  rewrite Hlen, Nat.Div0.mod_mul, Nat.div_mul by done. cbn [negb Nat.eqb Nat.ltb Nat.leb].
  destruct (remove_spec b 0 8 Hb) as (b1 & -> & Hb1 & E1); [lia..|].
  run_bind. rewrite take_0, app_nil_l in E1. rewrite E1, Eb, Es.
  rewrite take_app_length', drop_app_length', chunks_of_concat by done.
  replace (S n - 1)%nat with n by lia. rewrite Eu. rewrite bool_decide_true by done.
  destruct (as_mut_spec b1 (concat (chunks_of m)) Hb1) as [Hb2 E2].
  - rewrite E1, length_drop, Hlen, Em. lia.
  - eexists. split; [done|]. by rewrite E2.
Qed.
End KeyWrapLemmas.

Section CbcHmacLemmas.
Context `{CbcHmacLaws} (key : bytes).

Definition cbc_key_ok : Prop := length (drop cbc_key_size key) = cbc_key_size.

(** The sealed form: ciphertext, then the truncated MAC. *)
Definition cbc_sealed (nonce aad m : bytes) : bytes :=
  let c := default [] (cbc_encrypt (drop cbc_key_size key) nonce m) in
  c ++ cbc_mac key nonce aad c.

Lemma cbc_mac_length nonce aad c : length (cbc_mac key nonce aad c) = cbc_key_size.
Proof. unfold cbc_mac. rewrite length_take, cbc_hmac_size. pose proof tag_fits. lia. Qed.

Lemma cbc_encrypt_spec `{LawfulBuffer B} nonce aad (b : B) :
  cbc_key_ok → length nonce = cbc_block_size → (N.of_nat (length aad) ≤ u64_max / 8)%N → buf_ok b →
  ∃ b', cbc_encrypt_in_place key nonce aad b
      = Ok (b', (length (as_ref b) + padding_length (length (as_ref b)))%nat)
    ∧ buf_ok b' ∧ as_ref b' = cbc_sealed nonce aad (as_ref b)
    ∧ length (as_ref b') = (length (as_ref b) + padding_length (length (as_ref b)) + cbc_key_size)%nat.
Proof.
  intros Hk Hn Ha Hb. unfold cbc_encrypt_in_place, cbc_sealed.
  rewrite Hn, Nat.eqb_refl. cbn [negb].
  rewrite (proj2 (Nat.ltb_ge _ _) tag_fits), (proj2 (N.ltb_ge _ _) Ha).
  set (msg := as_ref b). set (pad := padding_length (length msg)).
  destruct (extend_spec b (pad + cbc_key_size) Hb) as (b1 & -> & Hb1 & E1). run_bind.
  destruct (cbc_encrypt_total _ _ msg Hk Hn) as (c & -> & Hc & _). cbn [ok_or default from_option id mbind res_bind].
  fold pad in Hc. fold msg in E1.
  destruct (as_mut_spec b1 (c ++ drop (length msg + pad) (as_ref b1)) Hb1) as [Hb2 E2].
  { rewrite E1, length_app, length_drop, !length_app, length_replicate. lia. }
  rewrite E2, take_app_length' by done.
  set (tag := cbc_mac key nonce aad c). pose proof (cbc_mac_length nonce aad c) as Ht. fold tag in Ht.
  assert (drop (length msg + pad + cbc_key_size) (c ++ drop (length msg + pad) (as_ref b1)) = []) as Ed.
  { apply drop_ge. rewrite length_app, length_drop, E1, length_app, length_replicate. lia. }
  rewrite Ed, app_nil_r.
  destruct (as_mut_spec (as_mut_set b1 (c ++ drop (length msg + pad) (as_ref b1))) (c ++ tag) Hb2) as [Hb3 E3].
  { rewrite E2, !length_app, length_drop, E1, length_app, length_replicate. lia. }
  eexists. split; [done|]. rewrite E3, length_app. split_and!; [done|done|lia].
Qed.

Lemma cbc_decrypt_spec `{LawfulBuffer B} nonce aad m (b : B) :
  cbc_key_ok → length nonce = cbc_block_size → (N.of_nat (length aad) ≤ u64_max / 8)%N → buf_ok b →
  as_ref b = cbc_sealed nonce aad m →
  ∃ b', cbc_decrypt_in_place key nonce aad b = Ok b' ∧ buf_ok b' ∧ as_ref b' = m.
Proof.
  intros Hk Hn Ha Hb Eb. unfold cbc_decrypt_in_place. unfold cbc_sealed in Eb.
  destruct (cbc_encrypt_total _ _ m Hk Hn) as (c & Ec & Hc & Edec).
  rewrite Ec in Eb. cbn [default from_option id] in Eb.
  pose proof (cbc_mac_length nonce aad c) as Ht. pose proof (cbc_decrypt_length _ _ _ _ Edec) as Hle.
  rewrite Hn, Nat.eqb_refl. cbn [negb]. rewrite (proj2 (N.ltb_ge _ _) Ha), Eb, length_app.
  rewrite (proj2 (Nat.ltb_ge _ _)) by lia. rewrite Ht, Nat.add_sub.
  rewrite take_app_length, drop_app_length, bool_decide_true by done.
  rewrite Edec. cbn [ok_or mbind res_bind negb].
  destruct (as_mut_spec b (m ++ drop (length m) (c ++ cbc_mac key nonce aad c)) Hb) as [Hb1 E1].
  { rewrite Eb, !length_app, length_drop, length_app. lia. }
  destruct (resize_spec _ (length m) Hb1) as (b2 & -> & Hb2 & E2).
  exists b2. split_and!; [done..|]. rewrite E2, E1. unfold resize_zero. by rewrite resize_app.
Qed.
End CbcHmacLemmas.

(** ** A toy block cipher and a toy CBC mode with the laws, for examples *)

(** Reverses the block. *)
Definition toy_block : BlockCipher := {|
  encrypt_block _ b := rev b;
  decrypt_block _ b := rev b;
|}.

#[export] Instance toy_block_laws : @BlockCipherLaws toy_block.
Proof.
  split; cbn; intros; rewrite ?length_rev; [done..|]. apply rev_involutive.
Defined.

(** PKCS #7 padding of blocks of four bytes, without a cipher. *)
Definition toy_pad (m : bytes) : bytes :=
  let n := (4 - length m mod 4)%nat in m ++ replicate n (byte_of (N.of_nat n)).

Definition toy_unpad (c : bytes) : option bytes :=
  b ← last c;
  let n := N.to_nat (byte_val b) in
  if (n =? 0)%nat || (4 <? n)%nat || (length c <? n)%nat then None else
  let m := take (length c - n) c in
  if bool_decide (m ++ replicate n b = c) then Some m else None.

Definition toy_cbc : CbcHmac := {|
  cbc_block_size := 4;
  cbc_key_size := 2;
  digest_size := 3;
  cbc_encrypt _ _ m := Some (toy_pad m);
  cbc_decrypt _ _ c := toy_unpad c;
  cbc_hmac key m := resize 3 x00 (key ++ m);
|}.

Lemma toy_unpad_pad m : toy_unpad (toy_pad m) = Some m.
Proof.
  unfold toy_unpad, toy_pad.
  set (n := (4 - length m mod 4)%nat). set (b := byte_of (N.of_nat n)).
  assert (1 ≤ n ≤ 4)%nat as Hn by (pose proof (Nat.mod_upper_bound (length m) 4); unfold n; lia).
  assert (N.to_nat (byte_val b) = n) as Hb.
  { unfold b. assert (n = 1 ∨ n = 2 ∨ n = 3 ∨ n = 4)%nat as Hcs by lia. by destruct Hcs as [-> | [-> | [-> | ->]]]. }
  replace (replicate n b) with (replicate (n - 1) b ++ [b])
    by (rewrite <- replicate_S_end; f_equal; lia).
  rewrite app_assoc, last_snoc. cbn [mbind option_bind]. rewrite Hb.
  rewrite (proj2 (Nat.eqb_neq _ _)), (proj2 (Nat.ltb_ge _ _)) by lia.
  rewrite <- app_assoc, <- replicate_S_end. replace (S (n - 1)) with n by lia.
  rewrite length_app, length_replicate, (proj2 (Nat.ltb_ge _ _)) by lia. cbn [orb].
  rewrite Nat.add_sub, take_app_length. by rewrite bool_decide_true.
Qed.

#[export] Instance toy_cbc_laws : @CbcHmacLaws toy_cbc.
Proof.
  split.
  - cbn. lia.
  - cbn. lia.
  - intros. apply length_resize.
  - intros key nonce m _ _. exists (toy_pad m). split_and!; [done| |apply toy_unpad_pad].
    unfold toy_pad. by rewrite length_app, length_replicate.
  - intros key nonce c m E. cbn in E. unfold toy_unpad in E.
    destruct (last c); [|done]. cbn [mbind option_bind] in E. repeat case_match; simplify_eq.
    lens.
Defined.

(** ** Properties *)

(** Wrapping key material whose length is a multiple of eight bytes prepends an
    integrity block, and unwrapping with the same key recovers the material,
    whatever buffers the two sides use; other lengths, a nonce and additional
    data are refused. *)
Theorem key_wrap_roundtrip `{BlockCipherLaws} `{LawfulBuffer B1} `{LawfulBuffer B2} key (b : B1) (c : B2) :
  buf_ok b → buf_ok c →
  (length (as_ref b) mod 8 = 0%nat →
   ∃ b', kw_encrypt_in_place key [] [] b = Ok (b', length (as_ref b'))
     ∧ length (as_ref b') = (length (as_ref b) + 8)%nat
     ∧ (as_ref c = as_ref b' →
        ∃ c', kw_decrypt_in_place key [] [] c = Ok c' ∧ as_ref c' = as_ref b))
  ∧ (length (as_ref b) mod 8 ≠ 0%nat → kw_encrypt_in_place key [] [] b
       = Err (CryptoError.from_msg CryptoError.Unsupported "Data length must be a multiple of 8 bytes")).
Proof.
  intros Hb Hc. split.
  - intros Hm. pose proof (Nat.div_mod_eq (length (as_ref b)) 8) as Hn. rewrite Hm, Nat.add_0_r in Hn.
    destruct (kw_encrypt_spec key _ b Hb Hn) as (b' & E & Hb' & Es).
    destruct (kw_sealed_spec key _ (as_ref b) Hn) as (iv & cs & _ & El & Hi & Hcs & Hl & _).
    assert (length (as_ref b') = (length (as_ref b) + 8)%nat) as Hlen.
    { rewrite Es, El, length_app, concat_length8 by done. lia. }
    exists b'. rewrite Hlen. split_and!; [done..|]. rewrite Es. intros Ec.
    destruct (kw_decrypt_spec key _ _ c Hc Hn Ec) as (c' & ? & _ & ?). by exists c'.
  - intros Hm. unfold kw_encrypt_in_place. cbn [length negb Nat.eqb].
    by rewrite (proj2 (Nat.eqb_neq _ _) Hm).
Qed.

Lemma key_wrap_roundtrip_witness :
  ∃ b', @kw_encrypt_in_place toy_block [x09] _ _ [] [] (replicate 16 x61) = Ok (b', length (as_ref b'))
     ∧ length (as_ref b') = 24%nat.
Proof.
  pose proof (@key_wrap_roundtrip toy_block toy_block_laws bytes _ _ bytes _ _ [x09] (replicate 16 x61) []) as E.
  destruct E as [E _]; [exact I|exact I|]. destruct E as (b' & E1 & E2 & _); [reflexivity|].
  exists b'. split; [exact E1|exact E2].
Defined.

(** AES-CBC-HMAC seals a message as padded ciphertext and tag, the length before
    the tag being what is returned, and opens it again with the same key, nonce
    and additional data. *)
Theorem cbc_hmac_roundtrip `{CbcHmacLaws} `{LawfulBuffer B1} `{LawfulBuffer B2} key nonce aad (b : B1) (c : B2) :
  length (drop cbc_key_size key) = cbc_key_size → length nonce = cbc_block_size →
  (N.of_nat (length aad) ≤ u64_max / 8)%N → buf_ok b → buf_ok c →
  ∃ b' n, cbc_encrypt_in_place key nonce aad b = Ok (b', n)
    ∧ n = (length (as_ref b) + padding_length (length (as_ref b)))%nat
    ∧ length (as_ref b') = (n + cbc_key_size)%nat
    ∧ (as_ref c = as_ref b' →
       ∃ c', cbc_decrypt_in_place key nonce aad c = Ok c' ∧ as_ref c' = as_ref b).
Proof.
  intros Hk Hn Ha Hb Hc.
  destruct (cbc_encrypt_spec key nonce aad b Hk Hn Ha Hb) as (b' & E & Hb' & Es & Hl).
  exists b', (length (as_ref b) + padding_length (length (as_ref b)))%nat.
  split_and!; [done|done|done|]. rewrite Es. intros Ec.
  destruct (cbc_decrypt_spec key nonce aad _ c Hk Hn Ha Hc Ec) as (c' & ? & _ & ?). by exists c'.
Qed.

Lemma cbc_hmac_roundtrip_witness :
  ∃ b' n, @cbc_encrypt_in_place toy_cbc [x01; x02; x03; x04] _ _ (replicate 4 x00) [x7a] [x61; x62; x63] = Ok (b', n)
    ∧ n = 4%nat ∧ length (as_ref b') = 6%nat.
Proof.
  pose proof (@cbc_hmac_roundtrip toy_cbc toy_cbc_laws bytes _ _ bytes _ _ [x01; x02; x03; x04]
    (replicate 4 x00) [x7a] [x61; x62; x63] []) as E.
  destruct E as (b' & n & E1 & E2 & E3 & _); [reflexivity|reflexivity|cbn; vm_compute; discriminate|exact I|exact I|].
  exists b', n. split; [exact E1|]. split; [exact E2|]. rewrite E3, E2. reflexivity.
Defined.

(** Decryption runs before the tag comparison is reported: a ciphertext whose
    padding is wrong is answered with an error of its own, whatever its tag, so
    the caller can tell a padding failure from an authentication failure. *)
Theorem cbc_hmac_padding_error_visible `{CbcHmacLaws} key nonce aad (c tag : bytes) :
  length nonce = cbc_block_size → (N.of_nat (length aad) ≤ u64_max / 8)%N → length tag = cbc_key_size →
  tag ≠ cbc_mac key nonce aad c →
  cbc_decrypt_in_place key nonce aad (c ++ tag)
  = Err (CryptoError.from_msg CryptoError.Encryption
      match cbc_decrypt (drop cbc_key_size key) nonce c with
      | None => "AES-CBC decryption error"
      | Some _ => "AEAD decryption error"
      end).
Proof.
  intros Hn Ha Ht Hd. unfold cbc_decrypt_in_place. rewrite Hn, Nat.eqb_refl. cbn [negb as_ref vec_buffer].
  rewrite (proj2 (N.ltb_ge _ _) Ha), length_app.
  rewrite (proj2 (Nat.ltb_ge _ _)) by lia. rewrite Ht, Nat.add_sub, take_app_length, drop_app_length.
  rewrite bool_decide_false by done. by destruct (cbc_decrypt _ _ _).
Qed.

Lemma cbc_hmac_padding_error_visible_witness :
  @cbc_decrypt_in_place toy_cbc [x01; x02; x03; x04] _ _ (replicate 4 x00) [] ([x61; x62; x63; x09] ++ [x00; x00])
  = Err (CryptoError.from_msg CryptoError.Encryption "AES-CBC decryption error").
Proof.
  pose proof (@cbc_hmac_padding_error_visible toy_cbc toy_cbc_laws [x01; x02; x03; x04]
    (replicate 4 x00) [] [x61; x62; x63; x09] [x00; x00]) as E.
  apply E; [reflexivity|vm_compute; discriminate|reflexivity|vm_compute; discriminate].
Defined.
