(* ===== verification/Protect.v ===== *)
(** * Encrypting entries

    Models askar-storage/src/protect/hmac_key.rs ([HmacKey], [HmacDeriver]),
    askar-storage/src/protect/profile_key.rs ([ProfileKeyImpl]) and, from
    askar-storage/src/protect/mod.rs, the [EntryEncryptor] trait and
    [NullEncryptor].  HMAC is a third-party crate: a parameter.  Random bytes
    are an argument [rng], the bytes the generator would produce for a length. *)

From S2P Require Import Prelude Errors Buffers Utf8 Entry Aead.
Local Open Scope string_scope.
Local Open Scope list_scope.

(** ** Big-endian words *)

(** [(n as u32).to_be_bytes()]. *)
Definition u32_be (n : nat) : bytes :=
  let n := N.of_nat n in
  [byte_of (n / 16777216); byte_of (n / 65536); byte_of (n / 256); byte_of n]%N.

(** ** HMAC keys *)

Class Hmac := {
  (** Key and message (the concatenation of the updates). *)
  hmac : bytes → bytes → bytes;
  hmac_output_size : nat;
  hmac_size key msg : length (hmac key msg) = hmac_output_size;
}.

Record HmacKey := mkHmacKey { hmac_key_bytes : bytes }.

Definition hmac_key_from_slice (L : nat) (key : bytes) : sres HmacKey :=
  if negb (length key =? L)%nat
  then Err (StorageError.from_msg StorageError.Encryption "invalid length for hmac key")
  else k ← array_from_slice L key; mret (mkHmacKey k).

(** [HmacDeriver::derive_key_bytes] for an output of [len] bytes; an HMAC
    accepts a key of any length. *)
Definition hmac_derive `{Hmac} (key : HmacKey) (inputs : list bytes) (len : nat) : cres bytes :=
  if (hmac_output_size <? len)%nat
  then Err (CryptoError.from_msg CryptoError.Encryption "invalid length for hmac output")
  else Ok (take len (hmac (hmac_key_bytes key) (concat inputs))).

(** [FromKeyDerivation] of a key type; the derivation is the function from the
    length asked for to the bytes. *)
Class FromKeyDerivation (K : Type) := {
  derived_size : nat;
  from_key_derivation : (nat → cres bytes) → cres K;
}.

#[export] Instance chacha_derivation `{AeadCipher} : FromKeyDerivation Chacha20Key := {
  derived_size := cipher_key_size;
  from_key_derivation := chacha_from_key_derivation;
}.

(** [impl FromKeyDerivation for ArrayKey<L>]. *)
Definition array_from_key_derivation (L : nat) (derive : nat → cres bytes) : cres bytes :=
  array_try_new_with L (λ buf, derive (length buf)).

(** ** The encryptor trait *)

Class EntryEncryptor (K : Type) := {
  encrypt_entry_category : K → SecretBytes → sres bytes;
  encrypt_entry_name : K → SecretBytes → sres bytes;
  (** Randomness, then category, name and value. *)
  encrypt_entry_value : K → (nat → bytes) → bytes → bytes → SecretBytes → sres bytes;
  encrypt_entry_tags : K → list EntryTag → sres (list EncEntryTag);
  decrypt_entry_category : K → bytes → sres string;
  decrypt_entry_name : K → bytes → sres string;
  decrypt_entry_value : K → bytes → bytes → bytes → sres SecretBytes;
  decrypt_entry_tags : K → list EncEntryTag → sres (list EntryTag);
}.

(** [SecretBytes::from(Vec)], for a vector without spare capacity. *)
Definition secret_of (b : bytes) : SecretBytes := secret_from_vec b (length b).

Definition tag_ok (t : EntryTag) : Prop := str_ok (EntryTag.name t) ∧ str_ok (EntryTag.value t).

Definition tag_small (max : nat) (t : EntryTag) : Prop :=
  (length (as_bytes (EntryTag.name t)) ≤ max)%nat ∧ (length (as_bytes (EntryTag.value t)) ≤ max)%nat.

(** What an encryptor promises the backends that store entries with it:
    everything encrypted can be decrypted again, and names and categories
    encrypt to something that depends on nothing but their text, so that they
    can be searched for. *)
Class LawfulEncryptor (K : Type) `{EntryEncryptor K} := {
  encryptor_ok : K → Prop;
  text_max : nat;
  enc_category : K → bytes → bytes;
  enc_name : K → bytes → bytes;
  category_spec k b : encryptor_ok k → sec_inv b → (length (sec_data b) ≤ text_max)%nat →
    encrypt_entry_category k b = Ok (enc_category k (sec_data b));
  name_spec k b : encryptor_ok k → sec_inv b → (length (sec_data b) ≤ text_max)%nat →
    encrypt_entry_name k b = Ok (enc_name k (sec_data b));
  category_inverse k s : encryptor_ok k → str_ok s → (length (as_bytes s) ≤ text_max)%nat →
    decrypt_entry_category k (enc_category k (as_bytes s)) = Ok s;
  name_inverse k s : encryptor_ok k → str_ok s → (length (as_bytes s) ≤ text_max)%nat →
    decrypt_entry_name k (enc_name k (as_bytes s)) = Ok s;
  value_inverse k rng cat nm b : encryptor_ok k → (∀ n, length (rng n) = n) → sec_inv b →
    (length (sec_data b) ≤ text_max)%nat →
    ∃ enc, encrypt_entry_value k rng cat nm b = Ok enc ∧
      ∃ v, decrypt_entry_value k cat nm enc = Ok v ∧ sec_data v = sec_data b;
  tags_inverse k tags : encryptor_ok k → Forall tag_ok tags → Forall (tag_small text_max) tags →
    ∃ enc, encrypt_entry_tags k tags = Ok enc ∧ decrypt_entry_tags k enc = Ok tags;
}.

(** [decode_utf8]. *)
Definition decode_utf8 (value : bytes) : sres string :=
  map_err (StorageError.err_map_kind StorageError.Encryption) (from_utf8 value).

(** ** [NullEncryptor] *)

Inductive NullEncryptor : Set := null_encryptor.

Definition null_encrypt_tag (tag : EntryTag) : EncEntryTag :=
  match tag with
  | EntryTag.Encrypted name value => mkEncTag (as_bytes name) (as_bytes value) false
  | EntryTag.Plaintext name value => mkEncTag (as_bytes name) (as_bytes value) true
  end.

Definition null_decrypt_tag (tag : EncEntryTag) : sres EntryTag :=
  name ← decode_utf8 (enc_tag_name tag);
  value ← decode_utf8 (enc_tag_value tag);
  mret (if enc_tag_plaintext tag then EntryTag.Plaintext name value
        else EntryTag.Encrypted name value).

#[export] Instance NullEncryptor_encryptor : EntryEncryptor NullEncryptor := {
  encrypt_entry_category _ category := Ok (into_vec category).1;
  encrypt_entry_name _ name := Ok (into_vec name).1;
  encrypt_entry_value _ _ _ _ value := Ok (into_vec value).1;
  encrypt_entry_tags _ tags := Ok (List.map null_encrypt_tag tags);
  decrypt_entry_category _ := decode_utf8;
  decrypt_entry_name _ := decode_utf8;
  decrypt_entry_value _ _ _ enc_value := Ok (secret_of enc_value);
  decrypt_entry_tags _ enc_tags := mapM null_decrypt_tag enc_tags;
}.

(** ** Profile keys *)

Record ProfileKeyImpl (Key : Type) := mkProfileKey {
  category_key : Key;
  name_key : Key;
  item_hmac_key : HmacKey;
  tag_name_key : Key;
  tag_value_key : Key;
  tags_hmac_key : HmacKey;
}.
Arguments mkProfileKey {Key}.
Arguments category_key {Key}.
Arguments name_key {Key}.
Arguments item_hmac_key {Key}.
Arguments tag_name_key {Key}.
Arguments tag_value_key {Key}.
Arguments tags_hmac_key {Key}.

Section ProfileKey.
Context `{Allocator} `{Hmac} {Key : Type} `{KeyAeadInPlace Key} `{FromKeyDerivation Key}.
Abbreviation ProfileKey := (ProfileKeyImpl Key).

Definition encrypted_size (k : Key) (len : nat) : nat :=
  (len + nonce_length (aead_params k) + tag_length (aead_params k))%nat.

(** [prepare_input]: a buffer with room for the nonce and the tag. *)
Definition prepare_input (k : Key) (input : bytes) : SecretBytes :=
  extend_from_slice input (with_capacity (encrypted_size k (length input))).

Definition encrypt_searchable (buffer : SecretBytes) (enc_key : Key) (hmac_key : HmacKey)
    : sres bytes :=
  nonce ← from_cres (array_from_key_derivation (nonce_length (aead_params enc_key))
    (hmac_derive hmac_key [as_ref buffer]));
  '(buffer, _) ← from_cres (encrypt_in_place enc_key nonce [] buffer);
  buffer ← from_cres (buffer_insert 0 nonce buffer);
  mret (into_vec buffer).1.

Definition encrypt (rng : nat → bytes) (buffer : SecretBytes) (enc_key : Key) : sres bytes :=
  let nonce := rng (nonce_length (aead_params enc_key)) in
  '(buffer, _) ← from_cres (encrypt_in_place enc_key nonce [] buffer);
  buffer ← from_cres (buffer_insert 0 nonce buffer);
  mret (into_vec buffer).1.

Definition decrypt (ciphertext : bytes) (enc_key : Key) : sres SecretBytes :=
  let nonce_len := nonce_length (aead_params enc_key) in
  if (length ciphertext <? nonce_len)%nat
  then Err (StorageError.from_msg StorageError.Encryption "invalid encrypted value") else
  let buffer := secret_of ciphertext in
  nonce ← array_from_slice nonce_len (take nonce_len (as_ref buffer));
  buffer ← from_cres (buffer_remove 0 nonce_len buffer);
  from_cres (decrypt_in_place enc_key nonce [] buffer).

(** The HMAC input of the key of an entry's value. *)
Definition value_key_inputs (category name : bytes) : list bytes :=
  [u32_be (length category); category; u32_be (length name); name].

Definition derive_value_key (self : ProfileKey) (category name : bytes) : sres Key :=
  from_cres (from_key_derivation
    (hmac_derive (item_hmac_key self) (value_key_inputs category name))).

Definition encrypt_tag_name (self : ProfileKey) (name : SecretBytes) : sres bytes :=
  encrypt_searchable name (tag_name_key self) (tags_hmac_key self).
Definition encrypt_tag_value (self : ProfileKey) (value : SecretBytes) : sres bytes :=
  encrypt_searchable value (tag_value_key self) (tags_hmac_key self).
Definition decrypt_tag_name (self : ProfileKey) (enc_tag_name : bytes) : sres SecretBytes :=
  decrypt enc_tag_name (tag_name_key self).
Definition decrypt_tag_value (self : ProfileKey) (enc_tag_value : bytes) : sres SecretBytes :=
  decrypt enc_tag_value (tag_value_key self).

Definition profile_encrypt_tag (self : ProfileKey) (tag : EntryTag) : sres EncEntryTag :=
  match tag with
  | EntryTag.Plaintext name value =>
      name ← encrypt_tag_name self (secret_of (as_bytes name));
      mret (mkEncTag name (as_bytes value) true)
  | EntryTag.Encrypted name value =>
      name ← encrypt_tag_name self (secret_of (as_bytes name));
      value ← encrypt_tag_value self (secret_of (as_bytes value));
      mret (mkEncTag name value false)
  end.

Definition decrypt_text (r : sres SecretBytes) : sres string :=
  b ← r; decode_utf8 (into_vec b).1.

Definition profile_decrypt_tag (self : ProfileKey) (tag : EncEntryTag) : sres EntryTag :=
  name ← decrypt_text (decrypt_tag_name self (enc_tag_name tag));
  if enc_tag_plaintext tag then
    value ← decode_utf8 (enc_tag_value tag);
    mret (EntryTag.Plaintext name value)
  else
    value ← decrypt_text (decrypt_tag_value self (enc_tag_value tag));
    mret (EntryTag.Encrypted name value).

#[export] Instance ProfileKey_encryptor : EntryEncryptor ProfileKey := {
  encrypt_entry_category self category :=
    encrypt_searchable category (category_key self) (item_hmac_key self);
  encrypt_entry_name self name := encrypt_searchable name (name_key self) (item_hmac_key self);
  encrypt_entry_value self rng category name value :=
    value_key ← derive_value_key self category name;
    encrypt rng value value_key;
  encrypt_entry_tags self tags := mapM (profile_encrypt_tag self) tags;
  decrypt_entry_category self enc_category := decrypt_text (decrypt enc_category (category_key self));
  decrypt_entry_name self enc_name := decrypt_text (decrypt enc_name (name_key self));
  decrypt_entry_value self category name enc_value :=
    value_key ← derive_value_key self category name;
    decrypt enc_value value_key;
  decrypt_entry_tags self enc_tags := mapM (profile_decrypt_tag self) enc_tags;
}.

(** [ProfileKeyImpl::new]: six keys from fresh randomness. *)
Definition profile_key_new (key_random : sres Key) (key_random' : sres Key)
    (key_random'' key_random''' : sres Key) (hmac_random hmac_random' : sres HmacKey)
    : sres ProfileKey :=
  category_key ← key_random;
  name_key ← key_random';
  item_hmac_key ← hmac_random;
  tag_name_key ← key_random'';
  tag_value_key ← key_random''';
  tags_hmac_key ← hmac_random';
  mret (mkProfileKey category_key name_key item_hmac_key tag_name_key tag_value_key tags_hmac_key).

Section Cbor.
(** [serde_cbor] on the derived representation. *)
Context (cbor_to_vec : ProfileKey → res string bytes) (cbor_from_slice : bytes → res string ProfileKey).

Definition profile_key_to_bytes (self : ProfileKey) : sres SecretBytes :=
  map_err (StorageError.err_map StorageError.Unexpected "Error serializing profile key")
    (secret_of <$> cbor_to_vec self).

Definition profile_key_from_slice (input : bytes) : sres ProfileKey :=
  map_err (StorageError.err_map StorageError.Unsupported "Invalid profile key")
    (cbor_from_slice input).
End Cbor.

End ProfileKey.

(** ** Lemmas *)

Lemma byte_of_inj a b : byte_of a = byte_of b → (a mod 256 = b mod 256)%N.
Proof.
  unfold byte_of. pose proof (N.mod_lt a 256 ltac:(lia)). pose proof (N.mod_lt b 256 ltac:(lia)).
  destruct (Byte.of_N (a mod 256)) as [x|] eqn:Ex; [|by apply Byte.of_N_None_iff in Ex; lia].
  destruct (Byte.of_N (b mod 256)) as [y|] eqn:Ey; [|by apply Byte.of_N_None_iff in Ey; lia].
  cbn. intros ->. apply Byte.to_of_N in Ex, Ey. congruence.
Qed.

Lemma u32_be_inj a b :
  (Z.of_nat a < 2 ^ 32)%Z → (Z.of_nat b < 2 ^ 32)%Z → u32_be a = u32_be b → a = b.
Proof.
  intros Ha Hb E. unfold u32_be in E.
  injection E as E1 E2 E3 E4.
  apply byte_of_inj in E1, E2, E3, E4. apply Nat2N.inj.
  assert (Ha' : (N.of_nat a < 4294967296)%N) by lia.
  assert (Hb' : (N.of_nat b < 4294967296)%N) by lia. revert Ha' Hb' E1 E2 E3 E4. clear.
  generalize (N.of_nat a) (N.of_nat b). intros n m Hn Hm. 
  assert (S : ∀ k, (k < 4294967296)%N → k = (((k / 16777216) mod 256) * 16777216
    + ((k / 65536) mod 256) * 65536 + ((k / 256) mod 256) * 256 + k mod 256)%N).
  { intros k Hk. change 65536%N with (256 * 256)%N at 1. change 16777216%N with (256 * 256 * 256)%N at 1.
    rewrite <- !N.Div0.div_div.
    pose proof (N.div_mod' k 256). pose proof (N.div_mod' (k / 256) 256).
    pose proof (N.div_mod' (k / 256 / 256) 256).
    assert (k / 256 / 256 / 256 < 256)%N.
    { rewrite !N.Div0.div_div. apply N.Div0.div_lt_upper_bound. lia. }
    rewrite (N.mod_small (k / 256 / 256 / 256)) by done. lia. }
  intros E1 E2 E3 E4. rewrite (S n Hn), (S m Hm), E1, E2, E3, E4. done.
Qed.

(** The HMAC input determines category and name. *)
Lemma value_key_inputs_inj c1 n1 c2 n2 :
  (Z.of_nat (length c1) < 2 ^ 32)%Z → (Z.of_nat (length c2) < 2 ^ 32)%Z →
  concat (value_key_inputs c1 n1) = concat (value_key_inputs c2 n2) → c1 = c2 ∧ n1 = n2.
Proof.
  intros H1 H2 E. unfold value_key_inputs in E. cbn [concat] in E. rewrite !app_nil_r in E.
  apply app_inj_1 in E as [E E']; [|done]. apply u32_be_inj in E; [|done..].
  apply app_inj_1 in E' as [-> E']; [|done]. split; [done|].
  by apply app_inj_1 in E' as [_ ?].
Qed.

Class LawfulDerivation (K : Type) `{LawfulAead K} `{FromKeyDerivation K} `{Hmac} := {
  nonce_fits (k : K) : (nonce_length (aead_params k) ≤ hmac_output_size)%nat;
  derived_fits : (derived_size (K := K) ≤ hmac_output_size)%nat;
  derived_ok (derive : nat → cres bytes) d :
    derive (derived_size (K := K)) = Ok d → length d = derived_size (K := K) →
    ∃ k, from_key_derivation derive = Ok k ∧ key_ok k;
  (** The sizes are those of the key type. *)
  params_const (k k' : K) : aead_params k = aead_params k';
}.

Lemma hmac_derive_ok `{Hmac} key inputs n :
  (n ≤ hmac_output_size)%nat →
  hmac_derive key inputs n = Ok (take n (hmac (hmac_key_bytes key) (concat inputs)))
  ∧ length (take n (hmac (hmac_key_bytes key) (concat inputs))) = n.
Proof.
  intros Hn. unfold hmac_derive. rewrite (proj2 (Nat.ltb_ge _ _)) by done.
  split; [done|]. rewrite length_take, hmac_size. lia.
Qed.

Lemma secret_of_inv b : sec_inv (secret_of b).
Proof. split; [|constructor]. unfold sec_ok. cbn. lia. Qed.

Section ProfileLemmas.
Context `{Allocator} {Key : Type}.
Context `{HA : KeyAeadInPlace Key} {HL : LawfulAead Key} `{HF : FromKeyDerivation Key} `{HH : Hmac}.
Context {HD : LawfulDerivation Key}.

(** The deterministic nonce of a text, and its encrypted form. *)
Definition search_nonce (enc_key : Key) (hmac_key : HmacKey) (m : bytes) : bytes :=
  take (nonce_length (aead_params enc_key)) (hmac (hmac_key_bytes hmac_key) m).

Definition searchable (enc_key : Key) (hmac_key : HmacKey) (m : bytes) : bytes :=
  search_nonce enc_key hmac_key m ++ sealed enc_key (search_nonce enc_key hmac_key m) [] m.

Lemma search_nonce_length k h m : length (search_nonce k h m) = nonce_length (aead_params k).
Proof. unfold search_nonce. rewrite length_take, hmac_size. pose proof (nonce_fits k). lia. Qed.

(** The shared tail of both encryptions. *)
Lemma seal_and_prefix (k : Key) nonce (b : SecretBytes) :
  key_ok k → length nonce = nonce_length (aead_params k) → sec_inv b →
  (length (sec_data b) ≤ msg_max (K := Key))%nat →
  ('(buffer, _) ← from_cres (encrypt_in_place k nonce [] b);
   buffer ← from_cres (buffer_insert 0 nonce buffer);
   mret (into_vec buffer).1 : sres bytes)
  = Ok (nonce ++ sealed k nonce [] (sec_data b)).
Proof.
  intros Hk Hn Hb Hm.
  pose proof (encrypt_spec (B := SecretBytes) k nonce [] b Hk Hn) as He.
  destruct (He Hb Hm) as (b1 & -> & Hb1 & E1). cbn [from_cres map_err].
  rewrite (bind_ok (Ok _) _ _ eq_refl). cbv beta iota.
  pose proof (insert_spec (B := SecretBytes) b1 0 nonce) as Hi.
  destruct (Hi Hb1) as (b2 & -> & Hb2 & E2); [lia|]. cbn [from_cres map_err].
  rewrite (bind_ok (Ok _) _ _ eq_refl). cbn in E1, E2 |- *. by rewrite E2, E1.
Qed.

Lemma encrypt_searchable_spec (k : Key) h (b : SecretBytes) :
  key_ok k → sec_inv b → (length (sec_data b) ≤ msg_max (K := Key))%nat →
  encrypt_searchable b k h = Ok (searchable k h (sec_data b)).
Proof.
  intros Hk Hb Hm. unfold encrypt_searchable, array_from_key_derivation, array_try_new_with.
  rewrite length_replicate.
  destruct (hmac_derive_ok h [as_ref b] _ (nonce_fits k)) as [-> _]. cbn [concat].
  rewrite app_nil_r. cbn [from_cres map_err].
  rewrite (bind_ok (Ok _) _ _ eq_refl).
  apply seal_and_prefix; [done|apply search_nonce_length|done..].
Qed.

Lemma decrypt_sealed (k : Key) nonce m :
  key_ok k → length nonce = nonce_length (aead_params k) → (length m ≤ msg_max (K := Key))%nat →
  ∃ v, decrypt (nonce ++ sealed k nonce [] m) k = Ok v ∧ sec_data v = m ∧ sec_inv v.
Proof.
  intros Hk Hn Hm. unfold decrypt. rewrite length_app, (proj2 (Nat.ltb_ge _ _)) by lia.
  cbn [as_ref secret_buffer secret_of secret_from_vec sec_data].
  rewrite <- Hn, take_app_length. unfold array_from_slice. rewrite Nat.eqb_refl. run_bind.
  destruct (remove_spec (B := SecretBytes) (secret_of (nonce ++ sealed k nonce [] m)) 0 (length nonce)) as (b & -> & Hb & E);
    [apply secret_of_inv|lia|cbn; lens|].
  cbn [as_ref secret_buffer secret_of secret_from_vec sec_data take] in E.
  rewrite drop_app_length in E. cbn [app from_cres map_err mbind res_bind] in *.
  pose proof (decrypt_spec (B := SecretBytes) k nonce [] b m Hk Hn) as Hd.
  destruct (Hd Hb Hm E) as (v & -> & Hv & Ev).
  by exists v.
Qed.

Lemma decrypt_searchable (k : Key) h m :
  key_ok k → (length m ≤ msg_max (K := Key))%nat →
  ∃ v, decrypt (searchable k h m) k = Ok v ∧ sec_data v = m ∧ sec_inv v.
Proof. intros Hk Hm. apply decrypt_sealed; [done|apply search_nonce_length|done]. Qed.

Lemma searchable_inj (k : Key) h m1 m2 :
  key_ok k → (length m1 ≤ msg_max (K := Key))%nat → (length m2 ≤ msg_max (K := Key))%nat →
  searchable k h m1 = searchable k h m2 → m1 = m2.
Proof.
  intros Hk H1 H2 E. destruct (decrypt_searchable k h m1 Hk H1) as (v1 & D1 & <- & _).
  destruct (decrypt_searchable k h m2 Hk H2) as (v2 & D2 & <- & _).
  rewrite E, D2 in D1. congruence.
Qed.

Lemma decrypt_text_searchable (k : Key) h s :
  key_ok k → str_ok s → (length (as_bytes s) ≤ msg_max (K := Key))%nat →
  decrypt_text (decrypt (searchable k h (as_bytes s)) k) = Ok s.
Proof.
  intros Hk Hs Hm. destruct (decrypt_searchable k h (as_bytes s) Hk Hm) as (v & -> & E & _).
  unfold decrypt_text. cbn. rewrite E. unfold decode_utf8. by rewrite from_utf8_str.
Qed.

(** All the keys of a profile are keys of their type. *)
Definition profile_ok (pk : ProfileKeyImpl Key) : Prop :=
  key_ok (category_key pk) ∧ key_ok (name_key pk) ∧ key_ok (tag_name_key pk)
  ∧ key_ok (tag_value_key pk).

Lemma derive_value_key_ok pk c n :
  ∃ k, derive_value_key pk c n = Ok k ∧ key_ok k.
Proof.
  unfold derive_value_key.
  destruct (hmac_derive_ok (item_hmac_key pk) (value_key_inputs c n) _ (derived_fits (K := Key)))
    as [E El].
  destruct (derived_ok _ _ E El) as (k & -> & Hk). by exists k.
Qed.

(** The encrypted form of a tag. *)
Definition enc_tag (pk : ProfileKeyImpl Key) (t : EntryTag) : EncEntryTag :=
  let name := searchable (tag_name_key pk) (tags_hmac_key pk) (as_bytes (EntryTag.name t)) in
  match t with
  | EntryTag.Plaintext _ v => mkEncTag name (as_bytes v) true
  | EntryTag.Encrypted _ v =>
      mkEncTag name (searchable (tag_value_key pk) (tags_hmac_key pk) (as_bytes v)) false
  end.

Lemma encrypt_tag_spec pk t :
  profile_ok pk → tag_small (msg_max (K := Key)) t → profile_encrypt_tag pk t = Ok (enc_tag pk t).
Proof.
  intros (_ & _ & Hn & Hv) [Sn Sv]. destruct t as [n v|n v]; cbn in *;
    unfold encrypt_tag_name, encrypt_tag_value;
    rewrite encrypt_searchable_spec by (done || apply secret_of_inv); cbn; [|done].
  by rewrite encrypt_searchable_spec by (done || apply secret_of_inv).
Qed.

Lemma decrypt_tag_spec pk t :
  profile_ok pk → tag_ok t → tag_small (msg_max (K := Key)) t →
  profile_decrypt_tag pk (enc_tag pk t) = Ok t.
Proof.
  intros (_ & _ & Hn & Hv) [On Ov] [Sn Sv]. unfold profile_decrypt_tag, decrypt_tag_name, decrypt_tag_value.
  destruct t as [n v|n v];
    cbn [enc_tag enc_tag_name enc_tag_value enc_tag_plaintext EntryTag.name EntryTag.value] in *;
    rewrite decrypt_text_searchable by done; run_bind.
  - by rewrite decrypt_text_searchable.
  - unfold decode_utf8. by rewrite from_utf8_str.
Qed.

Lemma encrypt_tags_spec pk tags :
  profile_ok pk → Forall (tag_small (msg_max (K := Key))) tags →
  mapM (profile_encrypt_tag pk) tags = Ok (List.map (enc_tag pk) tags).
Proof.
  intros Hpk Hs. apply mapM_ok. eapply Forall_impl; [exact Hs|].
  intros t Ht. by apply encrypt_tag_spec.
Qed.

Lemma decrypt_tags_spec pk tags :
  profile_ok pk → Forall tag_ok tags → Forall (tag_small (msg_max (K := Key))) tags →
  mapM (profile_decrypt_tag pk) (List.map (enc_tag pk) tags) = Ok tags.
Proof.
  intros Hpk Ho. induction Ho as [|t tags Ht _ IH]; intros Hs; [done|].
  inversion Hs. cbn [List.map]. by rewrite mapM_cons, decrypt_tag_spec, IH by done.
Qed.

#[export] Instance ProfileKey_lawful : LawfulEncryptor (ProfileKeyImpl Key).
Proof.
  refine {| encryptor_ok := profile_ok; text_max := msg_max (K := Key);
    enc_category pk m := searchable (category_key pk) (item_hmac_key pk) m;
    enc_name pk m := searchable (name_key pk) (item_hmac_key pk) m |}.
  - intros pk b (Hk & _) Hb Hm. by apply encrypt_searchable_spec.
  - intros pk b (_ & Hk & _) Hb Hm. by apply encrypt_searchable_spec.
  - intros pk s (Hk & _) Hs Hm. by apply decrypt_text_searchable.
  - intros pk s (_ & Hk & _) Hs Hm. by apply decrypt_text_searchable.
  - intros pk rng c n b Hpk Hr Hb Hm. cbn -[derive_value_key encrypt decrypt].
    destruct (derive_value_key_ok pk c n) as (k & -> & Hk). cbn -[encrypt decrypt].
    unfold encrypt. rewrite seal_and_prefix by done.
    eexists. split; [done|].
    destruct (decrypt_sealed k (rng (nonce_length (aead_params k))) (sec_data b)) as (v & E & Ev & _);
      [done..|]. by exists v.
  - intros pk tags Hpk Ho Hs. eexists. split; [by apply encrypt_tags_spec|].
    by apply decrypt_tags_spec.
Defined.

End ProfileLemmas.

#[export] Instance NullEncryptor_lawful (max : nat) : LawfulEncryptor NullEncryptor.
Proof.
  refine {| encryptor_ok _ := True; text_max := max; enc_category _ m := m; enc_name _ m := m |};
    try done.
  - intros k s _ Hs _. cbn. unfold decode_utf8. by rewrite from_utf8_str.
  - intros k s _ Hs _. cbn. unfold decode_utf8. by rewrite from_utf8_str.
  - intros k rng c n b _ _ _ _. eexists. split; [done|]. by eexists.
  - intros k tags _ Ho _. eexists. split; [done|]. cbn. 
    induction Ho as [|t tags [Hn Hv] _ IH]; [done|]. cbn [List.map]. rewrite mapM_cons, IH.
    destruct t; unfold null_decrypt_tag, decode_utf8; cbn in *; by rewrite !from_utf8_str.
Defined.

#[export] Instance chacha_derivation_lawful `{HC : AeadCipher} {laws : CipherLaws} `{Hmac} :
  (cipher_nonce_size ≤ hmac_output_size)%nat → (cipher_key_size ≤ hmac_output_size)%nat →
  LawfulDerivation Chacha20Key.
Proof.
  intros Hn Hk. split.
  - done.
  - done.
  - intros derive d E Hd. cbn. unfold chacha_from_key_derivation, array_try_new_with.
    rewrite length_replicate. cbn in E. rewrite E. by exists (mkChacha d).
  - done.
Qed.

(** ** A toy HMAC, for examples *)

Definition toy_hmac : Hmac.
Proof.
  refine {| hmac key msg := resize 32 x00 (msg ++ key); hmac_output_size := 32 |}.
  intros. apply length_resize.
Defined.

(** ** Properties *)

(** Searchable encryption is a function of the text: two texts encrypt to the
    same bytes exactly when they are equal; the nonce, the first bytes of the
    ciphertext, is taken from the HMAC of the text, and decryption restores it. *)
Theorem encrypt_searchable_correct `{Allocator} `{LawfulDerivation Key} (k : Key) h b1 b2 :
  key_ok k → sec_inv b1 → sec_inv b2 →
  (length (sec_data b1) ≤ msg_max (K := Key))%nat → (length (sec_data b2) ≤ msg_max (K := Key))%nat →
  ∃ c1 c2, encrypt_searchable b1 k h = Ok c1 ∧ encrypt_searchable b2 k h = Ok c2
    ∧ (c1 = c2 ↔ sec_data b1 = sec_data b2)
    ∧ take (nonce_length (aead_params k)) c1
      = take (nonce_length (aead_params k)) (hmac (hmac_key_bytes h) (sec_data b1))
    ∧ ∃ v, decrypt c1 k = Ok v ∧ sec_data v = sec_data b1.
Proof.
  intros Hk Hb1 Hb2 L1 L2. rewrite !encrypt_searchable_spec by done.
  destruct (decrypt_searchable k h (sec_data b1)) as (v1 & D1 & E1 & _); [done..|].
  destruct (decrypt_searchable k h (sec_data b2)) as (v2 & D2 & E2 & _); [done..|].
  eexists _, _. split_and!; [done|done| | |by exists v1].
  - split; [|by intros ->]. intros E. rewrite E, D2 in D1. congruence.
  - unfold searchable. by rewrite take_app_length' by (symmetry; apply search_nonce_length).
Qed.

Lemma encrypt_searchable_correct_witness :
  let H1 := toy_cipher in let H2 := toy_hmac in let A := demo_allocator in
  let k := mkChacha (replicate 32 x07) in
  let h := mkHmacKey (replicate 32 x05) in
  ∃ c1 c2, encrypt_searchable (secret_of (as_bytes "name")) k h = Ok c1
    ∧ encrypt_searchable (secret_of (as_bytes "other")) k h = Ok c2
    ∧ (c1 = c2 ↔ as_bytes "name" = as_bytes "other")
    ∧ take 12 c1 = take 12 (hmac (replicate 32 x05) (as_bytes "name"))
    ∧ ∃ v, decrypt c1 k = Ok v ∧ sec_data v = as_bytes "name".
Proof.
  intros H1 H2 A k h.
  pose (HD := chacha_derivation_lawful (HC := toy_cipher) (laws := toy_cipher_laws) (H := toy_hmac)
    ltac:(cbn; lia) ltac:(cbn; lia)).
  pose proof (encrypt_searchable_correct (Key := Chacha20Key) (H := A) k h
    (secret_of (as_bytes "name")) (secret_of (as_bytes "other"))) as E.
  apply E; [reflexivity|apply secret_of_inv|apply secret_of_inv|cbn; lia|cbn; lia].
Defined.

(** The key of an entry's value is derived from an unambiguous encoding of its
    category and name: no other category and name give the same HMAC input. *)
Theorem value_key_input_unambiguous c1 n1 c2 n2 :
  (Z.of_nat (length c1) < 2 ^ 32)%Z → (Z.of_nat (length c2) < 2 ^ 32)%Z →
  concat (value_key_inputs c1 n1) = concat (value_key_inputs c2 n2) → c1 = c2 ∧ n1 = n2.
Proof. apply value_key_inputs_inj. Qed.

Lemma value_key_input_unambiguous_witness :
  as_bytes "ab" = as_bytes "ab" ∧ as_bytes "c" = as_bytes "c".
Proof.
  apply (value_key_input_unambiguous (as_bytes "ab") (as_bytes "c") (as_bytes "ab") (as_bytes "c"));
    [reflexivity|reflexivity|reflexivity].
Defined.
