(* ===== verification/Secrets.v ===== *)
(** * Values that hold secrets

    Completes the models of askar-crypto/src/buffer/secret.rs and array.rs, of
    protect/hmac_key.rs and of random.rs: how secret buffers and fixed-length keys are
    made, compared, converted and serialized, and how a secret becomes a boxed slice.
    Constant-time comparison (the crate subtle) and the serialization formats are
    third-party: parameters with what they document. *)

From S2P Require Import Prelude Words Errors Buffers Utf8 Entry Aead Protect Random.
Local Open Scope string_scope.
Local Open Scope list_scope.

(** ** Third-party code *)

(** [ConstantTimeEq] for slices. *)
Class ConstantTime := {
  ct_eq : bytes → bytes → bool;
  ct_eq_spec a b : ct_eq a b = true ↔ a = b;
}.

(** A format of serde that has byte strings: [serialize_bytes], and what
    [deserialize_bytes] passes to [visit_bytes]. *)
Class BytesFormat := {
  wire : Type;
  serialize_bytes : bytes → res string wire;
  deserialize_bytes : wire → res string bytes;
  (** [Error::invalid_length]: the length found, and what was expected. *)
  invalid_length : nat → string → string;
  bytes_format b : ∃ w, serialize_bytes b = Ok w ∧ deserialize_bytes w = Ok b;
}.

(** ** [SecretBytes] *)

Section SecretBytes.
Context `{Allocator}.

(** The initializer is given [len] zeroes and overwrites them. *)
Definition secret_new_with (len : nat) (f : bytes → bytes) : SecretBytes :=
  let slf := with_capacity len in
  let slf := vec_reserve (len - length (sec_data slf)) slf in
  let slf := set_data (resize_zero len (sec_data slf)) slf in
  as_mut_set slf (f (as_ref slf)).

Definition secret_capacity (s : SecretBytes) : nat := sec_cap s.
Definition secret_len (s : SecretBytes) : nat := length (sec_data s).
Definition secret_is_empty (s : SecretBytes) : bool := (length (sec_data s) =? 0)%nat.

Definition as_opt_str (s : SecretBytes) : option string :=
  if utf8_valid (sec_data s) then Some (string_of_bytes (sec_data s)) else None.

Definition secret_as_hex (s : SecretBytes) : bytes := hex_fmt (sec_data s).

(** [Vec::into_boxed_slice]: a vector with spare capacity moves to an allocation without,
    and leaves its bytes behind. *)
Definition vec_into_boxed_slice (v : bytes) (cap : nat) (released : list bytes) : bytes * list bytes :=
  (v, if (length v <? cap)%nat then v :: released else released).

(** The slice, and what the buffer gave back to the allocator. *)
Definition into_boxed_slice (s : SecretBytes) : bytes * list bytes :=
  let s := shrink_to_fit s in
  let '(v, emptied) := into_vec s in
  vec_into_boxed_slice v (sec_cap s) (sec_released emptied).

(** [From<&[u8]>], [From<&str>], [From<String>] and [From<Box<[u8]>>]: the vector of a
    slice is allocated for it, those of a string and of a box are taken over; [cap] is the
    capacity the string has. *)
Definition secret_from_bytes (inner : bytes) : SecretBytes := secret_from_vec inner (alloc_cap (length inner)).
Definition secret_from_str (inner : string) : SecretBytes :=
  secret_from_vec (as_bytes inner) (alloc_cap (length (as_bytes inner))).
Definition secret_from_string (inner : string) (cap : nat) : SecretBytes := secret_from_vec (as_bytes inner) cap.
Definition secret_from_box (inner : bytes) : SecretBytes := secret_from_vec inner (length inner).

Definition random_secret (len : nat) (rng : nat → bytes) : SecretBytes :=
  secret_new_with len (λ buf, rng (length buf)).

Context `{ConstantTime}.
Definition secret_eq (a b : SecretBytes) : bool := ct_eq (sec_data a) (sec_data b).
Definition secret_eq_slice (s : SecretBytes) (other : bytes) : bool := bool_decide (sec_data s = other).

Context `{BytesFormat}.
Definition secret_serialize (s : SecretBytes) : res string wire := serialize_bytes (as_ref s).
Definition secret_visit_bytes (value : bytes) : res string SecretBytes := Ok (secret_from_slice value).
Definition secret_deserialize (w : wire) : res string SecretBytes :=
  value ← deserialize_bytes w; secret_visit_bytes value.
End SecretBytes.

(** ** [ArrayKey<L>] *)

Section ArrayKey.
Context (L : nat).

Definition array_default : bytes := replicate L x00.
Definition array_new_with (f : bytes → bytes) : bytes := f array_default.
(** The array is dropped after the call. *)
Definition array_temp {R} (f : bytes → R) : R := f array_default.
Definition array_generate `{KeyMaterial R} (rng : R) : cres (R * bytes) := read_okm (length array_default) rng.

(** [TryFrom<&ArrayKey<L>> for &[u8; N]]. *)
Definition array_try_from (N : nat) (key : bytes) : option bytes := if (length key =? N)%nat then Some key else None.

Definition array_eq `{ConstantTime} (a b : bytes) : bool := ct_eq a b.

Context `{BytesFormat}.
Definition array_serialize (key : bytes) : res string wire := serialize_bytes key.
Definition array_deserialize (w : wire) : res string bytes :=
  value ← deserialize_bytes w;
  match array_visit_bytes L value with
  | Some key => Ok key
  | None => Err (invalid_length (length value) "ArrayKey")
  end.

(** [HmacKey], which serializes as the array inside. *)
Definition hmac_key_generate `{KeyMaterial R} (rng : R) : cres (R * HmacKey) :=
  '(rng, k) ← array_generate rng; mret (rng, mkHmacKey k).
Definition hmac_key_eq (a b : HmacKey) : bool := bool_decide (hmac_key_bytes a = hmac_key_bytes b).
Definition hmac_key_serialize (k : HmacKey) : res string wire := array_serialize (hmac_key_bytes k).
Definition hmac_key_deserialize (w : wire) : res string HmacKey := k ← array_deserialize w; mret (mkHmacKey k).
End ArrayKey.

(** [HmacDerive::hmac_deriver]: the deriver keeps the key and the inputs. *)
Record HmacDeriver := mkDeriver { hd_key : HmacKey; hd_inputs : list bytes }.
Definition hmac_deriver (k : HmacKey) (inputs : list bytes) : HmacDeriver := mkDeriver k inputs.
Definition derive_key_bytes `{Hmac} (d : HmacDeriver) (len : nat) : cres bytes := hmac_derive (hd_key d) (hd_inputs d) len.

(** ** Words from the deterministic generator *)

Definition next_u32 `{StreamCipher} (r : RandomDet) : RandomDet * N :=
  let '(r, buf) := det_fill_bytes 4 r in (r, le_value buf).
Definition next_u64 `{StreamCipher} (r : RandomDet) : RandomDet * N :=
  let '(r, buf) := det_fill_bytes 8 r in (r, le_value buf).

(** ** Properties *)

Section Laws.
Context `{Allocator}.

Lemma new_with_spec len f : (∀ b, length (f b) = length b) →
  sec_data (secret_new_with len f) = f (replicate len x00) ∧ sec_inv (secret_new_with len f).
Proof.
  intros Hf. unfold secret_new_with. cbn. rewrite Nat.sub_0_r. unfold vec_reserve. cbn.
  pose proof (alloc_cap_ge len) as Hc. destruct (Nat.leb_spec len (alloc_cap len)); [|lia]. cbn.
  assert (resize_zero len [] = replicate len x00) as -> by (unfold resize_zero; by rewrite resize_nil).
  split; [done|]. split; [|constructor]. unfold sec_ok. cbn. rewrite Hf. lens.
Qed.

(** A random secret has the length asked for, and the bytes of the generator. *)
Lemma random_secret_spec len rng : (∀ n, length (rng n) = n) →
  sec_data (random_secret len rng) = rng len ∧ sec_inv (random_secret len rng).
Proof.
  intros Hr. unfold random_secret. destruct (new_with_spec len (λ buf, rng (length buf))) as [-> Hi]; [auto|].
  rewrite length_replicate. auto.
Qed.

Lemma boxed_slice_data s : (into_boxed_slice s).1 = sec_data s.
Proof. unfold into_boxed_slice, shrink_to_fit. by destruct (_ <? _)%nat. Qed.

(** Where the allocator gives vectors exactly the capacity they ask for, a secret that
    becomes a boxed slice leaves nothing but zeroes behind; *)
Theorem boxed_slice_releases_zeroes s : (∀ n, alloc_cap n = n) → sec_inv s →
  Forall (Forall (λ c, c = x00)) (into_boxed_slice s).2.
Proof.
  intros Ha [Hok Hz]. unfold into_boxed_slice, shrink_to_fit, sec_ok in *.
  destruct (Nat.ltb_spec (length (sec_data s)) (sec_cap s)); cbn [into_vec secret_move sec_data sec_cap sec_released];
    unfold vec_into_boxed_slice; cbn [snd].
  - rewrite Ha, Nat.ltb_irrefl. constructor; [apply zeroed_zero|done].
  - rewrite (proj2 (Nat.ltb_ge _ _)) by lia. done.
Qed.

(** where it gives more, the secret itself may be left behind. *)
Theorem boxed_slice_may_leak s :
  (length (sec_data s) < alloc_cap (length (sec_data s)))%nat → (length (sec_data s) < sec_cap s)%nat →
  In (sec_data s) (into_boxed_slice s).2.
Proof.
  intros Ha Hc. unfold into_boxed_slice, shrink_to_fit. rewrite (proj2 (Nat.ltb_lt _ _) Hc).
  cbn [into_vec secret_move sec_data sec_cap sec_released]. unfold vec_into_boxed_slice.
  rewrite (proj2 (Nat.ltb_lt _ _) Ha). by left.
Qed.

Lemma secret_eq_spec `{ConstantTime} a b : secret_eq a b = true ↔ as_ref a = as_ref b.
Proof. apply ct_eq_spec. Qed.

(** A secret buffer of any contents, and a key of its length, survive serialization. *)
Theorem secret_serde_roundtrip `{BytesFormat} s :
  ∃ w, secret_serialize s = Ok w ∧ ∃ s', secret_deserialize w = Ok s' ∧ sec_data s' = sec_data s ∧ sec_inv s'.
Proof.
  destruct (bytes_format (sec_data s)) as (w & E & D). exists w. split; [done|]. unfold secret_deserialize. rewrite D.
  eexists. split_and!; [done..|]. split; [apply alloc_cap_ge|constructor].
Qed.
End Laws.

(** A key read from what was written for another length is refused with both lengths
    told; one of the right length is what was written. *)
Theorem hmac_key_serde `{BytesFormat} L k :
  ∃ w, hmac_key_serialize k = Ok w
  ∧ hmac_key_deserialize L w =
      if (length (hmac_key_bytes k) =? L)%nat then Ok k else Err (invalid_length (length (hmac_key_bytes k)) "ArrayKey").
Proof.
  destruct (bytes_format (hmac_key_bytes k)) as (w & E & D). exists w. split; [done|].
  unfold hmac_key_deserialize, array_deserialize, array_visit_bytes. rewrite D. cbn.
  destruct k as [b]. cbn. by destruct (length b =? L)%nat.
Qed.

(** Deriving bytes from a key: the first bytes of the code of all the inputs, or an error
    when more are asked for than the code has. *)
Lemma deriver_spec `{Hmac} k inputs len :
  derive_key_bytes (hmac_deriver k inputs) len =
  if (hmac_output_size <? len)%nat then Err (CryptoError.from_msg CryptoError.Encryption "invalid length for hmac output")
  else Ok (take len (hmac (hmac_key_bytes k) (concat inputs))).
Proof. done. Qed.

(** Words are drawn from the stream one after the other, and fit their width. *)
Lemma words_continue `{StreamCipher} r :
  let '(r1, a) := next_u32 r in
  let '(r2, b) := next_u32 r1 in
  let '(r3, c) := next_u64 r in
  r3 = r2 ∧ c = (a + 2 ^ 32 * b)%N.
Proof.
  cbn. split; [f_equal; lia|]. pose proof (key_stream_app (det_key r) (det_nonce r) (det_pos r) 4 4) as E. cbn in E.
  rewrite E, le_value_app, key_stream_length. done.
Qed.
