(* ===== verification/Kdf.v ===== *)
(** * Key derivation for key agreement

    Models askar-crypto/src/kdf/concat.rs (the Concat KDF of NIST SP 800-56A),
    ecdh_es.rs and ecdh_1pu.rs.  The hash function and the key exchange of a key
    type are third-party crates: parameters. *)

From S2P Require Import Prelude Errors Buffers Aead Protect.
Local Open Scope string_scope.
Local Open Scope list_scope.

Class Digest := {
  digest : bytes → bytes;
  digest_output_size : nat;
  digest_size m : length (digest m) = digest_output_size;
}.

Definition u32_max : N := 2 ^ 32 - 1.

(** ** Concat KDF *)

Record ConcatKDFParams := mkParams {
  kp_alg : bytes;
  kp_apu : bytes;
  kp_apv : bytes;
  kp_pub_info : bytes;
  kp_prv_info : bytes;
}.

(** What the hasher was updated with since it was last reset, and the counter. *)
Record ConcatKDFHash := mkHash {
  hasher : bytes;
  counter : nat;
}.

Definition hash_new : ConcatKDFHash := mkHash [] 1.

(** [self.counter += 1] on a [u32]. *)
Definition start_pass (h : ConcatKDFHash) : cres ConcatKDFHash :=
  if (u32_max <=? N.of_nat (counter h))%N then Panic
  else Ok (mkHash (hasher h ++ u32_be (counter h)) (S (counter h))).

Definition hash_message (data : bytes) (h : ConcatKDFHash) : ConcatKDFHash :=
  mkHash (hasher h ++ data) (counter h).

Definition params_bytes (p : ConcatKDFParams) : bytes :=
  u32_be (length (kp_alg p)) ++ kp_alg p ++ u32_be (length (kp_apu p)) ++ kp_apu p
  ++ u32_be (length (kp_apv p)) ++ kp_apv p ++ kp_pub_info p ++ kp_prv_info p.

Definition hash_params (p : ConcatKDFParams) (h : ConcatKDFHash) : ConcatKDFHash :=
  hash_message (kp_prv_info p) (hash_message (kp_pub_info p)
    (hash_message (kp_apv p) (hash_message (u32_be (length (kp_apv p)))
      (hash_message (kp_apu p) (hash_message (u32_be (length (kp_apu p)))
        (hash_message (kp_alg p) (hash_message (u32_be (length (kp_alg p))) h))))))).

Section Kdf.
Context `{Digest}.

Definition finish_pass (h : ConcatKDFHash) : ConcatKDFHash * bytes :=
  (mkHash [] (counter h), digest (hasher h)).

(** The loop of [derive_key]: what is written to the rest of the output; [None]
    when the fuel is used up. *)
Fixpoint derive_loop (fuel : nat) (message : bytes) (p : ConcatKDFParams) (h : ConcatKDFHash) (remain : nat)
    : option (cres bytes) :=
  if (remain =? 0)%nat then Some (Ok []) else
  match fuel with
  | O => None
  | S fuel =>
      match start_pass h with
      | Ok h =>
          let '(h, hashed) := finish_pass (hash_params p (hash_message message h)) in
          let cp_size := Nat.min (length hashed) remain in
          match derive_loop fuel message p h (remain - cp_size) with
          | Some r => Some (rest ← r; mret (take cp_size hashed ++ rest))
          | None => None
          end
      | Err e => Some (Err e)
      | Panic => Some Panic
      end
  end.

Definition derive_key (fuel : nat) (message : bytes) (p : ConcatKDFParams) (output_len : nat)
    : option (cres bytes) :=
  if (N.of_nat digest_output_size * u32_max - 1 <? N.of_nat output_len)%N
  then Some (Err (CryptoError.from_msg CryptoError.Usage "Exceeded max output size for concat KDF"))
  else derive_loop fuel message p hash_new output_len.

(** ** Key agreement *)

(** [KeyExchange]: the shared secret that is written to the buffer. *)
Class KeyExchange (Key : Type) := { write_key_exchange : Key → Key → cres bytes }.

Context {Key : Type} `{KeyExchange Key}.

Record EcdhEs := mkEcdhEs {
  es_ephem_key : Key;
  es_recip_key : Key;
  es_alg : bytes;
  es_apu : bytes;
  es_apv : bytes;
  es_receive : bool;
}.

Definition es_derive_key_bytes (self : EcdhEs) (output_len : nat) : cres bytes :=
  if (32 <? output_len)%nat
  then Err (CryptoError.from_msg CryptoError.Unsupported "Exceeded maximum output length") else
  kdf ← start_pass hash_new;
  z ← (if es_receive self then write_key_exchange (es_recip_key self) (es_ephem_key self)
       else write_key_exchange (es_ephem_key self) (es_recip_key self));
  let kdf := hash_message z kdf in
  let kdf := hash_params (mkParams (es_alg self) (es_apu self) (es_apv self) (u32_be (output_len * 8)) []) kdf in
  let '(_, key) := finish_pass kdf in
  if (output_len <=? length key)%nat then Ok (take output_len key) else Panic.

Record Ecdh1PU := mkEcdh1PU {
  pu_ephem_key : Key;
  pu_send_key : Key;
  pu_recip_key : Key;
  pu_alg : bytes;
  pu_apu : bytes;
  pu_apv : bytes;
  pu_cc_tag : bytes;
  pu_receive : bool;
}.

Definition pu_derive_key_bytes (self : Ecdh1PU) (output_len : nat) : cres bytes :=
  if (32 <? output_len)%nat
  then Err (CryptoError.from_msg CryptoError.Unsupported "Exceeded maximum output length") else
  if (128 <? length (pu_cc_tag self))%nat
  then Err (CryptoError.from_msg CryptoError.Unsupported "Exceeded maximum length for cc_tag") else
  kdf ← start_pass hash_new;
  kdf ← (if pu_receive self then
           ze ← write_key_exchange (pu_recip_key self) (pu_ephem_key self);
           let kdf := hash_message ze kdf in
           zs ← write_key_exchange (pu_recip_key self) (pu_send_key self);
           mret (hash_message zs kdf)
         else
           ze ← write_key_exchange (pu_ephem_key self) (pu_recip_key self);
           let kdf := hash_message ze kdf in
           zs ← write_key_exchange (pu_send_key self) (pu_recip_key self);
           mret (hash_message zs kdf));
  pub_w ← writer_write (u32_be (output_len * 8)) (from_slice (replicate 132 x00));
  pub_w ← (if (length (pu_cc_tag self) =? 0)%nat then mret pub_w else
             pub_w ← writer_write (u32_be (length (pu_cc_tag self))) pub_w;
             writer_write (pu_cc_tag self) pub_w);
  let kdf := hash_params (mkParams (pu_alg self) (pu_apu self) (pu_apv self) (as_ref pub_w) []) kdf in
  let '(_, key) := finish_pass kdf in
  if (output_len <=? length key)%nat then Ok (take output_len key) else Panic.

End Kdf.
Arguments EcdhEs Key : clear implicits.
Arguments Ecdh1PU Key : clear implicits.

(** ** Lemmas *)

Lemma hash_params_bytes p h : hash_params p h = hash_message (params_bytes p) h.
Proof. unfold hash_params, hash_message, params_bytes. cbn. by rewrite <- !app_assoc. Qed.

(** A length-prefixed field followed by anything is unambiguous. *)
Lemma field_inj a b x y :
  (Z.of_nat (length a) < 2 ^ 32)%Z → (Z.of_nat (length b) < 2 ^ 32)%Z →
  u32_be (length a) ++ a ++ x = u32_be (length b) ++ b ++ y → a = b ∧ x = y.
Proof.
  intros Ha Hb E. apply app_inj_1 in E as [E E']; [|done].
  apply u32_be_inj in E; [|done..]. by apply app_inj_1 in E'.
Qed.

Lemma writer_write_spec d w :
  (w_pos w ≤ length (w_inner w))%nat → (w_pos w + length d ≤ length (w_inner w))%nat →
  ∃ w', writer_write d w = Ok w' ∧ as_ref w' = as_ref w ++ d
    ∧ w_pos w' = (w_pos w + length d)%nat ∧ length (w_inner w') = length (w_inner w).
Proof.
  destruct w as [v p]. cbn. intros Hp Hd. unfold writer_write, write_at. cbn [w_inner w_pos].
  rewrite (proj2 (Nat.ltb_ge _ _)), (proj2 (Nat.leb_le _ _)) by lia. cbn.
  eexists. split; [done|]. cbn. split_and!; [|done|lens].
  rewrite (take_app_ge _ (_ ++ _)) by lens.
  rewrite length_take, Nat.min_l, take_app_ge by lia.
  replace (p + length d - p - length d)%nat with 0%nat by lia.
  by rewrite take_0, app_nil_r.
Qed.

Section KdfLemmas.
Context `{HD : Digest}.

(** The block of the output of a pass, as the standard defines it. *)
Definition kdf_block (message : bytes) (p : ConcatKDFParams) (i : nat) : bytes :=
  digest (u32_be i ++ message ++ params_bytes p).

Lemma start_pass_ok i : (N.of_nat i < u32_max)%N → start_pass (mkHash [] i) = Ok (mkHash (u32_be i) (S i)).
Proof. intros Hi. unfold start_pass. cbn [counter hasher]. by rewrite (proj2 (N.leb_gt _ _)). Qed.

Lemma kdf_pass message p i :
  finish_pass (hash_params p (hash_message message (mkHash (u32_be i) (S i))))
  = (mkHash [] (S i), kdf_block message p i).
Proof. unfold finish_pass, kdf_block. rewrite hash_params_bytes. cbn [hash_message hasher counter]. by rewrite <- (app_assoc (u32_be i)). Qed.

(** The loop produces the first [remain] bytes of the blocks from the counter on. *)
Lemma derive_loop_run fuel message p i n remain :
  (0 < digest_output_size)%nat → (remain ≤ fuel)%nat → (remain ≤ n * digest_output_size)%nat →
  (N.of_nat (i + n) ≤ u32_max)%N →
  derive_loop fuel message p (mkHash [] i) remain
  = Some (Ok (take remain (concat (List.map (kdf_block message p) (List.seq i n))))).
Proof.
  intros Hd. revert i n remain. induction fuel as [|fuel IH]; intros i n remain Hf Hn Hi.
  - assert (remain = 0%nat) as -> by lia. by rewrite take_0.
  - cbn [derive_loop]. destruct (Nat.eqb_spec remain 0) as [->|Hr]; [by rewrite take_0|].
    destruct n as [|n]; [lia|]. rewrite start_pass_ok by lia. rewrite kdf_pass.
    set (blk := kdf_block message p i). assert (length blk = digest_output_size) as Hb by apply digest_size.
    rewrite (IH (S i) n) by lia. cbn [mbind res_bind List.seq List.map concat]. fold blk.
    do 2 f_equal. rewrite Hb. destruct (Nat.le_gt_cases digest_output_size remain) as [Hle|Hgt].
    + rewrite Nat.min_l by done. rewrite take_ge by lia. by rewrite take_app_ge, Hb by lia.
    + rewrite Nat.min_r, Nat.sub_diag, take_0, app_nil_r by lia. by rewrite take_app_le by lia.
Qed.

(** The number of passes for an output. *)
Definition kdf_passes (output_len : nat) : nat :=
  ((output_len + digest_output_size - 1) / digest_output_size)%nat.

Lemma kdf_passes_enough n : (0 < digest_output_size)%nat → (n ≤ kdf_passes n * digest_output_size)%nat.
Proof.
  intros Hd. unfold kdf_passes.
  pose proof (Nat.div_mod_eq (n + digest_output_size - 1) digest_output_size).
  pose proof (Nat.mod_upper_bound (n + digest_output_size - 1) digest_output_size). nia.
Qed.

Lemma concat_blocks_length (f : nat → bytes) i n : (∀ j, length (f j) = digest_output_size) →
  length (concat (List.map f (List.seq i n))) = (n * digest_output_size)%nat.
Proof.
  intros Hf. revert i. induction n as [|n IH]; intros i; [done|].
  cbn [List.seq List.map concat]. rewrite length_app, Hf, IH. lia.
Qed.

(** An output of at most one block. *)
Lemma derive_one_block message p n :
  (0 < digest_output_size)%nat → (n ≤ digest_output_size)%nat → (N.of_nat n ≤ u32_max - 1)%N →
  derive_key n message p n = Some (Ok (take n (kdf_block message p 1))).
Proof.
  intros Hd Hn Hu. unfold derive_key. rewrite (proj2 (N.ltb_ge _ _)) by nia.
  unfold hash_new. rewrite (derive_loop_run n message p 1 1 n) by first [lia | done]. cbn [List.seq List.map concat].
  by rewrite app_nil_r.
Qed.

(** One pass of the hash, as both key agreements use it. *)
Lemma one_pass message p n : (n ≤ digest_output_size)%nat →
  (let '(_, key) := finish_pass (hash_params p (hash_message message (mkHash (u32_be 1) 2))) in
   if (n <=? length key)%nat then Ok (take n key) else Panic) = (Ok (take n (kdf_block message p 1)) : cres bytes).
Proof.
  intros Hn. rewrite kdf_pass. unfold kdf_block. rewrite digest_size. by rewrite (proj2 (Nat.leb_le _ _)).
Qed.
End KdfLemmas.

Section AgreementLemmas.
Context `{HD : Digest} `{HK : KeyExchange Key}.

Definition es_shared (self : EcdhEs Key) : cres bytes :=
  if es_receive self then write_key_exchange (es_recip_key self) (es_ephem_key self)
  else write_key_exchange (es_ephem_key self) (es_recip_key self).

Definition es_params (self : EcdhEs Key) (n : nat) : ConcatKDFParams :=
  mkParams (es_alg self) (es_apu self) (es_apv self) (u32_be (n * 8)) [].

Lemma es_run self n z : (n ≤ 32)%nat → (n ≤ digest_output_size)%nat → es_shared self = Ok z →
  es_derive_key_bytes self n = Ok (take n (kdf_block z (es_params self n) 1)).
Proof.
  intros Hn Hd Hz. unfold es_derive_key_bytes. rewrite (proj2 (Nat.ltb_ge _ _) Hn).
  unfold hash_new. rewrite start_pass_ok by done. run_bind. unfold es_shared in Hz. rewrite Hz.
  run_bind. by apply (one_pass z (es_params self n)).
Qed.

(** The shared secrets of ECDH-1PU, in the order they are hashed. *)
Definition pu_shared (self : Ecdh1PU Key) : cres bytes :=
  ze ← (if pu_receive self then write_key_exchange (pu_recip_key self) (pu_ephem_key self)
        else write_key_exchange (pu_ephem_key self) (pu_recip_key self));
  zs ← (if pu_receive self then write_key_exchange (pu_recip_key self) (pu_send_key self)
        else write_key_exchange (pu_send_key self) (pu_recip_key self));
  mret (ze ++ zs).

Definition pu_pub_info (self : Ecdh1PU Key) (n : nat) : bytes :=
  u32_be (n * 8)
  ++ (if (length (pu_cc_tag self) =? 0)%nat then []
      else u32_be (length (pu_cc_tag self)) ++ pu_cc_tag self).

Definition pu_params (self : Ecdh1PU Key) (n : nat) : ConcatKDFParams :=
  mkParams (pu_alg self) (pu_apu self) (pu_apv self) (pu_pub_info self n) [].

(** What is written to the buffer of 132 bytes. *)
Lemma pub_info_written (self : Ecdh1PU Key) n : (length (pu_cc_tag self) ≤ 124)%nat →
  ∃ w, (pub_w ← writer_write (u32_be (n * 8)) (from_slice (replicate 132 x00));
        if (length (pu_cc_tag self) =? 0)%nat then mret pub_w else
        (pub_w ← writer_write (u32_be (length (pu_cc_tag self))) pub_w;
         writer_write (pu_cc_tag self) pub_w)) = Ok w
    ∧ as_ref w = pu_pub_info self n.
Proof.
  intros Ht. unfold pu_pub_info.
  destruct (writer_write_spec (u32_be (n * 8)) (from_slice (replicate 132 x00))) as (w1 & -> & E1 & P1 & L1);
    [cbn; lia..|]. run_bind. cbn in P1, L1.
  destruct (length (pu_cc_tag self) =? 0)%nat; [exists w1; by rewrite E1, app_nil_r|].
  destruct (writer_write_spec (u32_be (length (pu_cc_tag self))) w1) as (w2 & -> & E2 & P2 & L2);
    [cbn; lia..|]. run_bind. cbn in P2.
  destruct (writer_write_spec (pu_cc_tag self) w2) as (w3 & -> & E3 & _); [lia..|].
  exists w3. split; [done|]. by rewrite E3, E2, E1, <- app_assoc.
Qed.

Lemma pu_run self n z : (n ≤ 32)%nat → (n ≤ digest_output_size)%nat → (length (pu_cc_tag self) ≤ 124)%nat →
  pu_shared self = Ok z →
  pu_derive_key_bytes self n = Ok (take n (kdf_block z (pu_params self n) 1)).
Proof.
  intros Hn Hd Ht Hz. unfold pu_derive_key_bytes.
  rewrite (proj2 (Nat.ltb_ge _ _) Hn), (proj2 (Nat.ltb_ge _ _)) by lia.
  unfold hash_new. rewrite start_pass_ok by done. run_bind.
  destruct (pub_info_written self n Ht) as (w & Ew & Er).
  unfold pu_shared in Hz. destruct (pu_receive self);
    bind_inv Hz; bind_inv Hz; injection Hz as <-; rewrite E; run_bind; rewrite E0; run_bind.
  all: apply bind_ok_inv in Ew as (w1 & -> & Ew); run_bind; rewrite Ew; run_bind.
  all: rewrite Er; unfold mret, res_ret; rewrite <- (one_pass (a ++ a0) (pu_params self n)) by done.
  all: unfold hash_message; cbn [hasher counter]; by rewrite <- app_assoc.
Qed.
(** A tag of 125 to 128 bytes does not fit the buffer, one above that is refused. *)
Lemma ecdh_1pu_tag_exceeds self n z : (n ≤ 32)%nat → (125 ≤ length (pu_cc_tag self) ≤ 128)%nat → pu_shared self = Ok z →
  pu_derive_key_bytes self n = Err (CryptoError.from_kind CryptoError.ExceededBuffer).
Proof.
  intros Hn Ht Hz. unfold pu_derive_key_bytes.
  rewrite (proj2 (Nat.ltb_ge _ _) Hn), (proj2 (Nat.ltb_ge _ _)) by lia.
  unfold hash_new. rewrite start_pass_ok by done. run_bind.
  destruct (writer_write_spec (u32_be (n * 8)) (from_slice (replicate 132 x00))) as (w1 & E1 & _ & P1 & L1);
    [cbn; lia..|]. cbn in P1, L1.
  destruct (writer_write_spec (u32_be (length (pu_cc_tag self))) w1) as (w2 & E2 & _ & P2 & L2);
    [cbn; lia..|]. cbn in P2.
  assert (E3 : writer_write (pu_cc_tag self) w2 = Err exceeded).
  { unfold writer_write. by rewrite (proj2 (Nat.ltb_lt _ _)) by lia. }
  unfold pu_shared in Hz. destruct (pu_receive self);
    bind_inv Hz; bind_inv Hz; rewrite E; run_bind; rewrite E0; run_bind;
    rewrite E1; run_bind; rewrite (proj2 (Nat.eqb_neq _ 0)) by lia; rewrite E2;
    run_bind; by rewrite E3.
Qed.

Lemma pu_tag_refused self n : (n ≤ 32)%nat → (128 < length (pu_cc_tag self))%nat →
  pu_derive_key_bytes self n = Err (CryptoError.from_msg CryptoError.Unsupported "Exceeded maximum length for cc_tag").
Proof.
  intros Hn Ht. unfold pu_derive_key_bytes. by rewrite (proj2 (Nat.ltb_ge _ _) Hn), (proj2 (Nat.ltb_lt _ _) Ht).
Qed.
End AgreementLemmas.

(** ** A toy digest and key exchange, for examples *)

(** The last bytes of the message and its length. *)
Definition toy_digest : Digest := {|
  digest m := resize 32 x00 (u32_be (length m) ++ rev m);
  digest_output_size := 32;
  digest_size m := length_resize _ 32 x00;
|}.

(** Keys are exponents' bytes; the shared secret is their exclusive or. *)
Definition toy_exchange : KeyExchange bytes := {|
  write_key_exchange a b :=
    Ok (zip_with (λ x y, byte_of (N.lxor (byte_val x) (byte_val y))) a b);
|}.

(** ** Properties *)

(** The Concat KDF writes the first bytes of the digests of counter, message and
    parameters, the counter from one on, as the standard defines it; with as much
    fuel as there are bytes to write, the loop ends. *)
Theorem concat_kdf_correct `{Digest} message p n :
  (0 < digest_output_size)%nat → (N.of_nat (kdf_passes n) < u32_max)%N →
  ∃ key, derive_key n message p n = Some (Ok key) ∧ length key = n
    ∧ key = take n (concat (List.map (λ i, digest (u32_be i ++ message ++ params_bytes p))
                              (List.seq 1 (kdf_passes n)))).
Proof.
  intros Hd Hp. pose proof (kdf_passes_enough n Hd) as Hn.
  exists (take n (concat (List.map (kdf_block message p) (List.seq 1 (kdf_passes n))))).
  split_and!; [| |done].
  - unfold derive_key. rewrite (proj2 (N.ltb_ge _ _)) by nia.
    apply (derive_loop_run n message p 1 (kdf_passes n) n); lia.
  - rewrite length_take. rewrite (concat_blocks_length (kdf_block message p)); [lia|]. intros i. apply digest_size.
Qed.

Lemma concat_kdf_correct_witness :
  ∃ key, @derive_key toy_digest 40 [x01] (mkParams [] [] [] [] []) 40 = Some (Ok key) ∧ length key = 40%nat.
Proof.
  pose proof (@concat_kdf_correct toy_digest [x01] (mkParams [] [] [] [] []) 40) as E.
  destruct E as (key & E1 & E2 & _); [cbn; lia|vm_compute; reflexivity|]. exists key. split; [exact E1|exact E2].
Defined.

(** The hashed encoding of the parameters determines the algorithm and both
    party identifiers: no two different sets of them derive from one input. *)
Theorem kdf_params_unambiguous p q :
  Forall (λ f, (Z.of_nat (length f) < 2 ^ 32)%Z) [kp_alg p; kp_apu p; kp_apv p; kp_alg q; kp_apu q; kp_apv q] →
  hasher (hash_params p hash_new) = hasher (hash_params q hash_new) →
  kp_alg p = kp_alg q ∧ kp_apu p = kp_apu q ∧ kp_apv p = kp_apv q
  ∧ kp_pub_info p ++ kp_prv_info p = kp_pub_info q ++ kp_prv_info q.
Proof.
  rewrite !Forall_cons. intros (? & ? & ? & ? & ? & ? & _). rewrite !hash_params_bytes. cbn.
  unfold params_bytes. intros [? E]%field_inj; [|done..].
  apply field_inj in E as [? E]; [|done..]. by apply field_inj in E as [? E].
Qed.

Lemma kdf_params_unambiguous_witness :
  let p := mkParams [x41] [x42] [] [x00] [] in
  kp_alg p = kp_alg p ∧ kp_apu p = kp_apu p ∧ kp_apv p = kp_apv p
  ∧ kp_pub_info p ++ kp_prv_info p = kp_pub_info p ++ kp_prv_info p.
Proof.
  intros p. pose proof (kdf_params_unambiguous p p) as E. apply E; [|reflexivity].
  repeat constructor; vm_compute; reflexivity.
Defined.

(** ECDH-ES: the two sides derive the same key when the key exchange gives both
    the same secret, and the key is the one the Concat KDF derives from it. *)
Theorem ecdh_es_agreement `{Digest} `{KeyExchange Key} ephem ephem_pub recip recip_pub alg apu apv n z :
  (0 < digest_output_size)%nat → (n ≤ 32)%nat → (n ≤ digest_output_size)%nat →
  write_key_exchange ephem recip_pub = Ok z → write_key_exchange recip ephem_pub = Ok z →
  let p := mkParams alg apu apv (u32_be (n * 8)) [] in
  ∃ key, derive_key n z p n = Some (Ok key) ∧ length key = n
    ∧ es_derive_key_bytes (mkEcdhEs ephem recip_pub alg apu apv false) n = Ok key
    ∧ es_derive_key_bytes (mkEcdhEs ephem_pub recip alg apu apv true) n = Ok key.
Proof.
  intros Hd Hn Hds Hs Hr p.
  exists (take n (kdf_block z p 1)). split_and!.
  - apply derive_one_block; [done|done|]. transitivity 32%N; [lia|done].
  - rewrite length_take. unfold kdf_block. rewrite digest_size. lia.
  - by apply (es_run (mkEcdhEs ephem recip_pub alg apu apv false) n z).
  - by apply (es_run (mkEcdhEs ephem_pub recip alg apu apv true) n z).
Qed.

Lemma ecdh_es_agreement_witness :
  let p := mkParams [x41] [] [] (u32_be 128) [] in
  ∃ key, @derive_key toy_digest 16 [x03] p 16 = Some (Ok key) ∧ length key = 16%nat
    ∧ @es_derive_key_bytes toy_digest bytes toy_exchange (mkEcdhEs [x01] [x02] [x41] [] [] false) 16 = Ok key
    ∧ @es_derive_key_bytes toy_digest bytes toy_exchange (mkEcdhEs [x01] [x02] [x41] [] [] true) 16 = Ok key.
Proof.
  intros p. pose proof (@ecdh_es_agreement toy_digest bytes toy_exchange [x01] [x01] [x02] [x02] [x41] [] [] 16 [x03]) as E.
  apply E; [cbn; lia|lia|cbn; lia|reflexivity|reflexivity].
Defined.

(** ECDH-1PU: the two sides derive the same key when both exchanges agree, the
    one the Concat KDF derives from the two secrets with the length of the key
    and the authentication tag, if there is one, as public information. *)
Theorem ecdh_1pu_agreement `{Digest} `{KeyExchange Key} ephem ephem_pub send send_pub recip recip_pub
    alg apu apv cc_tag n ze zs :
  (0 < digest_output_size)%nat → (n ≤ 32)%nat → (n ≤ digest_output_size)%nat → (length cc_tag ≤ 124)%nat →
  write_key_exchange ephem recip_pub = Ok ze → write_key_exchange recip ephem_pub = Ok ze →
  write_key_exchange send recip_pub = Ok zs → write_key_exchange recip send_pub = Ok zs →
  let pub_info := u32_be (n * 8) ++ (if (length cc_tag =? 0)%nat then [] else u32_be (length cc_tag) ++ cc_tag) in
  ∃ key, derive_key n (ze ++ zs) (mkParams alg apu apv pub_info []) n = Some (Ok key) ∧ length key = n
    ∧ pu_derive_key_bytes (mkEcdh1PU ephem send recip_pub alg apu apv cc_tag false) n = Ok key
    ∧ pu_derive_key_bytes (mkEcdh1PU ephem_pub send_pub recip alg apu apv cc_tag true) n = Ok key.
Proof.
  intros Hd Hn Hds Ht He1 He2 Hs1 Hs2 pub_info.
  exists (take n (kdf_block (ze ++ zs) (mkParams alg apu apv pub_info []) 1)). split_and!.
  - apply derive_one_block; [done|done|]. transitivity 32%N; [lia|done].
  - rewrite length_take. unfold kdf_block. rewrite digest_size. lia.
  - apply (pu_run (mkEcdh1PU ephem send recip_pub alg apu apv cc_tag false) n (ze ++ zs)); try done.
    unfold pu_shared. cbn. by rewrite He1, Hs1.
  - apply (pu_run (mkEcdh1PU ephem_pub send_pub recip alg apu apv cc_tag true) n (ze ++ zs)); try done.
    unfold pu_shared. cbn. by rewrite He2, Hs2.
Qed.

Lemma ecdh_1pu_agreement_witness :
  ∃ key, @derive_key toy_digest 16 ([x05] ++ [x06])
        (mkParams [x41] [] [] (u32_be 128 ++ (u32_be 1 ++ [x99])) []) 16 = Some (Ok key) ∧ length key = 16%nat
    ∧ @pu_derive_key_bytes toy_digest bytes toy_exchange (mkEcdh1PU [x01] [x02] [x04] [x41] [] [] [x99] false) 16 = Ok key
    ∧ @pu_derive_key_bytes toy_digest bytes toy_exchange (mkEcdh1PU [x01] [x02] [x04] [x41] [] [] [x99] true) 16 = Ok key.
Proof.
  pose proof (@ecdh_1pu_agreement toy_digest bytes toy_exchange [x01] [x01] [x02] [x02] [x04] [x04] [x41] [] []
    [x99] 16 [x05] [x06]) as E.
  apply E; [cbn; lia|lia|cbn; lia|cbn; lia|reflexivity|reflexivity|reflexivity|reflexivity].
Defined.

(** Tags of 125 to 128 bytes pass the length check, but do not fit the buffer
    their encoding is built in: the derivation fails with another error. *)
Theorem ecdh_1pu_long_tag_fails `{Digest} `{KeyExchange Key} (self : Ecdh1PU Key) n z :
  (n ≤ 32)%nat → (125 ≤ length (pu_cc_tag self) ≤ 128)%nat → pu_shared self = Ok z →
  pu_derive_key_bytes self n = Err (CryptoError.from_kind CryptoError.ExceededBuffer).
Proof. apply ecdh_1pu_tag_exceeds. Qed.

Lemma ecdh_1pu_long_tag_fails_witness :
  @pu_derive_key_bytes toy_digest bytes toy_exchange
    (mkEcdh1PU [x01] [x02] [x04] [x41] [] [] (replicate 128 x99) true) 16
  = Err (CryptoError.from_kind CryptoError.ExceededBuffer).
Proof.
  pose proof (@ecdh_1pu_long_tag_fails toy_digest bytes toy_exchange
    (mkEcdh1PU [x01] [x02] [x04] [x41] [] [] (replicate 128 x99) true) 16 [x05; x06]) as E.
  apply E; [lia|vm_compute; lia|reflexivity].
Defined.
