(* ===== verification/KeyAlg.v ===== *)
(** * Key algorithms and their names

    Models askar-crypto/src/alg/mod.rs: the supported algorithms, their names,
    and the lookup of an algorithm by a name in any of its spellings. *)

From S2P Require Import Prelude Errors Buffers.
Local Open Scope string_scope.
Local Open Scope list_scope.

Module AesTypes.
Inductive t := A128Gcm | A256Gcm | A128CbcHs256 | A256CbcHs512 | A128Kw | A256Kw.
End AesTypes.

Module BlsCurves.
Inductive t := G1 | G2 | G1G2.
End BlsCurves.

Module Chacha20Types.
Inductive t := C20P | XC20P.
End Chacha20Types.

Module EcCurves.
Inductive t := Secp256r1 | Secp256k1 | Secp384r1.
End EcCurves.

Module KeyAlg.
Inductive t :=
| Aes (a : AesTypes.t)
| Bls12_381 (b : BlsCurves.t)
| Chacha20 (c : Chacha20Types.t)
| Ed25519
| X25519
| EcCurve (c : EcCurves.t).
End KeyAlg.

#[export] Instance AesTypes_eq_dec : EqDecision AesTypes.t.
Proof. solve_decision. Defined.
#[export] Instance BlsCurves_eq_dec : EqDecision BlsCurves.t.
Proof. solve_decision. Defined.
#[export] Instance Chacha20Types_eq_dec : EqDecision Chacha20Types.t.
Proof. solve_decision. Defined.
#[export] Instance EcCurves_eq_dec : EqDecision EcCurves.t.
Proof. solve_decision. Defined.
#[export] Instance KeyAlg_eq_dec : EqDecision KeyAlg.t.
Proof. solve_decision. Defined.

Definition alg_as_str (a : KeyAlg.t) : string :=
  match a with
  | KeyAlg.Aes AesTypes.A128Gcm => "a128gcm"
  | KeyAlg.Aes AesTypes.A256Gcm => "a256gcm"
  | KeyAlg.Aes AesTypes.A128CbcHs256 => "a128cbchs256"
  | KeyAlg.Aes AesTypes.A256CbcHs512 => "a256cbchs512"
  | KeyAlg.Aes AesTypes.A128Kw => "a128kw"
  | KeyAlg.Aes AesTypes.A256Kw => "a256kw"
  | KeyAlg.Bls12_381 BlsCurves.G1 => "bls12381g1"
  | KeyAlg.Bls12_381 BlsCurves.G2 => "bls12381g2"
  | KeyAlg.Bls12_381 BlsCurves.G1G2 => "bls12381g1g2"
  | KeyAlg.Chacha20 Chacha20Types.C20P => "c20p"
  | KeyAlg.Chacha20 Chacha20Types.XC20P => "xc20p"
  | KeyAlg.Ed25519 => "ed25519"
  | KeyAlg.X25519 => "x25519"
  | KeyAlg.EcCurve EcCurves.Secp256k1 => "k256"
  | KeyAlg.EcCurve EcCurves.Secp256r1 => "p256"
  | KeyAlg.EcCurve EcCurves.Secp384r1 => "p384"
  end.

(** ** Normalised names *)

Definition separator (b : byte) : bool :=
  bool_decide (b = x2d) || bool_decide (b = x5f) || bool_decide (b = x20).

(** [to_ascii_lowercase]; the bytes of a character outside ASCII are unchanged. *)
Definition to_ascii_lowercase (b : byte) : byte :=
  if (65 <=? byte_val b)%N && (byte_val b <=? 90)%N then byte_of (byte_val b + 32) else b.

(** [NormalizedIter], on the bytes of the characters. *)
Fixpoint normalized_iter (s : bytes) : bytes :=
  match s with
  | [] => []
  | c :: s => if separator c then normalized_iter s else to_ascii_lowercase c :: normalized_iter s
  end.

(** The loop of [NormalizedAlg::new]. *)
Fixpoint write_all (cs : bytes) (w : SliceWriter) : cres SliceWriter :=
  match cs with
  | [] => mret w
  | c :: cs => w ← writer_write [c] w; write_all cs w
  end.

(** The filled part of the buffer of 64 bytes. *)
Definition normalize_alg (s : string) : cres bytes :=
  w ← write_all (normalized_iter (as_bytes s)) (from_slice (replicate 64 x00));
  mret (take (w_pos w) (w_inner w)).

Definition named (a : bytes) (s : string) : bool := bool_decide (a = as_bytes s).

(** The match on the normalised name. *)
Definition alg_of_name (a : bytes) : cres KeyAlg.t :=
  if named a "a128gcm" || named a "aes128gcm" then Ok (KeyAlg.Aes AesTypes.A128Gcm) else
  if named a "a256gcm" || named a "aes256gcm" then Ok (KeyAlg.Aes AesTypes.A256Gcm) else
  if named a "a128cbchs256" || named a "aes128cbchs256" then Ok (KeyAlg.Aes AesTypes.A128CbcHs256) else
  if named a "a256cbchs512" || named a "aes256cbchs512" then Ok (KeyAlg.Aes AesTypes.A256CbcHs512) else
  if named a "a128kw" || named a "aes128kw" then Ok (KeyAlg.Aes AesTypes.A128Kw) else
  if named a "a256kw" || named a "aes256kw" then Ok (KeyAlg.Aes AesTypes.A256Kw) else
  if named a "bls12381g1" then Ok (KeyAlg.Bls12_381 BlsCurves.G1) else
  if named a "bls12381g2" then Ok (KeyAlg.Bls12_381 BlsCurves.G2) else
  if named a "bls12381g1g2" then Ok (KeyAlg.Bls12_381 BlsCurves.G1G2) else
  if named a "c20p" || named a "chacha20poly1305" then Ok (KeyAlg.Chacha20 Chacha20Types.C20P) else
  if named a "xc20p" || named a "xchacha20poly1305" then Ok (KeyAlg.Chacha20 Chacha20Types.XC20P) else
  if named a "ed25519" then Ok KeyAlg.Ed25519 else
  if named a "x25519" then Ok KeyAlg.X25519 else
  if named a "k256" || named a "secp256k1" then Ok (KeyAlg.EcCurve EcCurves.Secp256k1) else
  if named a "p256" || named a "secp256r1" then Ok (KeyAlg.EcCurve EcCurves.Secp256r1) else
  if named a "p384" || named a "secp384r1" then Ok (KeyAlg.EcCurve EcCurves.Secp384r1) else
  Err (CryptoError.from_msg CryptoError.Unsupported "Unknown key algorithm").

Definition alg_from_str (s : string) : cres KeyAlg.t := a ← normalize_alg s; alg_of_name a.

(** ** Lemmas *)

(** The other names accepted. *)
Definition alg_alias (a : KeyAlg.t) : string :=
  match a with
  | KeyAlg.Aes AesTypes.A128Gcm => "aes128gcm"
  | KeyAlg.Aes AesTypes.A256Gcm => "aes256gcm"
  | KeyAlg.Aes AesTypes.A128CbcHs256 => "aes128cbchs256"
  | KeyAlg.Aes AesTypes.A256CbcHs512 => "aes256cbchs512"
  | KeyAlg.Aes AesTypes.A128Kw => "aes128kw"
  | KeyAlg.Aes AesTypes.A256Kw => "aes256kw"
  | KeyAlg.Chacha20 Chacha20Types.C20P => "chacha20poly1305"
  | KeyAlg.Chacha20 Chacha20Types.XC20P => "xchacha20poly1305"
  | KeyAlg.EcCurve EcCurves.Secp256k1 => "secp256k1"
  | KeyAlg.EcCurve EcCurves.Secp256r1 => "secp256r1"
  | KeyAlg.EcCurve EcCurves.Secp384r1 => "secp384r1"
  | a => alg_as_str a
  end.

Lemma write_one c v p : (p + 1 ≤ length v)%nat →
  writer_write [c] (mkWriter v p) = Ok (mkWriter (take p v ++ [c] ++ drop (p + 1) v) (p + 1)).
Proof.
  intros H. unfold writer_write, write_at. cbn [w_pos w_inner length].
  by rewrite (proj2 (Nat.ltb_ge _ _)), (proj2 (Nat.leb_le _ _)) by lia.
Qed.

Lemma write_all_spec cs w :
  (w_pos w ≤ length (w_inner w))%nat →
  write_all cs w
  = if (w_pos w + length cs <=? length (w_inner w))%nat
    then Ok (mkWriter (take (w_pos w) (w_inner w) ++ cs ++ drop (w_pos w + length cs) (w_inner w))
               (w_pos w + length cs))
    else Err exceeded.
Proof.
  revert w. induction cs as [|c cs IH]; intros [v p] Hp; cbn [write_all w_pos w_inner length] in *.
  - rewrite Nat.add_0_r, (proj2 (Nat.leb_le _ _)) by done. by rewrite app_nil_l, take_drop.
  - destruct (Nat.leb_spec (p + 1) (length v)) as [H1|H1].
    + rewrite (write_one c v p H1). run_bind.
      assert (Hlen : length (take p v ++ [c] ++ drop (p + 1) v) = length v)
        by lens.
      rewrite IH; cbn [w_pos w_inner]; rewrite Hlen; [|done].
      replace (p + 1 + length cs)%nat with (p + S (length cs))%nat by lia.
      destruct (_ <=? _)%nat eqn:E; [|done]. apply Nat.leb_le in E. do 2 f_equal.
      rewrite take_app_ge by lens. rewrite length_take, Nat.min_l by lia.
      replace (p + 1 - p)%nat with 1%nat by lia. cbn [app take]. rewrite take_0, <- app_assoc. cbn [app].
      do 3 f_equal. rewrite drop_app_ge by lens. rewrite length_take, Nat.min_l by lia.
      replace (p + S (length cs) - p)%nat with (S (length cs)) by lia. cbn [drop].
      rewrite drop_drop. f_equal. lia.
    + unfold writer_write. cbn [w_pos w_inner length].
      by rewrite (proj2 (Nat.ltb_lt _ _)), (proj2 (Nat.leb_gt _ _)) by lia.
Qed.

Lemma normalize_alg_spec s :
  normalize_alg s
  = if (length (normalized_iter (as_bytes s)) <=? 64)%nat then Ok (normalized_iter (as_bytes s))
    else Err exceeded.
Proof.
  unfold normalize_alg. rewrite write_all_spec by (cbn; lia).
  cbn [w_pos w_inner from_slice Nat.add]. rewrite length_replicate, take_0, app_nil_l.
  destruct (_ <=? 64)%nat eqn:E; [|done]. cbn [mbind res_bind w_pos w_inner]. by rewrite take_app_length.
Qed.

Lemma alg_of_name_spec n a :
  alg_of_name n = Ok a ↔ n = as_bytes (alg_as_str a) ∨ n = as_bytes (alg_alias a).
Proof.
  split.
  - unfold alg_of_name.
    repeat match goal with
    | |- context [if ?b then _ else _] =>
        let E := fresh in destruct b eqn:E;
        [intros [= <-]; repeat (apply orb_true_iff in E as [E|E]); apply bool_decide_eq_true in E; by auto|]
    end. done.
  - intros [-> | ->]; destruct a as [[]|[]|[]| | |[]]; vm_compute; reflexivity.
Qed.

Lemma alg_of_name_fits n : alg_of_name n ≠ Err exceeded.
Proof. unfold alg_of_name. by repeat case_match. Qed.

(** ** Properties *)

(** A name stands for an algorithm exactly if, without dashes, underscores and
    spaces and in lower case, it is the algorithm's name or its alias; a name
    that does not fit the buffer has an error of its own. *)
Theorem alg_from_str_spec s :
  let n := normalized_iter (as_bytes s) in
  (∀ a, alg_from_str s = Ok a ↔ n = as_bytes (alg_as_str a) ∨ n = as_bytes (alg_alias a))
  ∧ (alg_from_str s = Err (CryptoError.from_kind CryptoError.ExceededBuffer) ↔ (64 < length n)%nat).
Proof.
  intros n. unfold alg_from_str. rewrite normalize_alg_spec. fold n.
  destruct (Nat.leb_spec (length n) 64) as [Hl|Hl]; run_bind.
  - split; [intros a; apply alg_of_name_spec|]. split; [|lia]. intros E. by apply alg_of_name_fits in E.
  - split; [|done]. intros a. split; [done|]. intros E. exfalso.
    assert (length n ≤ 64)%nat; [|lia]. destruct E as [-> | ->]; destruct a as [[]|[]|[]| | |[]]; vm_compute; lia.
Qed.

(** Printing an algorithm and parsing the name gives the algorithm back, and no
    two algorithms share a name. *)
Theorem alg_name_roundtrip a : alg_from_str (alg_as_str a) = Ok a.
Proof. destruct a as [[]|[]|[]| | |[]]; vm_compute; reflexivity. Qed.
