(* ===== verification/Jwk.v ===== *)
(** * JSON web keys

    Models askar-crypto/src/jwk: the set of key operations (ops.rs), the members
    of a key and how they are read and written (parts.rs), the encoder that
    writes a key to a buffer (encode.rs) and the exports built on it (mod.rs),
    with the symmetric keys of alg/chacha20.rs and alg/aes/mod.rs as encoded
    keys.  JSON text is parsed by a third-party crate: the reader is given the
    members in the order of the text.  Base64 and the digest are parameters. *)

From S2P Require Import Prelude Errors Buffers KeyAlg Wql Aead Kdf.
Local Open Scope string_scope.
Local Open Scope list_scope.

(** ** Key operations *)

Module KeyOps.
Inductive t := Encrypt | Decrypt | Sign | Verify | WrapKey | UnwrapKey | DeriveKey | DeriveBits.
End KeyOps.

#[export] Instance KeyOps_eq_dec : EqDecision KeyOps.t.
Proof. solve_decision. Defined.

Definition OPS : list KeyOps.t :=
  [KeyOps.Encrypt; KeyOps.Decrypt; KeyOps.Sign; KeyOps.Verify; KeyOps.WrapKey; KeyOps.UnwrapKey;
   KeyOps.DeriveKey; KeyOps.DeriveBits].

(** [op as usize]. *)
Definition op_bit (op : KeyOps.t) : N :=
  match op with
  | KeyOps.Encrypt => N.shiftl 1 0
  | KeyOps.Decrypt => N.shiftl 1 1
  | KeyOps.Sign => N.shiftl 1 2
  | KeyOps.Verify => N.shiftl 1 3
  | KeyOps.WrapKey => N.shiftl 1 4
  | KeyOps.UnwrapKey => N.shiftl 1 5
  | KeyOps.DeriveKey => N.shiftl 1 6
  | KeyOps.DeriveBits => N.shiftl 1 7
  end.

Definition op_as_str (op : KeyOps.t) : string :=
  match op with
  | KeyOps.Encrypt => "encrypt"
  | KeyOps.Decrypt => "decrypt"
  | KeyOps.Sign => "sign"
  | KeyOps.Verify => "verify"
  | KeyOps.WrapKey => "wrapKey"
  | KeyOps.UnwrapKey => "unwrapKey"
  | KeyOps.DeriveKey => "deriveKey"
  | KeyOps.DeriveBits => "deriveBits"
  end.

Definition op_try_from_str (key : string) : option KeyOps.t :=
  if String.eqb key "sign" then Some KeyOps.Sign else
  if String.eqb key "verify" then Some KeyOps.Verify else
  if String.eqb key "encrypt" then Some KeyOps.Encrypt else
  if String.eqb key "decrypt" then Some KeyOps.Decrypt else
  if String.eqb key "wrapKey" then Some KeyOps.WrapKey else
  if String.eqb key "unwrapKey" then Some KeyOps.UnwrapKey else
  if String.eqb key "deriveKey" then Some KeyOps.DeriveKey else
  if String.eqb key "deriveBits" then Some KeyOps.DeriveBits else None.

Record KeyOpsSet := mkOps { ops_value : N }.

Definition ops_new : KeyOpsSet := mkOps 0.
Definition ops_is_empty (s : KeyOpsSet) : bool := (ops_value s =? 0)%N.
Definition ops_from (op : KeyOps.t) : KeyOpsSet := mkOps (op_bit op).
Definition ops_or (a b : KeyOpsSet) : KeyOpsSet := mkOps (N.lor (ops_value a) (ops_value b)).
Definition ops_add (s : KeyOpsSet) (op : KeyOps.t) : KeyOpsSet := mkOps (N.lor (ops_value s) (op_bit op)).
Definition ops_has (s : KeyOpsSet) (op : KeyOps.t) : bool := negb (N.land (ops_value s) (op_bit op) =? 0)%N.
Definition ops_meet (a b : KeyOpsSet) : bool := negb (N.land (ops_value a) (ops_value b) =? 0)%N.

(** [KeyOpsIter], run to its end. *)
Definition ops_iter (s : KeyOpsSet) : list KeyOps.t := List.filter (ops_has s) OPS.

(** Why reading the members fails. *)
Inductive JwkErr :=
| InvalidType
| DuplicateField (name : string)
| MissingField (name : string)
| UnreadValue.

(** [KeyOpsVisitor::visit_seq]; the elements are read as strings. *)
Fixpoint ops_visit_seq (seq : list JsonValue) (ops : KeyOpsSet) : res JwkErr KeyOpsSet :=
  match seq with
  | [] => Ok ops
  | JString s :: seq =>
      match op_try_from_str s with
      | Some op => if ops_has ops op then Err (DuplicateField (op_as_str op)) else ops_visit_seq seq (ops_add ops op)
      | None => ops_visit_seq seq ops
      end
  | _ :: _ => Err InvalidType
  end.

Definition ops_deserialize (v : JsonValue) : res JwkErr KeyOpsSet :=
  match v with JArray l => ops_visit_seq l ops_new | _ => Err InvalidType end.

Definition ops_serialize (s : KeyOpsSet) : JsonValue := JArray (List.map (JString ∘ op_as_str) (ops_iter s)).

(** ** The members of a key *)

Record JwkParts := mkJwk {
  kty : string;
  kid : option string;
  alg : option string;
  crv : option string;
  jwk_x : option string;
  jwk_y : option string;
  jwk_d : option string;
  jwk_k : option string;
  key_ops : option KeyOpsSet;
}.

(** The variables of [visit_map]. *)
Record JwkVars := mkVars {
  v_kty : option string;
  v_kid : option string;
  v_alg : option string;
  v_crv : option string;
  v_x : option string;
  v_y : option string;
  v_d : option string;
  v_k : option string;
  v_ops : option KeyOpsSet;
}.

Definition vars_new : JwkVars := mkVars None None None None None None None None None.

(** [access.next_value::<&str>()]. *)
Definition next_str (v : JsonValue) : res JwkErr string :=
  match v with JString s => Ok s | _ => Err InvalidType end.

Definition use_ops (use : string) : KeyOpsSet :=
  if String.eqb use "enc"
  then ops_add (ops_add (ops_or (ops_from KeyOps.Encrypt) (ops_from KeyOps.Decrypt)) KeyOps.WrapKey) KeyOps.UnwrapKey
  else if String.eqb use "sig" then ops_or (ops_from KeyOps.Sign) (ops_from KeyOps.Verify)
  else ops_new.

(** One turn of the loop of [visit_map].  The value of a member that is not
    recognised is not read: [unread] is what the map does when the next key is
    asked for all the same. *)
Definition visit_member (unread : res JwkErr ()) (m : string * JsonValue) (s : JwkVars) : res JwkErr JwkVars :=
  let '(mkVars kty kid alg crv x y d k ops) := s in
  let '(key, v) := m in
  if String.eqb key "kty" then t ← next_str v; mret (mkVars (Some t) kid alg crv x y d k ops) else
  if String.eqb key "kid" then t ← next_str v; mret (mkVars kty (Some t) alg crv x y d k ops) else
  if String.eqb key "alg" then t ← next_str v; mret (mkVars kty kid (Some t) crv x y d k ops) else
  if String.eqb key "crv" then t ← next_str v; mret (mkVars kty kid alg (Some t) x y d k ops) else
  if String.eqb key "x" then t ← next_str v; mret (mkVars kty kid alg crv (Some t) y d k ops) else
  if String.eqb key "y" then t ← next_str v; mret (mkVars kty kid alg crv x (Some t) d k ops) else
  if String.eqb key "d" then t ← next_str v; mret (mkVars kty kid alg crv x y (Some t) k ops) else
  if String.eqb key "k" then t ← next_str v; mret (mkVars kty kid alg crv x y d (Some t) ops) else
  if String.eqb key "use" then
    use ← next_str v;
    let new := use_ops use in
    mret (if ops_is_empty new then s
          else mkVars kty kid alg crv x y d k (Some (ops_or (default ops_new ops) new)))
  else
  if String.eqb key "key_ops" then new ← ops_deserialize v; mret (mkVars kty kid alg crv x y d k (Some new)) else
  _ ← unread; mret s.

Fixpoint visit_members (unread : res JwkErr ()) (ms : list (string * JsonValue)) (s : JwkVars) : res JwkErr JwkVars :=
  match ms with
  | [] => mret s
  | m :: ms => s ← visit_member unread m s; visit_members unread ms s
  end.

Definition visit_map (unread : res JwkErr ()) (ms : list (string * JsonValue)) : res JwkErr JwkParts :=
  s ← visit_members unread ms vars_new;
  match v_kty s with
  | Some t => Ok (mkJwk t (v_kid s) (v_alg s) (v_crv s) (v_x s) (v_y s) (v_d s) (v_k s) (v_ops s))
  | None => Err (MissingField "kty")
  end.

(** A member written when the attribute is there. *)
Definition opt_member (key : string) (v : option string) : list (string * JsonValue) :=
  match v with Some s => [(key, JString s)] | None => [] end.

(** [Serialize for JwkParts]. *)
Definition jwk_serialize (p : JwkParts) : list (string * JsonValue) :=
  opt_member "alg" (alg p) ++ opt_member "crv" (crv p) ++ opt_member "d" (jwk_d p) ++ opt_member "k" (jwk_k p)
  ++ opt_member "kid" (kid p) ++ [("kty", JString (kty p))] ++ opt_member "x" (jwk_x p)
  ++ opt_member "y" (jwk_y p)
  ++ match key_ops p with Some ops => [("key_ops", ops_serialize ops)] | None => [] end.

(** [OptAttr::decode_base64] into an output of [n] bytes; [decode] is the
    decoder, which fails rather than write more than fits. *)
Definition decode_base64 (decode : bytes → nat → option bytes) (a : option string) (n : nat) : cres bytes :=
  match a with
  | Some s =>
      if ((n * 4 + 2) / 3 <? length (as_bytes s))%nat
      then Err (CryptoError.from_msg CryptoError.Invalid "Base64 length exceeds max")
      else ok_or (decode (as_bytes s) n) (CryptoError.from_msg CryptoError.Invalid "Base64 decoding error")
  | None => Err (CryptoError.from_msg CryptoError.Invalid "Empty attribute")
  end.

(** ** Encoding *)

(** [WriteBuffer]: the part of a buffer an encoder needs. *)
Class WriteBuffer (B : Type) := { wb_write : bytes → B → cres B }.

#[export] Instance resize_write_buffer `{ResizeBuffer B} : WriteBuffer B := {| wb_write := buffer_write |}.

(** [HashBuffer]: what was hashed so far. *)
Record HashBuffer := mkHashBuffer { hashed : bytes }.
#[export] Instance hash_write_buffer : WriteBuffer HashBuffer :=
  {| wb_write d h := Ok (mkHashBuffer (hashed h ++ d)) |}.

Module JwkEncoderMode.
Inductive t := PublicKey | SecretKey | Thumbprint.
End JwkEncoderMode.

Class JwkEncoder (E : Type) := {
  enc_alg : E → option KeyAlg.t;
  add_str : string → string → E → cres E;
  add_as_base64 : string → bytes → E → cres E;
  enc_mode : E → JwkEncoderMode.t;
}.

Definition is_public `{JwkEncoder E} (e : E) : bool :=
  match enc_mode e with JwkEncoderMode.PublicKey => true | _ => false end.
Definition is_secret `{JwkEncoder E} (e : E) : bool :=
  match enc_mode e with JwkEncoderMode.SecretKey => true | _ => false end.
Definition is_thumbprint `{JwkEncoder E} (e : E) : bool :=
  match enc_mode e with JwkEncoderMode.Thumbprint => true | _ => false end.

Record JwkBufferEncoder (B : Type) := mkEncoder {
  e_mode : JwkEncoderMode.t;
  e_buffer : B;
  e_empty : bool;
  e_alg : option KeyAlg.t;
  e_key_ops : option KeyOpsSet;
  e_kid : option string;
}.
Arguments mkEncoder {B}.
Arguments e_mode {B}.
Arguments e_buffer {B}.
Arguments e_empty {B}.
Arguments e_alg {B}.
Arguments e_key_ops {B}.
Arguments e_kid {B}.

Definition quote : byte := x22.

Section Encoder.
Context `{WriteBuffer B} (base64 : bytes → bytes).

Definition encoder_new (buffer : B) (mode : JwkEncoderMode.t) : JwkBufferEncoder B :=
  mkEncoder mode buffer true None None None.
Definition with_alg (a : option KeyAlg.t) (e : JwkBufferEncoder B) : JwkBufferEncoder B :=
  mkEncoder (e_mode e) (e_buffer e) (e_empty e) a (e_key_ops e) (e_kid e).
Definition with_key_ops (o : option KeyOpsSet) (e : JwkBufferEncoder B) : JwkBufferEncoder B :=
  mkEncoder (e_mode e) (e_buffer e) (e_empty e) (e_alg e) o (e_kid e).
Definition with_kid (k : option string) (e : JwkBufferEncoder B) : JwkBufferEncoder B :=
  mkEncoder (e_mode e) (e_buffer e) (e_empty e) (e_alg e) (e_key_ops e) k.

Definition set_buffer (b : B) (e : JwkBufferEncoder B) : JwkBufferEncoder B :=
  mkEncoder (e_mode e) b (e_empty e) (e_alg e) (e_key_ops e) (e_kid e).
Definition set_nonempty (e : JwkBufferEncoder B) : JwkBufferEncoder B :=
  mkEncoder (e_mode e) (e_buffer e) false (e_alg e) (e_key_ops e) (e_kid e).

(** [self.buffer.buffer_write(d)?]. *)
Definition enc_write (d : bytes) (e : JwkBufferEncoder B) : cres (JwkBufferEncoder B) :=
  b ← wb_write d (e_buffer e); mret (set_buffer b e).

Definition start_attr (key : string) (e : JwkBufferEncoder B) : cres (JwkBufferEncoder B) :=
  e ← (if e_empty e then e ← enc_write [x7b; quote] e; mret (set_nonempty e)
       else enc_write [x2c; quote] e);
  e ← enc_write (as_bytes key) e;
  enc_write [quote; x3a] e.

(** The base64 text is written through a [Writer]. *)
Definition write_hex_buffer (value : bytes) (e : JwkBufferEncoder B) : cres (JwkBufferEncoder B) :=
  map_err (λ _, CryptoError.from_msg CryptoError.Unexpected "Error writing to JWK buffer")
    (enc_write (base64 value) e).

Definition buffer_add_str (key value : string) (e : JwkBufferEncoder B) : cres (JwkBufferEncoder B) :=
  e ← start_attr key e;
  e ← enc_write [quote] e;
  e ← enc_write (as_bytes value) e;
  enc_write [quote] e.

Definition buffer_add_as_base64 (key : string) (value : bytes) (e : JwkBufferEncoder B)
    : cres (JwkBufferEncoder B) :=
  e ← start_attr key e;
  e ← enc_write [quote] e;
  e ← write_hex_buffer value e;
  enc_write [quote] e.

#[export] Instance buffer_encoder : JwkEncoder (JwkBufferEncoder B) := {
  enc_alg := e_alg;
  add_str := buffer_add_str;
  add_as_base64 := buffer_add_as_base64;
  enc_mode := e_mode;
}.

(** The loop over the operations in [finalize]. *)
Fixpoint write_ops (idx : nat) (ops : list KeyOps.t) (e : JwkBufferEncoder B) : cres (JwkBufferEncoder B) :=
  match ops with
  | [] => mret e
  | op :: ops =>
      e ← enc_write (if (0 <? idx)%nat then [x2c; quote] else [quote]) e;
      e ← enc_write (as_bytes (op_as_str op)) e;
      e ← enc_write [quote] e;
      write_ops (S idx) ops e
  end.

Definition finalize (e : JwkBufferEncoder B) : cres B :=
  e ← match e_key_ops e with
      | Some ops =>
          e ← start_attr "key_ops" e;
          e ← write_ops 0 (ops_iter ops) e;
          enc_write [x5d] e
      | None => mret e
      end;
  e ← match e_kid e with Some kid => buffer_add_str "kid" kid e | None => mret e end;
  e ← (if e_empty e then mret e else enc_write [x7d] e);
  mret (e_buffer e).

End Encoder.

(** ** Exporting keys *)

Class ToJwk (K : Type) := { encode_jwk {E} `{JwkEncoder E} : K → E → cres E }.

(** [ToJwk] of the symmetric keys, with the name of the algorithm; the code is
    the same for ChaCha20 and AES keys. *)
Definition symmetric_encode_jwk {E} `{JwkEncoder E} (jwk_alg : string) (key : bytes) (enc : E) : cres E :=
  if is_public enc
  then Err (CryptoError.from_msg CryptoError.Unsupported "Cannot export as a public key") else
  enc ← (if negb (is_thumbprint enc) then add_str "alg" jwk_alg enc else mret enc);
  enc ← add_as_base64 "k" key enc;
  add_str "kty" "oct" enc.

Definition chacha_jwk_alg (t : Chacha20Types.t) : string :=
  match t with Chacha20Types.C20P => "C20P" | Chacha20Types.XC20P => "XC20P" end.

Definition chacha_encode_jwk {E} `{JwkEncoder E} (t : Chacha20Types.t) (key : Chacha20Key) (enc : E) : cres E :=
  symmetric_encode_jwk (chacha_jwk_alg t) (chacha_bytes key) enc.

Section Exporting.
Context `{ToJwk K} (base64 : bytes → bytes).

Definition to_jwk_public (key : K) (a : option KeyAlg.t) : cres bytes :=
  let e := with_alg a (encoder_new ([] : bytes) JwkEncoderMode.PublicKey) in
  e ← encode_jwk (E := JwkBufferEncoder bytes) (H := buffer_encoder base64) key e;
  finalize e.

Definition to_jwk_secret `{Allocator} (key : K) (a : option KeyAlg.t) : cres SecretBytes :=
  let e := with_alg a (encoder_new (with_capacity 128) JwkEncoderMode.SecretKey) in
  e ← encode_jwk (E := JwkBufferEncoder SecretBytes) (H := buffer_encoder base64) key e;
  finalize e.

(** The digest of the encoding, as base64 in a buffer of 43 bytes. *)
Definition write_jwk_thumbprint `{Digest} {B} `{WriteBuffer B} (key : K) (a : option KeyAlg.t) (output : B) : cres B :=
  let e := with_alg a (encoder_new (mkHashBuffer []) JwkEncoderMode.Thumbprint) in
  e ← encode_jwk (E := JwkBufferEncoder HashBuffer) (H := buffer_encoder base64) key e;
  h ← finalize e;
  let text := base64 (digest (hashed h)) in
  if (43 <? length text)%nat
  then Err (CryptoError.from_msg CryptoError.Unexpected "Base64 encoding error")
  else wb_write text output.

End Exporting.

(** ** Serialising keys with serde *)

(** The encoder of [JwkSerialize]: the entries given to the serializer, which
    may refuse one. *)
Record MapEncoder := mkMapEncoder {
  m_mode : JwkEncoderMode.t;
  m_alg : option KeyAlg.t;
  m_map : list (string * JsonValue);
}.

Section Serialize.
Context (base64 : bytes → bytes) (accepts : string * JsonValue → bool).

Definition serialize_entry (key : string) (v : JsonValue) (e : MapEncoder) : option MapEncoder :=
  if accepts (key, v) then Some (mkMapEncoder (m_mode e) (m_alg e) (m_map e ++ [(key, v)])) else None.

Definition map_add_str (key value : string) (e : MapEncoder) : cres MapEncoder :=
  ok_or (serialize_entry key (JString value) e)
    (CryptoError.from_msg CryptoError.Unexpected "Error serializing JWK").

(** By way of a buffer of 256 bytes. *)
Definition map_add_as_base64 (key : string) (value : bytes) (e : MapEncoder) : cres MapEncoder :=
  w ← map_err (λ _, CryptoError.from_msg CryptoError.Unexpected "Error writing to JWK buffer")
    (writer_write (base64 value) (from_slice (replicate 256 x00)));
  ok_or (serialize_entry key (JString (string_of_bytes (as_ref w))) e)
    (CryptoError.from_msg CryptoError.Unexpected "Error serializing JWK").

#[export] Instance map_encoder : JwkEncoder MapEncoder := {
  enc_alg := m_alg;
  add_str := map_add_str;
  add_as_base64 := map_add_as_base64;
  enc_mode := m_mode;
}.

(** [JwkSerialize::serialize]: the entries, or the message of the error. *)
Definition jwk_serialize_key `{ToJwk K} (mode : JwkEncoderMode.t) (key : K) (a : option KeyAlg.t)
    (ops : option KeyOpsSet) (id : option string) : res string (list (string * JsonValue)) :=
  e ← map_err CryptoError.message
    (encode_jwk (E := MapEncoder) (H := map_encoder) key (mkMapEncoder mode a []));
  e ← match ops with
      | Some ops => ok_or (serialize_entry "key_ops" (ops_serialize ops) e) "Error serializing JWK"
      | None => mret e
      end;
  e ← match id with
      | Some id => ok_or (serialize_entry "kid" (JString id) e) "Error serializing JWK"
      | None => mret e
      end;
  mret (m_map e).
End Serialize.

(** ** Lemmas *)

(** A set of the operations there are. *)
Definition ops_ok (s : KeyOpsSet) : Prop := (ops_value s < 256)%N.

Lemma ops_roundtrip s : ops_ok s → ops_deserialize (ops_serialize s) = Ok s.
Proof.
  destruct s as [n]. unfold ops_ok. cbn [ops_value]. intros Hn.
  assert (forallb (λ k, match ops_deserialize (ops_serialize (mkOps (N.of_nat k))) with
    | Ok (mkOps m) => (m =? N.of_nat k)%N | _ => false end) (List.seq 0 256) = true) as H by (vm_compute; reflexivity).
  rewrite forallb_forall in H. specialize (H (N.to_nat n)). rewrite N2Nat.id in H.
  destruct (ops_deserialize _) as [[m]| |]; [|by rewrite in_seq in H; assert (false = true) by (apply H; lia)..].
  do 2 f_equal. apply N.eqb_eq, H, in_seq. lia.
Qed.

Lemma land_bit n i : negb (N.land n (N.shiftl 1 i) =? 0)%N = N.testbit n i.
Proof.
  rewrite N.shiftl_1_l. destruct (N.testbit n i) eqn:E.
  - apply negb_true_iff, N.eqb_neq. intros Z. apply (f_equal (λ m, N.testbit m i)) in Z.
    by rewrite N.land_spec, E, N.pow2_bits_true, N.bits_0 in Z.
  - apply negb_false_iff, N.eqb_eq, N.bits_inj. intros j. rewrite N.land_spec, N.bits_0.
    destruct (N.eq_dec i j) as [->|Hj]; [by rewrite E|]. by rewrite N.pow2_bits_false, andb_false_r.
Qed.

(** The bit of an operation. *)
Definition op_index (op : KeyOps.t) : N :=
  match op with
  | KeyOps.Encrypt => 0 | KeyOps.Decrypt => 1 | KeyOps.Sign => 2 | KeyOps.Verify => 3
  | KeyOps.WrapKey => 4 | KeyOps.UnwrapKey => 5 | KeyOps.DeriveKey => 6 | KeyOps.DeriveBits => 7
  end%N.

Lemma op_bit_index op : op_bit op = N.shiftl 1 (op_index op).
Proof. by destruct op. Qed.
Lemma op_index_inj a b : op_index a = op_index b → a = b.
Proof. by destruct a, b. Qed.

Lemma ops_has_index s op : ops_has s op = N.testbit (ops_value s) (op_index op).
Proof. unfold ops_has. by rewrite op_bit_index, land_bit. Qed.

Lemma ops_has_or a b op : ops_has (ops_or a b) op = ops_has a op || ops_has b op.
Proof. rewrite !ops_has_index. cbn [ops_or ops_value]. by rewrite N.lor_spec. Qed.

Lemma ops_has_from op op' : ops_has (ops_from op) op' = bool_decide (op = op').
Proof. by destruct op, op'. Qed.

Lemma ops_has_add s op op' : ops_has (ops_add s op) op' = ops_has s op' || bool_decide (op = op').
Proof. change (ops_add s op) with (ops_or s (ops_from op)). by rewrite ops_has_or, ops_has_from. Qed.

Lemma op_names op : op_try_from_str (op_as_str op) = Some op.
Proof. by destruct op. Qed.

(** Reading a list of names: the operations named, the unknown names skipped. *)
Definition named_ops (l : list string) : list KeyOps.t := omap op_try_from_str l.

Lemma ops_visit_names l s :
  match ops_visit_seq (List.map JString l) s with
  | Ok s' => (NoDup (named_ops l) ∧ Forall (λ op, ops_has s op = false) (named_ops l))
      ∧ (∀ op, ops_has s' op = ops_has s op || bool_decide (op ∈ named_ops l))
  | Err e => ¬ (NoDup (named_ops l) ∧ Forall (λ op, ops_has s op = false) (named_ops l))
  | Panic => False
  end.
Proof.
  revert s. induction l as [|n l IH]; intros s; cbn.
  - split; [split; constructor|]. intros op. by rewrite orb_false_r.
  - unfold named_ops in *. cbn. destruct (op_try_from_str n) as [op|]; [|apply IH].
    destruct (ops_has s op) eqn:Hop.
    + intros [_ [Hf _]%Forall_cons]. congruence.
    + assert (Hadd : ∀ ops, Forall (λ o, ops_has (ops_add s op) o = false) ops
        ↔ Forall (λ o, ops_has s o = false) ops ∧ op ∉ ops).
      { intros ops. rewrite !Forall_forall. setoid_rewrite ops_has_add. split.
        - intros Hf. split; [intros o Ho; by apply Hf, orb_false_iff in Ho as [? _]|].
          intros Hin. apply Hf, orb_false_iff in Hin as [_ Hin]. by rewrite bool_decide_true in Hin.
        - intros [Hf Hn] o Ho. rewrite (Hf o Ho). apply bool_decide_eq_false. by intros <-. }
      specialize (IH (ops_add s op)). destruct (ops_visit_seq _ _) as [s'|e|]; [| |done].
      * destruct IH as [[Hnd [Hf Hn]%Hadd] Hh]. split.
        -- split; [by constructor|]. by constructor.
        -- intros o. rewrite Hh, ops_has_add, <- orb_assoc. f_equal. rewrite <- bool_decide_or.
           apply bool_decide_ext. rewrite elem_of_cons. naive_solver.
      * intros [[Hn Hnd]%NoDup_cons [_ Hf]%Forall_cons]. apply IH. split; [done|]. by apply Hadd.
Qed.

Lemma visit_members_app u ms1 ms2 s :
  visit_members u (ms1 ++ ms2) s = (s ← visit_members u ms1 s; visit_members u ms2 s).
Proof.
  revert s. induction ms1 as [|m ms1 IH]; intros s; [done|]. cbn [app visit_members].
  destruct (visit_member u m s); [apply IH|done..].
Qed.

Lemma parts_roundtrip u p :
  (∀ ops, key_ops p = Some ops → ops_ok ops) → visit_map u (jwk_serialize p) = Ok p.
Proof.
  destruct p as [ty id al cr x y d k ops]. cbn [key_ops]. intros Hops.
  unfold visit_map, jwk_serialize. rewrite !visit_members_app.
  cbn [alg crv jwk_d jwk_k kid kty jwk_x jwk_y key_ops].
  assert (Hlast : ∀ s, v_ops s = None →
    visit_members u match ops with Some o => [("key_ops", ops_serialize o)] | None => [] end s
    = Ok (mkVars (v_kty s) (v_kid s) (v_alg s) (v_crv s) (v_x s) (v_y s) (v_d s) (v_k s) ops)).
  { intros [] Ho. cbn in Ho. subst. destruct ops as [o|]; [|done].
    unfold visit_members, visit_member. cbn [String.eqb Ascii.eqb Bool.eqb andb].
    by rewrite ops_roundtrip by by apply Hops. }
  destruct al, cr, d, k, id, x, y; cbn -[ops_serialize]; rewrite Hlast by done; done.
Qed.

(** *** What the encoder writes *)

Class LawfulWrite (B : Type) `{WriteBuffer B} := {
  wb_ok : B → Prop;
  wb_contents : B → bytes;
  wb_write_spec b d : wb_ok b → ∃ b', wb_write d b = Ok b' ∧ wb_ok b' ∧ wb_contents b' = wb_contents b ++ d;
}.

#[export] Instance resize_lawful_write `{LawfulBuffer B} : LawfulWrite B :=
  {| wb_ok := buf_ok; wb_contents := as_ref; wb_write_spec := write_spec |}.

#[export] Instance hash_lawful_write : LawfulWrite HashBuffer.
Proof. refine {| wb_ok _ := True; wb_contents := hashed |}. intros b d _. by eexists. Defined.

(** The text of an attribute with its value. *)
Definition attr_text (key : string) (value : bytes) : bytes :=
  [quote] ++ as_bytes key ++ [quote; x3a; quote] ++ value ++ [quote].

(** The text of an object with the given attributes. *)
Fixpoint attrs_text (l : list (string * bytes)) : bytes :=
  match l with
  | [] => []
  | [(k, v)] => attr_text k v
  | (k, v) :: l => attr_text k v ++ [x2c] ++ attrs_text l
  end.
Definition object_text (l : list (string * bytes)) : bytes := [x7b] ++ attrs_text l ++ [x7d].

Section EncoderLemmas.
Context `{LawfulWrite B} (base64 : bytes → bytes).

(** [e'] continues [e] with text. *)
Definition extends (text : bytes) (e e' : JwkBufferEncoder B) : Prop :=
  wb_ok (e_buffer e') ∧ wb_contents (e_buffer e') = wb_contents (e_buffer e) ++ text
  ∧ e_mode e' = e_mode e ∧ e_alg e' = e_alg e ∧ e_key_ops e' = e_key_ops e ∧ e_kid e' = e_kid e.

Lemma enc_write_run d e : wb_ok (e_buffer e) →
  ∃ e', enc_write d e = Ok e' ∧ extends d e e' ∧ e_empty e' = e_empty e.
Proof.
  intros Hb. destruct (wb_write_spec (e_buffer e) d Hb) as (b' & E & Hb' & Hc).
  exists (set_buffer b' e). unfold enc_write. by rewrite E.
Qed.

Lemma extends_trans t1 t2 e1 e2 e3 : extends t1 e1 e2 → extends t2 e2 e3 → extends (t1 ++ t2) e1 e3.
Proof.
  intros (? & C1 & ? & ? & ? & ?) (? & C2 & ? & ? & ? & ?). split_and!; try congruence.
  by rewrite C2, C1, app_assoc.
Qed.

(** Writing, in sequence. *)
Ltac enc_step Hb e' Hx He :=
  edestruct enc_write_run as (e' & -> & Hx & He); [exact Hb|]; run_bind.

Lemma start_attr_run key e : wb_ok (e_buffer e) →
  ∃ e', start_attr key e = Ok e' ∧ e_empty e' = false
    ∧ extends ((if e_empty e then [x7b] else [x2c]) ++ [quote] ++ as_bytes key ++ [quote; x3a]) e e'.
Proof.
  intros Hb. unfold start_attr.
  assert (∃ e1, (if e_empty e then e ← enc_write [x7b; quote] e; mret (set_nonempty e)
                 else enc_write [x2c; quote] e) = Ok e1 ∧ e_empty e1 = false
            ∧ extends ((if e_empty e then [x7b] else [x2c]) ++ [quote]) e e1) as (e1 & -> & H1 & X1).
  { destruct (e_empty e) eqn:Em.
    - enc_step Hb e1 X He. exists (set_nonempty e1). split_and!; [done|done|]. by destruct X as (?&?&?&?&?&?).
    - edestruct enc_write_run as (e1 & -> & X & He); [exact Hb|]. exists e1. by rewrite He, Em. }
  run_bind. enc_step (proj1 X1) e2 X2 He2.
  edestruct enc_write_run as (e3 & -> & X3 & He3); [exact (proj1 X2)|].
  exists e3. split_and!; [done|congruence|].
  pose proof (extends_trans _ _ _ _ _ (extends_trans _ _ _ _ _ X1 X2) X3) as X. by rewrite <- !app_assoc in X.
Qed.

(** Both kinds of attributes. *)
Lemma add_run key value e (add : JwkBufferEncoder B → cres (JwkBufferEncoder B)) :
  wb_ok (e_buffer e) →
  (∀ e, add e = (e ← start_attr key e; e ← enc_write [quote] e; e ← enc_write value e; enc_write [quote] e)) →
  ∃ e', add e = Ok e' ∧ e_empty e' = false
    ∧ extends ((if e_empty e then [x7b] else [x2c]) ++ attr_text key value) e e'.
Proof.
  intros Hb Hadd. rewrite Hadd. destruct (start_attr_run key e Hb) as (e1 & -> & H1 & X1). run_bind.
  enc_step (proj1 X1) e2 X2 He2. enc_step (proj1 X2) e3 X3 He3.
  edestruct enc_write_run as (e4 & -> & X4 & He4); [exact (proj1 X3)|].
  exists e4. split_and!; [done|congruence|].
  pose proof (extends_trans _ _ _ _ _ (extends_trans _ _ _ _ _ (extends_trans _ _ _ _ _ X1 X2) X3) X4) as X.
  unfold attr_text. rewrite <- !app_assoc in X. exact X.
Qed.

Lemma add_str_run key value e : wb_ok (e_buffer e) →
  ∃ e', buffer_add_str key value e = Ok e' ∧ e_empty e' = false
    ∧ extends ((if e_empty e then [x7b] else [x2c]) ++ attr_text key (as_bytes value)) e e'.
Proof. intros Hb. by apply (add_run key (as_bytes value) e (buffer_add_str key value)). Qed.

Lemma add_base64_run key value e : wb_ok (e_buffer e) →
  ∃ e', buffer_add_as_base64 base64 key value e = Ok e' ∧ e_empty e' = false
    ∧ extends ((if e_empty e then [x7b] else [x2c]) ++ attr_text key (base64 value)) e e'.
Proof.
  intros Hb. unfold buffer_add_as_base64, write_hex_buffer.
  destruct (start_attr_run key e Hb) as (e1 & -> & H1 & X1). run_bind.
  enc_step (proj1 X1) e2 X2 He2.
  edestruct enc_write_run as (e3 & -> & X3 & He3); [exact (proj1 X2)|]. cbn [map_err mbind res_bind].
  edestruct enc_write_run as (e4 & -> & X4 & He4); [exact (proj1 X3)|].
  exists e4. split_and!; [done|congruence|].
  pose proof (extends_trans _ _ _ _ _ (extends_trans _ _ _ _ _ (extends_trans _ _ _ _ _ X1 X2) X3) X4) as X.
  unfold attr_text. rewrite <- !app_assoc in X. exact X.
Qed.
End EncoderLemmas.

Section ExportLemmas.
Context `{LawfulWrite B} (base64 : bytes → bytes).

(** The attributes of a symmetric key, in the order they are written. *)
Definition symmetric_attrs (thumbprint : bool) (jwk_alg : string) (key : bytes) : list (string * bytes) :=
  (if thumbprint then [] else [("alg", as_bytes jwk_alg)])
  ++ [("k", base64 key); ("kty", as_bytes "oct")].

Lemma symmetric_run jwk_alg key (e : JwkBufferEncoder B) :
  wb_ok (e_buffer e) → e_empty e = true → e_mode e ≠ JwkEncoderMode.PublicKey →
  ∃ e', symmetric_encode_jwk (E := JwkBufferEncoder B) (H := buffer_encoder base64) jwk_alg key e = Ok e'
    ∧ e_empty e' = false
    ∧ extends ([x7b] ++ attrs_text (symmetric_attrs
        (match e_mode e with JwkEncoderMode.Thumbprint => true | _ => false end) jwk_alg key)) e e'.
Proof.
  intros Hb He Hm. unfold symmetric_encode_jwk, is_public, is_thumbprint. cbn [enc_mode buffer_encoder].
  destruct (e_mode e); [done| |]; cbn [negb add_str add_as_base64 buffer_encoder].
  - destruct (add_str_run "alg" jwk_alg e Hb) as (e1 & -> & H1 & X1). run_bind.
    destruct (add_base64_run base64 "k" key e1 (proj1 X1)) as (e2 & -> & H2 & X2). run_bind.
    destruct (add_str_run "kty" "oct" e2 (proj1 X2)) as (e3 & -> & H3 & X3).
    exists e3. split_and!; [done..|]. rewrite He in X1. rewrite H1 in X2. rewrite H2 in X3.
    pose proof (extends_trans _ _ _ _ _ (extends_trans _ _ _ _ _ X1 X2) X3) as X.
    rewrite <- !app_assoc in X. exact X.
  - run_bind.
    destruct (add_base64_run base64 "k" key e Hb) as (e2 & -> & H2 & X2). run_bind.
    destruct (add_str_run "kty" "oct" e2 (proj1 X2)) as (e3 & -> & H3 & X3).
    exists e3. split_and!; [done..|]. rewrite He in X2. rewrite H2 in X3.
    pose proof (extends_trans _ _ _ _ _ X2 X3) as X. rewrite <- !app_assoc in X. exact X.
Qed.

Lemma finalize_run (e : JwkBufferEncoder B) :
  wb_ok (e_buffer e) → e_empty e = false → e_key_ops e = None → e_kid e = None →
  ∃ b, finalize e = Ok b ∧ wb_ok b ∧ wb_contents b = wb_contents (e_buffer e) ++ [x7d].
Proof.
  intros Hb He Ho Hk. unfold finalize. rewrite Ho. run_bind. rewrite Hk.
  run_bind. rewrite He.
  destruct (enc_write_run [x7d] e Hb) as (e' & -> & (? & ? & _) & _). by eexists.
Qed.

(** Encoding and closing a new encoder's text. *)
Lemma symmetric_text jwk_alg key b mode a :
  wb_ok b → mode ≠ JwkEncoderMode.PublicKey →
  ∃ e b', symmetric_encode_jwk (E := JwkBufferEncoder B) (H := buffer_encoder base64) jwk_alg key
      (with_alg a (encoder_new b mode)) = Ok e ∧ finalize e = Ok b' ∧ wb_ok b'
    ∧ wb_contents b' = wb_contents b ++ object_text (symmetric_attrs
        (match mode with JwkEncoderMode.Thumbprint => true | _ => false end) jwk_alg key).
Proof.
  intros Hb Hm.
  destruct (symmetric_run jwk_alg key (with_alg a (encoder_new b mode)) Hb eq_refl Hm) as (e & E & He & X).
  pose proof X as (Hb' & Hc & _ & _ & Ho & Hk).
  destruct (finalize_run e Hb' He Ho Hk) as (b' & Ef & Hbf & Hcf).
  exists e, b'. split_and!; [done..|]. rewrite Hcf, Hc. cbn [e_buffer e_mode with_alg encoder_new].
  unfold object_text. by rewrite <- !app_assoc.
Qed.

(** The operations as they are written. *)
Fixpoint ops_text (idx : nat) (ops : list KeyOps.t) : bytes :=
  match ops with
  | [] => []
  | op :: ops =>
      (if (0 <? idx)%nat then [x2c; quote] else [quote]) ++ as_bytes (op_as_str op) ++ [quote] ++ ops_text (S idx) ops
  end.

Lemma write_ops_run ops idx (e : JwkBufferEncoder B) : wb_ok (e_buffer e) →
  ∃ e', write_ops idx ops e = Ok e' ∧ e_empty e' = e_empty e ∧ extends (ops_text idx ops) e e'.
Proof.
  revert idx e. induction ops as [|op ops IH]; intros idx e Hb.
  - exists e. split_and!; [done|done|]. cbn. split_and!; try done. by rewrite app_nil_r.
  - cbn [write_ops ops_text].
    destruct (enc_write_run (if (0 <? idx)%nat then [x2c; quote] else [quote]) e Hb) as (e1 & -> & X1 & H1).
    run_bind.
    destruct (enc_write_run (as_bytes (op_as_str op)) e1 (proj1 X1)) as (e2 & -> & X2 & H2). run_bind.
    destruct (enc_write_run [quote] e2 (proj1 X2)) as (e3 & -> & X3 & H3). run_bind.
    destruct (IH (S idx) e3 (proj1 X3)) as (e4 & -> & H4 & X4).
    exists e4. split_and!; [done|congruence|].
    pose proof (extends_trans _ _ _ _ _ (extends_trans _ _ _ _ _ (extends_trans _ _ _ _ _ X1 X2) X3) X4) as X.
    rewrite <- !app_assoc in X. exact X.
Qed.

Lemma finalize_ops_run (e : JwkBufferEncoder B) ops :
  wb_ok (e_buffer e) → e_empty e = true → e_key_ops e = Some ops → e_kid e = None →
  ∃ b, finalize e = Ok b
    ∧ wb_contents b = wb_contents (e_buffer e)
        ++ [x7b; quote] ++ as_bytes "key_ops" ++ [quote; x3a] ++ ops_text 0 (ops_iter ops) ++ [x5d; x7d].
Proof.
  intros Hb He Ho Hk. unfold finalize. rewrite Ho.
  destruct (start_attr_run "key_ops" e Hb) as (e1 & -> & H1 & X1). run_bind.
  destruct (write_ops_run (ops_iter ops) 0 e1 (proj1 X1)) as (e2 & -> & H2 & X2). run_bind.
  destruct (enc_write_run [x5d] e2 (proj1 X2)) as (e3 & -> & X3 & H3). run_bind.
  replace (e_kid e3) with (None : option string).
  2: { destruct X1 as (_&_&_&_&_&?), X2 as (_&_&_&_&_&?), X3 as (_&_&_&_&_&?). congruence. }
  run_bind. replace (e_empty e3) with false by congruence.
  destruct (enc_write_run [x7d] e3 (proj1 X3)) as (e4 & -> & X4 & _).
  eexists. split; [done|].
  pose proof (extends_trans _ _ _ _ _ (extends_trans _ _ _ _ _ (extends_trans _ _ _ _ _ X1 X2) X3) X4) as X.
  destruct X as (_ & -> & _). rewrite He, <- !app_assoc. done.
Qed.
End ExportLemmas.

(** ** Properties *)

Definition chacha_to_jwk (t : Chacha20Types.t) : ToJwk Chacha20Key :=
  {| encode_jwk E HE := chacha_encode_jwk t |}.

(** Key operations form a set: a set read from a list of names holds exactly the
    operations named, a repeated operation is refused, names that are not
    recognised are skipped; and a set is read back as it was written. *)
Theorem key_ops_set_correct (l : list string) :
  match ops_deserialize (JArray (List.map JString l)) with
  | Ok s => NoDup (named_ops l) ∧ (∀ op, ops_has s op = bool_decide (op ∈ named_ops l))
  | Err _ => ¬ NoDup (named_ops l)
  | Panic => False
  end
  ∧ (∀ n, (n < 256)%N → ops_deserialize (ops_serialize (mkOps n)) = Ok (mkOps n)).
Proof.
  split; [|intros n; apply (ops_roundtrip (mkOps n))].
  cbn [ops_deserialize]. pose proof (ops_visit_names l ops_new) as Hv.
  assert (Hnew : Forall (λ op, ops_has ops_new op = false) (named_ops l)) by (by apply Forall_forall; intros []).
  destruct (ops_visit_seq _ _) as [s| |]; [|naive_solver|done].
  destruct Hv as [[Hnd _] Hh]. split; [done|]. intros op. rewrite Hh. by destruct op.
Qed.

(** A key's members are read back as they were written, with whatever the reader
    does about members that are not recognised. *)
Theorem jwk_parts_roundtrip u p :
  (∀ ops, key_ops p = Some ops → (ops_value ops < 256)%N) → visit_map u (jwk_serialize p) = Ok p.
Proof. apply parts_roundtrip. Qed.

Lemma jwk_parts_roundtrip_witness :
  let p := mkJwk "OKP" (Some "id") None (Some "Ed25519") (Some "eA") None None None (Some (mkOps 12)) in
  visit_map (Err UnreadValue) (jwk_serialize p) = Ok p.
Proof.
  intros p. apply (jwk_parts_roundtrip (Err UnreadValue) p). intros ops [= <-]. reflexivity.
Defined.

(** The exports of a ChaCha20 key: no public form; the secret form is a JSON
    object with the algorithm, the key and the key type; the thumbprint is the
    digest of the object with the required members only, in the order of their
    names. *)
Theorem chacha_jwk_export `{Allocator} `{Digest} `{LawfulWrite B} (base64 : bytes → bytes) t key a (out : B) :
  let K := chacha_to_jwk t in
  wb_ok out → (∀ m, length (base64 (digest m)) = 43%nat) →
  to_jwk_public base64 key a
    = Err (CryptoError.from_msg CryptoError.Unsupported "Cannot export as a public key")
  ∧ (∃ s, to_jwk_secret base64 key a = Ok s
      ∧ as_ref s = object_text [("alg", as_bytes (chacha_jwk_alg t)); ("k", base64 (chacha_bytes key));
                                ("kty", as_bytes "oct")])
  ∧ (∃ out', write_jwk_thumbprint base64 key a out = Ok out'
      ∧ wb_contents out' = wb_contents out
          ++ base64 (digest (object_text [("k", base64 (chacha_bytes key)); ("kty", as_bytes "oct")]))).
Proof.
  intros K Hout Hlen. split_and!; [done| |].
  - destruct (symmetric_text base64 (chacha_jwk_alg t) (chacha_bytes key) (with_capacity 128)
      JwkEncoderMode.SecretKey a) as (e & s & E & Ef & _ & Hc); [split; [unfold sec_ok; cbn; lia|constructor]|done|].
    exists s. unfold to_jwk_secret. cbn [encode_jwk K chacha_to_jwk]. unfold chacha_encode_jwk.
    rewrite E. run_bind. split; [done|]. exact Hc.
  - destruct (symmetric_text base64 (chacha_jwk_alg t) (chacha_bytes key) (mkHashBuffer [])
      JwkEncoderMode.Thumbprint a) as (e & h & E & Ef & _ & Hc); [done|done|].
    unfold write_jwk_thumbprint. cbn [encode_jwk K chacha_to_jwk]. unfold chacha_encode_jwk.
    rewrite E. run_bind. rewrite Ef. run_bind.
    rewrite Hlen. cbn [Nat.ltb Nat.leb]. 
    change (hashed h = object_text [("k", base64 (chacha_bytes key)); ("kty", as_bytes "oct")]) in Hc. rewrite Hc.
    destruct (wb_write_spec out (base64 (digest (object_text [("k", base64 (chacha_bytes key)); ("kty", as_bytes "oct")])))
      Hout) as (out' & -> & _ & Ho). by exists out'.
Qed.

(** A stand-in with the length of unpadded base64. *)
Definition toy_base64 (b : bytes) : bytes := resize ((length b * 4 + 2) / 3) x41 [].

Lemma chacha_jwk_export_witness :
  let key := mkChacha (replicate 32 x07) in
  ∃ out', @write_jwk_thumbprint Chacha20Key (chacha_to_jwk Chacha20Types.C20P) toy_base64 toy_digest bytes _
      key None [] = Ok out'
    ∧ out' = toy_base64 (@digest toy_digest (object_text [("k", replicate 43 x41); ("kty", as_bytes "oct")])).
Proof.
  intros key.
  pose proof (@chacha_jwk_export demo_allocator toy_digest bytes _ _ toy_base64 Chacha20Types.C20P key None []) as E.
  destruct E as (_ & _ & out' & E1 & E2); [exact I|intros m; unfold toy_base64; rewrite length_resize, digest_size; reflexivity|].
  exists out'. split; [exact E1|exact E2].
Defined.

(** With key operations the text is not JSON: the array is closed but never
    opened. *)
Theorem jwk_key_ops_array_not_opened `{LawfulWrite B} (b : B) mode ops :
  wb_ok b →
  ∃ b', finalize (with_key_ops (Some ops) (encoder_new b mode)) = Ok b'
    ∧ ∃ text, wb_contents b' = wb_contents b ++ text
      ∧ length (List.filter (λ c, bool_decide (c = x5b)) text) = 0%nat
      ∧ length (List.filter (λ c, bool_decide (c = x5d)) text) = 1%nat.
Proof.
  intros Hb.
  destruct (finalize_ops_run (with_key_ops (Some ops) (encoder_new b mode)) ops Hb eq_refl eq_refl eq_refl)
    as (b' & E & Hc).
  exists b'. split; [done|]. eexists. split; [exact Hc|].
  assert (Ht : ∀ i l c, c = x5b ∨ c = x5d → length (List.filter (λ d, bool_decide (d = c)) (ops_text i l)) = 0%nat).
  { intros i l. revert i. induction l as [|op l IH]; intros i c Hcc; [done|]. cbn [ops_text].
    rewrite !List.filter_app, !length_app, (IH _ c Hcc). by destruct i, op, Hcc as [-> | ->]. }
  rewrite !List.filter_app, !length_app, !Ht by auto. done.
Qed.

Lemma jwk_key_ops_array_not_opened_witness :
  ∃ b', finalize (with_key_ops (Some (mkOps 4)) (encoder_new ([] : bytes) JwkEncoderMode.PublicKey)) = Ok b'
    ∧ ∃ text, wb_contents b' = wb_contents ([] : bytes) ++ text
      ∧ length (List.filter (λ c, bool_decide (c = x5b)) text) = 0%nat
      ∧ length (List.filter (λ c, bool_decide (c = x5d)) text) = 1%nat.
Proof.
  apply (jwk_key_ops_array_not_opened ([] : bytes) JwkEncoderMode.PublicKey (mkOps 4)). exact I.
Defined.

(** The members of an object have no order, but what is read depends on it:
    operations listed before the use of a key are kept, those listed after it
    replace what the use stands for. *)
Theorem jwk_use_order_matters u :
  let use := ("use", JString "sig") in
  let ops := ("key_ops", JArray [JString "encrypt"]) in
  let ty := ("kty", JString "oct") in
  (key_ops <$> visit_map u [ty; ops; use])
    = Ok (Some (ops_add (ops_add (ops_from KeyOps.Encrypt) KeyOps.Sign) KeyOps.Verify))
  ∧ (key_ops <$> visit_map u [ty; use; ops]) = Ok (Some (ops_from KeyOps.Encrypt)).
Proof. split; reflexivity. Qed.

(** What serde writes for a symmetric key is read as the key's members. *)
Theorem jwk_serialize_readable (base64 : bytes → bytes) u t key a ops id :
  (length (base64 (chacha_bytes key)) ≤ 256)%nat → (∀ o, ops = Some o → (ops_value o < 256)%N) →
  ∃ ms, jwk_serialize_key base64 (λ _, true) (H := chacha_to_jwk t) JwkEncoderMode.SecretKey key a ops id = Ok ms
    ∧ visit_map u ms
      = Ok (mkJwk "oct" id (Some (chacha_jwk_alg t)) None None None None
              (Some (string_of_bytes (base64 (chacha_bytes key)))) ops).
Proof.
  intros Hlen Hops. unfold jwk_serialize_key. cbn [encode_jwk chacha_to_jwk].
  unfold chacha_encode_jwk, symmetric_encode_jwk. cbn [is_public is_thumbprint enc_mode map_encoder m_mode negb].
  cbn [add_str add_as_base64 map_encoder]. unfold map_add_str, map_add_as_base64.
  cbn [serialize_entry ok_or mbind res_bind m_mode m_alg m_map app].
  destruct (writer_write_spec (base64 (chacha_bytes key)) (from_slice (replicate 256 x00))) as (w & -> & Ew & _);
    [cbn; lia..|]. cbn [as_ref slice_writer_buffer from_slice w_pos w_inner take app] in Ew.
  cbn [map_err mbind res_bind ok_or serialize_entry m_mode m_alg m_map app as_ref slice_writer_buffer].
  rewrite Ew. destruct ops as [o|].
  - destruct id; (eexists; split; [reflexivity|]); cbn -[ops_serialize ops_deserialize];
      by rewrite (ops_roundtrip o (Hops o eq_refl)).
  - destruct id; eexists; split; reflexivity.
Qed.

Lemma jwk_serialize_readable_witness :
  let key := mkChacha (replicate 32 x07) in
  ∃ ms, jwk_serialize_key toy_base64 (λ _, true) (H := chacha_to_jwk Chacha20Types.C20P) JwkEncoderMode.SecretKey
      key None (Some (mkOps 3)) (Some "key-1") = Ok ms
    ∧ visit_map (Err UnreadValue) ms
      = Ok (mkJwk "oct" (Some "key-1") (Some "C20P") None None None None
              (Some (string_of_bytes (toy_base64 (replicate 32 x07)))) (Some (mkOps 3))).
Proof.
  intros key.
  pose proof (jwk_serialize_readable toy_base64 (Err UnreadValue) Chacha20Types.C20P key None (Some (mkOps 3))
    (Some "key-1")) as E.
  apply E; [vm_compute; lia|intros o [= <-]; reflexivity].
Defined.
