(* ===== verification/StoreKey.v ===== *)
(** * Store keys, pass keys and the key cache

    Models askar-storage/src/protect/pass_key.rs, protect/kdf ([KdfMethod] and
    the Argon2 levels), protect/store_key.rs ([StoreKey], [StoreKeyMethod],
    [StoreKeyReference]), askar-crypto/src/kdf/argon2.rs, [RandomDet] of
    askar-crypto/src/random.rs, [KeyCache] of protect/mod.rs and, from
    backend/db_utils.rs, [init_keys] and [encode_profile_key].  Argon2, Base58,
    hex decoding and the ChaCha20 keystream are third-party: parameters. *)

From stdpp Require Import pretty.
From S2P Require Import Prelude Errors DbQuery Buffers Entry Aead Protect Options.
Local Open Scope string_scope.
Local Open Scope list_scope.

Definition input_err (msg : string) : StorageError.Error := StorageError.from_msg StorageError.Input msg.
Definition unsupported (msg : string) : StorageError.Error :=
  StorageError.from_msg StorageError.Unsupported msg.

(** ** Pass keys: [None] is no key *)

Record PassKey := mkPassKey { pass_opt : option string }.

Definition pass_empty : PassKey := mkPassKey None.
Definition pass_from (s : string) : PassKey := mkPassKey (Some s).
Definition pass_is_none (p : PassKey) : bool := match pass_opt p with None => true | _ => false end.
(** [Deref]. *)
Definition pass_str (p : PassKey) : string := match pass_opt p with None => "" | Some s => s end.
(** [str::is_empty], through [Deref]. *)
Definition pass_is_empty (p : PassKey) : bool := String.eqb (pass_str p) "".
Definition pass_as_ref (p : PassKey) : PassKey := mkPassKey (Some (pass_str p)).
Definition pass_into_owned (p : PassKey) : PassKey :=
  mkPassKey (match pass_opt p with None => None | Some s => Some s end).
Definition pass_eq (a b : PassKey) : bool := String.eqb (pass_str a) (pass_str b).

(** ** Third-party codecs and primitives *)

Class StoreCodecs := {
  bs58_encode : bytes → string;
  bs58_decode : string → option bytes;
  (** [hex::decode]. *)
  hex_decode : bytes → option bytes;
  (** Argon2i, version 0x13: memory cost, time cost, password, salt, length. *)
  argon2i : N → N → bytes → bytes → nat → option bytes;
  (** The ChaCha20 keystream of a key and a nonce. *)
  chacha20_keystream : bytes → bytes → nat → bytes;
}.

(** ** Argon2 *)

Record Params := mkParams { mem_cost : N; time_cost : N }.
Definition PARAMS_INTERACTIVE : Params := mkParams 32768 4.
Definition PARAMS_MODERATE : Params := mkParams 131072 6.
Definition SALT_LENGTH : nat := 16.

Record Argon2 := mkArgon2 { argon_password : bytes; argon_salt : bytes; argon_params : Params }.

Definition argon2_new (password salt : bytes) (params : Params) : cres Argon2 :=
  if (length salt <? SALT_LENGTH)%nat
  then Err (CryptoError.from_msg CryptoError.Usage "Invalid salt for argon2i hash")
  else Ok (mkArgon2 password salt params).

Definition u32_max : N := 4294967295.

Definition argon2_derive_key_bytes `{StoreCodecs} (a : Argon2) (len : nat) : cres bytes :=
  if (u32_max <? N.of_nat len)%N
  then Err (CryptoError.from_msg CryptoError.Usage "Output length exceeds max for argon2i hash")
  else ok_or (argon2i (mem_cost (argon_params a)) (time_cost (argon_params a))
                (argon_password a) (argon_salt a) len)
         (CryptoError.from_msg CryptoError.Unexpected "Error deriving key").

Module Level.
Inductive t : Set :=
| Interactive
| Moderate.

Definition from_str (level : string) : option t :=
  if String.eqb level "int" || String.eqb level "13:int" then Some Interactive
  else if String.eqb level "mod" || String.eqb level "13:mod" then Some Moderate
  else if String.eqb level "" then Some Moderate
  else None.

Definition as_str (l : t) : string :=
  match l with Interactive => "13:int" | Moderate => "13:mod" end.

Definition params (l : t) : Params :=
  match l with Interactive => PARAMS_INTERACTIVE | Moderate => PARAMS_MODERATE end.
End Level.
Abbreviation Level := Level.t.

#[export] Instance Level_eq_dec : EqDecision Level.
Proof. solve_decision. Defined.

(** ** Store keys *)

Record StoreKey := mkStoreKey { store_key : option Chacha20Key }.

Definition store_key_empty : StoreKey := mkStoreKey None.
Definition store_key_is_empty (k : StoreKey) : bool :=
  match store_key k with None => true | _ => false end.

(** ** Key derivation methods, key methods and references *)

Inductive KdfMethod : Set := Argon2i (level : Level).

Module StoreKeyMethod.
Inductive t : Set :=
| DeriveKey (method : KdfMethod)
| RawKey
| Unprotected.
End StoreKeyMethod.
Abbreviation StoreKeyMethod := StoreKeyMethod.t.

Module StoreKeyReference.
Inductive t : Set :=
| DeriveKey (method : KdfMethod) (detail : string)
| RawKey
| Unprotected.
End StoreKeyReference.
Abbreviation StoreKeyReference := StoreKeyReference.t.

#[export] Instance KdfMethod_eq_dec : EqDecision KdfMethod.
Proof. solve_decision. Defined.
#[export] Instance StoreKeyMethod_eq_dec : EqDecision StoreKeyMethod.
Proof. solve_decision. Defined.
#[export] Instance StoreKeyReference_eq_dec : EqDecision StoreKeyReference.
Proof. solve_decision. Defined.

Section StoreKeys.
Context `{Allocator} `{AeadCipher} `{StoreCodecs} `{UriCodec}.

Definition level_derive_key (self : Level) (password salt : bytes) : sres StoreKey :=
  a ← from_cres (argon2_new password salt (Level.params self));
  key ← from_cres (argon2_derive_key_bytes a cipher_key_size);
  k ← from_cres (chacha_from_secret_bytes key);
  mret (mkStoreKey (Some k)).

Definition kdf_decode (method : string) : sres (KdfMethod * string) :=
  let '(prefix, rest) := splitn2 ":" method in
  let fail := Err (unsupported "Invalid key derivation method") in
  if String.eqb prefix "kdf" then
    let '(method, rest) := splitn2 ":" (default "" rest) in
    let '(level, detail) := splitn2 "?" (default "" rest) in
    let detail := default "" detail in
    if String.eqb method "argon2i" then
      match Level.from_str level with
      | Some level =>
          Ok (Argon2i level, if String.eqb detail "" then "" else "?" +:+ detail)
      | None => fail
      end
    else fail
  else fail.

Definition kdf_encode (self : KdfMethod) (detail : option string) : string :=
  match self with
  | Argon2i level => "kdf" +:+ ":" +:+ "argon2i" +:+ ":" +:+ Level.as_str level +:+ default "" detail
  end.

(** The salt written in hexadecimal. *)
Definition salt_hex (salt : bytes) : string := string_of_bytes (hex_fmt salt).

(** [rng] supplies the salt. *)
Definition derive_new_key (self : KdfMethod) (rng : nat → bytes) (password : string)
    : sres (StoreKey * string) :=
  match self with
  | Argon2i level =>
      let salt := rng SALT_LENGTH in
      key ← level_derive_key level (as_bytes password) salt;
      mret (key, "?salt=" +:+ salt_hex salt)
  end.

(** [parse_salt]; [hex::decode_to_slice] fails unless the length matches. *)
Definition parse_salt (L : nat) (detail : string) : sres bytes :=
  opts ← parse_uri detail;
  match query opts !! "salt" with
  | Some salt =>
      array_try_new_with L (λ arr,
        match hex_decode (as_bytes salt) with
        | Some d => if (length d =? length arr)%nat then Ok d else Err (input_err "Invalid salt")
        | None => Err (input_err "Invalid salt")
        end)
  | None => Err (input_err "Missing salt")
  end.

Definition kdf_derive_key (self : KdfMethod) (password detail : string) : sres StoreKey :=
  match self with
  | Argon2i level =>
      salt ← parse_salt SALT_LENGTH detail;
      level_derive_key level (as_bytes password) salt
  end.

(** ** Raw keys *)

Definition parse_raw_store_key (raw_key : string) : sres StoreKey :=
  d ← ok_or (bs58_decode raw_key) (input_err "Error parsing raw key as base58 value");
  (* decoding onto the key's slice fails when it is too small *)
  if (cipher_key_size <? length d)%nat
  then Err (input_err "Error parsing raw key as base58 value") else
  if negb (length d =? cipher_key_size)%nat
  then Err (input_err "Incorrect length for encoded raw key")
  else k ← from_cres (chacha_from_secret_bytes d); mret (mkStoreKey (Some k)).

Definition to_passkey (self : StoreKey) : PassKey :=
  match store_key self with
  | Some key => pass_from (bs58_encode (chacha_bytes key))
  | None => pass_empty
  end.

(** [RandomDet::new(seed)]: the seed truncated or padded to the key size; then
    the keystream for the libsodium nonce. *)
Definition random_det (seed : bytes) (len : nat) : bytes :=
  chacha20_keystream (resize 32 x00 seed) (as_bytes "LibsodiumDRG") len.

Definition generate_raw_store_key (rng : nat → bytes) (seed : option bytes) : PassKey :=
  let key := match seed with
    | Some seed => mkChacha (random_det seed cipher_key_size)
    | None => mkChacha (rng cipher_key_size)
    end in
  to_passkey (mkStoreKey (Some key)).

Definition store_key_random (rng : nat → bytes) : StoreKey :=
  mkStoreKey (Some (mkChacha (rng cipher_key_size))).

(** ** Wrapping *)

Definition wrap_data (self : StoreKey) (rng : nat → bytes) (data : SecretBytes) : sres bytes :=
  match store_key self with
  | Some key =>
      let nonce := rng cipher_nonce_size in
      '(data, _) ← from_cres (encrypt_in_place key nonce [] data);
      data ← from_cres (buffer_insert 0 nonce data);
      mret (into_vec data).1
  | None => Ok (into_vec data).1
  end.

Definition unwrap_data (self : StoreKey) (ciphertext : bytes) : sres SecretBytes :=
  match store_key self with
  | Some key =>
      (* [&ciphertext[..StoreKeyNonce::SIZE]] *)
      if (length ciphertext <? cipher_nonce_size)%nat then Panic else
      nonce ← array_from_slice cipher_nonce_size (take cipher_nonce_size ciphertext);
      let buffer := secret_of ciphertext in
      buffer ← from_cres (buffer_remove 0 cipher_nonce_size buffer);
      from_cres (decrypt_in_place key nonce [] buffer)
  | None => Ok (secret_of ciphertext)
  end.

(** ** Methods and references *)

Definition method_default : StoreKeyMethod := StoreKeyMethod.DeriveKey (Argon2i Level.Moderate).

Definition method_parse_uri (uri : string) : sres StoreKeyMethod :=
  let '(prefix, _) := splitn2 ":" uri in
  if String.eqb prefix "raw" then Ok StoreKeyMethod.RawKey
  else if String.eqb prefix "kdf" then
    '(method, _) ← kdf_decode uri;
    mret (StoreKeyMethod.DeriveKey method)
  else if String.eqb prefix "none" then Ok StoreKeyMethod.Unprotected
  else Err (unsupported "Invalid store key method").

Definition ref_parse_uri (uri : string) : sres StoreKeyReference :=
  let '(prefix, _) := splitn2 ":" uri in
  if String.eqb prefix "raw" then Ok StoreKeyReference.RawKey
  else if String.eqb prefix "kdf" then
    '(method, detail) ← kdf_decode uri;
    mret (StoreKeyReference.DeriveKey method detail)
  else if String.eqb prefix "none" then Ok StoreKeyReference.Unprotected
  else Err (unsupported "Invalid store key method for reference").

Definition ref_into_uri (self : StoreKeyReference) : string :=
  match self with
  | StoreKeyReference.DeriveKey method detail => kdf_encode method (Some detail)
  | StoreKeyReference.RawKey => "raw"
  | StoreKeyReference.Unprotected => "none"
  end.

Definition compare_method (self : StoreKeyReference) (method : StoreKeyMethod) : bool :=
  match self with
  | StoreKeyReference.DeriveKey kdf_method _ =>
      match method with StoreKeyMethod.DeriveKey m => bool_decide (m = kdf_method) | _ => false end
  | StoreKeyReference.RawKey => bool_decide (method = StoreKeyMethod.RawKey)
  | StoreKeyReference.Unprotected => bool_decide (method = StoreKeyMethod.Unprotected)
  end.

(** [From<StoreKeyReference> for StoreKeyMethod]. *)
Definition method_of_ref (key_ref : StoreKeyReference) : StoreKeyMethod :=
  match key_ref with
  | StoreKeyReference.DeriveKey method _ => StoreKeyMethod.DeriveKey method
  | StoreKeyReference.RawKey => StoreKeyMethod.RawKey
  | StoreKeyReference.Unprotected => StoreKeyMethod.Unprotected
  end.

Definition no_password : StorageError.Error := input_err "Key derivation password not provided".

Definition method_resolve (self : StoreKeyMethod) (rng : nat → bytes) (pass_key : PassKey)
    : sres (StoreKey * StoreKeyReference) :=
  match self with
  | StoreKeyMethod.DeriveKey method =>
      if negb (pass_is_none pass_key) then
        '(key, detail) ← derive_new_key method rng (pass_str pass_key);
        mret (key, StoreKeyReference.DeriveKey method detail)
      else Err no_password
  | StoreKeyMethod.RawKey =>
      key ← (if negb (pass_is_empty pass_key) then parse_raw_store_key (pass_str pass_key)
             else Ok (store_key_random rng));
      mret (key, StoreKeyReference.RawKey)
  | StoreKeyMethod.Unprotected => Ok (store_key_empty, StoreKeyReference.Unprotected)
  end.

Definition ref_resolve (self : StoreKeyReference) (pass_key : PassKey) : sres StoreKey :=
  match self with
  | StoreKeyReference.DeriveKey method detail =>
      if negb (pass_is_none pass_key) then kdf_derive_key method (pass_str pass_key) detail
      else Err no_password
  | StoreKeyReference.RawKey =>
      if negb (pass_is_empty pass_key) then parse_raw_store_key (pass_str pass_key)
      else Err (input_err "Encoded raw key not provided")
  | StoreKeyReference.Unprotected => Ok store_key_empty
  end.

End StoreKeys.

(** ** The key cache and the keys of a new store *)

Abbreviation ProfileKey := (ProfileKeyImpl Chacha20Key).

(** [serde_cbor] on profile keys. *)
Class CborCodec := {
  cbor_to_vec : ProfileKey → res string bytes;
  cbor_from_slice : bytes → res string ProfileKey;
}.

Record KeyCache := mkKeyCache {
  profile_info : gmap string (Z * ProfileKey);
  cache_store_key : StoreKey;
}.

Definition key_cache_new (k : StoreKey) : KeyCache := mkKeyCache ∅ k.

(** [add_profile] and [add_profile_mut]. *)
Definition add_profile (ident : string) (pid : Z) (key : ProfileKey) (c : KeyCache) : KeyCache :=
  mkKeyCache (<[ident := (pid, key)]> (profile_info c)) (cache_store_key c).

Definition get_profile (name : string) (c : KeyCache) : option (Z * ProfileKey) :=
  profile_info c !! name.

Section Cache.
Context `{Allocator} `{AeadCipher} `{StoreCodecs} `{UriCodec} `{CborCodec}.

Definition load_key (c : KeyCache) (ciphertext : bytes) : sres ProfileKey :=
  data ← map_err (λ e, StorageError.err_map StorageError.Encryption
                         "Error decrypting profile key" (StorageError.fmt e))
    (unwrap_data (cache_store_key c) ciphertext);
  profile_key_from_slice cbor_from_slice (as_ref data).

Definition encode_profile_key (rng : nat → bytes) (profile_key : ProfileKey) (store_key : StoreKey)
    : sres bytes :=
  data ← profile_key_to_bytes cbor_to_vec profile_key;
  wrap_data store_key rng data.

(** [init_keys]; [new_key] is the outcome of [ProfileKey::new()]. *)
Definition init_keys (rng : nat → bytes) (new_key : sres ProfileKey)
    (method : StoreKeyMethod) (pass_key : PassKey)
    : sres (ProfileKey * bytes * StoreKey * string) :=
  if bool_decide (method = StoreKeyMethod.RawKey) && pass_is_empty pass_key
  then Err (input_err "Cannot create a store with a blank raw key") else
  '(store_key, store_key_ref) ← method_resolve method rng pass_key;
  profile_key ← new_key;
  enc_profile_key ← encode_profile_key rng profile_key store_key;
  mret (profile_key, enc_profile_key, store_key, ref_into_uri store_key_ref).
End Cache.

(** ** Lemmas *)

(** What the code relies on of the third-party codecs. *)
Class StoreCodecLaws `{StoreCodecs} `{AeadCipher} := {
  bs58_inverse b : bs58_decode (bs58_encode b) = Some b;
  bs58_nonempty b : b ≠ [] → bs58_encode b ≠ "";
  hex_decode_lower b : hex_decode (hex_fmt b) = Some b;
  argon2i_length m t pw salt n d : argon2i m t pw salt n = Some d → length d = n;
  key_size_pos : cipher_key_size ≠ 0%nat;
}.

Section StoreKeyLemmas.
Context `{Allocator} `{HC : AeadCipher} {laws : CipherLaws} `{HS : StoreCodecs} {SL : StoreCodecLaws}.
Context `{HU : UriCodec} {UL : UriCodecLaws}.

(** A wrapping key of the right size, or none. *)
Definition store_key_ok (k : StoreKey) : Prop :=
  match store_key k with Some key => chacha_ok key | None => True end.

Lemma wrap_spec k rng (data : SecretBytes) :
  store_key_ok k → (∀ n, length (rng n) = n) → sec_inv data →
  (length (sec_data data) ≤ cipher_max)%nat →
  ∃ c, wrap_data k rng data = Ok c
    ∧ ∃ v, unwrap_data k c = Ok v ∧ sec_data v = sec_data data.
Proof.
  intros Hk Hr Hd Hm. unfold wrap_data, unwrap_data, store_key_ok in *.
  destruct (store_key k) as [key|]; [|by eexists; split; [|eexists]].
  pose proof (seal_and_prefix key (rng cipher_nonce_size) data Hk (Hr _) Hd Hm) as E.
  rewrite E. eexists. split; [done|].
  pose proof (decrypt_sealed key (rng cipher_nonce_size) (sec_data data)) as Hdec.
  destruct (Hdec Hk (Hr _) Hm) as (v & Ev & Hv & _).
  exists v. split; [|done]. unfold decrypt in Ev. cbn [aead_params chacha_aead nonce_length] in Ev.
  by case_match.
Qed.

(** ** References are parsed back *)

(** The detail part of a reference that survives: none, or a non-empty one. *)
Definition detail_ok (d : string) : Prop := d = "" ∨ ∃ x, x ≠ "" ∧ d = String "?"%char x.

Lemma level_roundtrip l d :
  detail_ok d →
  splitn2 "?" (Level.as_str l +:+ d) = (Level.as_str l, match d with EmptyString => None | String _ x => Some x end)
  ∧ Level.from_str (Level.as_str l) = Some l.
Proof.
  intros Hd. split; [|by destruct l]. destruct Hd as [->|(x & _ & ->)].
  - by destruct l.
  - apply splitn2_at. by destruct l.
Qed.

Lemma kdf_roundtrip m d : detail_ok d → kdf_decode (kdf_encode m (Some d)) = Ok (m, d).
Proof.
  intros Hd. destruct m as [l]. unfold kdf_decode, kdf_encode. cbn [from_option]. unfold id.
  change ("kdf" +:+ ":" +:+ ?x) with ("kdf" +:+ String ":"%char x). rewrite splitn2_at by done.
  cbn [from_option]. unfold id.
  change ("argon2i" +:+ ":" +:+ ?x) with ("argon2i" +:+ String ":"%char x). rewrite splitn2_at by done.
  cbn [from_option]. unfold id.
  destruct (level_roundtrip l d Hd) as [-> ->]. cbn.
  destruct Hd as [->|(x & Hx & ->)]; [done|]. cbn. unfold id. by destruct x.
Qed.

Definition ref_ok (r : StoreKeyReference) : Prop :=
  match r with StoreKeyReference.DeriveKey _ d => detail_ok d | _ => True end.

Lemma ref_roundtrip r : ref_ok r → ref_parse_uri (ref_into_uri r) = Ok r.
Proof.
  intros Hr. destruct r as [m d| |]; [|done..]. unfold ref_parse_uri, ref_into_uri.
  pose proof (kdf_roundtrip m d Hr) as E. rewrite E. destruct m as [l].
  unfold kdf_encode. change ("kdf" +:+ ":" +:+ ?x) with ("kdf" +:+ String ":"%char x).
  by rewrite splitn2_at.
Qed.

(** ** Salts are read back *)

Lemma hex_digit_alnum c :
  forallb (λ b, alnum (Ascii.ascii_of_byte b)) (hex_byte c) = true.
Proof. by destruct c. Qed.

Lemma all_chars_bytes p b :
  all_chars p (string_of_bytes b) = forallb (λ c, p (Ascii.ascii_of_byte c)) b.
Proof. induction b as [|c b IH]; [done|]. cbn. by rewrite <- IH. Qed.

Lemma salt_hex_alnum salt : all_chars alnum (salt_hex salt) = true.
Proof.
  unfold salt_hex. rewrite all_chars_bytes. induction salt as [|c salt IH]; [done|].
  change (hex_fmt (c :: salt)) with (hex_byte c ++ hex_fmt salt).
  rewrite forallb_app, hex_digit_alnum. done.
Qed.

Lemma alnum_free c s : alnum c = false → all_chars alnum s = true → free_of c s = true.
Proof.
  intros Hc. apply all_chars_impl. intros d Hd.
  destruct (Ascii.eqb d c) eqn:E; [|done]. apply Ascii.eqb_eq in E as ->. congruence.
Qed.

Lemma parse_detail x :
  all_chars alnum x = true →
  parse_uri ("?salt=" +:+ x) = Ok (mkOptions "" "" "" "" "" {["salt" := x]} "").
Proof.
  intros Hx. unfold parse_uri.
  assert (Hf : ∀ c, alnum c = false → free_of c "?salt=" = true → free_of c ("?salt=" +:+ x) = true).
  { intros c Hc H1. by rewrite free_of_append, H1, alnum_free. }
  rewrite splitn2_free by by apply Hf. cbn [from_option].
  rewrite splitn2_free by by apply Hf.
  change ("?salt=" +:+ x) with (String "?"%char ("salt=" +:+ x)).
  cbn [splitn2]. change (Ascii.eqb "?" "?") with true. cbn iota. cbn [splitn2].
  rewrite decode_empty.
  change ("salt=" +:+ x) with ("salt" +:+ "=" +:+ x).
  assert (Hp : form_parse ("salt" +:+ "=" +:+ x) = [("salt", x)]).
  { rewrite <- (serialize_alnum "salt") at 1 by done. rewrite <- (serialize_alnum x) at 1 by done.
    apply form_parse_single. }
  by rewrite Hp.
Qed.

Lemma parse_salt_ok salt :
  length salt = SALT_LENGTH → parse_salt SALT_LENGTH ("?salt=" +:+ salt_hex salt) = Ok salt.
Proof.
  intros Hl. unfold parse_salt. rewrite parse_detail by apply salt_hex_alnum.
  cbn [mbind res_bind query]. rewrite lookup_singleton_eq. unfold array_try_new_with, salt_hex.
  rewrite as_bytes_of_string, hex_decode_lower, length_replicate, Hl, Nat.eqb_refl. done.
Qed.

End StoreKeyLemmas.

(** ** Properties *)

(** The reference recorded for a store key parses back to itself, for the
    default detail and any other that is not a bare question mark. *)
Theorem key_reference_roundtrip r : ref_ok r → ref_parse_uri (ref_into_uri r) = Ok r.
Proof. apply ref_roundtrip. Qed.

Lemma key_reference_roundtrip_witness :
  ref_into_uri (StoreKeyReference.DeriveKey (Argon2i Level.Moderate) "?salt=00ff")
    = "kdf:argon2i:13:mod?salt=00ff"
  ∧ ref_parse_uri "kdf:argon2i:13:mod?salt=00ff"
    = Ok (StoreKeyReference.DeriveKey (Argon2i Level.Moderate) "?salt=00ff").
Proof.
  split; [reflexivity|].
  apply (key_reference_roundtrip (StoreKeyReference.DeriveKey (Argon2i Level.Moderate) "?salt=00ff")).
  right. by exists "salt=00ff".
Defined.

Lemma resolve_reopen `{HC : AeadCipher} `{HS : StoreCodecs} {SL : StoreCodecLaws}
    `{HU : UriCodec} {UL : UriCodecLaws} method rng pass key ref :
  (∀ n, length (rng n) = n) →
  (method = StoreKeyMethod.RawKey → pass_is_empty pass = false) →
  method_resolve method rng pass = Ok (key, ref) →
  ∃ ref', ref_parse_uri (ref_into_uri ref) = Ok ref' ∧ compare_method ref' method = true
    ∧ ref_resolve ref' pass = Ok key.
Proof.
  intros Hr Hraw E. exists ref. destruct method as [[l]| |]; cbn in E.
  - destruct (pass_is_none pass) eqn:Hp; [done|]. cbn in E. bind_inv E.
    destruct a as [k d]. injection E as <- <-. bind_inv E0. injection E0 as <- <-. split_and!.
    + apply ref_roundtrip. right. exists ("salt=" +:+ salt_hex (rng SALT_LENGTH)). done.
    + cbn. by rewrite bool_decide_true.
    + cbn [ref_resolve kdf_derive_key]. rewrite Hp. cbn [negb].
      rewrite parse_salt_ok by apply Hr. exact E.
  - rewrite Hraw in E by done. cbn in E. bind_inv E. injection E as <- <-.
    split_and!; [done..|]. cbn. by rewrite Hraw.
  - by injection E as <- <-.
Qed.

(** Reopening a store: the reference written when a store key was resolved
    parses back to one of the same method, and resolving it with the same pass
    key yields the same store key.  A raw key must be given, a random one is not
    recorded anywhere. *)
Theorem store_key_reopen `{HC : AeadCipher} `{HS : StoreCodecs} {SL : StoreCodecLaws}
    `{HU : UriCodec} {UL : UriCodecLaws} method rng pass key ref :
  (∀ n, length (rng n) = n) →
  (method = StoreKeyMethod.RawKey → pass_is_empty pass = false) →
  method_resolve method rng pass = Ok (key, ref) →
  ∃ ref', ref_parse_uri (ref_into_uri ref) = Ok ref' ∧ compare_method ref' method = true
    ∧ ref_resolve ref' pass = Ok key.
Proof. apply resolve_reopen. Qed.

(** ** Toy codecs with the laws, for examples *)

Definition hex_digit_val (c : byte) : option N :=
  let n := Byte.to_N c in
  if ((48 <=? n) && (n <=? 57))%N then Some (n - 48)%N
  else if ((97 <=? n) && (n <=? 102))%N then Some (n - 87)%N
  else if ((65 <=? n) && (n <=? 70))%N then Some (n - 55)%N
  else None.

Fixpoint toy_hex_decode (l : bytes) : option bytes :=
  match l with
  | [] => Some []
  | [_] => None
  | a :: b :: l' =>
      x ← hex_digit_val a; y ← hex_digit_val b; rest ← toy_hex_decode l';
      c ← Byte.of_N (16 * x + y); mret (c :: rest)
  end.

Lemma toy_hex_lower b : toy_hex_decode (hex_fmt b) = Some b.
Proof.
  induction b as [|c b IH]; [done|].
  change (hex_fmt (c :: b)) with (hex_byte c ++ hex_fmt b). unfold hex_byte. cbn [app toy_hex_decode].
  rewrite IH. by destruct c.
Qed.

Definition toy_codecs : StoreCodecs := {|
  bs58_encode b := salt_hex b;
  bs58_decode s := toy_hex_decode (as_bytes s);
  hex_decode := toy_hex_decode;
  argon2i _ _ pw salt n := Some (resize n x00 (pw ++ salt));
  chacha20_keystream key nonce n := resize n x00 (key ++ nonce);
|}.

#[export] Instance toy_codecs_laws : @StoreCodecLaws toy_codecs toy_cipher.
Proof.
  split.
  - intros b. cbn [bs58_decode bs58_encode toy_codecs]. unfold salt_hex.
    by rewrite as_bytes_of_string, toy_hex_lower.
  - intros [|c b]; [done|]. intros _. by destruct c.
  - exact toy_hex_lower.
  - intros m t pw salt n d [= <-]. apply length_resize.
  - done.
Qed.

Lemma store_key_reopen_witness :
  let rng := λ n, replicate n x0a in
  let method := StoreKeyMethod.DeriveKey (Argon2i Level.Interactive) in
  let key := mkStoreKey (Some (mkChacha (resize 32 x00 (as_bytes "pass" ++ replicate 16 x0a)))) in
  ∃ ref', ref_parse_uri ("kdf:argon2i:13:int?salt=" +:+ salt_hex (replicate 16 x0a)) = Ok ref'
    ∧ compare_method ref' method = true
    ∧ @ref_resolve toy_cipher toy_codecs demo_codec ref' (pass_from "pass") = Ok key.
Proof.
  intros rng method key.
  apply (@store_key_reopen toy_cipher toy_codecs toy_codecs_laws demo_codec demo_codec_laws
    method rng (pass_from "pass") key
    (StoreKeyReference.DeriveKey (Argon2i Level.Interactive) ("?salt=" +:+ salt_hex (replicate 16 x0a)))).
  - intros n. apply length_replicate.
  - discriminate.
  - vm_compute. reflexivity.
Defined.

(** Data wrapped with a store key unwraps to the same data, also when the store
    is unprotected. *)
Theorem wrap_roundtrip `{Allocator} `{HC : AeadCipher} {laws : CipherLaws} k rng data :
  store_key_ok k → (∀ n, length (rng n) = n) → (length data ≤ cipher_max)%nat →
  ∃ c, wrap_data k rng (secret_of data) = Ok c
    ∧ ∃ v, unwrap_data k c = Ok v ∧ sec_data v = data.
Proof. intros Hk Hr Hd. apply wrap_spec; [done|done|apply secret_of_inv|done]. Qed.

Lemma wrap_roundtrip_witness :
  let k := mkStoreKey (Some (mkChacha (replicate 32 x01))) in
  ∃ c, @wrap_data demo_allocator toy_cipher k (λ n, replicate n x02) (secret_of [x61]) = Ok c
    ∧ ∃ v, @unwrap_data demo_allocator toy_cipher k c = Ok v ∧ sec_data v = [x61].
Proof.
  intros k.
  apply (@wrap_roundtrip demo_allocator toy_cipher toy_cipher_laws k (λ n, replicate n x02) [x61]);
    [reflexivity|intros n; apply length_replicate|cbn; lia].
Defined.

(** A stored profile key shorter than a nonce makes unwrapping panic, where the
    decryption of entries returns an error for such data. *)
Theorem unwrap_short_panics `{HC : AeadCipher} `{Allocator} key ciphertext :
  (length ciphertext < cipher_nonce_size)%nat →
  unwrap_data (mkStoreKey (Some key)) ciphertext = Panic
  ∧ decrypt ciphertext key
    = Err (StorageError.from_msg StorageError.Encryption "invalid encrypted value").
Proof.
  intros Hl. unfold unwrap_data, decrypt. cbn [store_key aead_params chacha_aead nonce_length].
  by rewrite (proj2 (Nat.ltb_lt _ _)).
Qed.

Lemma unwrap_short_panics_witness :
  let key := mkChacha (replicate 32 x01) in
  @unwrap_data demo_allocator toy_cipher (mkStoreKey (Some key)) [x61] = Panic
  ∧ @decrypt demo_allocator Chacha20Key (@chacha_aead toy_cipher) [x61] key
    = Err (StorageError.from_msg StorageError.Encryption "invalid encrypted value").
Proof. intros key. apply (@unwrap_short_panics toy_cipher demo_allocator key [x61]). cbn; lia. Defined.

(** The text of a raw store key is accepted as the pass key of a raw store and
    gives the key back. *)
Theorem raw_key_roundtrip `{HC : AeadCipher} `{HS : StoreCodecs} {SL : StoreCodecLaws}
    `{HU : UriCodec} key rng :
  length (chacha_bytes key) = cipher_key_size →
  method_resolve StoreKeyMethod.RawKey rng (to_passkey (mkStoreKey (Some key)))
  = Ok (mkStoreKey (Some key), StoreKeyReference.RawKey).
Proof.
  intros Hk. cbn. unfold pass_is_empty. cbn.
  assert (Hne : bs58_encode (chacha_bytes key) ≠ "").
  { apply bs58_nonempty. intros E. rewrite E in Hk. cbn in Hk. by apply key_size_pos. }
  rewrite (proj2 (String.eqb_neq _ _)) by done. cbn [negb].
  unfold parse_raw_store_key. rewrite bs58_inverse. cbn [ok_or mbind res_bind].
  rewrite Hk, Nat.ltb_irrefl, Nat.eqb_refl. cbn [negb].
  unfold chacha_from_secret_bytes, array_from_slice. rewrite Hk, Nat.eqb_refl. by destruct key.
Qed.

Lemma raw_key_roundtrip_witness :
  let key := mkChacha (replicate 32 x0f) in
  @method_resolve toy_cipher toy_codecs StoreKeyMethod.RawKey (λ _, [])
    (@to_passkey toy_codecs (mkStoreKey (Some key))) = Ok (mkStoreKey (Some key), StoreKeyReference.RawKey).
Proof.
  intros key. apply (@raw_key_roundtrip toy_cipher toy_codecs toy_codecs_laws demo_codec key (λ _, [])).
  reflexivity.
Defined.

(** A reference taken to an absent pass key is no longer absent: a key derivation
    that would refuse the pass key itself accepts the reference and derives a
    key from the empty password. *)
Theorem pass_key_reference_not_none `{HC : AeadCipher} `{HS : StoreCodecs} method rng :
  method_resolve (StoreKeyMethod.DeriveKey method) rng pass_empty = Err no_password
  ∧ method_resolve (StoreKeyMethod.DeriveKey method) rng (pass_as_ref pass_empty)
    = ('(key, detail) ← derive_new_key method rng "";
       mret (key, StoreKeyReference.DeriveKey method detail)).
Proof. done. Qed.

Lemma load_encoded_key `{Allocator} `{HC : AeadCipher} {laws : CipherLaws}
    `{CborCodec} rng sk pk b :
  (∀ n, length (rng n) = n) → store_key_ok sk →
  cbor_to_vec pk = Ok b → cbor_from_slice b = Ok pk → (length b ≤ cipher_max)%nat →
  ∃ enc, encode_profile_key rng pk sk = Ok enc ∧ load_key (key_cache_new sk) enc = Ok pk.
Proof.
  intros Hr Hk Eto Efrom Hb. unfold encode_profile_key, load_key, profile_key_to_bytes, profile_key_from_slice.
  rewrite Eto. cbn [fmap res_fmap map_err mbind res_bind].
  destruct (wrap_spec sk rng (secret_of b)) as (c & Ec & v & Ev & Hv); [done|done|apply secret_of_inv|done|].
  exists c. split; [done|]. cbn [key_cache_new cache_store_key]. rewrite Ev.
  cbn [map_err mbind res_bind as_ref secret_buffer]. rewrite Hv. cbn. by rewrite Efrom.
Qed.

(** A profile key stored under a store key is loaded back by a cache holding
    that store key. *)
Theorem profile_key_load_roundtrip `{Allocator} `{HC : AeadCipher} {laws : CipherLaws}
    `{CborCodec} rng sk pk b :
  (∀ n, length (rng n) = n) → store_key_ok sk →
  cbor_to_vec pk = Ok b → cbor_from_slice b = Ok pk → (length b ≤ cipher_max)%nat →
  ∃ enc, encode_profile_key rng pk sk = Ok enc ∧ load_key (key_cache_new sk) enc = Ok pk.
Proof. apply load_encoded_key. Qed.
