(* ===== verification/DbUtils.v ===== *)
(** * From entries to rows and back

    Models the rest of askar-storage/src/backend/db_utils.rs that does not
    touch the connection: [decode_tags], [decrypt_scan_entry] and
    [decrypt_scan_batch], [encode_tag_filter], [prepare_tags] and
    [expiry_timestamp]. *)

From S2P Require Import Prelude Errors Wql TagSql DbQuery TagSqlSem SqlEval Buffers Utf8 Entry Aead.
From S2P Require Import Protect Options StoreKey.
Local Open Scope string_scope.
Local Open Scope list_scope.

(** ** The tags column

    The queries return the tags of an item as one text: for each tag the
    plaintext flag, the name and the value in hexadecimal, joined with colons,
    and the tags joined with commas. *)

Definition comma : byte := x2c.
Definition colon : byte := x3a.

(** SQLite's [HEX]: upper-case digits. *)
Definition upper_digit (n : N) : byte :=
  default x30 (Byte.of_N (if (n <? 10)%N then 48 + n else 55 + n)%N).

Definition sql_hex (b : bytes) : bytes :=
  List.flat_map (λ c, [upper_digit (Byte.to_N c / 16)%N; upper_digit (Byte.to_N c mod 16)%N]) b.

(** The tags of an item in one column, for a function that writes bytes as digits:
    [it.plaintext || ':' || HEX(it.name) || ':' || HEX(it.value)] for each, joined by
    commas, and null (read as no bytes) for no rows. *)
Section Column.
Context (hex : bytes → bytes).

Definition column_of (t : EncEntryTag) : bytes :=
  [if enc_tag_plaintext t then x31 else x30; colon] ++ hex (enc_tag_name t)
  ++ [colon] ++ hex (enc_tag_value t).

Fixpoint columns_of (l : list EncEntryTag) : bytes :=
  match l with
  | [] => []
  | [t] => column_of t
  | t :: l' => column_of t ++ [comma] ++ columns_of l'
  end.
End Column.

(** With SQLite's [GROUP_CONCAT] and [HEX]. *)
Definition tags_column : list EncEntryTag → bytes := columns_of sql_hex.

Section Decode.
Context (hex_decode : bytes → option bytes).

(** The inner loop: the index of the end of the tag, and of the colon that ends
    its name (0 if none). *)
Fixpoint tag_span (fuel : nat) (tags : bytes) (idx name_end : nat) : option (nat * nat) :=
  match fuel with
  | O => None
  | S fuel =>
      match tags !! idx with
      | None => Some (idx, name_end)
      | Some c =>
          if decide (c = comma) then Some (idx, name_end)
          else if decide (c = colon) then
            if negb (name_end =? 0)%nat then None else tag_span fuel tags (idx + 1) idx
          else tag_span fuel tags (idx + 1) name_end
      end
  end.

Definition slice (i j : nat) (l : bytes) : bytes := take (j - i) (drop i l).

Fixpoint decode_tags_loop (fuel : nat) (tags : bytes) (idx : nat) : option (list EncEntryTag) :=
  match fuel with
  | O => None
  | S fuel' =>
      match tags !! idx with
      | None => Some []
      | Some c =>
          let plaintext := bool_decide (c = x31) in
          let name_start := (idx + 2)%nat in
          '(idx, name_end) ← tag_span (length tags + 3 - idx) tags name_start 0;
          if (name_end =? 0)%nat then None else
          name ← hex_decode (slice name_start name_end tags);
          value ← hex_decode (slice (name_end + 1) idx tags);
          rest ← decode_tags_loop fuel' tags (idx + 1);
          mret (mkEncTag name value plaintext :: rest)
      end
  end.

(** The loops consume a byte at each pass. *)
Definition decode_tags (tags : bytes) : option (list EncEntryTag) :=
  decode_tags_loop (length tags + 1) tags 0.
End Decode.

(** ** Rows of a scan *)

Record EncScanEntry := mkEncScan {
  scan_kind : EntryKind;
  scan_category : bytes;
  scan_name : bytes;
  scan_value : bytes;
  scan_tags : bytes;
}.

Section Rows.
Context {K : Type} `{EntryEncryptor K} `{StoreCodecs}.

Definition decrypt_scan_entry (category : option string) (enc_entry : EncScanEntry) (key : K)
    : sres Entry :=
  category ← match category with
    | Some c => Ok c
    | None => decrypt_entry_category key (scan_category enc_entry)
    end;
  name ← decrypt_entry_name key (scan_name enc_entry);
  value ← decrypt_entry_value key (as_bytes category) (as_bytes name) (scan_value enc_entry);
  enc_tags ← ok_or (decode_tags hex_decode (scan_tags enc_entry))
    (StorageError.from_msg StorageError.Unexpected "Error decoding tags");
  tags ← decrypt_entry_tags key enc_tags;
  mret (entry_new (scan_kind enc_entry) category name (sec_data value) tags).

Definition decrypt_scan_batch (category : option string) (enc_rows : list EncScanEntry) (key : K)
    : sres (list Entry) :=
  mapM (λ enc_entry, decrypt_scan_entry category enc_entry key) enc_rows.
End Rows.

(** [chrono::Utc::now().checked_add_signed(..)], in milliseconds. *)
Definition expiry_timestamp (checked_add : Z → Z → option Z) (now expire_ms : Z) : sres Z :=
  ok_or (checked_add now expire_ms)
    (StorageError.from_msg StorageError.Unexpected "Invalid expiry timestamp").

Section Filter.
Context `{Allocator} `{Hmac} `{AeadCipher} {Q : QueryPrepare}.

(** [_prepare_string] and [prepare_tags]: the same text, in a larger allocation. *)
Definition prepare_string (key : ProfileKey) (value : string) : string :=
  string_of_bytes (sec_data (prepare_input (tag_name_key key) (as_bytes value))).

Definition prepare_tag (key : ProfileKey) (tag : EntryTag) : EntryTag :=
  match tag with
  | EntryTag.Plaintext name value => EntryTag.Plaintext (prepare_string key name) value
  | EntryTag.Encrypted name value =>
      EntryTag.Encrypted (prepare_string key name) (prepare_string key value)
  end.

Definition prepare_tags (key : ProfileKey) (tags : list EntryTag) : sres (list EntryTag) :=
  Ok (List.map (prepare_tag key) tags).

Definition filter_encoder (key : ProfileKey) : TagSqlEncoder := {|
  TagSql.enc_name := λ name, encrypt_tag_name key (prepare_input (tag_name_key key) (as_bytes name));
  TagSql.enc_value := λ value, encrypt_tag_value key (prepare_input (tag_value_key key) (as_bytes value));
|}.

Definition encode_tag_filter (tag_filter : option TagFilter) (key : ProfileKey) (offset : nat)
    : sres (option (string * list bytes)) :=
  match tag_filter with
  | Some tag_filter =>
      tag_query ← tag_query (filter_query tag_filter);
      match sql_encode_query (filter_encoder key) tag_query with
      | (arguments, Ok (Some filter)) =>
          (* [(offset as i64) + 1] *)
          start ← i64_add (Z.of_nat offset) 1;
          filter ← replace_arg_placeholders placeholder start filter;
          mret (Some (filter, arguments))
      | (_, Ok None) => mret None
      | (_, Err e) => Err e
      | (_, Panic) => Panic
      end
  | None => mret None
  end.
End Filter.

(** ** The tags column is decoded back *)

Definition plain_byte (c : byte) : Prop := c ≠ comma ∧ c ≠ colon.

Lemma sql_hex_plain b : Forall plain_byte (sql_hex b).
Proof.
  induction b as [|c b IH]; [constructor|]. cbn -[upper_digit].
  assert (Hd : ∀ n, (n < 16)%N → plain_byte (upper_digit n)).
  { intros n Hn. unfold plain_byte. destruct n as [|p]; [done|].
    do 4 (destruct p as [p|p|]; try (split; discriminate)); lia. }
  pose proof (Byte.to_N_bounded c). constructor; [|constructor; [|done]]; apply Hd.
  - apply N.Div0.div_lt_upper_bound. lia.
  - apply N.mod_lt. lia.
Qed.

Section DecodeLemmas.
Context (hex_decode : bytes → option bytes).
Context (hex : bytes → bytes).
Hypothesis hex_plain : ∀ b, Forall plain_byte (hex b).
Hypothesis hex_inverse : ∀ b, hex_decode (hex b) = Some b.

Lemma span_skip s : ∀ pre post fuel ne,
  Forall plain_byte s →
  tag_span (length s + fuel) (pre ++ s ++ post) (length pre) ne
  = tag_span fuel (pre ++ s ++ post) (length pre + length s) ne.
Proof.
  induction s as [|c s IH]; intros pre post fuel ne Hs; [by rewrite Nat.add_0_r|].
  inversion Hs as [|? ? [Hc1 Hc2] Hs']; subst. cbn [length Nat.add tag_span app].
  rewrite lookup_app_r, Nat.sub_diag by done. cbn.
  rewrite !decide_False by done.
  replace (pre ++ c :: s ++ post) with ((pre ++ [c]) ++ s ++ post) by (by rewrite <- app_assoc).
  replace (length pre + 1)%nat with (length (pre ++ [c])) by lens.
  rewrite IH by done. f_equal. rewrite length_app. cbn. lia.
Qed.

(** What may follow a tag in the column. *)
Definition ends (post : bytes) : Prop := match post with [] => True | c :: _ => c = comma end.

Lemma span_end fuel pre post ne :
  ends post → tag_span (S fuel) (pre ++ post) (length pre) ne = Some (length pre, ne).
Proof.
  intros He. cbn. destruct post as [|c post].
  - by rewrite app_nil_r, lookup_ge_None_2.
  - rewrite lookup_app_r, Nat.sub_diag by done. cbn. by rewrite decide_True.
Qed.

Lemma span_colon fuel pre post :
  tag_span (S fuel) (pre ++ colon :: post) (length pre) 0
  = tag_span fuel (pre ++ colon :: post) (length pre + 1) (length pre).
Proof.
  cbn. rewrite lookup_app_r, Nat.sub_diag by done. cbn. done.
Qed.

Lemma span_tag pre post name value fuel (l := pre ++ name ++ colon :: value ++ post) :
  Forall plain_byte name → Forall plain_byte value → ends post → length pre ≠ 0%nat →
  tag_span (length name + S (length value + S fuel)) l (length pre) 0
  = Some ((length pre + length name + 1 + length value)%nat, (length pre + length name)%nat).
Proof.
  intros Hn Hv He Hp. subst l. rewrite span_skip by done.
  rewrite (app_assoc pre name). rewrite <- length_app. rewrite span_colon.
  replace ((pre ++ name) ++ colon :: value ++ post) with (((pre ++ name) ++ [colon]) ++ value ++ post)
    by (by rewrite <- app_assoc).
  replace (length (pre ++ name) + 1)%nat with (length ((pre ++ name) ++ [colon]))
    by lens.
  rewrite span_skip by done. rewrite (app_assoc _ value), <- (length_app _ value), span_end by done.
  rewrite !length_app. cbn. repeat f_equal; lia.
Qed.

Lemma span_fuel f1 : ∀ f2 tags idx ne r,
  tag_span f1 tags idx ne = Some r → (f1 ≤ f2)%nat → tag_span f2 tags idx ne = Some r.
Proof.
  induction f1 as [|f1 IH]; intros [|f2] tags idx ne r E Hle; try done; [lia|]. cbn in E |- *.
  destruct (tags !! idx) as [c|]; [|done]. case_decide; [done|]. case_decide.
  - destruct (negb _); [done|]. eapply IH; [done|lia].
  - eapply IH; [done|lia].
Qed.

Lemma slice_mid (a b c : bytes) i j :
  i = length a → j = (length a + length b)%nat → slice i j (a ++ b ++ c) = b.
Proof.
  intros -> ->. unfold slice. rewrite drop_app_length.
  rewrite take_app_length' by lia. done.
Qed.

Lemma decode_one fuel pre t post :
  ends post →
  decode_tags_loop hex_decode (S fuel) (pre ++ column_of hex t ++ post) (length pre)
  = (rest ← decode_tags_loop hex_decode fuel (pre ++ column_of hex t ++ post)
              (length pre + length (column_of hex t) + 1);
     mret (t :: rest)).
Proof.
  intros He. destruct t as [name value plain]. unfold column_of. cbn [enc_tag_plaintext enc_tag_name enc_tag_value].
  set (d := if plain then x31 else x30). set (N := hex name). set (V := hex value).
  set (l := pre ++ _ ++ post).
  assert (Hl : l = (pre ++ [d; colon]) ++ N ++ colon :: V ++ post).
  { unfold l. by rewrite <- !app_assoc. }
  assert (Hspan : tag_span (length l + 3 - length pre) l (length pre + 2) 0
    = Some ((length pre + 2 + length N + 1 + length V)%nat, (length pre + 2 + length N)%nat)).
  { pose proof (span_tag (pre ++ [d; colon]) post N V 0) as Hs.
    rewrite <- Hl, length_app in Hs. cbn [length] in Hs.
    eapply span_fuel; [apply Hs; [apply hex_plain|apply hex_plain|done|lia]|].
    rewrite Hl, !length_app. cbn. lens. }
  cbn [decode_tags_loop].
  assert (Hd : l !! length pre = Some d).
  { unfold l. rewrite lookup_app_r, Nat.sub_diag by done. done. }
  rewrite Hd, Hspan. cbn [mbind option_bind].
  rewrite (proj2 (Nat.eqb_neq _ _)) by lia.
  assert (HN : slice (length pre + 2) (length pre + 2 + length N) l = N).
  { rewrite Hl. apply slice_mid; lens. }
  assert (HV : slice (length pre + 2 + length N + 1) (length pre + 2 + length N + 1 + length V) l = V).
  { rewrite Hl.
    replace ((pre ++ [d; colon]) ++ N ++ colon :: V ++ post)
      with (((pre ++ [d; colon]) ++ N ++ [colon]) ++ V ++ post)
      by (by rewrite <- !app_assoc).
    apply slice_mid; lens. }
  rewrite HN, HV. unfold N, V. rewrite !hex_inverse. fold N V. cbn [mbind option_bind].
  replace (length pre + 2 + length N + 1 + length V + 1)%nat
    with (length pre + length ([d; colon] ++ N ++ [colon] ++ V) + 1)%nat
    by lens.
  replace (bool_decide (d = x31)) with plain by (unfold d; by destruct plain). done.
Qed.

Lemma decode_end fuel tags idx :
  (length tags ≤ idx)%nat → decode_tags_loop hex_decode (S fuel) tags idx = Some [].
Proof. intros Hi. cbn. by rewrite lookup_ge_None_2. Qed.

Lemma decode_all ts : ∀ pre fuel,
  (length ts < fuel)%nat →
  decode_tags_loop hex_decode fuel (pre ++ columns_of hex ts) (length pre) = Some ts.
Proof.
  induction ts as [|t [|t' ts] IH]; intros pre [|fuel] Hf; cbn [length] in Hf; try lia.
  - apply decode_end. rewrite length_app. cbn. lia.
  - destruct fuel as [|fuel]; [lia|]. cbn [columns_of].
    pose proof (decode_one (S fuel) pre t [] I) as E. rewrite app_nil_r in E. rewrite E.
    by rewrite decode_end by lens.
  - change (columns_of hex (t :: t' :: ts)) with (column_of hex t ++ [comma] ++ columns_of hex (t' :: ts)).
    rewrite decode_one by done.
    replace (pre ++ column_of hex t ++ [comma] ++ columns_of hex (t' :: ts))
      with ((pre ++ column_of hex t ++ [comma]) ++ columns_of hex (t' :: ts))
      by (by rewrite <- !app_assoc).
    replace (length pre + length (column_of hex t) + 1)%nat
      with (length (pre ++ column_of hex t ++ [comma])) by lens.
    rewrite IH by (cbn in *; lia). done.
Qed.

Lemma columns_length ts : (length ts ≤ length (columns_of hex ts))%nat.
Proof.
  induction ts as [|t [|t' ts] IH]; [done|cbn; lia|].
  change (columns_of hex (t :: t' :: ts)) with (column_of hex t ++ [comma] ++ columns_of hex (t' :: ts)).
  rewrite !length_app. cbn in *. lia.
Qed.

Lemma decode_columns ts : decode_tags hex_decode (columns_of hex ts) = Some ts.
Proof.
  unfold decode_tags. apply (decode_all ts []). pose proof (columns_length ts). lia.
Qed.

End DecodeLemmas.

Lemma decode_column hex_decode ts :
  (∀ b, hex_decode (sql_hex b) = Some b) → decode_tags hex_decode (tags_column ts) = Some ts.
Proof. intros Hh. by apply decode_columns; [apply sql_hex_plain|]. Qed.

(** ** The tag filter means the query *)

(** The row stored for a tag. *)
Definition row_of (t : EncEntryTag) : TagRow :=
  mkRow (enc_tag_name t) (enc_tag_value t) (enc_tag_plaintext t).

(** The truth of a comparison over the tags of an entry. *)
Section TagsMeaning.
Context (like : bytes → bytes → bool) (tags : list EntryTag).

Definition tag_is (n : TagName) (t : EntryTag) : bool :=
  match n, t with
  | Encrypted n, EntryTag.Encrypted n' _ | Plaintext n, EntryTag.Plaintext n' _ => String.eqb n' n
  | _, _ => false
  end.

Definition tags_hold (op : CompareOp) (n : TagName) (v : string) : bool :=
  existsb (λ t, tag_is n t && sql_compare like op (as_bytes (EntryTag.value t)) (as_bytes v)) tags.

Definition tags_have (n : TagName) : bool := existsb (tag_is n) tags.
End TagsMeaning.

(** Ordered comparisons only of plaintext tags; encrypted values can only be
    compared for equality. *)
Fixpoint ordered_plain (q : TagQuery) : bool :=
  match q with
  | And l | Or l => forallb ordered_plain l
  | Not q' => ordered_plain q'
  | Gt n _ | Gte n _ | Lt n _ | Lte n _ | Like n _ => is_plaintext n
  | _ => true
  end.

Lemma compile_args_length En Ev q : ∀ neg,
  (length (opt_args (compile En Ev q neg)) ≤ 2 * length (query_texts q))%nat.
Proof.
  assert (Hl : ∀ neg l,
    Forall (λ q, ∀ neg, (length (opt_args (compile En Ev q neg)) ≤ 2 * length (query_texts q))%nat) l →
    (length (List.flat_map args_of (filter_map (λ q, compile En Ev q neg) l))
     ≤ 2 * length (List.flat_map query_texts l))%nat).
  { clear. intros neg. induction 1 as [|q l Hq _ IH]; [done|]. cbn [filter_map List.flat_map].
    rewrite length_app. specialize (Hq neg). unfold opt_args in Hq.
    destruct (compile En Ev q neg) as [c|]; cbn [List.flat_map] in *; rewrite ?length_app; cbn in *; lia. }
  induction q as [l IH|l IH|q IH|q Hleaf] using query_ind; intros neg.
  - cbn [compile query_texts]. rewrite conj_args. by apply Hl.
  - cbn [compile query_texts]. rewrite conj_args. by apply Hl.
  - apply IH.
  - assert (Hop : ∀ op n v, (length (args_of (op_sql En Ev op n v neg)) ≤ 4)%nat).
    { intros op n v. unfold op_sql. cbn [args_of]. rewrite length_app.
      destruct (if is_plaintext n then None else _) as [[? ?]|]; cbn; lia. }
    destruct q as [| | |n v|n v|n v|n v|n v|n v|n v|n vs|ns]; try done;
      try (cbn [compile opt_args fmap option_fmap option_map from_option]; apply Hop).
    + cbn. lens.
    + destruct ns as [|n [|n' ns]]; [cbn; lia|cbn; lia|]. cbn [compile]. rewrite conj_args.
      cbn [query_texts]. rewrite length_map.
      assert (Hex : ∀ l, length (List.flat_map args_of (List.map (exist_sql En neg) l)) = length l)
        by (induction l as [|x l IHl]; [done|]; cbn; by rewrite IHl).
      rewrite Hex. lia.
Qed.

Section FilterLemmas.
Context `{Allocator} `{HC : AeadCipher} {laws : CipherLaws} `{HH : Hmac}.
Context {HD : LawfulDerivation Chacha20Key}.
Context (pk : ProfileKey) (Hpk : profile_ok pk) (tags : list EntryTag).
Hypothesis tags_small : Forall (tag_small cipher_max) tags.

Definition small (s : string) : Prop := (length (as_bytes s) ≤ cipher_max)%nat.

Definition En (s : string) : bytes := searchable (tag_name_key pk) (tags_hmac_key pk) (as_bytes s).
Definition Ev (s : string) : bytes := searchable (tag_value_key pk) (tags_hmac_key pk) (as_bytes s).

Definition tag_rows : list TagRow := List.map (λ t, row_of (enc_tag pk t)) tags.

Lemma En_eq s t : small s → small t → bool_decide (En s = En t) = String.eqb s t.
Proof.
  intros Hs Ht. destruct (String.eqb_spec s t) as [->|Hne]; [by rewrite bool_decide_true|].
  apply bool_decide_false. intros E. apply Hne, as_bytes_inj.
  pose proof (searchable_inj (tag_name_key pk) (tags_hmac_key pk) (as_bytes s) (as_bytes t)) as Hi.
  apply Hi; [apply Hpk|done..].
Qed.

Lemma Ev_inj s t : small s → small t → Ev s = Ev t → s = t.
Proof.
  intros Hs Ht E. apply as_bytes_inj.
  pose proof (searchable_inj (tag_value_key pk) (tags_hmac_key pk) (as_bytes s) (as_bytes t)) as Hi.
  apply Hi; [apply Hpk|done..].
Qed.

Lemma enc_tag_row_is n t :
  small (name_text n) → tag_small cipher_max t →
  row_is (name_bytes En n) (is_plaintext n) (row_of (enc_tag pk t)) = tag_is n t.
Proof.
  intros Hn [Ht _]. unfold row_is, name_bytes.
  destruct n as [n|n], t as [n' v|n' v]; cbn [enc_tag row_of row_name row_plain enc_tag_name
    enc_tag_plaintext is_plaintext tag_is EntryTag.name name_text] in *;
    fold (En n'); rewrite En_eq by done; by destruct (String.eqb n' n).
Qed.

Lemma equality_compare like op (a b a' b' : bytes) :
  op = CompareOp.Eq ∨ op = CompareOp.Neq → (a = b ↔ a' = b') →
  sql_compare like op a b = sql_compare like op a' b'.
Proof.
  intros Hop Hiff.
  assert (Hc : bytes_compare a b = Datatypes.Eq ↔ bytes_compare a' b' = Datatypes.Eq)
    by (by rewrite !bytes_compare_eq).
  destruct Hop as [-> | ->]; cbn; destruct (bytes_compare a b), (bytes_compare a' b');
    first [done | discriminate (proj1 Hc eq_refl) | discriminate (proj2 Hc eq_refl)].
Qed.

Lemma rows_hold_tags like op n v :
  small (name_text n) → small v →
  (op = CompareOp.Eq ∨ op = CompareOp.Neq ∨ is_plaintext n = true) →
  rows_hold En Ev like tag_rows op n v = tags_hold like tags op n v.
Proof.
  intros Hn Hv Hop. unfold rows_hold, tags_hold, tag_rows.
  induction tags_small as [|t ts Ht Hts IH]; [done|]. cbn [List.map existsb].
  rewrite (IH Hts), enc_tag_row_is by done. f_equal.
  destruct (tag_is n t) eqn:Htag; [|done]. cbn [andb].
  destruct n as [n|n], t as [n' v'|n' v']; cbn in Htag; try done; cbn [enc_tag row_of row_value
    enc_tag_value value_bytes is_plaintext EntryTag.value].
  apply equality_compare; [destruct Hop as [?|[?|?]]; auto; done|].
  fold (Ev v'). fold (Ev v). split.
  - intros E. f_equal. apply Ev_inj; [apply Ht|done..].
  - by intros ->%as_bytes_inj.
Qed.

Lemma rows_have_tags n : small (name_text n) → rows_have En tag_rows n = tags_have tags n.
Proof.
  intros Hn. unfold rows_have, tags_have, tag_rows.
  induction tags_small as [|t ts Ht Hts IH]; [done|]. cbn [List.map existsb].
  by rewrite (IH Hts), enc_tag_row_is.
Qed.

Lemma eval_rows_tags like q :
  Forall small (query_texts q) → ordered_plain q = true →
  eval (rows_hold En Ev like tag_rows) (rows_have En tag_rows) q
  = eval (tags_hold like tags) (tags_have tags) q.
Proof.
  assert (Hl : ∀ l, Forall (λ q, Forall small (query_texts q) → ordered_plain q = true →
      eval (rows_hold En Ev like tag_rows) (rows_have En tag_rows) q
      = eval (tags_hold like tags) (tags_have tags) q) l →
    Forall small (List.flat_map query_texts l) → forallb ordered_plain l = true →
    ∀ q, q ∈ l → eval (rows_hold En Ev like tag_rows) (rows_have En tag_rows) q
      = eval (tags_hold like tags) (tags_have tags) q).
  { clear q. intros l IH Hs Ho q Hq. apply query_texts_sub in Hs. apply forallb_Forall in Ho.
    rewrite Forall_forall in IH, Hs, Ho. auto. }
  induction q as [l IH|l IH|q IH|q Hleaf] using query_ind; intros Hs Ho; cbn [eval].
  - apply forallb_ext_in. by apply Hl.
  - apply existsb_ext_in. by apply Hl.
  - by rewrite IH.
  - destruct q as [| | |n v|n v|n v|n v|n v|n v|n v|n vs|ns]; try done; cbn in Hs, Ho |- *;
      try (inversion Hs as [|? ? Hn Hs']; inversion Hs'; subst; apply rows_hold_tags; auto; fail).
    + inversion Hs as [|? ? Hn Hs']; subst. apply existsb_ext_in. intros v Hv.
      rewrite Forall_forall in Hs'. apply rows_hold_tags; auto.
    + apply forallb_ext_in. intros n Hn. apply rows_have_tags.
      rewrite Forall_forall in Hs. apply Hs, list_elem_of_fmap. eauto.
Qed.

Lemma prepare_input_inv (k : Chacha20Key) b :
  sec_inv (prepare_input k b) ∧ sec_data (prepare_input k b) = b.
Proof.
  unfold prepare_input.
  apply (secret_extend_inv b (with_capacity (encrypted_size k (length b)))).
  split; [unfold sec_ok; cbn; lia|constructor].
Qed.

Lemma filter_encoder_name s : small s → TagSql.enc_name (filter_encoder pk) s = Ok (En s).
Proof.
  intros Hs. cbn. destruct (prepare_input_inv (tag_name_key pk) (as_bytes s)) as [Hi E].
  unfold encrypt_tag_name. pose proof (encrypt_searchable_spec (tag_name_key pk) (tags_hmac_key pk)
    (prepare_input (tag_name_key pk) (as_bytes s))) as He.
  rewrite He; [by rewrite E|apply Hpk|done|by rewrite E].
Qed.

Lemma filter_encoder_value s : small s → TagSql.enc_value (filter_encoder pk) s = Ok (Ev s).
Proof.
  intros Hs. cbn. destruct (prepare_input_inv (tag_value_key pk) (as_bytes s)) as [Hi E].
  unfold encrypt_tag_value. pose proof (encrypt_searchable_spec (tag_value_key pk) (tags_hmac_key pk)
    (prepare_input (tag_value_key pk) (as_bytes s))) as He.
  rewrite He; [by rewrite E|apply Hpk|done|by rewrite E].
Qed.

(** The prefix of an encrypted value is its nonce. *)
Lemma Ev_prefix s : cipher_nonce_size = 12%nat →
  take 12 (Ev s) = search_nonce (tag_value_key pk) (tags_hmac_key pk) (as_bytes s).
Proof.
  intros H12. unfold Ev, searchable.
  pose proof (search_nonce_length (tag_value_key pk) (tags_hmac_key pk) (as_bytes s)) as Hl.
  apply take_app_length'. rewrite Hl. cbn. by rewrite H12.
Qed.

End FilterLemmas.

(** ** Properties *)

(** The text the queries build for the tags of an item decodes to those tags, in
    the same order. *)
Theorem decode_tags_roundtrip (hex_decode : bytes → option bytes) (ts : list EncEntryTag) :
  (∀ b, hex_decode (sql_hex b) = Some b) → decode_tags hex_decode (tags_column ts) = Some ts.
Proof. apply decode_column. Qed.

Lemma toy_hex_upper b : toy_hex_decode (sql_hex b) = Some b.
Proof.
  induction b as [|c b IH]; [done|]. cbn [sql_hex List.flat_map app toy_hex_decode].
  unfold sql_hex in IH. rewrite IH. by destruct c.
Qed.

Lemma decode_tags_roundtrip_witness :
  let ts := [mkEncTag [] [xff] true; mkEncTag [x2c] [x3a; x00] false] in
  tags_column ts = as_bytes "1::FF,0:2C:3A00" ∧ decode_tags toy_hex_decode (tags_column ts) = Some ts.
Proof.
  intros ts. split; [reflexivity|].
  apply (decode_tags_roundtrip toy_hex_decode ts). exact toy_hex_upper.
Defined.

(** What makes a filter meaningful on a set of tags: its texts are short enough
    to be encrypted, ordered comparisons are of plaintext tags, alternatives and
    negations are of the supported form, the number of parameters fits, and the
    nonces of the encrypted values it looks for do not collide with those of
    different values in the tags. *)
Record filter_ok `{HC : AeadCipher} {laws : CipherLaws} `{HH : Hmac} (pk : ProfileKey)
    (tags : list EntryTag) (q : TagQuery) (offset : nat) : Prop := {
  texts_small : Forall (λ s, length (as_bytes s) ≤ cipher_max)%nat (query_texts q);
  is_ordered_plain : ordered_plain q = true;
  is_supported : supported q false = true;
  params_fit : (Z.of_nat offset + 1 + 2 * Z.of_nat (length (query_texts q)) ≤ i64_max)%Z;
  nonces_distinct : ∀ v n v', v ∈ query_texts q → EntryTag.Encrypted n v' ∈ tags →
    search_nonce (tag_value_key pk) (tags_hmac_key pk) (as_bytes v)
    = search_nonce (tag_value_key pk) (tags_hmac_key pk) (as_bytes v') → v = v';
}.

(** The condition compiled from a filter holds of the encrypted tags of an entry when the
    filter holds of the tags. *)
Lemma compile_tags_sem `{Allocator} `{HC : AeadCipher} {laws : CipherLaws} `{HH : Hmac}
    {HD : LawfulDerivation Chacha20Key}
    (pk : ProfileKey) (tags : list EntryTag) (like : bytes → bytes → bool) (q : TagQuery) (offset : nat) :
  profile_ok pk → cipher_nonce_size = 12%nat → Forall (tag_small cipher_max) tags → filter_ok pk tags q offset →
  opt_sem like (tag_rows pk tags) (compile (En pk) (Ev pk) q false) = eval (tags_hold like tags) (tags_have tags) q.
Proof.
  intros Hpk H12 Hts [Hsmall Hord Hsup Hfit Hnonce]. set (ok := λ s, s ∈ query_texts q).
  assert (Hok : Forall ok (query_texts q)) by (by apply Forall_forall).
  assert (Hsm : ∀ s, ok s → small s) by (rewrite Forall_forall in Hsmall; exact Hsmall).
  rewrite <- (eval_rows_tags pk Hpk tags Hts) by (done || by apply Forall_forall).
  rewrite (compile_sem (En pk) (Ev pk) like (tag_rows pk tags) ok); [by destruct (eval _ _ _)| |done|done].
  intros r (t & -> & Ht)%list_elem_of_fmap Hp v Hv. destruct t as [n v'|n v']; [|done].
  cbn [enc_tag row_of row_value enc_tag_value]. fold (Ev pk v').
  rewrite !Ev_prefix by done. intros E. f_equal. symmetry. by eapply Hnonce.
Qed.

Lemma encode_tag_filter_compiles `{Allocator} `{HC : AeadCipher} {laws : CipherLaws} `{HH : Hmac}
    {HD : LawfulDerivation Chacha20Key} {Q : QueryPrepare}
    (pk : ProfileKey) (tags : list EntryTag) (like : bytes → bytes → bool) (f : TagFilter) (offset : nat) :
  profile_ok pk → cipher_nonce_size = 12%nat → Forall (tag_small cipher_max) tags →
  filter_ok pk tags (rename split_tag_name (filter_query f)) offset →
  ∃ o, encode_tag_filter (Some f) pk offset = Ok o ∧
    let holds := eval (tags_hold like tags) (tags_have tags) (rename split_tag_name (filter_query f)) in
    match o with
    | Some (text, args) =>
        ∃ c, compile (En pk) (Ev pk) (rename split_tag_name (filter_query f)) false = Some c
          ∧ text = bound_text placeholder offset c ∧ args = args_of c ∧ clause_wf c = true
          ∧ (length args ≤ 2 * length (query_texts (rename split_tag_name (filter_query f))))%nat
          ∧ sem like (List.map (λ t, row_of (enc_tag pk t)) tags) c = holds
    | None => holds = true
    end.
Proof.
  intros Hpk H12 Hts [Hsmall Hord Hsup Hfit Hnonce].
  set (q := rename split_tag_name (filter_query f)) in *.
  set (ok := λ s, s ∈ query_texts q).
  assert (Hok : Forall ok (query_texts q)) by (by apply Forall_forall).
  assert (Hsm : ∀ s, ok s → small s) by (rewrite Forall_forall in Hsmall; exact Hsmall).
  pose proof (encode_query_compiles (filter_encoder pk) (En pk) (Ev pk) ok q
    (λ s Hs, filter_encoder_name pk Hpk s (Hsm s Hs))
    (λ s Hs, filter_encoder_value pk Hpk s (Hsm s Hs)) Hok) as Henc.
  pose proof (compile_tags_sem pk tags like q offset Hpk H12 Hts ltac:(by split)) as Hsem.
  unfold encode_tag_filter. rewrite tag_query_rename. fold q. run_bind. rewrite Henc.
  pose proof (compile_args_length (En pk) (Ev pk) q false) as Hlen.
  destruct (compile (En pk) (Ev pk) q false) as [c|] eqn:Ec; cbn [fmap option_fmap option_map].
  - cbn in Hlen. rewrite i64_add_ok by (unfold i64_min; lia). run_bind.
    rewrite replace_clause by lia. eexists. split; [done|]. exists c.
    split_and!; (done || lia || by eapply compile_wf).
  - eexists. split; [done|]. by rewrite <- Hsem.
Qed.

Lemma encode_tag_filter_spec `{Allocator} `{HC : AeadCipher} {laws : CipherLaws} `{HH : Hmac}
    {HD : LawfulDerivation Chacha20Key} {Q : QueryPrepare}
    (pk : ProfileKey) (tags : list EntryTag) (like : bytes → bytes → bool) (f : TagFilter) (offset : nat) :
  profile_ok pk → cipher_nonce_size = 12%nat → Forall (tag_small cipher_max) tags →
  filter_ok pk tags (rename split_tag_name (filter_query f)) offset →
  ∃ o, encode_tag_filter (Some f) pk offset = Ok o ∧
    let holds := eval (tags_hold like tags) (tags_have tags) (rename split_tag_name (filter_query f)) in
    match o with
    | Some (text, args) =>
        ∃ c, text = bound_text placeholder offset c ∧ args = args_of c ∧ clause_wf c = true
          ∧ (length args ≤ 2 * length (query_texts (rename split_tag_name (filter_query f))))%nat
          ∧ sem like (List.map (λ t, row_of (enc_tag pk t)) tags) c = holds
    | None => holds = true
    end.
Proof.
  intros Hpk H12 Hts Hok. destruct (encode_tag_filter_compiles pk tags like f offset Hpk H12 Hts Hok) as (o & E & Ho).
  exists o. split; [done|]. destruct o as [[text args]|]; [|done]. destruct Ho as (c & _ & Ho). by exists c.
Qed.

(** C9: Filtering by tags is correct end to end: for a key and the tags of an entry,
    the condition produced for a filter, with its placeholders bound in order to
    the arguments produced, holds of the encrypted tag rows exactly when the
    filter holds of the tags themselves; there are at most two arguments per
    text of the filter, and no condition is produced only for a filter that
    always holds.  The filters are those of [filter_ok]: their texts and number of
    parameters fit, ordered comparisons are of plaintext tags, the nonces of different
    values differ, and the encoding is faithful for them ([supported]).  Two others it
    gets wrong: a disjunction with an alternative that always
    holds, which it leaves out (wql/tags.rs, [TagSqlSem.or_true_alternative_dropped]), and
    the negation of an [$exist] of several names, which it makes too strong
    ([TagSqlSem.negated_exist_requires_all_absent]). *)
Theorem encode_tag_filter_correct `{Allocator} `{HC : AeadCipher} {laws : CipherLaws} `{HH : Hmac}
    {HD : LawfulDerivation Chacha20Key} {Q : QueryPrepare}
    (pk : ProfileKey) (tags : list EntryTag) (like : bytes → bytes → bool) (f : TagFilter) (offset : nat) :
  profile_ok pk → cipher_nonce_size = 12%nat → Forall (tag_small cipher_max) tags →
  filter_ok pk tags (rename split_tag_name (filter_query f)) offset →
  ∃ o, encode_tag_filter (Some f) pk offset = Ok o ∧
    let holds := eval (tags_hold like tags) (tags_have tags) (rename split_tag_name (filter_query f)) in
    match o with
    | Some (text, args) =>
        ∃ c, text = bound_text placeholder offset c ∧ args = args_of c ∧ clause_wf c = true
          ∧ (length args ≤ 2 * length (query_texts (rename split_tag_name (filter_query f))))%nat
          ∧ sem like (List.map (λ t, row_of (enc_tag pk t)) tags) c = holds
    | None => holds = true
    end.
Proof. apply encode_tag_filter_spec. Qed.

(** A profile key over the toy primitives. *)
Definition toy_profile_key : ProfileKey :=
  mkProfileKey (mkChacha (replicate 32 x01)) (mkChacha (replicate 32 x02))
    (mkHmacKey (replicate 32 x03)) (mkChacha (replicate 32 x04)) (mkChacha (replicate 32 x05))
    (mkHmacKey (replicate 32 x06)).

#[export] Instance toy_derivation :
  @LawfulDerivation Chacha20Key (@chacha_aead toy_cipher) (@chacha_lawful toy_cipher toy_cipher_laws)
    (@chacha_derivation toy_cipher) toy_hmac.
Proof. apply (chacha_derivation_lawful (HC := toy_cipher) (H := toy_hmac)); cbn; lia. Qed.

Definition toy_tags : list EntryTag := [EntryTag.Encrypted "a" "x"; EntryTag.Plaintext "n" "7"].
Definition toy_filter : TagFilter := all_of [is_eq "a" "x"; is_gt "~n" "5"].

Lemma toy_filter_ok :
  @filter_ok toy_cipher toy_cipher_laws toy_hmac toy_profile_key toy_tags
    (rename split_tag_name (filter_query toy_filter)) 3.
Proof.
  split.
  - repeat constructor; cbn; lia.
  - done.
  - done.
  - vm_compute. discriminate.
  - intros v n v' Hv Ht. cbn in Hv.
    assert (v' = "x") as ->.
    { unfold toy_tags in Ht. rewrite !elem_of_cons in Ht.
      destruct Ht as [Ht|[Ht|Ht]]; [by injection Ht|done|by apply elem_of_nil in Ht]. }
    rewrite !elem_of_cons in Hv.
    destruct Hv as [->|[->|[->|[->|Hv]]]]; [vm_compute; congruence..|by apply elem_of_nil in Hv].
Qed.

Lemma encode_tag_filter_correct_witness :
  ∃ o, @encode_tag_filter demo_allocator toy_hmac toy_cipher SqlitePrepare
         (Some toy_filter) toy_profile_key 3 = Ok o ∧
    match o with
    | Some (text, args) =>
        ∃ c, text = bound_text sqlite_placeholder 3 c ∧ args = args_of c ∧ clause_wf c = true
          ∧ (length args ≤ 2 * length (query_texts (rename split_tag_name (filter_query toy_filter))))%nat
          ∧ sem (λ _ _, false) (List.map (λ t, row_of
              (@enc_tag _ (@chacha_aead toy_cipher) (@chacha_lawful toy_cipher toy_cipher_laws) toy_hmac
                 toy_profile_key t)) toy_tags) c
            = eval (tags_hold (λ _ _, false) toy_tags) (tags_have toy_tags)
                (rename split_tag_name (filter_query toy_filter))
    | None => eval (tags_hold (λ _ _, false) toy_tags) (tags_have toy_tags)
                (rename split_tag_name (filter_query toy_filter)) = true
    end.
Proof.
  pose proof (@encode_tag_filter_correct demo_allocator toy_cipher toy_cipher_laws toy_hmac toy_derivation
    SqlitePrepare toy_profile_key toy_tags (λ _ _, false) toy_filter 3) as E.
  apply E; [repeat split|reflexivity|repeat constructor; cbn; lia|exact toy_filter_ok].
Defined.
