(* ===== verification/Session.v ===== *)
(** * Sessions and transactions

    Models the session part of askar-storage/src/backend/db_utils.rs:
    [DbSession] with its lazy connection, profile key and transaction depth,
    [DbSessionActive], [DbSessionTxn] and their destructors.

    The database is seen through the session's connection: its current contents
    and, innermost first, the contents saved when each open transaction or
    savepoint was begun.  Each call to the database may fail; [faults] says for
    the coming calls which do, with the text of the error. *)

From S2P Require Import Prelude Errors.
Local Open Scope string_scope.
Local Open Scope list_scope.

Definition backend_err (msg cause : string) : StorageError.Error :=
  StorageError.err_map StorageError.Backend msg cause.

(** The pool of connections of sqlx: open, with the outcomes of the coming calls on its
    connections, or closed: nobody can take a connection out of it any more. *)
Inductive PoolState : Type :=
| PoolOpen (faults : list (option string))
| PoolClosed.

Definition pool_faults (p : PoolState) : list (option string) := match p with PoolOpen fs => fs | PoolClosed => [] end.
Definition pool_is_closed (p : PoolState) : bool := match p with PoolOpen _ => false | PoolClosed => true end.

(** A closed pool stays closed. *)
Definition pool_refill (p : PoolState) (fs : list (option string)) : PoolState :=
  match p with PoolOpen _ => PoolOpen fs | PoolClosed => PoolClosed end.

(** The text of [sqlx::Error::PoolClosed]. *)
Definition pool_closed_text : string := "attempted to acquire a connection on a closed pool".

(** What a database does with its contents when a transaction or savepoint is begun,
    committed (the outermost one, or another), from the contents at its begin and the
    current ones, or rolled back. *)
Class TxnHooks (D : Type) := {
  on_begin : D → res string D;
  on_commit : bool → D → D → res string D;
  on_rollback : D → D → D;
}.

(** A database that keeps or restores its contents, and nothing else. *)
#[export] Instance plain_hooks {D} : TxnHooks D | 100 :=
  {| on_begin d := Ok d; on_commit _ _ d := Ok d; on_rollback d _ := d |}.

(** [D] is the contents of the database, [C] the shared key cache, [K] a profile
    key. *)
Section Sessions.
Context {D C K : Type}.

(** A pending session has a reference to the pool, and no connection of it: [pool_closed]
    says whether the pool is closed, as [session_visit] below finds it. A session that is active has one checked out. *)
Inductive DbSessionState : Type :=
| SActive
| SPending (pool_closed transaction : bool)
| SClosed.

Inductive DbSessionKey : Type :=
| KActive (profile_id : Z) (key : K)
| KPending (profile : string).

Record DbSession := mkSession {
  profile_key : DbSessionKey;
  state : DbSessionState;
  txn_depth : nat;
}.

Record World := mkWorld {
  db : D;
  saved : list D;
  faults : list (option string);
  cache : C;
  session : DbSession;
}.

Abbreviation M := (stm World StorageError.Error).

Definition set_db (d : D) (w : World) : World := mkWorld d (saved w) (faults w) (cache w) (session w).
Definition set_saved (d : D) (s : list D) (w : World) : World :=
  mkWorld d s (faults w) (cache w) (session w).
Definition set_cache (c : C) (w : World) : World := mkWorld (db w) (saved w) (faults w) c (session w).
Definition set_session (s : DbSession) (w : World) : World :=
  mkWorld (db w) (saved w) (faults w) (cache w) s.
Definition set_faults (fs : list (option string)) (w : World) : World :=
  mkWorld (db w) (saved w) fs (cache w) (session w).

(** A session, when its pool is found closed: it cannot acquire a connection any more. *)
Definition session_visit (pool_closed : bool) (w : World) : World :=
  match pool_closed, state (session w) with
  | true, SPending _ transaction =>
      set_session (mkSession (profile_key (session w)) (SPending true transaction) (txn_depth (session w))) w
  | _, _ => w
  end.

Definition set_depth (n : nat) : M () :=
  smod (λ w, set_session (mkSession (profile_key (session w)) (state (session w)) n) w).
Definition set_state (s : DbSessionState) : M () :=
  smod (λ w, set_session (mkSession (profile_key (session w)) s (txn_depth (session w))) w).
Definition set_key (k : DbSessionKey) : M () :=
  smod (λ w, set_session (mkSession k (state (session w)) (txn_depth (session w))) w).

(** The outcome of the next call to the database. *)
Definition db_call (on_err : string → StorageError.Error) : M () := λ w,
  match faults w with
  | [] => (w, Ok ())
  | None :: fs => (set_faults fs w, Ok ())
  | Some msg :: fs => (set_faults fs w, Err (on_err msg))
  end.

(** ** The transaction manager *)

(** A statement that ends a transaction, with what the database makes of it. *)
Definition ended (on_err : string → StorageError.Error) (r : res string D) (s : list D) : M () :=
  match r with
  | Ok d => smod (set_saved d s)
  | Err msg => sfail (on_err msg)
  | Panic => lift Panic
  end.

Definition tm_begin `{TxnHooks D} (on_err : string → StorageError.Error) : M () :=
  _ ← db_call on_err; w ← sget; ended on_err (on_begin (db w)) (db w :: saved w).

Definition tm_commit `{TxnHooks D} (on_err : string → StorageError.Error) : M () :=
  _ ← db_call on_err; w ← sget;
  match saved w with
  | d :: s => ended on_err (on_commit (match s with [] => true | _ => false end) d (db w)) s
  | [] => mret ()
  end.

Definition do_rollback `{TxnHooks D} (w : World) : World :=
  match saved w with d :: s => set_saved (on_rollback d (db w)) s w | [] => w end.

Definition tm_rollback `{TxnHooks D} (on_err : string → StorageError.Error) : M () :=
  _ ← db_call on_err; smod do_rollback.

(** Queued, to be run before the connection is next used. *)
Definition tm_start_rollback `{TxnHooks D} : M () := smod do_rollback.

(** [ExtDatabase::start_transaction]: by default only [begin]; SQLite takes the
    write lock of an outer transaction with a statement that changes nothing. *)
Class ExtDatabase := { outer_noop : bool }.

Definition start_transaction `{TxnHooks D} `{ExtDatabase} (on_err : string → StorageError.Error) (nested : bool) : M () :=
  _ ← tm_begin on_err;
  if outer_noop && negb nested then db_call on_err else mret ().

(** ** [DbSession] *)

Definition session_new (pool_closed : bool) (profile : string) (transaction : bool) : DbSession :=
  mkSession (KPending profile) (SPending pool_closed transaction) 0.

Definition in_transaction (s : DbSession) : bool :=
  if (0 <? txn_depth s)%nat then true
  else match state s with SPending _ true => true | _ => false end.

Definition profile_and_key (s : DbSession) : option (Z * K) :=
  match profile_key s with KActive pid key => Some (pid, key) | KPending _ => None end.

(** [connection_mut().unwrap()]. *)
Definition need_connection : M () :=
  w ← sget; match state (session w) with SActive => mret () | _ => lift Panic end.

(** [make_active]; [init_key] resolves the profile by name, given whether the
    session is in a transaction. *)
Definition make_active `{TxnHooks D} `{ExtDatabase} (init_key : string → bool → M (Z * K)) : M Z :=
  w ← sget;
  _ ← match state (session w) with
      | SPending pool_closed transaction =>
          _ ← (if pool_closed then sfail (backend_err "Error acquiring pool connection" pool_closed_text)
               else db_call (backend_err "Error acquiring pool connection"));
          _ ← (if transaction then
                 _ ← start_transaction (backend_err "Error starting transaction") false;
                 w ← sget; set_depth (txn_depth (session w) + 1)
               else mret ());
          set_state SActive
      | _ => mret ()
      end;
  w ← sget;
  match profile_key (session w) with
  | KPending profile =>
      _ ← set_key (KPending "");
      w ← sget;
      let in_txn := in_transaction (session w) in
      _ ← need_connection;
      '(profile_id, key) ← init_key profile in_txn;
      _ ← set_key (KActive profile_id key);
      mret profile_id
  | KActive profile_id _ => mret profile_id
  end.

Definition session_close `{TxnHooks D} (commit : bool) : M () :=
  w ← sget;
  let state := state (session w) in
  _ ← set_state SClosed;
  if (0 <? txn_depth (session w))%nat then
    _ ← set_depth 0;
    match state with
    | SActive =>
        if commit then tm_commit (backend_err "Error closing transaction")
        else tm_rollback (backend_err "Error closing transaction")
    | _ => mret ()
    end
  else mret ().

(** [Drop for DbSession]. *)
Definition session_drop `{TxnHooks D} : M () :=
  w ← sget;
  if (0 <? txn_depth (session w))%nat then
    _ ← set_depth 0;
    match state (session w) with SActive => tm_start_rollback | _ => mret () end
  else mret ().

(** ** Transactions within a session

    A [DbSessionTxn] is the flag that says whether dropping it rolls back. *)

(** [DbSessionActive::begin]. *)
Definition txn_begin `{TxnHooks D} `{ExtDatabase} : M bool :=
  _ ← need_connection;
  _ ← start_transaction (backend_err "Error starting nested transaction") true;
  w ← sget;
  _ ← set_depth (txn_depth (session w) + 1);
  mret true.

(** [DbSessionActive::as_transaction]. *)
Definition as_transaction `{TxnHooks D} `{ExtDatabase} : M bool :=
  w ← sget;
  if (txn_depth (session w) =? 0)%nat then
    _ ← need_connection;
    _ ← start_transaction (backend_err "Error starting transaction") false;
    w ← sget;
    _ ← set_depth (txn_depth (session w) + 1);
    mret true
  else mret false.

(** [self.inner.txn_depth -= 1]. *)
Definition dec_depth : M () :=
  w ← sget;
  match txn_depth (session w) with O => lift Panic | S n => set_depth n end.

Definition txn_commit `{TxnHooks D} (rollback : bool) : M () :=
  if rollback then
    _ ← dec_depth;
    _ ← need_connection;
    tm_commit (backend_err "Error committing transaction")
  else mret ().

(** [Drop for DbSessionTxn]. *)
Definition txn_drop `{TxnHooks D} (rollback : bool) : M () :=
  if rollback then
    _ ← dec_depth;
    _ ← need_connection;
    tm_start_rollback
  else mret ().

(** The pattern [let mut txn = active.as_transaction()?; body(&mut txn)?;
    txn.commit()?]: an error of the body drops the transaction. *)
Definition txn_scope `{TxnHooks D} {A} (body : M A) (rollback : bool) : M A := λ w,
  match body w with
  | (w, Ok a) => (_ ← txn_commit rollback; mret a) w
  | (w, Err e) =>
      match txn_drop rollback w with
      | (w, Panic) => (w, Panic)
      | (w, _) => (w, Err e)
      end
  | (w, Panic) => (w, Panic)
  end.

Definition with_txn `{TxnHooks D} `{ExtDatabase} {A} (body : M A) : M A :=
  rollback ← as_transaction; txn_scope body rollback.

End Sessions.
Arguments DbSessionKey K : clear implicits.
Arguments DbSession K : clear implicits.
Arguments World D C K : clear implicits.

(** ** Well-nested use of a session

    The transactions a caller holds, innermost first, and the steps it can take;
    the borrow checker makes it end them in that order.  [exec] is any use of
    the connection in between. *)

Section Steps.
Context {D C K : Type} `{ExtDatabase}.
Abbreviation W := (World D C K).

Inductive step : W * list bool → W * list bool → Prop :=
| step_begin w w' r hs : txn_begin w = (w', Ok r) → step (w, hs) (w', r :: hs)
| step_begin_fails w w' e hs : txn_begin w = (w', Err e) → step (w, hs) (w', hs)
| step_as w w' r hs : as_transaction w = (w', Ok r) → step (w, hs) (w', r :: hs)
| step_as_fails w w' e hs : as_transaction w = (w', Err e) → step (w, hs) (w', hs)
| step_commit w w' r hs : txn_commit r w = (w', Ok ()) → step (w, r :: hs) (w', hs)
| step_commit_fails w w' r e hs : txn_commit r w = (w', Err e) → step (w, r :: hs) (w', hs)
| step_drop w w' r hs : txn_drop r w = (w', Ok ()) → step (w, r :: hs) (w', hs)
| step_exec w w' hs : saved w' = saved w → session w' = session w →
    (faults w = [] → faults w' = []) → step (w, hs) (w', hs).

Definition open_count (hs : list bool) : nat := length (filter (λ r : bool, r = true) hs).

(** The depth counts the transactions to be ended, and the connection has at
    least as many open. *)
Definition depth_inv (base : nat) (s : W * list bool) : Prop :=
  state (session s.1) = SActive
  ∧ txn_depth (session s.1) = (base + open_count s.2)%nat
  ∧ (txn_depth (session s.1) ≤ length (saved s.1))%nat.

Ltac run_stm :=
  unfold txn_begin, as_transaction, txn_commit, txn_drop, start_transaction, tm_begin, tm_commit, ended,
    tm_start_rollback, dec_depth, need_connection, db_call, set_depth, do_rollback, set_saved, set_session,
    set_faults, smod, sget, lift, mret, stm_ret, mbind, stm_bind in *.

Lemma open_count_true hs : open_count (true :: hs) = S (open_count hs).
Proof. done. Qed.
Lemma open_count_false hs : open_count (false :: hs) = open_count hs.
Proof. done. Qed.

(** The effect of each operation on depth and saved contents. *)
Lemma begin_effect (w w' : W) r :
  txn_begin w = (w', r) → state (session w) = SActive →
  state (session w') = SActive ∧ cache w' = cache w ∧ db w' = db w ∧
  match r with
  | Ok b => b = true ∧ saved w' = db w :: saved w ∧ txn_depth (session w') = S (txn_depth (session w))
  | Err _ => txn_depth (session w') = txn_depth (session w) ∧ (∃ s, saved w' = s ++ saved w) ∧ faults w ≠ []
  | Panic => False
  end.
Proof.
  destruct w as [d s fs c [k st n]]. cbn. intros E ->. revert E. run_stm. cbn.
  rewrite andb_false_r.
  destruct fs as [|[f|] fs]; cbn; intros [= <- <-]; cbn; split_and!; try done; try lia;
    by eexists [].
Qed.

Lemma as_effect (w w' : W) r :
  as_transaction w = (w', r) → state (session w) = SActive →
  state (session w') = SActive ∧ cache w' = cache w ∧ db w' = db w ∧
  match r with
  | Ok true => txn_depth (session w) = 0%nat ∧ saved w' = db w :: saved w
      ∧ txn_depth (session w') = 1%nat
  | Ok false => w' = w ∧ txn_depth (session w) ≠ 0%nat
  | Err _ => txn_depth (session w') = txn_depth (session w) ∧ (∃ s, saved w' = s ++ saved w) ∧ faults w ≠ []
  | Panic => False
  end.
Proof.
  destruct w as [d s fs c [k st n]]. cbn. intros E ->. revert E. unfold as_transaction.
  unfold mbind at 1, stm_bind at 1, sget at 1. cbn [session txn_depth].
  destruct (Nat.eqb_spec n 0) as [->|Hn]; [|by intros [= <- <-]]. run_stm. cbn. rewrite andb_true_r.
  destruct outer_noop; cbn;
    destruct fs as [|[f|] fs]; cbn; try (destruct fs as [|[f|] fs]; cbn); intros [= <- <-]; cbn;
    split_and!; try done; try lia; first [by eexists [] | by eexists [_]].
Qed.

Lemma commit_effect (w w' : W) b r n :
  txn_commit b w = (w', r) → state (session w) = SActive →
  (b = true → txn_depth (session w) = S n) →
  state (session w') = SActive ∧ cache w' = cache w ∧ db w' = db w ∧
  if b then
    txn_depth (session w') = n ∧
    match r with
    | Ok _ => saved w' = tail (saved w)
    | Err _ => saved w' = saved w ∧ faults w ≠ []
    | Panic => False
    end
  else w' = w ∧ r = Ok ().
Proof.
  destruct w as [d s fs c [k st m]]. cbn. intros E -> Hd. revert E.
  destruct b; [|by intros [= <- <-]]. rewrite (Hd eq_refl). run_stm. cbn.
  destruct fs as [|[f|] fs], s as [|d' s]; cbn; intros [= <- <-]; done.
Qed.

Lemma drop_effect (w w' : W) b r n :
  txn_drop b w = (w', r) → state (session w) = SActive →
  (b = true → txn_depth (session w) = S n) →
  state (session w') = SActive ∧ cache w' = cache w ∧ r = Ok () ∧
  if b then
    txn_depth (session w') = n ∧ saved w' = tail (saved w)
    ∧ db w' = default (db w) (head (saved w))
  else w' = w.
Proof.
  destruct w as [d s fs c [k st m]]. cbn. intros E -> Hd. revert E.
  destruct b; [|by intros [= <- <-]]. rewrite (Hd eq_refl). run_stm. cbn.
  destruct s as [|d' s]; intros [= <- <-]; done.
Qed.

(** What a step needs of the depth of the handle it ends. *)
Lemma depth_inv_pop base (w : W) b hs :
  depth_inv base (w, b :: hs) → b = true → txn_depth (session w) = S (base + open_count hs).
Proof. intros (_ & Hd & _) ->. cbn [fst snd] in Hd. rewrite Hd, open_count_true. lia. Qed.

Lemma step_depth_inv base s s' : depth_inv base s → step s s' → depth_inv base s'.
Proof.
  intros Hinv Hstep. pose proof Hinv as (Hact & Hd & Hle).
  destruct Hstep as [w w' r hs E|w w' e hs E|w w' r hs E|w w' e hs E|w w' r hs E|w w' r e hs E|w w' r hs E|w w' hs Es Ese Ef];
    cbn [fst snd] in Hact, Hd, Hle.
  - apply begin_effect in E as (? & _ & _ & -> & Hs & Hn); [|done]. unfold depth_inv. cbn [fst snd].
    rewrite Hs, Hn, open_count_true. cbn. split_and!; [done|lia|lia].
  - apply begin_effect in E as (? & _ & _ & Hn & [s Hs] & _); [|done]. unfold depth_inv. cbn [fst snd].
    rewrite Hs, Hn, length_app. split_and!; [done|lia|lia].
  - apply as_effect in E as (? & _ & _ & E); [|done]. destruct r.
    + destruct E as (Hz & Hs & Hn). unfold depth_inv. cbn [fst snd]. rewrite Hs, Hn, open_count_true. cbn.
      split_and!; [done|lia|lia].
    + destruct E as [-> Hn]. unfold depth_inv. cbn [fst snd]. by rewrite open_count_false.
  - apply as_effect in E as (? & _ & _ & Hn & [s Hs] & _); [|done]. unfold depth_inv. cbn [fst snd].
    rewrite Hs, Hn, length_app. split_and!; [done|lia|lia].
  - pose proof (depth_inv_pop _ _ _ _ Hinv) as Hp.
    apply (commit_effect _ _ _ _ _ E) in Hp as (? & _ & _ & E'); [|done]. destruct r.
    + destruct E' as [Hn Hs]. unfold depth_inv. cbn [fst snd]. rewrite Hn, Hs.
      rewrite open_count_true in Hd. destruct (saved w); cbn in *; split_and!; (done || lia).
    + destruct E' as [-> _]. unfold depth_inv. cbn [fst snd]. by rewrite open_count_false in Hd.
  - pose proof (depth_inv_pop _ _ _ _ Hinv) as Hp.
    apply (commit_effect _ _ _ _ _ E) in Hp as (? & _ & _ & E'); [|done]. destruct r; [|by destruct E'].
    destruct E' as (Hn & Hs & _). unfold depth_inv. cbn [fst snd]. rewrite Hn, Hs.
    rewrite open_count_true in Hd. split_and!; (done || lia).
  - pose proof (depth_inv_pop _ _ _ _ Hinv) as Hp.
    apply (drop_effect _ _ _ _ _ E) in Hp as (? & _ & _ & E'); [|done]. destruct r.
    + destruct E' as (Hn & Hs & _). unfold depth_inv. cbn [fst snd]. rewrite Hn, Hs.
      rewrite open_count_true in Hd. destruct (saved w); cbn in *; split_and!; (done || lia).
    + subst w'. unfold depth_inv. cbn [fst snd]. by rewrite open_count_false in Hd.
  - unfold depth_inv. cbn [fst snd]. by rewrite Ese, Es.
Qed.

Lemma steps_depth_inv base s s' : depth_inv base s → rtc step s s' → depth_inv base s'.
Proof. intros Hi Hs. induction Hs; eauto using step_depth_inv. Qed.

(** Without failing calls the connection's open transactions are exactly those
    counted, and the oldest saved contents are those of the start. *)
Definition exact_inv (base : nat) (bottom : list D) (s : W * list bool) : Prop :=
  depth_inv base s ∧ faults s.1 = []
  ∧ ∃ top, saved s.1 = top ++ bottom ∧ length top = open_count s.2.

Lemma no_faults (w w' : W) :
  faults w = [] →
  (∀ r, txn_begin w = (w', r) → faults w' = [])
  ∧ (∀ r, as_transaction w = (w', r) → faults w' = [])
  ∧ (∀ b r, txn_commit b w = (w', r) → faults w' = [])
  ∧ (∀ b r, txn_drop b w = (w', r) → faults w' = []).
Proof.
  destruct w as [d s fs c [k st n]]. cbn. intros ->. split_and!.
  - intros r. run_stm. destruct st; cbn; [|by intros [= <- <-]..].
    destruct (_ && _); cbn; by intros [= <- <-].
  - intros r. unfold as_transaction, mbind at 1, stm_bind at 1, sget at 1. cbn [session txn_depth].
    destruct (n =? 0)%nat; [|by intros [= <- <-]]. run_stm. destruct st; cbn; [|by intros [= <- <-]..].
    destruct (_ && _); cbn; by intros [= <- <-].
  - intros [] r; [|by intros [= <- <-]]. run_stm. destruct n, st, s; cbn; by intros [= <- <-].
  - intros [] r; [|by intros [= <- <-]]. run_stm.
    destruct n, st, s; cbn; by intros [= <- <-].
Qed.

Lemma tail_top (top bottom : list D) n :
  length top = S n → ∃ d top', top = d :: top' ∧ length top' = n.
Proof. destruct top as [|d top]; [done|]. intros [= ?]. by exists d, top. Qed.

Lemma step_exact_inv base bottom s s' : exact_inv base bottom s → step s s' → exact_inv base bottom s'.
Proof.
  intros (Hinv & Hf & top & Hs & Hl) Hstep. split; [by eapply step_depth_inv|].
  pose proof Hinv as (Hact & Hd & Hle).
  destruct Hstep as [w w' r hs E|w w' e hs E|w w' r hs E|w w' e hs E|w w' r hs E|w w' r e hs E|w w' r hs E|w w' hs Es Ese Ef];
    cbn [fst snd] in *; try (destruct (no_faults w w' Hf) as (Nb & Na & Nc & Nd)).
  - split; [by eapply Nb|]. apply begin_effect in E as (_ & _ & _ & -> & E & _); [|done].
    exists (db w :: top). rewrite E, Hs, open_count_true. cbn. by rewrite Hl.
  - apply begin_effect in E as (_ & _ & _ & _ & _ & ?); done.
  - split; [by eapply Na|]. apply as_effect in E as (_ & _ & _ & E); [|done]. destruct r.
    + destruct E as (_ & E & _). exists (db w :: top). rewrite E, Hs, open_count_true. cbn. by rewrite Hl.
    + destruct E as [-> _]. exists top. by rewrite open_count_false.
  - apply as_effect in E as (_ & _ & _ & _ & _ & ?); done.
  - split; [by eapply Nc|]. pose proof (depth_inv_pop _ _ _ _ Hinv) as Hp.
    apply (commit_effect _ _ _ _ _ E) in Hp as (_ & _ & _ & E'); [|done]. destruct r.
    + destruct E' as [_ E']. rewrite open_count_true in Hl.
      destruct (tail_top top bottom _ Hl) as (d & top' & -> & Hl'). exists top'. by rewrite E', Hs.
    + destruct E' as [-> _]. exists top. by rewrite open_count_false in Hl.
  - pose proof (depth_inv_pop _ _ _ _ Hinv) as Hp.
    apply (commit_effect _ _ _ _ _ E) in Hp as (_ & _ & _ & E'); [|done]. destruct r.
    + by destruct E' as (_ & _ & ?).
    + by destruct E' as [_ ?].
  - split; [by eapply Nd|]. pose proof (depth_inv_pop _ _ _ _ Hinv) as Hp.
    apply (drop_effect _ _ _ _ _ E) in Hp as (_ & _ & _ & E'); [|done]. destruct r.
    + destruct E' as (_ & E' & _). rewrite open_count_true in Hl.
      destruct (tail_top top bottom _ Hl) as (d & top' & -> & Hl'). exists top'. by rewrite E', Hs.
    + subst w'. exists top. by rewrite open_count_false in Hl.
  - split; [auto|]. exists top. by rewrite Es.
Qed.

Lemma steps_exact_inv base bottom s s' :
  exact_inv base bottom s → rtc step s s' → exact_inv base bottom s'.
Proof. intros Hi Hs. induction Hs; eauto using step_exact_inv. Qed.

End Steps.

(** ** Properties *)

Section Properties.
Context {D C K : Type} `{ExtDatabase}.
Abbreviation W := (World D C K).

(** C16: Whatever calls fail, a transaction a caller holds can always be committed or
    dropped: the depth counter never underflows and the connection is there. *)
Theorem txn_end_never_panics (w0 w : W) r hs :
  state (session w0) = SActive → (txn_depth (session w0) ≤ length (saved w0))%nat →
  rtc step (w0, []) (w, r :: hs) →
  (txn_commit r w).2 ≠ Panic ∧ (txn_drop r w).2 ≠ Panic
  ∧ txn_depth (session w) = (txn_depth (session w0) + open_count (r :: hs))%nat.
Proof.
  intros Hact Hle Hsteps.
  assert (Hinv : depth_inv (txn_depth (session w0)) (w, r :: hs)).
  { eapply steps_depth_inv; [|done]. split_and!; [done|cbn; lia|done]. }
  pose proof (depth_inv_pop _ _ _ _ Hinv) as Hp. destruct Hinv as (Ha & Hd & _).
  split_and!; [| |done].
  - destruct (txn_commit r w) as [w' res] eqn:E.
    destruct (commit_effect _ _ _ _ _ E Ha Hp) as (_ & _ & _ & E'). intros Hr. cbn in Hr.
    subst res. destruct r; by destruct E'.
  - destruct (txn_drop r w) as [w' res] eqn:E.
    by destruct (drop_effect _ _ _ _ _ E Ha Hp) as (_ & _ & -> & _).
Qed.

(** A transaction session, on a connection without failures: once every inner
    transaction has ended, closing it with commit leaves the contents as they
    are and nothing open, and closing it without, or dropping it, restores the
    contents it started from. *)
Theorem session_close_outcome (w0 w : W) d0 :
  state (session w0) = SActive → txn_depth (session w0) = 1%nat → faults w0 = [] →
  saved w0 = [d0] → rtc step (w0, []) (w, []) →
  (∃ w', session_close true w = (w', Ok ()) ∧ db w' = db w ∧ saved w' = []
         ∧ state (session w') = SClosed)
  ∧ (∃ w', session_close false w = (w', Ok ()) ∧ db w' = d0 ∧ saved w' = [])
  ∧ (∃ w', session_drop w = (w', Ok ()) ∧ db w' = d0 ∧ saved w' = []).
Proof.
  intros Hact Hd Hf Hs Hsteps.
  assert (Hinv : exact_inv 1 [d0] (w, [])).
  { eapply steps_exact_inv; [|done]. split; [split_and!; [done|cbn; lia|cbn; rewrite Hs, Hd; done]|].
    split; [done|]. by exists []. }
  destruct Hinv as ((Ha & Hdw & _) & Hfw & top & Hsw & Hl). cbn in *.
  destruct top; [|done]. destruct w as [d s fs c [k st n]]. cbn in *. subst.
  split_and!; (eexists; split; [cbv; reflexivity|by split_and!]).
Qed.

(** A body that only uses the connection and leaves its transactions alone. *)
Definition body_ok {A} (body : stm W StorageError.Error A) : Prop :=
  ∀ w, saved (body w).1 = saved w ∧ session (body w).1 = session w
    ∧ (faults w = [] → faults (body w).1 = []).

Lemma body_bind {A B} (m : stm W StorageError.Error A) (f : A → stm W StorageError.Error B) :
  body_ok m → (∀ a, body_ok (f a)) → body_ok (a ← m; f a).
Proof.
  intros Hm Hf w. unfold mbind, stm_bind. destruct (Hm w) as (H1 & H2 & H3).
  destruct (m w) as [w1 [a|e|]]; cbn in *; [|done..].
  destruct (Hf a w1) as (G1 & G2 & G3). rewrite G1, G2. split_and!; auto.
Qed.

Lemma body_lift {A} (r : sres A) : body_ok (lift r).
Proof. done. Qed.

Lemma body_ret {A} (a : A) : body_ok (mret a).
Proof. done. Qed.

Lemma with_txn_spec {A} (body : stm W StorageError.Error A) (w : W) :
  body_ok body → state (session w) = SActive → faults w = [] →
  (txn_depth (session w) = 0%nat →
   ∃ w', let begun := mkWorld (db w) (db w :: saved w) [] (cache w)
            (mkSession (profile_key (session w)) SActive 1) in
     with_txn body w = (w', (body begun).2)
     ∧ ((body begun).2 ≠ Panic → saved w' = saved w ∧ session w' = session w ∧ faults w' = [] ∧
        db w' = match (body begun).2 with Ok _ => db (body begun).1 | _ => db w end))
  ∧ (txn_depth (session w) ≠ 0%nat → with_txn body w = body w).
Proof.
  intros Hb Hact Hf. unfold with_txn. destruct w as [d s fs c [k st n]]. cbn in *. subst. split.
  - intros ->. set (begun := mkWorld d (d :: s) [] c (mkSession k SActive 1)).
    assert (Eas : as_transaction (mkWorld d s [] c (mkSession k SActive 0)) = (begun, Ok true)).
    { unfold as_transaction, start_transaction. destruct outer_noop; reflexivity. }
    rewrite (stm_bind_ok _ _ _ _ _ Eas). unfold txn_scope.
    destruct (Hb begun) as (Hs & Hse & Hfa). destruct (body begun) as [w1 r].
    destruct w1 as [d1 s1 fs1 c1 se1]. cbn in Hs, Hse, Hfa. subst. rewrite (Hfa eq_refl).
    destruct r as [a|e|]; eexists; by split.
  - intros Hn. unfold as_transaction, mbind, stm_bind, sget. cbn [session txn_depth].
    rewrite (proj2 (Nat.eqb_neq _ _)) by done. cbn. unfold txn_scope.
    destruct (body _) as [w1 [a|e|]]; reflexivity.
Qed.

(** Running a body in a transaction of its own is atomic: if the body fails, the
    contents are restored; if it succeeds they are the body's; in both cases no
    transaction is left open.  Within a transaction of the session the body runs
    in that one and a failure undoes nothing. *)
Theorem with_txn_atomic {A} (body : stm W StorageError.Error A) (w : W) :
  body_ok body → state (session w) = SActive → faults w = [] →
  (txn_depth (session w) = 0%nat →
   ∃ w', let begun := mkWorld (db w) (db w :: saved w) [] (cache w)
            (mkSession (profile_key (session w)) SActive 1) in
     with_txn body w = (w', (body begun).2)
     ∧ ((body begun).2 ≠ Panic → saved w' = saved w ∧ session w' = session w ∧ faults w' = [] ∧
        db w' = match (body begun).2 with Ok _ => db (body begun).1 | _ => db w end))
  ∧ (txn_depth (session w) ≠ 0%nat → with_txn body w = body w).
Proof. apply with_txn_spec. Qed.

(** A failed key lookup leaves the session without its profile name: the next
    use of the session looks for the profile with the empty name. *)
Theorem make_active_forgets_profile (init_key : string → bool → stm W StorageError.Error (Z * K))
    (w w1 : W) profile e :
  state (session w) = SActive → profile_key (session w) = KPending profile →
  let asked := set_session (mkSession (KPending "") SActive (txn_depth (session w))) w in
  init_key profile (in_transaction (session asked)) asked = (w1, Err e) →
  session w1 = session asked →
  make_active init_key w = (w1, Err e)
  ∧ profile_key (session w1) = KPending ""
  ∧ make_active init_key w1 = ('(pid, key) ← init_key "" (in_transaction (session w1));
                               _ ← set_key (KActive pid key); mret pid) w1.
Proof.
  destruct w as [d s fs c [k st n]]. destruct w1 as [d1 s1 fs1 c1 se1]. cbn.
  intros -> -> Ei ->. unfold make_active, set_key, smod, set_session, need_connection, sget, mret, stm_ret.
  unfold mbind, stm_bind. cbn. unfold set_session in Ei. cbn in Ei. rewrite Ei. split_and!; [done..|].
  by destruct (init_key "" _ _) as [? [[]| |]].
Qed.

End Properties.

(** ** Examples: the contents are a number *)

#[local] Instance example_db : ExtDatabase := {| outer_noop := true |}.

Definition example_world (d : nat) (saved : list nat) (depth : nat) : World nat unit unit :=
  mkWorld d saved [] tt (mkSession (KActive 1 tt) SActive depth).

Lemma txn_end_never_panics_witness :
  (txn_commit true (example_world 7 [7%nat] 1)).2 ≠ Panic
  ∧ (txn_drop true (example_world 7 [7%nat] 1)).2 ≠ Panic
  ∧ txn_depth (session (example_world 7 [7%nat] 1)) = 1%nat.
Proof.
  pose proof (txn_end_never_panics (example_world 7 [] 0) (example_world 7 [7%nat] 1) true []) as E.
  apply E; [reflexivity|cbn; lia|]. apply rtc_once, step_begin. reflexivity.
Defined.

Lemma session_close_outcome_witness :
  ∃ w', session_close false (example_world 9 [7%nat] 1) = (w', Ok ()) ∧ db w' = 7%nat ∧ saved w' = [].
Proof.
  pose proof (session_close_outcome (example_world 7 [7%nat] 1) (example_world 9 [7%nat] 1) 7) as E.
  destruct E as (_ & E & _); [reflexivity..| |exact E].
  apply rtc_once, step_exec; [reflexivity|reflexivity|intros; reflexivity].
Defined.

(** A body that writes and then fails. *)
Definition failing_body : stm (World nat unit unit) StorageError.Error unit :=
  λ w, (set_db 9 w, Err (StorageError.from_kind StorageError.Backend)).

Lemma with_txn_atomic_witness :
  ∃ w', with_txn failing_body (example_world 7 [] 0)
        = (w', Err (StorageError.from_kind StorageError.Backend)) ∧ db w' = 7%nat ∧ saved w' = [].
Proof.
  pose proof (with_txn_atomic failing_body (example_world 7 [] 0)) as E.
  destruct E as [E _]; [intros w; destruct w; cbn; auto|reflexivity|reflexivity|].
  destruct (E eq_refl) as (w' & E1 & E2). exists w'. split; [exact E1|].
  destruct E2 as (Es & _ & _ & Ed); [discriminate|]. split; [exact Ed|exact Es].
Defined.

(** A lookup that finds no profile. *)
Definition failing_lookup (name : string) (in_txn : bool)
  : stm (World nat unit unit) StorageError.Error (Z * unit) :=
  sfail (StorageError.from_kind StorageError.NotFound).

Lemma make_active_forgets_profile_witness :
  let w := mkWorld 7%nat [] [] tt (mkSession (KPending "alice") SActive 0) in
  let w1 := mkWorld 7%nat [] [] tt (mkSession (KPending "") SActive 0) in
  make_active failing_lookup w = (w1, Err (StorageError.from_kind StorageError.NotFound)).
Proof.
  intros w w1.
  pose proof (make_active_forgets_profile failing_lookup w w1 "alice") as E.
  apply E; reflexivity.
Defined.
