(* ===== verification/SqliteDb.v ===== *)
(** * The tables of a SQLite store

    The schema created by [init_db] in askar-storage/src/backend/sqlite/provision.rs
    and the statements of askar-storage/src/backend/sqlite/mod.rs, as functions
    on the tables.  Rows are kept in the order of their [INTEGER PRIMARY KEY];
    a new row gets one more than the largest in use.  Foreign keys are enforced
    and deletions cascade. *)

From S2P Require Import Prelude Errors DbQuery TagSqlSem SqlEval Entry DbUtils.
Local Open Scope string_scope.
Local Open Scope list_scope.

Record ProfileRow := mkProfile {
  p_id : Z;
  p_name : string;
  p_key : bytes;
}.

Record ItemRow := mkItem {
  i_id : Z;
  i_profile : Z;
  i_kind : Z;
  i_category : bytes;
  i_name : bytes;
  i_value : bytes;
  i_expiry : option Z;
}.

Record TagRec := mkTagRec {
  t_item : Z;
  t_tag : EncEntryTag;
}.

Record Db := mkDb {
  config : list (string * string);
  profiles : list ProfileRow;
  items : list ItemRow;
  items_tags : list TagRec;
}.

Definition set_items (l : list ItemRow) (d : Db) : Db := mkDb (config d) (profiles d) l (items_tags d).
Definition set_tags (l : list TagRec) (d : Db) : Db := mkDb (config d) (profiles d) (items d) l.
Definition set_profiles (l : list ProfileRow) (d : Db) : Db := mkDb (config d) l (items d) (items_tags d).
Definition set_config (l : list (string * string)) (d : Db) : Db :=
  mkDb l (profiles d) (items d) (items_tags d).

(** The next [INTEGER PRIMARY KEY]. *)
Definition next_id (ids : list Z) : Z := (foldr Z.max 0 ids + 1)%Z.

(** The columns of the unique index on items. *)
Definition item_key (r : ItemRow) : Z * Z * bytes * bytes :=
  (i_profile r, i_kind r, i_category r, i_name r).

Abbreviation IKey := (Z * Z * bytes * bytes)%type.

Definition has_key (k : IKey) (r : ItemRow) : bool := bool_decide (item_key r = k).

Definition find_item (k : IKey) (d : Db) : option ItemRow := List.find (has_key k) (items d).

Definition item_tags (id : Z) (d : Db) : list EncEntryTag :=
  List.map t_tag (List.filter (λ t, bool_decide (t_item t = id)) (items_tags d)).

Definition has_profile (pid : Z) (d : Db) : bool :=
  existsb (λ p, bool_decide (p_id p = pid)) (profiles d).

(** Instants are in milliseconds; databases compare them at a resolution of their own. *)
Class Resolution := resolution : Z.

Definition unexpired `{Resolution} (now : Z) (expiry : option Z) : bool :=
  match expiry with None => true | Some t => (now / resolution <? t / resolution)%Z end.

(** [expiry IS NULL OR DATETIME(expiry) > DATETIME('now')]: in whole seconds. *)
Definition sqlite_resolution : Resolution := 1000%Z.
Definition live (now : Z) (r : ItemRow) : bool := unexpired (H := sqlite_resolution) now (i_expiry r).

(** ** Statements; the error is the text of the database's *)

(** [INSERT_QUERY]: the new row's id, or none when the unique index has the key. *)
Definition sql_insert_item (k : IKey) (value : bytes) (expiry : option Z) (d : Db)
    : res string (Db * option Z) :=
  let '(pid, kind, category, name) := k in
  match find_item k d with
  | Some _ => Ok (d, None)
  | None =>
      if negb (has_profile pid d) then Err "FOREIGN KEY constraint failed" else
      let id := next_id (List.map i_id (items d)) in
      Ok (set_items (items d ++ [mkItem id pid kind category name value expiry]) d, Some id)
  end.

(** [UPDATE_QUERY] with [fetch_one]. *)
Definition sql_update_item (k : IKey) (value : bytes) (expiry : option Z) (d : Db)
    : res string (Db * Z) :=
  match find_item k d with
  | None => Err "no rows returned by a query that expected to return at least one row"
  | Some r =>
      let upd r := if has_key k r
        then mkItem (i_id r) (i_profile r) (i_kind r) (i_category r) (i_name r) value expiry else r in
      Ok (set_items (List.map upd (items d)) d, i_id r)
  end.

(** [TAG_DELETE_QUERY]. *)
Definition sql_delete_tags (id : Z) (d : Db) : res string (Db * ()) :=
  Ok (set_tags (List.filter (λ t, negb (bool_decide (t_item t = id))) (items_tags d)) d, ()).

(** [TAG_INSERT_QUERY]. *)
Definition sql_insert_tag (id : Z) (t : EncEntryTag) (d : Db) : res string (Db * ()) :=
  if negb (existsb (λ r, bool_decide (i_id r = id)) (items d))
  then Err "FOREIGN KEY constraint failed"
  else Ok (set_tags (items_tags d ++ [mkTagRec id t]) d, ()).

(** Rows deleted from items, with the tags that refer to them. *)
Definition delete_items (p : ItemRow → bool) (d : Db) : Db * Z :=
  let gone := List.filter p (items d) in
  let dead t := existsb (λ r, bool_decide (i_id r = t_item t)) gone in
  (mkDb (config d) (profiles d) (List.filter (negb ∘ p) (items d))
     (List.filter (negb ∘ dead) (items_tags d)),
   Z.of_nat (length gone)).

(** [DELETE_QUERY]. *)
Definition sql_delete_item (k : IKey) (d : Db) : res string (Db * Z) := Ok (delete_items (has_key k) d).

(** [FETCH_QUERY]: the value and the tags column. *)
Definition sql_fetch_item (now : Z) (k : IKey) (d : Db) : res string (Db * option (bytes * bytes)) :=
  Ok (d, r ← List.find (λ r, has_key k r && live now r) (items d);
         Some (i_value r, tags_column (item_tags (i_id r) d))).

(** The rows an optional kind and category select. *)
Definition selected (pid : Z) (kind : option Z) (category : option bytes) (r : ItemRow) : bool :=
  bool_decide (i_profile r = pid)
  && match kind with Some k => bool_decide (i_kind r = k) | None => true end
  && match category with Some c => bool_decide (i_category r = c) | None => true end.

(** ** Filters, and the order of rows nobody asked to sort *)

Class SqlEngine := {
  (** [LIKE] on blobs. *)
  sql_like : bytes → bytes → bool;
  (** The order of a [SELECT] without [ORDER BY]. *)
  natural_order : list ItemRow → list ItemRow;
  natural_order_perm l : natural_order l ≡ₚ l;
}.

Section Select.
Context `{SqlEngine}.

(** The three parameters precede those of the filter. *)
Definition matches (filter : option (string * list bytes)) (d : Db) (r : ItemRow) : bool :=
  match filter with
  | Some (clause, args) => eval_clause "?" sql_like 3 clause args (List.map row_of (item_tags (i_id r) d))
  | None => true
  end.

(** [COUNT_QUERY]. *)
Definition sql_count (now pid : Z) (kind : option Z) (category : option bytes)
    (filter : option (string * list bytes)) (d : Db) : res string (Db * Z) :=
  Ok (d, Z.of_nat (length (List.filter (λ r, selected pid kind category r && live now r
                                            && matches filter d r) (items d)))).

(** [DELETE_ALL_QUERY], which does not look at the expiry. *)
Definition sql_delete_all (pid : Z) (kind : option Z) (category : option bytes)
    (filter : option (string * list bytes)) (d : Db) : res string (Db * Z) :=
  Ok (delete_items (λ r, selected pid kind category r && matches filter d r) d).

(** [LIMIT offset, limit]: negative values mean none. *)
Definition sql_limit {A} (offset limit : option Z) (l : list A) : list A :=
  match offset, limit with
  | None, None => l
  | _, _ =>
      let l := drop (Z.to_nat (default 0%Z offset)) l in
      let n := default (-1)%Z limit in
      if (n <? 0)%Z then l else take (Z.to_nat n) l
  end.

(** [SCAN_QUERY]: kind, category, name, value and tags of the rows. *)
Definition scan_row (d : Db) (r : ItemRow) : Z * bytes * bytes * bytes * bytes :=
  (i_kind r, i_category r, i_name r, i_value r, tags_column (item_tags (i_id r) d)).

Definition sql_scan (now pid : Z) (kind : option Z) (category : option bytes)
    (filter : option (string * list bytes)) (offset limit : option Z) (order_by : option OrderBy)
    (descending : bool) (d : Db) : list (Z * bytes * bytes * bytes * bytes) :=
  let rows := List.filter (λ r, selected pid kind category r && live now r && matches filter d r) (items d) in
  let rows := match order_by with
    | Some OrderBy.Id => if descending then rev rows else rows
    | None => natural_order rows
    end in
  List.map (scan_row d) (sql_limit offset limit rows).
End Select.

(** ** Profiles and configuration *)

Definition sql_insert_profile (name : string) (key : bytes) (d : Db) : res string (Db * option Z) :=
  if existsb (λ p, String.eqb (p_name p) name) (profiles d) then Ok (d, None)
  else
    let id := next_id (List.map p_id (profiles d)) in
    Ok (set_profiles (profiles d ++ [mkProfile id name key]) d, Some id).

Definition sql_find_profile (name : string) (d : Db) : res string (Db * option (Z * bytes)) :=
  Ok (d, p ← List.find (λ p, String.eqb (p_name p) name) (profiles d); Some (p_id p, p_key p)).

(** Profiles deleted, with the items that refer to them. *)
Definition sql_delete_profile (name : string) (d : Db) : res string (Db * Z) :=
  let gone := List.filter (λ p, String.eqb (p_name p) name) (profiles d) in
  let orphan r := existsb (λ p, bool_decide (p_id p = i_profile r)) gone in
  let '(d, _) := delete_items orphan d in
  Ok (set_profiles (List.filter (λ p, negb (String.eqb (p_name p) name)) (profiles d)) d,
      Z.of_nat (length gone)).

Definition sql_update_profile_key (pid : Z) (key : bytes) (d : Db) : res string (Db * Z) :=
  let upd p := if bool_decide (p_id p = pid) then mkProfile (p_id p) (p_name p) key else p in
  Ok (set_profiles (List.map upd (profiles d)) d,
      Z.of_nat (length (List.filter (λ p, bool_decide (p_id p = pid)) (profiles d)))).

Definition config_get (name : string) (d : Db) : option string :=
  snd <$> List.find (λ c, String.eqb (fst c) name) (config d).

(** [CONFIG_UPDATE_QUERY]: insert or replace. *)
Definition config_set (name value : string) (d : Db) : Db :=
  set_config (List.filter (λ c, negb (String.eqb (fst c) name)) (config d) ++ [(name, value)]) d.

(** [UPDATE config SET value=?1 WHERE name='key']. *)
Definition config_update (name value : string) (d : Db) : Db * Z :=
  (set_config (List.map (λ c, if String.eqb (fst c) name then (name, value) else c) (config d)) d,
   Z.of_nat (length (List.filter (λ c, String.eqb (fst c) name) (config d)))).

(** The tables of a new store. *)
Definition init_tables (profile_name store_key_ref : string) (enc_profile_key : bytes) : Db :=
  mkDb [("default_profile", profile_name); ("key", store_key_ref); ("version", "1")]
    [mkProfile 1 profile_name enc_profile_key] [] [].

(** ** The invariant of the tables *)

Record db_wf (d : Db) : Prop := {
  keys_unique : NoDup (List.map item_key (items d));
  ids_unique : NoDup (List.map i_id (items d));
  items_have_profile : Forall (λ r, has_profile (i_profile r) d = true) (items d);
  tags_have_item : Forall (λ t, t_item t ∈ List.map i_id (items d)) (items_tags d);
  profile_ids_unique : NoDup (List.map p_id (profiles d));
  profile_names_unique : NoDup (List.map p_name (profiles d));
}.

(** What a store holds for a key: the value, its expiry and its tags. *)
Definition view (d : Db) (k : IKey) : option (bytes * option Z * list EncEntryTag) :=
  r ← find_item k d; Some (i_value r, i_expiry r, item_tags (i_id r) d).

Lemma foldr_max_ge ids x : x ∈ ids → (x ≤ foldr Z.max 0 ids)%Z.
Proof. induction ids as [|y ids IH]; [by intros ?%elem_of_nil|]. intros [->|Hx]%elem_of_cons; cbn; [lia|]. specialize (IH Hx). lia. Qed.

Lemma next_id_fresh ids : next_id ids ∉ ids.
Proof. intros Hin%foldr_max_ge. unfold next_id in Hin. lia. Qed.

Lemma find_app {A} (p : A → bool) l1 l2 :
  List.find p (l1 ++ l2) = match List.find p l1 with Some x => Some x | None => List.find p l2 end.
Proof. induction l1 as [|x l1 IH]; [done|]. cbn. by destruct (p x). Qed.

Lemma find_item_in k d r : find_item k d = Some r → r ∈ items d ∧ item_key r = k.
Proof.
  unfold find_item. intros [Hin Hk]%find_some. split; [by apply list_elem_of_In|].
  by apply bool_decide_eq_true in Hk.
Qed.

Lemma find_item_none k d : find_item k d = None ↔ k ∉ List.map item_key (items d).
Proof.
  unfold find_item. split.
  - intros Hn (r & -> & Hr)%list_elem_of_fmap. eapply find_none in Hn; [|by apply list_elem_of_In].
    unfold has_key in Hn. by rewrite bool_decide_true in Hn.
  - intros Hk. destruct (List.find _ _) as [r|] eqn:E; [|done]. exfalso. apply Hk.
    apply (find_item_in k d) in E as [Hin <-]. apply list_elem_of_fmap. eauto.
Qed.

Lemma find_item_unique k d r :
  NoDup (List.map item_key (items d)) → r ∈ items d → item_key r = k → find_item k d = Some r.
Proof.
  unfold find_item. intros Hnd. induction (items d) as [|r' l IH]; [by intros ?%elem_of_nil|].
  cbn in Hnd |- *. apply NoDup_cons in Hnd as [Hni Hnd]. intros [->|Hin]%elem_of_cons Hk.
  - unfold has_key. by rewrite bool_decide_true.
  - unfold has_key at 1. rewrite bool_decide_false; [by apply IH|].
    intros E. apply Hni. rewrite E, <- Hk. apply list_elem_of_fmap. eauto.
Qed.

(** Rows of a table with distinct ids are told apart by them. *)
Lemma nodup_inj {A B} (f : A → B) (l : list A) x y :
  NoDup (List.map f l) → x ∈ l → y ∈ l → f x = f y → x = y.
Proof.
  induction l as [|z l IH]; [by intros _ ?%elem_of_nil|]. cbn. intros [Hn Hd]%NoDup_cons.
  intros [->|Hx]%elem_of_cons [->|Hy]%elem_of_cons E; [done|..|by apply IH].
  - exfalso. apply Hn. rewrite E. apply list_elem_of_fmap. eauto.
  - exfalso. apply Hn. rewrite <- E. apply list_elem_of_fmap. eauto.
Qed.

(** *** Tags *)

Lemma item_tags_app id d t :
  item_tags id (set_tags (items_tags d ++ [t]) d)
  = item_tags id d ++ (if decide (t_item t = id) then [t_tag t] else []).
Proof.
  unfold item_tags. cbn. rewrite List.filter_app, List.map_app. cbn.
  destruct (decide (t_item t = id)) as [E|E]; [by rewrite bool_decide_true|by rewrite bool_decide_false].
Qed.

Lemma item_tags_unused id d :
  Forall (λ t, t_item t ∈ List.map i_id (items d)) (items_tags d) →
  id ∉ List.map i_id (items d) → item_tags id d = [].
Proof.
  intros Hf Hid. unfold item_tags. induction Hf as [|t l Ht _ IH]; [done|]. cbn.
  rewrite bool_decide_false; [done|]. intros <-. done.
Qed.

(** Inserting a list of tags for an item, one statement each. *)
Fixpoint insert_all_tags (id : Z) (ts : list EncEntryTag) (d : Db) : res string (Db * ()) :=
  match ts with
  | [] => Ok (d, ())
  | t :: ts' => '(d, _) ← sql_insert_tag id t d; insert_all_tags id ts' d
  end.

Lemma item_exists_bool id d :
  id ∈ List.map i_id (items d) → existsb (λ r, bool_decide (i_id r = id)) (items d) = true.
Proof.
  intros (r & -> & Hr)%list_elem_of_fmap. apply existsb_exists. exists r.
  split; [by apply list_elem_of_In|]. by apply bool_decide_eq_true.
Qed.

Lemma insert_all_tags_ok id ts : ∀ d,
  id ∈ List.map i_id (items d) →
  ∃ d', insert_all_tags id ts d = Ok (d', ())
    ∧ items d' = items d ∧ profiles d' = profiles d ∧ config d' = config d
    ∧ (∀ id', item_tags id' d' = item_tags id' d ++ (if decide (id = id') then ts else []))
    ∧ items_tags d' = items_tags d ++ List.map (mkTagRec id) ts.
Proof.
  induction ts as [|t ts IH]; intros d Hid.
  - exists d. split_and!; try done; [|by rewrite app_nil_r].
    intros id'. case_decide; by rewrite app_nil_r.
  - cbn [insert_all_tags]. unfold sql_insert_tag. rewrite item_exists_bool by done. cbn [negb mbind res_bind].
    destruct (IH (set_tags (items_tags d ++ [mkTagRec id t]) d)) as (d' & -> & Hi & Hp & Hc & Ht & Hl); [done|].
    exists d'. split_and!; try done.
    + intros id'. rewrite Ht, item_tags_app. cbn. rewrite <- app_assoc. f_equal.
      by destruct (decide (id = id')).
    + rewrite Hl. cbn. by rewrite <- app_assoc.
Qed.

(** *** Inserting an item *)

Definition new_item (k : IKey) (id : Z) (value : bytes) (expiry : option Z) : ItemRow :=
  let '(pid, kind, category, name) := k in mkItem id pid kind category name value expiry.

Lemma new_item_key k id v e : item_key (new_item k id v e) = k ∧ i_id (new_item k id v e) = id.
Proof. by destruct k as [[[? ?] ?] ?]. Qed.

Lemma insert_item_cases k v e d :
  sql_insert_item k v e d =
  match find_item k d with
  | Some _ => Ok (d, None)
  | None =>
      if negb (has_profile (k.1.1.1) d) then Err "FOREIGN KEY constraint failed"
      else let id := next_id (List.map i_id (items d)) in
           Ok (set_items (items d ++ [new_item k id v e]) d, Some id)
  end.
Proof. by destruct k as [[[? ?] ?] ?]. Qed.

(** The whole insertion of a new item, under any identifier that is not in use. *)
Lemma insert_row_spec id k v e ts d :
  db_wf d → find_item k d = None → has_profile (k.1.1.1) d = true → id ∉ List.map i_id (items d) →
  let d1 := set_items (items d ++ [new_item k id v e]) d in
  ∃ d2, insert_all_tags id ts d1 = Ok (d2, ())
    ∧ db_wf d2 ∧ profiles d2 = profiles d ∧ config d2 = config d ∧ items d2 = items d ++ [new_item k id v e]
    ∧ view d2 k = Some (v, e, ts) ∧ (∀ k', k' ≠ k → view d2 k' = view d k').
Proof.
  intros Hwf Hnone Hp Hfresh d1. set (r := new_item k id v e) in *.
  destruct (new_item_key k id v e) as [Hrk Hri]. fold r in Hrk, Hri.
  destruct (insert_all_tags_ok id ts d1) as (d2 & E2 & Hi & Hpr & Hc & Ht & Hl).
  { cbn. rewrite List.map_app. cbn. rewrite Hri. set_solver. }
  exists d2.
  assert (Htags : ∀ id', item_tags id' d1 = item_tags id' d) by done.
  split_and!; try done.
  - destruct Hwf as [Hk Hid Hip Hti Hpi Hpn]. split; rewrite ?Hi, ?Hpr, ?Hl; try done.
    + cbn. rewrite List.map_app. apply NoDup_app. split_and!; [done| |apply NoDup_singleton].
      intros x Hx [->|?%elem_of_nil]%elem_of_cons; [|done]. rewrite Hrk in Hx.
      by apply find_item_none in Hnone.
    + cbn. rewrite List.map_app. apply NoDup_app. split_and!; [done| |apply NoDup_singleton].
      intros x Hx [->|?%elem_of_nil]%elem_of_cons; [|done]. by rewrite Hri in Hx.
    + cbn. unfold has_profile. rewrite Hpr. apply Forall_app. split; [done|]. constructor; [|constructor].
      unfold has_profile in Hp. destruct k as [[[? ?] ?] ?]. exact Hp.
    + apply Forall_app. cbn. rewrite List.map_app. split.
      * eapply Forall_impl; [exact Hti|]. set_solver.
      * apply List.Forall_map, Forall_forall. intros t _. cbn. rewrite Hri. set_solver.
  - unfold view, find_item. rewrite Hi. cbn. rewrite find_app.
    change (List.find (has_key k) (items d)) with (find_item k d). rewrite Hnone. cbn.
    unfold has_key. rewrite bool_decide_true by done. cbn. rewrite Ht, Htags, Hri, decide_True by done.
    rewrite item_tags_unused; [|apply Hwf|done]. by destruct k as [[[? ?] ?] ?].
  - intros k' Hne. unfold view, find_item. rewrite Hi. cbn. rewrite find_app.
    change (List.find (has_key k') (items d)) with (find_item k' d).
    destruct (find_item k' d) as [r'|] eqn:Er.
    + cbn. rewrite Ht, Htags. apply find_item_in in Er as [Hin _].
      rewrite decide_False, app_nil_r; [done|]. intros E. apply Hfresh. rewrite E.
      apply list_elem_of_fmap. eauto.
    + cbn. unfold has_key. by rewrite bool_decide_false by congruence.
Qed.

Lemma insert_item_spec k v e ts d :
  db_wf d → find_item k d = None → has_profile (k.1.1.1) d = true →
  ∃ id d1 d2, sql_insert_item k v e d = Ok (d1, Some id) ∧ insert_all_tags id ts d1 = Ok (d2, ())
    ∧ db_wf d2 ∧ profiles d2 = profiles d ∧ config d2 = config d
    ∧ view d2 k = Some (v, e, ts) ∧ (∀ k', k' ≠ k → view d2 k' = view d k').
Proof.
  intros Hwf Hnone Hp. rewrite insert_item_cases, Hnone, Hp. cbn [negb].
  destruct (insert_row_spec _ k v e ts d Hwf Hnone Hp (next_id_fresh (List.map i_id (items d))))
    as (d2 & E2 & ? & ? & ? & _ & ?). by eexists _, _, d2.
Qed.

(** *** Updating an item *)

Definition upd_item (k : IKey) (value : bytes) (expiry : option Z) (r : ItemRow) : ItemRow :=
  if has_key k r
  then mkItem (i_id r) (i_profile r) (i_kind r) (i_category r) (i_name r) value expiry else r.

Lemma upd_item_keeps k v e r :
  item_key (upd_item k v e r) = item_key r ∧ i_id (upd_item k v e r) = i_id r
  ∧ i_profile (upd_item k v e r) = i_profile r.
Proof. unfold upd_item. by case_match. Qed.

Lemma find_upd k k' v e l :
  List.find (has_key k') (List.map (upd_item k v e) l) = upd_item k v e <$> List.find (has_key k') l.
Proof.
  induction l as [|r l IH]; [done|]. cbn [List.map List.find].
  assert (E : has_key k' (upd_item k v e r) = has_key k' r).
  { unfold has_key. by destruct (upd_item_keeps k v e r) as [-> _]. }
  rewrite E, IH. by destruct (has_key k' r).
Qed.

Lemma map_upd_same {A} (f : ItemRow → A) k v e l :
  (∀ r, f (upd_item k v e r) = f r) → List.map f (List.map (upd_item k v e) l) = List.map f l.
Proof. intros Hf. rewrite List.map_map. by apply List.map_ext. Qed.

Lemma item_tags_deleted id id' d :
  item_tags id' (set_tags (List.filter (λ t, negb (bool_decide (t_item t = id))) (items_tags d)) d)
  = if decide (id = id') then [] else item_tags id' d.
Proof.
  unfold item_tags. cbn. induction (items_tags d) as [|t l IH]; [by case_decide|]. cbn.
  destruct (decide (t_item t = id)) as [E|E].
  - rewrite (bool_decide_true (t_item t = id)) by done. cbn. rewrite IH. case_decide; [done|].
    by rewrite bool_decide_false by congruence.
  - rewrite (bool_decide_false (t_item t = id)) by done. cbn. case_bool_decide; cbn; rewrite IH.
    + by rewrite !decide_False by congruence.
    + done.
Qed.

(** What the row [r] of [k'] holds after a row of [k] is updated, the tags of the item
    [gone] deleted and tags of the updated row inserted. *)
Definition updated (gone : Z) (k : IKey) (v : bytes) (e : option Z) (ts : list EncEntryTag) (d : Db)
    (k' : IKey) (r : ItemRow) : bytes * option Z * list EncEntryTag :=
  let kept := if decide (gone = i_id r) then [] else item_tags (i_id r) d in
  if decide (k' = k) then (v, e, kept ++ ts) else (i_value r, i_expiry r, kept).

Lemma update_rows_spec gone k v e ts d r0 :
  db_wf d → find_item k d = Some r0 →
  ∃ d1 d2 d3, sql_update_item k v e d = Ok (d1, i_id r0) ∧ sql_delete_tags gone d1 = Ok (d2, ())
    ∧ insert_all_tags (i_id r0) ts d2 = Ok (d3, ())
    ∧ db_wf d3 ∧ profiles d3 = profiles d ∧ config d3 = config d
    ∧ items d2 = List.map (upd_item k v e) (items d) ∧ items d3 = items d2
    ∧ ∀ k', view d3 k' = updated gone k v e ts d k' <$> find_item k' d.
Proof.
  intros Hwf Hf. unfold sql_update_item. rewrite Hf.
  set (d1 := set_items (List.map (upd_item k v e) (items d)) d).
  set (d2 := set_tags (List.filter (λ t, negb (bool_decide (t_item t = gone))) (items_tags d1)) d1).
  apply find_item_in in Hf as Hin. destruct Hin as [Hin Hk0].
  assert (Hids : List.map i_id (items d2) = List.map i_id (items d)).
  { apply map_upd_same. intros r. apply upd_item_keeps. }
  destruct (insert_all_tags_ok (i_id r0) ts d2) as (d3 & E3 & Hi & Hpr & Hc & Ht & Hl).
  { rewrite Hids. apply list_elem_of_fmap. eauto. }
  exists d1, d2, d3. split_and!; try done.
  - destruct Hwf as [Hk Hid Hip Hti Hpi Hpn].
    split; unfold has_profile; rewrite ?Hpr; rewrite ?Hi; try done; try (rewrite Hids; done).
    + change (NoDup (List.map item_key (List.map (upd_item k v e) (items d)))).
      rewrite map_upd_same; [done|]. intros r. apply upd_item_keeps.
    + change (items d2) with (List.map (upd_item k v e) (items d)). apply List.Forall_map.
      eapply Forall_impl; [exact Hip|]. intros r. by destruct (upd_item_keeps k v e r) as (_ & _ & ->).
    + rewrite Hids, Hl. apply Forall_app. split.
      * cbn. apply List.Forall_forall. intros t [Htin _]%List.filter_In.
        rewrite List.Forall_forall in Hti. by apply Hti.
      * apply List.Forall_map, Forall_forall. intros t _. cbn. apply list_elem_of_fmap. eauto.
  - intros k'. unfold view, find_item at 1. rewrite Hi.
    change (items d2) with (List.map (upd_item k v e) (items d)). rewrite find_upd.
    change (List.find (has_key k') (items d)) with (find_item k' d).
    destruct (find_item k' d) as [r|] eqn:Er; [|done]. cbn. apply find_item_in in Er as Hr. destruct Hr as [Hrin Hrk].
    assert (Eid : i_id (upd_item k v e r) = i_id r) by apply upd_item_keeps.
    rewrite Ht, Eid. unfold d2. rewrite item_tags_deleted. change (item_tags (i_id r) d1) with (item_tags (i_id r) d).
    unfold updated, upd_item, has_key. destruct (decide (k' = k)) as [->|Hne].
    + rewrite bool_decide_true by done. cbn. assert (r = r0) as -> by congruence.
      by rewrite (decide_True (P := i_id r0 = i_id r0)).
    + rewrite bool_decide_false by congruence. rewrite (decide_False (P := i_id r0 = i_id r)), app_nil_r; [done|].
      intros E. apply Hne. assert (r0 = r) by (eapply (nodup_inj i_id); [apply Hwf|done..]). congruence.
Qed.

Lemma update_item_spec k v e ts d r0 :
  db_wf d → find_item k d = Some r0 →
  ∃ d1 d2 d3, sql_update_item k v e d = Ok (d1, i_id r0) ∧ sql_delete_tags (i_id r0) d1 = Ok (d2, ())
    ∧ insert_all_tags (i_id r0) ts d2 = Ok (d3, ())
    ∧ db_wf d3 ∧ profiles d3 = profiles d ∧ config d3 = config d
    ∧ view d3 k = Some (v, e, ts) ∧ (∀ k', k' ≠ k → view d3 k' = view d k').
Proof.
  intros Hwf Hf. destruct (update_rows_spec (i_id r0) k v e ts d r0 Hwf Hf)
    as (d1 & d2 & d3 & E1 & E2 & E3 & Hwf3 & Hp & Hc & _ & _ & Hv).
  exists d1, d2, d3. split_and!; try done.
  - rewrite Hv, Hf. cbn. unfold updated. by rewrite !decide_True.
  - intros k' Hne. rewrite Hv. unfold view, updated. destruct (find_item k' d) as [r|] eqn:Er; [|done]. cbn.
    rewrite (decide_False (P := k' = k)), decide_False; [done| |done].
    apply find_item_in in Hf as [Hin Hk], Er as [Hrin Hrk].
    intros E. assert (r0 = r) by (eapply (nodup_inj i_id); [apply Hwf|done..]). congruence.
Qed.

(** *** Deleting items *)

Lemma find_filter_none {A} (p q : A → bool) l : List.find p l = None → List.find p (List.filter q l) = None.
Proof.
  induction l as [|x l IH]; [done|]. cbn. destruct (p x) eqn:Hp; [done|]. intros Hf.
  destruct (q x); cbn; rewrite ?Hp; auto.
Qed.

Lemma nodup_filter_map {A B} (f : A → B) (p : A → bool) l :
  NoDup (List.map f l) → NoDup (List.map f (List.filter p l)).
Proof.
  induction l as [|x l IH]; cbn; [done|]. intros [Hn Hd]%NoDup_cons. destruct (p x); cbn; auto.
  constructor; auto. intros (y & E & Hy)%list_elem_of_fmap. apply Hn. rewrite E.
  apply list_elem_of_fmap. exists y. split; [done|]. apply list_elem_of_In, List.filter_In in Hy as [Hy _].
  by apply list_elem_of_In.
Qed.

Lemma item_tags_kept p d r :
  NoDup (List.map i_id (items d)) → r ∈ items d → p r = false →
  item_tags (i_id r) (delete_items p d).1 = item_tags (i_id r) d.
Proof.
  intros Hnd Hr Hp. unfold item_tags. cbn. f_equal.
  induction (items_tags d) as [|t l IH]; [done|]. cbn.
  destruct (decide (t_item t = i_id r)) as [E|E].
  - rewrite (bool_decide_true (t_item t = i_id r)) by done.
    destruct (existsb _ (List.filter p (items d))) eqn:Hex; cbn.
    + exfalso. apply existsb_exists in Hex as (r' & [Hin' Hp']%List.filter_In & Hid%bool_decide_eq_true).
      assert (r' = r) as ->; [|congruence].
      eapply (nodup_inj i_id); [done|by apply list_elem_of_In|done|congruence].
    + rewrite bool_decide_true by done. by rewrite IH.
  - rewrite (bool_decide_false (t_item t = i_id r)) by done.
    destruct (existsb _ _); cbn; [done|]. by rewrite (bool_decide_false (t_item t = i_id r)).
Qed.

Lemma find_filter_kept k p l r :
  NoDup (List.map item_key l) → List.find (has_key k) l = Some r →
  List.find (has_key k) (List.filter (negb ∘ p) l) = if p r then None else Some r.
Proof.
  induction l as [|x l IH]; [done|]. cbn. intros [Hn Hd]%NoDup_cons.
  destruct (has_key k x) eqn:Hk.
  - intros [= ->]. destruct (p r) eqn:Hp; cbn; [|by rewrite Hk].
    apply find_filter_none. apply (find_item_none k (mkDb [] [] l [])).
    apply bool_decide_eq_true in Hk as <-. done.
  - intros Hf. destruct (p x) eqn:Hp; cbn; rewrite ?Hk; auto.
Qed.

(** Exactly the selected rows disappear, and nothing else changes. *)
Lemma delete_items_spec p d :
  db_wf d →
  db_wf (delete_items p d).1 ∧ profiles (delete_items p d).1 = profiles d
  ∧ config (delete_items p d).1 = config d
  ∧ (∀ k, view (delete_items p d).1 k
     = match find_item k d with
       | Some r => if p r then None else view d k
       | None => None
       end).
Proof.
  intros [Hk Hid Hip Hti Hpi Hpn]. split_and!; try done.
  - split; try done.
    + by apply nodup_filter_map.
    + by apply nodup_filter_map.
    + cbn. apply List.Forall_forall. intros r [Hr _]%List.filter_In.
      rewrite List.Forall_forall in Hip. by apply Hip.
    + cbn. apply List.Forall_forall. intros t [Ht Hdead]%List.filter_In.
      rewrite List.Forall_forall in Hti. apply Hti in Ht as (r & E & Hr)%list_elem_of_fmap.
      rewrite E. apply list_elem_of_fmap. exists r. split; [done|].
      apply list_elem_of_In, List.filter_In. split; [by apply list_elem_of_In|]. cbn in *.
      destruct (p r) eqn:Hp; [|done]. exfalso. apply negb_true_iff in Hdead.
      rewrite (proj2 (existsb_exists _ _)) in Hdead; [done|].
      exists r. split; [apply List.filter_In; split; [by apply list_elem_of_In|done]|].
      by apply bool_decide_eq_true.
  - intros k. unfold view at 1, find_item at 1. cbn [items delete_items fst].
    destruct (find_item k d) as [r|] eqn:Hf.
    + apply find_item_in in Hf as Hin. destruct Hin as [Hin _].
      rewrite (find_filter_kept _ _ _ r) by done. destruct (p r) eqn:Hp; [done|]. cbn.
      unfold view. rewrite Hf. cbn. repeat f_equal. by apply (item_tags_kept p d r).
    + by rewrite find_filter_none.
Qed.

(** Rows deleted by key. *)
Lemma delete_key_spec k d :
  db_wf d →
  db_wf (delete_items (has_key k) d).1
  ∧ (delete_items (has_key k) d).2 = (if decide (find_item k d = None) then 0 else 1)%Z
  ∧ view (delete_items (has_key k) d).1 k = None
  ∧ (∀ k', k' ≠ k → view (delete_items (has_key k) d).1 k' = view d k').
Proof.
  intros Hwf. destruct (delete_items_spec (has_key k) d Hwf) as (Hwf' & _ & _ & Hv).
  split_and!; [done| | |].
  - cbn. destruct Hwf as [Hk _ _ _ _ _]. unfold find_item. induction (items d) as [|r l IH]; [done|].
    cbn in Hk |- *. apply NoDup_cons in Hk as [Hn Hd]. destruct (has_key k r) eqn:Hr; [|by apply IH].
    cbn. assert (Hnone : List.find (has_key k) l = None).
    { apply (find_item_none k (mkDb [] [] l [])). by apply bool_decide_eq_true in Hr as <-. }
    rewrite decide_False by done. specialize (IH Hd). rewrite Hnone, decide_True in IH by done. lia.
  - rewrite Hv. destruct (find_item k d) as [r|] eqn:Hf; [|done].
    apply find_item_in in Hf as [_ Hk]. unfold has_key. by rewrite bool_decide_true.
  - intros k' Hne. rewrite Hv. destruct (find_item k' d) as [r|] eqn:Hf.
    + apply find_item_in in Hf as [_ Hk]. unfold has_key. by rewrite bool_decide_false by congruence.
    + unfold view. by rewrite Hf.
Qed.

(** *** Profiles *)

Lemma profile_name_in name d :
  existsb (λ p, String.eqb (p_name p) name) (profiles d) = true ↔ name ∈ List.map p_name (profiles d).
Proof.
  rewrite existsb_exists, list_elem_of_fmap. split.
  - intros (p & Hp & E%String.eqb_eq). exists p. split; [done|by apply list_elem_of_In].
  - intros (p & -> & Hp). exists p. split; [by apply list_elem_of_In|apply String.eqb_refl].
Qed.

(** A new profile, under any identifier that is not in use. *)
Lemma add_profile_spec id name key d (d' := set_profiles (profiles d ++ [mkProfile id name key]) d) :
  db_wf d → name ∉ List.map p_name (profiles d) → id ∉ List.map p_id (profiles d) →
  db_wf d' ∧ sql_find_profile name d' = Ok (d', Some (id, key))
  ∧ (∀ k, view d' k = view d k) ∧ items d' = items d
  ∧ (∀ name', name' ≠ name → (snd <$> sql_find_profile name' d') = (snd <$> sql_find_profile name' d))
  ∧ Forall (λ r, i_profile r ≠ id) (items d).
Proof.
  intros [Hk Hid Hip Hti Hpi Hpn] Hnew Hfresh.
  assert (Hfind : List.find (λ p, String.eqb (p_name p) name) (profiles d) = None).
  { destruct (List.find _ _) as [p|] eqn:E; [|done]. apply find_some in E as [Hp E%String.eqb_eq].
    exfalso. apply Hnew. apply list_elem_of_fmap. exists p. split; [done|by apply list_elem_of_In]. }
  split_and!; try done.
  - split; cbn; try done.
    + eapply Forall_impl; [exact Hip|]. intros r Hr. unfold has_profile in *. cbn.
      by rewrite List.existsb_app, Hr.
    + rewrite List.map_app. apply NoDup_app. split_and!; [done| |apply NoDup_singleton].
      intros x Hx [->|?%elem_of_nil]%elem_of_cons; done.
    + rewrite List.map_app. apply NoDup_app. split_and!; [done| |apply NoDup_singleton].
      intros x Hx [->|?%elem_of_nil]%elem_of_cons; done.
  - unfold sql_find_profile. cbn. rewrite find_app, Hfind by done. cbn. by rewrite String.eqb_refl.
  - intros name' Hne. unfold sql_find_profile, d'. cbn. rewrite find_app.
    clear Hfind. destruct (List.find _ (profiles d)); [done|]. cbn. by rewrite (proj2 (String.eqb_neq _ _)).
  - eapply Forall_impl; [exact Hip|]. intros r Hr E. apply Hfresh. rewrite <- E.
    unfold has_profile in Hr. apply existsb_exists in Hr as (p & Hp & Hpid%bool_decide_eq_true).
    apply list_elem_of_fmap. exists p. split; [done|by apply list_elem_of_In].
Qed.

Lemma insert_profile_spec name key d :
  db_wf d →
  match sql_insert_profile name key d with
  | Ok (d', Some id) =>
      db_wf d' ∧ sql_find_profile name d' = Ok (d', Some (id, key))
      ∧ (∀ k, view d' k = view d k) ∧ items d' = items d
      ∧ (∀ name', name' ≠ name → (snd <$> sql_find_profile name' d') = (snd <$> sql_find_profile name' d))
      ∧ Forall (λ r, i_profile r ≠ id) (items d)
  | Ok (d', None) => d' = d ∧ ∃ p, p ∈ profiles d ∧ p_name p = name
  | _ => False
  end.
Proof.
  intros Hwf. unfold sql_insert_profile. pose proof (profile_name_in name d) as Hin.
  destruct (existsb _ (profiles d)).
  - split; [done|]. apply proj1 in Hin. destruct (proj1 (list_elem_of_fmap _ _ _) (Hin eq_refl)) as (p & E & Hp).
    by exists p.
  - apply add_profile_spec; [done| |apply next_id_fresh]. by intros ?%Hin.
Qed.

Lemma existsb_filter {A} (f g : A → bool) l : existsb f (List.filter g l) = existsb (λ x, g x && f x) l.
Proof. induction l as [|x l IH]; [done|]. cbn. destruct (g x); cbn; by rewrite IH. Qed.

Lemma filter_length_existsb {A} (f : A → bool) l :
  negb (Z.of_nat (length (List.filter f l)) =? 0)%Z = existsb f l.
Proof. induction l as [|x l IH]; [done|]. cbn. by destruct (f x). Qed.

Lemma delete_profile_spec name d :
  db_wf d →
  ∃ d' n, sql_delete_profile name d = Ok (d', n)
    ∧ negb (n =? 0)%Z = existsb (λ p, String.eqb (p_name p) name) (profiles d)
    ∧ db_wf d'
    ∧ profiles d' = List.filter (λ p, negb (String.eqb (p_name p) name)) (profiles d)
    ∧ ∀ k, view d' k
        = if existsb (λ p, String.eqb (p_name p) name && bool_decide (p_id p = k.1.1.1)) (profiles d)
          then None else view d k.
Proof.
  intros Hwf. unfold sql_delete_profile. set (gone := List.filter _ (profiles d)).
  set (orphan := λ r, existsb (λ p, bool_decide (p_id p = i_profile r)) gone).
  destruct (delete_items_spec orphan d Hwf) as (Hwf' & Hp & _ & Hv).
  assert (Horph : ∀ r, orphan r
    = existsb (λ p, String.eqb (p_name p) name && bool_decide (p_id p = i_profile r)) (profiles d)).
  { intros r. apply existsb_filter. }
  destruct (delete_items orphan d) as [d1 n1] eqn:Ed. cbn in Hwf', Hp, Hv.
  do 2 eexists. split; [reflexivity|]. split; [apply filter_length_existsb|]. rewrite Hp.
  split_and!; [|done|].
  - destruct Hwf' as [H1 H2 H3 H4 H5 H6]. rewrite Hp in H5, H6. split; cbn; try done;
      [|by apply nodup_filter_map..].
    assert (Ei : items d1 = List.filter (negb ∘ orphan) (items d)) by (by injection Ed as <- <-).
    apply List.Forall_forall. intros r Hr. pose proof (proj1 (List.Forall_forall _ _) H3 r Hr) as Hpr.
    rewrite Ei in Hr. apply List.filter_In in Hr as [_ Hr%negb_true_iff]. unfold has_profile in *. cbn.
    rewrite existsb_filter. rewrite Hp in Hpr. apply existsb_exists in Hpr as (p & Hin & Hid).
    apply existsb_exists. exists p. split; [done|]. rewrite Hid, andb_true_r. apply negb_true_iff.
    destruct (String.eqb (p_name p) name) eqn:En; [|done].
    rewrite Horph in Hr. rewrite <- Hr. symmetry. apply existsb_exists. exists p. by rewrite En, Hid.
  - intros k. transitivity (view d1 k); [done|]. rewrite Hv.
    destruct (find_item k d) as [r|] eqn:Hf.
    + apply find_item_in in Hf as [_ <-]. rewrite Horph. done.
    + unfold view. rewrite Hf. by case_match.
Qed.

(** The tables of a new store. *)
Lemma init_tables_wf name uri key : db_wf (init_tables name uri key).
Proof. split; cbn; repeat constructor; set_solver. Qed.

#[export] Hint Resolve init_tables_wf : wf.

Lemma init_tables_find name uri key :
  sql_find_profile name (init_tables name uri key) = Ok (init_tables name uri key, Some (1%Z, key)).
Proof. unfold sql_find_profile. cbn. by rewrite String.eqb_refl. Qed.
