(* ===== verification/PgDb.v ===== *)
(** * The tables of a PostgreSQL store

    The schema created by [init_db] in askar-storage/src/backend/postgres/provision.rs
    and the statements of askar-storage/src/backend/postgres/mod.rs.  The tables are
    those of [SqliteDb]; what PostgreSQL does differently is here: identifiers come from
    sequences, which no rollback takes back; an error inside a transaction leaves it
    aborted until it is rolled back, and committing it then rolls it back; conditions
    must be boolean and lists of values not empty; negative limits are refused; instants
    are compared as they are; tags are written with lower-case digits. *)

From S2P Require Import Prelude Errors DbQuery TagSqlSem SqlEval Entry DbUtils Session SqliteDb.
Local Open Scope string_scope.
Local Open Scope list_scope.

(** The sequences hold the identifiers to be given next. *)
Record PgDb := mkPg {
  pg_tables : Db;
  pg_profile_seq : Z;
  pg_item_seq : Z;
  pg_aborted : bool;
}.

Definition set_tables (t : Db) (d : PgDb) : PgDb := mkPg t (pg_profile_seq d) (pg_item_seq d) (pg_aborted d).
Definition set_aborted (d : PgDb) : PgDb := mkPg (pg_tables d) (pg_profile_seq d) (pg_item_seq d) true.

Definition aborted_msg : string :=
  "current transaction is aborted, commands ignored until end of transaction block".

(** ** Transactions *)

(** The sequences stay where they are. *)
Definition pg_restore (saved d : PgDb) : PgDb :=
  mkPg (pg_tables saved) (pg_profile_seq d) (pg_item_seq d) (pg_aborted saved).

#[export] Instance pg_hooks : TxnHooks PgDb := {|
  on_begin d := if pg_aborted d then Err aborted_msg else Ok d;
  on_commit outermost saved d :=
    if pg_aborted d then (if outermost then Ok (pg_restore saved d) else Err aborted_msg) else Ok d;
  on_rollback := pg_restore;
|}.

(** ** Statements: the database after them and their result *)

Abbreviation Statement A := (PgDb → PgDb * res string A).

(** A statement that uses the tables only. *)
Definition on_tables {A} (f : Db → res string (Db * A)) : Statement A := λ d,
  match f (pg_tables d) with
  | Ok (t, a) => (set_tables t d, Ok a)
  | Err msg => (d, Err msg)
  | Panic => (d, Panic)
  end.

Definition next_item (d : PgDb) : PgDb := mkPg (pg_tables d) (pg_profile_seq d) (pg_item_seq d + 1) (pg_aborted d).
Definition next_profile (d : PgDb) : PgDb := mkPg (pg_tables d) (pg_profile_seq d + 1) (pg_item_seq d) (pg_aborted d).

(** [INSERT_QUERY]: an identifier is drawn in any case. *)
Definition pg_insert_item (k : IKey) (value : bytes) (expiry : option Z) : Statement (option Z) := λ d,
  let '(pid, kind, category, name) := k in
  let id := pg_item_seq d in
  let d := next_item d in
  match find_item k (pg_tables d) with
  | Some _ => (d, Ok None)
  | None =>
      if negb (has_profile pid (pg_tables d))
      then (d, Err "insert or update on table items violates foreign key constraint items_profile_id_fkey")
      else (set_tables (set_items (items (pg_tables d) ++ [mkItem id pid kind category name value expiry]) (pg_tables d)) d,
            Ok (Some id))
  end.

(** [UPDATE_QUERY]: the identifier of the row, if there is one. *)
Definition pg_update_item (k : IKey) (value : bytes) (expiry : option Z) : Statement (option Z) := λ d,
  match sql_update_item k value expiry (pg_tables d) with
  | Ok (t, id) => (set_tables t d, Ok (Some id))
  | _ => (d, Ok None)
  end.

(** [ENCODE(_, 'hex')]: lower-case digits. *)
Definition lower_digit (n : N) : byte :=
  default x30 (Byte.of_N (if (n <? 10)%N then 48 + n else 87 + n)%N).

Definition pg_hex (b : bytes) : bytes :=
  List.flat_map (λ c, [lower_digit (Byte.to_N c / 16)%N; lower_digit (Byte.to_N c mod 16)%N]) b.

(** [ARRAY_TO_STRING(ARRAY_AGG(..), ',')]: null for no rows. *)
Definition pg_tags_column (l : list EncEntryTag) : option bytes :=
  match l with [] => None | _ => Some (columns_of pg_hex l) end.

(** [expiry IS NULL OR expiry > CURRENT_TIMESTAMP]. *)
Definition pg_resolution : Resolution := 1%Z.
Definition pg_live (now : Z) (r : ItemRow) : bool := unexpired (H := pg_resolution) now (i_expiry r).

(** [FETCH_QUERY] and, with a lock on the row, [FETCH_QUERY_UPDATE]. *)
Definition pg_fetch_item (now : Z) (k : IKey) : Statement (option (bytes * option bytes)) :=
  on_tables (λ t, Ok (t, r ← List.find (λ r, has_key k r && pg_live now r) (items t);
                         Some (i_value r, pg_tags_column (item_tags (i_id r) t)))).

(** ** Conditions *)

(** What PostgreSQL has against a condition: an empty list of values is a syntax error,
    and a number is not a condition. *)
Fixpoint pg_objection (c : Sql) : option string :=
  match c with
  | SIn _ _ [] _ => Some "syntax error at or near )"
  | SFalse => Some "argument of AND must be type boolean, not type integer"
  | SConj _ l => foldr (λ c o, match pg_objection c with Some m => Some m | None => o end) None l
  | _ => None
  end.

Section Select.
Context `{SqlEngine}.

(** The test of the rows of an item that a condition with its arguments stands for. *)
Definition pg_condition (filter : option (string * list bytes)) : res string (list TagRow → bool) :=
  match filter with
  | None => Ok (λ _, true)
  | Some (clause, args) =>
      match parse_clause "$" 3 args clause with
      | None => Err "syntax error"
      | Some c =>
          match pg_objection c with
          | Some msg => Err msg
          | None => Ok (λ rows, sem sql_like rows c)
          end
      end
  end.

Definition pg_matches (test : list TagRow → bool) (d : Db) (r : ItemRow) : bool :=
  test (List.map row_of (item_tags (i_id r) d)).

(** [COUNT_QUERY]. *)
Definition pg_count (now pid : Z) (kind : option Z) (category : option bytes)
    (filter : option (string * list bytes)) : Statement Z :=
  on_tables (λ t,
    test ← pg_condition filter;
    Ok (t, Z.of_nat (length (List.filter
      (λ r, selected pid kind category r && pg_live now r && pg_matches test t r) (items t))))).

(** [DELETE_ALL_QUERY]. *)
Definition pg_delete_all (pid : Z) (kind : option Z) (category : option bytes)
    (filter : option (string * list bytes)) : Statement Z :=
  on_tables (λ t,
    test ← pg_condition filter;
    Ok (delete_items (λ r, selected pid kind category r && pg_matches test t r) t)).

(** [LIMIT limit OFFSET offset]: a null limit is none, negative values are refused. *)
Definition pg_limit {A} (offset limit : option Z) (l : list A) : res string (list A) :=
  match offset, limit with
  | None, None => Ok l
  | _, _ =>
      let o := default 0%Z offset in
      if (o <? 0)%Z then Err "OFFSET must not be negative" else
      let l := drop (Z.to_nat o) l in
      match limit with
      | None => Ok l
      | Some n => if (n <? 0)%Z then Err "LIMIT must not be negative" else Ok (take (Z.to_nat n) l)
      end
  end.

(** [SCAN_QUERY]: kind, category, name, value and tags of the rows, tags that are null
    read as no bytes. *)
Definition pg_scan_row (d : Db) (r : ItemRow) : Z * bytes * bytes * bytes * bytes :=
  (i_kind r, i_category r, i_name r, i_value r, default [] (pg_tags_column (item_tags (i_id r) d))).

Definition pg_scan (now pid : Z) (kind : option Z) (category : option bytes)
    (filter : option (string * list bytes)) (offset limit : option Z) (order_by : option OrderBy)
    (descending : bool) : Statement (list (Z * bytes * bytes * bytes * bytes)) :=
  on_tables (λ t,
    test ← pg_condition filter;
    let rows := List.filter (λ r, selected pid kind category r && pg_live now r && pg_matches test t r) (items t) in
    let rows := match order_by with
      | Some OrderBy.Id => if descending then rev rows else rows
      | None => natural_order rows
      end in
    rows ← pg_limit offset limit rows;
    Ok (t, List.map (pg_scan_row t) rows)).
End Select.

(** ** Profiles *)

(** [INSERT INTO profiles .. ON CONFLICT DO NOTHING RETURNING id]. *)
Definition pg_insert_profile (name : string) (key : bytes) : Statement (option Z) := λ d,
  let id := pg_profile_seq d in
  let d := next_profile d in
  if existsb (λ p, String.eqb (p_name p) name) (profiles (pg_tables d)) then (d, Ok None)
  else (set_tables (set_profiles (profiles (pg_tables d) ++ [mkProfile id name key]) (pg_tables d)) d, Ok (Some id)).

(** [SELECT id FROM profiles WHERE id=$1 FOR NO KEY UPDATE]. *)
Definition pg_lock_profile (pid : Z) : Statement (option Z) :=
  on_tables (λ t, Ok (t, if has_profile pid t then Some pid else None)).

(** ** The invariant *)

(** The identifiers in use are behind the sequences. *)
Record pg_wf (d : PgDb) : Prop := {
  pg_tables_wf : db_wf (pg_tables d);
  pg_items_below : Forall (λ r, (i_id r < pg_item_seq d)%Z) (items (pg_tables d));
  pg_profiles_below : Forall (λ p, (p_id p < pg_profile_seq d)%Z) (profiles (pg_tables d));
}.
