(* ===== verification/Sqlite.v ===== *)
(** * The SQLite backend

    Models askar-storage/src/backend/sqlite/mod.rs: the session operations
    ([count], [fetch], [fetch_all], [remove_all], [update], [ping]) over the
    session of [Session] and the tables of [SqliteDb], and the backend's
    operations on profiles ([create_profile] .. [rekey], [scan]).

    The environment of an operation is explicit: the random bytes it draws, the
    time and the timestamp arithmetic of [chrono]. *)

From S2P Require Import Prelude Errors Wql TagSql DbQuery TagSqlSem Buffers Utf8 Entry Aead Protect.
From S2P Require Import Options StoreKey DbUtils Session SqliteDb.
Local Open Scope string_scope.
Local Open Scope list_scope.

(** [Sqlite::start_transaction] writes to take the lock of an outer transaction. *)
#[export] Instance sqlite_ext : ExtDatabase := {| outer_noop := true |}.

Definition PAGE_SIZE : nat := 32.

Record Env := mkEnv {
  env_rng : nat → bytes;
  env_now : Z;
  env_checked_add : Z → Z → option Z;
}.

Section Sqlite.
Context `{Allocator} `{Hmac} `{AeadCipher} `{StoreCodecs} `{CborCodec} `{SqlEngine}.
Context (env : Env).
Abbreviation W := (World Db KeyCache ProfileKey).
Abbreviation M := (stm W StorageError.Error).

Definition err_kind (k : StorageError.ErrorKind) (msg : string) : StorageError.Error :=
  StorageError.from_msg k msg.

(** A statement on the connection. *)
Definition exec {A} (on_err : string → StorageError.Error) (f : Db → res string (Db * A)) : M A :=
  _ ← db_call on_err;
  w ← sget;
  match f (db w) with
  | Ok (d, a) => _ ← smod (set_db d); mret a
  | Err msg => sfail (on_err msg)
  | Panic => lift Panic
  end.

(** ** Acquiring the session and its key *)

Definition resolve_profile_key (profile : string) (_in_txn : bool) : M (Z * ProfileKey) :=
  w ← sget;
  match get_profile profile (cache w) with
  | Some (pid, key) => mret (pid, key)
  | None =>
      row ← exec (backend_err "Error fetching profile key") (sql_find_profile profile);
      match row with
      | Some (pid, enc_key) =>
          key ← lift (load_key (cache w) enc_key);
          _ ← smod (λ w, set_cache (add_profile profile pid key (cache w)) w);
          mret (pid, key)
      | None => sfail (err_kind StorageError.NotFound "Profile not found")
      end
  end.

Definition acquire_session : M Z := make_active resolve_profile_key.

Definition acquire_key : M (Z * ProfileKey) :=
  _ ← acquire_session;
  w ← sget;
  lift (unwrap (profile_and_key (session w))).

(** ** Insert, replace and remove *)

(** [expiry_ms.map(expiry_timestamp).transpose()]. *)
Definition bind_expiry (expiry_ms : option Z) : sres (option Z) :=
  match expiry_ms with
  | Some ms => Some <$> expiry_timestamp (env_checked_add env) (env_now env) ms
  | None => Ok None
  end.

Fixpoint insert_tags (id : Z) (tags : list EncEntryTag) : M () :=
  match tags with
  | [] => mret ()
  | t :: tags' =>
      _ ← exec (backend_err "Error inserting entry tags") (sql_insert_tag id t);
      insert_tags id tags'
  end.

Definition perform_insert (profile_id : Z) (kind : EntryKind) (enc_category enc_name enc_value : bytes)
    (enc_tags : option (list EncEntryTag)) (expiry_ms : option Z) (new_row : bool) : M () :=
  let k := (profile_id, kind_value kind, enc_category, enc_name) in
  expiry ← lift (bind_expiry expiry_ms);
  row_id ← (if new_row then
      done ← exec (backend_err "Error inserting new entry") (sql_insert_item k enc_value expiry);
      match done with
      | None => sfail (err_kind StorageError.Duplicate "Duplicate entry")
      | Some id => mret id
      end
    else
      row_id ← exec (λ _, err_kind StorageError.NotFound "Error updating existing entry")
        (sql_update_item k enc_value expiry);
      _ ← exec (backend_err "Error removing existing entry tags") (sql_delete_tags row_id);
      mret row_id);
  match enc_tags with
  | Some tags => insert_tags row_id tags
  | None => mret ()
  end.

Definition perform_remove (profile_id : Z) (kind : EntryKind) (enc_category enc_name : bytes)
    (ignore_error : bool) : M () :=
  removed ← exec (backend_err "Error removing entry")
    (sql_delete_item (profile_id, kind_value kind, enc_category, enc_name));
  if (removed =? 0)%Z && negb ignore_error
  then sfail (err_kind StorageError.NotFound "Entry not found") else mret ().

(** The key the buffers are prepared for only affects their capacity. *)
Definition prepared (key : ProfileKey) (b : bytes) : SecretBytes := prepare_input (category_key key) b.

Definition update (kind : EntryKind) (operation : EntryOperation) (category name : string)
    (value : option bytes) (tags : option (list EntryTag)) (expiry_ms : option Z) : M () :=
  match operation with
  | EntryOperation.Insert | EntryOperation.Replace =>
      '(_, key) ← acquire_key;
      let cat := prepared key (as_bytes category) in
      let nm := prepared key (as_bytes name) in
      enc ← lift (
        enc_value ← encrypt_entry_value key (env_rng env) (as_ref cat) (as_ref nm)
          (prepared key (default [] value));
        enc_category ← encrypt_entry_category key cat;
        enc_name ← encrypt_entry_name key nm;
        enc_tags ← match tags with
          | Some tags =>
              tags ← prepare_tags key tags;
              Some <$> encrypt_entry_tags key tags
          | None => Ok None
          end;
        mret (enc_category, enc_name, enc_value, enc_tags));
      let '(enc_category, enc_name, enc_value, enc_tags) := enc in
      profile_id ← acquire_session;
      with_txn (perform_insert profile_id kind enc_category enc_name enc_value enc_tags expiry_ms
        (match operation with EntryOperation.Insert => true | _ => false end))
  | EntryOperation.Remove =>
      '(_, key) ← acquire_key;
      enc ← lift (
        enc_category ← encrypt_entry_category key (prepared key (as_bytes category));
        enc_name ← encrypt_entry_name key (prepared key (as_bytes name));
        mret (enc_category, enc_name));
      profile_id ← acquire_session;
      perform_remove profile_id kind enc.1 enc.2 false
  end.

(** ** Queries *)

Definition fetch (kind : EntryKind) (category name : string) (_for_update : bool) : M (option Entry) :=
  '(profile_id, key) ← acquire_key;
  enc ← lift (
    enc_category ← encrypt_entry_category key (prepared key (as_bytes category));
    enc_name ← encrypt_entry_name key (prepared key (as_bytes name));
    mret (enc_category, enc_name));
  _ ← acquire_session;
  row ← exec (backend_err "Error performing fetch query")
    (sql_fetch_item (env_now env) (profile_id, kind_value kind, enc.1, enc.2));
  match row with
  | Some (value, tags) =>
      lift (
        value ← decrypt_entry_value key (as_bytes category) (as_bytes name) value;
        enc_tags ← ok_or (decode_tags hex_decode tags)
          (err_kind StorageError.Unexpected "Error decoding entry tags");
        tags ← decrypt_entry_tags key enc_tags;
        mret (Some (entry_new kind category name (sec_data value) tags)))
  | None => mret None
  end.

(** The parameters of the queries over many rows: profile, kind, category, then
    those of the filter. *)
Definition select_params (profile_id : Z) (kind : option EntryKind) (enc_category : option bytes)
    : QueryParams :=
  params_push (params_push (params_push params_new (ArgInt profile_id))
    (ArgOptInt (kind_value <$> kind))) (ArgOptBytes enc_category).

Definition encode_select (key : ProfileKey) (category : option string) (tag_filter : option TagFilter)
    : sres (option bytes * option (string * list bytes)) :=
  enc_category ← match category with
    | Some c => Some <$> encrypt_entry_category key (prepared key (as_bytes c))
    | None => Ok None
    end;
  (* [params.len() + 1], the category coming third *)
  filter ← encode_tag_filter (Q := SqlitePrepare) tag_filter key 3;
  mret (enc_category, filter).

Definition COUNT_QUERY : string := "SELECT COUNT(*) FROM items i
    WHERE profile_id = ?1
    AND (kind = ?2 OR ?2 IS NULL)
    AND (category = ?3 OR ?3 IS NULL)
    AND (expiry IS NULL OR DATETIME(expiry) > DATETIME('now'))".

Definition SCAN_QUERY : string := "SELECT i.id, i.kind, i.category, i.name, i.value,
    (SELECT GROUP_CONCAT(it.plaintext || ':' || HEX(it.name) || ':' || HEX(it.value))
        FROM items_tags it WHERE it.item_id = i.id) AS tags
    FROM items i WHERE i.profile_id = ?1
    AND (i.kind = ?2 OR ?2 IS NULL)
    AND (i.category = ?3 OR ?3 IS NULL)
    AND (i.expiry IS NULL OR DATETIME(i.expiry) > DATETIME('now'))".

Definition DELETE_ALL_QUERY : string := "DELETE FROM items AS i
    WHERE i.profile_id = ?1
    AND (i.kind = ?2 OR ?2 IS NULL)
    AND (i.category = ?3 OR ?3 IS NULL)".

Definition count (kind : option EntryKind) (category : option string) (tag_filter : option TagFilter) : M Z :=
  '(profile_id, key) ← acquire_key;
  '(enc_category, filter) ← lift (encode_select key category tag_filter);
  _ ← lift (@extend_query SqlitePrepare COUNT_QUERY (select_params profile_id kind enc_category)
        filter None None None false);
  _ ← acquire_session;
  exec (backend_err "Error performing count query")
    (sql_count (env_now env) profile_id (kind_value <$> kind) enc_category filter).

Definition remove_all (kind : option EntryKind) (category : option string) (tag_filter : option TagFilter)
    : M Z :=
  '(profile_id, key) ← acquire_key;
  '(enc_category, filter) ← lift (encode_select key category tag_filter);
  _ ← lift (@extend_query SqlitePrepare DELETE_ALL_QUERY (select_params profile_id kind enc_category)
        filter None None None false);
  _ ← acquire_session;
  exec StorageError.from_sqlx
    (sql_delete_all profile_id (kind_value <$> kind) enc_category filter).

(** The row as read by [perform_scan]. *)
Definition read_row (row : Z * bytes * bytes * bytes * bytes) : sres EncScanEntry :=
  let '(kind, category, name, value, tags) := row in
  kind ← kind_try_from kind;
  mret (mkEncScan kind category name value tags).

(** The loop of [perform_scan] over the rows and the last yield: the batches
    yielded, the last one an error if a row cannot be read. *)
Fixpoint scan_loop (rows : list (Z * bytes * bytes * bytes * bytes)) (batch : list EncScanEntry)
    : list (sres (list EncScanEntry)) :=
  match rows with
  | [] => match batch with [] => [] | _ => [Ok batch] end
  | r :: rows' =>
      match read_row r with
      | Ok e =>
          let batch := batch ++ [e] in
          if (length batch =? PAGE_SIZE)%nat then Ok batch :: scan_loop rows' []
          else scan_loop rows' batch
      | Err e => [Err e]
      | Panic => [Panic]
      end
  end.

Definition perform_scan (profile_id : Z) (key : ProfileKey) (kind : option EntryKind)
    (category : option string) (tag_filter : option TagFilter) (offset limit : option Z)
    (order_by : option OrderBy) (descending owned : bool) : M (list (sres (list EncScanEntry))) :=
  '(enc_category, filter) ← lift (encode_select key category tag_filter);
  _ ← lift (@extend_query SqlitePrepare SCAN_QUERY (select_params profile_id kind enc_category)
        filter offset limit order_by descending);
  _ ← acquire_session;
  _ ← db_call StorageError.from_sqlx;
  w ← sget;
  let rows := sql_scan (env_now env) profile_id (kind_value <$> kind) enc_category filter offset limit
    order_by descending (db w) in
  (* reached once all rows have been read *)
  _ ← (if owned && forallb (λ r, is_ok (read_row r)) rows then session_close false else mret ());
  mret (scan_loop rows []).

(** [while let Some(rows) = scan.try_next()? { enc_rows.extend(rows) }]. *)
Fixpoint collect_pages {A} (pages : list (sres (list A))) : sres (list A) :=
  match pages with
  | [] => Ok []
  | p :: pages' => rows ← p; rest ← collect_pages pages'; mret (rows ++ rest)
  end.

Definition fetch_all (kind : option EntryKind) (category : option string) (tag_filter : option TagFilter)
    (limit : option Z) (order_by : option OrderBy) (descending _for_update : bool) : M (list Entry) :=
  '(profile_id, key) ← acquire_key;
  pages ← perform_scan profile_id key kind category tag_filter None limit order_by descending false;
  enc_rows ← lift (collect_pages pages);
  lift (decrypt_scan_batch category enc_rows key).

(** [Backend::scan], run in a session of its own: the decrypted pages. *)
Definition backend_scan (kind : option EntryKind) (category : option string) (tag_filter : option TagFilter)
    (offset limit : option Z) (order_by : option OrderBy) (descending : bool) : M (Scan Entry) :=
  '(profile_id, key) ← acquire_key;
  pages ← perform_scan profile_id key kind category tag_filter offset limit order_by descending true;
  mret (scan_new (List.map (λ p, rows ← p; decrypt_scan_batch category rows key) pages) PAGE_SIZE).

Definition ping : M () :=
  profile_id ← acquire_session;
  count ← exec (backend_err "Error pinging session")
    (λ d, Ok (d, length (List.filter (λ p, bool_decide (p_id p = profile_id)) (profiles d))));
  if (count =? 0)%nat then sfail (err_kind StorageError.NotFound "Session profile has been removed")
  else mret ().

End Sqlite.
