(* ===== verification/Postgres.v ===== *)
(** * The PostgreSQL session

    Models the session operations of askar-storage/src/backend/postgres/mod.rs over the
    session of [Session] and the tables of [PgDb].  Reading the rows of a scan, the
    preparation of texts and timestamps are those of [Sqlite], whose code is the same. *)

From S2P Require Import Prelude Errors Wql TagSql DbQuery TagSqlSem Buffers Utf8 Entry Aead Protect.
From S2P Require Import Options StoreKey DbUtils Session SqliteDb PgDb Sqlite.
Local Open Scope string_scope.
Local Open Scope list_scope.

(** [ExtDatabase for Postgres] keeps the default [start_transaction]. *)
Definition postgres_ext : ExtDatabase := {| outer_noop := false |}.
#[local] Existing Instance postgres_ext.

Section Postgres.
Context `{Allocator} `{Hmac} `{AeadCipher} `{StoreCodecs} `{CborCodec} `{SqlEngine}.
Context (env : Env).
Abbreviation PW := (World PgDb KeyCache ProfileKey).
Abbreviation M := (stm PW StorageError.Error).

(** An error of the server inside a transaction aborts it. *)
Definition abort_txn (w : PW) : PW :=
  match saved w with [] => w | _ => set_db (set_aborted (db w)) w end.

(** A statement on the connection. *)
Definition pg_exec {A} (on_err : string → StorageError.Error) (f : Statement A) : M A := λ w,
  match db_call on_err w with
  | (w, Err e) => (abort_txn w, Err e)
  | (w, Panic) => (w, Panic)
  | (w, Ok _) =>
      if pg_aborted (db w) then (w, Err (on_err aborted_msg)) else
      match f (db w) with
      | (d, Ok a) => (set_db d w, Ok a)
      | (d, Err msg) => (abort_txn (set_db d w), Err (on_err msg))
      | (_, Panic) => (w, Panic)
      end
  end.

(** ** Acquiring the session and its key *)

Definition pg_resolve_profile_key (profile : string) (in_txn : bool) : M (Z * ProfileKey) :=
  w ← sget;
  match get_profile profile (cache w) with
  | Some (pid, key) =>
      if in_txn then
        check ← pg_exec StorageError.from_sqlx (pg_lock_profile pid);
        match check with
        | None => sfail (err_kind StorageError.NotFound "Session profile has been removed")
        | Some _ => mret (pid, key)
        end
      else mret (pid, key)
  | None =>
      row ← pg_exec StorageError.from_sqlx (on_tables (sql_find_profile profile));
      match row with
      | Some (pid, enc_key) =>
          key ← lift (load_key (cache w) enc_key);
          _ ← smod (λ w, set_cache (add_profile profile pid key (cache w)) w);
          mret (pid, key)
      | None => sfail (err_kind StorageError.NotFound "Profile not found")
      end
  end.

Definition pg_acquire_session : M Z := make_active pg_resolve_profile_key.

Definition pg_acquire_key : M (Z * ProfileKey) :=
  _ ← pg_acquire_session;
  w ← sget;
  lift (unwrap (profile_and_key (session w))).

(** ** Insert, replace and remove *)

Fixpoint pg_insert_tags (id : Z) (tags : list EncEntryTag) : M () :=
  match tags with
  | [] => mret ()
  | t :: tags' =>
      _ ← pg_exec (backend_err "Error inserting entry tags") (on_tables (sql_insert_tag id t));
      pg_insert_tags id tags'
  end.

(** [fetch_one] of an update that changed no row is an error of the client, and does not
    abort the transaction. *)
Definition pg_perform_insert (profile_id : Z) (kind : EntryKind) (enc_category enc_name enc_value : bytes)
    (enc_tags : option (list EncEntryTag)) (expiry_ms : option Z) (new_row : bool) : M () :=
  let k := (profile_id, kind_value kind, enc_category, enc_name) in
  expiry ← lift (bind_expiry env expiry_ms);
  row_id ← (if new_row then
      id ← pg_exec StorageError.from_sqlx (pg_insert_item k enc_value expiry);
      lift (ok_or id (err_kind StorageError.Duplicate "Duplicate entry"))
    else
      row_id ← pg_exec (λ _, err_kind StorageError.NotFound "Error updating existing entry")
        (pg_update_item k enc_value expiry);
      row_id ← lift (ok_or row_id (err_kind StorageError.NotFound "Error updating existing entry"));
      _ ← pg_exec (backend_err "Error removing existing entry tags") (on_tables (sql_delete_tags row_id));
      mret row_id);
  match enc_tags with
  | Some tags => pg_insert_tags row_id tags
  | None => mret ()
  end.

Definition pg_perform_remove (profile_id : Z) (kind : EntryKind) (enc_category enc_name : bytes)
    (ignore_error : bool) : M () :=
  removed ← pg_exec (backend_err "Error removing entry")
    (on_tables (sql_delete_item (profile_id, kind_value kind, enc_category, enc_name)));
  if (removed =? 0)%Z && negb ignore_error
  then sfail (err_kind StorageError.NotFound "Entry not found") else mret ().

Definition pg_update (kind : EntryKind) (operation : EntryOperation) (category name : string)
    (value : option bytes) (tags : option (list EntryTag)) (expiry_ms : option Z) : M () :=
  match operation with
  | EntryOperation.Insert | EntryOperation.Replace =>
      '(_, key) ← pg_acquire_key;
      let cat := prepared key (as_bytes category) in
      let nm := prepared key (as_bytes name) in
      enc ← lift (
        enc_value ← encrypt_entry_value key (env_rng env) (as_ref cat) (as_ref nm)
          (prepared key (default [] value));
        enc_category ← encrypt_entry_category key cat;
        enc_name ← encrypt_entry_name key nm;
        enc_tags ← match tags with
          | Some tags =>
              tags ← prepare_tags key tags;
              Some <$> encrypt_entry_tags key tags
          | None => Ok None
          end;
        mret (enc_category, enc_name, enc_value, enc_tags));
      let '(enc_category, enc_name, enc_value, enc_tags) := enc in
      profile_id ← pg_acquire_session;
      with_txn (pg_perform_insert profile_id kind enc_category enc_name enc_value enc_tags expiry_ms
        (match operation with EntryOperation.Insert => true | _ => false end))
  | EntryOperation.Remove =>
      '(_, key) ← pg_acquire_key;
      enc ← lift (
        enc_category ← encrypt_entry_category key (prepared key (as_bytes category));
        enc_name ← encrypt_entry_name key (prepared key (as_bytes name));
        mret (enc_category, enc_name));
      profile_id ← pg_acquire_session;
      pg_perform_remove profile_id kind enc.1 enc.2 false
  end.

(** ** Queries *)

(** [FETCH_QUERY_UPDATE] reads what [FETCH_QUERY] does, and locks the row. *)
Definition pg_fetch (kind : EntryKind) (category name : string) (for_update : bool) : M (option Entry) :=
  '(profile_id, key) ← pg_acquire_key;
  enc ← lift (
    enc_category ← encrypt_entry_category key (prepared key (as_bytes category));
    enc_name ← encrypt_entry_name key (prepared key (as_bytes name));
    mret (enc_category, enc_name));
  _ ← pg_acquire_session;
  row ← pg_exec (backend_err "Error performing fetch query")
    (pg_fetch_item (env_now env) (profile_id, kind_value kind, enc.1, enc.2));
  match row with
  | Some (value, tags) =>
      lift (
        value ← decrypt_entry_value key (as_bytes category) (as_bytes name) value;
        tags ← match tags with
          | Some enc_tags =>
              enc_tags ← ok_or (decode_tags hex_decode enc_tags)
                (err_kind StorageError.Unexpected "Error decoding tags");
              decrypt_entry_tags key enc_tags
          | None => Ok []
          end;
        mret (Some (entry_new kind category name (sec_data value) tags)))
  | None => mret None
  end.

Definition pg_encode_select (key : ProfileKey) (category : option string) (tag_filter : option TagFilter)
    : sres (option bytes * option (string * list bytes)) :=
  enc_category ← match category with
    | Some c => Some <$> encrypt_entry_category key (prepared key (as_bytes c))
    | None => Ok None
    end;
  filter ← encode_tag_filter (Q := PostgresPrepare) tag_filter key 3;
  mret (enc_category, filter).

Definition PG_COUNT_QUERY : string := "SELECT COUNT(*) FROM items i
    WHERE profile_id = $1
    AND (kind = $2 OR $2 IS NULL)
    AND (category = $3 OR $3 IS NULL)
    AND (expiry IS NULL OR expiry > CURRENT_TIMESTAMP)".

Definition PG_SCAN_QUERY : string := "SELECT id, kind, category, name, value,
    (SELECT ARRAY_TO_STRING(ARRAY_AGG(it.plaintext || ':'
        || ENCODE(it.name, 'hex') || ':' || ENCODE(it.value, 'hex')), ',')
        FROM items_tags it WHERE it.item_id = i.id) tags
    FROM items i WHERE profile_id = $1
    AND (kind = $2 OR $2 IS NULL)
    AND (category = $3 OR $3 IS NULL)
    AND (expiry IS NULL OR expiry > CURRENT_TIMESTAMP)".

Definition PG_DELETE_ALL_QUERY : string := "DELETE FROM items i
    WHERE profile_id = $1
    AND (kind = $2 OR $2 IS NULL)
    AND (category = $3 OR $3 IS NULL)".

Definition pg_session_count (kind : option EntryKind) (category : option string) (tag_filter : option TagFilter)
    : M Z :=
  '(profile_id, key) ← pg_acquire_key;
  '(enc_category, filter) ← lift (pg_encode_select key category tag_filter);
  _ ← lift (@extend_query PostgresPrepare PG_COUNT_QUERY (select_params profile_id kind enc_category)
        filter None None None false);
  _ ← pg_acquire_session;
  pg_exec (backend_err "Error performing count query")
    (pg_count (env_now env) profile_id (kind_value <$> kind) enc_category filter).

Definition pg_remove_all (kind : option EntryKind) (category : option string) (tag_filter : option TagFilter)
    : M Z :=
  '(profile_id, key) ← pg_acquire_key;
  '(enc_category, filter) ← lift (pg_encode_select key category tag_filter);
  _ ← lift (@extend_query PostgresPrepare PG_DELETE_ALL_QUERY (select_params profile_id kind enc_category)
        filter None None None false);
  _ ← pg_acquire_session;
  pg_exec StorageError.from_sqlx (pg_delete_all profile_id (kind_value <$> kind) enc_category filter).

(** With [for_update], [FOR NO KEY UPDATE] is added to the query, which locks the rows. *)
Definition pg_perform_scan (profile_id : Z) (key : ProfileKey) (kind : option EntryKind)
    (category : option string) (tag_filter : option TagFilter) (offset limit : option Z)
    (order_by : option OrderBy) (descending for_update owned : bool) : M (list (sres (list EncScanEntry))) :=
  '(enc_category, filter) ← lift (pg_encode_select key category tag_filter);
  _ ← lift (@extend_query PostgresPrepare PG_SCAN_QUERY (select_params profile_id kind enc_category)
        filter offset limit order_by descending);
  _ ← pg_acquire_session;
  rows ← pg_exec StorageError.from_sqlx
    (pg_scan (env_now env) profile_id (kind_value <$> kind) enc_category filter offset limit order_by descending);
  (* reached once all rows have been read *)
  _ ← (if owned && forallb (λ r, is_ok (read_row r)) rows then session_close false else mret ());
  mret (scan_loop rows []).

Definition pg_fetch_all (kind : option EntryKind) (category : option string) (tag_filter : option TagFilter)
    (limit : option Z) (order_by : option OrderBy) (descending for_update : bool) : M (list Entry) :=
  w ← sget;
  let for_update := for_update && in_transaction (session w) in
  '(profile_id, key) ← pg_acquire_key;
  pages ← pg_perform_scan profile_id key kind category tag_filter None limit order_by descending for_update false;
  enc_rows ← lift (collect_pages pages);
  lift (decrypt_scan_batch category enc_rows key).

(** [Backend::scan], run in a session of its own: the decrypted pages. *)
Definition pg_backend_scan (kind : option EntryKind) (category : option string) (tag_filter : option TagFilter)
    (offset limit : option Z) (order_by : option OrderBy) (descending : bool) : M (Scan Entry) :=
  '(profile_id, key) ← pg_acquire_key;
  pages ← pg_perform_scan profile_id key kind category tag_filter offset limit order_by descending false true;
  mret (scan_new (List.map (λ p, rows ← p; decrypt_scan_batch category rows key) pages) PAGE_SIZE).

(** In a transaction the profile's row is locked, and the server is only asked to answer. *)
Definition pg_ping : M () :=
  profile_id ← pg_acquire_session;
  w ← sget;
  if in_transaction (session w) then
    db_call (backend_err "Error pinging session")
  else
    count ← pg_exec (backend_err "Error pinging session")
      (on_tables (λ t, Ok (t, length (List.filter (λ p, bool_decide (p_id p = profile_id)) (profiles t)))));
    if (count =? 0)%nat then sfail (err_kind StorageError.NotFound "Session profile has been removed")
    else mret ().

End Postgres.
