(* ===== verification/Store.v ===== *)
(** * What a profile of a SQLite store holds

    The abstract view of a store through one profile: a finite map from kind,
    category and name to a value, its tags and its expiry; the operations of
    askar-storage/src/backend/sqlite/mod.rs on it; and the proof that the
    operations of [Sqlite], with their encrypted rows, tag tables, cached keys
    and transactions, implement it. *)

From S2P Require Import Prelude Errors Wql TagSql DbQuery TagSqlSem SqlEval Buffers Utf8 Entry Aead.
From S2P Require Import Protect Options StoreKey DbUtils Session SqliteDb Sqlite.
Local Open Scope string_scope.
Local Open Scope list_scope.

#[export] Instance EntryKind_countable : Countable EntryKind.
Proof.
  refine (inj_countable' (λ k, match k with EntryKind.Kms => true | EntryKind.Item => false end)
    (λ b : bool, if b then EntryKind.Kms else EntryKind.Item) _). by intros [].
Defined.

(** ** The abstract store *)

Abbreviation AKey := (EntryKind * string * string)%type.

Record AVal := mkAVal {
  a_value : bytes;
  a_tags : list EntryTag;
  a_expiry : option Z;
}.

Abbreviation AStore := (gmap AKey AVal).

Definition a_entry (k : AKey) (v : AVal) : Entry := entry_new k.1.1 k.1.2 k.2 (a_value v) (a_tags v).

Definition a_live `{Resolution} (now : Z) (v : AVal) : bool := unexpired now (a_expiry v).

(** Does a filter hold of a set of tags? *)
Definition filter_holds (like : bytes → bytes → bool) (f : option TagFilter) (tags : list EntryTag) : bool :=
  match f with
  | None => true
  | Some f => eval (tags_hold like tags) (tags_have tags) (rename split_tag_name (filter_query f))
  end.

Definition a_selected (like : bytes → bytes → bool) (kind : option EntryKind) (category : option string)
    (f : option TagFilter) (kv : AKey * AVal) : bool :=
  match kind with Some k => bool_decide (kv.1.1.1 = k) | None => true end
  && match category with Some c => String.eqb kv.1.1.2 c | None => true end
  && filter_holds like f (a_tags kv.2).

Section Spec.
Context {HR : Resolution} (like : bytes → bytes → bool) (env : Env).

Definition a_update (operation : EntryOperation) (k : AKey) (value : option bytes)
    (tags : option (list EntryTag)) (expiry_ms : option Z) (s : AStore) : AStore * sres () :=
  match operation with
  | EntryOperation.Remove =>
      match s !! k with
      | None => (s, Err (err_kind StorageError.NotFound "Entry not found"))
      | Some _ => (delete k s, Ok ())
      end
  | _ =>
      match bind_expiry env expiry_ms with
      | Err e => (s, Err e)
      | Panic => (s, Panic)
      | Ok expiry =>
          let s' := <[k := mkAVal (default [] value) (default [] tags) expiry]> s in
          match operation, s !! k with
          | EntryOperation.Insert, Some _ => (s, Err (err_kind StorageError.Duplicate "Duplicate entry"))
          | EntryOperation.Insert, None => (s', Ok ())
          | _, None => (s, Err (err_kind StorageError.NotFound "Error updating existing entry"))
          | _, Some _ => (s', Ok ())
          end
      end
  end.

(** Expired entries cannot be fetched or counted. *)
Definition a_fetch (k : AKey) (s : AStore) : option Entry :=
  v ← s !! k; if a_live (env_now env) v then Some (a_entry k v) else None.

Definition a_matching (kind : option EntryKind) (category : option string) (f : option TagFilter) (s : AStore)
    : AStore :=
  filter (λ kv, a_selected like kind category f kv = true ∧ a_live (env_now env) kv.2 = true) s.

Definition a_count (kind : option EntryKind) (category : option string) (f : option TagFilter) (s : AStore) : Z :=
  Z.of_nat (size (a_matching kind category f s)).

(** Expired entries are removed and counted as well. *)
Definition a_remove_all (kind : option EntryKind) (category : option string) (f : option TagFilter) (s : AStore)
    : AStore * Z :=
  (filter (λ kv, a_selected like kind category f kv = false) s,
   Z.of_nat (size (filter (λ kv, a_selected like kind category f kv = true) s))).

(** The operations of a session and their results. *)
Inductive Op : Type :=
| OpUpdate (operation : EntryOperation) (kind : EntryKind) (category name : string)
    (value : option bytes) (tags : option (list EntryTag)) (expiry_ms : option Z)
| OpFetch (kind : EntryKind) (category name : string) (for_update : bool)
| OpCount (kind : option EntryKind) (category : option string) (f : option TagFilter)
| OpRemoveAll (kind : option EntryKind) (category : option string) (f : option TagFilter).

Inductive Result : Type :=
| RUnit
| REntry (e : option Entry)
| RCount (n : Z).

Definition a_step (op : Op) (s : AStore) : AStore * sres Result :=
  match op with
  | OpUpdate operation kind category name value tags expiry_ms =>
      let '(s', r) := a_update operation (kind, category, name) value tags expiry_ms s in
      (s', (λ _, RUnit) <$> r)
  | OpFetch kind category name _ => (s, Ok (REntry (a_fetch (kind, category, name) s)))
  | OpCount kind category f => (s, Ok (RCount (a_count kind category f s)))
  | OpRemoveAll kind category f =>
      let '(s', n) := a_remove_all kind category f s in (s', Ok (RCount n))
  end.

Fixpoint a_run (ops : list Op) (s : AStore) : AStore * list (sres Result) :=
  match ops with
  | [] => (s, [])
  | op :: ops' =>
      let '(s1, r) := a_step op s in
      let '(s2, rs) := a_run ops' s1 in
      (s2, r :: rs)
  end.
End Spec.

(** ** The same operations on the database *)

Section Run.
Context `{Allocator} `{Hmac} `{AeadCipher} `{StoreCodecs} `{CborCodec} `{SqlEngine}.
Context (env : Env).
Abbreviation W := (World Db KeyCache ProfileKey).

Definition c_step (op : Op) : stm W StorageError.Error Result :=
  match op with
  | OpUpdate operation kind category name value tags expiry_ms =>
      _ ← update env kind operation category name value tags expiry_ms; mret RUnit
  | OpFetch kind category name for_update => e ← fetch env kind category name for_update; mret (REntry e)
  | OpCount kind category f => n ← count env kind category f; mret (RCount n)
  | OpRemoveAll kind category f => n ← remove_all kind category f; mret (RCount n)
  end.

Fixpoint c_run (ops : list Op) (w : W) : W * list (sres Result) :=
  match ops with
  | [] => (w, [])
  | op :: ops' =>
      let '(w1, r) := c_step op w in
      let '(w2, rs) := c_run ops' w1 in
      (w2, r :: rs)
  end.
End Run.

(** ** The refinement relation *)

#[local] Existing Instance sqlite_resolution.

Section Refinement.
Context `{HAl : Allocator} `{HH : Hmac} `{HC : AeadCipher} {laws : CipherLaws} {HD : LawfulDerivation Chacha20Key}.
Context `{HS : StoreCodecs} `{HB : CborCodec} `{HE : SqlEngine}.
Context (env : Env) (pk : ProfileKey) (pid : Z).
Abbreviation W := (World Db KeyCache ProfileKey).

(** The encrypted key of an entry. *)
Definition ekey (k : AKey) : IKey :=
  (pid, kind_value k.1.1, enc_category pk (as_bytes k.1.2), enc_name pk (as_bytes k.2)).

Definition text_ok (s : string) : Prop := str_ok s ∧ (length (as_bytes s) ≤ cipher_max)%nat.
Definition akey_ok (k : AKey) : Prop := text_ok k.1.2 ∧ text_ok k.2.

(** A value, expiry and encrypted tags stand for those of an entry. *)
Definition stored (k : AKey) (x : bytes * option Z * list EncEntryTag) (v : AVal) : Prop :=
  (∃ s, decrypt_entry_value pk (as_bytes k.1.2) (as_bytes k.2) x.1.1 = Ok s ∧ sec_data s = a_value v)
  ∧ x.1.2 = a_expiry v ∧ x.2 = List.map (enc_tag pk) (a_tags v)
  ∧ Forall tag_ok (a_tags v) ∧ Forall (tag_small cipher_max) (a_tags v).

Record represents (d : Db) (s : AStore) : Prop := {
  rep_wf : db_wf d;
  rep_profile : has_profile pid d = true;
  rep_some k v : s !! k = Some v → akey_ok k ∧ ∃ x, view d (ekey k) = Some x ∧ stored k x v;
  rep_only k' x : view d k' = Some x → k'.1.1.1 = pid → ∃ k v, s !! k = Some v ∧ k' = ekey k;
}.

(** A session that has resolved its profile, on a connection that works. *)
Definition ready (w : W) : Prop :=
  state (session w) = SActive ∧ profile_key (session w) = KActive pid pk ∧ faults w = [].

Hypothesis pk_ok : profile_ok pk.
Hypothesis nonce_12 : cipher_nonce_size = 12%nat.
Hypothesis rng_length : ∀ n, length (env_rng env n) = n.
Hypothesis hex_upper : ∀ b, hex_decode (sql_hex b) = Some b.

Lemma ekey_inj k1 k2 : akey_ok k1 → akey_ok k2 → ekey k1 = ekey k2 → k1 = k2.
Proof.
  destruct k1 as [[e1 c1] n1], k2 as [[e2 c2] n2]. intros [[_ Hc1] [_ Hn1]] [[_ Hc2] [_ Hn2]] [= Ek Ec En].
  cbn in Hc1, Hn1, Hc2, Hn2.
  destruct pk_ok as (Hk1 & Hk2 & _).
  pose proof (searchable_inj _ _ _ _ Hk1 Hc1 Hc2 Ec) as ->%as_bytes_inj.
  pose proof (searchable_inj _ _ _ _ Hk2 Hn1 Hn2 En) as ->%as_bytes_inj.
  by destruct e1, e2.
Qed.

Lemma rep_none d s k : represents d s → akey_ok k → s !! k = None → view d (ekey k) = None.
Proof.
  intros Hr Hk Hn. destruct (view d (ekey k)) as [x|] eqn:E; [|done].
  destruct (rep_only _ _ Hr _ _ E eq_refl) as (k' & v & Hs & Ek).
  destruct (rep_some _ _ Hr _ _ Hs) as [Hk' _]. apply ekey_inj in Ek; [|done..]. congruence.
Qed.

Lemma view_find d k : view d k = None ↔ find_item k d = None.
Proof. unfold view. by destruct (find_item k d). Qed.

(** Storing an entry. *)
Lemma represents_insert d d' s k v x :
  represents d s → akey_ok k → stored k x v →
  db_wf d' → profiles d' = profiles d → view d' (ekey k) = Some x →
  (∀ k', k' ≠ ekey k → view d' k' = view d k') →
  represents d' (<[k := v]> s).
Proof.
  intros Hr Hk Hst Hwf Hp Hv Ho. split; [done| | |].
  - pose proof (rep_profile _ _ Hr) as Hh. unfold has_profile in *. by rewrite Hp.
  - intros k1 v1 [[<- <-]|[Hne Hs]]%lookup_insert_Some; [by eauto|].
    destruct (rep_some _ _ Hr _ _ Hs) as [Hk1 (x1 & Hv1 & Hst1)]. split; [done|]. exists x1.
    split; [|done]. rewrite Ho; [done|]. intros ?%ekey_inj; congruence.
  - intros k' x' Hv' Hpid. destruct (decide (k' = ekey k)) as [->|Hne].
    + exists k, v. by rewrite lookup_insert_eq.
    + rewrite Ho in Hv' by done. destruct (rep_only _ _ Hr _ _ Hv' Hpid) as (k1 & v1 & Hs & ->).
      exists k1, v1. split; [|done]. rewrite lookup_insert_ne; [done|]. by intros <-.
Qed.

(** Removing entries, by a test that agrees on both sides. *)
Lemma represents_filter d s (p : ItemRow → bool) (P : AKey * AVal → Prop) `{!∀ x, Decision (P x)} :
  represents d s →
  (∀ r, p r = true → i_profile r = pid) →
  (∀ k v r, s !! k = Some v → find_item (ekey k) d = Some r → p r = bool_decide (¬ P (k, v))) →
  represents (delete_items p d).1 (filter P s).
Proof.
  intros Hr Hpp Hag. pose proof (rep_wf _ _ Hr) as Hwf.
  destruct (delete_items_spec p d Hwf) as (Hwf' & Hpr & _ & Hv). split; [done| | |].
  - pose proof (rep_profile _ _ Hr) as Hh. unfold has_profile in *. by rewrite Hpr.
  - intros k v [Hs HP]%map_lookup_filter_Some. destruct (rep_some _ _ Hr _ _ Hs) as [Hk (x & Hx & Hst)].
    split; [done|]. exists x. split; [|done]. rewrite Hv.
    destruct (find_item (ekey k) d) as [r|] eqn:Hf; [|by unfold view in Hx; rewrite Hf in Hx].
    rewrite (Hag _ _ _ Hs Hf), bool_decide_false; [done|]. by intros ?.
  - intros k' x Hx Hpid. rewrite Hv in Hx. destruct (find_item k' d) as [r|] eqn:Hf; [|done].
    destruct (p r) eqn:Hp; [done|]. destruct (rep_only _ _ Hr _ _ Hx Hpid) as (k & v & Hs & ->).
    exists k, v. split; [|done]. apply map_lookup_filter_Some. split; [done|].
    rewrite (Hag _ _ _ Hs Hf) in Hp. apply bool_decide_eq_false in Hp. by destruct (decide (P (k, v))).
Qed.

(** The rows of the profile are those of the entries, one each. *)
Lemma rep_row d s r : represents d s → r ∈ items d → i_profile r = pid →
  ∃ k v, s !! k = Some v ∧ item_key r = ekey k ∧ find_item (ekey k) d = Some r.
Proof.
  intros Hr Hin Hp. pose proof (find_item_unique _ d r (keys_unique _ (rep_wf _ _ Hr)) Hin eq_refl) as Hf.
  destruct (rep_only _ _ Hr (item_key r) (i_value r, i_expiry r, item_tags (i_id r) d)) as (k & v & Hs & Hk);
    [unfold view; by rewrite Hf|done|].
  exists k, v. rewrite Hk in Hf. done.
Qed.

Lemma rep_find d s k v : represents d s → s !! k = Some v →
  ∃ r, find_item (ekey k) d = Some r ∧ r ∈ items d ∧ item_key r = ekey k
    ∧ stored k (i_value r, i_expiry r, item_tags (i_id r) d) v.
Proof.
  intros Hr Hs. destruct (rep_some _ _ Hr _ _ Hs) as [_ (x & Hx & Hst)]. unfold view in Hx.
  destruct (find_item (ekey k) d) as [r|] eqn:Hf; [|done]. injection Hx as <-. exists r.
  by destruct (find_item_in _ _ _ Hf).
Qed.

(** The row of an entry. *)
Definition row_at (d : Db) (kv : AKey * AVal) : ItemRow :=
  default (mkItem 0 0 0 [] [] [] None) (find_item (ekey kv.1) d).

(** A test that agrees on both sides selects the rows of the selected entries. *)
Lemma rows_perm d s (p : ItemRow → bool) (P : AKey * AVal → Prop) `{!∀ x, Decision (P x)} :
  represents d s →
  (∀ r, p r = true → i_profile r = pid) →
  (∀ k v r, s !! k = Some v → find_item (ekey k) d = Some r → p r = bool_decide (P (k, v))) →
  List.filter p (items d) ≡ₚ List.map (row_at d) (map_to_list (filter P s)).
Proof.
  intros Hr Hpp Hag.
  assert (Hat : ∀ k v, (k, v) ∈ map_to_list (filter P s) → s !! k = Some v ∧ P (k, v) ∧
    ∃ r, row_at d (k, v) = r ∧ find_item (ekey k) d = Some r ∧ r ∈ items d ∧ item_key r = ekey k).
  { intros k v [Hs HP]%elem_of_map_to_list%map_lookup_filter_Some. split_and!; [done..|].
    destruct (rep_find d s k v Hr Hs) as (r & Hf & Hin & Hk & _). exists r. unfold row_at. cbn. by rewrite Hf. }
  apply NoDup_Permutation.
  - apply (NoDup_fmap_1 item_key), nodup_filter_map, Hr.
  - apply NoDup_fmap_2_strong; [|apply NoDup_map_to_list]. intros [k1 v1] [k2 v2] H1 H2 E.
    apply Hat in H1 as (Hs1 & _ & r1 & E1 & _ & _ & K1), H2 as (Hs2 & _ & r2 & E2 & _ & _ & K2).
    assert (k1 = k2) as ->; [|congruence]. apply ekey_inj; [by eapply rep_some|by eapply rep_some|congruence].
  - intros r. rewrite list_elem_of_fmap, list_elem_of_In, List.filter_In. split.
    + intros [Hin Hp]. apply list_elem_of_In in Hin.
      destruct (rep_row d s r Hr Hin (Hpp _ Hp)) as (k & v & Hs & Hk & Hf).
      exists (k, v). unfold row_at. cbn. rewrite Hf. split; [done|].
      apply elem_of_map_to_list, map_lookup_filter_Some. split; [done|].
      rewrite (Hag _ _ _ Hs Hf) in Hp. by apply bool_decide_eq_true in Hp.
    + intros ([k v] & -> & (Hs & HP & r' & -> & Hf & Hin & Hk)%Hat).
      split; [by apply list_elem_of_In|]. rewrite (Hag _ _ _ Hs Hf). by apply bool_decide_eq_true.
Qed.

Lemma count_agrees d s (p : ItemRow → bool) (P : AKey * AVal → Prop) `{!∀ x, Decision (P x)} :
  represents d s →
  (∀ r, p r = true → i_profile r = pid) →
  (∀ k v r, s !! k = Some v → find_item (ekey k) d = Some r → p r = bool_decide (P (k, v))) →
  length (List.filter p (items d)) = size (filter P s).
Proof. intros Hr Hpp Hag. by rewrite (rows_perm d s p P), List.length_map, length_map_to_list. Qed.

(** ** Running the operations *)

Lemma exec_ok {A} on_err (f : Db → res string (Db * A)) (w : W) d a :
  faults w = [] → f (db w) = Ok (d, a) → exec on_err f w = (set_db d w, Ok a).
Proof.
  destruct w as [d0 sv fs c se]. cbn. intros -> E. unfold exec, mbind, stm_bind, db_call, sget. cbn.
  by rewrite E.
Qed.

Lemma exec_err {A} on_err (f : Db → res string (Db * A)) (w : W) msg :
  faults w = [] → f (db w) = Err msg → exec on_err f w = (w, Err (on_err msg)).
Proof.
  destruct w as [d0 sv fs c se]. cbn. intros -> E. unfold exec, mbind, stm_bind, db_call, sget. cbn.
  by rewrite E.
Qed.

Lemma acquire_session_ready w : ready w → acquire_session w = (w, Ok pid).
Proof.
  destruct w as [d sv fs c [k st n]]. intros (Hst & Hk & Hf). cbn in *. subst. reflexivity.
Qed.

Lemma acquire_key_ready w : ready w → acquire_key w = (w, Ok (pid, pk)).
Proof.
  intros Hr. unfold acquire_key. rewrite (stm_bind_ok _ _ _ _ _ (acquire_session_ready w Hr)).
  destruct Hr as (_ & Hk & _). unfold mbind, stm_bind, sget, lift. cbn. unfold profile_and_key.
  by rewrite Hk.
Qed.

Lemma ready_set_db w d : ready w → ready (set_db d w).
Proof. done. Qed.

Lemma prepared_inv k b : sec_inv (prepared k b) ∧ sec_data (prepared k b) = b.
Proof. apply prepare_input_inv. Qed.

Lemma encrypt_category_ok c : text_ok c →
  encrypt_entry_category pk (prepared pk (as_bytes c)) = Ok (enc_category pk (as_bytes c)).
Proof.
  intros [_ Hc]. destruct (prepared_inv pk (as_bytes c)) as [Hi E].
  pose proof (category_spec pk (prepared pk (as_bytes c)) pk_ok Hi) as Hs. rewrite E in Hs. by apply Hs.
Qed.

Lemma encrypt_name_ok n : text_ok n →
  encrypt_entry_name pk (prepared pk (as_bytes n)) = Ok (enc_name pk (as_bytes n)).
Proof.
  intros [_ Hn]. destruct (prepared_inv pk (as_bytes n)) as [Hi E].
  pose proof (name_spec pk (prepared pk (as_bytes n)) pk_ok Hi) as Hs. rewrite E in Hs. by apply Hs.
Qed.

Lemma prepare_tag_id t : prepare_tag pk t = t.
Proof.
  assert (E : ∀ s, prepare_string pk s = s).
  { intros s. unfold prepare_string.
    destruct (prepare_input_inv (tag_name_key pk) (as_bytes s)) as [_ ->]. apply string_of_as_bytes. }
  destruct t; unfold prepare_tag; by rewrite !E.
Qed.

Lemma encrypt_tags_ok tags : Forall (tag_small cipher_max) tags →
  (tags ← prepare_tags pk tags; Some <$> encrypt_entry_tags pk tags : sres _)
  = Ok (Some (List.map (enc_tag pk) tags)).
Proof.
  intros Hs. unfold prepare_tags. rewrite (bind_ok (Ok _) _ _ eq_refl).
  rewrite (List.map_ext _ _ prepare_tag_id), List.map_id.
  pose proof (encrypt_tags_spec pk tags pk_ok Hs) as E. cbn [encrypt_entry_tags ProfileKey_encryptor].
  by rewrite E.
Qed.

(** *** The body of an insertion runs as the statements do *)

Lemma body_exec {A} on_err (f : Db → res string (Db * A)) : body_ok (exec on_err f).
Proof.
  intros [d sv fs c se]. unfold exec, mbind, stm_bind, db_call, sget, smod, sfail, lift.
  destruct fs as [|[m|] fs]; cbn; [destruct (f d) as [[]| |]; by cbn|done|].
  destruct (f d) as [[]| |]; by cbn.
Qed.

Lemma body_insert_tags id ts : body_ok (insert_tags id ts).
Proof. induction ts as [|t ts IH]; [done|]. cbn. apply body_bind; [apply body_exec|done]. Qed.

Lemma body_insert p kind c n v ts e new : body_ok (perform_insert env p kind c n v ts e new).
Proof.
  unfold perform_insert. apply body_bind; [apply body_lift|]. intros expiry.
  apply body_bind; [destruct new|].
  - apply body_bind; [apply body_exec|]. by intros [].
  - apply body_bind; [apply body_exec|]. intros. apply body_bind; [apply body_exec|]. done.
  - intros id. destruct ts; [apply body_insert_tags|done].
Qed.

Lemma insert_tags_run id ts (w : W) d :
  faults w = [] → insert_all_tags id ts (db w) = Ok (d, ()) → insert_tags id ts w = (set_db d w, Ok ()).
Proof.
  revert w. induction ts as [|t ts IH]; intros w Hf.
  - intros [= <-]. by destruct w.
  - cbn [insert_all_tags insert_tags].
    destruct (sql_insert_tag id t (db w)) as [[d1 []]| |] eqn:E; cbn; [|done..].
    intros E2. rewrite (stm_bind_ok _ _ _ _ _ (exec_ok _ _ w d1 () Hf E)).
    rewrite (IH (set_db d1 w)); [done|done|exact E2].
Qed.

(** What an operation of the session must leave alone: other profiles. *)
Definition frame (d d' : Db) : Prop :=
  profiles d' = profiles d ∧ config d' = config d
  ∧ ∀ k', k'.1.1.1 ≠ pid → view d' k' = view d k'.

Lemma frame_refl d : frame d d.
Proof. done. Qed.

Lemma frame_trans d1 d2 d3 : frame d1 d2 → frame d2 d3 → frame d1 d3.
Proof. intros (P1 & C1 & V1) (P2 & C2 & V2). split_and!; [congruence..|]. intros. rewrite V2; auto. Qed.

Lemma ekey_frame (d d' : Db) k :
  profiles d' = profiles d → config d' = config d → (∀ k', k' ≠ ekey k → view d' k' = view d k') → frame d d'.
Proof. intros Hp Hc Hv. split_and!; [done..|]. intros k' Hk. apply Hv. intros ->. by apply Hk. Qed.

Lemma set_db_same (w : W) : set_db (db w) w = w.
Proof. by destruct w. Qed.

Lemma set_db_twice d d' (w : W) : set_db d' (set_db d w) = set_db d' w.
Proof. done. Qed.

Lemma bind_expiry_total ms : bind_expiry env ms ≠ Panic.
Proof. destruct ms; [|done]. unfold bind_expiry, expiry_timestamp, ok_or. by destruct (env_checked_add _ _ _). Qed.

Definition enc_tags_opt (tags : option (list EntryTag)) : option (list EncEntryTag) :=
  List.map (enc_tag pk) <$> tags.

(** The tags of an insertion, given or not. *)
Lemma optional_tags_run id tags (w : W) d :
  faults w = [] → insert_all_tags id (List.map (enc_tag pk) (default [] tags)) (db w) = Ok (d, ()) →
  match enc_tags_opt tags with Some ts => insert_tags id ts | None => mret () end w = (set_db d w, Ok ()).
Proof.
  intros Hf. destruct tags as [ts|]; cbn; [by apply insert_tags_run|].
  intros [= <-]. by rewrite set_db_same.
Qed.

Lemma perform_insert_sim (w : W) s (kind : EntryKind) c n (encv value : bytes) tags expiry_ms (is_new : bool) :
  faults w = [] → represents (db w) s → akey_ok (kind, c, n) →
  (∃ b, decrypt_entry_value pk (as_bytes c) (as_bytes n) encv = Ok b ∧ sec_data b = value) →
  Forall tag_ok (default [] tags) → Forall (tag_small cipher_max) (default [] tags) →
  let '(s', r) := a_update env (if is_new then EntryOperation.Insert else EntryOperation.Replace)
    (kind, c, n) (Some value) tags expiry_ms s in
  ∃ d', perform_insert env pid kind (enc_category pk (as_bytes c)) (enc_name pk (as_bytes n)) encv
      (enc_tags_opt tags) expiry_ms is_new w = (set_db d' w, r)
    ∧ represents d' s' ∧ frame (db w) d'.
Proof.
  intros Hf Hr Hk Hval Hto Hts. set (k := (kind, c, n)) in *. unfold a_update.
  change (pid, kind_value kind, enc_category pk (as_bytes c), enc_name pk (as_bytes n)) with (ekey k) in *.
  unfold perform_insert.
  destruct (bind_expiry env expiry_ms) as [e|e|] eqn:Ee;
    [|destruct is_new; exists (db w); rewrite set_db_same; by split_and!|by apply bind_expiry_total in Ee].
  rewrite (stm_bind_ok (lift (Ok e)) _ _ _ _ eq_refl).
  change (pid, kind_value kind, enc_category pk (as_bytes c), enc_name pk (as_bytes n)) with (ekey k).
  set (v := mkAVal value (default [] tags) e).
  set (x := (encv, e, List.map (enc_tag pk) (default [] tags))).
  assert (Hst : stored k x v) by (split_and!; done).
  destruct is_new, (s !! k) as [v0|] eqn:Es.
  - destruct (rep_find _ _ _ _ Hr Es) as (r & Hfi & _).
    exists (db w). rewrite set_db_same. split_and!; [|done..].
    rewrite stm_bind_assoc, (stm_bind_ok _ _ _ (set_db (db w) w) None).
    { by rewrite set_db_same. }
    apply exec_ok; [done|]. by rewrite insert_item_cases, Hfi.
  - pose proof (rep_none _ _ _ Hr Hk Es) as Hn%view_find.
    destruct (insert_item_spec (ekey k) encv e x.2 (db w) (rep_wf _ _ Hr) Hn (rep_profile _ _ Hr))
      as (id & d1 & d2 & E1 & E2 & Hwf & Hp & Hc & Hv & Ho).
    exists d2. split_and!.
    + rewrite stm_bind_assoc, (stm_bind_ok _ _ _ _ _ (exec_ok _ _ w _ _ Hf E1)).
      rewrite stm_bind_ret. apply (optional_tags_run id tags (set_db d1 w)); [done|exact E2].
    + by eapply represents_insert.
    + by eapply ekey_frame.
  - destruct (rep_find _ _ _ _ Hr Es) as (r & Hfi & _).
    destruct (update_item_spec (ekey k) encv e x.2 (db w) r (rep_wf _ _ Hr) Hfi)
      as (d1 & d2 & d3 & E1 & E2 & E3 & Hwf & Hp & Hc & Hv & Ho).
    exists d3. split_and!.
    + rewrite stm_bind_assoc, (stm_bind_ok _ _ _ _ _ (exec_ok _ _ w _ _ Hf E1)).
      rewrite stm_bind_assoc, (stm_bind_ok _ _ _ _ _ (exec_ok _ _ (set_db d1 w) _ _ Hf E2)).
      rewrite stm_bind_ret.
      apply (optional_tags_run (i_id r) tags (set_db d2 (set_db d1 w))); [done|exact E3].
    + by eapply represents_insert.
    + by eapply ekey_frame.
  - pose proof (rep_none _ _ _ Hr Hk Es) as Hn%view_find.
    exists (db w). rewrite set_db_same. split_and!; [|done..].
    assert (E : sql_update_item (ekey k) encv e (db w)
      = Err "no rows returned by a query that expected to return at least one row")
      by (unfold sql_update_item; by rewrite Hn).
    rewrite stm_bind_assoc. apply stm_bind_err.
    apply (exec_err (λ _, err_kind StorageError.NotFound "Error updating existing entry") _ w _ Hf E).
Qed.

(** What a world is like after an operation. *)
Definition stays (w w' : W) : Prop := saved w' = saved w ∧ session w' = session w ∧ faults w' = [].

Lemma stays_ready w w' : ready w → stays w w' → ready w'.
Proof. intros (Hst & Hk & _) (_ & Es & Hf). unfold ready. by rewrite Es. Qed.

Lemma with_txn_sim {A} (body : stm W StorageError.Error A) (w : W) r (Q : Db → Prop) :
  body_ok body → ready w →
  (∀ w0, faults w0 = [] → db w0 = db w → ∃ d', body w0 = (set_db d' w0, r) ∧ Q d') →
  (∀ e, r = Err e → Q (db w)) → r ≠ Panic →
  ∃ w', with_txn body w = (w', r) ∧ stays w w' ∧ Q (db w').
Proof.
  intros Hb (Hst & Hk & Hf) Hrun Herr Hnp.
  destruct (with_txn_spec body w Hb Hst Hf) as [H0 Hn].
  destruct (decide (txn_depth (session w) = 0%nat)) as [Hd|Hd].
  - destruct (H0 Hd) as (w' & E & Hw). cbn zeta in *.
    set (begun := mkWorld _ _ _ _ _) in *. destruct (Hrun begun) as (d' & Er & HQ); [done..|].
    rewrite Er in *. cbn [fst snd] in *. destruct (Hw Hnp) as (Hs & Hse & Hfa & Hdb). exists w'.
    split_and!; [done|split_and!; done|]. rewrite Hdb. destruct r; [done|by eapply Herr|done].
  - destruct (Hrun w Hf eq_refl) as (d' & Er & HQ). exists (set_db d' w). rewrite Hn, Er by done.
    split_and!; [done|by split_and!|done].
Qed.

Lemma a_update_total op k v ts ms s : (a_update env op k v ts ms s).2 ≠ Panic.
Proof.
  unfold a_update. destruct op; [| |by destruct (s !! k)];
    (destruct (bind_expiry env ms) as [e|e|] eqn:E; [by destruct (s !! k)|done|by apply bind_expiry_total in E]).
Qed.

Lemma a_update_err op k v ts ms s e : (a_update env op k v ts ms s).2 = Err e → (a_update env op k v ts ms s).1 = s.
Proof.
  unfold a_update. destruct op; [| |by destruct (s !! k)];
    (destruct (bind_expiry env ms) as [x|x|]; [by destruct (s !! k)|done|done]).
Qed.

Definition value_ok (value : option bytes) : Prop := (length (default [] value) ≤ cipher_max)%nat.
Definition tags_ok (tags : option (list EntryTag)) : Prop :=
  Forall tag_ok (default [] tags) ∧ Forall (tag_small cipher_max) (default [] tags).

(** Encrypting an entry succeeds, and what comes out decrypts to it. *)
Lemma encrypt_entry_run c n value tags :
  text_ok c → text_ok n → value_ok value → tags_ok tags →
  ∃ encv b, (enc_value ← encrypt_entry_value pk (env_rng env) (as_ref (prepared pk (as_bytes c)))
        (as_ref (prepared pk (as_bytes n))) (prepared pk (default [] value));
      enc_category ← encrypt_entry_category pk (prepared pk (as_bytes c));
      enc_name ← encrypt_entry_name pk (prepared pk (as_bytes n));
      enc_tags ← match tags with
        | Some tags => tags ← prepare_tags pk tags; Some <$> encrypt_entry_tags pk tags
        | None => Ok None
        end;
      mret (enc_category, enc_name, enc_value, enc_tags) : sres _)
    = Ok (enc_category pk (as_bytes c), enc_name pk (as_bytes n), encv, enc_tags_opt tags)
    ∧ decrypt_entry_value pk (as_bytes c) (as_bytes n) encv = Ok b ∧ sec_data b = default [] value.
Proof.
  intros Hc Hn Hv [Ho Hs]. cbn [as_ref secret_buffer].
  destruct (prepared_inv pk (as_bytes c)) as [_ ->], (prepared_inv pk (as_bytes n)) as [_ ->].
  destruct (prepared_inv pk (default [] value)) as [Hi Ed].
  destruct (value_inverse pk (env_rng env) (as_bytes c) (as_bytes n) (prepared pk (default [] value)))
    as (encv & -> & b & Eb & Hb); [done..|by rewrite Ed|].
  exists encv, b. rewrite (bind_ok (Ok encv) _ _ eq_refl).
  rewrite (bind_ok _ _ _ (encrypt_category_ok c Hc)), (bind_ok _ _ _ (encrypt_name_ok n Hn)).
  split; [|by rewrite Hb]. destruct tags as [ts|]; [|done].
  by rewrite (bind_ok _ _ _ (encrypt_tags_ok ts Hs)).
Qed.

Lemma encrypt_key_run c n :
  text_ok c → text_ok n →
  (enc_category ← encrypt_entry_category pk (prepared pk (as_bytes c));
   enc_name ← encrypt_entry_name pk (prepared pk (as_bytes n));
   mret (enc_category, enc_name) : sres _) = Ok (enc_category pk (as_bytes c), enc_name pk (as_bytes n)).
Proof.
  intros Hc Hn. by rewrite (bind_ok _ _ _ (encrypt_category_ok c Hc)), (bind_ok _ _ _ (encrypt_name_ok n Hn)).
Qed.

Lemma delete_filter (k : AKey) (s : AStore) : delete k s = filter (λ kv, kv.1 ≠ k) s.
Proof.
  apply map_eq. intros k'. destruct (decide (k' = k)) as [->|Hne].
  - rewrite lookup_delete_eq. symmetry. apply map_lookup_filter_None. right. cbn. auto.
  - rewrite lookup_delete_ne by done. symmetry. destruct (s !! k') eqn:Ek.
    + by apply map_lookup_filter_Some.
    + apply map_lookup_filter_None. auto.
Qed.

(** Deleting the row of a key. *)
Lemma delete_row d s k :
  represents d s → akey_ok k →
  (delete_items (has_key (ekey k)) d).2 = (if s !! k then 1 else 0)%Z
  ∧ represents (delete_items (has_key (ekey k)) d).1 (delete k s) ∧ frame d (delete_items (has_key (ekey k)) d).1.
Proof.
  intros Hr Hk.
  destruct (delete_items_spec (has_key (ekey k)) d (rep_wf _ _ Hr)) as (_ & Hp & Hc & _).
  destruct (delete_key_spec (ekey k) d (rep_wf _ _ Hr)) as (Hwf & Hn & Hv & Ho). split_and!.
  - rewrite Hn. destruct (s !! k) as [v|] eqn:Es.
    + destruct (rep_find _ _ _ _ Hr Es) as (r & Hfi & _). by rewrite decide_False by congruence.
    + pose proof (rep_none _ _ _ Hr Hk Es) as Hnone%view_find. by rewrite decide_True.
  - rewrite delete_filter. apply represents_filter; [done| |].
    + intros r' Hr'%bool_decide_eq_true. by injection Hr'.
    + intros k' v' r' Hs' Hf'. unfold has_key. apply find_item_in in Hf' as [_ ->].
      destruct (rep_some _ _ Hr _ _ Hs') as [Hk' _]. cbn. apply bool_decide_ext.
      split; [intros ->%ekey_inj; [tauto|done..]|]. intros Hnn. by destruct (decide (k' = k)) as [->|].
  - by eapply ekey_frame.
Qed.

Lemma remove_sim (w : W) s kind c n :
  ready w → represents (db w) s → akey_ok (kind, c, n) →
  let '(s', r) := a_update env EntryOperation.Remove (kind, c, n) None None None s in
  ∃ d', perform_remove pid kind (enc_category pk (as_bytes c)) (enc_name pk (as_bytes n)) false w
      = (set_db d' w, r) ∧ represents d' s' ∧ frame (db w) d'.
Proof.
  intros (_ & _ & Hf) Hr Hk. destruct (delete_row (db w) s _ Hr Hk) as (En & Hr' & Hfr).
  unfold a_update, perform_remove. set (k := (kind, c, n)) in *.
  change (pid, kind_value kind, enc_category pk (as_bytes c), enc_name pk (as_bytes n)) with (ekey k).
  set (t := (delete_items (has_key (ekey k)) (db w)).1) in *.
  rewrite (stm_bind_ok _ _ _ _ _ (exec_ok _ _ w t _ Hf (eq_refl : _ = Ok (t, (delete_items (has_key (ekey k)) (db w)).2)))).
  rewrite En. destruct (s !! k) eqn:Es; [|rewrite delete_id in Hr' by done]; exists t; by split_and!.
Qed.

Definition upsert (is_new : bool) : EntryOperation :=
  if is_new then EntryOperation.Insert else EntryOperation.Replace.

Lemma upsert_sim (w : W) s (is_new : bool) kind c n value tags ms :
  ready w → represents (db w) s → akey_ok (kind, c, n) → value_ok value → tags_ok tags →
  let '(s', r) := a_update env (upsert is_new) (kind, c, n) value tags ms s in
  ∃ w', update env kind (upsert is_new) c n value tags ms w = (w', r) ∧ stays w w' ∧ represents (db w') s'
    ∧ frame (db w) (db w').
Proof.
  intros Hw Hr Hk Hv Ht. pose proof Hk as [Hc Hn]. cbn in Hc, Hn.
  destruct (encrypt_entry_run c n value tags Hc Hn Hv Ht) as (encv & b & Eenc & Hdec).
  pose proof (a_update_total (upsert is_new) (kind, c, n) value tags ms s) as Hnp.
  pose proof (a_update_err (upsert is_new) (kind, c, n) value tags ms s) as Herr.
  pose proof (λ w0 : W, perform_insert_sim w0 s kind c n encv (default [] value) tags ms is_new) as Hsim.
  destruct Ht as [Ho Hs]. fold (upsert is_new) in Hsim.
  assert (Eup : a_update env (upsert is_new) (kind, c, n) (Some (default [] value)) tags ms s
    = a_update env (upsert is_new) (kind, c, n) value tags ms s) by (by destruct is_new).
  rewrite Eup in Hsim. destruct (a_update _ _ _ _ _ _ _) as [s' r]. cbn in Hnp, Herr.
  destruct (with_txn_sim (perform_insert env pid kind (enc_category pk (as_bytes c))
    (enc_name pk (as_bytes n)) encv (enc_tags_opt tags) ms is_new) w r
    (λ d', represents d' s' ∧ frame (db w) d')) as (w' & E & Hst & Hrep & Hfr);
    [apply body_insert|done| | |done|].
  - intros w0 Hf0 Hd0. destruct (Hsim w0) as (d' & E & Hrep & Hfr);
      [done|by rewrite Hd0|done|by exists b|done|done|]. exists d'. by rewrite Hd0 in Hfr.
  - intros e He. rewrite (Herr e He). by split.
  - exists w'. split_and!; try done. rewrite <- E. destruct is_new; unfold update, upsert;
      rewrite (stm_bind_ok _ _ _ _ _ (acquire_key_ready w Hw));
      rewrite (stm_bind_ok _ _ _ _ _ (lift_ok _ _ w Eenc));
      by rewrite (stm_bind_ok _ _ _ _ _ (acquire_session_ready w Hw)).
Qed.

Lemma update_sim (w : W) s op kind c n value tags ms :
  ready w → represents (db w) s → akey_ok (kind, c, n) → value_ok value → tags_ok tags →
  let '(s', r) := a_update env op (kind, c, n) value tags ms s in
  ∃ w', update env kind op c n value tags ms w = (w', r) ∧ stays w w' ∧ represents (db w') s'
    ∧ frame (db w) (db w').
Proof.
  intros Hw Hr Hk Hv Ht.
  destruct op; [by apply (upsert_sim w s true)|by apply (upsert_sim w s false)|].
  pose proof Hk as [Hc Hn]. cbn in Hc, Hn.
  pose proof (remove_sim w s kind c n Hw Hr Hk) as Hsim. cbn [a_update] in *.
  assert (E : ∀ d' r, perform_remove pid kind (enc_category pk (as_bytes c)) (enc_name pk (as_bytes n)) false w
      = (set_db d' w, r) → update env kind EntryOperation.Remove c n value tags ms w = (set_db d' w, r)).
  { intros d' r E. unfold update. rewrite (stm_bind_ok _ _ _ _ _ (acquire_key_ready w Hw)).
    rewrite (stm_bind_ok _ _ _ _ _ (lift_ok _ _ w (encrypt_key_run c n Hc Hn))).
    by rewrite (stm_bind_ok _ _ _ _ _ (acquire_session_ready w Hw)). }
  destruct Hw as (_ & _ & Hf).
  destruct (s !! (kind, c, n)); destruct Hsim as (d' & E' & Hrep & Hfr); exists (set_db d' w);
    (split_and!; [by apply E|by split_and!|done|done]).
Qed.

Lemma find_live d k (p : ItemRow → bool) :
  db_wf d → List.find (λ r, has_key k r && p r) (items d)
  = match find_item k d with Some r => if p r then Some r else None | None => None end.
Proof.
  intros Hwf. pose proof (keys_unique _ Hwf) as Hnd. unfold find_item. induction (items d) as [|r l IH]; [done|].
  cbn in Hnd |- *. apply NoDup_cons in Hnd as [Hn Hd]. destruct (has_key k r) eqn:Hk; cbn; [|by apply IH].
  destruct (p r); [done|]. rewrite IH by done.
  destruct (List.find (has_key k) l) as [r'|] eqn:Hf; [|done]. exfalso. apply Hn.
  apply find_some in Hf as [Hin Hk'%bool_decide_eq_true]. apply bool_decide_eq_true in Hk.
  rewrite Hk, <- Hk'. apply list_elem_of_fmap. exists r'. split; [done|by apply list_elem_of_In].
Qed.

(** Decrypting the tags column of an entry. *)
Lemma decrypt_tags_run tags msg :
  Forall tag_ok tags → Forall (tag_small cipher_max) tags →
  (enc_tags ← ok_or (decode_tags hex_decode (tags_column (List.map (enc_tag pk) tags))) msg;
   decrypt_entry_tags pk enc_tags : sres _) = Ok tags.
Proof.
  intros Ho Hs. rewrite decode_column by done. cbn [ok_or mbind res_bind].
  by apply (decrypt_tags_spec pk tags pk_ok Ho Hs).
Qed.

Lemma fetch_run (w : W) s kind c n fu :
  ready w → represents (db w) s → akey_ok (kind, c, n) →
  fetch env kind c n fu w = (w, Ok (a_fetch env (kind, c, n) s)).
Proof.
  intros Hw Hr Hk. pose proof Hk as [Hc Hn]. cbn in Hc, Hn. set (k := (kind, c, n)) in *.
  unfold fetch. rewrite (stm_bind_ok _ _ _ _ _ (acquire_key_ready w Hw)). cbv beta iota.
  rewrite (stm_bind_ok _ _ _ _ _ (lift_ok _ _ w (encrypt_key_run c n Hc Hn))).
  rewrite (stm_bind_ok _ _ _ _ _ (acquire_session_ready w Hw)). cbn [fst snd].
  change (pid, kind_value kind, enc_category pk (as_bytes c), enc_name pk (as_bytes n)) with (ekey k).
  destruct Hw as (_ & _ & Hf).
  rewrite (stm_bind_ok _ _ _ _ _ (exec_ok _ (sql_fetch_item (env_now env) (ekey k)) w (db w) _ Hf eq_refl)).
  rewrite set_db_same, find_live by apply Hr. unfold a_fetch. destruct (s !! k) as [v|] eqn:Es.
  - destruct (rep_find _ _ _ _ Hr Es) as (r & -> & _ & _ & (b & Eb & Hb) & He & Et & Ho & Hs).
    cbn [fst snd] in *. cbn [mbind option_bind]. unfold a_live. rewrite <- He. unfold live.
    destruct (unexpired _ _); cbn [mbind option_bind]; [|done].
    apply lift_ok. rewrite (bind_ok _ _ _ Eb), Et.
    pose proof (decrypt_tags_run (a_tags v) (err_kind StorageError.Unexpected "Error decoding entry tags") Ho Hs) as Ed.
    apply bind_ok_inv in Ed as (ts & -> & Ed). run_bind. rewrite Ed. cbn. by rewrite Hb.
  - pose proof (rep_none _ _ _ Hr Hk Es) as Hnone%view_find. by rewrite Hnone.
Qed.

(** *** Queries over many rows *)

Definition opt_text_ok (c : option string) : Prop := match c with Some c => text_ok c | None => True end.

(** A filter that can be evaluated on all the entries of a store. *)
Definition filter_ready (s : AStore) (f : option TagFilter) : Prop :=
  match f with
  | None => True
  | Some f =>
      let q := rename split_tag_name (filter_query f) in
      filter_ok pk [] q 3 ∧ ∀ k v, s !! k = Some v → filter_ok pk (a_tags v) q 3
  end.

Abbreviation enc_category_opt c := ((λ t, enc_category pk (as_bytes t)) <$> c).

(** There are at most two arguments for each text of a filter. *)
Definition filter_size (f : option TagFilter) : nat :=
  match f with
  | None => 0
  | Some f => 2 * length (query_texts (rename split_tag_name (filter_query f)))
  end.
Definition filter_args (flt : option (string * list bytes)) : list bytes :=
  match flt with Some (_, args) => args | None => [] end.

(** The encoded filter, read with the placeholders of its dialect, is a condition that
    holds of the rows of the entries the filter holds of. *)
Lemma encode_filter_clause {Q : QueryPrepare} mark s f :
  placeholder = marked mark → (∀ t, strip ")" (mark +:+ t) = None) → filter_ready s f →
  ∃ flt, encode_tag_filter f pk 3 = Ok flt ∧ (length (filter_args flt) ≤ filter_size f)%nat
    ∧ match flt with
      | Some (text, args) => ∃ c, parse_clause mark 3 args text = Some c
          ∧ compile (En pk) (Ev pk) (rename split_tag_name (default default_query (filter_query <$> f))) false = Some c
          ∧ ∀ k v x, s !! k = Some v → stored k x v →
              sem sql_like (List.map row_of x.2) c = filter_holds sql_like f (a_tags v)
      | None => ∀ k v x, s !! k = Some v → stored k x v → filter_holds sql_like f (a_tags v) = true
      end.
Proof.
  intros Hph Hmark. destruct f as [f|]; [|by exists None]. intros [H0 Hall].
  pose proof (encode_tag_filter_compiles pk [] sql_like f 3 pk_ok nonce_12 ltac:(constructor) H0) as (o & Eo & Hsz).
  exists o. split; [done|]. split; [destruct o as [[]|]; [by destruct Hsz as (_ & _ & _ & _ & _ & ? & _)|cbn; lia]|].
  assert (Hv : ∀ k v x, s !! k = Some v → stored k x v → _) by
    (intros k v x Hs (_ & _ & _ & _ & Hsm);
     exact (encode_tag_filter_spec pk (a_tags v) sql_like f 3 pk_ok nonce_12 Hsm (Hall _ _ Hs))).
  destruct o as [[text args]|].
  - destruct Hsz as (c & Ec & -> & -> & Hwf & _ & _). exists c. rewrite Hph.
    split; [by apply parse_clause_bound|]. split; [exact Ec|]. intros k v x Hs Hst.
    destruct (Hv k v x Hs Hst) as (o' & Eo' & Ho). rewrite Eo in Eo'. injection Eo' as <-.
    destruct Ho as (c' & Et & Ea & Hwf' & _ & Ho). destruct Hst as (_ & _ & -> & _).
    rewrite List.map_map. cbn [filter_holds]. rewrite <- Ho. f_equal.
    pose proof (parse_clause_bound mark 3 c' Hmark Hwf') as Hp'. rewrite <- Hph, <- Et, <- Ea, Hph in Hp'.
    rewrite parse_clause_bound in Hp' by done. congruence.
  - intros k v x Hs Hst. destruct (Hv k v x Hs Hst) as (o' & Eo' & Ho). rewrite Eo in Eo'. by injection Eo' as <-.
Qed.

Lemma encode_filter_run s f :
  filter_ready s f →
  ∃ flt, encode_tag_filter (Q := SqlitePrepare) f pk 3 = Ok flt ∧ (length (filter_args flt) ≤ filter_size f)%nat ∧
    ∀ d r k v, s !! k = Some v → stored k (i_value r, i_expiry r, item_tags (i_id r) d) v →
      matches flt d r = filter_holds sql_like f (a_tags v).
Proof.
  intros Hf. destruct (encode_filter_clause (Q := SqlitePrepare) "?" s f eq_refl) as (flt & E & Hsz & Hm); [done..|].
  exists flt. split_and!; [done..|]. intros d r k v Hs Hst. unfold matches. destruct flt as [[text args]|].
  - destruct Hm as (c & Ep & _ & Hm). unfold eval_clause. rewrite Ep. exact (Hm _ _ _ Hs Hst).
  - symmetry. exact (Hm _ _ _ Hs Hst).
Qed.

Lemma encode_select_run s c f :
  opt_text_ok c → filter_ready s f →
  ∃ flt, encode_select pk c f = Ok (enc_category_opt c, flt) ∧ (length (filter_args flt) ≤ filter_size f)%nat ∧
    ∀ d r k v, s !! k = Some v → stored k (i_value r, i_expiry r, item_tags (i_id r) d) v →
      matches flt d r = filter_holds sql_like f (a_tags v).
Proof.
  intros Hc Hf. destruct (encode_filter_run s f Hf) as (flt & Ef & Hsz & Hm). exists flt. split; [|done].
  unfold encode_select. destruct c as [c|].
  - rewrite (encrypt_category_ok c Hc). cbn [fmap res_fmap mbind res_bind]. by rewrite Ef.
  - run_bind. by rewrite Ef.
Qed.

Lemma selected_agrees r k kind c :
  item_key r = ekey k → akey_ok k → opt_text_ok c →
  selected pid (kind_value <$> kind) (enc_category_opt c) r
  = match kind with Some e => bool_decide (k.1.1 = e) | None => true end
    && match c with Some t => String.eqb k.1.2 t | None => true end.
Proof.
  destruct r as [i p e cat nm v ex]. destruct k as [[e' c'] n']. unfold item_key, ekey, selected. cbn.
  intros [= -> -> -> ->] [[_ Hc'] _] Hc. cbn in Hc'. rewrite bool_decide_true by done. cbn. f_equal.
  - destruct kind as [e|]; [|done]. cbn. apply bool_decide_ext. destruct e, e'; cbn; split; congruence.
  - destruct c as [t|]; [|done]. cbn. destruct Hc as [_ Hc].
    destruct (String.eqb_spec c' t) as [->|Hne]; [by apply bool_decide_true|].
    apply bool_decide_false. intros E. apply Hne, as_bytes_inj.
    apply (searchable_inj (category_key pk) (item_hmac_key pk)); [apply pk_ok|done..].
Qed.

Lemma selected_profile kind c r : selected pid kind c r = true → i_profile r = pid.
Proof. unfold selected. rewrite !andb_true_iff, bool_decide_eq_true. tauto. Qed.

Lemma extend_query_unlimited (Q : QueryPrepare) query p flt :
  ∃ x, @extend_query Q query p flt None None None false = Ok x.
Proof. unfold extend_query. destruct flt as [[]|]; cbn; case_match; eauto. Qed.

(** The rows a query reads are those of the matching entries, for a test of the tags
    that agrees with the filter. *)
Lemma matching_rows {R : Resolution} d s kind c f (m : ItemRow → bool) :
  represents d s → opt_text_ok c →
  (∀ r k v, s !! k = Some v → stored k (i_value r, i_expiry r, item_tags (i_id r) d) v →
      m r = filter_holds sql_like f (a_tags v)) →
  List.filter (λ r, selected pid (kind_value <$> kind) (enc_category_opt c) r
                    && unexpired (H := R) (env_now env) (i_expiry r) && m r) (items d)
  ≡ₚ List.map (row_at d) (map_to_list (a_matching (HR := R) sql_like env kind c f s)).
Proof.
  intros Hr Hc Hm. unfold a_matching. apply rows_perm; [done| |].
  - intros r [[Hs _]%andb_true_iff _]%andb_true_iff. by eapply selected_profile.
  - intros k v r Hs Hfi. destruct (rep_find _ _ _ _ Hr Hs) as (r' & Hfi' & _ & Hk & Hst).
    rewrite Hfi in Hfi'. injection Hfi' as <-. destruct (rep_some _ _ Hr _ _ Hs) as [Hok _].
    rewrite (Hm _ _ _ Hs Hst), (selected_agrees r k) by done.
    destruct Hst as (_ & He & _). cbn in He. rewrite He.
    apply eq_true_iff_eq. rewrite bool_decide_eq_true. unfold a_selected, a_live. cbn [fst snd].
    rewrite !andb_true_iff. tauto.
Qed.

(** Those a bulk removal reads. *)
Lemma removed_rows d s kind c f (m : ItemRow → bool) k v r :
  represents d s → opt_text_ok c →
  (∀ r k v, s !! k = Some v → stored k (i_value r, i_expiry r, item_tags (i_id r) d) v →
      m r = filter_holds sql_like f (a_tags v)) →
  s !! k = Some v → find_item (ekey k) d = Some r →
  selected pid (kind_value <$> kind) (enc_category_opt c) r && m r = a_selected sql_like kind c f (k, v).
Proof.
  intros Hr Hc Hm Hs Hfi. destruct (rep_find _ _ _ _ Hr Hs) as (r' & Hfi' & _ & Hk & Hst).
  rewrite Hfi in Hfi'. injection Hfi' as <-. destruct (rep_some _ _ Hr _ _ Hs) as [Hok _].
  by rewrite (Hm _ _ _ Hs Hst), (selected_agrees r k).
Qed.

(** What a bulk removal leaves, and how many rows it counts. *)
Lemma remove_rows d s kind c f (m : ItemRow → bool)
    (p := λ r, selected pid (kind_value <$> kind) (enc_category_opt c) r && m r) :
  represents d s → opt_text_ok c →
  (∀ r k v, s !! k = Some v → stored k (i_value r, i_expiry r, item_tags (i_id r) d) v →
      m r = filter_holds sql_like f (a_tags v)) →
  (delete_items p d).2 = (a_remove_all sql_like kind c f s).2
  ∧ represents (delete_items p d).1 (a_remove_all sql_like kind c f s).1 ∧ frame d (delete_items p d).1.
Proof.
  intros Hr Hc Hm.
  assert (Hpp : ∀ r, p r = true → i_profile r = pid).
  { intros r [Hs _]%andb_true_iff. by eapply selected_profile. }
  assert (Hag : ∀ k v r, s !! k = Some v → find_item (ekey k) d = Some r → p r = a_selected sql_like kind c f (k, v)).
  { intros k v r. by apply removed_rows. }
  unfold a_remove_all. split_and!.
  - cbn [delete_items snd]. f_equal. apply count_agrees; [done|done|].
    intros k v r Hs Hfi. rewrite (Hag k v r Hs Hfi). apply eq_true_iff_eq. by rewrite bool_decide_eq_true.
  - cbn. apply represents_filter; [done|done|]. intros k v r Hs Hfi. rewrite (Hag k v r Hs Hfi).
    apply eq_true_iff_eq. rewrite bool_decide_eq_true. by destruct (a_selected _ _ _ _ _).
  - destruct (delete_items_spec p d (rep_wf _ _ Hr)) as (_ & Hp & Hcf & Hv).
    split_and!; [done..|]. intros k' Hk'. rewrite Hv. unfold view.
    destruct (find_item k' d) as [r|] eqn:E; [|done]. destruct (p r) eqn:Ep; [|done].
    apply Hpp in Ep. apply find_item_in in E as [_ <-]. by destruct Hk'.
Qed.

Lemma count_run (w : W) s kind c f :
  ready w → represents (db w) s → opt_text_ok c → filter_ready s f →
  count env kind c f w = (w, Ok (a_count sql_like env kind c f s)).
Proof.
  intros Hw Hr Hc Hf. destruct (encode_select_run s c f Hc Hf) as (flt & Ef & _ & Hm).
  unfold count. rewrite (stm_bind_ok _ _ _ _ _ (acquire_key_ready w Hw)). cbv beta iota.
  rewrite (stm_bind_ok _ _ _ _ _ (lift_ok _ _ w Ef)). cbv beta iota.
  destruct (extend_query_unlimited SqlitePrepare COUNT_QUERY (select_params pid kind (enc_category_opt c)) flt) as [x Ex].
  rewrite (stm_bind_ok _ _ _ _ _ (lift_ok _ _ w Ex)).
  rewrite (stm_bind_ok _ _ _ _ _ (acquire_session_ready w Hw)). destruct Hw as (_ & _ & Hfa).
  erewrite exec_ok; [|done|reflexivity]. rewrite set_db_same. unfold a_count. do 3 f_equal.
  pose proof (matching_rows (db w) s kind c f (matches flt (db w)) Hr Hc (Hm _)) as Hp.
  apply Permutation_length in Hp. rewrite List.length_map, length_map_to_list in Hp. exact Hp.
Qed.

Lemma remove_all_sim (w : W) s kind c f :
  ready w → represents (db w) s → opt_text_ok c → filter_ready s f →
  let '(s', n) := a_remove_all sql_like kind c f s in
  ∃ w', remove_all kind c f w = (w', Ok n) ∧ stays w w' ∧ represents (db w') s' ∧ frame (db w) (db w').
Proof.
  intros Hw Hr Hc Hf. destruct (encode_select_run s c f Hc Hf) as (flt & Ef & _ & Hm).
  pose proof (remove_rows (db w) s kind c f (matches flt (db w)) Hr Hc (Hm _)) as (En & Hr' & Hfr).
  destruct (a_remove_all _ _ _ _ _) as [s' n]. cbn [fst snd] in En, Hr'.
  set (p := λ r, selected pid (kind_value <$> kind) (enc_category_opt c) r && matches flt (db w) r) in *.
  exists (set_db (delete_items p (db w)).1 w). split_and!; [|split_and!; try done; apply Hw|done|done].
  unfold remove_all. rewrite (stm_bind_ok _ _ _ _ _ (acquire_key_ready w Hw)). cbv beta iota.
  rewrite (stm_bind_ok _ _ _ _ _ (lift_ok _ _ w Ef)). cbv beta iota.
  destruct (extend_query_unlimited SqlitePrepare DELETE_ALL_QUERY (select_params pid kind (enc_category_opt c)) flt) as [x Ex].
  rewrite (stm_bind_ok _ _ _ _ _ (lift_ok _ _ w Ex)).
  rewrite (stm_bind_ok _ _ _ _ _ (acquire_session_ready w Hw)). destruct Hw as (_ & _ & Hfa).
  rewrite (exec_ok _ _ w (delete_items p (db w)).1 (delete_items p (db w)).2); [|done|reflexivity].
  by rewrite En.
Qed.

(** *** All operations *)

(** The texts and values are not too long to be encrypted, strings are UTF-8 and
    filters can be evaluated. *)
Definition op_ok (op : Op) (s : AStore) : Prop :=
  match op with
  | OpUpdate _ kind c n value tags _ => akey_ok (kind, c, n) ∧ value_ok value ∧ tags_ok tags
  | OpFetch kind c n _ => akey_ok (kind, c, n)
  | OpCount _ c f | OpRemoveAll _ c f => opt_text_ok c ∧ filter_ready s f
  end.

Fixpoint ops_ok (ops : list Op) (s : AStore) : Prop :=
  match ops with
  | [] => True
  | op :: ops' => op_ok op s ∧ ops_ok ops' (a_step sql_like env op s).1
  end.

Lemma step_sim (w : W) s op :
  ready w → represents (db w) s → op_ok op s →
  ∃ w', c_step env op w = (w', (a_step sql_like env op s).2) ∧ stays w w'
    ∧ represents (db w') (a_step sql_like env op s).1 ∧ frame (db w) (db w').
Proof.
  intros Hw Hr Hop. pose proof Hw as (_ & _ & Hf).
  destruct op as [o kind c n v ts ms|kind c n fu|kind c f|kind c f]; cbn [op_ok c_step a_step] in *.
  - destruct Hop as (Hk & Hv & Ht). pose proof (update_sim w s o kind c n v ts ms Hw Hr Hk Hv Ht) as Hs.
    pose proof (a_update_total o (kind, c, n) v ts ms s) as Hnp.
    destruct (a_update _ _ _ _ _ _ _) as [s' r]. destruct Hs as (w' & E & Hst & Hrep & Hfr).
    exists w'. split_and!; try done. unfold mbind, stm_bind. rewrite E. by destruct r.
  - exists w. rewrite (stm_bind_ok _ _ _ _ _ (fetch_run w s kind c n fu Hw Hr Hop)). by split_and!.
  - destruct Hop as [Hc Hfl]. exists w.
    rewrite (stm_bind_ok _ _ _ _ _ (count_run w s kind c f Hw Hr Hc Hfl)). by split_and!.
  - destruct Hop as [Hc Hfl]. pose proof (remove_all_sim w s kind c f Hw Hr Hc Hfl) as Hs.
    destruct (a_remove_all _ _ _ _ _) as [s' n]. destruct Hs as (w' & E & Hst & Hrep & Hfr).
    exists w'. split_and!; try done. by rewrite (stm_bind_ok _ _ _ _ _ E).
Qed.

Lemma run_sim ops : ∀ (w : W) s,
  ready w → represents (db w) s → ops_ok ops s →
  ∃ w', c_run env ops w = (w', (a_run sql_like env ops s).2) ∧ stays w w'
    ∧ represents (db w') (a_run sql_like env ops s).1 ∧ frame (db w) (db w').
Proof.
  induction ops as [|op ops IH]; intros w s Hw Hr Hok.
  - exists w. destruct Hw as (_ & _ & Hf). by split_and!.
  - destruct Hok as [Hop Hops]. destruct (step_sim w s op Hw Hr Hop) as (w1 & E1 & Hst1 & Hr1 & Hf1).
    cbn [c_run a_run]. destruct (a_step sql_like env op s) as [s1 r1]. cbn [fst snd] in *. rewrite E1.
    destruct (IH w1 s1 (stays_ready _ _ Hw Hst1) Hr1 Hops) as (w2 & E2 & Hst2 & Hr2 & Hf2).
    rewrite E2. destruct (a_run sql_like env ops s1) as [s2 rs]. exists w2. split_and!; try done.
    + destruct Hst1 as (S1 & T1 & _), Hst2 as (S2 & T2 & F2). split_and!; congruence.
    + by eapply frame_trans.
Qed.

End Refinement.
