(* ===== verification/Backend.v ===== *)
(** * Backends and their sessions

    Models the traits of askar-storage/src/backend/mod.rs as classes, the operations
    that file provides for every backend (importing a scan, copying a profile or a
    whole store) and askar-storage/src/any.rs: the dispatch over backends.  The
    contract of a session relates its operations to those of the abstract store, so
    that its clients are proved against it. *)

From S2P Require Import Prelude Errors Wql TagSql DbQuery TagSqlSem SqlEval Buffers Utf8 Entry Aead.
From S2P Require Import Protect Options StoreKey DbUtils Session SqliteDb Sqlite Store.
Local Open Scope string_scope.
Local Open Scope list_scope.

(** ** The traits *)

(** The state of a session, what it does to the store included, is [W]. *)
Class BackendSession (W : Type) := {
  bs_count : option EntryKind → option string → option TagFilter → stm W StorageError.Error Z;
  bs_fetch : EntryKind → string → string → bool → stm W StorageError.Error (option Entry);
  bs_fetch_all : option EntryKind → option string → option TagFilter → option Z → option OrderBy →
    bool → bool → stm W StorageError.Error (list Entry);
  bs_remove_all : option EntryKind → option string → option TagFilter → stm W StorageError.Error Z;
  bs_update : EntryKind → EntryOperation → string → string → option bytes → option (list EntryTag) →
    option Z → stm W StorageError.Error ();
  bs_ping : stm W StorageError.Error ();
  bs_close : bool → stm W StorageError.Error ();
}.

(** A session takes the store with it and gives it back when it is dropped. *)
Class Backend (B W : Type) := {
  be_sessions :: BackendSession W;
  be_create_profile : option string → stm B StorageError.Error string;
  be_get_active_profile : B → string;
  be_get_default_profile : stm B StorageError.Error string;
  be_set_default_profile : string → stm B StorageError.Error ();
  be_list_profiles : stm B StorageError.Error (list string);
  be_remove_profile : string → stm B StorageError.Error bool;
  be_scan : option string → option EntryKind → option string → option TagFilter → option Z → option Z →
    option OrderBy → bool → stm B StorageError.Error (Scan Entry);
  be_session : option string → bool → B → sres W;
  be_drop_session : W → B → B;
  (** A session, about to be used, as the store that it refers to is now: whether the pool
      of the connections was closed. *)
  be_visit : B → W → W;
  be_rekey : StoreKeyMethod → PassKey → stm B StorageError.Error ();
  (** Whether a session has a connection out that [close] waits for, and whether the scans
      of the store that are not at their end have one. *)
  be_holds : W → bool;
  be_scans_hold : B → bool;
  (** What [close] does before it waits, and all it does once there is nothing to wait
      for. *)
  be_begin_close : B → B;
  be_close : stm B StorageError.Error ();
}.

(** ** Importing *)

Section Importing.
Context `{BackendSession W}.
Abbreviation M := (stm W StorageError.Error).

Fixpoint import_rows (rows : list Entry) : M () :=
  match rows with
  | [] => mret ()
  | entry :: rows =>
      _ ← bs_update (kind entry) EntryOperation.Insert (category entry) (name entry)
            (Some (value entry)) (Some (tags entry)) None;
      import_rows rows
  end.

(** [while let Some(rows) = scan.fetch_next().await?]; the scan is the caller's. *)
Fixpoint import_loop (fuel : nat) (scan : Scan Entry) : M () :=
  match fuel with
  | O => lift Panic
  | S fuel =>
      let '(scan, next) := fetch_next scan in
      rows ← lift next;
      match rows with
      | None => mret ()
      | Some rows => _ ← import_rows rows; import_loop fuel scan
      end
  end.

Definition stream_length {T} (scan : Scan T) : nat :=
  match scan_stream scan with Some s => length s | None => 0 end.

(** Every turn takes a page off the stream. *)
Definition import_scan (scan : Scan Entry) : M () := import_loop (stream_length scan + 2) scan.

(** The part of [copy_profile] that runs in the session of the target. *)
Definition import_into (scan : Scan Entry) : M () :=
  count ← bs_count None None None;
  if (0 <? count)%Z
  then sfail (StorageError.from_msg StorageError.Input "Profile targeted for import is not empty") else
  _ ← import_scan scan;
  bs_close true.
End Importing.

(** ** Copying *)

(** A session for the time of a computation, dropped at its end. *)
Definition with_session `{Backend B W} {A} (profile : option string) (transaction : bool)
    (body : stm W StorageError.Error A) : stm B StorageError.Error A := λ b,
  match be_session profile transaction b with
  | Ok w => let '(w', r) := body w in (be_drop_session w' b, r)
  | Err e => (b, Err e)
  | Panic => (b, Panic)
  end.

Definition on_fst {A B E X} (m : stm A E X) : stm (A * B) E X := λ s, let '(a, r) := m s.1 in ((a, s.2), r).
Definition on_snd {A B E X} (m : stm B E X) : stm (A * B) E X := λ s, let '(b, r) := m s.2 in ((s.1, b), r).

(** [if let Err(e) = m { if e.kind() != Duplicate { return Err(e) } }]. *)
Definition unless_duplicate {S X} (m : stm S StorageError.Error X) : stm S StorageError.Error () := λ s,
  match m s with
  | (s', Ok _) => (s', Ok ())
  | (s', Err e) =>
      match StorageError.kind e with StorageError.Duplicate => (s', Ok ()) | _ => (s', Err e) end
  | (s', Panic) => (s', Panic)
  end.

Section Copy.
Context `{Backend A WA} `{Backend B WB}.

Definition copy_profile (from_profile to_profile : string) : stm (A * B) StorageError.Error () :=
  scan ← on_fst (be_scan (Some from_profile) None None None None None None false);
  _ ← on_snd (unless_duplicate (be_create_profile (Some to_profile)));
  on_snd (with_session (Some to_profile) true (import_into scan)).

Fixpoint copy_profiles (profiles : list string) : stm (A * B) StorageError.Error () :=
  match profiles with
  | [] => mret ()
  | p :: ps => _ ← copy_profile p p; copy_profiles ps
  end.

(** [provision]: [provision_backend] at the target.  The state is the source and,
    once there is one, the target. *)
Definition copy_store (provision : option string → sres B) : stm (A * option B) StorageError.Error B := λ s,
  match (default_profile ← be_get_default_profile; ids ← be_list_profiles; mret (default_profile, ids)) s.1 with
  | (a, Ok (default_profile, ids)) =>
      match provision (Some default_profile) with
      | Ok b =>
          let '((a', b'), r) := copy_profiles ids (a, b) in
          ((a', Some b'), (λ _, b') <$> r)
      | Err e => ((a, None), Err e)
      | Panic => ((a, None), Panic)
      end
  | (a, Err e) => ((a, None), Err e)
  | (a, Panic) => ((a, None), Panic)
  end.
End Copy.

(** ** Any backend *)

(** [AnyBackendSession]: a session of whatever backend in a box. *)
Record AnyBackendSession (W : Type) := mkAnySession { any_session : W }.
Arguments mkAnySession {W}.
Arguments any_session {W}.

Definition forward_session {W X} (m : stm W StorageError.Error X) : stm (AnyBackendSession W) StorageError.Error X := λ s,
  let '(w, r) := m (any_session s) in (mkAnySession w, r).

#[export] Instance any_backend_session `{BackendSession W} : BackendSession (AnyBackendSession W) := {|
  bs_count kind category tag_filter := forward_session (bs_count kind category tag_filter);
  bs_fetch kind category name for_update := forward_session (bs_fetch kind category name for_update);
  bs_fetch_all kind category tag_filter limit order_by descending for_update :=
    forward_session (bs_fetch_all kind category tag_filter limit order_by descending for_update);
  bs_remove_all kind category tag_filter := forward_session (bs_remove_all kind category tag_filter);
  bs_update kind operation category name value tags expiry_ms :=
    forward_session (bs_update kind operation category name value tags expiry_ms);
  bs_ping := forward_session bs_ping;
  bs_close commit := forward_session (bs_close commit);
|}.

(** [WrapBackend]: a concrete backend whose sessions are boxed. *)
Record WrapBackend (B : Type) := mkWrap { wrapped : B }.
Arguments mkWrap {B}.
Arguments wrapped {B}.

Definition forward_wrapped {B X} (m : stm B StorageError.Error X) : stm (WrapBackend B) StorageError.Error X := λ s,
  let '(b, r) := m (wrapped s) in (mkWrap b, r).

#[export] Instance wrap_backend `{Backend B W} : Backend (WrapBackend B) (AnyBackendSession W) := {|
  be_create_profile name := forward_wrapped (be_create_profile name);
  be_get_active_profile s := be_get_active_profile (wrapped s);
  be_get_default_profile := forward_wrapped be_get_default_profile;
  be_set_default_profile profile := forward_wrapped (be_set_default_profile profile);
  be_list_profiles := forward_wrapped be_list_profiles;
  be_remove_profile name := forward_wrapped (be_remove_profile name);
  be_scan profile kind category tag_filter offset limit order_by descending :=
    forward_wrapped (be_scan profile kind category tag_filter offset limit order_by descending);
  be_session profile transaction s := mkAnySession <$> be_session profile transaction (wrapped s);
  be_drop_session w s := mkWrap (be_drop_session (any_session w) (wrapped s));
  be_visit s w := mkAnySession (be_visit (wrapped s) (any_session w));
  be_rekey method key := forward_wrapped (be_rekey method key);
  be_holds w := be_holds (any_session w);
  be_scans_hold s := be_scans_hold (wrapped s);
  be_begin_close s := mkWrap (be_begin_close (wrapped s));
  be_close := forward_wrapped be_close;
|}.

(** [AnyBackend]: a wrapped backend behind a counted reference; the number of
    references decides whether the store can be rekeyed. *)
Record AnyBackend (B : Type) := mkAnyBackend { any_inner : WrapBackend B; any_refs : nat }.
Arguments mkAnyBackend {B}.
Arguments any_inner {B}.
Arguments any_refs {B}.

Definition into_any_backend {B} (inst : B) : AnyBackend B := mkAnyBackend (mkWrap inst) 1.

Definition forward {B X} (m : stm (WrapBackend B) StorageError.Error X) : stm (AnyBackend B) StorageError.Error X := λ s,
  let '(b, r) := m (any_inner s) in (mkAnyBackend b (any_refs s), r).

Definition any_backend_rekey `{Backend B W} (method : StoreKeyMethod) (key : PassKey)
    : stm (AnyBackend B) StorageError.Error () := λ s,
  if (any_refs s =? 1)%nat then forward (be_rekey method key) s
  else (s, Err (StorageError.from_msg StorageError.Input "Cannot re-key a store with multiple references")).

(** A session is boxed once more. *)
#[export] Instance any_backend `{Backend B W} : Backend (AnyBackend B) (AnyBackendSession (AnyBackendSession W)) := {|
  be_create_profile name := forward (be_create_profile name);
  be_get_active_profile s := be_get_active_profile (any_inner s);
  be_get_default_profile := forward be_get_default_profile;
  be_set_default_profile profile := forward (be_set_default_profile profile);
  be_list_profiles := forward be_list_profiles;
  be_remove_profile name := forward (be_remove_profile name);
  be_scan profile kind category tag_filter offset limit order_by descending :=
    forward (be_scan profile kind category tag_filter offset limit order_by descending);
  be_session profile transaction s := mkAnySession <$> be_session profile transaction (any_inner s);
  be_drop_session w s := mkAnyBackend (be_drop_session (any_session w) (any_inner s)) (any_refs s);
  be_visit s w := mkAnySession (be_visit (any_inner s) (any_session w));
  be_rekey := any_backend_rekey;
  be_holds w := be_holds (any_session w);
  be_scans_hold s := be_scans_hold (any_inner s);
  be_begin_close s := mkAnyBackend (be_begin_close (any_inner s)) (any_refs s);
  be_close := forward be_close;
|}.

(** ** The contract of a session *)

(** What a session promises to its clients: as long as it stands for an abstract
    store and is given texts it can store, its operations return what those of the
    abstract store return and it stands for the store they leave. *)
Class SessionContract (W : Type) `{BackendSession W} := {
  ct_resolution :: Resolution;
  ct_env : Env;
  ct_like : bytes → bytes → bool;
  ct_rep : W → AStore → Prop;
  ct_key_ok : AKey → Prop;
  ct_value_ok : bytes → Prop;
  ct_tags_ok : list EntryTag → Prop;
  ct_filter_ok : AStore → option TagFilter → Prop;
  ct_limit_ok : option Z → Prop;
  ct_update w s kind op c n v ts ms : ct_rep w s → ct_key_ok (kind, c, n) → ct_value_ok (default [] v) →
    ct_tags_ok (default [] ts) →
    ∃ w', bs_update kind op c n v ts ms w = (w', (a_update ct_env op (kind, c, n) v ts ms s).2)
      ∧ ct_rep w' (a_update ct_env op (kind, c, n) v ts ms s).1;
  ct_fetch w s kind c n fu : ct_rep w s → ct_key_ok (kind, c, n) →
    ∃ w', bs_fetch kind c n fu w = (w', Ok (a_fetch ct_env (kind, c, n) s)) ∧ ct_rep w' s;
  ct_count w s kind c f : ct_rep w s → match c with Some c => ct_key_ok (EntryKind.Item, c, c) | None => True end →
    ct_filter_ok s f →
    ∃ w', bs_count kind c f w = (w', Ok (a_count ct_like ct_env kind c f s)) ∧ ct_rep w' s;
  ct_fetch_all w s kind c f limit order_by descending fu : ct_rep w s →
    match c with Some c => ct_key_ok (EntryKind.Item, c, c) | None => True end → ct_filter_ok s f → ct_limit_ok limit →
    ∃ w' l, bs_fetch_all kind c f limit order_by descending fu w
        = (w', Ok (List.map (λ kv, a_entry kv.1 kv.2) (sql_limit None limit l)))
      ∧ l ≡ₚ map_to_list (a_matching ct_like ct_env kind c f s) ∧ ct_rep w' s;
  ct_remove_all w s kind c f : ct_rep w s →
    match c with Some c => ct_key_ok (EntryKind.Item, c, c) | None => True end → ct_filter_ok s f →
    ∃ w', bs_remove_all kind c f w = (w', Ok (a_remove_all ct_like kind c f s).2)
      ∧ ct_rep w' (a_remove_all ct_like kind c f s).1;
}.

(** A boxed session keeps the contract of the session in it. *)
Definition any_session_contract `{SessionContract W} : SessionContract (AnyBackendSession W).
Proof.
  refine {|
    ct_resolution := ct_resolution; ct_env := ct_env; ct_like := ct_like; ct_rep w s := ct_rep (any_session w) s; ct_key_ok := ct_key_ok;
    ct_value_ok := ct_value_ok; ct_tags_ok := ct_tags_ok; ct_filter_ok := ct_filter_ok; ct_limit_ok := ct_limit_ok |}.
  - intros [w] s kind op c n v ts ms Hr Hk Hv Ht. destruct (ct_update w s kind op c n v ts ms Hr Hk Hv Ht) as (w' & E & ?).
    exists (mkAnySession w'). cbn. unfold forward_session. cbn. by rewrite E.
  - intros [w] s kind c n fu Hr Hk. destruct (ct_fetch w s kind c n fu Hr Hk) as (w' & E & ?).
    exists (mkAnySession w'). cbn. unfold forward_session. cbn. by rewrite E.
  - intros [w] s kind c f Hr Hc Hf. destruct (ct_count w s kind c f Hr Hc Hf) as (w' & E & ?).
    exists (mkAnySession w'). cbn. unfold forward_session. cbn. by rewrite E.
  - intros [w] s kind c f limit order_by descending fu Hr Hc Hf Hl.
    destruct (ct_fetch_all w s kind c f limit order_by descending fu Hr Hc Hf Hl) as (w' & l & E & ? & ?).
    exists (mkAnySession w'), l. cbn. unfold forward_session. cbn. by rewrite E.
  - intros [w] s kind c f Hr Hc Hf. destruct (ct_remove_all w s kind c f Hr Hc Hf) as (w' & E & ?).
    exists (mkAnySession w'). cbn. unfold forward_session. cbn. by rewrite E.
Defined.

(** ** Sequences of operations *)

Section SessionRun.
Context `{BackendSession W}.

Definition s_step (op : Op) : stm W StorageError.Error Result :=
  match op with
  | OpUpdate operation kind category name value tags expiry_ms =>
      _ ← bs_update kind operation category name value tags expiry_ms; mret RUnit
  | OpFetch kind category name for_update => e ← bs_fetch kind category name for_update; mret (REntry e)
  | OpCount kind category f => n ← bs_count kind category f; mret (RCount n)
  | OpRemoveAll kind category f => n ← bs_remove_all kind category f; mret (RCount n)
  end.

(** A caller goes on after an error. *)
Fixpoint s_run (ops : list Op) (w : W) : W * list (sres Result) :=
  match ops with
  | [] => (w, [])
  | op :: ops' =>
      let '(w1, r) := s_step op w in
      let '(w2, rs) := s_run ops' w1 in
      (w2, r :: rs)
  end.
End SessionRun.

Section ContractRun.
Context `{SessionContract W}.

Definition ct_category_ok (c : option string) : Prop :=
  match c with Some c => ct_key_ok (EntryKind.Item, c, c) | None => True end.

Definition ct_op_ok (op : Op) (s : AStore) : Prop :=
  match op with
  | OpUpdate _ kind c n value tags _ =>
      ct_key_ok (kind, c, n) ∧ ct_value_ok (default [] value) ∧ ct_tags_ok (default [] tags)
  | OpFetch kind c n _ => ct_key_ok (kind, c, n)
  | OpCount _ c f | OpRemoveAll _ c f => ct_category_ok c ∧ ct_filter_ok s f
  end.

Fixpoint ct_ops_ok (ops : list Op) (s : AStore) : Prop :=
  match ops with
  | [] => True
  | op :: ops' => ct_op_ok op s ∧ ct_ops_ok ops' (a_step ct_like ct_env op s).1
  end.

Lemma contract_step op w s : ct_rep w s → ct_op_ok op s →
  ∃ w', s_step op w = (w', (a_step ct_like ct_env op s).2) ∧ ct_rep w' (a_step ct_like ct_env op s).1.
Proof.
  intros Hr Hop. destruct op as [o kind c n v ts ms|kind c n fu|kind c f|kind c f]; cbn [ct_op_ok s_step a_step] in *.
  - destruct Hop as (Hk & Hv & Ht). destruct (ct_update w s kind o c n v ts ms Hr Hk Hv Ht) as (w' & E & Hr').
    exists w'. destruct (a_update _ _ _ _ _ _ _) as [s' r]. split; [|done].
    unfold mbind, stm_bind. rewrite E. by destruct r.
  - destruct (ct_fetch w s kind c n fu Hr Hop) as (w' & E & Hr'). exists w'. by rewrite (stm_bind_ok _ _ _ _ _ E).
  - destruct Hop as [Hc Hf]. destruct (ct_count w s kind c f Hr Hc Hf) as (w' & E & Hr').
    exists w'. by rewrite (stm_bind_ok _ _ _ _ _ E).
  - destruct Hop as [Hc Hf]. destruct (ct_remove_all w s kind c f Hr Hc Hf) as (w' & E & Hr').
    exists w'. rewrite (stm_bind_ok _ _ _ _ _ E). by destruct (a_remove_all _ _ _ _ _).
Qed.

(** Whatever is done through a session that keeps the contract, the results are those of
    the abstract store. *)
Lemma contract_run ops : ∀ w s, ct_rep w s → ct_ops_ok ops s →
  ∃ w', s_run ops w = (w', (a_run ct_like ct_env ops s).2) ∧ ct_rep w' (a_run ct_like ct_env ops s).1.
Proof.
  induction ops as [|op ops IH]; intros w s Hr Hok; [by exists w|].
  destruct Hok as [Hop Hops]. destruct (contract_step op w s Hr Hop) as (w1 & E1 & Hr1).
  cbn [s_run a_run]. destruct (a_step _ _ op s) as [s1 r1]. cbn [fst snd] in *. rewrite E1.
  destruct (IH w1 s1 Hr1 Hops) as (w2 & E2 & Hr2). rewrite E2.
  destruct (a_run _ _ ops s1) as [s2 rs]. by exists w2.
Qed.
End ContractRun.

(** ** Importing, against the contract *)

(** What an import makes of the entries of a store: they no longer expire. *)
Definition unexpiring (v : AVal) : AVal := mkAVal (a_value v) (a_tags v) None.

Section ImportLemmas.
Context `{SessionContract W}.

Definition importable (kv : AKey * AVal) : Prop :=
  ct_key_ok kv.1 ∧ ct_value_ok (a_value kv.2) ∧ ct_tags_ok (a_tags kv.2).

Definition entries_of (l : list (AKey * AVal)) : list Entry := List.map (λ kv, a_entry kv.1 kv.2) l.
Definition imported_map (l : list (AKey * AVal)) : AStore := list_to_map (prod_map id unexpiring <$> l).

Lemma import_rows_run l : ∀ w s, ct_rep w s → Forall importable l → NoDup l.*1 →
  (∀ k, k ∈ l.*1 → s !! k = None) →
  ∃ w', import_rows (entries_of l) w = (w', Ok ()) ∧ ct_rep w' (imported_map l ∪ s).
Proof.
  induction l as [|[[[kd c] n] v] l IH]; intros w s Hr Hok Hnd Hnew.
  - exists w. unfold imported_map. cbn. by rewrite (left_id_L ∅ (∪)).
  - apply Forall_cons in Hok as [(Hk & Hv & Ht) Hok]. apply NoDup_cons in Hnd as [Hni Hnd]. cbn [fst snd] in *.
    destruct (ct_update w s kd EntryOperation.Insert c n (Some (a_value v)) (Some (a_tags v)) None Hr Hk Hv Ht)
      as (w1 & E1 & Hr1).
    unfold a_update in E1, Hr1. cbn [bind_expiry] in E1, Hr1.
    rewrite (Hnew (kd, c, n)) in E1, Hr1 by apply elem_of_cons, or_introl, eq_refl. cbn [fst snd default] in E1, Hr1.
    destruct (IH w1 _ Hr1 Hok Hnd) as (w2 & E2 & Hr2).
    { intros k Hin. rewrite lookup_insert_ne by (intros <-; done). apply Hnew. by apply elem_of_cons; right. }
    exists w2. split.
    + cbn [entries_of List.map import_rows a_entry entry_new kind category name value tags fst snd].
      rewrite (stm_bind_ok _ _ _ _ _ E1). exact E2.
    + unfold imported_map. cbn [fmap list_fmap list_to_map prod_map fst snd id foldr uncurry].
      rewrite <- insert_union_l, insert_union_r; [exact Hr2|].
      apply not_elem_of_list_to_map_1. rewrite <- list_fmap_compose.
      intros Hin. apply Hni. apply list_elem_of_fmap in Hin as (kv & -> & Hin). apply list_elem_of_fmap. by exists kv.
Qed.

(** The pages of a scan, all full but the last. *)
Lemma import_loop_run n (pages : list (list Entry)) : ∀ fuel w s ls,
  ct_rep w s → pages = List.map entries_of ls → pages_full n pages → (length pages + 1 < fuel)%nat →
  Forall importable (concat ls) → NoDup (concat ls).*1 → (∀ k, k ∈ (concat ls).*1 → s !! k = None) →
  ∃ w', import_loop fuel (mkScan (Some (List.map Ok pages)) n) w = (w', Ok ()) ∧ ct_rep w' (imported_map (concat ls) ∪ s).
Proof.
  induction pages as [|p pages IH]; intros fuel w s ls Hr Hls Hp Hf Hok Hnd Hnew.
  - destruct ls; [|done]. destruct fuel as [|fuel]; [cbn in Hf; lia|].
    exists w. split; [done|]. unfold imported_map. cbn. by rewrite (left_id_L ∅ (∪)).
  - destruct ls as [|l ls]; [done|]. injection Hls as Hl Hls. cbn [concat] in *.
    destruct fuel as [|fuel]; [cbn in Hf; lia|].
    apply Forall_app in Hok as [Hok1 Hok2]. rewrite fmap_app in Hnd, Hnew. apply NoDup_app in Hnd as (Hnd1 & Hdis & Hnd2).
    destruct (import_rows_run l w s Hr Hok1 Hnd1) as (w1 & E1 & Hr1); [intros k Hk; apply Hnew, elem_of_app; by left|].
    assert (∀ (rest : list (list Entry)) sc, fetch_next (mkScan (Some (Ok p :: List.map Ok rest)) n) = (sc, Ok (Some p)) →
      import_loop (S fuel) (mkScan (Some (Ok p :: List.map Ok rest)) n) w = import_loop fuel sc w1) as Hturn.
    { intros rest sc E. cbn [import_loop]. rewrite E, (lift_bind _ _ _ _ eq_refl). cbv beta iota.
      rewrite Hl, (stm_bind_ok _ _ _ _ _ E1). done. }
    assert (imported_map (l ++ concat ls) ∪ s = imported_map (concat ls) ∪ (imported_map l ∪ s)) as ->.
    { unfold imported_map. rewrite fmap_app, list_to_map_app, <- (assoc_L (∪)), !(assoc_L (∪)). f_equal.
      apply map_union_comm. apply map_disjoint_spec. intros k v1 v2 H1 H2.
      apply elem_of_list_to_map_2, list_elem_of_fmap in H1 as ([k1 u1] & [= -> ->] & H1).
      apply elem_of_list_to_map_2, list_elem_of_fmap in H2 as ([k2 u2] & [= <- ->] & H2).
      apply (Hdis k1); apply list_elem_of_fmap; [by exists (k1, u1)|by exists (k1, u2)]. }
    assert (∀ k, k ∈ (concat ls).*1 → (imported_map l ∪ s) !! k = None) as Hnew2.
    { intros k Hk. apply lookup_union_None. split; [|by apply Hnew, elem_of_app; right].
      apply not_elem_of_list_to_map_1. rewrite <- list_fmap_compose. intros Hin.
      apply list_elem_of_fmap in Hin as (kv & -> & Hin). apply (Hdis kv.1); [apply list_elem_of_fmap; by exists kv|done]. }
    destruct pages as [|p' pages].
    + destruct ls; [|done]. cbn [List.map].
      assert (fuel ≠ 0%nat) as Hf0 by (cbn in Hf; lia). destruct fuel as [|fuel]; [done|].
      exists w1. split; [|unfold imported_map; cbn [concat fmap list_fmap list_to_map foldr]; by rewrite (left_id_L ∅ (∪))].
      destruct (decide (length p = n)) as [E|E].
      * pose proof (Hturn [] _ (fetch_next_full p [] n E)) as X. cbn [List.map] in X. by rewrite X.
      * pose proof (Hturn [] _ (proj1 (fetch_next_ends [] n) p E)) as X. cbn [List.map] in X. by rewrite X.
    + destruct Hp as [Hp Hps]. pose proof (Hturn (p' :: pages) _ (fetch_next_full p _ n Hp)) as X.
      cbn [List.map] in *. rewrite X.
      apply (IH fuel w1 _ ls Hr1 Hls Hps); [cbn in *; lia|done..].
Qed.
End ImportLemmas.
