(* ===== verification/Scans.v ===== *)
(** * Scans

    [perform_scan] of askar-storage/src/backend/sqlite/mod.rs, [Scan] of
    askar-storage/src/entry.rs and the decryption of pages in
    askar-storage/src/backend/db_utils.rs, put together: the entries a scan or
    [fetch_all] delivers are those of the abstract store. *)

From S2P Require Import Prelude Errors Wql TagSql DbQuery TagSqlSem Buffers Utf8 Entry Aead Protect.
From S2P Require Import Options StoreKey DbUtils Session SqliteDb Sqlite Store.
Local Open Scope string_scope.
Local Open Scope list_scope.
#[local] Existing Instance sqlite_resolution.

(** ** The pages of a scan *)

Lemma scan_loop_pages (g : Z * bytes * bytes * bytes * bytes → EncScanEntry) rows : ∀ batch,
  (∀ r, r ∈ rows → read_row r = Ok (g r)) → (length batch < PAGE_SIZE)%nat →
  ∃ pages, scan_loop rows batch = List.map Ok pages ∧ pages_full PAGE_SIZE pages
    ∧ concat pages = batch ++ List.map g rows.
Proof.
  induction rows as [|r rows IH]; intros batch Hrd Hlt; cbn [scan_loop].
  - destruct batch as [|e batch]; [by exists []|]. exists [e :: batch]. by cbn.
  - rewrite (Hrd r) by set_solver. destruct (Nat.eqb_spec (length (batch ++ [g r])) PAGE_SIZE) as [El|El].
    + destruct (IH []) as (pages & -> & Hp & Ec); [set_solver|unfold PAGE_SIZE; cbn; lia|].
      exists ((batch ++ [g r]) :: pages). split_and!; [done| |].
      * destruct pages; [done|]. by split.
      * cbn. rewrite Ec. cbn. by rewrite <- app_assoc.
    + destruct (IH (batch ++ [g r])) as (pages & E & Hp & Ec); [set_solver| |].
      { rewrite length_app in *. cbn in *. lia. }
      exists pages. rewrite Ec. split_and!; [done..|]. cbn. by rewrite <- app_assoc.
Qed.

Lemma collect_pages_ok {A} (pages : list (list A)) : collect_pages (List.map Ok pages) = Ok (concat pages).
Proof. induction pages as [|p pages IH]; [done|]. cbn. by rewrite IH. Qed.

(** A batch whose rows decrypt, page by page. *)
Lemma decrypt_pages {K} `{EntryEncryptor K} `{StoreCodecs} category (key : K) (pages : list (list EncScanEntry)) : ∀ es,
  decrypt_scan_batch category (concat pages) key = Ok es →
  ∃ epages, List.map (λ p, rows ← p; decrypt_scan_batch category rows key) (List.map Ok pages)
      = List.map Ok epages
    ∧ concat epages = es ∧ List.map length epages = List.map length pages.
Proof.
  induction pages as [|p pages IH]; intros es E.
  - injection E as <-. by exists [].
  - cbn [concat] in E. apply mapM_ok_inv, Forall2_app_inv_l in E as (es1 & es2 & E1 & E2 & ->).
    pose proof (Forall2_length _ _ _ E1) as Hl. apply mapM_ok_inv in E1, E2.
    destruct (IH es2 E2) as (eps & Em & Ec & El). exists (es1 :: eps). cbn. rewrite Ec, El, Hl.
    unfold decrypt_scan_batch at 1. rewrite E1. split_and!; [by rewrite <- Em|done..].
Qed.

Lemma pages_full_lengths {A B} n (ps : list (list A)) : ∀ qs : list (list B),
  List.map length ps = List.map length qs → pages_full n ps → pages_full n qs.
Proof.
  induction ps as [|p ps IH]; intros [|q qs]; [done..|]. cbn [List.map]. intros [= Ep Eps].
  destruct ps as [|p' ps], qs as [|q' qs]; [done..|]. intros [Hp Hps]. split; [congruence|]. by apply IH.
Qed.

Lemma sql_limit_map {A B} (f : A → B) offset limit l :
  sql_limit offset limit (List.map f l) = List.map f (sql_limit offset limit l).
Proof.
  unfold sql_limit. destruct offset, limit; try done; case_match; try done;
    change (List.map f) with (fmap (M := list) f); by rewrite ?fmap_take, ?fmap_drop.
Qed.

Lemma sql_limit_sub {A} offset limit (l : list A) x : x ∈ sql_limit offset limit l → x ∈ l.
Proof.
  unfold sql_limit. intros Hx.
  assert (Hd : ∀ n (l : list A), x ∈ drop n l → x ∈ l) by (intros; by eapply subseteq_drop).
  assert (Ht : ∀ n (l : list A), x ∈ take n l → x ∈ l) by (intros; by eapply subseteq_take).
  destruct offset, limit; repeat case_match; eauto.
Qed.

Lemma sql_limit_length {A} offset limit (l : list A) : (length (sql_limit offset limit l) ≤ length l)%nat.
Proof.
  unfold sql_limit. destruct offset, limit; repeat case_match; lens.
Qed.

Lemma pages_full_count {A} n (ps : list (list A)) :
  (0 < n)%nat → pages_full n ps → (length ps ≤ S (length (concat ps)))%nat.
Proof.
  intros Hn. induction ps as [|p [|p' ps] IH]; cbn [length pages_full]; [lia|lia|].
  intros [Hp Hps]. specialize (IH Hps). cbn [concat] in *. rewrite length_app. cbn in IH |- *. lia.
Qed.

(** A limit can be added whenever the parameters can be counted, in both dialects. *)
Definition limits (Q : QueryPrepare) : Prop := ∀ query p offset limit,
  params_wf p → (Z.of_nat (params_count p) + 3 ≤ i64_max)%Z → is_Some offset ∨ is_Some limit →
  ∃ x, @limit_query Q query p offset limit = Ok x.

Lemma sqlite_limits : limits SqlitePrepare.
Proof.
  intros query p offset limit Hwf Hmax Hr.
  destruct (sqlite_limit_spec query p offset limit Hwf Hmax Hr) as (p' & E & _). eauto.
Qed.

Lemma postgres_limits : limits PostgresPrepare.
Proof.
  intros query p offset limit Hwf Hmax Hr.
  destruct (postgres_limit_spec query p offset limit Hwf Hmax Hr) as (p' & E & _). eauto.
Qed.

Lemma extend_query_limited (Q : QueryPrepare) query n flt offset limit order_by descending :
  limits Q → params_wf n → (Z.of_nat (params_count n + length (filter_args flt)) + 3 ≤ i64_max)%Z →
  ∃ x, @extend_query Q query n flt offset limit order_by descending = Ok x.
Proof.
  intros Hlim Hwf Hmax. unfold extend_query.
  set (p1 := match flt with Some _ => _ | None => _ end).
  assert (Hp1 : params_wf p1.2 ∧ params_count p1.2 = (params_count n + length (filter_args flt))%nat).
  { destruct flt as [[t args]|]; cbn; [|split; [done|lia]].
    destruct (params_extend_spec n (ArgBytes <$> args)) as [Ha Hw]. specialize (Hw Hwf).
    split; [done|]. rewrite Hw, Ha, length_app, length_fmap, <- Hwf. done. }
  destruct p1 as [q p1]. cbn in Hp1. destruct Hp1 as [Hw Hc].
  destruct (is_select q); [|by eexists]. destruct (_ || _) eqn:E; [|by eexists].
  apply Hlim; [done|by rewrite Hc|]. apply orb_true_iff in E as [E|E]; apply bool_decide_eq_true in E; auto.
Qed.

(** The order asked for permutes the rows. *)
Lemma ordered_perm `{SqlEngine} order_by (descending : bool) rows :
  match order_by with
  | Some OrderBy.Id => if descending then rev rows else rows
  | None => natural_order rows
  end ≡ₚ rows.
Proof.
  destruct order_by as [[]|]; [|apply natural_order_perm].
  destruct descending; [|done]. symmetry. apply Permutation_rev.
Qed.

Section Scans.
Context `{HAl : Allocator} `{HH : Hmac} `{HC : AeadCipher} {laws : CipherLaws} {HD : LawfulDerivation Chacha20Key}.
Context `{HS : StoreCodecs} `{HB : CborCodec} `{HE : SqlEngine}.
Context (env : Env) (pk : ProfileKey) (pid : Z).
Abbreviation W := (World Db KeyCache ProfileKey).
Hypothesis pk_ok : profile_ok pk.
Hypothesis nonce_12 : cipher_nonce_size = 12%nat.
Hypothesis hex_upper : ∀ b, hex_decode (sql_hex b) = Some b.

Lemma kind_back k : kind_try_from (kind_value k) = Ok k.
Proof. by destruct k. Qed.

(** *** Rows as they are read, with a column of tags that decodes *)

Section Columns.
Context (column : list EncEntryTag → bytes).
Hypothesis column_decodes : ∀ ts, decode_tags hex_decode (column ts) = Some ts.

Definition row_with (d : Db) (r : ItemRow) : Z * bytes * bytes * bytes * bytes :=
  (i_kind r, i_category r, i_name r, i_value r, column (item_tags (i_id r) d)).

Definition enc_scan (d : Db) (r : ItemRow) (kind : EntryKind) : EncScanEntry :=
  mkEncScan kind (i_category r) (i_name r) (i_value r) (column (item_tags (i_id r) d)).

(** The row of an entry decrypts to the entry. *)
Lemma decrypt_row d s kind c f k v :
  represents pk pid d s → opt_text_ok c → s !! k = Some v →
  a_selected sql_like kind c f (k, v) = true →
  read_row (row_with d (row_at pk pid d (k, v))) = Ok (enc_scan d (row_at pk pid d (k, v)) k.1.1)
  ∧ decrypt_scan_entry c (enc_scan d (row_at pk pid d (k, v)) k.1.1) pk = Ok (a_entry k v).
Proof.
  intros Hr Hc Hs Hsel. destruct (rep_find pk pid d s k v Hr Hs) as (r & Hf & Hin & Hk & Hst).
  destruct (rep_some _ _ _ _ Hr _ _ Hs) as [[[Ok1 Hc1] [Ok2 Hn1]] _].
  unfold row_at. cbn [fst]. rewrite Hf. cbn [default from_option id].
  destruct k as [[e cat] nm]. destruct r as [i p' e' cat' nm' v' ex]. unfold item_key, ekey in Hk.
  cbn [fst snd i_profile i_kind i_category i_name] in Hk. cbn [fst snd] in Ok1, Ok2, Hc1, Hn1. injection Hk as -> -> -> ->. split.
  - unfold read_row, row_with. cbn [i_kind]. by rewrite kind_back.
  - destruct Hst as ((b & Eb & Hb) & _ & Et & Ho & Hsm). cbn [fst snd i_value i_id] in Eb, Hb, Et.
    unfold decrypt_scan_entry, enc_scan. cbn [scan_category scan_name scan_value scan_tags i_value i_name i_category i_id scan_kind fst snd].
    assert (Ecat : match c with
      | Some c => Ok c
      | None => decrypt_entry_category pk (enc_category pk (as_bytes cat)) end = Ok cat).
    { destruct c as [c|]; [|by apply category_inverse].
      unfold a_selected in Hsel. cbn in Hsel. apply andb_true_iff in Hsel as [Hsel _].
      apply andb_true_iff in Hsel as [_ Hsel%String.eqb_eq]. by subst. }
    assert (Enm : decrypt_entry_name pk (enc_name pk (as_bytes nm)) = Ok nm) by (by apply name_inverse).
    rewrite (bind_ok _ _ _ Ecat).
    rewrite (bind_ok _ _ _ Enm), (bind_ok _ _ _ Eb), Et, column_decodes.
    cbn [ok_or]. rewrite (bind_ok (Ok _) _ _ eq_refl).
    pose proof (decrypt_tags_spec pk (a_tags v) pk_ok Ho Hsm) as Ed.
    change (mapM (profile_decrypt_tag pk)) with (decrypt_entry_tags pk) in Ed.
    rewrite (bind_ok _ _ _ Ed). by rewrite Hb.
Qed.

(** The pages read from the rows of entries hold these entries. *)
Lemma pages_of_rows d s kind c f kvs :
  represents pk pid d s → opt_text_ok c →
  (∀ kv, kv ∈ kvs → s !! kv.1 = Some kv.2 ∧ a_selected sql_like kind c f kv = true) →
  let rows := List.map (λ kv, row_with d (row_at pk pid d kv)) kvs in
  ∃ pages, scan_loop rows [] = List.map Ok pages ∧ pages_full PAGE_SIZE pages
    ∧ decrypt_scan_batch c (concat pages) pk = Ok (List.map (λ kv, a_entry kv.1 kv.2) kvs)
    ∧ forallb (λ r, is_ok (read_row r)) rows = true.
Proof.
  intros Hr Hc Hkvs rows.
  assert (Hkv : Forall (λ kv, read_row (row_with d (row_at pk pid d kv)) = Ok (enc_scan d (row_at pk pid d kv) kv.1.1.1)
    ∧ decrypt_scan_entry c (enc_scan d (row_at pk pid d kv) kv.1.1.1) pk = Ok (a_entry kv.1 kv.2)) kvs).
  { apply Forall_forall. intros [k v] [Hs Hsel]%Hkvs. by apply (decrypt_row d s kind c f). }
  set (g r := match read_row r with Ok e => e | _ => mkEncScan EntryKind.Item [] [] [] [] end).
  assert (Hrd : ∀ r, r ∈ rows → read_row r = Ok (g r)).
  { intros r Hin. apply list_elem_of_fmap in Hin as (kv & -> & Hin).
    rewrite Forall_forall in Hkv. destruct (Hkv _ Hin) as [E _]. unfold g. by rewrite E. }
  destruct (scan_loop_pages g rows [] Hrd) as (pages & Ep & Hpf & Ec); [unfold PAGE_SIZE; cbn; lia|].
  exists pages. split_and!; [done..| |].
  - rewrite Ec. unfold rows. rewrite List.map_map. cbn [app]. apply mapM_ok_inv, Forall2_fmap_2.
    eapply Forall_Forall2_diag. eapply Forall_impl; [exact Hkv|]. intros kv [E1 E2]. cbn. unfold g. by rewrite E1.
  - apply forallb_Forall, Forall_forall. intros r Hin. by rewrite (Hrd r Hin).
Qed.
End Columns.

Lemma scan_rows d s kind c f flt offset limit order_by descending :
  represents pk pid d s → opt_text_ok c →
  (∀ d r k v, s !! k = Some v → stored pk k (i_value r, i_expiry r, item_tags (i_id r) d) v →
      matches flt d r = filter_holds sql_like f (a_tags v)) →
  ∃ l, l ≡ₚ map_to_list (a_matching sql_like env kind c f s)
    ∧ sql_scan (env_now env) pid (kind_value <$> kind) ((λ t, enc_category pk (as_bytes t)) <$> c) flt offset limit
        order_by descending d
      = List.map (λ kv, row_with tags_column d (row_at pk pid d kv)) (sql_limit offset limit l).
Proof.
  intros Hr Hc Hm. pose proof (matching_rows env pk pid pk_ok d s kind c f (matches flt d) Hr Hc (Hm _)) as Hp.
  unfold sql_scan. set (rows := List.filter _ (items d)).
  change (List.filter _ (items d)) with rows in Hp.
  set (rows' := match order_by with Some _ => _ | None => _ end).
  assert (Hp' : rows' ≡ₚ rows) by apply ordered_perm.
  rewrite Hp in Hp'. apply Permutation_map_inv in Hp' as (l & -> & Hl).
  exists l. split; [done|]. by rewrite sql_limit_map, List.map_map.
Qed.

(** Entries a limited query reads are selected. *)
Lemma limited_selected {R : Resolution} s kind c f l offset limit kv :
  l ≡ₚ map_to_list (a_matching (HR := R) sql_like env kind c f s) → kv ∈ sql_limit offset limit l →
  s !! kv.1 = Some kv.2 ∧ a_selected sql_like kind c f kv = true.
Proof.
  intros Hl Hin%sql_limit_sub. rewrite Hl in Hin. destruct kv as [k v].
  by apply elem_of_map_to_list, map_lookup_filter_Some in Hin as [Hs [Hsel _]].
Qed.

Lemma session_close_ready (w : W) : ready pk pid w → ∃ w', session_close false w = (w', Ok ()).
Proof.
  destruct w as [d sv fs ca [k st n]]. intros (Hst & Hk & Hf). cbn in *. subst.
  unfold session_close, mbind, stm_bind, sget, set_state, smod. cbn.
  destruct n; cbn; [by eexists|]. by eexists.
Qed.

Lemma perform_scan_run (w : W) s kind c f offset limit order_by descending owned :
  ready pk pid w → represents pk pid (db w) s → opt_text_ok c → filter_ready pk s f →
  (Z.of_nat (filter_size f) + 6 ≤ i64_max)%Z →
  ∃ l pages, l ≡ₚ map_to_list (a_matching sql_like env kind c f s)
    ∧ perform_scan env pid pk kind c f offset limit order_by descending owned w
      = (if owned : bool then (session_close false w).1 else w, Ok (List.map Ok pages))
    ∧ pages_full PAGE_SIZE pages
    ∧ decrypt_scan_batch c (concat pages) pk
      = Ok (List.map (λ kv, a_entry kv.1 kv.2) (sql_limit offset limit l)).
Proof.
  intros Hw Hr Hc Hf Hmax. destruct (encode_select_run pk pk_ok nonce_12 s c f Hc Hf) as (flt & Ef & Hsz & Hm).
  destruct (scan_rows (db w) s kind c f flt offset limit order_by descending Hr Hc Hm) as (l & Hl & Es).
  destruct (pages_of_rows tags_column (λ ts, decode_column hex_decode ts hex_upper) (db w) s kind c f
    (sql_limit offset limit l) Hr Hc (λ kv, limited_selected s kind c f l offset limit kv Hl))
    as (pages & Ep & Hpf & Ed & Hall).
  exists l, pages. split_and!; [done| |done|done].
  unfold perform_scan. rewrite (stm_bind_ok _ _ _ _ _ (lift_ok _ _ w Ef)). cbv beta iota.
  edestruct (extend_query_limited _ SCAN_QUERY (select_params pid kind ((λ t, enc_category pk (as_bytes t)) <$> c))
    flt offset limit order_by descending sqlite_limits) as [x Ex]; [done|cbn; lia|].
  rewrite (stm_bind_ok _ _ _ _ _ (lift_ok _ _ w Ex)).
  rewrite (stm_bind_ok _ _ _ _ _ (acquire_session_ready pk pid w Hw)).
  pose proof Hw as (_ & _ & Hfa). unfold mbind at 1, stm_bind at 1, db_call. rewrite Hfa.
  rewrite (stm_bind_ok sget _ w w w eq_refl). cbv zeta. rewrite Es, Hall, andb_true_r, Ep. destruct owned; [|done].
  destruct (session_close_ready w Hw) as (w' & Ew). by rewrite (stm_bind_ok _ _ _ _ _ Ew), Ew.
Qed.

Lemma fetch_all_run (w : W) s kind c f limit order_by descending fu :
  ready pk pid w → represents pk pid (db w) s → opt_text_ok c → filter_ready pk s f →
  (Z.of_nat (filter_size f) + 6 ≤ i64_max)%Z →
  ∃ l, l ≡ₚ map_to_list (a_matching sql_like env kind c f s)
    ∧ fetch_all env kind c f limit order_by descending fu w
      = (w, Ok (List.map (λ kv, a_entry kv.1 kv.2) (sql_limit None limit l))).
Proof.
  intros Hw Hr Hc Hf Hmax.
  destruct (perform_scan_run w s kind c f None limit order_by descending false Hw Hr Hc Hf Hmax)
    as (l & pages & Hl & E & _ & Ed).
  exists l. split; [done|]. unfold fetch_all.
  rewrite (stm_bind_ok _ _ _ _ _ (acquire_key_ready pk pid w Hw)). cbv beta iota.
  rewrite (stm_bind_ok _ _ _ _ _ E). rewrite (stm_bind_ok _ _ _ _ _ (lift_ok _ _ w (collect_pages_ok pages))).
  by apply lift_ok.
Qed.

(** The pages of a scan opened on the backend. *)
Lemma backend_scan_pages (w : W) s kind c f offset limit order_by descending :
  ready pk pid w → represents pk pid (db w) s → opt_text_ok c → filter_ready pk s f →
  (Z.of_nat (filter_size f) + 6 ≤ i64_max)%Z →
  ∃ l pages, l ≡ₚ map_to_list (a_matching sql_like env kind c f s)
    ∧ backend_scan env kind c f offset limit order_by descending w
      = ((session_close false w).1, Ok (scan_new (List.map Ok pages) PAGE_SIZE))
    ∧ pages_full PAGE_SIZE pages
    ∧ concat pages = List.map (λ kv, a_entry kv.1 kv.2) (sql_limit offset limit l).
Proof.
  intros Hw Hr Hc Hf Hmax.
  destruct (perform_scan_run w s kind c f offset limit order_by descending true Hw Hr Hc Hf Hmax)
    as (l & pages & Hl & E & Hpf & Ed).
  destruct (decrypt_pages c pk pages _ Ed) as (epages & Ee & Ec & El).
  exists l, epages. split_and!; [done| |by eapply pages_full_lengths|done].
  unfold backend_scan. rewrite (stm_bind_ok _ _ _ _ _ (acquire_key_ready pk pid w Hw)). cbv beta iota.
  rewrite (stm_bind_ok _ _ _ _ _ E). rewrite Ee. reflexivity.
Qed.

(** Draining the pages takes one step for each, of which there are no more than entries. *)
Lemma drain_limited {R : Resolution} s kind c f l offset limit pages fuel :
  l ≡ₚ map_to_list (a_matching (HR := R) sql_like env kind c f s) → pages_full PAGE_SIZE pages →
  concat pages = List.map (λ kv, a_entry kv.1 kv.2) (sql_limit offset limit l) → (size s + 1 < fuel)%nat →
  (drain fuel (scan_new (List.map Ok pages) PAGE_SIZE)).2
  = Ok (List.map (λ kv, a_entry kv.1 kv.2) (sql_limit offset limit l)).
Proof.
  intros Hl Hpf Ec Hfuel. rewrite <- Ec. apply drain_pages; [done|].
  apply pages_full_count in Hpf; [|unfold PAGE_SIZE; lia]. rewrite Ec, List.length_map in Hpf.
  pose proof (sql_limit_length offset limit l) as Hll.
  apply Permutation_length in Hl. rewrite length_map_to_list in Hl.
  pose proof (map_size_filter (λ kv, a_selected sql_like kind c f kv = true ∧ a_live (H := R) (env_now env) kv.2 = true) s).
  unfold a_matching in Hl. lia.
Qed.

Lemma backend_scan_run (w : W) s kind c f offset limit order_by descending fuel :
  ready pk pid w → represents pk pid (db w) s → opt_text_ok c → filter_ready pk s f →
  (Z.of_nat (filter_size f) + 6 ≤ i64_max)%Z →
  ∃ l scan, l ≡ₚ map_to_list (a_matching sql_like env kind c f s)
    ∧ backend_scan env kind c f offset limit order_by descending w = ((session_close false w).1, Ok scan)
    ∧ ((size s + 1 < fuel)%nat →
       (drain fuel scan).2 = Ok (List.map (λ kv, a_entry kv.1 kv.2) (sql_limit offset limit l))).
Proof.
  intros Hw Hr Hc Hf Hmax.
  destruct (backend_scan_pages w s kind c f offset limit order_by descending Hw Hr Hc Hf Hmax)
    as (l & pages & Hl & E & Hpf & Ec).
  eexists l, _. split_and!; [done|exact E|]. intros Hfuel. by eapply drain_limited.
Qed.

End Scans.
