(* ===== verification/PgStore.v ===== *)
(** * What a profile of a PostgreSQL store holds

    The operations of [Postgres] implement the abstract store of [Store], as those of
    SQLite do; the tables are related to it in the same way.  The differences are in the
    sequences, in transactions and in the conditions the server accepts. *)

From S2P Require Import Prelude Errors Wql TagSql DbQuery TagSqlSem SqlEval Buffers Utf8 Entry Aead.
From S2P Require Import Protect Options StoreKey DbUtils Session SqliteDb PgDb Sqlite Postgres Store Backend Scans.
Local Open Scope string_scope.
Local Open Scope list_scope.
#[local] Existing Instance pg_resolution.
#[local] Existing Instance postgres_ext.

(** ** Statements *)

Lemma lower_digit_plain n : (n < 16)%N → plain_byte (lower_digit n).
Proof.
  intros Hn. unfold plain_byte. destruct n as [|p]; [done|].
  do 4 (destruct p as [p|p|]; try (split; discriminate)); lia.
Qed.

Lemma pg_hex_plain b : Forall plain_byte (pg_hex b).
Proof.
  induction b as [|c b IH]; [constructor|]. cbn -[lower_digit]. pose proof (Byte.to_N_bounded c).
  constructor; [|constructor; [|done]]; apply lower_digit_plain.
  - apply N.Div0.div_lt_upper_bound. lia.
  - apply N.mod_lt. lia.
Qed.

(** The columns of tags decode, null as no tags. *)
Lemma pg_column_decodes hex_decode ts :
  (∀ b, hex_decode (pg_hex b) = Some b) → decode_tags hex_decode (default [] (pg_tags_column ts)) = Some ts.
Proof. intros Hh. destruct ts as [|t ts]; [done|]. by apply decode_columns; [apply pg_hex_plain|]. Qed.

Lemma fresh_item d : pg_wf d → pg_item_seq d ∉ List.map i_id (items (pg_tables d)).
Proof.
  intros [_ Hb _] (r & E & Hr)%list_elem_of_fmap. rewrite Forall_forall in Hb. specialize (Hb _ Hr). cbn in Hb. lia.
Qed.

Lemma pg_insert_cases k v e d :
  pg_insert_item k v e d =
  match find_item k (pg_tables d) with
  | Some _ => (next_item d, Ok None)
  | None =>
      if negb (has_profile (k.1.1.1) (pg_tables d))
      then (next_item d, Err "insert or update on table items violates foreign key constraint items_profile_id_fkey")
      else (set_tables (set_items (items (pg_tables d) ++ [new_item k (pg_item_seq d) v e]) (pg_tables d)) (next_item d),
            Ok (Some (pg_item_seq d)))
  end.
Proof. by destruct k as [[[? ?] ?] ?]. Qed.

Lemma next_item_wf d : pg_wf d → pg_wf (next_item d).
Proof.
  intros [Ht Hi Hp]. split; [done| |done]. eapply Forall_impl; [exact Hi|]. cbn. intros r Hr. lia.
Qed.

(** The invariant of the identifiers when rows are changed or removed, not added. *)
Lemma set_tables_wf d t :
  pg_wf d → db_wf t → profiles t = profiles (pg_tables d) →
  (∀ x, x ∈ List.map i_id (items t) → x ∈ List.map i_id (items (pg_tables d))) → pg_wf (set_tables t d).
Proof.
  intros [Ht Hi Hp] Hwf Hpr Hids. split; [done| |cbn; by rewrite Hpr].
  apply Forall_forall. intros r Hr. cbn in *.
  assert (i_id r ∈ List.map i_id (items (pg_tables d))) as (r' & E & Hr')%list_elem_of_fmap.
  { apply Hids. apply list_elem_of_fmap. eauto. }
  rewrite Forall_forall in Hi. rewrite E. by apply Hi.
Qed.

Lemma delete_items_ids p d x : x ∈ List.map i_id (items (delete_items p d).1) → x ∈ List.map i_id (items d).
Proof.
  intros (r & -> & Hr)%list_elem_of_fmap. apply list_elem_of_In, List.filter_In in Hr as [Hr _].
  apply list_elem_of_fmap. exists r. split; [done|by apply list_elem_of_In].
Qed.

Lemma update_item_ids k v e d d1 id :
  sql_update_item k v e d = Ok (d1, id) → List.map i_id (items d1) = List.map i_id (items d).
Proof.
  unfold sql_update_item. destruct (find_item k d); [|done]. intros [= <- <-]. cbn.
  apply (map_upd_same i_id k v e). intros r. apply upd_item_keeps.
Qed.

Lemma insert_all_tags_items id ts : ∀ d d', insert_all_tags id ts d = Ok (d', ()) → items d' = items d.
Proof.
  induction ts as [|t ts IH]; intros d d'; cbn [insert_all_tags]; [by intros [= <-]|].
  unfold sql_insert_tag at 1. case_match; [done|]. cbn [mbind res_bind]. intros E. by apply IH in E.
Qed.

(** ** Conditions the server accepts *)

(** No empty list of values or of clauses, at any depth. *)
Fixpoint pg_query_ok {K V} (q : AbstractQuery K V) : bool :=
  match q with
  | And l | Or l => negb (match l with [] => true | _ => false end) && forallb pg_query_ok l
  | Not q' => pg_query_ok q'
  | In _ vs => negb (match vs with [] => true | _ => false end)
  | Exist ns => negb (match ns with [] => true | _ => false end)
  | _ => true
  end.

Lemma conj_unobjectionable op l :
  l ≠ [] → Forall (λ c, pg_objection c = None) l → ∃ c, conj_sql op l = Some c ∧ pg_objection c = None.
Proof.
  intros Hl Hall. destruct l as [|c1 [|c2 l]]; [done| |].
  - exists c1. by inversion Hall.
  - exists (SConj op (c1 :: c2 :: l)). split; [done|]. clear Hl. revert Hall.
    generalize (c1 :: c2 :: l). intros l' Hall. cbn [pg_objection].
    induction Hall as [|c l' Hc _ IH]; [done|]. cbn [foldr]. by rewrite Hc.
Qed.

Lemma compile_unobjectionable En Ev q : ∀ neg,
  pg_query_ok q = true → ∃ c, compile En Ev q neg = Some c ∧ pg_objection c = None.
Proof.
  assert (Hl : ∀ neg op l, Forall (λ q, ∀ neg, pg_query_ok q = true → ∃ c, compile En Ev q neg = Some c ∧ pg_objection c = None) l →
    negb (match l with [] => true | _ => false end) && forallb pg_query_ok l = true →
    ∃ c, conj_sql op (filter_map (λ q, compile En Ev q neg) l) = Some c ∧ pg_objection c = None).
  { clear q. intros neg op l Hall [Hne Hok]%andb_true_iff. apply conj_unobjectionable.
    - destruct Hall as [|q l Hq _]; [done|]. cbn in Hok |- *. apply andb_true_iff in Hok as [Hok _].
      destruct (Hq neg Hok) as (c & -> & _). done.
    - clear Hne. induction Hall as [|q l Hq _ IH]; [constructor|]. cbn in Hok |- *.
      apply andb_true_iff in Hok as [Hok1 Hok]. destruct (Hq neg Hok1) as (c & -> & Hc). by constructor; [|apply IH]. }
  induction q as [l IH|l IH|q IH|q Hleaf] using query_ind; intros neg Hok; cbn [compile pg_query_ok] in *; eauto.
  destruct q as [| | |n v|n v|n v|n v|n v|n v|n v|n vs|ns]; try done; cbn [compile pg_query_ok] in *;
    try (by eexists).
  - destruct vs; [done|]. by eexists.
  - destruct ns as [|n1 [|n2 ns]]; [done|by eexists|]. apply conj_unobjectionable; [done|].
    apply List.Forall_map, Forall_forall. done.
Qed.

(** ** Running the operations *)

Section Refinement.
Context `{HAl : Allocator} `{HH : Hmac} `{HC : AeadCipher} {laws : CipherLaws} {HD : LawfulDerivation Chacha20Key}.
Context `{HS : StoreCodecs} `{HB : CborCodec} `{HE : SqlEngine}.
Context (env : Env) (pk : ProfileKey) (pid : Z).
Abbreviation PW := (World PgDb KeyCache ProfileKey).
Hypothesis pk_ok : profile_ok pk.
Hypothesis nonce_12 : cipher_nonce_size = 12%nat.
Hypothesis rng_length : ∀ n, length (env_rng env n) = n.
Hypothesis hex_lower : ∀ b, hex_decode (pg_hex b) = Some b.

(** A session that has resolved its profile, on a connection that works and is in no
    aborted transaction. *)
Definition pg_ready (w : PW) : Prop :=
  state (session w) = SActive ∧ profile_key (session w) = KActive pid pk ∧ faults w = []
  ∧ pg_aborted (db w) = false.

Definition pg_represents (d : PgDb) (s : AStore) : Prop := represents pk pid (pg_tables d) s ∧ pg_wf d.

(** What an operation leaves alone: the other profiles, and the state of transactions. *)
Definition pg_frame (d d' : PgDb) : Prop := frame pid (pg_tables d) (pg_tables d') ∧ pg_aborted d' = pg_aborted d.

Definition pg_stays (w w' : PW) : Prop := saved w' = saved w ∧ session w' = session w ∧ faults w' = [].

Lemma pg_stays_ready w w' : pg_ready w → pg_stays w w' → pg_frame (db w) (db w') → pg_ready w'.
Proof. intros (Hst & Hk & _ & Ha) (_ & Es & Hf) [_ Ea]. unfold pg_ready. by rewrite Es, Ea. Qed.

Lemma pg_frame_refl d : pg_frame d d.
Proof. done. Qed.

Lemma pg_frame_trans d1 d2 d3 : pg_frame d1 d2 → pg_frame d2 d3 → pg_frame d1 d3.
Proof. intros [F1 A1] [F2 A2]. split; [by eapply frame_trans|congruence]. Qed.

Lemma pg_exec_ok {A} on_err (f : Statement A) (w : PW) d a :
  faults w = [] → pg_aborted (db w) = false → f (db w) = (d, Ok a) → pg_exec on_err f w = (set_db d w, Ok a).
Proof. intros Hf Ha E. unfold pg_exec, db_call. by rewrite Hf, Ha, E. Qed.

Lemma pg_exec_tables {A} on_err (f : Db → res string (Db * A)) (w : PW) t a :
  faults w = [] → pg_aborted (db w) = false → f (pg_tables (db w)) = Ok (t, a) →
  pg_exec on_err (on_tables f) w = (set_db (set_tables t (db w)) w, Ok a).
Proof. intros Hf Ha E. apply pg_exec_ok; [done..|]. unfold on_tables. by rewrite E. Qed.

Lemma pg_acquire_session_ready w : pg_ready w → pg_acquire_session w = (w, Ok pid).
Proof. destruct w as [d sv fs c [k st n]]. intros (Hst & Hk & Hf & _). cbn in *. subst. reflexivity. Qed.

Lemma pg_acquire_key_ready w : pg_ready w → pg_acquire_key w = (w, Ok (pid, pk)).
Proof.
  intros Hr. unfold pg_acquire_key. rewrite (stm_bind_ok _ _ _ _ _ (pg_acquire_session_ready w Hr)).
  destruct Hr as (_ & Hk & _). unfold mbind, stm_bind, sget, lift. cbn. unfold profile_and_key. by rewrite Hk.
Qed.

Lemma pg_insert_tags_run id ts : ∀ (w : PW) t,
  faults w = [] → pg_aborted (db w) = false → insert_all_tags id ts (pg_tables (db w)) = Ok (t, ()) →
  pg_insert_tags id ts w = (set_db (set_tables t (db w)) w, Ok ()).
Proof.
  induction ts as [|x ts IH]; intros w t Hf Ha.
  - intros [= <-]. by destruct w as [[] ? ? ? ?].
  - cbn [insert_all_tags pg_insert_tags].
    destruct (sql_insert_tag id x (pg_tables (db w))) as [[t1 []]| |] eqn:E; cbn; [|done..].
    intros E2. rewrite (stm_bind_ok _ _ _ _ _ (pg_exec_tables _ _ w t1 () Hf Ha E)). by rewrite (IH _ t).
Qed.

Lemma pg_optional_tags_run id tags (w : PW) t :
  faults w = [] → pg_aborted (db w) = false →
  insert_all_tags id (List.map (enc_tag pk) (default [] tags)) (pg_tables (db w)) = Ok (t, ()) →
  match enc_tags_opt pk tags with Some ts => pg_insert_tags id ts | None => mret () end w
  = (set_db (set_tables t (db w)) w, Ok ()).
Proof.
  intros Hf Ha. destruct tags as [ts|]; cbn; [by apply pg_insert_tags_run|].
  intros [= <-]. by destruct w as [[] ? ? ? ?].
Qed.

(** The body of an insertion: on failure only an identifier may have been drawn. *)
Lemma pg_perform_insert_sim (w : PW) s (kind : EntryKind) c n (encv value : bytes) tags expiry_ms (is_new : bool) :
  faults w = [] → pg_aborted (db w) = false → pg_represents (db w) s → akey_ok (kind, c, n) →
  (∃ b, decrypt_entry_value pk (as_bytes c) (as_bytes n) encv = Ok b ∧ sec_data b = value) →
  Forall tag_ok (default [] tags) → Forall (tag_small cipher_max) (default [] tags) →
  let '(s', r) := a_update env (upsert is_new) (kind, c, n) (Some value) tags expiry_ms s in
  ∃ d', pg_perform_insert env pid kind (enc_category pk (as_bytes c)) (enc_name pk (as_bytes n)) encv
      (enc_tags_opt pk tags) expiry_ms is_new w = (set_db d' w, r)
    ∧ pg_represents d' s' ∧ pg_frame (db w) d' ∧ (pg_item_seq (db w) ≤ pg_item_seq d')%Z
    ∧ pg_profile_seq d' = pg_profile_seq (db w).
Proof.
  intros Hf Ha [Hr Hwf] Hk Hval Hto Hts. set (k := (kind, c, n)) in *. unfold a_update.
  unfold pg_perform_insert.
  assert (Hsame : ∀ r : sres (), (∃ d', (w, r) = (set_db d' w, r) ∧ pg_represents d' s ∧ pg_frame (db w) d'
    ∧ (pg_item_seq (db w) ≤ pg_item_seq d')%Z ∧ pg_profile_seq d' = pg_profile_seq (db w))).
  { intros r. exists (db w). split_and!; try done; first [by destruct w|lia]. }
  destruct (bind_expiry env expiry_ms) as [e|e|] eqn:Ee;
    [|destruct is_new; apply Hsame|by apply bind_expiry_total in Ee].
  rewrite (stm_bind_ok (lift (Ok e)) _ _ _ _ eq_refl).
  change (pid, kind_value kind, enc_category pk (as_bytes c), enc_name pk (as_bytes n)) with (ekey pk pid k).
  set (v := mkAVal value (default [] tags) e).
  set (x := (encv, e, List.map (enc_tag pk) (default [] tags))).
  assert (Hst : stored pk k x v) by (split_and!; done).
  destruct is_new, (s !! k) as [v0|] eqn:Es; cbn [upsert].
  - destruct (rep_find _ _ _ _ _ _ Hr Es) as (r & Hfi & _).
    exists (next_item (db w)). split_and!; [|split; [exact Hr|by apply next_item_wf]|done|cbn; lia|done].
    rewrite stm_bind_assoc. rewrite (stm_bind_ok _ _ _ (set_db (next_item (db w)) w) None); [done|].
    apply pg_exec_ok; [done..|]. by rewrite pg_insert_cases, Hfi.
  - pose proof (rep_none _ _ pk_ok _ _ _ Hr Hk Es) as Hn%view_find.
    destruct (insert_row_spec (pg_item_seq (db w)) (ekey pk pid k) encv e x.2 (pg_tables (db w)) (rep_wf _ _ _ _ Hr) Hn
      (rep_profile _ _ _ _ Hr) (fresh_item _ Hwf)) as (t2 & E2 & Hwf2 & Hp & Hc & Hi & Hv & Ho).
    set (d1 := set_tables (set_items (items (pg_tables (db w)) ++ [new_item (ekey pk pid k) (pg_item_seq (db w)) encv e])
      (pg_tables (db w))) (next_item (db w))).
    exists (set_tables t2 d1). split_and!.
    + rewrite stm_bind_assoc. rewrite (stm_bind_ok _ _ _ (set_db d1 w) (Some (pg_item_seq (db w)))).
      * cbn [ok_or]. rewrite (stm_bind_ok (lift (Ok _)) _ _ _ _ eq_refl).
        by apply (pg_optional_tags_run (pg_item_seq (db w)) tags (set_db d1 w)).
      * apply pg_exec_ok; [done..|]. rewrite pg_insert_cases, Hn.
        pose proof (rep_profile _ _ _ _ Hr) as Hp'. change (ekey pk pid k).1.1.1 with pid. by rewrite Hp'.
    + split; [by eapply represents_insert|].
      destruct Hwf as [_ Hib Hpb]. split; [done| |cbn; by rewrite Hp]. cbn. rewrite Hi. apply Forall_app. split.
      * eapply Forall_impl; [exact Hib|]. cbn. intros r Hlt. lia.
      * constructor; [|constructor]. destruct (new_item_key (ekey pk pid k) (pg_item_seq (db w)) encv e) as [_ ->]. lia.
    + split; [by eapply ekey_frame|done].
    + cbn. lia.
    + done.
  - destruct (rep_find _ _ _ _ _ _ Hr Es) as (r & Hfi & _).
    destruct (update_item_spec (ekey pk pid k) encv e x.2 (pg_tables (db w)) r (rep_wf _ _ _ _ Hr) Hfi)
      as (t1 & t2 & t3 & E1 & E2 & E3 & Hwf3 & Hp & Hc & Hv & Ho).
    exists (set_tables t3 (db w)). split_and!.
    + rewrite stm_bind_assoc. rewrite (stm_bind_ok _ _ _ (set_db (set_tables t1 (db w)) w) (Some (i_id r))).
      * cbn [ok_or]. rewrite stm_bind_assoc, (stm_bind_ok (lift (Ok _)) _ _ _ _ eq_refl), stm_bind_assoc.
        rewrite (stm_bind_ok _ _ _ _ _ (pg_exec_tables _ _ (set_db (set_tables t1 (db w)) w) t2 () Hf Ha E2)).
        rewrite stm_bind_ret.
        by apply (pg_optional_tags_run (i_id r) tags (set_db (set_tables t2 (set_tables t1 (db w))) w)).
      * apply pg_exec_ok; [done..|]. unfold pg_update_item. by rewrite E1.
    + split; [by eapply represents_insert|]. apply set_tables_wf; [done..|]. intros id Hid. rewrite (insert_all_tags_items _ _ _ _ E3) in Hid.
      unfold sql_delete_tags in E2. injection E2 as <-. by rewrite <- (update_item_ids _ _ _ _ _ _ E1).
    + split; [by eapply ekey_frame|done].
    + cbn. lia.
    + done.
  - pose proof (rep_none _ _ pk_ok _ _ _ Hr Hk Es) as Hn%view_find.
    exists (db w). split_and!; try done; try lia.
    rewrite stm_bind_assoc. rewrite (stm_bind_ok _ _ _ (set_db (db w) w) None); [by destruct w|].
    apply pg_exec_ok; [done..|]. unfold pg_update_item, sql_update_item. by rewrite Hn.
Qed.

(** A body that leaves its transactions alone runs in a transaction of its own, or in the
    one of the session; if it fails in its own, the tables are as before. *)
Lemma pg_with_txn_sim {A} (body : stm PW StorageError.Error A) (w : PW) r (Q : PgDb → Prop) :
  pg_ready w →
  (∀ w0 : PW, faults w0 = [] → db w0 = db w → ∃ d', body w0 = (set_db d' w0, r) ∧ pg_aborted d' = false
     ∧ Q d' ∧ (∀ e, r = Err e → Q (pg_restore (db w) d'))) →
  r ≠ Panic →
  ∃ w', with_txn body w = (w', r) ∧ pg_stays w w' ∧ Q (db w').
Proof.
  intros (Hst & Hk & Hf & Ha) Hrun Hnp. unfold with_txn.
  destruct w as [d sv fs c [k st n]]. cbn in Hst, Hk, Hf, Ha. subst.
  destruct n as [|n].
  - set (begun := mkWorld d (d :: sv) [] c (mkSession (KActive pid pk) SActive 1)).
    assert (Eas : as_transaction (mkWorld d sv [] c (mkSession (KActive pid pk) SActive 0)) = (begun, Ok true)).
    { unfold begun. clear -Ha. destruct d as [? ? ? []]; [done|reflexivity]. }
    rewrite (stm_bind_ok _ _ _ _ _ Eas). unfold txn_scope.
    destruct (Hrun begun eq_refl eq_refl) as (d' & -> & Ha' & HQ & HQe). destruct r as [a|e|]; [| |done].
    + eexists. split.
      { clear -Ha'. destruct d' as [? ? ? []]; [done|reflexivity]. }
      by split.
    + eexists. split; [reflexivity|]. split; [done|]. by eapply HQe.
  - destruct (Hrun (mkWorld d sv [] c (mkSession (KActive pid pk) SActive (S n))) eq_refl eq_refl)
      as (d' & E & _ & HQ & _).
    eexists. unfold as_transaction, mbind, stm_bind, sget. cbn. unfold txn_scope. rewrite E.
    destruct r; [|done..]; by split_and!.
Qed.

Lemma pg_upsert_sim (w : PW) s (is_new : bool) kind c n value tags ms :
  pg_ready w → pg_represents (db w) s → akey_ok (kind, c, n) → value_ok value → tags_ok tags →
  let '(s', r) := a_update env (upsert is_new) (kind, c, n) value tags ms s in
  ∃ w', pg_update env kind (upsert is_new) c n value tags ms w = (w', r) ∧ pg_stays w w'
    ∧ pg_represents (db w') s' ∧ pg_frame (db w) (db w').
Proof.
  intros Hw Hr Hk Hv Ht. pose proof Hk as [Hc Hn]. cbn in Hc, Hn.
  destruct (encrypt_entry_run env pk pk_ok rng_length c n value tags Hc Hn Hv Ht) as (encv & b & Eenc & Hdec).
  pose proof (a_update_total env (upsert is_new) (kind, c, n) value tags ms s) as Hnp.
  pose proof (a_update_err env (upsert is_new) (kind, c, n) value tags ms s) as Herr.
  pose proof (λ w0 : PW, pg_perform_insert_sim w0 s kind c n encv (default [] value) tags ms is_new) as Hsim.
  destruct Ht as [Ho Hs].
  assert (Eup : a_update env (upsert is_new) (kind, c, n) (Some (default [] value)) tags ms s
    = a_update env (upsert is_new) (kind, c, n) value tags ms s) by (by destruct is_new).
  rewrite Eup in Hsim. destruct (a_update _ _ _ _ _ _ _) as [s' r]. cbn in Hnp, Herr.
  destruct (pg_with_txn_sim (pg_perform_insert env pid kind (enc_category pk (as_bytes c))
    (enc_name pk (as_bytes n)) encv (enc_tags_opt pk tags) ms is_new) w r
    (λ d', pg_represents d' s' ∧ pg_frame (db w) d')) as (w' & E & Hst & Hrep & Hfr); [done| |done|].
  - intros w0 Hf0 Hd0. pose proof Hw as (_ & _ & _ & Ha).
    destruct (Hsim w0) as (d' & E & Hrep & Hfr & Hseq & Hpseq);
      [done|by rewrite Hd0|by rewrite Hd0|done|by exists b|done|done|]. rewrite Hd0 in *. exists d'.
    split_and!; [done|by destruct Hfr as [_ ->]|done|done|]. intros e He. rewrite (Herr e He).
    destruct Hr as [Hrt [Hdw Hib Hpb]]. split; [split; [exact Hrt|]|done].
    split; [exact Hdw| |cbn; by rewrite Hpseq]. eapply Forall_impl; [exact Hib|]. cbn. intros r0 Hlt. lia.
  - exists w'. split_and!; try done. rewrite <- E. destruct is_new; unfold pg_update, upsert;
      rewrite (stm_bind_ok _ _ _ _ _ (pg_acquire_key_ready w Hw));
      rewrite (stm_bind_ok _ _ _ _ _ (lift_ok _ _ w Eenc));
      by rewrite (stm_bind_ok _ _ _ _ _ (pg_acquire_session_ready w Hw)).
Qed.

Lemma pg_update_sim (w : PW) s op kind c n value tags ms :
  pg_ready w → pg_represents (db w) s → akey_ok (kind, c, n) → value_ok value → tags_ok tags →
  let '(s', r) := a_update env op (kind, c, n) value tags ms s in
  ∃ w', pg_update env kind op c n value tags ms w = (w', r) ∧ pg_stays w w'
    ∧ pg_represents (db w') s' ∧ pg_frame (db w) (db w').
Proof.
  intros Hw Hr Hk Hv Ht.
  destruct op; [by apply (pg_upsert_sim w s true)|by apply (pg_upsert_sim w s false)|].
  pose proof Hk as [Hc Hn]. cbn in Hc, Hn. destruct Hr as [Hr Hwf].
  pose proof (delete_row pk pid pk_ok (pg_tables (db w)) s (kind, c, n) Hr Hk) as (En & Hr' & Hfr).
  set (k := ekey pk pid (kind, c, n)) in *. set (t := (delete_items (has_key k) (pg_tables (db w))).1) in *.
  pose proof Hw as (_ & _ & Hf & Ha).
  assert (E : pg_update env kind EntryOperation.Remove c n value tags ms w
    = (set_db (set_tables t (db w)) w, (a_update env EntryOperation.Remove (kind, c, n) value tags ms s).2)).
  { unfold pg_update. rewrite (stm_bind_ok _ _ _ _ _ (pg_acquire_key_ready w Hw)).
    rewrite (stm_bind_ok _ _ _ _ _ (lift_ok _ _ w (encrypt_key_run pk pk_ok c n Hc Hn))).
    rewrite (stm_bind_ok _ _ _ _ _ (pg_acquire_session_ready w Hw)). unfold pg_perform_remove. cbn [fst snd].
    rewrite (stm_bind_ok _ _ _ _ _ (pg_exec_tables _ _ w t _ Hf Ha (eq_refl : _ = Ok (t, (delete_items (has_key k) (pg_tables (db w))).2)))).
    rewrite En. cbn [a_update]. by destruct (s !! (kind, c, n)). }
  assert (Hd : pg_represents (set_tables t (db w)) (delete (kind, c, n) s)).
  { split; [done|]. apply set_tables_wf; [done|apply Hr'|apply Hfr|apply delete_items_ids]. }
  cbn [a_update] in *. destruct (s !! (kind, c, n)) eqn:Es; [|rewrite delete_id in Hd by done];
    (exists (set_db (set_tables t (db w)) w); split_and!; [exact E|by split_and!|done|by split]).
Qed.

Lemma set_tables_same (w : PW) : set_db (set_tables (pg_tables (db w)) (db w)) w = w.
Proof. by destruct w as [[] ? ? ? ?]. Qed.

Lemma pg_fetch_run (w : PW) s kind c n fu :
  pg_ready w → pg_represents (db w) s → akey_ok (kind, c, n) →
  pg_fetch env kind c n fu w = (w, Ok (a_fetch env (kind, c, n) s)).
Proof.
  intros Hw [Hr _] Hk. pose proof Hk as [Hc Hn]. cbn in Hc, Hn. set (k := (kind, c, n)) in *.
  unfold pg_fetch. rewrite (stm_bind_ok _ _ _ _ _ (pg_acquire_key_ready w Hw)). cbv beta iota.
  rewrite (stm_bind_ok _ _ _ _ _ (lift_ok _ _ w (encrypt_key_run pk pk_ok c n Hc Hn))).
  rewrite (stm_bind_ok _ _ _ _ _ (pg_acquire_session_ready w Hw)). cbn [fst snd].
  change (pid, kind_value kind, enc_category pk (as_bytes c), enc_name pk (as_bytes n)) with (ekey pk pid k).
  destruct Hw as (_ & _ & Hf & Ha). unfold pg_fetch_item.
  erewrite stm_bind_ok; [|apply pg_exec_tables; [done|done|reflexivity]].
  rewrite set_tables_same, find_live by apply Hr. unfold a_fetch. destruct (s !! k) as [v|] eqn:Es.
  - destruct (rep_find _ _ _ _ _ _ Hr Es) as (r & -> & _ & _ & (b & Eb & Hb) & He & Et & Ho & Hs).
    cbn [fst snd] in *. cbn [mbind option_bind]. unfold a_live. rewrite <- He. unfold pg_live.
    destruct (unexpired _ _); cbn [mbind option_bind]; [|done].
    apply lift_ok. rewrite (bind_ok _ _ _ Eb), Et.
    pose proof (decrypt_tags_spec pk (a_tags v) pk_ok Ho Hs) as Ed.
    change (mapM (profile_decrypt_tag pk)) with (decrypt_entry_tags pk) in Ed.
    pose proof (pg_column_decodes hex_decode (List.map (enc_tag pk) (a_tags v)) hex_lower) as Ec.
    destruct (a_tags v) as [|t ts] eqn:Ev; cbn [List.map pg_tags_column] in *.
    + run_bind. cbn. unfold a_entry. by rewrite Hb, Ev.
    + cbn [default from_option id] in Ec. rewrite Ec. cbn [ok_or mbind res_bind]. rewrite Ed. cbn. unfold a_entry. by rewrite Hb, Ev.
  - pose proof (rep_none _ _ pk_ok _ _ _ Hr Hk Es) as Hnone%view_find. by rewrite Hnone.
Qed.

(** *** Queries over many rows *)

Abbreviation enc_category_opt c := ((λ t, enc_category pk (as_bytes t)) <$> c).

Definition pg_filter_ready (s : AStore) (f : option TagFilter) : Prop :=
  filter_ready pk s f ∧ match f with Some f => pg_query_ok (filter_query f) = true | None => True end.

Lemma rename_query_ok {K K' V} (g : K → K') (q : AbstractQuery K V) : pg_query_ok (rename g q) = pg_query_ok q.
Proof.
  induction q as [l IH|l IH|q IH|q Hleaf] using query_ind; cbn [rename pg_query_ok].
  - f_equal; [by destruct l|]. induction IH as [|q l Hq _ IHl]; [done|]. cbn. by rewrite Hq, IHl.
  - f_equal; [by destruct l|]. induction IH as [|q l Hq _ IHl]; [done|]. cbn. by rewrite Hq, IHl.
  - done.
  - destruct q as [| | |n v|n v|n v|n v|n v|n v|n v|n vs|ns]; try done. by destruct ns.
Qed.

(** The server accepts the condition of such a filter, and it means what the filter does. *)
Lemma pg_encode_select_run s c f :
  opt_text_ok c → pg_filter_ready s f →
  ∃ flt test, pg_encode_select pk c f = Ok (enc_category_opt c, flt)
    ∧ (length (filter_args flt) ≤ filter_size f)%nat ∧ pg_condition flt = Ok test
    ∧ ∀ d r k v, s !! k = Some v → stored pk k (i_value r, i_expiry r, item_tags (i_id r) d) v →
        pg_matches test d r = filter_holds sql_like f (a_tags v).
Proof.
  intros Hc [Hf Hq].
  destruct (encode_filter_clause pk pk_ok nonce_12 (Q := PostgresPrepare) "$" s f eq_refl) as (flt & Ef & Hsz & Hm); [done..|].
  assert (Esel : pg_encode_select pk c f = Ok (enc_category_opt c, flt)).
  { unfold pg_encode_select. destruct c as [c|].
    - rewrite (encrypt_category_ok pk pk_ok c Hc). cbn [fmap res_fmap mbind res_bind]. by rewrite Ef.
    - run_bind. by rewrite Ef. }
  destruct flt as [[text args]|].
  - destruct Hm as (cl & Ep & Ecl & Hm).
    assert (Hob : pg_objection cl = None).
    { destruct f as [f|]; [|done].
      destruct (compile_unobjectionable (En pk) (Ev pk) (rename split_tag_name (filter_query f)) false) as (cl' & E' & Ho).
      { by rewrite rename_query_ok. }
      change (compile (En pk) (Ev pk) (rename split_tag_name (filter_query f)) false = Some cl) in Ecl. congruence. }
    eexists _, _. split_and!; [exact Esel|done| |].
    + cbn. by rewrite Ep, Hob.
    + intros d r k v Hs Hst. exact (Hm _ _ _ Hs Hst).
  - eexists _, _. split_and!; [exact Esel|done|done|]. intros d r k v Hs Hst. symmetry. exact (Hm _ _ _ Hs Hst).
Qed.

Lemma pg_count_run (w : PW) s kind c f :
  pg_ready w → pg_represents (db w) s → opt_text_ok c → pg_filter_ready s f →
  pg_session_count env kind c f w = (w, Ok (a_count sql_like env kind c f s)).
Proof.
  intros Hw [Hr _] Hc Hf. destruct (pg_encode_select_run s c f Hc Hf) as (flt & test & Ef & _ & Et & Hm).
  unfold pg_session_count. rewrite (stm_bind_ok _ _ _ _ _ (pg_acquire_key_ready w Hw)). cbv beta iota.
  rewrite (stm_bind_ok _ _ _ _ _ (lift_ok _ _ w Ef)). cbv beta iota.
  destruct (extend_query_unlimited PostgresPrepare PG_COUNT_QUERY (select_params pid kind (enc_category_opt c)) flt) as [x Ex].
  rewrite (stm_bind_ok _ _ _ _ _ (lift_ok _ _ w Ex)).
  rewrite (stm_bind_ok _ _ _ _ _ (pg_acquire_session_ready w Hw)). destruct Hw as (_ & _ & Hfa & Ha).
  unfold pg_count. erewrite pg_exec_tables; [|done|done|cbv beta; rewrite Et; reflexivity].
  rewrite set_tables_same. unfold a_count. do 3 f_equal.
  pose proof (matching_rows env pk pid pk_ok (pg_tables (db w)) s kind c f (pg_matches test (pg_tables (db w))) Hr Hc (Hm _)) as Hp.
  apply Permutation_length in Hp. rewrite List.length_map, length_map_to_list in Hp. exact Hp.
Qed.

Lemma pg_remove_all_sim (w : PW) s kind c f :
  pg_ready w → pg_represents (db w) s → opt_text_ok c → pg_filter_ready s f →
  let '(s', n) := a_remove_all sql_like kind c f s in
  ∃ w', pg_remove_all kind c f w = (w', Ok n) ∧ pg_stays w w' ∧ pg_represents (db w') s' ∧ pg_frame (db w) (db w').
Proof.
  intros Hw [Hr Hwf] Hc Hf. destruct (pg_encode_select_run s c f Hc Hf) as (flt & test & Ef & _ & Et & Hm).
  pose proof (remove_rows pk pid pk_ok (pg_tables (db w)) s kind c f (pg_matches test (pg_tables (db w))) Hr Hc (Hm _))
    as (En & Hr' & Hfr).
  destruct (a_remove_all _ _ _ _ _) as [s' n]. cbn [fst snd] in En, Hr'.
  set (p := λ r, selected pid (kind_value <$> kind) (enc_category_opt c) r && pg_matches test (pg_tables (db w)) r) in *.
  set (t := (delete_items p (pg_tables (db w))).1) in *.
  exists (set_db (set_tables t (db w)) w). split_and!.
  - unfold pg_remove_all. rewrite (stm_bind_ok _ _ _ _ _ (pg_acquire_key_ready w Hw)). cbv beta iota.
    rewrite (stm_bind_ok _ _ _ _ _ (lift_ok _ _ w Ef)). cbv beta iota.
    destruct (extend_query_unlimited PostgresPrepare PG_DELETE_ALL_QUERY (select_params pid kind (enc_category_opt c)) flt)
      as [x Ex].
    rewrite (stm_bind_ok _ _ _ _ _ (lift_ok _ _ w Ex)).
    rewrite (stm_bind_ok _ _ _ _ _ (pg_acquire_session_ready w Hw)). destruct Hw as (_ & _ & Hfa & Ha).
    unfold pg_delete_all. rewrite (pg_exec_tables _ _ w t (delete_items p (pg_tables (db w))).2); [by rewrite En|done|done|].
    rewrite Et. reflexivity.
  - split_and!; try done. apply Hw.
  - split; [done|]. apply set_tables_wf; [done|apply Hr'|apply Hfr|apply delete_items_ids].
  - by split.
Qed.

(** Limits that are not negative limit as in SQLite. *)
Definition pg_limit_ok (z : option Z) : Prop := match z with Some n => (0 ≤ n)%Z | None => True end.

Lemma pg_limit_spec {A} offset limit (l : list A) :
  pg_limit_ok offset → pg_limit_ok limit → pg_limit offset limit l = Ok (sql_limit offset limit l).
Proof.
  intros Ho Hl. unfold pg_limit, sql_limit. destruct offset as [o|], limit as [n|]; cbn in *; try done;
    rewrite ?(proj2 (Z.ltb_ge _ _)) by lia; try done.
Qed.

Lemma pg_scan_rows (d : PgDb) s kind c f flt test offset limit order_by descending :
  represents pk pid (pg_tables d) s → opt_text_ok c → pg_limit_ok offset → pg_limit_ok limit →
  pg_condition flt = Ok test →
  (∀ d r k v, s !! k = Some v → stored pk k (i_value r, i_expiry r, item_tags (i_id r) d) v →
      pg_matches test d r = filter_holds sql_like f (a_tags v)) →
  ∃ l, l ≡ₚ map_to_list (a_matching sql_like env kind c f s)
    ∧ pg_scan (env_now env) pid (kind_value <$> kind) (enc_category_opt c) flt offset limit order_by descending d
      = (d, Ok (List.map (λ kv, row_with (λ ts, default [] (pg_tags_column ts)) (pg_tables d) (row_at pk pid (pg_tables d) kv))
                  (sql_limit offset limit l))).
Proof.
  intros Hr Hc Ho Hl Et Hm.
  pose proof (matching_rows env pk pid pk_ok (pg_tables d) s kind c f (pg_matches test (pg_tables d)) Hr Hc (Hm _)) as Hp.
  unfold pg_scan, on_tables. rewrite Et. cbn [mbind res_bind]. set (rows := List.filter _ (items (pg_tables d))).
  change (List.filter _ (items (pg_tables d))) with rows in Hp.
  set (rows' := match order_by with Some _ => _ | None => _ end).
  assert (Hp' : rows' ≡ₚ rows) by apply ordered_perm.
  rewrite Hp in Hp'. apply Permutation_map_inv in Hp' as (l & -> & Hpl).
  exists l. split; [done|]. rewrite pg_limit_spec by done. cbn [mbind res_bind].
  rewrite sql_limit_map, List.map_map. by destruct d.
Qed.

Lemma pg_session_close_ready (w : PW) : pg_ready w → ∃ w', session_close false w = (w', Ok ()).
Proof.
  destruct w as [d sv fs ca [k st n]]. intros (Hst & Hk & Hf & Ha). cbn in *. subst.
  unfold session_close, mbind, stm_bind, sget, set_state, smod. cbn. destruct n; cbn; by eexists.
Qed.

Lemma pg_perform_scan_run (w : PW) s kind c f offset limit order_by descending fu owned :
  pg_ready w → pg_represents (db w) s → opt_text_ok c → pg_filter_ready s f →
  pg_limit_ok offset → pg_limit_ok limit → (Z.of_nat (filter_size f) + 6 ≤ i64_max)%Z →
  ∃ l pages, l ≡ₚ map_to_list (a_matching sql_like env kind c f s)
    ∧ pg_perform_scan env pid pk kind c f offset limit order_by descending fu owned w
      = (if owned : bool then (session_close false w).1 else w, Ok (List.map Ok pages))
    ∧ pages_full PAGE_SIZE pages
    ∧ decrypt_scan_batch c (concat pages) pk = Ok (List.map (λ kv, a_entry kv.1 kv.2) (sql_limit offset limit l)).
Proof.
  intros Hw [Hr _] Hc Hf Ho Hl Hmax. destruct (pg_encode_select_run s c f Hc Hf) as (flt & test & Ef & Hsz & Et & Hm).
  destruct (pg_scan_rows (db w) s kind c f flt test offset limit order_by descending Hr Hc Ho Hl Et Hm) as (l & Hpl & Es).
  destruct (pages_of_rows pk pid pk_ok nonce_12 (λ ts, default [] (pg_tags_column ts)) (λ ts, pg_column_decodes hex_decode ts hex_lower) (pg_tables (db w)) s kind c f
    (sql_limit offset limit l) Hr Hc (λ kv, limited_selected env s kind c f l offset limit kv Hpl))
    as (pages & Ep & Hpf & Ed & Hall).
  exists l, pages. split_and!; [done| |done|done].
  unfold pg_perform_scan. rewrite (stm_bind_ok _ _ _ _ _ (lift_ok _ _ w Ef)). cbv beta iota.
  edestruct (extend_query_limited _ PG_SCAN_QUERY (select_params pid kind (enc_category_opt c))
    flt offset limit order_by descending postgres_limits) as [x Ex]; [done|cbn; lia|].
  rewrite (stm_bind_ok _ _ _ _ _ (lift_ok _ _ w Ex)).
  rewrite (stm_bind_ok _ _ _ _ _ (pg_acquire_session_ready w Hw)). pose proof Hw as (_ & _ & Hfa & Ha).
  rewrite (stm_bind_ok _ _ _ _ _ (pg_exec_ok _ _ w _ _ Hfa Ha Es)).
  assert (set_db (db w) w = w) as -> by (by destruct w).
  rewrite Hall, andb_true_r, Ep. destruct owned; [|done].
  destruct (pg_session_close_ready w Hw) as (w' & Ew). by rewrite (stm_bind_ok _ _ _ _ _ Ew), Ew.
Qed.

Lemma pg_fetch_all_run (w : PW) s kind c f limit order_by descending fu :
  pg_ready w → pg_represents (db w) s → opt_text_ok c → pg_filter_ready s f → pg_limit_ok limit →
  (Z.of_nat (filter_size f) + 6 ≤ i64_max)%Z →
  ∃ l, l ≡ₚ map_to_list (a_matching sql_like env kind c f s)
    ∧ pg_fetch_all env kind c f limit order_by descending fu w
      = (w, Ok (List.map (λ kv, a_entry kv.1 kv.2) (sql_limit None limit l))).
Proof.
  intros Hw Hr Hc Hf Hl Hmax.
  destruct (pg_perform_scan_run w s kind c f None limit order_by descending (fu && in_transaction (session w)) false
    Hw Hr Hc Hf I Hl Hmax) as (l & pages & Hpl & E & _ & Ed).
  exists l. split; [done|]. unfold pg_fetch_all. rewrite (stm_bind_ok sget _ w w w eq_refl).
  rewrite (stm_bind_ok _ _ _ _ _ (pg_acquire_key_ready w Hw)). cbv beta iota.
  rewrite (stm_bind_ok _ _ _ _ _ E). rewrite (stm_bind_ok _ _ _ _ _ (lift_ok _ _ w (collect_pages_ok pages))).
  by apply lift_ok.
Qed.
Lemma pg_backend_scan_run (w : PW) s kind c f offset limit order_by descending fuel :
  pg_ready w → pg_represents (db w) s → opt_text_ok c → pg_filter_ready s f →
  pg_limit_ok offset → pg_limit_ok limit →
  (Z.of_nat (filter_size f) + 6 ≤ i64_max)%Z → (size s + 1 < fuel)%nat →
  ∃ l scan, l ≡ₚ map_to_list (a_matching sql_like env kind c f s)
    ∧ pg_backend_scan env kind c f offset limit order_by descending w = ((session_close false w).1, Ok scan)
    ∧ (drain fuel scan).2 = Ok (List.map (λ kv, a_entry kv.1 kv.2) (sql_limit offset limit l)).
Proof.
  intros Hw Hr Hc Hf Ho Hl Hmax Hfuel.
  destruct (pg_perform_scan_run w s kind c f offset limit order_by descending false true Hw Hr Hc Hf Ho Hl Hmax)
    as (l & pages & Hp & E & Hpf & Ed).
  destruct (decrypt_pages c pk pages _ Ed) as (epages & Ee & Ec & El).
  exists l, (scan_new (List.map Ok epages) PAGE_SIZE). split_and!; [done| |].
  - unfold pg_backend_scan. rewrite (stm_bind_ok _ _ _ _ _ (pg_acquire_key_ready w Hw)). cbv beta iota.
    rewrite (stm_bind_ok _ _ _ _ _ E). rewrite Ee. reflexivity.
  - eapply drain_limited; [done|exact Hp|by eapply pages_full_lengths|done|done].
Qed.
End Refinement.
