(* ===== verification/SqliteBackend.v ===== *)
(** * The SQLite store: provisioning, profiles and rekeying

    Models [SqliteStoreOptions] of askar-storage/src/backend/sqlite/provision.rs
    and the operations of [SqliteBackend] in askar-storage/src/backend/sqlite/mod.rs
    that work on the store rather than in a session. *)

From S2P Require Import Prelude Errors DbQuery Buffers Entry Aead Protect Options StoreKey DbUtils.
From S2P Require Import Session SqliteDb Sqlite.
Local Open Scope string_scope.
Local Open Scope list_scope.

(** ** Options *)

(** What [sqlx] and the operating system supply: the modes by name, and the
    number of processors. *)
Class SqliteEnv := {
  JournalMode : Type;
  LockingMode : Type;
  Synchronous : Type;
  journal_from_str : string → res string JournalMode;
  locking_from_str : string → res string LockingMode;
  synchronous_from_str : string → res string Synchronous;
  journal_wal : JournalMode;
  locking_normal : LockingMode;
  synchronous_full : Synchronous;
  available_parallelism : res string Z;
}.

Record SqliteStoreOptions `{SqliteEnv} := mkSqliteOptions {
  in_memory : bool;
  db_path : string;
  busy_timeout : Z;
  max_connections : Z;
  min_connections : Z;
  journal_mode : JournalMode;
  locking_mode : LockingMode;
  shared_cache : bool;
  synchronous : Synchronous;
}.

Definition u32_limit : Z := 2 ^ 32 - 1.
Definition u64_limit : Z := 2 ^ 64 - 1.

(** [str::parse] for an unsigned integer: an optional plus sign and digits. *)
Definition parse_unsigned (max : Z) (s : string) : res string Z :=
  let ds := match s with String "+" s' => s' | _ => s end in
  if String.eqb ds "" then Err "cannot parse integer from empty string"
  else if negb (all_chars is_digit ds) then Err "invalid digit found in string"
  else let n := digits_value 0 ds in
       if (n <=? max)%Z then Ok n else Err "number too large to fit in target type".

(** [eq_ignore_ascii_case]. *)
Definition eq_ignore_case (a b : string) : bool := String.eqb (to_uppercase a) (to_uppercase b).

Section StoreOptions.
Context `{SqliteEnv}.

(** [if let Some(v) = opts.query.remove(name) { parse(v).map_err(..)? } else { default? }]. *)
Definition option_param {A} (query : gmap string string) (name msg : string)
    (parse : string → res string A) (dflt : sres A) : sres A :=
  match query !! name with
  | Some v => map_err (StorageError.err_map StorageError.Input msg) (parse v)
  | None => dflt
  end.

Definition sqlite_options_new (opts : Options) : sres SqliteStoreOptions :=
  let path := host opts +:+ path opts in
  let in_memory := String.eqb path ":memory:" in
  busy_timeout ← option_param (query opts) "busy_timeout" "Error parsing 'busy_timeout' parameter"
    (parse_unsigned u64_limit) (Ok 5000%Z);
  max_connections ← option_param (query opts) "max_connections" "Error parsing 'max_connections' parameter"
    (parse_unsigned u32_limit)
    ((λ n, Z.min (Z.max n 4) 8) <$>
       map_err (StorageError.err_map StorageError.Unexpected "Error determining available parallelism")
         available_parallelism);
  min_connections ← option_param (query opts) "min_connections" "Error parsing 'min_connections' parameter"
    (parse_unsigned u32_limit) (Ok 1%Z);
  journal_mode ← option_param (query opts) "journal_mode" "Error parsing 'journal_mode' parameter"
    journal_from_str (Ok journal_wal);
  locking_mode ← option_param (query opts) "locking_mode" "Error parsing 'locking_mode' parameter"
    locking_from_str (Ok locking_normal);
  let shared_cache := match query opts !! "cache" with
    | Some cache => eq_ignore_case cache "shared"
    | None => in_memory
    end in
  synchronous ← option_param (query opts) "synchronous" "Error parsing 'synchronous' parameter"
    synchronous_from_str (Ok synchronous_full);
  mret (mkSqliteOptions _ in_memory path busy_timeout max_connections min_connections
    journal_mode locking_mode shared_cache synchronous).

(** [from_path], which panics on an error. *)
Definition options_from_path (path : string) : sres SqliteStoreOptions :=
  match sqlite_options_new (mkOptions "" "" "" path "" ∅ "") with
  | Ok o => Ok o
  | _ => Panic
  end.
End StoreOptions.

(** ** Removing the database file *)

Inductive RemoveOutcome : Type :=
| Removed
| Missing
| InUse
| Failed (cause : string).

Definition removing_failed : StorageError.Error :=
  StorageError.from_msg StorageError.Backend "Error removing file: still in use".

(** [windows] says whether a file in use is retried; [attempt] is the outcome of
    the coming calls to [remove_file]. *)
Fixpoint remove_loop (windows : bool) (attempt : nat → RemoveOutcome) (retries_left tried : nat) : sres bool :=
  match attempt tried with
  | Removed => Ok true
  | Missing => Ok false
  | InUse =>
      if windows then
        match retries_left with
        | O => Err removing_failed
        | S n => remove_loop windows attempt n (S tried)
        end
      else Err (StorageError.err_map StorageError.Backend "Error removing file" "file in use")
  | Failed cause => Err (StorageError.err_map StorageError.Backend "Error removing file" cause)
  end.

(** [retries >= 10] ends the loop: nine more attempts after the first. *)
Definition try_remove_file (windows : bool) (attempt : nat → RemoveOutcome) : sres bool :=
  remove_loop windows attempt 9 0.

(** ** The backend *)

(** The tables are absent until the store is provisioned. *)
Record SqliteBackend := mkBackend {
  b_db : Db;
  b_pool : PoolState;
  active_profile : string;
  key_cache : KeyCache;
  b_path : string;
}.

Section Backend.
Context `{Allocator} `{Hmac} `{AeadCipher} `{StoreCodecs} `{UriCodec} `{CborCodec}.
Abbreviation B := (stm SqliteBackend StorageError.Error).

Definition set_bdb (d : Db) (b : SqliteBackend) : SqliteBackend :=
  mkBackend d (b_pool b) (active_profile b) (key_cache b) (b_path b).
Definition set_bpool (p : PoolState) (b : SqliteBackend) : SqliteBackend :=
  mkBackend (b_db b) p (active_profile b) (key_cache b) (b_path b).
Definition set_bcache (c : KeyCache) (b : SqliteBackend) : SqliteBackend :=
  mkBackend (b_db b) (b_pool b) (active_profile b) c (b_path b).

(** A call on a connection of the pool, and a statement; a closed pool gives no
    connection to make it on. *)
Definition b_call (on_err : string → StorageError.Error) : B () := λ b,
  match b_pool b with
  | PoolOpen [] => (b, Ok ())
  | PoolOpen (None :: fs) => (set_bpool (PoolOpen fs) b, Ok ())
  | PoolOpen (Some msg :: fs) => (set_bpool (PoolOpen fs) b, Err (on_err msg))
  | PoolClosed => (b, Err (on_err pool_closed_text))
  end.

Definition b_exec {A} (on_err : string → StorageError.Error) (f : Db → res string (Db * A)) : B A :=
  _ ← b_call on_err;
  b ← sget;
  match f (b_db b) with
  | Ok (d, a) => _ ← smod (set_bdb d); mret a
  | Err msg => sfail (on_err msg)
  | Panic => lift Panic
  end.

(** [conn_pool.acquire().await?]. *)
Definition acquire : B () := b_call StorageError.from_sqlx.

(** [random_name] is the result of [random_profile_name], [new_key] that of
    [ProfileKey::new]. *)
Definition create_profile (rng : nat → bytes) (new_key : sres ProfileKey) (random_name : string)
    (name : option string) : B string :=
  let name := default random_name name in
  b ← sget;
  '(profile_key, enc_key) ← lift (
    profile_key ← new_key;
    enc_key ← encode_profile_key rng profile_key (cache_store_key (key_cache b));
    mret (profile_key, enc_key));
  _ ← acquire;
  done ← b_exec StorageError.from_sqlx (sql_insert_profile name enc_key);
  match done with
  | None => sfail (err_kind StorageError.Duplicate "Duplicate profile name")
  | Some id =>
      _ ← smod (λ b, set_bcache (add_profile name id profile_key (key_cache b)) b);
      mret name
  end.

(** [CONFIG_FETCH_QUERY] with [fetch_one]. *)
Definition sql_config_get (name : string) (d : Db) : res string (Db * string) :=
  match config_get name d with
  | Some v => Ok (d, v)
  | None => Err "no rows returned by a query that expected to return at least one row"
  end.

Definition get_default_profile : B string :=
  _ ← acquire;
  b_exec (backend_err "Error fetching default profile name") (sql_config_get "default_profile").

Definition set_default_profile (profile : string) : B () :=
  _ ← acquire;
  b_exec (backend_err "Error setting default profile name")
    (λ d, Ok (config_set "default_profile" profile d, ())).

Definition list_profiles : B (list string) :=
  _ ← acquire;
  b_exec (backend_err "Error fetching profile list") (λ d, Ok (d, List.map p_name (profiles d))).

Definition remove_profile (name : string) : B bool :=
  _ ← acquire;
  n ← b_exec (backend_err "Error removing profile") (sql_delete_profile name);
  mret (negb (n =? 0)%Z).

Definition backend_session (profile : option string) (transaction : bool) (b : SqliteBackend) : DbSession ProfileKey :=
  session_new (pool_is_closed (b_pool b)) (default (active_profile b) profile) transaction.

(** *** Rekeying *)

(** A transaction of the connection: dropped without commit it is rolled back. *)
Definition in_txn {A} (body : B A) : B A := λ b,
  match (_ ← b_call StorageError.from_sqlx; body) b with
  | (b1, Ok a) =>
      match b_call StorageError.from_sqlx b1 with
      | (b2, Ok _) => (b2, Ok a)
      | (b2, Err e) => (set_bdb (b_db b) b2, Err e)
      | (b2, Panic) => (b2, Panic)
      end
  | (b1, Err e) => (set_bdb (b_db b) b1, Err e)
  | (b1, Panic) => (b1, Panic)
  end.

(** The keys of all profiles, encrypted anew; [rngs] is the randomness for each. *)
Definition rewrap_keys (rngs : Z → nat → bytes) (c : KeyCache) (store_key : StoreKey) (rows : list ProfileRow)
    : sres (list (Z * bytes)) :=
  mapM (λ p,
    profile_key ← load_key c (p_key p);
    upd_key ← encode_profile_key (rngs (p_id p)) profile_key store_key;
    mret (p_id p, upd_key)) rows.

(** The order of a [BTreeMap]. *)
Fixpoint btree_insert (k : Z) (v : bytes) (l : list (Z * bytes)) : list (Z * bytes) :=
  match l with
  | [] => [(k, v)]
  | (k', v') :: l' =>
      if (k <? k')%Z then (k, v) :: l
      else if (k =? k')%Z then (k, v) :: l'
      else (k', v') :: btree_insert k v l'
  end.

Definition btree_of (l : list (Z * bytes)) : list (Z * bytes) :=
  foldl (λ m kv, btree_insert kv.1 kv.2 m) [] l.

Fixpoint update_keys (upd : list (Z * bytes)) : B () :=
  match upd with
  | [] => mret ()
  | (pid, key) :: upd' =>
      n ← b_exec StorageError.from_sqlx (sql_update_profile_key pid key);
      if negb (n =? 1)%Z then sfail (err_kind StorageError.Backend "Error updating profile key")
      else update_keys upd'
  end.

Definition rekey (rng : nat → bytes) (rngs : Z → nat → bytes) (method : StoreKeyMethod) (pass_key : PassKey) : B () :=
  '(store_key, store_key_ref) ← lift (method_resolve method rng (pass_into_owned pass_key));
  _ ← acquire;
  _ ← in_txn (
    rows ← b_exec StorageError.from_sqlx (λ d, Ok (d, profiles d));
    b ← sget;
    upd ← lift (rewrap_keys rngs (key_cache b) store_key rows);
    _ ← update_keys (btree_of upd);
    n ← b_exec StorageError.from_sqlx (λ d, Ok (config_update "key" (ref_into_uri store_key_ref) d));
    if negb (n =? 1)%Z then sfail (err_kind StorageError.Backend "Error updating store key") else mret ());
  smod (set_bcache (key_cache_new store_key)).

(** ** Creating and opening a store *)

(** A file: no tables yet, or the tables of a store. *)
Abbreviation File := (option Db).

(** [init_db] on an empty database: the tables and the key cache. *)
Definition init_db (rng : nat → bytes) (new_key : sres ProfileKey) (profile_name : string)
    (method : StoreKeyMethod) (pass_key : PassKey) : sres (Db * KeyCache) :=
  '(profile_key, enc_profile_key, store_key, store_key_ref) ←
    init_keys rng new_key method (pass_into_owned pass_key);
  let d := init_tables profile_name store_key_ref enc_profile_key in
  match sql_find_profile profile_name d with
  | Ok (d, Some (id, _)) => mret (d, add_profile profile_name id profile_key (key_cache_new store_key))
  | Ok (_, None) => Err (backend_err "Error checking for existing profile" "no rows returned")
  | Err msg => Err (backend_err "Error checking for existing profile" msg)
  | Panic => Panic
  end.

(** The loop over the configuration rows of [open_db]. *)
Fixpoint read_config (rows : list (string * string)) (default_profile key : option string) (ver_ok : bool)
    : sres (option string * option string * bool) :=
  match rows with
  | [] => Ok (default_profile, key, ver_ok)
  | (name, value) :: rows' =>
      if String.eqb name "default_profile" then read_config rows' (Some value) key ver_ok
      else if String.eqb name "key" then read_config rows' default_profile (Some value) ver_ok
      else if String.eqb name "version" then
        if String.eqb value "1" then read_config rows' default_profile key true
        else Err (unsupported "Unsupported store version")
      else read_config rows' default_profile key ver_ok
  end.

Definition open_db (d : Db) (method : option StoreKeyMethod) (pass_key : PassKey) (profile : option string)
    (path : string) : sres SqliteBackend :=
  '(default_profile, store_key_ref, ver_ok) ← read_config (config d) None None false;
  if negb ver_ok then Err (unsupported "Store version not found") else
  profile ← ok_or (match profile with Some p => Some p | None => default_profile end)
    (unsupported "Default store profile not found");
  store_key ← match store_key_ref with
    | Some store_key_ref =>
        wrap_ref ← ref_parse_uri store_key_ref;
        if match method with Some m => negb (compare_method wrap_ref m) | None => false end
        then Err (input_err "Store key method mismatch")
        else ref_resolve wrap_ref (pass_into_owned pass_key)
    | None => Err (unsupported "Store key not found")
    end;
  let key_cache := key_cache_new store_key in
  '(_, row) ← map_err StorageError.from_sqlx (sql_find_profile profile d);
  '(profile_id, enc_key) ← ok_or row (StorageError.from_sqlx "no rows returned by a query that expected to return at least one row");
  profile_key ← load_key key_cache enc_key;
  mret (mkBackend d (PoolOpen []) profile (add_profile profile profile_id profile_key key_cache) path).

(** [provision], on a file as [pool] finds or creates it, when removing it and
    connecting succeed. *)
Definition provision (rng : nat → bytes) (new_key : sres ProfileKey) (random_name : string)
    (in_memory : bool) (path : string) (file : File) (method : StoreKeyMethod) (pass_key : PassKey)
    (profile : option string) (recreate : bool) : sres SqliteBackend :=
  let file := if recreate && negb in_memory then None else file in
  match (if recreate then None else file) with
  | Some d => open_db d (Some method) pass_key profile path
  | None =>
      match file with
      | Some _ => Err (backend_err "Error creating database tables" "table config already exists")
      | None =>
          let default_profile := default random_name profile in
          '(d, key_cache) ← init_db rng new_key default_profile method pass_key;
          mret (mkBackend d (PoolOpen []) default_profile key_cache path)
      end
  end.

(** [open]: a missing file is not created. *)
Definition open_store (path : string) (file : File) (method : option StoreKeyMethod) (pass_key : PassKey)
    (profile : option string) : sres SqliteBackend :=
  match file with
  | None => Err (err_kind StorageError.NotFound "The requested database path was not found")
  | Some d => open_db d method pass_key profile path
  end.

End Backend.

(** ** Lemmas *)

Section BackendLemmas.
Context `{Allocator} `{HC : AeadCipher} {laws : CipherLaws} `{HS : StoreCodecs} {SL : StoreCodecLaws}.
Context `{HU : UriCodec} {UL : UriCodecLaws} `{HB : CborCodec}.

(** A profile key that survives serialization and can be encrypted. *)
Definition key_portable (pk : ProfileKey) : Prop :=
  ∃ b, cbor_to_vec pk = Ok b ∧ cbor_from_slice b = Ok pk ∧ (length b ≤ cipher_max)%nat.

Lemma from_secret_bytes_ok d k : chacha_from_secret_bytes d = Ok k → chacha_ok k.
Proof.
  unfold chacha_from_secret_bytes, array_from_slice. destruct (length d =? _)%nat eqn:E; [|done].
  cbn. intros [= <-]. by apply Nat.eqb_eq.
Qed.

Lemma method_resolve_ok method rng pass sk ref :
  (∀ n, length (rng n) = n) → method_resolve method rng pass = Ok (sk, ref) → store_key_ok sk.
Proof.
  assert (Hk : ∀ d k', (k ← from_cres (chacha_from_secret_bytes d); mret (mkStoreKey (Some k)) : sres _) = Ok k' →
    store_key_ok k').
  { intros d k' E. apply bind_ok_inv in E as (k & E & [= <-]).
    destruct (chacha_from_secret_bytes d) eqn:Ed; [|done..]. injection E as <-. by eapply from_secret_bytes_ok. }
  intros Hr. destruct method as [[l]| |]; cbn [method_resolve].
  - destruct (negb _); [|done]. intros E. bind_inv E. destruct a as [k d]. injection E as <- _.
    unfold derive_new_key in E0. bind_inv E0. injection E0 as <- _. unfold level_derive_key in E.
    bind_inv E. bind_inv E. by eapply Hk.
  - intros E. bind_inv E. injection E as <- _. destruct (negb (pass_is_empty pass)).
    + unfold parse_raw_store_key in E0. bind_inv E0. destruct (_ <? _)%nat; [done|].
      destruct (negb _); [done|]. by eapply Hk.
    + injection E0 as <-. apply Hr.
  - by intros [= <- _].
Qed.

Lemma pass_owned p : pass_into_owned p = p.
Proof. by destruct p as [[]]. Qed.

Lemma load_key_cache c1 c2 enc : cache_store_key c1 = cache_store_key c2 → load_key c1 enc = load_key c2 enc.
Proof. unfold load_key. by intros ->. Qed.

(** The keys of a new store. *)
Lemma init_keys_run rng pk method pass sk ref :
  (∀ n, length (rng n) = n) → key_portable pk →
  (method = StoreKeyMethod.RawKey → pass_is_empty pass = false) →
  method_resolve method rng pass = Ok (sk, ref) →
  ∃ enc, init_keys rng (Ok pk) method (pass_into_owned pass) = Ok (pk, enc, sk, ref_into_uri ref)
    ∧ load_key (key_cache_new sk) enc = Ok pk.
Proof.
  intros Hr (b & Eto & Efrom & Hb) Hraw Eres.
  destruct (load_encoded_key rng sk pk b Hr (method_resolve_ok _ _ _ _ _ Hr Eres) Eto Efrom Hb) as (enc & Eenc & Hload).
  exists enc. split; [|done]. rewrite pass_owned. unfold init_keys.
  assert (bool_decide (method = StoreKeyMethod.RawKey) && pass_is_empty pass = false) as ->.
  { case_bool_decide as Hm; [|done]. cbn. by apply Hraw. }
  rewrite Eres. run_bind. by rewrite Eenc.
Qed.

Lemma provision_run rng pk random_name in_memory path method pass profile sk ref :
  (∀ n, length (rng n) = n) → key_portable pk →
  (method = StoreKeyMethod.RawKey → pass_is_empty pass = false) →
  method_resolve method rng pass = Ok (sk, ref) →
  let name := default random_name profile in
  ∃ enc, let d := init_tables name (ref_into_uri ref) enc in
    provision rng (Ok pk) random_name in_memory path None method pass profile false
      = Ok (mkBackend d (PoolOpen []) name (add_profile name 1 pk (key_cache_new sk)) path)
    ∧ load_key (key_cache_new sk) enc = Ok pk.
Proof.
  intros Hr Hpk Hraw Eres name. destruct (init_keys_run rng pk method pass sk ref Hr Hpk Hraw Eres) as (enc & Ek & Hload).
  exists enc. split; [|done]. unfold provision. rewrite andb_false_l. unfold init_db. rewrite Ek. run_bind.
  by rewrite init_tables_find.
Qed.

Lemma open_run method pass profile path name uri enc sk ref pk m :
  ref_parse_uri uri = Ok ref → match m with Some m => compare_method ref m = true | None => True end →
  ref_resolve ref pass = Ok sk → load_key (key_cache_new sk) enc = Ok pk →
  default name profile = name → method = m →
  open_store path (Some (init_tables name uri enc)) method pass profile
  = Ok (mkBackend (init_tables name uri enc) (PoolOpen []) name (add_profile name 1 pk (key_cache_new sk)) path).
Proof.
  intros Eu Hm Er El Hp ->. unfold open_store, open_db. cbn [config init_tables read_config].
  cbn [String.eqb Ascii.eqb Bool.eqb mbind res_bind negb].
  assert (Ep : match profile with Some p => Some p | None => Some name end = Some name)
    by (destruct profile; cbn in Hp; by subst). rewrite Ep. cbn [ok_or mbind res_bind].
  rewrite Eu. run_bind.
  assert (Eb : match m with Some m => negb (compare_method ref m) | None => false end = false)
    by (destruct m; [by rewrite Hm|done]).
  rewrite Eb, pass_owned, Er. run_bind.
  change (mkDb _ _ _ _) with (init_tables name uri enc). rewrite init_tables_find. cbn [map_err mbind res_bind ok_or].
  by rewrite El.
Qed.

(** *** Statements of the backend *)

Lemma b_exec_ok {A} on_err (f : Db → res string (Db * A)) b d a :
  b_pool b = PoolOpen [] → f (b_db b) = Ok (d, a) → b_exec on_err f b = (set_bdb d b, Ok a).
Proof.
  destruct b as [d0 fs ap c pa]. cbn. intros -> E. unfold b_exec, mbind, stm_bind, b_call, sget. cbn. by rewrite E.
Qed.

Lemma acquire_ok b : b_pool b = PoolOpen [] → acquire b = (b, Ok ()).
Proof. destruct b as [d0 fs ap c pa]. cbn. by intros ->. Qed.

Lemma b_lift_ok {A} (r : sres A) a (b : SqliteBackend) : r = Ok a → lift r b = (b, Ok a).
Proof. by intros ->. Qed.

Lemma in_txn_ok {A} (body : stm SqliteBackend StorageError.Error A) b b1 a :
  b_pool b = PoolOpen [] → body b = (b1, Ok a) → b_pool b1 = PoolOpen [] → in_txn body b = (b1, Ok a).
Proof.
  intros Hf Hb Hf1. unfold in_txn. rewrite (stm_bind_ok _ _ b b ()); [|by unfold b_call; rewrite Hf].
  rewrite Hb. unfold b_call. by rewrite Hf1.
Qed.

(** Nothing but the tables and the faults to come changes. *)
Definition keeps {A} (m : stm SqliteBackend StorageError.Error A) : Prop :=
  ∀ b, key_cache (m b).1 = key_cache b ∧ active_profile (m b).1 = active_profile b.

Lemma keeps_bind {A C} (m : stm SqliteBackend StorageError.Error A) (f : A → stm SqliteBackend StorageError.Error C) :
  keeps m → (∀ a, keeps (f a)) → keeps (a ← m; f a).
Proof.
  intros Hm Hf b. unfold mbind, stm_bind. destruct (Hm b) as [H1 H2].
  destruct (m b) as [b1 [a|e|]]; cbn in *; [|done..]. destruct (Hf a b1) as [G1 G2]. by rewrite G1, G2.
Qed.

Lemma keeps_call e : keeps (b_call e).
Proof. intros [d [[|[m|] fs]|] ap c pa]; done. Qed.

Lemma keeps_exec {A} e (f : Db → res string (Db * A)) : keeps (b_exec e f).
Proof.
  apply keeps_bind; [apply keeps_call|]. intros _ [d fs ap c pa]. unfold mbind, stm_bind, sget. cbn.
  by destruct (f d) as [[]| |].
Qed.

Lemma keeps_update_keys upd : keeps (update_keys upd).
Proof.
  induction upd as [|[pid key] upd IH]; [done|]. cbn. apply keeps_bind; [apply keeps_exec|].
  intros n. by destruct (negb _).
Qed.

Lemma in_txn_err {A} (body : stm SqliteBackend StorageError.Error A) b b' e :
  keeps body → in_txn body b = (b', Err e) → b_db b' = b_db b ∧ key_cache b' = key_cache b.
Proof.
  intros Hk E. unfold in_txn in E.
  pose proof (keeps_bind _ _ (keeps_call StorageError.from_sqlx) (λ _, Hk) b) as [Hc _].
  destruct ((_ ← _; body) b) as [b1 [a|e1|]]; cbn in Hc; [| |done].
  - pose proof (keeps_call StorageError.from_sqlx b1) as [Hc1 _].
    destruct (b_call _ b1) as [b2 [[]|e2|]]; [done| |done]. injection E as <- _. cbn in *. by rewrite Hc1.
  - injection E as <- _. by split.
Qed.

(** *** Rekeying *)

Definition assoc (upd : list (Z * bytes)) (pid : Z) : option bytes :=
  snd <$> List.find (λ kv, bool_decide (kv.1 = pid)) upd.

Definition rekeyed (upd : list (Z * bytes)) (p : ProfileRow) : ProfileRow :=
  mkProfile (p_id p) (p_name p) (default (p_key p) (assoc upd (p_id p))).

Lemma assoc_none upd pid : pid ∉ upd.*1 → assoc upd pid = None.
Proof.
  induction upd as [|[i k] upd IH]; [done|]. intros [Hne Hni]%not_elem_of_cons. unfold assoc in *. cbn in *.
  by rewrite bool_decide_false, IH.
Qed.

Lemma assoc_some upd pid k : NoDup upd.*1 → (pid, k) ∈ upd → assoc upd pid = Some k.
Proof.
  induction upd as [|[i k'] upd IH]; [by intros _ ?%elem_of_nil|]. cbn. intros [Hn Hd]%NoDup_cons.
  intros [[= <- <-]|Hin]%elem_of_cons; unfold assoc in *; cbn.
  - by rewrite bool_decide_true.
  - rewrite bool_decide_false; [by apply IH|]. intros ->. apply Hn.
    change pid with (pid, k).1. by apply list_elem_of_fmap_2.
Qed.

Lemma update_profile_count pid l :
  NoDup (List.map p_id l) → pid ∈ List.map p_id l →
  length (List.filter (λ p, bool_decide (p_id p = pid)) l) = 1%nat.
Proof.
  induction l as [|p l IH]; [by intros _ ?%elem_of_nil|]. cbn. intros [Hn Hd]%NoDup_cons.
  intros [->|Hin]%elem_of_cons.
  - rewrite bool_decide_true by done. cbn. f_equal.
    destruct (List.filter _ l) as [|q qs] eqn:E; [done|].
    assert (Hq : List.In q (List.filter (λ q, bool_decide (p_id q = p_id p)) l)) by (rewrite E; left; done).
    apply List.filter_In in Hq as [Hq Hid%bool_decide_eq_true]. exfalso. apply Hn. rewrite <- Hid.
    apply list_elem_of_fmap_2. by apply list_elem_of_In.
  - rewrite bool_decide_false; [by apply IH|]. intros E. apply Hn. by rewrite E.
Qed.

(** One update after another. *)
Lemma rekeyed_step pid key upd l :
  pid ∉ upd.*1 →
  List.map (rekeyed upd) (List.map (λ p, if bool_decide (p_id p = pid) then mkProfile (p_id p) (p_name p) key else p) l)
  = List.map (rekeyed ((pid, key) :: upd)) l.
Proof.
  intros Hni. rewrite List.map_map. apply List.map_ext. intros p. unfold rekeyed, assoc. cbn.
  destruct (decide (p_id p = pid)) as [<-|Hne].
  - rewrite !bool_decide_true by done. cbn. fold (assoc upd (p_id p)). by rewrite assoc_none.
  - by rewrite !bool_decide_false by done.
Qed.

Lemma rekeyed_nil l : List.map (rekeyed []) l = l.
Proof. unfold rekeyed. cbn. rewrite (List.map_ext _ id), List.map_id; [done|by intros []]. Qed.

Lemma update_keys_run upd : ∀ b,
  b_pool b = PoolOpen [] → NoDup (List.map p_id (profiles (b_db b))) →
  (∀ pid, pid ∈ upd.*1 → pid ∈ List.map p_id (profiles (b_db b))) → NoDup upd.*1 →
  update_keys upd b
  = (set_bdb (set_profiles (List.map (rekeyed upd) (profiles (b_db b))) (b_db b)) b, Ok ()).
Proof.
  induction upd as [|[pid key] upd IH]; intros b Hf Hnd Hin Hu.
  - rewrite rekeyed_nil. by destruct b as [[] fs ap c pa].
  - cbn [update_keys]. apply NoDup_cons in Hu as [Hni Hu].
    erewrite stm_bind_ok; [|apply b_exec_ok; [done|reflexivity]].
    rewrite update_profile_count; [|done|apply Hin; left]. cbn [Z.of_nat Pos.of_succ_nat].
    change (negb (1 =? 1)%Z) with false. cbv iota.
    set (d1 := set_profiles _ _). assert (Hids : List.map p_id (profiles d1) = List.map p_id (profiles (b_db b))).
    { cbn. rewrite List.map_map. apply List.map_ext. intros p. by case_bool_decide. }
    rewrite IH; [|done|cbn [b_db set_bdb]; by rewrite Hids| |done].
    + cbn. by rewrite rekeyed_step.
    + intros i Hi. cbn [b_db set_bdb]. rewrite Hids. apply Hin. by right.
Qed.

(** The tree holds what was inserted. *)
Lemma btree_insert_perm k v l : k ∉ l.*1 → btree_insert k v l ≡ₚ (k, v) :: l.
Proof.
  induction l as [|[k' v'] l IH]; [done|]. cbn. intros [Hne Hni]%not_elem_of_cons.
  destruct (k <? k')%Z; [done|]. rewrite (proj2 (Z.eqb_neq _ _)) by done. rewrite IH by done. apply Permutation_swap.
Qed.

Lemma btree_of_perm l : NoDup l.*1 → btree_of l ≡ₚ l.
Proof.
  unfold btree_of.
  assert (Hg : ∀ l m, NoDup (m ++ l).*1 → foldl (λ m kv, btree_insert kv.1 kv.2 m) m l ≡ₚ m ++ l).
  { clear l. induction l as [|[k v] l IH]; intros m Hnd; cbn; [by rewrite app_nil_r|].
    rewrite fmap_app in Hnd. cbn in Hnd. pose proof Hnd as (Hm & Hd & Hl)%NoDup_app.
    assert (Hk : k ∉ m.*1) by (intros Hk; apply (Hd k Hk); left).
    assert (Hp : btree_insert k v m ≡ₚ m ++ [(k, v)])
      by (rewrite btree_insert_perm by done; apply Permutation_cons_append).
    rewrite IH; [by rewrite Hp, <- app_assoc|]. rewrite fmap_app, Hp, fmap_app, <- app_assoc. exact Hnd. }
  intros Hnd. by apply (Hg l []).
Qed.

(** Every profile key of the store can be read with the cache's store key. *)
Definition keys_readable (c : KeyCache) (d : Db) (key_of : ProfileRow → ProfileKey) : Prop :=
  ∀ p, p ∈ profiles d → load_key c (p_key p) = Ok (key_of p) ∧ key_portable (key_of p).

Lemma rewrap_run rngs c sk key_of rows :
  (∀ i n, length (rngs i n) = n) → store_key_ok sk →
  (∀ p, p ∈ rows → load_key c (p_key p) = Ok (key_of p) ∧ key_portable (key_of p)) →
  ∃ upd, rewrap_keys rngs c sk rows = Ok upd ∧ upd.*1 = List.map p_id rows
    ∧ ∀ p, p ∈ rows → ∃ enc, (p_id p, enc) ∈ upd ∧ load_key (key_cache_new sk) enc = Ok (key_of p).
Proof.
  intros Hr Hsk. induction rows as [|p rows IH]; intros Hk.
  - exists []. split_and!; [done..|]. by intros p ?%elem_of_nil.
  - destruct (Hk p) as [El (b & Eto & Efrom & Hb)]; [left|].
    destruct (load_encoded_key (rngs (p_id p)) sk (key_of p) b (Hr _) Hsk Eto Efrom Hb) as (enc & Eenc & Hload).
    destruct IH as (upd & Eu & Hids & Hall); [intros q Hq; apply Hk; by right|].
    exists ((p_id p, enc) :: upd). unfold rewrap_keys in *. rewrite mapM_cons, El. run_bind.
    rewrite Eenc. run_bind. rewrite Eu. split_and!; [done| |].
    + cbn. by rewrite Hids.
    + intros q [->|Hq]%elem_of_cons; [exists enc; split; [left|done]|].
      destruct (Hall q Hq) as (e & He & Hl). exists e. split; [by right|done].
Qed.

(** The configuration of a store: one row each. *)
Lemma config_update_count name u (l : list (string * string)) v :
  NoDup l.*1 → snd <$> List.find (λ c, String.eqb (fst c) name) l = Some v →
  length (List.filter (λ c, String.eqb (fst c) name) l) = 1%nat
  ∧ snd <$> List.find (λ c, String.eqb (fst c) name)
      (List.map (λ c, if String.eqb (fst c) name then (name, u) else c) l) = Some u.
Proof.
  induction l as [|[n w] l IH]; [done|]. cbn. intros [Hn Hd]%NoDup_cons.
  destruct (String.eqb_spec n name) as [->|Hne]; cbn.
  - intros _. rewrite String.eqb_refl. split; [|done]. f_equal.
    destruct (List.filter _ l) as [|q qs] eqn:E; [done|].
    assert (Hq : List.In q (List.filter (λ c, String.eqb (fst c) name) l)) by (rewrite E; left; done).
    apply List.filter_In in Hq as [Hq Hid%String.eqb_eq]. exfalso. apply Hn. rewrite <- Hid.
    apply list_elem_of_fmap_2. by apply list_elem_of_In.
  - intros Hf. destruct (IH Hd Hf) as [H1 H2]. split; [done|]. by rewrite (proj2 (String.eqb_neq _ _)).
Qed.

Lemma read_config_rekeyed u l : ∀ dp k1 k2 v dp' k' v',
  read_config l dp k1 v = Ok (dp', k', v') →
  read_config (List.map (λ c, if String.eqb (fst c) "key" then ("key", u) else c) l) dp k2 v
  = Ok (dp', if existsb (λ c, String.eqb (fst c) "key") l then Some u else k2, v').
Proof.
  induction l as [|[n w] l IH]; intros dp k1 k2 v dp' k' v' E.
  - by injection E as <- <- <-.
  - cbn [List.map existsb fst] in *. cbn [read_config] in E.
    destruct (String.eqb_spec n "key") as [->|Hne]; cbn [orb].
    + change (read_config l dp (Some w) v = Ok (dp', k', v')) in E.
      etransitivity; [exact (IH _ _ (Some u) _ _ _ _ E)|]. by destruct (existsb _ l).
    + cbn [read_config]. rewrite (proj2 (String.eqb_neq n "key")) by done.
      destruct (String.eqb n "default_profile"); [by eapply IH|].
      destruct (String.eqb n "version"); [|by eapply IH]. destruct (String.eqb w "1"); [by eapply IH|done].
Qed.

(** The configuration written by [init_db], whatever the values. *)
Definition config_ok (d : Db) : Prop :=
  NoDup (config d).*1 ∧ is_Some (config_get "key" d)
  ∧ ∃ dp k, read_config (config d) None None false = Ok (Some dp, k, true).

Lemma rekey_run rng rngs method pass b sk ref key_of :
  b_pool b = PoolOpen [] → db_wf (b_db b) → config_ok (b_db b) → keys_readable (key_cache b) (b_db b) key_of →
  (∀ n, length (rng n) = n) → (∀ i n, length (rngs i n) = n) →
  method_resolve method rng pass = Ok (sk, ref) →
  ∃ upd, rekey rng rngs method pass b
    = (mkBackend (mkDb (config_update "key" (ref_into_uri ref) (b_db b)).1.(config)
          (List.map (rekeyed upd) (profiles (b_db b))) (items (b_db b)) (items_tags (b_db b)))
        (PoolOpen []) (active_profile b) (key_cache_new sk) (b_path b), Ok ())
    ∧ ∀ p, p ∈ profiles (b_db b) →
        load_key (key_cache_new sk) (p_key (rekeyed upd p)) = Ok (key_of p).
Proof.
  intros Hf Hwf (Hcn & [v Hcv] & _) Hk Hr Hrs Eres.
  destruct (rewrap_run rngs (key_cache b) sk key_of (profiles (b_db b)) Hrs
    (method_resolve_ok _ _ _ _ _ Hr Eres) Hk) as (upd & Eu & Hids & Hall).
  assert (Hnd : NoDup upd.*1) by (rewrite Hids; apply Hwf).
  pose proof (btree_of_perm upd Hnd) as Hp. exists (btree_of upd). split.
  - unfold rekey. rewrite pass_owned. rewrite (stm_bind_ok _ _ _ _ _ (b_lift_ok _ _ b Eres)). cbv beta iota.
    rewrite (stm_bind_ok _ _ _ _ _ (acquire_ok b Hf)).
    destruct (config_update_count "key" (ref_into_uri ref) (config (b_db b)) v Hcn Hcv) as [Hc1 _].
    set (b1 := set_bdb (mkDb (config_update "key" (ref_into_uri ref) (b_db b)).1.(config)
      (List.map (rekeyed (btree_of upd)) (profiles (b_db b))) (items (b_db b)) (items_tags (b_db b))) b).
    rewrite (stm_bind_ok (in_txn _) _ b b1 ()).
    { unfold smod, set_bcache, b1, set_bdb. cbn. by rewrite Hf. }
    apply in_txn_ok; [done| |done].
    erewrite stm_bind_ok; [|apply b_exec_ok; [done|reflexivity]].
    rewrite (stm_bind_ok sget _ _ (set_bdb (b_db b) b) _ eq_refl). cbn [key_cache set_bdb].
    rewrite (stm_bind_ok _ _ _ _ _ (b_lift_ok _ _ _ Eu)).
    erewrite stm_bind_ok; [|apply update_keys_run; [done|apply Hwf| |]].
    + erewrite stm_bind_ok; [|apply b_exec_ok; [done|reflexivity]].
      cbn [config_update b_db set_bdb config set_profiles]. rewrite Hc1. reflexivity.
    + intros pid. by rewrite Hp, Hids.
    + by rewrite Hp.
  - intros p Hin. destruct (Hall p Hin) as (enc & He & Hl). unfold rekeyed. cbn.
    rewrite (assoc_some _ _ enc); [done|by rewrite Hp|by rewrite Hp].
Qed.

Lemma find_rekeyed upd p l :
  NoDup (List.map p_name l) → p ∈ l →
  List.find (λ q, String.eqb (p_name q) (p_name p)) (List.map (rekeyed upd) l) = Some (rekeyed upd p).
Proof.
  induction l as [|q l IH]; [by intros _ ?%elem_of_nil|]. cbn. intros [Hn Hd]%NoDup_cons.
  intros [->|Hin]%elem_of_cons; [by rewrite String.eqb_refl|].
  rewrite (proj2 (String.eqb_neq _ _)); [by apply IH|]. intros E. apply Hn. rewrite E. by apply list_elem_of_fmap_2.
Qed.

Lemma config_key_exists d : is_Some (config_get "key" d) → existsb (λ c, String.eqb (fst c) "key") (config d) = true.
Proof.
  intros [v Hv]. unfold config_get in Hv. destruct (List.find _ (config d)) as [c|] eqn:E; [|done].
  apply find_some in E as [Hin Hc]. apply existsb_exists. eauto.
Qed.

Lemma open_rekeyed rng method pass d upd p dp k pk sk ref path :
  db_wf d → read_config (config d) None None false = Ok (Some dp, k, true) → is_Some (config_get "key" d) →
  p ∈ profiles d → (∀ n, length (rng n) = n) →
  (method = StoreKeyMethod.RawKey → pass_is_empty pass = false) →
  method_resolve method rng pass = Ok (sk, ref) →
  load_key (key_cache_new sk) (p_key (rekeyed upd p)) = Ok pk →
  let d' := mkDb (config_update "key" (ref_into_uri ref) d).1.(config)
    (List.map (rekeyed upd) (profiles d)) (items d) (items_tags d) in
  open_db d' (Some method) pass (Some (p_name p)) path
  = Ok (mkBackend d' (PoolOpen []) (p_name p) (add_profile (p_name p) (p_id p) pk (key_cache_new sk)) path).
Proof.
  intros Hwf Hc Hkey Hin Hr Hraw Eres Hload d'.
  destruct (resolve_reopen method rng pass sk ref Hr Hraw Eres) as (ref' & Eu & Hm & Ers).
  unfold open_db. cbn [config config_update set_config d' fst].
  rewrite (read_config_rekeyed _ _ _ _ None _ _ _ _ Hc), config_key_exists by done.
  cbn [mbind res_bind negb ok_or]. rewrite Eu. run_bind. rewrite Hm, pass_owned, Ers. cbn [mbind res_bind negb].
  unfold sql_find_profile. cbn [profiles d']. rewrite find_rekeyed by (done || apply Hwf).
  cbn [mbind option_bind res_bind map_err ok_or]. by rewrite Hload.
Qed.

End BackendLemmas.

(** ** Examples of the serialization and of a store *)

(** Six keys of 32 bytes, one after the other. *)
Definition toy_cbor : CborCodec := {|
  cbor_to_vec pk := Ok (chacha_bytes (category_key pk) ++ chacha_bytes (name_key pk)
    ++ hmac_key_bytes (item_hmac_key pk) ++ chacha_bytes (tag_name_key pk)
    ++ chacha_bytes (tag_value_key pk) ++ hmac_key_bytes (tags_hmac_key pk));
  cbor_from_slice b := Ok (mkProfileKey (mkChacha (take 32 b)) (mkChacha (take 32 (drop 32 b)))
    (mkHmacKey (take 32 (drop 64 b))) (mkChacha (take 32 (drop 96 b)))
    (mkChacha (take 32 (drop 128 b))) (mkHmacKey (drop 160 b)));
|}.

Lemma toy_key_portable : @key_portable toy_cipher toy_cipher_laws toy_cbor toy_profile_key.
Proof. eexists. split_and!; [reflexivity|reflexivity|]. vm_compute. lia. Qed.

(** ** Properties *)

Section Properties.
Context `{Allocator} `{HC : AeadCipher} {laws : CipherLaws} `{HS : StoreCodecs} {SL : StoreCodecLaws}.
Context `{HU : UriCodec} {UL : UriCodecLaws} `{HB : CborCodec}.

(** A new store can be opened again: provisioning writes tables that satisfy
    their invariant and hold the profile, and opening them with the same pass
    key, by the same method or without naming one, yields a backend with the
    same profile key. *)
Theorem provision_open rng pk random_name in_memory path method pass profile sk ref m :
  (∀ n, length (rng n) = n) → key_portable pk →
  (method = StoreKeyMethod.RawKey → pass_is_empty pass = false) →
  method_resolve method rng pass = Ok (sk, ref) → m = None ∨ m = Some method →
  ∃ b, provision rng (Ok pk) random_name in_memory path None method pass profile false = Ok b
    ∧ db_wf (b_db b) ∧ active_profile b = default random_name profile
    ∧ get_profile (active_profile b) (key_cache b) = Some (1%Z, pk)
    ∧ open_store path (Some (b_db b)) m pass profile = Ok b.
Proof.
  intros Hr Hpk Hraw Eres Hm.
  destruct (provision_run rng pk random_name in_memory path method pass profile sk ref Hr Hpk Hraw Eres)
    as (enc & Ep & Hload).
  destruct (resolve_reopen method rng pass sk ref Hr Hraw Eres) as (ref' & Eu & Hc & Ers).
  eexists. split_and!; [exact Ep|cbn; auto with wf|done| |].
  - unfold get_profile, add_profile. cbn. apply lookup_insert_eq.
  - apply (open_run m pass profile path _ _ _ sk ref' pk m); try done.
    + destruct Hm as [->| ->]; done.
    + by destruct profile.
Qed.

(** Rekeying replaces the key every profile key is stored under and nothing
    else: afterwards the store opens with the new pass key, and every profile
    has the profile key it had before. *)
Theorem rekey_reopen rng rngs method pass b sk ref key_of path :
  b_pool b = PoolOpen [] → db_wf (b_db b) → config_ok (b_db b) → keys_readable (key_cache b) (b_db b) key_of →
  (∀ n, length (rng n) = n) → (∀ i n, length (rngs i n) = n) →
  (method = StoreKeyMethod.RawKey → pass_is_empty pass = false) →
  method_resolve method rng pass = Ok (sk, ref) →
  ∃ b', rekey rng rngs method pass b = (b', Ok ())
    ∧ items (b_db b') = items (b_db b) ∧ items_tags (b_db b') = items_tags (b_db b)
    ∧ ∀ p, p ∈ profiles (b_db b) →
        ∃ b'', open_db (b_db b') (Some method) pass (Some (p_name p)) path = Ok b''
          ∧ get_profile (p_name p) (key_cache b'') = Some (p_id p, key_of p).
Proof.
  intros Hf Hwf Hc Hk Hr Hrs Hraw Eres.
  destruct (rekey_run rng rngs method pass b sk ref key_of Hf Hwf Hc Hk Hr Hrs Eres) as (upd & E & Hload).
  destruct Hc as (_ & Hkey & dp & k & Hrc).
  eexists. split_and!; [exact E|done|done|]. intros p Hp. eexists. split.
  - apply (open_rekeyed rng method pass (b_db b) upd p dp k (key_of p) sk ref path Hwf Hrc Hkey Hp Hr Hraw Eres
      (Hload p Hp)).
  - unfold get_profile, add_profile. cbn. apply lookup_insert_eq.
Qed.

Lemma rekey_fails rng rngs method pass b b' e :
  rekey rng rngs method pass b = (b', Err e) → b_db b' = b_db b ∧ key_cache b' = key_cache b.
Proof.
  unfold rekey. unfold mbind at 1, stm_bind at 1, lift at 1.
  destruct (method_resolve _ _ _) as [[sk ref]|e1|]; [|by intros [= <- _]|done].
  unfold mbind at 1, stm_bind at 1, acquire.
  pose proof (keeps_call StorageError.from_sqlx b) as [Hc _].
  assert (Hd : b_db (b_call StorageError.from_sqlx b).1 = b_db b)
    by (destruct b as [d [[|[?|] fs]|] ap c pa]; done).
  destruct (b_call _ b) as [b1 [[]|e1|]]; cbn in Hc, Hd; [|by intros [= <- _]|done].
  unfold mbind at 1, stm_bind at 1. match goal with |- context [in_txn ?m b1] => set (body := m) end.
  destruct (in_txn body b1) as [b2 [[]|e2|]] eqn:Et; [done| |done].
  intros [= <- _]. rewrite <- Hd, <- Hc. revert Et. apply in_txn_err.
  apply keeps_bind; [apply keeps_exec|]. intros rows. apply keeps_bind; [done|]. intros b0.
  apply keeps_bind; [done|]. intros upd. apply keeps_bind; [apply keeps_update_keys|]. intros _.
  apply keeps_bind; [apply keeps_exec|]. intros n. by destruct (negb _).
Qed.

(** Rekeying is all or nothing: whatever goes wrong, and whenever, the tables
    and the cached keys are as before. *)
Theorem rekey_atomic rng rngs method pass b b' e :
  rekey rng rngs method pass b = (b', Err e) → b_db b' = b_db b ∧ key_cache b' = key_cache b.
Proof. apply rekey_fails. Qed.

Lemma create_profile_unfold rng pk random_name name b enc :
  b_pool b = PoolOpen [] → encode_profile_key rng pk (cache_store_key (key_cache b)) = Ok enc →
  let n := default random_name name in
  create_profile rng (Ok pk) random_name name b
  = match sql_insert_profile n enc (b_db b) with
    | Ok (d', None) => (set_bdb d' b, Err (err_kind StorageError.Duplicate "Duplicate profile name"))
    | Ok (d', Some id) => (set_bcache (add_profile n id pk (key_cache b)) (set_bdb d' b), Ok n)
    | Err msg => (b, Err (StorageError.from_sqlx msg))
    | Panic => (b, Panic)
    end.
Proof.
  intros Hf Eenc n. unfold create_profile. rewrite (stm_bind_ok sget _ b b b eq_refl).
  erewrite stm_bind_ok; [|apply b_lift_ok; rewrite (bind_ok (Ok pk) _ _ eq_refl), (bind_ok _ _ _ Eenc); reflexivity].
  cbv beta iota. rewrite (stm_bind_ok _ _ _ _ _ (acquire_ok b Hf)). fold n.
  assert (∃ d' o, sql_insert_profile n enc (b_db b) = Ok (d', o)) as (d' & o & E).
  { unfold sql_insert_profile. case_match; eauto. }
  rewrite E, (stm_bind_ok _ _ _ _ _ (b_exec_ok _ _ b _ _ Hf E)). by destruct o.
Qed.

Lemma existsb_name_false name (l : list ProfileRow) :
  name ∉ List.map p_name l → existsb (λ p, String.eqb (p_name p) name) l = false.
Proof.
  intros Hn. apply not_true_iff_false. intros (p & Hp & <-%String.eqb_eq)%existsb_exists.
  apply Hn. apply list_elem_of_fmap_2, list_elem_of_In, Hp.
Qed.

Lemma filter_last_name name (l : list ProfileRow) row :
  name ∉ List.map p_name l → p_name row = name →
  List.filter (λ p, negb (String.eqb (p_name p) name)) (l ++ [row]) = l.
Proof.
  intros Hn Hr. induction l as [|p l IH]; cbn.
  - by rewrite Hr, String.eqb_refl.
  - cbn in Hn. apply not_elem_of_cons in Hn as [Hp Hn].
    rewrite (proj2 (String.eqb_neq _ _)) by congruence. cbn. f_equal. by apply IH.
Qed.

(** A new name: the profile takes the next identifier. *)
Lemma create_run rng pk random_name name b :
  b_pool b = PoolOpen [] → (∀ n, length (rng n) = n) → store_key_ok (cache_store_key (key_cache b)) →
  key_portable pk → name ∉ List.map p_name (profiles (b_db b)) →
  let id := next_id (List.map p_id (profiles (b_db b))) in
  ∃ enc, create_profile rng (Ok pk) random_name (Some name) b
    = (set_bcache (add_profile name id pk (key_cache b))
        (set_bdb (set_profiles (profiles (b_db b) ++ [mkProfile id name enc]) (b_db b)) b), Ok name)
    ∧ load_key (key_cache b) enc = Ok pk.
Proof.
  intros Hf Hr Hsk (x & Eto & Efrom & Hx) Hn id.
  destruct (load_encoded_key rng _ pk x Hr Hsk Eto Efrom Hx) as (enc & Eenc & Hload). exists enc.
  split; [|exact Hload]. erewrite create_profile_unfold by done. unfold sql_insert_profile. cbn [default from_option id].
  by rewrite existsb_name_false by done.
Qed.

Lemma remove_run name b :
  b_pool b = PoolOpen [] → db_wf (b_db b) →
  ∃ d, remove_profile name b
      = (set_bdb d b, Ok (existsb (λ p, String.eqb (p_name p) name) (profiles (b_db b))))
    ∧ profiles d = List.filter (λ p, negb (String.eqb (p_name p) name)) (profiles (b_db b))
    ∧ db_wf d ∧ ∀ k, view d k
        = if existsb (λ p, String.eqb (p_name p) name && bool_decide (p_id p = k.1.1.1)) (profiles (b_db b))
          then None else view (b_db b) k.
Proof.
  intros Hf Hwf. destruct (delete_profile_spec name (b_db b) Hwf) as (d' & n & E & Hn & Hwf' & Hp & Hv).
  exists d'. split; [|done]. unfold remove_profile. rewrite (stm_bind_ok _ _ _ _ _ (acquire_ok b Hf)).
  rewrite (stm_bind_ok _ _ _ _ _ (b_exec_ok _ _ b _ _ Hf E)). by rewrite <- Hn.
Qed.

Lemma create_profile_spec rng pk random_name name b :
  b_pool b = PoolOpen [] → db_wf (b_db b) → (∀ n, length (rng n) = n) →
  store_key_ok (cache_store_key (key_cache b)) → key_portable pk →
  let n := default random_name name in
  if existsb (λ p, String.eqb (p_name p) n) (profiles (b_db b)) then
    create_profile rng (Ok pk) random_name name b = (b, Err (err_kind StorageError.Duplicate "Duplicate profile name"))
  else ∃ b' id enc, create_profile rng (Ok pk) random_name name b = (b', Ok n)
    ∧ db_wf (b_db b') ∧ items (b_db b') = items (b_db b)
    ∧ profiles (b_db b') = profiles (b_db b) ++ [mkProfile id n enc]
    ∧ load_key (key_cache b') enc = Ok pk
    ∧ get_profile n (key_cache b') = Some (id, pk)
    ∧ Forall (λ r, i_profile r ≠ id) (items (b_db b)).
Proof.
  intros Hf Hwf Hr Hsk (x & Eto & Efrom & Hx) n.
  destruct (load_encoded_key rng _ pk x Hr Hsk Eto Efrom Hx) as (enc & Eenc & Hload).
  pose proof (insert_profile_spec n enc (b_db b) Hwf) as Hins.
  rewrite (create_profile_unfold rng pk random_name name b enc Hf Eenc). fold n.
  unfold sql_insert_profile in *. destruct (existsb _ (profiles (b_db b))) eqn:Hex.
  - by destruct b as [[] fs ap c pa].
  - destruct Hins as (Hwf' & _ & _ & _ & _ & Hfresh). eexists _, _, enc.
    split_and!; [reflexivity|done|done|done|done|apply lookup_insert_eq|done].
Qed.

(** A new profile starts empty, has its own key in the cache, and leaves the
    entries and profiles of the store as they were; a name in use is refused and
    nothing changes. *)
Theorem create_profile_correct rng pk random_name name b :
  b_pool b = PoolOpen [] → db_wf (b_db b) → (∀ n, length (rng n) = n) →
  store_key_ok (cache_store_key (key_cache b)) → key_portable pk →
  let n := default random_name name in
  if existsb (λ p, String.eqb (p_name p) n) (profiles (b_db b)) then
    create_profile rng (Ok pk) random_name name b = (b, Err (err_kind StorageError.Duplicate "Duplicate profile name"))
  else ∃ b' id enc, create_profile rng (Ok pk) random_name name b = (b', Ok n)
    ∧ db_wf (b_db b') ∧ items (b_db b') = items (b_db b)
    ∧ profiles (b_db b') = profiles (b_db b) ++ [mkProfile id n enc]
    ∧ load_key (key_cache b') enc = Ok pk
    ∧ get_profile n (key_cache b') = Some (id, pk)
    ∧ Forall (λ r, i_profile r ≠ id) (items (b_db b)).
Proof. apply create_profile_spec. Qed.

(** Removing a profile removes it with its entries and their tags, and nothing
    else: the entries of the other profiles are as before, the tables keep their
    invariant, and the result says whether there was such a profile. *)
Theorem remove_profile_correct name b :
  b_pool b = PoolOpen [] → db_wf (b_db b) →
  ∃ b', remove_profile name b
      = (b', Ok (existsb (λ p, String.eqb (p_name p) name) (profiles (b_db b))))
    ∧ db_wf (b_db b') ∧ key_cache b' = key_cache b
    ∧ profiles (b_db b') = List.filter (λ p, negb (String.eqb (p_name p) name)) (profiles (b_db b))
    ∧ ∀ k, view (b_db b') k
        = if existsb (λ p, String.eqb (p_name p) name && bool_decide (p_id p = k.1.1.1)) (profiles (b_db b))
          then None else view (b_db b) k.
Proof.
  intros Hf Hwf. destruct (delete_profile_spec name (b_db b) Hwf) as (d' & n & E & Hn & Hwf' & Hp & Hv).
  exists (set_bdb d' b). unfold remove_profile. rewrite (stm_bind_ok _ _ _ _ _ (acquire_ok b Hf)).
  rewrite (stm_bind_ok _ _ _ _ _ (b_exec_ok _ _ b _ _ Hf E)).
  split_and!; [|done|done|done|done]. by rewrite <- Hn.
Qed.

End Properties.

(** ** Instances on a small store *)

Definition toy_sqlite_env : SqliteEnv := {|
  JournalMode := (); LockingMode := (); Synchronous := ();
  journal_from_str _ := Ok (); locking_from_str _ := Ok (); synchronous_from_str _ := Ok ();
  journal_wal := (); locking_normal := (); synchronous_full := ();
  available_parallelism := Ok 4%Z |}.

Definition toy_rng (n : nat) : bytes := replicate n x0a.
Definition toy_method : StoreKeyMethod := StoreKeyMethod.DeriveKey (Argon2i Level.Interactive).
Definition toy_store_key : StoreKey :=
  mkStoreKey (Some (mkChacha (resize 32 x00 (as_bytes "pass" ++ toy_rng 16)))).
Definition toy_reference : StoreKeyReference :=
  StoreKeyReference.DeriveKey (Argon2i Level.Interactive) ("?salt=" +:+ salt_hex (toy_rng 16)).

(** The profile key as stored. *)
Definition toy_enc_key : bytes :=
  match @encode_profile_key demo_allocator toy_cipher toy_cbor toy_rng toy_profile_key toy_store_key with
  | Ok enc => enc
  | _ => []
  end.

Definition toy_backend : SqliteBackend :=
  mkBackend (init_tables "main" (ref_into_uri toy_reference) toy_enc_key) (PoolOpen []) "main"
    (add_profile "main" 1 toy_profile_key (key_cache_new toy_store_key)) "/tmp/store.db".

Lemma toy_rng_length n : length (toy_rng n) = n.
Proof. apply length_replicate. Qed.

Lemma provision_open_witness :
  ∃ b, @provision demo_allocator toy_cipher toy_codecs demo_codec toy_cbor toy_rng (Ok toy_profile_key) "main"
      false "/tmp/store.db" None toy_method (pass_from "pass") None false = Ok b
    ∧ db_wf (b_db b) ∧ active_profile b = "main"
    ∧ get_profile (active_profile b) (key_cache b) = Some (1%Z, toy_profile_key)
    ∧ @open_store demo_allocator toy_cipher toy_codecs demo_codec toy_cbor "/tmp/store.db" (Some (b_db b))
        (Some toy_method) (pass_from "pass") None = Ok b.
Proof.
  apply (@provision_open demo_allocator toy_cipher toy_cipher_laws toy_codecs toy_codecs_laws demo_codec
    demo_codec_laws toy_cbor toy_rng toy_profile_key "main" false "/tmp/store.db" toy_method
    (pass_from "pass") None toy_store_key toy_reference (Some toy_method)).
  - exact toy_rng_length.
  - exact toy_key_portable.
  - discriminate.
  - vm_compute. reflexivity.
  - right. reflexivity.
Defined.

Lemma toy_keys_readable :
  @keys_readable demo_allocator toy_cipher toy_cipher_laws toy_cbor (key_cache toy_backend)
    (b_db toy_backend) (λ _, toy_profile_key).
Proof.
  intros p [->|?%elem_of_nil]%elem_of_cons; [|done]. split; [vm_compute; reflexivity|apply toy_key_portable].
Qed.

Lemma toy_config_ok : config_ok (b_db toy_backend).
Proof.
  split_and!; [|by eexists|by do 2 eexists]. cbn. repeat constructor; set_solver.
Qed.

Lemma rekey_reopen_witness :
  ∃ b', @rekey demo_allocator toy_cipher toy_codecs toy_cbor toy_rng (λ _, toy_rng)
      StoreKeyMethod.Unprotected pass_empty toy_backend = (b', Ok ())
    ∧ items (b_db b') = [] ∧ items_tags (b_db b') = []
    ∧ ∀ p, p ∈ profiles (b_db toy_backend) →
        ∃ b'', @open_db demo_allocator toy_cipher toy_codecs demo_codec toy_cbor (b_db b')
            (Some StoreKeyMethod.Unprotected) pass_empty (Some (p_name p)) "/tmp/store.db" = Ok b''
          ∧ get_profile (p_name p) (key_cache b'') = Some (p_id p, toy_profile_key).
Proof.
  apply (@rekey_reopen demo_allocator toy_cipher toy_cipher_laws toy_codecs toy_codecs_laws demo_codec
    demo_codec_laws toy_cbor toy_rng (λ _, toy_rng) StoreKeyMethod.Unprotected pass_empty toy_backend
    store_key_empty StoreKeyReference.Unprotected (λ _, toy_profile_key)).
  - reflexivity.
  - cbn; auto with wf.
  - exact toy_config_ok.
  - exact toy_keys_readable.
  - exact toy_rng_length.
  - intros i. exact toy_rng_length.
  - discriminate.
  - reflexivity.
Defined.

(** The commit fails. *)
Lemma rekey_atomic_witness :
  let b := mkBackend (b_db toy_backend) (PoolOpen [None; None; None; None; None; Some "disk full"]) "main"
    (key_cache toy_backend) "/tmp/store.db" in
  ∃ b', @rekey demo_allocator toy_cipher toy_codecs toy_cbor toy_rng (λ _, toy_rng)
      StoreKeyMethod.Unprotected pass_empty b = (b', Err (StorageError.from_sqlx "disk full"))
    ∧ b_db b' = b_db b ∧ key_cache b' = key_cache b.
Proof.
  intros b. eexists. split; [vm_compute; reflexivity|].
  apply (@rekey_atomic demo_allocator toy_cipher toy_codecs toy_cbor toy_rng (λ _, toy_rng)
    StoreKeyMethod.Unprotected pass_empty b _ (StorageError.from_sqlx "disk full")).
  vm_compute. reflexivity.
Defined.

Lemma create_profile_correct_witness :
  ∃ b' id enc, @create_profile demo_allocator toy_cipher toy_cbor toy_rng (Ok toy_profile_key) "main"
      (Some "other") toy_backend = (b', Ok "other")
    ∧ db_wf (b_db b') ∧ items (b_db b') = items (b_db toy_backend)
    ∧ profiles (b_db b') = profiles (b_db toy_backend) ++ [mkProfile id "other" enc]
    ∧ @load_key demo_allocator toy_cipher toy_cbor (key_cache b') enc = Ok toy_profile_key
    ∧ get_profile "other" (key_cache b') = Some (id, toy_profile_key)
    ∧ Forall (λ r, i_profile r ≠ id) (items (b_db toy_backend)).
Proof.
  pose proof (@create_profile_correct demo_allocator toy_cipher toy_cipher_laws toy_cbor toy_rng toy_profile_key
    "main" (Some "other") toy_backend eq_refl (init_tables_wf _ _ _) toy_rng_length eq_refl toy_key_portable) as E.
  exact E.
Defined.

Lemma remove_profile_correct_witness :
  ∃ b', remove_profile "main" toy_backend = (b', Ok true)
    ∧ db_wf (b_db b') ∧ key_cache b' = key_cache toy_backend ∧ profiles (b_db b') = [].
Proof.
  pose proof (remove_profile_correct "main" toy_backend eq_refl (init_tables_wf _ _ _)) as E.
  destruct E as (b' & E1 & E2 & E3 & E4 & _). exists b'. split; [exact E1|]. split; [exact E2|]. split; [exact E3|exact E4].
Defined.
