(* ===== verification/Lifecycle.v ===== *)
(** * A store from provisioning to use

    The properties of the SQLite backend as a whole: a session that resolves its
    profile, the sequence of its operations, scans, and a store from its
    creation on. *)

From S2P Require Import Prelude Errors Wql TagSql DbQuery TagSqlSem SqlEval Buffers Utf8 Entry Aead.
From S2P Require Import Protect Options StoreKey DbUtils Session SqliteDb Sqlite Store Scans.
From S2P Require Import SqliteBackend.
Local Open Scope string_scope.
Local Open Scope list_scope.
#[local] Existing Instance sqlite_resolution.

(** The connection as a new session of a backend sees it. *)
Definition session_world (b : SqliteBackend) (profile : option string) (transaction : bool)
    : World Db KeyCache ProfileKey :=
  mkWorld (b_db b) [] (pool_faults (b_pool b)) (key_cache b) (backend_session profile transaction b).

(** A session of an open pool on which no call fails. *)
Lemma session_world_open b name transaction : b_pool b = PoolOpen [] →
  session (session_world b (Some name) transaction) = session_new false name transaction
  ∧ faults (session_world b (Some name) transaction) = [].
Proof. intros Hf. unfold session_world, backend_session. cbn. by rewrite Hf. Qed.

Section Lifecycle.
Context `{HAl : Allocator} `{HH : Hmac} `{HC : AeadCipher} {laws : CipherLaws} {HD : LawfulDerivation Chacha20Key}.
Context `{HS : StoreCodecs} `{HB : CborCodec} `{HE : SqlEngine}.
Abbreviation W := (World Db KeyCache ProfileKey).

(** What the cache holds for a profile, if anything, is what the store holds. *)
Definition profile_in_store (d : Db) (c : KeyCache) (name : string) (pid : Z) (pk : ProfileKey) : Prop :=
  ∃ enc, sql_find_profile name d = Ok (d, Some (pid, enc)) ∧ load_key c enc = Ok pk
    ∧ (get_profile name c = None ∨ get_profile name c = Some (pid, pk)).

Lemma resolve_run (w : W) name in_txn pid pk :
  faults w = [] → profile_in_store (db w) (cache w) name pid pk →
  ∃ c, resolve_profile_key name in_txn w = (set_cache c w, Ok (pid, pk)).
Proof.
  intros Hf (enc & Ef & El & Hg). unfold resolve_profile_key. rewrite (stm_bind_ok sget _ w w w eq_refl).
  destruct Hg as [-> | ->]; [|by exists (cache w); destruct w].
  rewrite (stm_bind_ok _ _ _ _ _ (exec_ok _ _ w _ _ Hf Ef)). cbv beta iota.
  rewrite (stm_bind_ok _ _ _ _ _ (lift_ok _ _ _ El)). by eexists.
Qed.

Lemma activate (w : W) name transaction pid pk :
  session w = session_new false name transaction → faults w = [] →
  profile_in_store (db w) (cache w) name pid pk →
  ∃ w', acquire_key w = (w', Ok (pid, pk)) ∧ ready pk pid w' ∧ db w' = db w
    ∧ saved w' = (if transaction then db w :: saved w else saved w)
    ∧ txn_depth (session w') = (if transaction then 1 else 0)%nat.
Proof.
  destruct w as [d sv fs c se]. cbn [session faults db cache]. intros -> -> Hp.
  set (w1 := mkWorld d (if transaction then d :: sv else sv) [] c
    (mkSession (KPending (K := ProfileKey) "") SActive (if transaction then 1 else 0)%nat)).
  destruct (resolve_run w1 name transaction pid pk eq_refl Hp) as (c' & Er).
  exists (set_session (mkSession (KActive pid pk) SActive (if transaction then 1 else 0)%nat) (set_cache c' w1)).
  split; [|by destruct transaction].
  unfold acquire_key, acquire_session, make_active.
  destruct transaction; cbv -[resolve_profile_key] in Er |- *; by rewrite Er.
Qed.

(** A session whose profile is in the cache. *)
Lemma activate_cached (w : W) name transaction pid pk :
  session w = session_new false name transaction → faults w = [] →
  get_profile name (cache w) = Some (pid, pk) →
  ∃ w', acquire_key w = (w', Ok (pid, pk)).
Proof.
  destruct w as [d sv fs c se]. cbn [session faults cache]. intros -> -> Hg.
  set (w1 := mkWorld d (if transaction then d :: sv else sv) [] c
    (mkSession (KPending (K := ProfileKey) "") SActive (if transaction then 1 else 0)%nat)).
  assert (Er : resolve_profile_key name transaction w1 = (w1, Ok (pid, pk))).
  { unfold resolve_profile_key. rewrite (stm_bind_ok sget _ w1 w1 w1 eq_refl). cbn [cache w1]. by rewrite Hg. }
  exists (set_session (mkSession (KActive pid pk) SActive (if transaction then 1 else 0)%nat) w1).
  unfold acquire_key, acquire_session, make_active.
  destruct transaction; cbv -[resolve_profile_key] in Er |- *; by rewrite Er.
Qed.

End Lifecycle.

(** ** Properties of a session *)

Section SessionProperties.
Context `{HAl : Allocator} `{HH : Hmac} `{HC : AeadCipher} {laws : CipherLaws} {HD : LawfulDerivation Chacha20Key}.
Context `{HS : StoreCodecs} `{HB : CborCodec} `{HE : SqlEngine}.
Context (env : Env) (pk : ProfileKey) (pid : Z).
Abbreviation W := (World Db KeyCache ProfileKey).
Hypothesis pk_ok : profile_ok pk.
Hypothesis nonce_12 : cipher_nonce_size = 12%nat.
Hypothesis rng_length : ∀ n, length (env_rng env n) = n.
Hypothesis hex_upper : ∀ b, hex_decode (sql_hex b) = Some b.

(** C2: The SQLite backend implements the abstract store: from tables that stand for
    a store, any sequence of inserts, replacements, removals, fetches, counts and
    bulk removals through a session, in a transaction or not, returns what the
    abstract operations return and leaves tables that stand for the store they
    leave; no transaction is left open and other profiles are not affected. *)
Theorem sqlite_refines_store ops (w : W) s :
  ready pk pid w → represents pk pid (db w) s → ops_ok env pk ops s →
  ∃ w', c_run env ops w = (w', (a_run sql_like env ops s).2)
    ∧ represents pk pid (db w') (a_run sql_like env ops s).1
    ∧ saved w' = saved w ∧ session w' = session w
    ∧ ∀ k, k.1.1.1 ≠ pid → view (db w') k = view (db w) k.
Proof.
  intros Hw Hr Hok.
  destruct (run_sim env pk pid pk_ok nonce_12 rng_length hex_upper ops w s Hw Hr Hok)
    as (w' & E & (Hs & Hse & _) & Hr' & (_ & _ & Hv)).
  exists w'. by split_and!.
Qed.

(** [fetch_all] delivers exactly the live entries that match, each once, up to
    the limit; the order is the database's. *)
Theorem fetch_all_correct (w : W) s kind c f limit order_by descending fu :
  ready pk pid w → represents pk pid (db w) s → opt_text_ok c → filter_ready pk s f →
  (Z.of_nat (filter_size f) + 6 ≤ i64_max)%Z →
  ∃ l, l ≡ₚ map_to_list (a_matching sql_like env kind c f s)
    ∧ fetch_all env kind c f limit order_by descending fu w
      = (w, Ok (List.map (λ kv, a_entry kv.1 kv.2) (sql_limit None limit l))).
Proof. intros Hw Hr Hc Hf Hm. by apply (fetch_all_run env pk pid). Qed.

(** C14: A scan opened on the backend, drained page by page by its caller, delivers
    exactly the live entries that match, each once, from the offset up to the
    limit, whatever the number of pages; its session is closed. *)
Theorem scan_correct (w : W) s kind c f offset limit order_by descending fuel :
  ready pk pid w → represents pk pid (db w) s → opt_text_ok c → filter_ready pk s f →
  (Z.of_nat (filter_size f) + 6 ≤ i64_max)%Z → (size s + 1 < fuel)%nat →
  ∃ l scan, l ≡ₚ map_to_list (a_matching sql_like env kind c f s)
    ∧ backend_scan env kind c f offset limit order_by descending w = ((session_close false w).1, Ok scan)
    ∧ (drain fuel scan).2 = Ok (List.map (λ kv, a_entry kv.1 kv.2) (sql_limit offset limit l)).
Proof.
  intros Hw Hr Hc Hf Hm Hfuel.
  destruct (backend_scan_run env pk pid pk_ok nonce_12 hex_upper w s kind c f offset limit order_by descending
    fuel Hw Hr Hc Hf Hm) as (l & scan & Hl & E & Hd).
  exists l, scan. split_and!; auto.
Qed.

(** An expired entry is in the way: it can no longer be fetched, but inserting an
    entry of the same kind, category and name is still refused as a duplicate. *)
Theorem expired_entry_blocks_insert (w : W) s kind c n value tags v :
  ready pk pid w → represents pk pid (db w) s → s !! (kind, c, n) = Some v →
  a_live (env_now env) v = false → value_ok value → tags_ok tags →
  fetch env kind c n false w = (w, Ok None)
  ∧ ∃ w', update env kind EntryOperation.Insert c n value tags None w
      = (w', Err (err_kind StorageError.Duplicate "Duplicate entry")) ∧ represents pk pid (db w') s.
Proof.
  intros Hw Hr Hs Hl Hv Ht. destruct (rep_some _ _ _ _ Hr _ _ Hs) as [Hk _]. split.
  - rewrite (fetch_run env pk pid pk_ok hex_upper w s) by done. unfold a_fetch. rewrite Hs.
    cbn [mbind option_bind]. by rewrite Hl.
  - pose proof (update_sim env pk pid pk_ok rng_length w s EntryOperation.Insert kind c n value tags None
      Hw Hr Hk Hv Ht) as Hsim.
    unfold a_update in Hsim. rewrite Hs in Hsim. destruct Hsim as (w' & E & _ & Hr' & _). by exists w'.
Qed.

End SessionProperties.

(** ** A store from its creation *)

Section StoreLifecycle.
Context `{HAl : Allocator} `{HH : Hmac} `{HC : AeadCipher} {laws : CipherLaws} {HD : LawfulDerivation Chacha20Key}.
Context `{HS : StoreCodecs} {SL : StoreCodecLaws} `{HU : UriCodec} {UL : UriCodecLaws}.
Context `{HB : CborCodec} `{HE : SqlEngine}.
Context (env : Env) (pk : ProfileKey).
Hypothesis pk_ok : profile_ok pk.
Hypothesis nonce_12 : cipher_nonce_size = 12%nat.
Hypothesis rng_length : ∀ n, length (env_rng env n) = n.
Hypothesis hex_upper : ∀ b, hex_decode (sql_hex b) = Some b.

Lemma init_represents name uri enc : represents pk 1 (init_tables name uri enc) ∅.
Proof. split; [auto with wf|done| |]; done. Qed.

(** C1: From a blank file: the store is provisioned, opened again with the same pass
    key, a session finds the profile, and its operations behave as those of an
    empty abstract store. *)
Theorem store_lifecycle rng random_name path method pass profile sk ref transaction ops :
  (∀ n, length (rng n) = n) → key_portable pk →
  (method = StoreKeyMethod.RawKey → pass_is_empty pass = false) →
  method_resolve method rng pass = Ok (sk, ref) → ops_ok env pk ops ∅ →
  ∃ b1 b w w', provision rng (Ok pk) random_name false path None method pass profile false = Ok b1
    ∧ open_store path (Some (b_db b1)) (Some method) pass profile = Ok b
    ∧ acquire_key (session_world b None transaction) = (w, Ok (1%Z, pk))
    ∧ c_run env ops w = (w', (a_run sql_like env ops ∅).2)
    ∧ represents pk 1 (db w') (a_run sql_like env ops ∅).1.
Proof.
  intros Hr Hpk Hraw Eres Hops.
  destruct (provision_run rng pk random_name false path method pass profile sk ref Hr Hpk Hraw Eres)
    as (enc & Ep & Hload).
  destruct (resolve_reopen method rng pass sk ref Hr Hraw Eres) as (ref' & Eu & Hc & Ers).
  set (name := default random_name profile) in *.
  set (b := mkBackend (init_tables name (ref_into_uri ref) enc) (PoolOpen []) name
    (add_profile name 1 pk (key_cache_new sk)) path) in *.
  assert (Hin : profile_in_store (b_db b) (key_cache b) name 1 pk).
  { exists enc. split_and!; [apply init_tables_find|exact Hload|right; apply lookup_insert_eq]. }
  destruct (activate (session_world b None transaction) name transaction 1 pk eq_refl eq_refl Hin)
    as (w & Ew & Hw & Hdb & _).
  destruct (run_sim env pk 1 pk_ok nonce_12 rng_length hex_upper ops w ∅ Hw) as (w' & Er & _ & Hr' & _);
    [rewrite Hdb; apply init_represents|done|].
  exists b, b, w, w'. split_and!; try done.
  apply (open_run (Some method) pass profile path _ _ _ sk ref' pk (Some method)); try done.
  by destruct profile.
Qed.

End StoreLifecycle.

(** ** A removed profile *)

Section RemovedProfile.
Context `{HAl : Allocator} `{HC : AeadCipher} {laws : CipherLaws} `{HB : CborCodec}.

(** Removing a profile leaves its identifier and key in the cache, and SQLite
    gives the identifier out again: after a profile is created and removed and
    another is created, a session for the removed name is not refused, but works
    on the rows of the other profile with the key of the removed one. *)
Theorem removed_profile_aliases_next rng pk1 pk2 random_name name other b transaction :
  b_pool b = PoolOpen [] → db_wf (b_db b) → (∀ n, length (rng n) = n) →
  store_key_ok (cache_store_key (key_cache b)) → key_portable pk1 → key_portable pk2 → name ≠ other →
  name ∉ List.map p_name (profiles (b_db b)) → other ∉ List.map p_name (profiles (b_db b)) →
  ∃ b1 b2 b3 id, create_profile rng (Ok pk1) random_name (Some name) b = (b1, Ok name)
    ∧ remove_profile name b1 = (b2, Ok true)
    ∧ create_profile rng (Ok pk2) random_name (Some other) b2 = (b3, Ok other)
    ∧ (name ∉ List.map p_name (profiles (b_db b3)))
    ∧ get_profile other (key_cache b3) = Some (id, pk2)
    ∧ (∃ w, acquire_key (session_world b3 (Some name) transaction) = (w, Ok (id, pk1))).
Proof.
  intros Hf Hwf Hr Hsk Hpk1 Hpk2 Hne Hn Ho.
  destruct (create_run rng pk1 random_name name b Hf Hr Hsk Hpk1 Hn) as (enc1 & E1 & _).
  set (id := next_id (List.map p_id (profiles (b_db b)))) in *.
  set (b1 := set_bcache _ _) in E1.
  assert (Hg : List.filter (λ p, negb (String.eqb (p_name p) name)) (profiles (b_db b1)) = profiles (b_db b)).
  { cbn. apply filter_last_name; done. }
  assert (Hwf1 : db_wf (b_db b1)).
  { pose proof (insert_profile_spec name enc1 (b_db b) Hwf) as Hi. unfold sql_insert_profile in Hi.
    rewrite existsb_name_false in Hi by done. apply Hi. }
  destruct (remove_run name b1 Hf Hwf1) as (d2 & E2 & Hp2 & _). rewrite Hg in Hp2.
  assert (Ex : existsb (λ p, String.eqb (p_name p) name) (profiles (b_db b1)) = true).
  { cbn. rewrite List.existsb_app. cbn. by rewrite String.eqb_refl, orb_true_r. }
  rewrite Ex in E2. set (b2 := set_bdb d2 b1) in E2.
  destruct (create_run rng pk2 random_name other b2) as (enc2 & E3 & _); [done|done|done|done| |].
  { cbn. by rewrite Hp2. }
  replace (next_id (List.map p_id (profiles (b_db b2)))) with id in E3 by (cbn; by rewrite Hp2).
  set (b3 := set_bcache _ _) in E3.
  assert (Hname : get_profile name (key_cache b3) = Some (id, pk1)).
  { unfold get_profile, b3, b2, b1, add_profile. cbn.
    rewrite lookup_insert_ne by done. apply lookup_insert_eq. }
  assert (Hother : get_profile other (key_cache b3) = Some (id, pk2)) by apply lookup_insert_eq.
  exists b1, b2, b3, id. split_and!; [done..| |done|].
  - cbn. rewrite Hp2, List.map_app. intros [?|[->|?%elem_of_nil]%elem_of_cons]%elem_of_app; done.
  - destruct (activate_cached (session_world b3 (Some name) transaction) name transaction id pk1) as (w & Ew);
      [by apply session_world_open..|done|].
    by exists w.
Qed.

End RemovedProfile.

(** ** Instances on a small store *)

Definition toy_engine : SqlEngine := {|
  sql_like _ _ := false;
  natural_order l := l;
  natural_order_perm l := Permutation_refl l;
|}.

Definition toy_env : Env := mkEnv toy_rng 1000000 (λ now ms, Some (now + ms)%Z).

Definition toy_ops : list Op := [
  OpUpdate EntryOperation.Insert EntryKind.Item "cat" "one" (Some [x01]) (Some toy_tags) None;
  OpUpdate EntryOperation.Insert EntryKind.Item "cat" "one" (Some [x02]) None None;
  OpCount None (Some "cat") (Some toy_filter);
  OpUpdate EntryOperation.Replace EntryKind.Item "cat" "one" (Some [x03]) None (Some 5000%Z);
  OpFetch EntryKind.Item "cat" "one" true;
  OpCount (Some EntryKind.Item) None (Some toy_filter);
  OpRemoveAll None None None;
  OpUpdate EntryOperation.Remove EntryKind.Item "cat" "one" None None None].

Definition toy_world : World Db KeyCache ProfileKey :=
  mkWorld (b_db toy_backend) [] [] (key_cache toy_backend)
    (mkSession (KActive 1 toy_profile_key) SActive 0).

Lemma toy_filter_nil :
  @filter_ok toy_cipher toy_cipher_laws toy_hmac toy_profile_key [] (rename split_tag_name (filter_query toy_filter)) 3.
Proof. destruct toy_filter_ok as [H1 H2 H3 H4 _]. split; try done. intros v n v' _ Ht. by apply elem_of_nil in Ht. Qed.

Definition toy_key : AKey := (EntryKind.Item, "cat", "one").

Lemma toy_key_ok : @akey_ok toy_cipher toy_cipher_laws toy_key.
Proof. repeat split; vm_compute; lia. Qed.

Lemma toy_filter_ready v :
  a_tags v = toy_tags ∨ a_tags v = [] →
  @filter_ready toy_hmac toy_cipher toy_cipher_laws toy_profile_key {[toy_key := v]} (Some toy_filter).
Proof.
  intros Ht. split; [exact toy_filter_nil|]. intros k v' [_ <-]%lookup_singleton_Some.
  destruct Ht as [-> | ->]; [exact toy_filter_ok|exact toy_filter_nil].
Qed.

Lemma toy_ops_ok :
  @ops_ok toy_hmac toy_cipher toy_cipher_laws toy_engine toy_env toy_profile_key toy_ops ∅.
Proof.
  assert (Ht : tags_ok (laws := toy_cipher_laws) (Some toy_tags))
    by (split; repeat constructor; vm_compute; lia).
  assert (Hn : tags_ok (laws := toy_cipher_laws) None) by (split; constructor).
  assert (Hv : ∀ b, value_ok (laws := toy_cipher_laws) (Some [b])) by (intros b; vm_compute; lia).
  assert (Hc : opt_text_ok (laws := toy_cipher_laws) (Some "cat")) by apply toy_key_ok.
  set (s1 := {[toy_key := mkAVal [x01] toy_tags None]} : AStore).
  set (s2 := {[toy_key := mkAVal [x03] [] (Some 1005000%Z)]} : AStore).
  unfold toy_ops. split; [split_and!; [apply toy_key_ok|apply Hv|done]|].
  replace (a_step _ _ _ ∅).1 with s1 by reflexivity.
  split; [split_and!; [apply toy_key_ok|apply Hv|done]|].
  replace (a_step _ _ _ s1).1 with s1 by reflexivity.
  split; [split; [done|by apply toy_filter_ready; left]|].
  replace (a_step _ _ _ s1).1 with s1 by reflexivity.
  split; [split_and!; [apply toy_key_ok|apply Hv|done]|].
  replace (a_step _ _ _ s1).1 with s2 by reflexivity.
  split; [apply toy_key_ok|]. replace (a_step _ _ _ s2).1 with s2 by reflexivity.
  split; [split; [done|by apply toy_filter_ready; right]|].
  replace (a_step _ _ _ s2).1 with s2 by reflexivity.
  split; [by split|]. split; [|done]. split_and!; [apply toy_key_ok|vm_compute; lia|done].
Qed.

Lemma toy_ready : ready toy_profile_key 1 toy_world.
Proof. done. Qed.

Lemma toy_represents :
  @represents demo_allocator toy_hmac toy_cipher toy_cipher_laws toy_derivation toy_profile_key 1 (db toy_world) ∅.
Proof. apply init_represents. Qed.

Lemma sqlite_refines_store_witness :
  ∃ w', @c_run demo_allocator toy_hmac toy_cipher toy_codecs toy_cbor toy_engine toy_env toy_ops toy_world
      = (w', [Ok RUnit; Err (err_kind StorageError.Duplicate "Duplicate entry"); Ok (RCount 1);
              Ok RUnit; Ok (REntry (Some (entry_new EntryKind.Item "cat" "one" [x03] [])));
              Ok (RCount 0); Ok (RCount 1); Err (err_kind StorageError.NotFound "Entry not found")])
    ∧ @represents demo_allocator toy_hmac toy_cipher toy_cipher_laws toy_derivation toy_profile_key 1 (db w') ∅
    ∧ saved w' = [] ∧ session w' = session toy_world
    ∧ ∀ k, k.1.1.1 ≠ 1%Z → view (db w') k = view (db toy_world) k.
Proof.
  pose proof (@sqlite_refines_store demo_allocator toy_hmac toy_cipher toy_cipher_laws toy_derivation toy_codecs
    toy_cbor toy_engine toy_env toy_profile_key 1 ltac:(repeat split) eq_refl toy_rng_length toy_hex_upper
    toy_ops toy_world ∅ toy_ready toy_represents toy_ops_ok) as E.
  exact E.
Defined.

(** The world after an insertion, with an expiry relative to the present. *)
Definition toy_insert (ms : option Z) : Op :=
  OpUpdate EntryOperation.Insert EntryKind.Item "cat" "one" (Some [x01]) (Some toy_tags) ms.
Definition toy_filled (ms : option Z) : World Db KeyCache ProfileKey :=
  (@c_step demo_allocator toy_hmac toy_cipher toy_codecs toy_cbor toy_engine toy_env (toy_insert ms) toy_world).1.
Definition toy_store (ms : option Z) : AStore :=
  {[toy_key := mkAVal [x01] toy_tags ((λ ms, 1000000 + ms)%Z <$> ms)]}.

Lemma toy_filled_ok ms :
  ready toy_profile_key 1 (toy_filled ms)
  ∧ @represents demo_allocator toy_hmac toy_cipher toy_cipher_laws toy_derivation toy_profile_key 1
      (db (toy_filled ms)) (toy_store ms).
Proof.
  pose proof (@step_sim demo_allocator toy_hmac toy_cipher toy_cipher_laws toy_derivation toy_codecs
    toy_cbor toy_engine toy_env toy_profile_key 1 ltac:(repeat split) eq_refl toy_rng_length toy_hex_upper
    toy_world ∅ (toy_insert ms) toy_ready toy_represents) as Hs.
  destruct Hs as (w' & E & Hst & Hr & _).
  { split_and!; [apply toy_key_ok|vm_compute; lia|split; repeat constructor; vm_compute; lia]. }
  assert (w' = toy_filled ms) as -> by (unfold toy_filled; by rewrite E).
  split; [by eapply stays_ready; [exact toy_ready|]|].
  by destruct ms as [z|].
Qed.

Lemma fetch_all_correct_witness :
  ∃ l, l ≡ₚ [(toy_key, mkAVal [x01] toy_tags None)]
    ∧ @fetch_all demo_allocator toy_hmac toy_cipher toy_codecs toy_cbor toy_engine toy_env None (Some "cat")
        (Some toy_filter) (Some 10%Z) None false false (toy_filled None)
      = (toy_filled None, Ok (List.map (λ kv, a_entry kv.1 kv.2) (sql_limit None (Some 10%Z) l))).
Proof.
  destruct (toy_filled_ok None) as [Hw Hr].
  pose proof (@fetch_all_correct demo_allocator toy_hmac toy_cipher toy_cipher_laws toy_derivation toy_codecs
    toy_cbor toy_engine toy_env toy_profile_key 1 ltac:(repeat split) eq_refl toy_hex_upper
    (toy_filled None) (toy_store None) None (Some "cat") (Some toy_filter) (Some 10%Z) None false false Hw Hr) as E.
  apply E; [apply toy_key_ok|by apply toy_filter_ready; left|vm_compute; discriminate].
Defined.

Lemma scan_correct_witness :
  ∃ l scan, l ≡ₚ [(toy_key, mkAVal [x01] toy_tags None)]
    ∧ @backend_scan demo_allocator toy_hmac toy_cipher toy_codecs toy_cbor toy_engine toy_env None (Some "cat")
        (Some toy_filter) (Some 0%Z) None (Some OrderBy.Id) true (toy_filled None)
      = ((session_close false (toy_filled None)).1, Ok scan)
    ∧ (drain 5 scan).2 = Ok (List.map (λ kv, a_entry kv.1 kv.2) (sql_limit (Some 0%Z) None l)).
Proof.
  destruct (toy_filled_ok None) as [Hw Hr].
  pose proof (@scan_correct demo_allocator toy_hmac toy_cipher toy_cipher_laws toy_derivation toy_codecs
    toy_cbor toy_engine toy_env toy_profile_key 1 ltac:(repeat split) eq_refl toy_hex_upper
    (toy_filled None) (toy_store None) None (Some "cat") (Some toy_filter) (Some 0%Z) None (Some OrderBy.Id)
    true 5 Hw Hr) as E.
  apply E; [apply toy_key_ok|by apply toy_filter_ready; left|vm_compute; discriminate|vm_compute; lia].
Defined.

Lemma expired_entry_blocks_insert_witness :
  let w := toy_filled (Some (-5000)%Z) in
  @fetch demo_allocator toy_hmac toy_cipher toy_codecs toy_cbor toy_env EntryKind.Item "cat" "one" false w
    = (w, Ok None)
  ∧ ∃ w', @update demo_allocator toy_hmac toy_cipher toy_cbor toy_env EntryKind.Item EntryOperation.Insert
        "cat" "one" (Some [x02]) None None w
      = (w', Err (err_kind StorageError.Duplicate "Duplicate entry"))
    ∧ @represents demo_allocator toy_hmac toy_cipher toy_cipher_laws toy_derivation toy_profile_key 1
        (db w') (toy_store (Some (-5000)%Z)).
Proof.
  intros w. destruct (toy_filled_ok (Some (-5000)%Z)) as [Hw Hr].
  pose proof (@expired_entry_blocks_insert demo_allocator toy_hmac toy_cipher toy_cipher_laws toy_derivation toy_codecs
    toy_cbor toy_env toy_profile_key 1 ltac:(repeat split) toy_rng_length toy_hex_upper w
    (toy_store (Some (-5000)%Z)) EntryKind.Item "cat" "one" (Some [x02]) None
    (mkAVal [x01] toy_tags (Some 995000%Z)) Hw Hr) as E.
  apply E; [reflexivity|reflexivity|vm_compute; lia|split; constructor].
Defined.

Lemma store_lifecycle_witness :
  ∃ b1 b w w', @provision demo_allocator toy_cipher toy_codecs demo_codec toy_cbor toy_rng (Ok toy_profile_key) "main"
        false "/tmp/store.db" None toy_method (pass_from "pass") None false = Ok b1
    ∧ @open_store demo_allocator toy_cipher toy_codecs demo_codec toy_cbor "/tmp/store.db" (Some (b_db b1))
        (Some toy_method) (pass_from "pass") None = Ok b
    ∧ @acquire_key demo_allocator toy_cipher toy_cbor (session_world b None true) = (w, Ok (1%Z, toy_profile_key))
    ∧ @c_run demo_allocator toy_hmac toy_cipher toy_codecs toy_cbor toy_engine toy_env toy_ops w
      = (w', (a_run (@sql_like toy_engine) toy_env toy_ops ∅).2)
    ∧ @represents demo_allocator toy_hmac toy_cipher toy_cipher_laws toy_derivation toy_profile_key 1 (db w')
        (a_run (@sql_like toy_engine) toy_env toy_ops ∅).1.
Proof.
  apply (@store_lifecycle demo_allocator toy_hmac toy_cipher toy_cipher_laws toy_derivation toy_codecs toy_codecs_laws
    demo_codec demo_codec_laws toy_cbor toy_engine toy_env toy_profile_key ltac:(repeat split) eq_refl
    toy_rng_length toy_hex_upper toy_rng "main" "/tmp/store.db" toy_method (pass_from "pass") None
    toy_store_key toy_reference true toy_ops).
  - exact toy_rng_length.
  - exact toy_key_portable.
  - discriminate.
  - vm_compute. reflexivity.
  - exact toy_ops_ok.
Defined.

(** The second profile's key differs in its first byte. *)
Definition toy_other_key : ProfileKey :=
  match toy_profile_key with
  | mkProfileKey a b c d e f => mkProfileKey (mkChacha (replicate 32 x55)) b c d e f
  end.

Lemma removed_profile_aliases_next_witness :
  ∃ b1 b2 b3 id, @create_profile demo_allocator toy_cipher toy_cbor toy_rng (Ok toy_other_key) "main"
        (Some "alice") toy_backend = (b1, Ok "alice")
    ∧ remove_profile "alice" b1 = (b2, Ok true)
    ∧ @create_profile demo_allocator toy_cipher toy_cbor toy_rng (Ok toy_profile_key) "main"
        (Some "bob") b2 = (b3, Ok "bob")
    ∧ ("alice" ∉ List.map p_name (profiles (b_db b3)))
    ∧ get_profile "bob" (key_cache b3) = Some (id, toy_profile_key)
    ∧ (∃ w, @acquire_key demo_allocator toy_cipher toy_cbor (session_world b3 (Some "alice") false)
        = (w, Ok (id, toy_other_key))).
Proof.
  apply (@removed_profile_aliases_next demo_allocator toy_cipher toy_cipher_laws toy_cbor toy_rng toy_other_key
    toy_profile_key "main" "alice" "bob" toy_backend false).
  - reflexivity.
  - cbn; auto with wf.
  - exact toy_rng_length.
  - reflexivity.
  - eexists. split; [reflexivity|]. split; [reflexivity|]. vm_compute. lia.
  - exact toy_key_portable.
  - discriminate.
  - vm_compute. set_solver.
  - vm_compute. set_solver.
Defined.
