(* ===== verification/PgSession.v ===== *)
(** * PostgreSQL sessions

    The session of [Postgres] as an instance of the trait of [Backend], proved to keep
    its contract, and what becomes of a transaction in which a statement failed. *)

From S2P Require Import Prelude Errors Wql TagSql DbQuery TagSqlSem SqlEval Buffers Utf8 Entry Aead.
From S2P Require Import Protect Options StoreKey DbUtils Session SqliteDb PgDb Sqlite Postgres Store Backend Scans.
From S2P Require Import PgStore SqliteBackend Lifecycle.
Local Open Scope string_scope.
Local Open Scope list_scope.
#[local] Existing Instance pg_resolution.
#[local] Existing Instance postgres_ext.

Section Instances.
Context `{Allocator} `{Hmac} `{AeadCipher} `{StoreCodecs} `{CborCodec} `{SqlEngine}.
Abbreviation PW := (World PgDb KeyCache ProfileKey).

Definition pg_session (env : Env) : BackendSession PW := {|
  bs_count := pg_session_count env;
  bs_fetch := pg_fetch env;
  bs_fetch_all := pg_fetch_all env;
  bs_remove_all := pg_remove_all;
  bs_update := pg_update env;
  bs_ping := pg_ping;
  bs_close := session_close;
|}.
End Instances.

Section Contract.
Context `{HAl : Allocator} `{HH : Hmac} `{HC : AeadCipher} {laws : CipherLaws} {HD : LawfulDerivation Chacha20Key}.
Context `{HS : StoreCodecs} `{HB : CborCodec} `{HE : SqlEngine}.
Context (env : Env) (pk : ProfileKey) (pid : Z).
Abbreviation PW := (World PgDb KeyCache ProfileKey).
Hypothesis pk_ok : profile_ok pk.
Hypothesis nonce_12 : cipher_nonce_size = 12%nat.
Hypothesis rng_length : ∀ n, length (env_rng env n) = n.
Hypothesis hex_lower : ∀ b, hex_decode (pg_hex b) = Some b.

(** The session since a state [w0]. *)
Definition pg_session_rep (w0 w : PW) (s : AStore) : Prop :=
  pg_ready pk pid w ∧ pg_represents pk pid (db w) s ∧ pg_stays w0 w ∧ pg_frame pid (db w0) (db w).

Definition pg_filter_ok (s : AStore) (f : option TagFilter) : Prop :=
  pg_filter_ready pk s f ∧ (Z.of_nat (filter_size f) + 6 ≤ i64_max)%Z.

Lemma pg_session_rep_refl w s : pg_ready pk pid w → pg_represents pk pid (db w) s → pg_session_rep w w s.
Proof. intros Hw Hr. pose proof Hw as (_ & _ & Hf & _). by split_and!. Qed.

Lemma pg_session_rep_step w0 w w' s s' : pg_session_rep w0 w s → pg_stays w w' → pg_represents pk pid (db w') s' →
  pg_frame pid (db w) (db w') → pg_session_rep w0 w' s'.
Proof.
  intros (Hw & Hr & (S1 & T1 & F1) & Hf) (S2 & T2 & F2) Hr' Hf'.
  split_and!; [by eapply pg_stays_ready; [exact Hw|split_and!; [exact S2|exact T2|exact F2]|]|done|
    |by eapply pg_frame_trans]. split_and!; congruence.
Qed.

Definition pg_contract (w0 : PW) : @SessionContract PW (pg_session env).
Proof.
  refine {|
    ct_resolution := pg_resolution; ct_env := env; ct_like := sql_like; ct_rep := pg_session_rep w0;
    ct_key_ok := akey_ok; ct_value_ok v := value_ok (Some v); ct_tags_ok ts := tags_ok (Some ts);
    ct_filter_ok := pg_filter_ok; ct_limit_ok := pg_limit_ok |}.
  - intros w s kind op c n v ts ms Hrep Hk Hv Ht. pose proof Hrep as (Hw & Hr & _).
    pose proof (pg_update_sim env pk pid pk_ok nonce_12 rng_length w s op kind c n v ts ms Hw Hr Hk Hv Ht) as Hs.
    destruct (a_update _ _ _ _ _ _ _) as [s' r]. destruct Hs as (w' & E & Hst & Hrep' & Hfr).
    exists w'. split; [exact E|]. by eapply pg_session_rep_step.
  - intros w s kind c n fu Hrep Hk. pose proof Hrep as (Hw & Hr & _). exists w. split; [|done].
    exact (pg_fetch_run env pk pid pk_ok hex_lower w s kind c n fu Hw Hr Hk).
  - intros w s kind c f Hrep Hc [Hf _]. pose proof Hrep as (Hw & Hr & _). exists w. split; [|done].
    apply (pg_count_run env pk pid pk_ok nonce_12 w s); try done. destruct c; [by destruct Hc|done].
  - intros w s kind c f limit order_by descending fu Hrep Hc [Hf Hm] Hl. pose proof Hrep as (Hw & Hr & _).
    destruct (pg_fetch_all_run env pk pid pk_ok nonce_12 hex_lower w s kind c f limit order_by descending fu Hw Hr)
      as (l & Hp & E); try done; [destruct c; [by destruct Hc|done]|]. by exists w, l.
  - intros w s kind c f Hrep Hc [Hf _]. pose proof Hrep as (Hw & Hr & _).
    assert (opt_text_ok c) as Hc' by (destruct c; [by destruct Hc|done]).
    pose proof (pg_remove_all_sim pk pid pk_ok nonce_12 w s kind c f Hw Hr Hc' Hf) as Hs.
    destruct (a_remove_all _ _ _ _ _) as [s' n]. destruct Hs as (w' & E & Hst & Hrep' & Hfr).
    exists w'. split; [exact E|]. by eapply pg_session_rep_step.
Defined.

(** The texts and values are not too long to be encrypted, strings are UTF-8, and filters
    can be evaluated, by this server. *)
Definition pg_op_ok (op : Op) (s : AStore) : Prop :=
  match op with
  | OpUpdate _ kind c n value tags _ => akey_ok (kind, c, n) ∧ value_ok (Some (default [] value)) ∧ tags_ok (Some (default [] tags))
  | OpFetch kind c n _ => akey_ok (kind, c, n)
  | OpCount _ c f | OpRemoveAll _ c f => opt_text_ok c ∧ pg_filter_ok s f
  end.

Fixpoint pg_ops_ok (ops : list Op) (s : AStore) : Prop :=
  match ops with
  | [] => True
  | op :: ops' => pg_op_ok op s ∧ pg_ops_ok ops' (a_step sql_like env op s).1
  end.

Lemma pg_ops_contract w ops : ∀ s, pg_ops_ok ops s → ct_ops_ok (H0 := pg_contract w) ops s.
Proof.
  induction ops as [|op ops IH]; [done|]. intros s [Hop Hops]. split; [|by apply IH].
  destruct op as [o kind c n v ts ms|kind c n fu|kind c f|kind c f]; cbn [pg_op_ok] in Hop; try exact Hop;
    (destruct Hop as [Hc Hf]; split; [by destruct c|exact Hf]).
Qed.

Lemma pg_run_sim ops (w : PW) s :
  pg_ready pk pid w → pg_represents pk pid (db w) s → pg_ops_ok ops s →
  ∃ w', s_run (H := pg_session env) ops w = (w', (a_run sql_like env ops s).2)
    ∧ pg_represents pk pid (db w') (a_run sql_like env ops s).1 ∧ pg_stays w w' ∧ pg_frame pid (db w) (db w').
Proof.
  intros Hw Hr Hok. destruct (contract_run (H0 := pg_contract w) ops w s) as (w' & E & (_ & Hr' & Hst & Hf));
    [by apply pg_session_rep_refl|by apply pg_ops_contract|]. by exists w'.
Qed.

(** C4: The PostgreSQL backend implements the same abstract store as SQLite, for the
    filters its server accepts: any sequence of operations through a session, in a
    transaction or not and whatever errors they meet, returns what the abstract
    operations return, is aborted by none of their errors, leaves no transaction open
    and does not touch other profiles. *)
Theorem postgres_refines_store ops (w : PW) s :
  pg_ready pk pid w → pg_represents pk pid (db w) s →
  pg_ops_ok ops s →
  ∃ w', s_run (H := pg_session env) ops w = (w', (a_run sql_like env ops s).2)
    ∧ pg_represents pk pid (db w') (a_run sql_like env ops s).1
    ∧ saved w' = saved w ∧ session w' = session w ∧ pg_aborted (db w') = false
    ∧ ∀ k, k.1.1.1 ≠ pid → view (pg_tables (db w')) k = view (pg_tables (db w)) k.
Proof.
  intros Hw Hr Hok. destruct (pg_run_sim ops w s Hw Hr Hok) as (w' & E & Hr' & (Es & Ese & _) & (_ & _ & Hv) & Ha).
  pose proof Hw as (_ & _ & _ & Ha0). exists w'. split_and!; [exact E|done|done|done|congruence|exact Hv].
Qed.

(** *** Failed statements *)

(** After an error of the server in a transaction, every statement is refused. *)
Lemma aborted_exec {A} on_err (f : Statement A) (w : PW) :
  faults w = [] → pg_aborted (db w) = true → saved w ≠ [] →
  pg_exec on_err f w = (w, Err (on_err aborted_msg)).
Proof. intros Hf Ha Hs. unfold pg_exec, db_call. by rewrite Hf, Ha. Qed.

(** Committing the transaction of a session then rolls it back, without an error. *)
Lemma aborted_close (w : PW) d0 :
  state (session w) = SActive → txn_depth (session w) = 1%nat → faults w = [] → saved w = [d0] →
  pg_aborted (db w) = true →
  ∃ w', session_close true w = (w', Ok ()) ∧ pg_tables (db w') = pg_tables d0 ∧ saved w' = [].
Proof.
  destruct w as [d sv fs c [k st n]]. cbn. intros -> -> -> -> Ha.
  unfold session_close, set_state, set_depth, tm_commit, db_call, sget, smod, mbind, stm_bind. cbn. rewrite Ha.
  eexists. split; [reflexivity|done].
Qed.

(** A session that is active on a connection whose transaction is aborted. *)
Definition pg_aborted_session (w : PW) : Prop :=
  state (session w) = SActive ∧ profile_key (session w) = KActive pid pk ∧ faults w = []
  ∧ pg_aborted (db w) = true ∧ saved w ≠ [] ∧ (0 < txn_depth (session w))%nat.

Lemma aborted_acquire w : pg_aborted_session w →
  pg_acquire_session w = (w, Ok pid) ∧ pg_acquire_key w = (w, Ok (pid, pk)).
Proof.
  destruct w as [d sv fs ca [k st m]]. intros (Hst & Hk & Hf & _). cbn in *. subst. split; reflexivity.
Qed.

Lemma aborted_bind {A B} on_err (f : Statement A) (g : A → stm PW StorageError.Error B) w :
  pg_aborted_session w → (a ← pg_exec on_err f; g a) w = (w, Err (on_err aborted_msg)).
Proof. intros (_ & _ & Hf & Ha & Hs & _). unfold mbind, stm_bind. by rewrite aborted_exec. Qed.

Lemma aborted_insert w kind ec en ev et ms is_new : pg_aborted_session w →
  ∃ e, with_txn (pg_perform_insert env pid kind ec en ev et ms is_new) w = (w, Err e).
Proof.
  intros Hw. pose proof Hw as (_ & _ & _ & _ & _ & Hd). unfold with_txn.
  rewrite (stm_bind_ok as_transaction _ w w false); last first.
  { unfold as_transaction. rewrite (stm_bind_ok sget _ w w w eq_refl).
    destruct (Nat.eqb_spec (txn_depth (session w)) 0); [lia|done]. }
  assert (∃ e, pg_perform_insert env pid kind ec en ev et ms is_new w = (w, Err e)) as [e E].
  { unfold pg_perform_insert. destruct (bind_expiry env ms) as [x|x|] eqn:Ex;
      [|by eexists|by apply bind_expiry_total in Ex]. rewrite (stm_bind_ok (lift (Ok x)) _ _ _ _ eq_refl).
    destruct is_new; rewrite stm_bind_assoc, aborted_bind by done; by eexists. }
  exists e. unfold txn_scope. by rewrite E.
Qed.

Lemma aborted_update w op kind c n value tags ms :
  pg_aborted_session w → akey_ok (kind, c, n) → value_ok value → tags_ok tags →
  ∃ e, pg_update env kind op c n value tags ms w = (w, Err e).
Proof.
  intros Hw [Hc Hn] Hv Ht. cbn in Hc, Hn. destruct (aborted_acquire w Hw) as [Es Ek].
  destruct (encrypt_entry_run env pk pk_ok rng_length c n value tags Hc Hn Hv Ht) as (encv & b & Eenc & _).
  destruct op; unfold pg_update; rewrite (stm_bind_ok _ _ _ _ _ Ek); cbv beta iota.
  1,2: rewrite (stm_bind_ok _ _ _ _ _ (lift_ok _ _ w Eenc)), (stm_bind_ok _ _ _ _ _ Es); by apply aborted_insert.
  rewrite (stm_bind_ok _ _ _ _ _ (lift_ok _ _ w (encrypt_key_run pk pk_ok c n Hc Hn))), (stm_bind_ok _ _ _ _ _ Es).
  unfold pg_perform_remove. rewrite aborted_bind by done. by eexists.
Qed.

(** A filter with no alternatives, which matches nothing. *)
Definition no_alternatives : TagFilter := any_of [].

Lemma encode_no_alternatives key :
  encode_tag_filter (Q := PostgresPrepare) (Some no_alternatives) key 3 = Ok (Some ("0", [])).
Proof. reflexivity. Qed.

(** C39: A query the server refuses, as that for a filter with an empty list of
    alternatives is, loses the transaction of the session: the query fails, every change
    asked for after it fails and changes nothing, and closing the session with commit
    succeeds while the tables are again those the transaction began with. *)
Theorem pg_failed_query_loses_transaction (w : PW) d0 kind c :
  pg_ready pk pid w → saved w = [d0] → txn_depth (session w) = 1%nat → opt_text_ok c →
  ∃ w1 e w2, pg_session_count env kind c (Some no_alternatives) w = (w1, Err e)
    ∧ (∀ op kind c n value tags ms, akey_ok (kind, c, n) → value_ok value → tags_ok tags →
        ∃ e', pg_update env kind op c n value tags ms w1 = (w1, Err e'))
    ∧ session_close true w1 = (w2, Ok ())
    ∧ pg_tables (db w2) = pg_tables d0 ∧ saved w2 = [].
Proof.
  intros Hw Hs Hd Hc. set (w1 := set_db (set_aborted (db w)) w). pose proof Hw as (Hst & Hk & Hf & Ha).
  assert (Hw1 : pg_aborted_session w1) by (split_and!; cbn; rewrite ?Hs, ?Hd; by first [done|lia]).
  destruct (aborted_close w1 d0) as (w2 & E2 & Ht2 & Hs2); try done.
  eexists w1, _, w2. split_and!; [| |exact E2|exact Ht2|exact Hs2]; last first.
  { intros. by apply aborted_update. }
  unfold pg_session_count. rewrite (stm_bind_ok _ _ _ _ _ (pg_acquire_key_ready pk pid w Hw)). cbv beta iota.
  assert (Ee : pg_encode_select pk c (Some no_alternatives) = Ok ((λ t, enc_category pk (as_bytes t)) <$> c, Some ("0", []))).
  { unfold pg_encode_select. destruct c as [c|]; [|done].
    by rewrite (encrypt_category_ok pk pk_ok c Hc). }
  rewrite (stm_bind_ok _ _ _ _ _ (lift_ok _ _ w Ee)). cbv beta iota.
  destruct (extend_query_unlimited PostgresPrepare PG_COUNT_QUERY
    (select_params pid kind ((λ t, enc_category pk (as_bytes t)) <$> c)) (Some ("0", []))) as [x Ex].
  rewrite (stm_bind_ok _ _ _ _ _ (lift_ok _ _ w Ex)).
  rewrite (stm_bind_ok _ _ _ _ _ (pg_acquire_session_ready pk pid w Hw)).
  unfold pg_exec, db_call. rewrite Hf, Ha. unfold pg_count, on_tables. cbn.
  unfold abort_txn. cbn [saved set_db]. rewrite Hs. destruct w; reflexivity.
Qed.
End Contract.

(** ** Instances on a small store *)

Lemma toy_pg_hex_lower b : toy_hex_decode (pg_hex b) = Some b.
Proof.
  induction b as [|c b IH]; [done|]. cbn [pg_hex List.flat_map app toy_hex_decode].
  unfold pg_hex in IH. rewrite IH. by destruct c.
Qed.

Definition toy_pg_db : PgDb := mkPg (b_db toy_backend) 2 1 false.
Definition toy_pg_world : World PgDb KeyCache ProfileKey :=
  mkWorld toy_pg_db [] [] (key_cache toy_backend) (mkSession (KActive 1 toy_profile_key) SActive 0).

(** The same, within a transaction. *)
Definition toy_pg_txn : World PgDb KeyCache ProfileKey :=
  mkWorld toy_pg_db [toy_pg_db] [] (key_cache toy_backend) (mkSession (KActive 1 toy_profile_key) SActive 1).

Lemma toy_pg_wf : pg_wf toy_pg_db.
Proof. split; [apply init_tables_wf|constructor|]. by repeat constructor. Qed.

Lemma toy_pg_represents :
  @pg_represents demo_allocator toy_hmac toy_cipher toy_cipher_laws toy_derivation toy_profile_key 1 toy_pg_db ∅.
Proof. split; [apply init_represents|exact toy_pg_wf]. Qed.

Definition toy_pg_session : BackendSession (World PgDb KeyCache ProfileKey) :=
  @pg_session demo_allocator toy_hmac toy_cipher toy_codecs toy_cbor toy_engine toy_env.

Definition toy_pg_ops : list Op := [
  OpUpdate EntryOperation.Insert EntryKind.Item "cat" "one" (Some [x01]) (Some toy_tags) None;
  OpUpdate EntryOperation.Insert EntryKind.Item "cat" "one" (Some [x02]) None None;
  OpCount None (Some "cat") (Some toy_filter);
  OpUpdate EntryOperation.Remove EntryKind.Item "cat" "one" None None None;
  OpFetch EntryKind.Item "cat" "one" true].

Lemma toy_pg_ops_ok :
  @pg_ops_ok toy_hmac toy_cipher toy_cipher_laws toy_engine toy_env toy_profile_key toy_pg_ops ∅.
Proof.
  assert (Hv : ∀ b, value_ok (laws := toy_cipher_laws) (Some [b])) by (intros b; vm_compute; lia).
  assert (Ht : tags_ok (laws := toy_cipher_laws) (Some toy_tags)) by (split; repeat constructor; vm_compute; lia).
  assert (Hn : tags_ok (laws := toy_cipher_laws) (Some [])) by (split; constructor).
  set (s1 := {[toy_key := mkAVal [x01] toy_tags None]} : AStore).
  unfold toy_pg_ops. split; [split_and!; [apply toy_key_ok|apply Hv|exact Ht]|].
  replace (a_step _ _ _ ∅).1 with s1 by reflexivity.
  split; [split_and!; [apply toy_key_ok|apply Hv|exact Hn]|].
  replace (a_step _ _ _ s1).1 with s1 by reflexivity.
  split; [split; [apply toy_key_ok|]|].
  { split; [split; [by apply toy_filter_ready; left|reflexivity]|vm_compute; discriminate]. }
  replace (a_step _ _ _ s1).1 with s1 by reflexivity.
  split; [split_and!; [apply toy_key_ok|vm_compute; lia|exact Hn]|].
  replace (a_step _ _ _ s1).1 with (∅ : AStore) by reflexivity. split; [apply toy_key_ok|done].
Qed.

(** In a transaction: the refused duplicate and the rest of the operations. *)
Lemma postgres_refines_store_witness :
  ∃ w', @s_run _ toy_pg_session toy_pg_ops toy_pg_txn
      = (w', [Ok RUnit; Err (err_kind StorageError.Duplicate "Duplicate entry"); Ok (RCount 1);
              Ok RUnit; Ok (REntry None)])
    ∧ @pg_represents demo_allocator toy_hmac toy_cipher toy_cipher_laws toy_derivation toy_profile_key 1 (db w') ∅
    ∧ saved w' = [toy_pg_db] ∧ session w' = session toy_pg_txn ∧ pg_aborted (db w') = false
    ∧ ∀ k, k.1.1.1 ≠ 1%Z → view (pg_tables (db w')) k = view (pg_tables (db toy_pg_txn)) k.
Proof.
  pose proof (@postgres_refines_store demo_allocator toy_hmac toy_cipher toy_cipher_laws toy_derivation toy_codecs
    toy_cbor toy_engine toy_env toy_profile_key 1 ltac:(repeat split) eq_refl toy_rng_length toy_pg_hex_lower
    toy_pg_ops toy_pg_txn ∅) as E.
  apply E; [done|exact toy_pg_represents|exact toy_pg_ops_ok].
Defined.

Lemma pg_failed_query_loses_transaction_witness :
  ∃ w1 e w2, @pg_session_count demo_allocator toy_hmac toy_cipher toy_cbor toy_engine toy_env
        None (Some "cat") (Some no_alternatives) toy_pg_txn = (w1, Err e)
    ∧ session_close true w1 = (w2, Ok ())
    ∧ pg_tables (db w2) = b_db toy_backend ∧ saved w2 = [].
Proof.
  pose proof (@pg_failed_query_loses_transaction demo_allocator toy_hmac toy_cipher toy_cipher_laws toy_derivation
    toy_cbor toy_engine toy_env toy_profile_key 1 ltac:(repeat split) eq_refl toy_rng_length
    toy_pg_txn toy_pg_db None (Some "cat")) as E.
  destruct E as (w1 & e & w2 & E1 & _ & E2 & Et & Es); [done|done|done|apply toy_key_ok|].
  exists w1, e, w2. split; [exact E1|]. split; [exact E2|]. split; [exact Et|exact Es].
Defined.
