(* ===== verification/PgBackend.v ===== *)
(** * The PostgreSQL store: profiles, rekeying and sessions

    Models [impl Backend for PostgresBackend] of askar-storage/src/backend/postgres/mod.rs.
    What does not draw identifiers is proved equal to the operation of SQLite on the same
    tables, whose properties it therefore has. *)

From S2P Require Import Prelude Errors Wql TagSql DbQuery TagSqlSem SqlEval Buffers Utf8 Entry Aead.
From S2P Require Import Protect Options StoreKey DbUtils Session SqliteDb PgDb Sqlite Postgres Store Backend Scans.
From S2P Require Import PgStore SqliteBackend PgProvision Lifecycle PgSession.
Local Open Scope string_scope.
Local Open Scope list_scope.
#[local] Existing Instance pg_resolution.
#[local] Existing Instance postgres_ext.

Section Backend.
Context `{Allocator} `{Hmac} `{AeadCipher} `{StoreCodecs} `{UriCodec} `{CborCodec} `{SqlEngine}.
Abbreviation B := (stm PostgresBackend StorageError.Error).
Abbreviation PW := (World PgDb KeyCache ProfileKey).

Definition set_pdb (d : PgDb) (b : PostgresBackend) : PostgresBackend :=
  mkPgBackend d (pb_pool b) (pb_active_profile b) (pb_key_cache b) (pb_host b) (pb_name b).
Definition set_ppool (p : PoolState) (b : PostgresBackend) : PostgresBackend :=
  mkPgBackend (pb_db b) p (pb_active_profile b) (pb_key_cache b) (pb_host b) (pb_name b).
Definition set_pcache (c : KeyCache) (b : PostgresBackend) : PostgresBackend :=
  mkPgBackend (pb_db b) (pb_pool b) (pb_active_profile b) c (pb_host b) (pb_name b).

(** A call on a connection of the pool, and a statement; a closed pool gives no
    connection to make it on. *)
Definition pb_call (on_err : string → StorageError.Error) : B () := λ b,
  match pb_pool b with
  | PoolOpen [] => (b, Ok ())
  | PoolOpen (None :: fs) => (set_ppool (PoolOpen fs) b, Ok ())
  | PoolOpen (Some msg :: fs) => (set_ppool (PoolOpen fs) b, Err (on_err msg))
  | PoolClosed => (b, Err (on_err pool_closed_text))
  end.

Definition pb_exec {A} (on_err : string → StorageError.Error) (f : Statement A) : B A :=
  _ ← pb_call on_err;
  b ← sget;
  let '(d, r) := f (pb_db b) in
  _ ← smod (set_pdb d);
  match r with
  | Ok a => mret a
  | Err msg => sfail (on_err msg)
  | Panic => lift Panic
  end.

Definition pb_acquire : B () := pb_call StorageError.from_sqlx.

Definition pg_create_profile (rng : nat → bytes) (new_key : sres ProfileKey) (random_name : string)
    (name : option string) : B string :=
  let name := default random_name name in
  b ← sget;
  '(profile_key, enc_key) ← lift (
    profile_key ← new_key;
    enc_key ← encode_profile_key rng profile_key (cache_store_key (pb_key_cache b));
    mret (profile_key, enc_key));
  _ ← pb_acquire;
  res ← pb_exec StorageError.from_sqlx (pg_insert_profile name enc_key);
  match res with
  | Some pid =>
      _ ← smod (λ b, set_pcache (add_profile name pid profile_key (pb_key_cache b)) b);
      mret name
  | None => sfail (err_kind StorageError.Duplicate "Duplicate profile name")
  end.

Definition pg_get_default_profile : B string :=
  _ ← pb_acquire;
  pb_exec (backend_err "Error fetching default profile name") (on_tables (sql_config_get "default_profile")).

Definition pg_set_default_profile (profile : string) : B () :=
  _ ← pb_acquire;
  pb_exec (backend_err "Error setting default profile name")
    (on_tables (λ d, Ok (config_set "default_profile" profile d, ()))).

Definition pg_list_profiles : B (list string) :=
  _ ← pb_acquire;
  pb_exec (backend_err "Error fetching profile list") (on_tables (λ d, Ok (d, List.map p_name (profiles d)))).

Definition pg_remove_profile (name : string) : B bool :=
  _ ← pb_acquire;
  n ← pb_exec (backend_err "Error removing profile") (on_tables (sql_delete_profile name));
  mret (negb (n =? 0)%Z).

(** A transaction of the connection: dropped without commit it is rolled back, which
    gives no identifier back. *)
Definition pg_in_txn {A} (body : B A) : B A := λ b,
  match (_ ← pb_call StorageError.from_sqlx; body) b with
  | (b1, Ok a) =>
      match pb_call StorageError.from_sqlx b1 with
      | (b2, Ok _) => (b2, Ok a)
      | (b2, Err e) => (set_pdb (pg_restore (pb_db b) (pb_db b2)) b2, Err e)
      | (b2, Panic) => (b2, Panic)
      end
  | (b1, Err e) => (set_pdb (pg_restore (pb_db b) (pb_db b1)) b1, Err e)
  | (b1, Panic) => (b1, Panic)
  end.

Fixpoint pg_update_keys (upd : list (Z * bytes)) : B () :=
  match upd with
  | [] => mret ()
  | (pid, key) :: upd' =>
      n ← pb_exec StorageError.from_sqlx (on_tables (sql_update_profile_key pid key));
      if negb (n =? 1)%Z then sfail (err_kind StorageError.Backend "Error updating profile key")
      else pg_update_keys upd'
  end.

Definition pg_rekey (rng : nat → bytes) (rngs : Z → nat → bytes) (method : StoreKeyMethod) (pass_key : PassKey) : B () :=
  '(store_key, store_key_ref) ← lift (method_resolve method rng (pass_into_owned pass_key));
  _ ← pb_acquire;
  _ ← pg_in_txn (
    rows ← pb_exec StorageError.from_sqlx (on_tables (λ d, Ok (d, profiles d)));
    b ← sget;
    upd ← lift (rewrap_keys rngs (pb_key_cache b) store_key rows);
    _ ← pg_update_keys (btree_of upd);
    n ← pb_exec StorageError.from_sqlx (on_tables (λ d, Ok (config_update "key" (ref_into_uri store_key_ref) d)));
    if negb (n =? 1)%Z then sfail (err_kind StorageError.Backend "Error updating store key") else mret ());
  smod (set_pcache (key_cache_new store_key)).

(** ** Sessions *)

Definition pg_backend_session (profile : option string) (transaction : bool) (b : PostgresBackend) : DbSession ProfileKey :=
  session_new (pool_is_closed (pb_pool b)) (default (pb_active_profile b) profile) transaction.

Definition pg_session_world (b : PostgresBackend) (profile : option string) (transaction : bool) : PW :=
  mkWorld (pb_db b) [] (pool_faults (pb_pool b)) (pb_key_cache b) (pg_backend_session profile transaction b).

(** A session of an open pool on which no call fails. *)
Lemma pg_session_world_open b name transaction : pb_pool b = PoolOpen [] →
  session (pg_session_world b (Some name) transaction) = session_new false name transaction
  ∧ faults (pg_session_world b (Some name) transaction) = [].
Proof. intros Hf. unfold pg_session_world, pg_backend_session. cbn. by rewrite Hf. Qed.

(** The store after a session on it was dropped. *)
Definition pg_drop_session (w : PW) (b : PostgresBackend) : PostgresBackend :=
  let w' := (session_drop w).1 in
  mkPgBackend (db w') (pool_refill (pb_pool b) (faults w')) (pb_active_profile b) (cache w') (pb_host b) (pb_name b).

Definition pg_store_scan (env : Env) (profile : option string) (kind : option EntryKind) (category : option string)
    (tag_filter : option TagFilter) (offset limit : option Z) (order_by : option OrderBy) (descending : bool)
    : B (Scan Entry) := λ b,
  let '(w, r) := pg_backend_scan env kind category tag_filter offset limit order_by descending
    (pg_session_world b profile false) in
  (pg_drop_session w b, r).

Definition postgres_backend (env : Env) (new_key : sres ProfileKey) (random_name : string)
    (rngs : Z → nat → bytes) : Backend PostgresBackend PW := {|
  be_sessions := pg_session env;
  be_create_profile := pg_create_profile (env_rng env) new_key random_name;
  be_get_active_profile := pb_active_profile;
  be_get_default_profile := pg_get_default_profile;
  be_set_default_profile := pg_set_default_profile;
  be_list_profiles := pg_list_profiles;
  be_remove_profile := pg_remove_profile;
  be_scan := pg_store_scan env;
  be_session profile transaction b := Ok (pg_session_world b profile transaction);
  be_drop_session := pg_drop_session;
  be_visit b := session_visit (pool_is_closed (pb_pool b));
  be_rekey := pg_rekey (env_rng env) rngs;
  be_holds w := match state (session w) with SActive => true | _ => false end;
  be_scans_hold _ := true;
  be_begin_close := set_ppool PoolClosed;
  be_close := smod (set_ppool PoolClosed);
|}.

(** ** The same on the tables of SQLite *)

Definition tables_of (b : PostgresBackend) : SqliteBackend :=
  mkBackend (pg_tables (pb_db b)) (pb_pool b) (pb_active_profile b) (pb_key_cache b) (pb_name b).

Definition with_tables (b' : SqliteBackend) (b : PostgresBackend) : PostgresBackend :=
  mkPgBackend (set_tables (b_db b') (pb_db b)) (b_pool b') (active_profile b') (key_cache b') (pb_host b) (b_path b').

(** An operation of SQLite done to the tables. *)
Definition via {A} (m : stm SqliteBackend StorageError.Error A) : B A := λ b,
  let '(b', r) := m (tables_of b) in (with_tables b' b, r).
End Backend.

Section Via.
Context `{HAl : Allocator} `{HH : Hmac} `{HC : AeadCipher} `{HS : StoreCodecs} `{HB : CborCodec}.
Abbreviation B := (stm PostgresBackend StorageError.Error).

(** An operation that does to a PostgreSQL store what [m] does to the tables. *)
Definition mirrors {A} (p : B A) (m : stm SqliteBackend StorageError.Error A) : Prop := ∀ b, p b = via m b.

Lemma with_tables_of b : with_tables (tables_of b) b = b.
Proof. by destruct b as [[] ? ? ? ? ?]. Qed.

Lemma mirrors_ret {A} (a : A) : mirrors (mret a) (mret a).
Proof. intros b. unfold via. cbn. by rewrite with_tables_of. Qed.

Lemma mirrors_fail {A} e : mirrors (A := A) (sfail e) (sfail e).
Proof. intros b. unfold via, sfail. by rewrite with_tables_of. Qed.

Lemma mirrors_lift {A} (r : sres A) : mirrors (lift r) (lift r).
Proof. intros b. unfold via, lift. by rewrite with_tables_of. Qed.

Lemma mirrors_bind {A C} (p : B A) m (q : A → B C) (f : A → stm SqliteBackend StorageError.Error C) :
  mirrors p m → (∀ a, mirrors (q a) (f a)) → mirrors (p ≫= q) (m ≫= f).
Proof.
  intros Hp Hq b. unfold mbind, stm_bind. rewrite Hp. unfold via at 1, via.
  destruct (m (tables_of b)) as [b' [a|e|]]; [|done..]. rewrite (Hq a). unfold via.
  assert (tables_of (with_tables b' b) = b') as -> by (by destruct b').
  destruct (f a b') as [b2 r]. by destruct b as [[] ? ? ? ? ?].
Qed.

Lemma mirrors_get {C} (q : PostgresBackend → B C) f : (∀ b, mirrors (q b) (f (tables_of b))) → mirrors (b ← sget; q b) (b ← sget; f b).
Proof. intros Hq b. unfold mbind, stm_bind, sget. rewrite (Hq b). done. Qed.

Lemma mirrors_call on_err : mirrors (pb_call on_err) (b_call on_err).
Proof. intros b. unfold via. destruct b as [[] [[|[m|] fs]|] ? ? ? ?]; done. Qed.

Lemma mirrors_exec {A} on_err (f : Db → res string (Db * A)) : mirrors (pb_exec on_err (on_tables f)) (b_exec on_err f).
Proof.
  apply mirrors_bind; [apply mirrors_call|]. intros _ [[t ps qs ab] fs ap c h n].
  unfold via, on_tables, mbind, stm_bind, sget. cbn. by destruct (f t) as [[t' a]|msg|].
Qed.

Lemma mirrors_smod f g : (∀ b, f b = with_tables (g (tables_of b)) b) → mirrors (smod f) (smod g).
Proof. intros E b. unfold via, smod. by rewrite E. Qed.

Lemma mirrors_acquire : mirrors pb_acquire acquire.
Proof. apply mirrors_call. Qed.

Lemma mirrors_txn {A} (p : B A) m : mirrors p m → mirrors (pg_in_txn p) (in_txn m).
Proof.
  intros Hp b. pose proof (mirrors_bind _ _ _ _ (mirrors_call StorageError.from_sqlx) (λ _, Hp) b) as E.
  unfold pg_in_txn, via, in_txn in *. rewrite E.
  destruct ((_ ← b_call _; m) (tables_of b)) as [b1 [a|e|]].
  - pose proof (mirrors_call StorageError.from_sqlx (with_tables b1 b)) as E2. unfold via in E2.
    assert (tables_of (with_tables b1 b) = b1) as Et by (by destruct b1). rewrite Et in E2. rewrite E2.
    destruct (b_call _ b1) as [b2 [[]|e|]]; by destruct b as [[] ? ? ? ? ?].
  - by destruct b as [[] ? ? ? ? ?].
  - by destruct b as [[] ? ? ? ? ?].
Qed.

Lemma mirrors_update_keys upd : mirrors (pg_update_keys upd) (update_keys upd).
Proof.
  induction upd as [|[pid key] upd IH]; cbn [pg_update_keys update_keys]; [apply mirrors_ret|].
  apply mirrors_bind; [apply mirrors_exec|]. intros n. destruct (negb _); [apply mirrors_fail|done].
Qed.

Lemma mirrors_rekey rng rngs method pass : mirrors (pg_rekey rng rngs method pass) (rekey rng rngs method pass).
Proof.
  apply mirrors_bind; [apply mirrors_lift|]. intros [sk ref]. apply mirrors_bind; [apply mirrors_acquire|]. intros _.
  apply mirrors_bind; [|intros _; apply mirrors_smod; by intros [[] ? ? ? ? ?]]. apply mirrors_txn.
  apply mirrors_bind; [apply mirrors_exec|]. intros rows. apply mirrors_get. intros b.
  apply mirrors_bind; [apply mirrors_lift|]. intros upd. apply mirrors_bind; [apply mirrors_update_keys|]. intros _.
  apply mirrors_bind; [apply mirrors_exec|]. intros n. destruct (negb _); [apply mirrors_fail|apply mirrors_ret].
Qed.

Lemma mirrors_remove name : mirrors (pg_remove_profile name) (remove_profile name).
Proof.
  apply mirrors_bind; [apply mirrors_acquire|]. intros _. apply mirrors_bind; [apply mirrors_exec|]. intros n. apply mirrors_ret.
Qed.
End Via.

(** ** A session finds its profile *)

Section Activation.
Context `{HAl : Allocator} `{HH : Hmac} `{HC : AeadCipher} `{HS : StoreCodecs} `{HB : CborCodec}.
Abbreviation PW := (World PgDb KeyCache ProfileKey).

(** The transaction of a new session. *)
Abbreviation begun w transaction := (if transaction : bool then db w :: saved w else saved w).

Lemma pg_begin_session (w : PW) name transaction :
  session w = session_new false name transaction → faults w = [] → pg_aborted (db w) = false →
  let w1 := mkWorld (db w) (begun w transaction) [] (cache w)
    (mkSession (KPending (K := ProfileKey) "") SActive (if transaction then 1 else 0)%nat) in
  pg_acquire_session w
  = ('(pid, key) ← pg_resolve_profile_key name transaction; _ ← set_key (KActive pid key); mret pid) w1.
Proof.
  destruct w as [d sv fs c se]. cbn [session faults db]. intros -> -> Ha. unfold pg_acquire_session, make_active.
  destruct d as [t ps qs ab]. cbn in Ha. subst ab.
  destruct transaction; cbv -[pg_resolve_profile_key]; reflexivity.
Qed.

(** What the cache holds for a profile, if anything, is what the store holds. *)
Definition pg_profile_in_store (d : PgDb) (c : KeyCache) (name : string) (pid : Z) (pk : ProfileKey) : Prop :=
  profile_in_store (pg_tables d) c name pid pk.

Lemma found_profile name d pid enc :
  sql_find_profile name d = Ok (d, Some (pid, enc)) → has_profile pid d = true.
Proof.
  unfold sql_find_profile. destruct (List.find _ (profiles d)) as [p|] eqn:E; [|done]. cbn. intros [= <- <-].
  apply find_some in E as [Hin _]. apply existsb_exists. exists p. split; [done|]. by apply bool_decide_eq_true.
Qed.

Lemma pg_resolve_run (w : PW) name in_txn pid pk :
  faults w = [] → pg_aborted (db w) = false → pg_profile_in_store (db w) (cache w) name pid pk →
  ∃ c, pg_resolve_profile_key name in_txn w = (set_cache c w, Ok (pid, pk)).
Proof.
  intros Hf Ha (enc & Ef & El & Hg). unfold pg_resolve_profile_key. rewrite (stm_bind_ok sget _ w w w eq_refl).
  destruct Hg as [-> | ->].
  - rewrite (stm_bind_ok _ _ _ _ _ (pg_exec_tables _ _ w _ _ Hf Ha Ef)), set_tables_same. cbv beta iota.
    rewrite (stm_bind_ok _ _ _ _ _ (lift_ok _ _ _ El)). by eexists.
  - exists (cache w). destruct in_txn; [|by destruct w]. unfold pg_lock_profile.
    erewrite stm_bind_ok; [|apply pg_exec_tables; [done|done|reflexivity]].
    rewrite (found_profile _ _ _ _ Ef), set_tables_same. by destruct w.
Qed.

Lemma pg_activate (w : PW) name transaction pid pk :
  session w = session_new false name transaction → faults w = [] → pg_aborted (db w) = false →
  pg_profile_in_store (db w) (cache w) name pid pk →
  ∃ w', pg_acquire_key w = (w', Ok (pid, pk)) ∧ pg_ready pk pid w' ∧ db w' = db w ∧ saved w' = begun w transaction
    ∧ txn_depth (session w') = (if transaction then 1 else 0)%nat.
Proof.
  intros Hs Hf Ha Hp. unfold pg_acquire_key. pose proof (pg_begin_session w name transaction Hs Hf Ha) as E. cbv zeta in E.
  set (w1 := mkWorld _ _ _ _ _) in E.
  destruct (pg_resolve_run w1 name transaction pid pk eq_refl Ha Hp) as (c & Er).
  exists (set_session (mkSession (KActive pid pk) SActive (if transaction then 1 else 0)%nat) (set_cache c w1)).
  split; [|by split_and!].
  rewrite (stm_bind_ok _ _ _ (set_session (mkSession (KActive pid pk) SActive (if transaction then 1 else 0)%nat) (set_cache c w1)) pid);
    [done|]. rewrite E. by rewrite (stm_bind_ok _ _ _ _ _ Er).
Qed.
End Activation.

(** ** A store from its creation *)

Section Lifecycle.
Context `{PgClient}.
Context `{HAl : Allocator} `{HH : Hmac} `{HC : AeadCipher} {laws : CipherLaws} {HD : LawfulDerivation Chacha20Key}.
Context `{HS : StoreCodecs} {SL : StoreCodecLaws} `{HU : UriCodec} {UL : UriCodecLaws}.
Context `{HB : CborCodec} `{HE : SqlEngine}.
Abbreviation PW := (World PgDb KeyCache ProfileKey).
Abbreviation target o := (default (po_username o) (po_schema o)).

(** Closing a session whose transaction was begun on an empty store. *)
Lemma pg_close_run pk (w : PW) d0 s commit :
  state (session w) = SActive → txn_depth (session w) = 1%nat → faults w = [] → saved w = [d0] →
  pg_aborted (db w) = false → pg_represents pk 1 (db w) s → pg_represents pk 1 d0 ∅ → items (pg_tables d0) = [] →
  profiles (pg_tables (db w)) = profiles (pg_tables d0) →
  ∃ w', session_close commit w = (w', Ok ()) ∧ saved w' = [] ∧ pg_represents pk 1 (db w') (if commit : bool then s else ∅).
Proof.
  destruct w as [[t ps qs ab] sv fs c [k st n]], d0 as [t0 ps0 qs0 ab0]. cbn.
  intros -> -> -> -> -> [Hr Hwf] [Hr0 Hwf0] Hi Hp.
  destruct commit; eexists; (split; [cbv; reflexivity|]); (split; [done|]); [by split|]. split; [exact Hr0|].
  split; [apply Hr0|cbn; rewrite Hi; constructor|]. cbn. rewrite <- Hp. apply Hwf.
Qed.

(** C3: On a server where nothing is in the way: the store is provisioned, opened again with
    the same pass key, a session finds the profile, in a transaction or not, and its
    operations behave as those of an empty abstract store; closing a transaction with
    commit keeps what they did, and without takes all of it back. *)
Theorem pg_store_lifecycle env pk rng random_name meanwhile o method pass profile recreate sk ref rest s transaction ops :
  profile_ok pk → cipher_nonce_size = 12%nat → (∀ n, length (env_rng env n) = n) →
  (∀ b, hex_decode (pg_hex b) = Some b) →
  srv_faults s = [] → (0 < po_max_connections o)%Z → uri_database (po_uri o) = po_name o →
  search_path o = target o :: rest →
  vacant o recreate (databases s) → (∀ dbs, vacant o recreate dbs → vacant o recreate (meanwhile dbs)) →
  (∀ n, length (rng n) = n) → key_portable pk →
  (method = StoreKeyMethod.RawKey → pass_is_empty pass = false) →
  method_resolve method rng pass = Ok (sk, ref) → pg_ops_ok env pk ops ∅ →
  ∃ s' b w w', pg_provision rng (Ok pk) random_name meanwhile o method pass profile recreate s = (s', Ok b)
    ∧ pg_open o (Some method) pass profile s' = (s', Ok b)
    ∧ pg_acquire_key (pg_session_world b None transaction) = (w, Ok (1%Z, pk))
    ∧ s_run (H := pg_session env) ops w = (w', (a_run sql_like env ops ∅).2)
    ∧ pg_represents pk 1 (db w') (a_run sql_like env ops ∅).1
    ∧ (transaction = true → ∀ commit, ∃ w'', session_close commit w' = (w'', Ok ()) ∧ saved w'' = []
         ∧ pg_represents pk 1 (db w'') (if commit : bool then (a_run sql_like env ops ∅).1 else ∅)).
Proof.
  intros Hpko H12 Hrl Hhex Hf Hmax En Hp Hv Hmw Hr Hpk Hraw Eres Hops.
  destruct (pg_provision_run o rng pk random_name meanwhile method pass profile recreate sk ref (Some method) rest s
    Hf Hmax En Hp Hv Hmw Hr Hpk Hraw Eres (or_intror eq_refl)) as (s' & enc & Hload & E & Eo & _).
  set (name := default random_name profile) in *. set (d := mkPg (init_tables name (ref_into_uri ref) enc) 2 1 false) in *.
  set (b := mkPgBackend d (PoolOpen []) name _ _ _) in *.
  assert (Hin : pg_profile_in_store (pb_db b) (pb_key_cache b) name 1 pk).
  { exists enc. split_and!; [apply init_tables_find|exact Hload|right; apply lookup_insert_eq]. }
  assert (Hd : pg_represents pk 1 d ∅) by (split; [apply init_represents|apply pg_init_wf]).
  destruct (pg_activate (pg_session_world b None transaction) name transaction 1 pk eq_refl eq_refl eq_refl Hin)
    as (w & Ew & Hw & Hdb & Hsv & Hdep).
  destruct (pg_run_sim env pk 1 Hpko H12 Hrl Hhex ops w ∅ Hw) as (w' & Er & Hr' & (Hs1 & Hs2 & Hs3) & Hfr);
    [rewrite Hdb; exact Hd|done|].
  exists s', b, w, w'. do 5 (split; [done|]). intros -> commit.
  destruct Hw as (Hst & Hk & _ & Ha). destruct Hfr as [(Hpr & _) Hab].
  apply (pg_close_run pk w' d); rewrite ?Hs2, ?Hs1, ?Hab; try done. rewrite Hpr, Hdb. done.
Qed.
End Lifecycle.

(** ** Rekeying *)

Section Rekey.
Context `{PgClient}.
Context `{Allocator} `{HC : AeadCipher} {laws : CipherLaws} `{HS : StoreCodecs} {SL : StoreCodecLaws}.
Context `{HU : UriCodec} {UL : UriCodecLaws} `{HB : CborCodec}.

(** C23: Rekeying a PostgreSQL store is all or nothing, whatever goes wrong and whenever;
    when it succeeds it replaces the key every profile key is stored under and nothing
    else: any server whose search path finds the tables opens them with the new pass
    key, and every profile has the key it had before. *)
Theorem pg_rekey_correct rng rngs method pass b :
  (∀ b' e, pg_rekey rng rngs method pass b = (b', Err e) → pb_db b' = pb_db b ∧ pb_key_cache b' = pb_key_cache b)
  ∧ ∀ sk ref key_of, pb_pool b = PoolOpen [] → db_wf (pg_tables (pb_db b)) → config_ok (pg_tables (pb_db b)) →
    keys_readable (pb_key_cache b) (pg_tables (pb_db b)) key_of →
    (∀ n, length (rng n) = n) → (∀ i n, length (rngs i n) = n) →
    (method = StoreKeyMethod.RawKey → pass_is_empty pass = false) →
    method_resolve method rng pass = Ok (sk, ref) →
    ∃ b', pg_rekey rng rngs method pass b = (b', Ok ())
      ∧ items (pg_tables (pb_db b')) = items (pg_tables (pb_db b))
      ∧ items_tags (pg_tables (pb_db b')) = items_tags (pg_tables (pb_db b))
      ∧ ∀ p o s m n, p ∈ profiles (pg_tables (pb_db b)) →
          srv_faults s = [] → databases s !! uri_database (po_uri o) = Some m →
          locate (search_path o) m = Some (n, pb_db b') → (0 < po_max_connections o)%Z →
          ∃ b'', pg_open_db o 0 (Some method) pass (Some (p_name p)) s = (s, Ok b'')
            ∧ get_profile (p_name p) (pb_key_cache b'') = Some (p_id p, key_of p).
Proof.
  split.
  - intros b' e. rewrite mirrors_rekey. unfold via.
    destruct (rekey rng rngs method pass (tables_of b)) as [b1 r] eqn:E. intros [= <- ->].
    apply rekey_fails in E as [Ed Ec]. by destruct b as [[] ? ? ? ? ?], b1; cbn in *; subst.
  - intros sk ref key_of Hf Hwf Hc Hk Hr Hrs Hraw Eres.
    destruct (rekey_run rng rngs method pass (tables_of b) sk ref key_of Hf Hwf Hc Hk Hr Hrs Eres) as (upd & E & Hload).
    eexists. split; [rewrite mirrors_rekey; unfold via; rewrite E; reflexivity|]. do 2 (split; [done|]).
    intros p o s m n Hp Hsf Hdb Hl Hmax. destruct Hc as (_ & Hkey & dp & k & Hrc).
    pose proof (open_rekeyed rng method pass (pg_tables (pb_db b)) upd p dp k (key_of p) sk ref "" Hwf Hrc Hkey Hp Hr Hraw
      Eres (Hload p Hp)) as Eo.
    cbv zeta in Eo. eexists. split.
    + rewrite (pg_open_db_run o 0 _ _ _ s m n _ "" Hsf Hdb Hl) by lia.
      match type of Eo with open_db ?t _ _ _ _ = _ =>
        match goal with |- context [open_db ?u _ _ _ _] => change u with t end end.
      rewrite Eo. reflexivity.
    + apply lookup_insert_eq.
Qed.
End Rekey.

(** ** A removed profile *)

Section RemovedProfile.
Context `{HAl : Allocator} `{HH : Hmac} `{HC : AeadCipher} {laws : CipherLaws} `{HS : StoreCodecs} `{HB : CborCodec}.
Abbreviation PW := (World PgDb KeyCache ProfileKey).

Lemma pb_exec_ok {A} on_err (f : Statement A) b d a :
  pb_pool b = PoolOpen [] → f (pb_db b) = (d, Ok a) → pb_exec on_err f b = (set_pdb d b, Ok a).
Proof.
  destruct b as [d0 fs ap c h n]. cbn. intros -> E. unfold pb_exec, mbind, stm_bind, pb_call, sget. cbn. by rewrite E.
Qed.

Lemma pb_acquire_ok b : pb_pool b = PoolOpen [] → pb_acquire b = (b, Ok ()).
Proof. destruct b as [d0 fs ap c h n]. cbn. by intros ->. Qed.

(** A new name takes the identifier the sequence gives. *)
Lemma pg_create_run rng pk random_name name b :
  pb_pool b = PoolOpen [] → (∀ n, length (rng n) = n) → store_key_ok (cache_store_key (pb_key_cache b)) →
  key_portable pk → name ∉ List.map p_name (profiles (pg_tables (pb_db b))) →
  let id := pg_profile_seq (pb_db b) in
  ∃ enc, pg_create_profile rng (Ok pk) random_name (Some name) b
    = (set_pcache (add_profile name id pk (pb_key_cache b))
        (set_pdb (set_tables (set_profiles (profiles (pg_tables (pb_db b)) ++ [mkProfile id name enc]) (pg_tables (pb_db b)))
          (next_profile (pb_db b))) b), Ok name).
Proof.
  intros Hf Hr Hsk (x & Eto & Efrom & Hx) Hn id.
  destruct (load_encoded_key rng _ pk x Hr Hsk Eto Efrom Hx) as (enc & Eenc & _). exists enc.
  unfold pg_create_profile. rewrite (stm_bind_ok sget _ b b b eq_refl).
  erewrite stm_bind_ok; [|apply lift_ok; rewrite (bind_ok (Ok pk) _ _ eq_refl), (bind_ok _ _ _ Eenc); reflexivity].
  cbv beta iota. rewrite (stm_bind_ok _ _ _ _ _ (pb_acquire_ok b Hf)).
  erewrite stm_bind_ok; [|apply pb_exec_ok; [done|]; unfold pg_insert_profile;
    cbn [pg_tables next_profile default from_option id];
    rewrite existsb_name_false by done; reflexivity]. done.
Qed.

(** The cached profile of a session is checked when it is in a transaction. *)
Lemma pg_activate_cached (w : PW) name transaction pid pk :
  session w = session_new false name transaction → faults w = [] → pg_aborted (db w) = false →
  get_profile name (cache w) = Some (pid, pk) → has_profile pid (pg_tables (db w)) = false →
  ∃ w', db w' = db w ∧ pg_acquire_key w = (w', if transaction : bool
    then Err (err_kind StorageError.NotFound "Session profile has been removed") else Ok (pid, pk)).
Proof.
  intros Hs Hf Ha Hg Hp. unfold pg_acquire_key. pose proof (pg_begin_session w name transaction Hs Hf Ha) as E. cbv zeta in E.
  set (w1 := mkWorld _ _ _ _ _) in E. unfold mbind at 1, stm_bind at 1. rewrite E.
  unfold pg_resolve_profile_key. rewrite stm_bind_assoc, (stm_bind_ok sget _ w1 w1 w1 eq_refl). cbn [cache w1]. rewrite Hg.
  destruct transaction; [|by exists (set_session (mkSession (KActive pid pk) SActive 0) w1)].
  exists w1. split; [done|]. rewrite stm_bind_assoc. unfold pg_lock_profile.
  erewrite stm_bind_ok; [|apply pg_exec_tables; [done|done|reflexivity]].
  cbn [db w1]. rewrite Hp. f_equal. unfold w1. by destruct (db w).
Qed.

Lemma fresh_profile d : pg_wf d → pg_profile_seq d ∉ List.map p_id (profiles (pg_tables d)).
Proof.
  intros [_ _ Hb] (p & E & Hp)%list_elem_of_fmap. rewrite Forall_forall in Hb. specialize (Hb _ Hp). cbn in Hb. lia.
Qed.

(** C24: A removed profile never shares its identifier with a later one: the sequence
    does not give it again.  After a profile is created and removed and another is
    created, a session for the removed name is refused in a transaction; out of one it
    has the removed identifier, under which no row is stored and none can be
    inserted. *)
Theorem pg_removed_profile_safe rng pk1 pk2 random_name name other b transaction :
  pb_pool b = PoolOpen [] → pg_wf (pb_db b) → pg_aborted (pb_db b) = false → (∀ n, length (rng n) = n) →
  store_key_ok (cache_store_key (pb_key_cache b)) → key_portable pk1 → key_portable pk2 → name ≠ other →
  name ∉ List.map p_name (profiles (pg_tables (pb_db b))) → other ∉ List.map p_name (profiles (pg_tables (pb_db b))) →
  ∃ b1 b2 b3 id id' w r, pg_create_profile rng (Ok pk1) random_name (Some name) b = (b1, Ok name)
    ∧ pg_remove_profile name b1 = (b2, Ok true)
    ∧ pg_create_profile rng (Ok pk2) random_name (Some other) b2 = (b3, Ok other)
    ∧ get_profile other (pb_key_cache b3) = Some (id', pk2) ∧ id ≠ id'
    ∧ pg_acquire_key (pg_session_world b3 (Some name) transaction) = (w, r) ∧ db w = pb_db b3
    ∧ r = (if transaction : bool then Err (err_kind StorageError.NotFound "Session profile has been removed")
           else Ok (id, pk1))
    ∧ (∀ kind category n value expiry, let k := (id, kind, category, n) in
         view (pg_tables (pb_db b3)) k = None
         ∧ ∃ d msg, pg_insert_item k value expiry (pb_db b3) = (d, Err msg) ∧ pg_tables d = pg_tables (pb_db b3)).
Proof.
  intros Hf [Hwf Hib Hpb] Ha Hr Hsk Hpk1 Hpk2 Hne Hn Ho.
  destruct (pg_create_run rng pk1 random_name name b Hf Hr Hsk Hpk1 Hn) as (enc1 & E1).
  set (id := pg_profile_seq (pb_db b)) in *. set (b1 := set_pcache _ _) in E1.
  assert (Hid : id ∉ List.map p_id (profiles (pg_tables (pb_db b)))) by (by apply fresh_profile).
  destruct (add_profile_spec id name enc1 (pg_tables (pb_db b)) Hwf Hn Hid) as (Hwf1 & _).
  destruct (remove_run name (tables_of b1) Hf Hwf1) as (t2 & E2 & Hp2 & Hwf2 & Hv2).
  assert (Hg : List.filter (λ p, negb (String.eqb (p_name p) name)) (profiles (b_db (tables_of b1)))
    = profiles (pg_tables (pb_db b))) by (by apply filter_last_name).
  rewrite Hg in Hp2.
  assert (Ex : existsb (λ p, String.eqb (p_name p) name) (profiles (b_db (tables_of b1))) = true).
  { cbn. rewrite List.existsb_app. cbn. by rewrite String.eqb_refl, orb_true_r. }
  rewrite Ex in E2.
  pose proof (mirrors_remove name b1) as E2'. unfold via in E2'. rewrite E2 in E2'.
  set (b2 := with_tables _ b1) in E2'.
  destruct (pg_create_run rng pk2 random_name other b2) as (enc2 & E3);
    [done|done|done|done|by change (other ∉ List.map p_name (profiles t2)); rewrite Hp2|].
  set (b3 := set_pcache _ _) in E3. change (pg_profile_seq (pb_db b2)) with (id + 1)%Z in *.
  assert (Hid2 : (id + 1)%Z ∉ List.map p_id (profiles t2)).
  { rewrite Hp2. intros (p & E & Hp)%list_elem_of_fmap. rewrite Forall_forall in Hpb. specialize (Hpb _ Hp). cbn in Hpb.
    subst id. lia. }
  destruct (add_profile_spec (id + 1) other enc2 t2 Hwf2 ltac:(by rewrite Hp2) Hid2) as (_ & _ & Hv3 & _).
  assert (Hgone : has_profile id (pg_tables (pb_db b3)) = false).
  { apply not_true_iff_false. intros (p & Hp & E%bool_decide_eq_true)%existsb_exists.
    cbn in Hp. rewrite Hp2 in Hp. apply list_elem_of_In, elem_of_app in Hp as [Hp|Hp%list_elem_of_singleton].
    - apply Hid. rewrite <- E. by apply list_elem_of_fmap_2.
    - subst p. cbn in E. lia. }
  assert (Hc : get_profile name (pb_key_cache b3) = Some (id, pk1)).
  { unfold get_profile. cbn. rewrite lookup_insert_ne by done. apply lookup_insert_eq. }
  destruct (pg_activate_cached (pg_session_world b3 (Some name) transaction) name transaction id pk1)
    as (w & Hdb & Ew); [by apply pg_session_world_open|by apply pg_session_world_open|done..|].
  eexists b1, b2, b3, id, (id + 1)%Z, w, _.
  split; [exact E1|]. split; [exact E2'|]. split; [exact E3|]. split; [apply lookup_insert_eq|]. split; [lia|].
  split; [exact Ew|]. split; [exact Hdb|]. split; [done|]. intros kind category n value expiry k.
  assert (Hview : view (pg_tables (pb_db b3)) k = None).
  { change (view (set_profiles (profiles t2 ++ [mkProfile (id + 1) other enc2]) t2) k = None).
    rewrite Hv3, Hv2. cbn [b_db tables_of b1 pb_db set_pcache set_pdb pg_tables set_tables profiles set_profiles].
    rewrite List.existsb_app. cbn. by rewrite String.eqb_refl, bool_decide_true, orb_true_r by done. }
  split; [exact Hview|]. apply view_find in Hview. eexists _, _. split.
  - rewrite pg_insert_cases, Hview. change k.1.1.1 with id. rewrite Hgone. reflexivity.
  - done.
Qed.
End RemovedProfile.

(** ** Instances on a small server *)

Lemma pg_store_lifecycle_witness :
  let o := toy_pg_options 10 None in
  ∃ s' b w w', @pg_provision toy_pg_client demo_allocator toy_cipher toy_codecs demo_codec toy_cbor toy_rng
      (Ok toy_profile_key) "main" toy_meanwhile o toy_method (pass_from "pass") None false toy_pg_server = (s', Ok b)
    ∧ @pg_acquire_key demo_allocator toy_cipher toy_cbor (pg_session_world b None true) = (w, Ok (1%Z, toy_profile_key))
    ∧ @s_run _ toy_pg_session toy_pg_ops w
      = (w', [Ok RUnit; Err (err_kind StorageError.Duplicate "Duplicate entry"); Ok (RCount 1); Ok RUnit; Ok (REntry None)])
    ∧ ∃ w'', session_close false w' = (w'', Ok ()) ∧ saved w'' = [].
Proof.
  intros o.
  pose proof (@pg_store_lifecycle toy_pg_client demo_allocator toy_hmac toy_cipher toy_cipher_laws toy_derivation
    toy_codecs toy_codecs_laws demo_codec demo_codec_laws toy_cbor toy_engine toy_env toy_profile_key toy_rng "main"
    toy_meanwhile o toy_method (pass_from "pass") None false toy_store_key toy_reference ["public"] toy_pg_server
    true toy_pg_ops) as E.
  destruct E as (s' & b & w & w' & E1 & _ & E2 & E3 & _ & E4).
  - repeat split.
  - reflexivity.
  - exact toy_rng_length.
  - exact toy_pg_hex_lower.
  - reflexivity.
  - reflexivity.
  - reflexivity.
  - reflexivity.
  - right. split; [reflexivity|]. intros n _. reflexivity.
  - exact toy_vacant.
  - exact toy_rng_length.
  - exact toy_key_portable.
  - discriminate.
  - vm_compute. reflexivity.
  - exact toy_pg_ops_ok.
  - exists s', b, w, w'. split; [exact E1|]. split; [exact E2|]. split; [exact E3|].
    destruct (E4 eq_refl false) as (w'' & E5 & E6 & _). exists w''. split; [exact E5|exact E6].
Defined.

Definition toy_pg_backend (faults : list (option string)) : PostgresBackend :=
  mkPgBackend toy_pg_db (PoolOpen faults) "main" (key_cache toy_backend) "host" "db".

(** Once with success, and once the commit fails. *)
Lemma pg_rekey_correct_witness :
  (∃ b', @pg_rekey demo_allocator toy_cipher toy_codecs toy_cbor toy_rng (λ _, toy_rng)
      StoreKeyMethod.Unprotected pass_empty (toy_pg_backend []) = (b', Ok ()) ∧ items (pg_tables (pb_db b')) = [])
  ∧ ∃ b', @pg_rekey demo_allocator toy_cipher toy_codecs toy_cbor toy_rng (λ _, toy_rng)
      StoreKeyMethod.Unprotected pass_empty (toy_pg_backend [None; None; None; None; None; Some "connection lost"])
      = (b', Err (StorageError.from_sqlx "connection lost")) ∧ pb_db b' = toy_pg_db.
Proof.
  split.
  - pose proof (@pg_rekey_correct toy_pg_client demo_allocator toy_cipher toy_cipher_laws toy_codecs toy_codecs_laws
      demo_codec demo_codec_laws toy_cbor toy_rng (λ _, toy_rng) StoreKeyMethod.Unprotected pass_empty (toy_pg_backend [])) as [_ E].
    destruct (E store_key_empty StoreKeyReference.Unprotected (λ _, toy_profile_key)) as (b' & E1 & E2 & _).
    + reflexivity.
    + cbn; auto with wf.
    + exact toy_config_ok.
    + exact toy_keys_readable.
    + exact toy_rng_length.
    + intros i. exact toy_rng_length.
    + discriminate.
    + reflexivity.
    + exists b'. split; [exact E1|exact E2].
  - pose proof (@pg_rekey_correct toy_pg_client demo_allocator toy_cipher toy_cipher_laws toy_codecs toy_codecs_laws
      demo_codec demo_codec_laws toy_cbor toy_rng (λ _, toy_rng) StoreKeyMethod.Unprotected pass_empty
      (toy_pg_backend [None; None; None; None; None; Some "connection lost"])) as [E _].
    eexists. split; [vm_compute; reflexivity|].
    apply (E _ (StorageError.from_sqlx "connection lost")). vm_compute. reflexivity.
Defined.

Lemma pg_removed_profile_safe_witness :
  ∃ b1 b2 b3 w, @pg_create_profile demo_allocator toy_cipher toy_cbor toy_rng (Ok toy_profile_key) "r" (Some "a")
        (toy_pg_backend []) = (b1, Ok "a")
    ∧ pg_remove_profile "a" b1 = (b2, Ok true)
    ∧ @pg_create_profile demo_allocator toy_cipher toy_cbor toy_rng (Ok toy_profile_key) "r" (Some "b") b2 = (b3, Ok "b")
    ∧ @pg_acquire_key demo_allocator toy_cipher toy_cbor (pg_session_world b3 (Some "a") true)
      = (w, Err (err_kind StorageError.NotFound "Session profile has been removed")).
Proof.
  pose proof (@pg_removed_profile_safe demo_allocator toy_cipher toy_cipher_laws toy_cbor toy_rng toy_profile_key
    toy_profile_key "r" "a" "b" (toy_pg_backend []) true) as E.
  destruct E as (b1 & b2 & b3 & id & id' & w & r & E1 & E2 & E3 & _ & _ & E4 & _ & Er & _).
  - reflexivity.
  - exact toy_pg_wf.
  - reflexivity.
  - exact toy_rng_length.
  - reflexivity.
  - exact toy_key_portable.
  - exact toy_key_portable.
  - discriminate.
  - cbn. set_solver.
  - cbn. set_solver.
  - exists b1, b2, b3, w. split; [exact E1|]. split; [exact E2|]. split; [exact E3|]. rewrite E4. exact (f_equal (pair w) Er).
Defined.
