(* ===== verification/Copying.v ===== *)
(** * SQLite as a backend, and copying between stores

    The SQLite store as an instance of the traits of [Backend], its sessions proved to
    keep the contract, and what copying a profile from one store to another does. *)

From S2P Require Import Prelude Errors Wql TagSql DbQuery TagSqlSem SqlEval Buffers Utf8 Entry Aead.
From S2P Require Import Protect Options StoreKey DbUtils Session SqliteDb Sqlite Store Backend Scans.
From S2P Require Import SqliteBackend Lifecycle.
Local Open Scope string_scope.
Local Open Scope list_scope.
#[local] Existing Instance sqlite_resolution.

Section Instances.
Context `{Allocator} `{Hmac} `{AeadCipher} `{StoreCodecs} `{CborCodec} `{SqlEngine}.
Abbreviation W := (World Db KeyCache ProfileKey).

Definition sqlite_session (env : Env) : BackendSession W := {|
  bs_count := count env;
  bs_fetch := fetch env;
  bs_fetch_all := fetch_all env;
  bs_remove_all := remove_all;
  bs_update := update env;
  bs_ping := ping;
  bs_close := session_close;
|}.

(** The store after a session on it was dropped. *)
Definition drop_session (w : W) (b : SqliteBackend) : SqliteBackend :=
  let w' := (session_drop w).1 in mkBackend (db w') (pool_refill (b_pool b) (faults w')) (active_profile b) (cache w') (b_path b).

(** [SqliteBackend::scan] opens a session of its own. *)
Definition scan (env : Env) (profile : option string) (kind : option EntryKind) (category : option string)
    (tag_filter : option TagFilter) (offset limit : option Z) (order_by : option OrderBy) (descending : bool)
    : stm SqliteBackend StorageError.Error (Scan Entry) := λ b,
  let '(w, r) := backend_scan env kind category tag_filter offset limit order_by descending
    (session_world b profile false) in
  (drop_session w b, r).

(** The random choices of the operations on profiles are parameters. *)
Definition sqlite_backend (env : Env) (new_key : sres ProfileKey) (random_name : string)
    (rngs : Z → nat → bytes) : Backend SqliteBackend W := {|
  be_sessions := sqlite_session env;
  be_create_profile := create_profile (env_rng env) new_key random_name;
  be_get_active_profile := active_profile;
  be_get_default_profile := get_default_profile;
  be_set_default_profile := set_default_profile;
  be_list_profiles := list_profiles;
  be_remove_profile := remove_profile;
  be_scan := scan env;
  be_session profile transaction b := Ok (session_world b profile transaction);
  be_drop_session := drop_session;
  be_visit b := session_visit (pool_is_closed (b_pool b));
  be_rekey := rekey (env_rng env) rngs;
  be_holds w := match state (session w) with SActive => true | _ => false end;
  be_scans_hold _ := true;
  be_begin_close := set_bpool PoolClosed;
  be_close := smod (set_bpool PoolClosed);
|}.
End Instances.

(** ** The contract of SQLite sessions *)

Section Contract.
Context `{HAl : Allocator} `{HH : Hmac} `{HC : AeadCipher} {laws : CipherLaws} {HD : LawfulDerivation Chacha20Key}.
Context `{HS : StoreCodecs} `{HB : CborCodec} `{HE : SqlEngine}.
Context (env : Env) (pk : ProfileKey) (pid : Z).
Abbreviation W := (World Db KeyCache ProfileKey).
Hypothesis pk_ok : profile_ok pk.
Hypothesis nonce_12 : cipher_nonce_size = 12%nat.
Hypothesis rng_length : ∀ n, length (env_rng env n) = n.
Hypothesis hex_upper : ∀ b, hex_decode (sql_hex b) = Some b.

(** The session since a state [w0]: its transactions are those of [w0], and the other
    profiles have not changed. *)
Definition session_rep (w0 w : W) (s : AStore) : Prop :=
  ready pk pid w ∧ represents pk pid (db w) s ∧ stays w0 w ∧ frame pid (db w0) (db w).

Definition sqlite_filter_ok (s : AStore) (f : option TagFilter) : Prop :=
  filter_ready pk s f ∧ (Z.of_nat (filter_size f) + 6 ≤ i64_max)%Z.

Lemma session_rep_refl w s : ready pk pid w → represents pk pid (db w) s → session_rep w w s.
Proof. intros Hw Hr. pose proof Hw as (_ & _ & Hf). split_and!; try done. Qed.

Lemma session_rep_step w0 w w' s s' : session_rep w0 w s → stays w w' → represents pk pid (db w') s' →
  frame pid (db w) (db w') → session_rep w0 w' s'.
Proof.
  intros (Hw & Hr & (S1 & T1 & F1) & Hf) (S2 & T2 & F2) Hr' Hf'.
  split_and!; [by eapply stays_ready; [|split_and!; [exact S2|exact T2|exact F2]]|done| |by eapply frame_trans].
  split_and!; congruence.
Qed.

Definition sqlite_contract (w0 : W) : @SessionContract W (sqlite_session env).
Proof.
  refine {|
    ct_env := env; ct_like := sql_like; ct_rep := session_rep w0; ct_key_ok := akey_ok;
    ct_value_ok v := value_ok (Some v); ct_tags_ok ts := tags_ok (Some ts); ct_filter_ok := sqlite_filter_ok;
    ct_limit_ok _ := True |}.
  - intros w s kind op c n v ts ms Hrep Hk Hv Ht. pose proof Hrep as (Hw & Hr & _).
    pose proof (update_sim env pk pid pk_ok rng_length w s op kind c n v ts ms Hw Hr Hk Hv Ht) as Hs.
    destruct (a_update _ _ _ _ _ _ _) as [s' r]. destruct Hs as (w' & E & Hst & Hrep' & Hfr).
    exists w'. split; [exact E|]. by eapply session_rep_step.
  - intros w s kind c n fu Hrep Hk. pose proof Hrep as (Hw & Hr & _). exists w. split; [|done].
    exact (fetch_run env pk pid pk_ok hex_upper w s kind c n fu Hw Hr Hk).
  - intros w s kind c f Hrep Hc [Hf _]. pose proof Hrep as (Hw & Hr & _). exists w. split; [|done].
    apply (count_run env pk pid pk_ok nonce_12 w s); try done. destruct c; [by destruct Hc|done].
  - intros w s kind c f limit order_by descending fu Hrep Hc [Hf Hm] _. pose proof Hrep as (Hw & Hr & _).
    destruct (fetch_all_run env pk pid pk_ok nonce_12 hex_upper w s kind c f limit order_by descending fu Hw Hr)
      as (l & Hl & E); try done; [destruct c; [by destruct Hc|done]|]. by exists w, l.
  - intros w s kind c f Hrep Hc [Hf _]. pose proof Hrep as (Hw & Hr & _).
    assert (opt_text_ok c) as Hc' by (destruct c; [by destruct Hc|done]).
    pose proof (remove_all_sim pk pid pk_ok nonce_12 w s kind c f Hw Hr Hc' Hf) as Hs.
    destruct (a_remove_all _ _ _ _ _) as [s' n]. destruct Hs as (w' & E & Hst & Hrep' & Hfr).
    exists w'. split; [exact E|]. by eapply session_rep_step.
Defined.
End Contract.

(** ** Copying a profile *)

(** The pages of a list that was mapped are pages of the list. *)
Lemma concat_map_inv {A B} (f : A → B) (pages : list (list B)) : ∀ l, concat pages = List.map f l →
  ∃ ls, pages = List.map (List.map f) ls ∧ concat ls = l.
Proof.
  induction pages as [|p pages IH]; intros l E.
  - exists []. destruct l; [done|discriminate E].
  - cbn [concat] in E. symmetry in E. apply map_eq_app in E as (l1 & l2 & -> & <- & E2).
    destruct (IH l2 (eq_sym E2)) as (ls & -> & <-). by exists (l1 :: ls).
Qed.

Section CopyProfile.
Context `{HAl : Allocator} `{HH : Hmac} `{HC : AeadCipher} {laws : CipherLaws} {HD : LawfulDerivation Chacha20Key}.
Context `{HS : StoreCodecs} `{HB : CborCodec} `{HE : SqlEngine}.
Context (env : Env).
Abbreviation W := (World Db KeyCache ProfileKey).
Hypothesis nonce_12 : cipher_nonce_size = 12%nat.
Hypothesis rng_length : ∀ n, length (env_rng env n) = n.
Hypothesis hex_upper : ∀ b, hex_decode (sql_hex b) = Some b.

(** An operation that begins by acquiring the key starts from the activated session. *)
Lemma after_activation {A} (f : Z * ProfileKey → stm W StorageError.Error A) (w w' : W) pid pk :
  acquire_key w = (w', Ok (pid, pk)) → ready pk pid w' → (acquire_key ≫= f) w = (acquire_key ≫= f) w'.
Proof.
  intros E Hw. by rewrite (stm_bind_ok _ _ _ _ _ E), (stm_bind_ok _ _ _ _ _ (acquire_key_ready pk pid w' Hw)).
Qed.

Lemma close_idle (w : W) : txn_depth (session w) = 0%nat →
  db (session_close false w).1 = db w ∧ txn_depth (session (session_close false w).1) = 0%nat
  ∧ faults (session_close false w).1 = faults w.
Proof.
  destruct w as [d sv fs ca [k st n]]. cbn. intros ->. by unfold session_close, mbind, stm_bind, sget, set_state, smod; cbn.
Qed.

Lemma drop_idle (w : W) b : txn_depth (session w) = 0%nat →
  drop_session w b = mkBackend (db w) (pool_refill (b_pool b) (faults w)) (active_profile b) (cache w) (b_path b).
Proof. destruct w as [d sv fs ca [k st n]]. cbn. by intros ->. Qed.

(** A scan over everything a profile holds. *)
Lemma scan_everything b from pid pk s :
  b_pool b = PoolOpen [] → profile_in_store (b_db b) (key_cache b) from pid pk → profile_ok pk →
  represents pk pid (b_db b) s →
  ∃ b' l pages, l ≡ₚ map_to_list (a_matching sql_like env None None None s)
    ∧ scan env (Some from) None None None None None None false b = (b', Ok (scan_new (List.map Ok pages) PAGE_SIZE))
    ∧ pages_full PAGE_SIZE pages ∧ concat pages = entries_of l
    ∧ b_db b' = b_db b ∧ b_pool b' = PoolOpen [].
Proof.
  intros Hf Hp Hpk Hr.
  destruct (session_world_open b from false Hf) as [Hse Hf0].
  destruct (activate (session_world b (Some from) false) from false pid pk Hse Hf0 Hp) as (w & Ew & Hw & Hdb & _ & Hd).
  cbn [db session_world] in Hdb. rewrite <- Hdb in Hr.
  destruct (backend_scan_pages env pk pid Hpk nonce_12 hex_upper w s None None None None None None false Hw Hr I I)
    as (l & pages & Hl & E & Hpf & Ec); [cbn; done|].
  destruct (close_idle w Hd) as (Hdb1 & Hd1 & Hf1).
  eexists _, l, pages. split_and!; [exact Hl| |exact Hpf|exact Ec| |].
  - unfold scan. unfold backend_scan. rewrite (after_activation _ _ _ _ _ Ew Hw). fold (backend_scan env None None None None None None false w).
    rewrite E. reflexivity.
  - rewrite (drop_idle _ _ Hd1). cbn. congruence.
  - rewrite (drop_idle _ _ Hd1). cbn. rewrite Hf1, Hf. destruct Hw as (_ & _ & Hfw). cbn. by rewrite Hfw.
Qed.

(** Closing a transaction with commit on a connection that works. *)
Lemma close_commit (w : W) d0 : state (session w) = SActive → txn_depth (session w) = 1%nat → faults w = [] →
  saved w = [d0] → ∃ w', session_close true w = (w', Ok ()) ∧ db w' = db w ∧ faults w' = []
    ∧ txn_depth (session w') = 0%nat ∧ cache w' = cache w.
Proof.
  destruct w as [d sv fs ca [k st n]]. cbn. intros -> -> -> ->. eexists. split; [cbv; reflexivity|done].
Qed.

(** A profile that was just created holds nothing. *)
Lemma new_profile_represents d id pk : db_wf d → has_profile id d = true →
  Forall (λ r, i_profile r ≠ id) (items d) → represents pk id d ∅.
Proof.
  intros Hwf Hp Hn. split; [done|done|done|]. intros k' x Hv Hk. exfalso. unfold view in Hv.
  destruct (find_item k' d) as [r|] eqn:E; [|done]. apply find_item_in in E as [Hin Hr].
  rewrite Forall_forall in Hn. apply (Hn r Hin). rewrite <- Hk, <- Hr. done.
Qed.

(** Creating the profile at the target and opening the session that imports. *)
Lemma target_session b to pk random_name :
  b_pool b = PoolOpen [] → db_wf (b_db b) → store_key_ok (cache_store_key (key_cache b)) → key_portable pk →
  to ∉ List.map p_name (profiles (b_db b)) →
  ∃ b1 id enc w, create_profile (env_rng env) (Ok pk) random_name (Some to) b = (b1, Ok to)
    ∧ acquire_key (session_world b1 (Some to) true) = (w, Ok (id, pk)) ∧ ready pk id w
    ∧ represents pk id (db w) ∅ ∧ saved w = [b_db b1] ∧ txn_depth (session w) = 1%nat
    ∧ sql_find_profile to (db w) = Ok (db w, Some (id, enc)) ∧ load_key (key_cache b) enc = Ok pk
    ∧ (∀ k, view (db w) k = view (b_db b) k) ∧ b_pool b1 = PoolOpen [].
Proof.
  intros Hf Hwf Hsk Hpk Hn.
  destruct (create_run (env_rng env) pk random_name to b Hf rng_length Hsk Hpk Hn) as (enc & Ec & Hl).
  set (id := next_id (List.map p_id (profiles (b_db b)))) in *. set (b1 := set_bcache _ _) in Ec.
  pose proof (insert_profile_spec to enc (b_db b) Hwf) as Hi. unfold sql_insert_profile in Hi.
  rewrite existsb_name_false in Hi by done. fold id in Hi. destruct Hi as (Hwf1 & Hfind & Hv & Hit & _ & Hfresh).
  assert (profile_in_store (b_db b1) (key_cache b1) to id pk) as Hin.
  { exists enc. split_and!; [exact Hfind|exact Hl|right; apply lookup_insert_eq]. }
  destruct (session_world_open b1 to true Hf) as [Hse Hf0].
  destruct (activate (session_world b1 (Some to) true) to true id pk Hse Hf0 Hin) as (w & Ew & Hw & Hdb & Hsv & Hd).
  exists b1, id, enc, w. rewrite Hdb. split_and!; try done.
  apply new_profile_represents; [exact Hwf1| |exact Hfresh].
  unfold has_profile. cbn. rewrite List.existsb_app. cbn. by rewrite bool_decide_eq_true_2, orb_true_r.
Qed.

(** The entries a scan delivers can be stored again. *)
Lemma represented_importable pk pid d s w0 pk' pid' pk_ok' k v :
  represents pk pid d s → s !! k = Some v → (length (a_value v) ≤ cipher_max)%nat →
  @importable W (sqlite_session env) (sqlite_contract env pk' pid' pk_ok' nonce_12 rng_length hex_upper w0) (k, v).
Proof.
  intros Hr Hs Hv. destruct (rep_some _ _ _ _ Hr k v Hs) as (Hk & x & _ & (_ & _ & _ & Ht & Hm)).
  split_and!; [exact Hk|exact Hv|split; assumption].
Qed.

(** The entries of a profile as a copy has them. *)
Definition copied (s : AStore) : AStore := unexpiring <$> filter (λ kv, a_live (env_now env) kv.2 = true) s.

Lemma all_matching s : a_matching sql_like env None None None s = filter (λ kv, a_live (env_now env) kv.2 = true) s.
Proof. apply map_filter_ext. intros k v _. unfold a_selected. cbn. tauto. Qed.

Lemma imported_scan l s : l ≡ₚ map_to_list (a_matching sql_like env None None None s) →
  imported_map l = copied s ∧ NoDup l.*1.
Proof.
  rewrite all_matching. intros Hl.
  assert (NoDup l.*1) as Hnd by (rewrite Hl; apply NoDup_fst_map_to_list). split; [|done].
  unfold imported_map, copied. rewrite list_to_map_fmap. f_equal.
  rewrite (list_to_map_proper _ _ Hnd Hl). apply list_to_map_to_list.
Qed.

(** The import into the session of the target. *)
Lemma import_into_run w0 id pk (Hpk : profile_ok pk) (w : W) l pages s d0 :
  acquire_key w0 = (w, Ok (id, pk)) → ready pk id w → represents pk id (db w) ∅ →
  saved w = [d0] → txn_depth (session w) = 1%nat →
  l ≡ₚ map_to_list (a_matching sql_like env None None None s) → pages_full PAGE_SIZE pages → concat pages = entries_of l →
  Forall (@importable W (sqlite_session env) (sqlite_contract env pk id Hpk nonce_12 rng_length hex_upper w)) l →
  ∃ w', @import_into W (sqlite_session env) (scan_new (List.map Ok pages) PAGE_SIZE) w0 = (w', Ok ())
    ∧ represents pk id (db w') (copied s) ∧ frame id (db w) (db w') ∧ faults w' = []
    ∧ txn_depth (session w') = 0%nat.
Proof.
  intros Ew Hw Hr Hsv Hd Hl Hpf Hc Himp.
  destruct (imported_scan l s Hl) as [Him Hnd].
  destruct (concat_map_inv _ pages l Hc) as (ls & Els & El).
  set (K := sqlite_contract env pk id Hpk nonce_12 rng_length hex_upper w).
  destruct (@import_loop_run W (sqlite_session env) K PAGE_SIZE pages (length pages + 2) w ∅ ls)
    as (w1 & E1 & Hrep); [by apply session_rep_refl|done|done|lia|by rewrite El|by rewrite El|done|].
  rewrite El, Him, (right_id_L ∅ (∪)) in Hrep. destruct Hrep as (Hw1 & Hr1 & (S1 & T1 & F1) & Hf1).
  destruct (close_commit w1 d0) as (w2 & E2 & Hdb2 & Hf2 & Hd2 & _);
    [by destruct Hw1|congruence|done|congruence|].
  exists w2. rewrite Hdb2. split_and!; try done.
  unfold import_into. cbn [bs_count sqlite_session].
  assert (count env None None None w0 = (w, Ok 0%Z)) as Hcount.
  { unfold count. rewrite (after_activation _ _ _ _ _ Ew Hw).
    fold (count env None None None w). rewrite (count_run env pk id Hpk nonce_12 w ∅ None None None Hw Hr I I).
    unfold a_count, a_matching. by rewrite map_filter_empty, map_size_empty. }
  rewrite (stm_bind_ok _ _ _ _ _ Hcount). cbn [Z.ltb Z.compare].
  assert (@import_scan W (sqlite_session env) (scan_new (List.map Ok pages) PAGE_SIZE) w = (w1, Ok ())) as Hi.
  { unfold import_scan, stream_length, scan_new. cbn [scan_stream]. rewrite List.length_map. exact E1. }
  rewrite (stm_bind_ok _ _ _ _ _ Hi). exact E2.
Qed.

(** C11: Copying a profile into a store that does not have one of that name: the new
    profile, with a key of its own, holds exactly the entries of the source that have
    not expired, whatever the number of pages of the scan, each with its value and tags
    but without its expiry; the source and all other profiles of the target are as
    before, and nothing is left open. *)
Theorem copy_profile_correct new_name rngs a b from to pid pk pk' s :
  b_pool a = PoolOpen [] → profile_in_store (b_db a) (key_cache a) from pid pk → profile_ok pk →
  represents pk pid (b_db a) s → (∀ k v, s !! k = Some v → (length (a_value v) ≤ cipher_max)%nat) →
  b_pool b = PoolOpen [] → db_wf (b_db b) → store_key_ok (cache_store_key (key_cache b)) →
  key_portable pk' → profile_ok pk' → to ∉ List.map p_name (profiles (b_db b)) →
  let B := sqlite_backend env (Ok pk') new_name rngs in
  ∃ a' b' id enc, copy_profile (H := B) (H0 := B) from to (a, b) = ((a', b'), Ok ())
    ∧ b_db a' = b_db a
    ∧ sql_find_profile to (b_db b') = Ok (b_db b', Some (id, enc)) ∧ load_key (key_cache b) enc = Ok pk'
    ∧ represents pk' id (b_db b') (copied s)
    ∧ (∀ k, k.1.1.1 ≠ id → view (b_db b') k = view (b_db b) k) ∧ b_pool b' = PoolOpen [].
Proof.
  intros Hfa Hin Hpk Hr Hval Hfb Hwf Hsk Hport Hpk' Hn B.
  destruct (scan_everything a from pid pk s Hfa Hin Hpk Hr) as (a' & l & pages & Hl & Es & Hpf & Hc & Hda & _).
  destruct (target_session b to pk' new_name Hfb Hwf Hsk Hport Hn)
    as (b1 & id & enc & w & Ec & Ew & Hw & Hrw & Hsv & Hd & Hfind & Hload & Hview & Hpool).
  assert (Forall (@importable W (sqlite_session env)
    (sqlite_contract env pk' id Hpk' nonce_12 rng_length hex_upper w)) l) as Himp.
  { apply Forall_forall. intros [k v] Hk. rewrite Hl in Hk.
    apply elem_of_map_to_list, map_lookup_filter_Some in Hk as [Hs _].
    by apply (represented_importable pk pid (b_db a) s); [| |eapply Hval]. }
  destruct (import_into_run _ id pk' Hpk' w l pages s _ Ew Hw Hrw Hsv Hd Hl Hpf Hc Himp) as (w' & Ei & Hr' & Hfr & Hfw & Hd').
  exists a', (drop_session w' b1), id, enc. rewrite (drop_idle w' b1 Hd'). cbn [b_db b_pool].
  rewrite Hpool, Hfw. cbn [pool_refill].
  destruct Hfr as (Hprof & _ & Hv). split_and!; [|done| |done|done| |done].
  - unfold copy_profile. erewrite stm_bind_ok; [|unfold on_fst; cbn [be_scan B sqlite_backend fst snd]; by rewrite Es].
    erewrite stm_bind_ok; [|unfold on_snd, unless_duplicate; cbn [be_create_profile B sqlite_backend fst snd]; by rewrite Ec].
    unfold on_snd, with_session. cbn [be_session be_drop_session B sqlite_backend fst snd].
    change (be_sessions (Backend := B)) with (sqlite_session env). by rewrite Ei, (drop_idle w' b1 Hd'), Hpool, Hfw.
  - unfold sql_find_profile in *. rewrite Hprof. by injection Hfind as ->.
  - intros k Hk. by rewrite Hv, Hview.
Qed.
(** A profile of the target that holds live entries is not imported into: the copy
    is refused with an input error and both stores are as before. *)
Theorem copy_profile_refused new_name rngs a b from to pid pk pk' pid2 pk2 s t :
  b_pool a = PoolOpen [] → profile_in_store (b_db a) (key_cache a) from pid pk → profile_ok pk →
  represents pk pid (b_db a) s →
  b_pool b = PoolOpen [] → db_wf (b_db b) → store_key_ok (cache_store_key (key_cache b)) → key_portable pk' →
  profile_in_store (b_db b) (key_cache b) to pid2 pk2 → profile_ok pk2 → represents pk2 pid2 (b_db b) t →
  a_matching sql_like env None None None t ≠ ∅ →
  let B := sqlite_backend env (Ok pk') new_name rngs in
  ∃ a' b', copy_profile (H := B) (H0 := B) from to (a, b)
      = ((a', b'), Err (StorageError.from_msg StorageError.Input "Profile targeted for import is not empty"))
    ∧ b_db a' = b_db a ∧ b_db b' = b_db b.
Proof.
  intros Hfa Hin Hpk Hr Hfb Hwf Hsk Hport Hinb Hpk2 Hrt Hne B.
  destruct (scan_everything a from pid pk s Hfa Hin Hpk Hr) as (a' & l & pages & Hl & Es & Hpf & Hc & Hda & _).
  assert (create_profile (env_rng env) (Ok pk') new_name (Some to) b
    = (b, Err (err_kind StorageError.Duplicate "Duplicate profile name"))) as Ec.
  { pose proof (create_profile_spec (env_rng env) pk' new_name (Some to) b Hfb Hwf rng_length Hsk Hport) as X.
    cbn [default from_option id] in X. destruct Hinb as (enc & Hfind & _). unfold sql_find_profile in Hfind.
    destruct (List.find _ _) as [p|] eqn:Ef; [|discriminate Hfind]. apply find_some in Ef as [Hp Hn].
    rewrite (proj2 (existsb_exists _ _)) in X; [exact X|by exists p]. }
  destruct (session_world_open b to true Hfb) as [Hse Hf0].
  destruct (activate (session_world b (Some to) true) to true pid2 pk2 Hse Hf0 Hinb) as (w & Ew & Hw & Hdb & Hsv & Hd).
  cbn [db saved session_world] in Hdb, Hsv. rewrite <- Hdb in Hrt.
  exists a', (drop_session w b). split_and!; [|done|].
  - unfold copy_profile. erewrite stm_bind_ok; [|unfold on_fst; cbn [be_scan B sqlite_backend fst snd]; by rewrite Es].
    erewrite stm_bind_ok; [|unfold on_snd, unless_duplicate; cbn [be_create_profile B sqlite_backend fst snd]; by rewrite Ec].
    unfold on_snd, with_session, import_into. cbn [be_session be_drop_session B sqlite_backend fst snd].
    change (be_sessions (Backend := B)) with (sqlite_session env). cbn [bs_count sqlite_session].
    erewrite stm_bind_ok.
    2: { unfold count. rewrite (after_activation _ _ _ _ _ Ew Hw). fold (count env None None None w).
         exact (count_run env pk2 pid2 Hpk2 nonce_12 w t None None None Hw Hrt I I). }
    unfold a_count. rewrite (proj2 (Z.ltb_lt _ _)); [done|].
    assert (size (a_matching sql_like env None None None t) ≠ 0%nat) by (by intros ?%map_size_empty_inv). lia.
  - destruct w as [d sv fs ca [k st n]]. destruct Hw as (Hst & _ & _). cbn in *. by subst.
Qed.
End CopyProfile.

(** ** An instance on small stores *)

(** The store of the examples after an insertion. *)
Definition toy_source (ms : option Z) : SqliteBackend := set_bdb (db (toy_filled ms)) toy_backend.

Lemma copy_profile_correct_witness :
  let B := @sqlite_backend demo_allocator toy_hmac toy_cipher toy_codecs toy_cbor toy_engine toy_env
    (Ok toy_profile_key) "new" (λ _, toy_rng) in
  ∃ a' b' id enc, copy_profile (H := B) (H0 := B) "main" "copy" (toy_source (Some 60000%Z), toy_backend) = ((a', b'), Ok ())
    ∧ b_db a' = db (toy_filled (Some 60000%Z))
    ∧ sql_find_profile "copy" (b_db b') = Ok (b_db b', Some (id, enc))
    ∧ @represents demo_allocator toy_hmac toy_cipher toy_cipher_laws toy_derivation toy_profile_key id (b_db b')
        {[toy_key := mkAVal [x01] toy_tags None]}.
Proof.
  intros B. destruct (toy_filled_ok (Some 60000%Z)) as [_ Hr].
  pose proof (@copy_profile_correct demo_allocator toy_hmac toy_cipher toy_cipher_laws toy_derivation toy_codecs
    toy_cbor toy_engine toy_env eq_refl toy_rng_length toy_hex_upper "new" (λ _, toy_rng) (toy_source (Some 60000%Z))
    toy_backend "main" "copy" 1 toy_profile_key toy_profile_key (toy_store (Some 60000%Z))) as E.
  destruct E as (a' & b' & id & enc & E & Ha & Hf & _ & Hr' & _).
  - reflexivity.
  - exists toy_enc_key. split_and!; [vm_compute; reflexivity|vm_compute; reflexivity|right; vm_compute; reflexivity].
  - repeat split.
  - exact Hr.
  - intros k v. unfold toy_store. intros [_ <-]%lookup_singleton_Some. vm_compute. lia.
  - reflexivity.
  - cbn; auto with wf.
  - reflexivity.
  - exact toy_key_portable.
  - repeat split.
  - vm_compute. set_solver.
  - exists a', b', id, enc. split_and!; [exact E|exact Ha|exact Hf|exact Hr'].
Defined.

(** A map is not empty when a key is seen to be in it. *)
Lemma lookup_nonempty `{Countable K} {A} (k : K) (m : gmap K A) :
  match m !! k with Some _ => true | None => false end = true → m ≠ ∅.
Proof. intros E ->. by rewrite lookup_empty in E. Qed.

Lemma copy_profile_refused_witness :
  let B := @sqlite_backend demo_allocator toy_hmac toy_cipher toy_codecs toy_cbor toy_engine toy_env
    (Ok toy_profile_key) "new" (λ _, toy_rng) in
  ∃ a' b', copy_profile (H := B) (H0 := B) "main" "main" (toy_source None, toy_source None)
      = ((a', b'), Err (StorageError.from_msg StorageError.Input "Profile targeted for import is not empty"))
    ∧ b_db a' = b_db (toy_source None) ∧ b_db b' = b_db (toy_source None).
Proof.
  intros B. destruct (toy_filled_ok None) as [_ Hr].
  assert (@profile_in_store demo_allocator toy_cipher toy_cbor (b_db (toy_source None)) (key_cache (toy_source None))
    "main" 1 toy_profile_key) as Hp
    by (exists toy_enc_key; split_and!; [vm_compute; reflexivity|vm_compute; reflexivity|right; vm_compute; reflexivity]).
  pose proof (@copy_profile_refused demo_allocator toy_hmac toy_cipher toy_cipher_laws toy_derivation toy_codecs
    toy_cbor toy_engine toy_env eq_refl toy_rng_length toy_hex_upper "new" (λ _, toy_rng) (toy_source None)
    (toy_source None) "main" "main" 1 toy_profile_key toy_profile_key 1 toy_profile_key (toy_store None) (toy_store None)) as E.
  apply E; [reflexivity|exact Hp|repeat split|exact Hr|reflexivity|exact (rep_wf _ _ _ _ Hr)|reflexivity|
    exact toy_key_portable|exact Hp|repeat split|exact Hr|].
  apply (lookup_nonempty toy_key). vm_compute. reflexivity.
Defined.
