(* ===== verification/OdbcSql.v ===== *)
(** * The queries of the ODBC backend

    The text and the parameters of the statements of
    askar-storage/src/backend/odbc/mod.rs that are put together as they are sent:
    [replace_odbc_arg_placeholders], [encode_odbc_tag_filter] and [create_query].
    Placeholders carry no number: a driver binds the question marks of a text to the
    parameters in order.  [read_query] is such a reading, and the lemmas show that it
    finds in the text what the query was made from. *)

From stdpp Require Import pretty.
From S2P Require Import Prelude Errors Wql TagSql DbQuery TagSqlSem SqlEval Buffers Utf8 Entry Aead.
From S2P Require Import Protect Options StoreKey DbUtils.
Local Open Scope string_scope.
Local Open Scope list_scope.

(** ** Placeholders *)

(** One pass of the loop consumes at least one character of [remain]. *)
Fixpoint odbc_replace_loop (fuel : nat) (remain : string) : string :=
  match fuel with
  | O => remain
  | S fuel =>
      match remain with
      | EmptyString => ""
      | String c remain' =>
          if Ascii.eqb c "$" then
            match remain' with
            | String d remain'' =>
                if Ascii.eqb d "$" then "?" +:+ odbc_replace_loop fuel remain''
                else if is_digit d then "?" +:+ odbc_replace_loop fuel (span_digits remain').2
                else String c (odbc_replace_loop fuel remain')
            | EmptyString => String c ""
            end
          else String c (odbc_replace_loop fuel remain')
      end
  end.

Definition replace_odbc_arg_placeholders (filter : string) : string :=
  odbc_replace_loop (String.length filter) filter.

Section Filter.
Context `{Allocator} `{Hmac} `{AeadCipher}.

Definition encode_odbc_tag_filter (tag_filter : option TagFilter) (key : ProfileKey)
    : sres (option (string * list bytes)) :=
  match tag_filter with
  | Some tag_filter =>
      tag_query ← tag_query (filter_query tag_filter);
      match sql_encode_query (filter_encoder key) tag_query with
      | (arguments, Ok (Some filter)) => Ok (Some (replace_odbc_arg_placeholders filter, arguments))
      | (_, Ok None) => Ok None
      | (_, Err e) => Err e
      | (_, Panic) => Panic
      end
  | None => Ok None
  end.
End Filter.

(** ** The queries *)

Definition COUNT_ITEMS : string := "SELECT COUNT(*) FROM items i
    WHERE profile_id = ?
    AND (category = ? OR ? IS NULL)
    AND (expiry IS NULL OR expiry > CURRENT_TIMESTAMP)".
Definition DELETE_ALL_ITEMS : string := "DELETE FROM items AS i
    WHERE i.profile_id = ?
    AND (i.category = ? OR ? IS NULL)".
Definition GET_ALL_ITEMS : string := "SELECT i.id, i.kind, i.category, i.name, i.value
    FROM items i WHERE i.profile_id = ?
    AND (i.category = ? OR ? IS NULL)
    AND (i.expiry IS NULL OR i.expiry > CURRENT_TIMESTAMP)".

Definition KIND_CLAUSE : string := " AND (i.kind = ? OR ? IS NULL)".

(** The part of [create_query] that follows the encryption of its arguments. *)
Definition create_query (query : string) (profile_id : Z) (enc_category : option bytes) (kind : option EntryKind)
    (tag_filter : option (string * list bytes)) (order_by : option OrderBy) (descending : bool)
    : string * list SqlArg :=
  let args := [ArgInt profile_id; ArgOptBytes enc_category; ArgOptBytes enc_category] in
  let '(query, args) := match kind with
    | Some sql_kind => (query +:+ KIND_CLAUSE, args ++ [ArgInt (kind_value sql_kind); ArgInt (kind_value sql_kind)])
    | None => (query, args)
    end in
  let '(query, args) := match tag_filter with
    | Some (filter_clause, filter_args) => (query +:+ " AND " +:+ filter_clause, args ++ List.map ArgBytes filter_args)
    | None => (query, args)
    end in
  let query := if is_select query
    then match order_by with Some order_by_value => order_by_query query order_by_value descending | None => query end
    else query in
  (query, args).

(** ** Reading a query *)

(** The [n]-th question mark stands for the [n]-th parameter. *)
Fixpoint number_marks (n : Z) (s : string) : string :=
  match s with
  | EmptyString => ""
  | String c s' =>
      if Ascii.eqb c "?" then marked "?" n +:+ number_marks (n + 1) s' else String c (number_marks n s')
  end.

Fixpoint count_marks (s : string) : nat :=
  match s with
  | EmptyString => 0
  | String c s' => if Ascii.eqb c "?" then S (count_marks s') else count_marks s'
  end.

(** What a query selects, and in which order. *)
Record Selection := mkSelection {
  sel_profile : Z;
  sel_kind : option Z;
  sel_category : option bytes;
  sel_condition : option Sql;
  sel_descending : option bool;
}.

Definition read_order (s : string) : option (option bool) :=
  if String.eqb s "" then Some None
  else if String.eqb s " ORDER BY id" then Some (Some false)
  else if String.eqb s " ORDER BY id DESC" then Some (Some true)
  else None.

(** A condition of a column that holds if a parameter is null or the column equals it,
    bound twice. *)
Definition same_arg {A} `{EqDecision A} (a b : A) : option A := if decide (a = b) then Some a else None.

Definition bytes_arg (a : SqlArg) : option bytes := match a with ArgBytes b => Some b | _ => None end.

(** The test of the kind, its marks numbered. *)
Definition KIND_TEST : string := " AND (i.kind = ?4 OR ?5 IS NULL)".

(** The kind, if the text goes on with it, the number of parameters read so far and the
    rest. *)
Definition read_kind (s : string) (args : list SqlArg) : option (option Z * nat * string * list SqlArg) :=
  match strip KIND_TEST s with
  | Some s =>
      match args with
      | ArgInt a :: ArgInt b :: args => k ← same_arg a b; Some (Some k, 5, s, args)
      | _ => None
      end
  | None => Some (None, 3, s, args)
  end.

Definition read_filter (offset : nat) (s : string) (args : list bytes) : option (option Sql * string) :=
  match strip " AND " s with
  | Some s => '(c, s) ← parse "?" offset args (S (String.length s)) s; Some (Some c, s)
  | None => Some (None, s)
  end.

(** What follows the common part of the queries. *)
Definition read_selection (s : string) (args : list SqlArg) : option Selection :=
  match args with
  | ArgInt pid :: ArgOptBytes c1 :: ArgOptBytes c2 :: args =>
      category ← same_arg c1 c2;
      '(kind, offset, s, args) ← read_kind s args;
      args ← mapM bytes_arg args;
      '(cond, s) ← read_filter offset s args;
      order ← read_order s;
      Some (mkSelection pid kind category cond order)
  | _ => None
  end.

(** A text that begins as the query [base], with its parameters; their number must be
    that of the marks. *)
Definition read_query (base text : string) (args : list SqlArg) : option Selection :=
  if negb (count_marks text =? length args)%nat then None else
  match strip (number_marks 1 base) (number_marks 1 text) with
  | Some s => read_selection s args
  | None => None
  end.

(** ** Replacement, as the other backends do it *)

(** Wherever the loop shared by the other backends succeeds, this one writes the same
    with question marks. *)
Lemma odbc_replace_shared start fuel : ∀ s idx t,
  replace_loop (λ _, "?") start fuel s idx = Ok t → odbc_replace_loop fuel s = t.
Proof.
  induction fuel as [|fuel IH]; intros s idx t; cbn; [by intros [= <-]|].
  destruct s as [|c s]; [by intros [= <-]|]. destruct (Ascii.eqb c "$").
  - destruct s as [|d s]; [by intros [= <-]|]. destruct (Ascii.eqb d "$").
    { intros E. bind_inv E. bind_inv E. injection E as <-. cbn. f_equal. by eapply IH. }
    destruct (is_digit d) eqn:Hd.
    { cbn [span_digits]. rewrite Hd. destruct (span_digits s) as [ds after]. intros E. do 5 bind_inv E.
      injection E as <-. cbn. f_equal. by eapply IH. }
    intros E. bind_inv E. injection E as <-. f_equal. by eapply IH.
  - intros E. bind_inv E. injection E as <-. f_equal. by eapply IH.
Qed.

Abbreviation mark_all := (λ _ : nat, "?").

Lemma odbc_replace_toks l :
  toks_ok l = true → (Z.of_nat (n_placeholders l) ≤ i64_max)%Z →
  replace_odbc_arg_placeholders (render_raw 0 l) = render_with mark_all 0 l.
Proof.
  intros Hok Hmax. eapply (odbc_replace_shared 0).
  apply (replace_toks (λ _, "?") 0 l 0 Hok); [done|]. rewrite !Z.add_0_l. exact Hmax.
Qed.

(** ** Numbering the marks *)

Lemma number_marks_app s t : ∀ n,
  number_marks n (s +:+ t) = number_marks n s +:+ number_marks (n + Z.of_nat (count_marks s)) t.
Proof.
  induction s as [|c s IH]; intros n; [by rewrite Z.add_0_r|]. rewrite append_cons. cbn [number_marks count_marks].
  destruct (Ascii.eqb c "?").
  - rewrite IH, append_assoc. do 3 f_equal. lia.
  - rewrite IH, append_cons. done.
Qed.

Lemma count_marks_app s t : count_marks (s +:+ t) = (count_marks s + count_marks t)%nat.
Proof. induction s as [|c s IH]; [done|]. rewrite append_cons. cbn. rewrite IH. by destruct (Ascii.eqb c "?"). Qed.

Definition unmarked (s : string) : bool := all_chars (λ c, negb (Ascii.eqb c "?")) s.

Lemma unmarked_number s n : unmarked s = true → number_marks n s = s.
Proof.
  unfold unmarked. induction s as [|c s IH]; [done|]. cbn. intros [Hc%negb_true_iff Hs]%andb_prop.
  by rewrite Hc, IH.
Qed.

Lemma unmarked_count s : unmarked s = true → count_marks s = 0%nat.
Proof.
  unfold unmarked. induction s as [|c s IH]; [done|]. cbn. intros [Hc%negb_true_iff Hs]%andb_prop. rewrite Hc. auto.
Qed.

Definition lit_unmarked (t : tok) : bool := match t with Lit s => unmarked s | _ => true end.

Lemma number_toks l : ∀ n o,
  forallb lit_unmarked l = true →
  number_marks (n + 1 + Z.of_nat o) (render_with mark_all o l)
  = render_with (λ k, marked "?" (n + 1 + Z.of_nat k)) o l
  ∧ count_marks (render_with mark_all o l) = n_placeholders l.
Proof.
  assert (Hph : ∀ n o l, (∀ n o, forallb lit_unmarked l = true →
      number_marks (n + 1 + Z.of_nat o) (render_with mark_all o l)
      = render_with (λ k, marked "?" (n + 1 + Z.of_nat k)) o l
      ∧ count_marks (render_with mark_all o l) = n_placeholders l) → forallb lit_unmarked l = true →
    number_marks (n + 1 + Z.of_nat o) ("?" +:+ render_with mark_all (S o) l)
    = marked "?" (n + 1 + Z.of_nat o) +:+ render_with (λ k, marked "?" (n + 1 + Z.of_nat k)) (S o) l
    ∧ count_marks ("?" +:+ render_with mark_all (S o) l) = S (n_placeholders l)).
  { clear l. intros n o l IH Hl. destruct (IH n (S o) Hl) as [E Ec]. set (t := render_with mark_all (S o) l) in *.
    change ("?" +:+ t) with (String "?" t). cbn [number_marks count_marks].
    change (Ascii.eqb "?" "?") with true. cbn iota. split; [|by rewrite Ec].
    rewrite <- E. do 2 f_equal. lia. }
  induction l as [|[s| |] l IH]; intros n o Hl; cbn [render_with n_placeholders forallb lit_unmarked] in *; [done| |auto..].
  apply andb_prop in Hl as [Hs Hl]. destruct (IH n o Hl) as [E Ec].
  rewrite number_marks_app, count_marks_app, (unmarked_number s), (unmarked_count s) by done.
  rewrite Z.add_0_r, E, Ec. done.
Qed.

(** No literal of a condition holds a question mark. *)
Lemma commas_unmarked n : forallb lit_unmarked (commas n) = true.
Proof. induction n as [|[|n] IH]; [done..|]. exact IH. Qed.

Lemma sep_unmarked f sep l :
  unmarked sep = true → Forall (λ c, forallb lit_unmarked (f c) = true) l →
  forallb lit_unmarked (sep_toks f sep l) = true.
Proof.
  intros Hsep. induction 1 as [|c l Hc Hl IH]; [done|]. destruct l as [|c' l]; [done|].
  change (sep_toks f sep (c :: c' :: l)) with (f c ++ [Lit sep] ++ sep_toks f sep (c' :: l)).
  rewrite !forallb_app. cbn [forallb lit_unmarked]. by rewrite Hc, Hsep, IH.
Qed.

Lemma toks_unmarked c : forallb lit_unmarked (toks c) = true.
Proof.
  induction c as [op l IH|c Hleaf] using sql_ind.
  - cbn [toks]. rewrite !forallb_app, sep_unmarked; [done| |done]. by destruct op.
  - destruct c as [neg op n v pfx plain|neg n vs plain|neg n plain| |]; cbn [toks]; [| | |done..].
    + destruct pfx as [[pop ?]|]; [destruct pop|]; destruct neg, plain, op; reflexivity.
    + rewrite !forallb_app, commas_unmarked. by destruct neg, plain.
    + by destruct neg, plain.
Qed.

(** The text of a condition with its marks numbered is the text SQLite is sent. *)
Definition marked_text (c : Sql) : string := render_with mark_all 0 (toks c).

Lemma number_condition offset c :
  number_marks (Z.of_nat offset + 1) (marked_text c) = bound_text (marked "?") offset c
  ∧ count_marks (marked_text c) = length (args_of c).
Proof.
  destruct (number_toks (toks c) (Z.of_nat offset) 0 (toks_unmarked c)) as [E Ec].
  rewrite Z.add_0_r in E. rewrite <- toks_args. by split.
Qed.

(** ** A query is read as it was made *)

Lemma read_kind_run kind (args : list SqlArg) rest :
  strip (KIND_TEST) rest = None →
  read_kind (match kind with Some _ => KIND_TEST | None => "" end +:+ rest)
    (match kind with Some k => [ArgInt (kind_value k); ArgInt (kind_value k)] | None => [] end ++ args)
  = Some (kind_value <$> kind, match kind with Some _ => 5%nat | None => 3%nat end, rest, args).
Proof.
  intros Hrest. unfold read_kind. destruct kind as [k|].
  - rewrite strip_append. cbn [app]. unfold same_arg. by rewrite decide_True.
  - change ("" +:+ rest) with rest. by rewrite Hrest.
Qed.

Lemma kind_numbered : number_marks 4 KIND_CLAUSE = KIND_TEST.
Proof. by vm_compute. Qed.

Lemma kind_marks : count_marks KIND_CLAUSE = 2%nat.
Proof. by vm_compute. Qed.

(** No condition begins as the test of the kind does. *)
Lemma strip_kind_condition ph c s :
  clause_wf c = true → strip (KIND_TEST) (" AND " +:+ render_with ph 0 (toks c) +:+ s) = None.
Proof.
  intros Hwf.
  destruct c as [[] op n v pfx plain|[] n vs plain|[] n plain| |op l]; try reflexivity.
  destruct l as [|c l]; [done|]. apply andb_prop in Hwf as [_ Hwf]. apply andb_prop in Hwf as [Hwf _].
  assert (∀ t, strip "i.kind = ?4 OR ?5 IS NULL)" (render_with ph 0 (toks c) +:+ t) = None) as Hc.
  { intros t. destruct c as [[] op' n v pfx plain|[] n vs plain|[] n plain| |op' l']; reflexivity. }
  cbn [toks app render_with].
  assert (∃ t, render_with ph 0 (sep_toks toks (conj_sql_str op) (c :: l) ++ [Lit ")"])
    = render_with ph 0 (toks c) +:+ t) as [t ->].
  { rewrite render_with_app. destruct l as [|c' l]; [by eexists|].
    rewrite sep_toks_cons, render_with_app, append_assoc. by eexists. }
  rewrite !append_assoc. exact (Hc (t +:+ s)).
Qed.

Lemma read_filter_run offset c s :
  clause_wf c = true →
  read_filter offset (" AND " +:+ bound_text (marked "?") offset c +:+ s) (args_of c) = Some (Some c, s).
Proof.
  intros Hwf. unfold read_filter. rewrite strip_append.
  pose proof (clause_size_length "?" offset c 0 Hwf).
  rewrite (parse_ok "?" offset (args_of c) (λ _, eq_refl) c 0); [done|done|by intros i v|].
  unfold bound_text. rewrite length_append. lia.
Qed.

Lemma bytes_args l : mapM bytes_arg (List.map ArgBytes l) = Some l.
Proof. induction l as [|b l IH]; [done|]. cbn. by rewrite IH. Qed.

Definition order_text (order_by : option OrderBy) (descending : bool) : string :=
  match order_by with Some _ => " ORDER BY id" +:+ (if descending then " DESC" else "") | None => "" end.

(** The text in parts. *)
Lemma create_query_parts query pid ec kind flt order_by descending :
  is_select query = true ∨ order_by = None →
  create_query query pid ec kind flt order_by descending =
  (query +:+ (match kind with Some _ => KIND_CLAUSE | None => "" end)
     +:+ (match flt with Some (clause, _) => " AND " +:+ clause | None => "" end)
     +:+ order_text order_by descending,
   [ArgInt pid; ArgOptBytes ec; ArgOptBytes ec]
     ++ (match kind with Some k => [ArgInt (kind_value k); ArgInt (kind_value k)] | None => [] end)
     ++ List.map ArgBytes (match flt with Some (_, args) => args | None => [] end)).
Proof.
  intros Ho. unfold create_query.
  assert (∀ q, is_select query = true → is_select (query +:+ q) = true) as Hsel by (intros; by apply is_select_append).
  assert (∀ q, (if is_select (query +:+ q)
      then match order_by with Some o => order_by_query (query +:+ q) o descending | None => query +:+ q end
      else query +:+ q) = query +:+ q +:+ order_text order_by descending) as Hq.
  { intros q. destruct order_by as [[]|].
    - destruct Ho as [Ho|]; [|done]. rewrite Hsel by done. unfold order_by_query, order_text.
      rewrite !append_assoc. by destruct descending.
    - cbn [order_text]. rewrite append_nil_r. by case_match. }
  destruct kind as [k|], flt as [[clause fargs]|]; cbn [app List.map]; rewrite ?app_nil_r, ?append_assoc;
    try (rewrite Hq, ?append_assoc; reflexivity).
  pose proof (Hq "") as Hq0. rewrite !append_nil_r in Hq0. by rewrite Hq0.
Qed.

Definition filter_marked (flt : option (string * list bytes)) (cond : option Sql) : Prop :=
  match flt, cond with
  | Some (text, args), Some c => text = marked_text c ∧ args = args_of c ∧ clause_wf c = true
  | None, None => True
  | _, _ => False
  end.

(** What follows the test of the kind: its marks are those of the filter's parameters. *)
Lemma read_rest off flt cond order_by descending
    (rest := match flt with Some (clause, _) => " AND " +:+ clause | None => "" end +:+ order_text order_by descending)
    (fargs := match flt with Some (_, args) => args | None => [] end) :
  filter_marked flt cond →
  count_marks rest = length fargs
  ∧ strip (KIND_TEST) (number_marks (Z.of_nat off + 1) rest) = None
  ∧ read_filter off (number_marks (Z.of_nat off + 1) rest) fargs = Some (cond, order_text order_by descending).
Proof.
  intros Hflt. assert (Hot : unmarked (order_text order_by descending) = true) by (by destruct order_by, descending).
  subst rest fargs. set (otext := order_text order_by descending) in *.
  destruct flt as [[text args]|], cond as [c|]; try done.
  - destruct Hflt as (-> & -> & Hwf). destruct (number_condition off c) as [En Ec].
    rewrite append_assoc, number_marks_app, (unmarked_number " AND ") by done.
    rewrite (unmarked_count " AND "), Z.add_0_r by done.
    rewrite number_marks_app, En, (unmarked_number otext) by done. split_and!.
    + rewrite !count_marks_app, Ec, (unmarked_count otext) by done. cbn. lia.
    + by apply strip_kind_condition.
    + by apply read_filter_run.
  - change ("" +:+ otext) with otext. rewrite (unmarked_number otext), (unmarked_count otext) by exact Hot.
    split_and!; [done| |]; unfold otext; by destruct order_by, descending.
Qed.

Lemma read_kind_text (kind : option EntryKind) rest :
  number_marks 4 (match kind with Some _ => KIND_CLAUSE | None => "" end +:+ rest)
  = match kind with Some _ => KIND_TEST | None => "" end
    +:+ number_marks (Z.of_nat (match kind with Some _ => 5 | None => 3 end) + 1) rest
  ∧ count_marks (match kind with Some _ => KIND_CLAUSE | None => "" end)
    = (match kind with Some _ => 2 | None => 0 end)%nat.
Proof. destruct kind as [k|]; [|by split]. by rewrite number_marks_app, kind_marks, kind_numbered. Qed.

Lemma query_marks query : query ∈ [COUNT_ITEMS; DELETE_ALL_ITEMS; GET_ALL_ITEMS] → count_marks query = 3%nat.
Proof. rewrite !elem_of_cons, elem_of_nil. by intros [->|[->|[->|[]]]]. Qed.

Lemma read_selection_run s s' kind off args fargs pid ec cond otext order :
  read_kind s args = Some (kind, off, s', List.map ArgBytes fargs) →
  read_filter off s' fargs = Some (cond, otext) → read_order otext = Some order →
  read_selection s (ArgInt pid :: ArgOptBytes ec :: ArgOptBytes ec :: args) = Some (mkSelection pid kind ec cond order).
Proof.
  intros Ek Ef Eo. unfold read_selection, same_arg. rewrite decide_True by done. cbn [mbind option_bind].
  rewrite Ek. cbn [mbind option_bind]. rewrite bytes_args. cbn [mbind option_bind]. rewrite Ef.
  cbn [mbind option_bind]. by rewrite Eo.
Qed.

Lemma read_query_split base text args s :
  count_marks (base +:+ text) = length args → number_marks (1 + Z.of_nat (count_marks base)) text = s →
  read_query base (base +:+ text) args = read_selection s args.
Proof.
  intros Hc <-. unfold read_query. rewrite (proj2 (Nat.eqb_eq _ _)) by exact Hc. cbn [negb].
  by rewrite number_marks_app, strip_append.
Qed.

Lemma read_create_query query pid ec kind flt cond order_by descending :
  query ∈ [COUNT_ITEMS; DELETE_ALL_ITEMS; GET_ALL_ITEMS] →
  is_select query = true ∨ order_by = None → filter_marked flt cond →
  let '(text, args) := create_query query pid ec kind flt order_by descending in
  read_query query text args
  = Some (mkSelection pid (kind_value <$> kind) ec cond ((λ _, descending) <$> order_by)).
Proof.
  intros Hbase Ho Hflt. rewrite create_query_parts by done. apply query_marks in Hbase as Hmarks. clear Hbase.
  destruct (read_rest (match kind with Some _ => 5 | None => 3 end) flt cond order_by descending Hflt)
    as (Hcount & Hstrip & Hread).
  set (rest := match flt with Some (clause, _) => _ | None => "" end +:+ order_text order_by descending) in *.
  set (fargs := match flt with Some (_, args) => args | None => [] end) in *.
  destruct (read_kind_text kind rest) as [Hk Hkc].
  erewrite read_query_split; [|rewrite !count_marks_app, Hmarks, Hkc, Hcount, !length_app, length_map; by destruct kind
    |rewrite Hmarks; exact Hk].
  eapply read_selection_run; [by apply read_kind_run|exact Hread|by destruct order_by, descending].
Qed.

(** The encoded filter is the text of the condition compiled from it. *)
Lemma encode_odbc_compiles `{Allocator} `{HC : AeadCipher} {laws : CipherLaws} `{HH : Hmac}
    {HD : LawfulDerivation Chacha20Key} (pk : ProfileKey) (tags : list EntryTag) (f : TagFilter) (offset : nat)
    (c := compile (En pk) (Ev pk) (rename split_tag_name (filter_query f)) false) :
  profile_ok pk → filter_ok pk tags (rename split_tag_name (filter_query f)) offset →
  encode_odbc_tag_filter (Some f) pk = Ok ((λ c, (marked_text c, args_of c)) <$> c)
  ∧ filter_marked ((λ c, (marked_text c, args_of c)) <$> c) c.
Proof.
  intros Hpk [Hsmall _ _ Hfit _]. subst c. set (q := rename split_tag_name (filter_query f)) in *.
  set (ok := λ s, s ∈ query_texts q). assert (Hok : Forall ok (query_texts q)) by (by apply Forall_forall).
  assert (Hsm : ∀ s, ok s → small s) by (rewrite Forall_forall in Hsmall; exact Hsmall).
  pose proof (encode_query_compiles (filter_encoder pk) (En pk) (Ev pk) ok q
    (λ s Hs, filter_encoder_name pk Hpk s (Hsm s Hs))
    (λ s Hs, filter_encoder_value pk Hpk s (Hsm s Hs)) Hok) as Henc.
  unfold encode_odbc_tag_filter. rewrite tag_query_rename. fold q. run_bind. rewrite Henc.
  pose proof (compile_args_length (En pk) (Ev pk) q false) as Hlen.
  destruct (compile (En pk) (Ev pk) q false) as [c|] eqn:Ec; cbn [fmap option_fmap option_map]; [|done].
  cbn in Hlen. split; [|split_and!; [done..|by eapply compile_wf]].
  rewrite odbc_replace_toks; [done|apply toks_wf|rewrite toks_args; lia].
Qed.
