(* ===== verification/OdbcDb.v ===== *)
(** * An ODBC database and its connections

    The tables a store keeps in a database reached through ODBC
    (askar-storage/src/backend/odbc/db2.sql) with the statements of
    askar-storage/src/backend/odbc/mod.rs, a connection with its commit mode, and the
    pool of r2d2_connection_pool.rs.

    The pool is seen through the connection it hands out: the sessions of a store use it
    one after the other, as they do in a pool of one connection.  What the ODBC standard
    says of a connection is modelled: outside of autocommit mode the first statement
    begins a transaction, and switching autocommit on commits it.  Calls of the driver
    may fail; which of the coming ones do, and what the checks of the pool find, is part
    of the state. *)

From S2P Require Import Prelude Errors DbQuery TagSqlSem SqlEval Entry DbUtils Session SqliteDb PgDb OdbcSql.
Local Open Scope string_scope.
Local Open Scope list_scope.

(** ** Tables *)

(** The rows, the names of the tables there are, and the identities given next. *)
Record OdbcDb := mkOdbc {
  od_tables : Db;
  od_present : list string;
  od_profile_seq : Z;
  od_item_seq : Z;
}.

Definition od_set (t : Db) (d : OdbcDb) : OdbcDb := mkOdbc t (od_present d) (od_profile_seq d) (od_item_seq d).
Definition od_next_item (d : OdbcDb) : OdbcDb := mkOdbc (od_tables d) (od_present d) (od_profile_seq d) (od_item_seq d + 1).
Definition od_next_profile (d : OdbcDb) : OdbcDb := mkOdbc (od_tables d) (od_present d) (od_profile_seq d + 1) (od_item_seq d).

(** A rollback takes no identity back. *)
Definition od_restore (saved d : OdbcDb) : OdbcDb :=
  mkOdbc (od_tables saved) (od_present saved) (od_profile_seq d) (od_item_seq d).

(** What differs between databases: the widths of the columns of texts in the schema
    ([VARCHAR(500)] and [VARCHAR(1022)] in db2.sql), whether the driver counts the rows a
    statement changes, and what has to be added to the time in UTC to get the
    [CURRENT_TIMESTAMP] of the server. *)
Class OdbcDriver := {
  text_width : nat;
  name_width : nat;
  counts_rows : bool;
  clock_offset : Z;
}.

Abbreviation OStatement A := (OdbcDb → OdbcDb * res string A).

Definition no_table : string := "undefined name".
Definition too_long : string := "string data right truncation".
Definition duplicate_item : string := "duplicate values for the unique index ix_items_uniq".
Definition duplicate_profile : string := "duplicate values for the unique index ix_profile_name".

(** A statement on tables, which must exist. *)
Definition on_present {A} (names : list string) (f : Db → res string (Db * A)) : OStatement A := λ d,
  if negb (forallb (λ n, existsb (String.eqb n) (od_present d)) names) then (d, Err no_table) else
  match f (od_tables d) with
  | Ok (t, a) => (od_set t d, Ok a)
  | Err msg => (d, Err msg)
  | Panic => (d, Panic)
  end.

Section Statements.
Context `{OdbcDriver}.

(** [INSERT_ITEM]: the rows inserted; the unique index makes a second row of the same key
    an error. *)
Definition o_insert_item (k : IKey) (value : bytes) (expiry : option Z) : OStatement Z := λ d,
  let '(pid, kind, category, name) := k in
  if negb (existsb (String.eqb "items") (od_present d)) then (d, Err no_table) else
  if (text_width <? length category)%nat || (text_width <? length name)%nat then (d, Err too_long) else
  let id := od_item_seq d in
  let d' := od_next_item d in
  match find_item k (od_tables d) with
  | Some _ => (d', Err duplicate_item)
  | None =>
      if negb (has_profile pid (od_tables d)) then (d', Err "foreign key violation") else
      (od_set (set_items (items (od_tables d) ++ [mkItem id pid kind category name value expiry]) (od_tables d)) d', Ok 1%Z)
  end.

(** [UPDATE_ITEM]: no row is no error. *)
Definition o_update_item (k : IKey) (value : bytes) (expiry : option Z) : OStatement Z :=
  on_present ["items"] (λ t,
    match find_item k t with
    | Some _ => '(t, _) ← sql_update_item k value expiry t; Ok (t, 1%Z)
    | None => Ok (t, 0%Z)
    end).

(** [DELETE_ITEM], with the rows of tags that refer to the item. *)
Definition o_delete_item (k : IKey) : OStatement Z := on_present ["items"] (sql_delete_item k).

(** [DELETE_TAG]. *)
Definition o_delete_tags (id : Z) : OStatement () := on_present ["items_tags"] (sql_delete_tags id).

(** [GET_ITEM_ID]. *)
Definition o_item_id (k : IKey) : OStatement (list Z) :=
  on_present ["items"] (λ t, Ok (t, List.map i_id (List.filter (has_key k) (items t)))).

(** [INSERT_TAG]. *)
Definition o_insert_tag (id : Z) (tag : EncEntryTag) : OStatement () := λ d,
  if (text_width <? length (enc_tag_name tag))%nat || (text_width <? length (enc_tag_value tag))%nat
  then (d, Err too_long) else on_present ["items_tags"] (sql_insert_tag id tag) d.

(** [GET_TAGS_FOR_ITEM]. *)
Definition o_item_tags (id : Z) : OStatement (list EncEntryTag) :=
  on_present ["items_tags"] (λ t, Ok (t, item_tags id t)).

(** [expiry > CURRENT_TIMESTAMP], the expiry being stored in UTC to the microsecond. *)
Definition o_live (now : Z) (r : ItemRow) : bool := pg_live (now + clock_offset) r.

(** [GET_ITEM]: identifier and value. *)
Definition o_fetch_item (now : Z) (k : IKey) : OStatement (list (Z * bytes)) :=
  on_present ["items"] (λ t,
    Ok (t, List.map (λ r, (i_id r, i_value r)) (List.filter (λ r, has_key k r && o_live now r) (items t)))).

(** *** Queries over many rows *)

Context `{SqlEngine}.

Definition sel_holds (s : Selection) (t : Db) (r : ItemRow) : bool :=
  selected (sel_profile s) (sel_kind s) (sel_category s) r
  && match sel_condition s with
     | Some c => sem sql_like (List.map row_of (item_tags (i_id r) t)) c
     | None => true
     end.

(** SQL-92 has no empty list of values, and a number is no condition. *)
Definition sel_objection (s : Selection) : option string := c ← sel_condition s; pg_objection c.

(** A query with its parameters, read as the one that begins with [base]. *)
Definition with_selection {A} (base text : string) (args : list SqlArg) (f : Selection → Db → res string (Db * A))
    : OStatement A := λ d,
  match read_query base text args with
  | None => (d, Err "the statement cannot be executed")
  | Some s =>
      match sel_objection s with
      | Some msg => (d, Err msg)
      | None => on_present (match sel_condition s with Some _ => ["items"; "items_tags"] | None => ["items"] end) (f s) d
      end
  end.

(** [GET_ALL_ITEMS], extended. *)
Definition o_scan (now : Z) (text : string) (args : list SqlArg) : OStatement (list ItemRow) :=
  with_selection GET_ALL_ITEMS text args (λ s t,
    let rows := List.filter (λ r, sel_holds s t r && o_live now r) (items t) in
    Ok (t, match sel_descending s with
           | Some descending => if descending then rev rows else rows
           | None => natural_order rows
           end)).

(** [COUNT_ITEMS], extended. *)
Definition o_count (now : Z) (text : string) (args : list SqlArg) : OStatement (list Z) :=
  with_selection COUNT_ITEMS text args (λ s t,
    Ok (t, [Z.of_nat (length (List.filter (λ r, sel_holds s t r && o_live now r) (items t)))])).

(** [DELETE_ALL_ITEMS], extended. *)
Definition o_delete_all (text : string) (args : list SqlArg) : OStatement Z :=
  with_selection DELETE_ALL_ITEMS text args (λ s t, Ok (delete_items (λ r, sel_holds s t r) t)).

(** *** Profiles and configuration *)

(** [GET_PROFILE]. *)
Definition o_find_profile (name : string) : OStatement (list (Z * bytes)) :=
  on_present ["profiles"] (λ t,
    Ok (t, List.map (λ p, (p_id p, p_key p)) (List.filter (λ p, String.eqb (p_name p) name) (profiles t)))).

(** [GET_PROFILE_ID]. *)
Definition o_profile_id (name : string) (key : bytes) : OStatement (list Z) :=
  on_present ["profiles"] (λ t,
    Ok (t, List.map p_id (List.filter (λ p, String.eqb (p_name p) name && bool_decide (p_key p = key)) (profiles t)))).

(** [INSERT_PROFILE]. *)
Definition o_insert_profile (name : string) (key : bytes) : OStatement Z := λ d,
  if negb (existsb (String.eqb "profiles") (od_present d)) then (d, Err no_table) else
  if (name_width <? String.length name)%nat then (d, Err too_long) else
  let id := od_profile_seq d in
  let d' := od_next_profile d in
  if existsb (λ p, String.eqb (p_name p) name) (profiles (od_tables d))
  then (d', Err duplicate_profile)
  else (od_set (set_profiles (profiles (od_tables d) ++ [mkProfile id name key]) (od_tables d)) d', Ok 1%Z).

Definition o_delete_profile (name : string) : OStatement Z := on_present ["profiles"] (sql_delete_profile name).
Definition o_update_profile (key : bytes) (pid : Z) : OStatement Z := on_present ["profiles"] (sql_update_profile_key pid key).
Definition o_all_profiles : OStatement (list ProfileRow) := on_present ["profiles"] (λ t, Ok (t, profiles t)).

(** [GET_PROFILE_COUNT_FOR_NAME]. *)
Definition o_count_name (name : string) : OStatement (list Z) :=
  on_present ["profiles"] (λ t,
    Ok (t, [Z.of_nat (length (List.filter (λ p, String.eqb (p_name p) name) (profiles t)))])).

(** [GET_DEFAULT_PROFILE], [UPDATE_CONFIG_PROFILE] and [UPDATE_CONFIG_KEY]. *)
Definition o_config_get (name : string) : OStatement (list string) :=
  on_present ["config"] (λ t, Ok (t, List.map snd (List.filter (λ c, String.eqb (fst c) name) (config t)))).
Definition o_config_update (name value : string) : OStatement Z :=
  on_present ["config"] (λ t, Ok (config_update name value t)).
End Statements.

(** The order of [ORDER BY id] is that of the rows: identities grow. *)
Record od_wf (d : OdbcDb) : Prop := {
  od_tables_wf : db_wf (od_tables d);
  od_items_below : Forall (λ r, (i_id r < od_item_seq d)%Z) (items (od_tables d));
  od_profiles_below : Forall (λ p, (p_id p < od_profile_seq d)%Z) (profiles (od_tables d));
}.

Definition TABLES : list string := ["items_tags"; "items"; "profiles"; "config"].

(** ** A connection *)

(** The contents as its statements see them, those at the beginning of the open
    transaction, if there is one, and the commit mode. *)
Record OdbcConn := mkConn {
  c_db : OdbcDb;
  c_begin : option OdbcDb;
  c_auto : bool;
}.

Definition conn_run {A} (f : OStatement A) (c : OdbcConn) : OdbcConn * res string A :=
  let begin := if c_auto c then c_begin c else Some (default (c_db c) (c_begin c)) in
  let '(d, r) := f (c_db c) in (mkConn d begin (c_auto c), r).

Definition conn_commit (c : OdbcConn) : OdbcConn := mkConn (c_db c) None (c_auto c).

Definition conn_rollback (c : OdbcConn) : OdbcConn :=
  match c_begin c with Some saved => mkConn (od_restore saved (c_db c)) None (c_auto c) | None => c end.

Definition conn_autocommit (on : bool) (c : OdbcConn) : OdbcConn :=
  if on then mkConn (c_db c) None true else mkConn (c_db c) (c_begin c) false.

(** A connection is closed with its transaction rolled back; a new one commits by itself. *)
Definition conn_replaced (c : OdbcConn) : OdbcConn := conn_autocommit true (conn_rollback c).

(** ** The pool *)

(** What the check of a connection taken from the pool finds ([is_valid], of
    [OdbcConnectionManager]): one that is dead is replaced; no connection in time is an
    error of the pool. *)
Inductive Checkout : Type :=
| Valid
| Dead
| TimedOut (msg : string).

Record OdbcPool := mkPool {
  p_conn : OdbcConn;
  p_faults : list (option string);
  p_checkouts : list Checkout;
}.

Definition set_conn (c : OdbcConn) (p : OdbcPool) : OdbcPool := mkPool c (p_faults p) (p_checkouts p).

(** [From<odbc_api::Error>] and [From<r2d2::Error>]. *)
Definition from_odbc (cause : string) : StorageError.Error := backend_err "Error returned from the database" cause.
Definition from_r2d2 (cause : string) : StorageError.Error := backend_err "Error returned from the database pool" cause.

(** [is_dead().?] of a connection, an error being as good as a dead one. *)
Definition is_valid (is_dead : res string bool) : res string () :=
  match is_dead with
  | Ok true => Err "The connection to the database is no longer valid."
  | Ok false => Ok ()
  | Err msg => Err msg
  | Panic => Panic
  end.

(** A connection is never taken for broken when it is given back, whatever state it is in. *)
Definition has_broken (c : OdbcConn) : bool := false.

(** Giving a connection back: r2d2 drops a broken one and keeps the others as they are. *)
Definition give_back (c : OdbcConn) : OdbcConn := if has_broken c then conn_replaced c else c.

(** [pool.get()]. *)
Definition pool_get (p : OdbcPool) : OdbcPool * res StorageError.Error () :=
  match p_checkouts p with
  | [] => (p, Ok ())
  | Valid :: cs => (mkPool (p_conn p) (p_faults p) cs, Ok ())
  | Dead :: cs => (mkPool (conn_replaced (p_conn p)) (p_faults p) cs, Ok ())
  | TimedOut msg :: cs => (mkPool (p_conn p) (p_faults p) cs, Err (from_r2d2 msg))
  end.

(** ** Calls of the driver *)

(** A state that holds a pool: a store, or a session with its connection. *)
Class HasPool (W : Type) := {
  pool_of : W → OdbcPool;
  set_pool : OdbcPool → W → W;
}.

Section Calls.
Context {W : Type} `{HasPool W}.
Abbreviation M := (stm W StorageError.Error).

Definition get_connection : M () := λ s,
  let '(p, r) := pool_get (pool_of s) in (set_pool p s, r).

(** The outcome of the next call. *)
Definition o_call (on_err : string → StorageError.Error) : M () := λ s,
  let p := pool_of s in
  match p_faults p with
  | [] => (s, Ok ())
  | None :: fs => (set_pool (mkPool (p_conn p) fs (p_checkouts p)) s, Ok ())
  | Some msg :: fs => (set_pool (mkPool (p_conn p) fs (p_checkouts p)) s, Err (on_err msg))
  end.

(** [execute]. *)
Definition run_statement {A} (on_err : string → StorageError.Error) (f : OStatement A) : M A := λ s,
  let '(c, r) := conn_run f (p_conn (pool_of s)) in
  (set_pool (set_conn c (pool_of s)) s, map_err on_err r).

Definition o_execute {A} (on_err : string → StorageError.Error) (f : OStatement A) : M A :=
  _ ← o_call on_err; run_statement on_err f.

(** [if let Ok(a) = ..] and [is_ok]: an error, whichever, is not looked at. *)
Definition attempt {A} (m : M A) : M (option A) := λ s,
  match m s with
  | (s, Ok a) => (s, Ok (Some a))
  | (s, Err _) => (s, Ok None)
  | (s, Panic) => (s, Panic)
  end.

(** [next_row] on what is left of the rows of a cursor. *)
Definition o_next_row {R} (on_err : string → StorageError.Error) (rows : list R) : M (option R * list R) :=
  _ ← o_call on_err;
  mret (match rows with r :: rows => (Some r, rows) | [] => (None, []) end).

(** [get_data], [get_text] and [get_binary] of a column. *)
Definition o_get {A} (a : A) : M A := _ ← o_call from_odbc; mret a.

(** [row_count()?.unwrap()]. *)
Definition o_row_count `{OdbcDriver} (n : Z) : M Z :=
  _ ← o_call from_odbc;
  lift (unwrap (if counts_rows then Some n else None)).

(** [preallocate], [prepare] and [bind_buffer]. *)
Definition o_allocate : M () := o_call from_odbc.

Definition o_commit : M () :=
  _ ← o_call from_odbc; smod (λ s, set_pool (set_conn (conn_commit (p_conn (pool_of s))) (pool_of s)) s).
Definition o_rollback : M () :=
  _ ← o_call from_odbc; smod (λ s, set_pool (set_conn (conn_rollback (p_conn (pool_of s))) (pool_of s)) s).

(** [let _ = set_autocommit(on)]: an error leaves the mode as it was. *)
Definition o_set_autocommit (on : bool) : M () := λ s,
  match o_call from_odbc s with
  | (s, Ok _) => (set_pool (set_conn (conn_autocommit on (p_conn (pool_of s))) (pool_of s)) s, Ok ())
  | (s, _) => (s, Ok ())
  end.
End Calls.
