(* ===== verification/Odbc.v ===== *)
(** * The sessions of the ODBC backend

    [OdbcSession] of askar-storage/src/backend/odbc/mod.rs: the key of its profile, its
    queries and changes, its transaction, over the connection of [OdbcDb]. *)

From S2P Require Import Prelude Errors Wql TagSql DbQuery TagSqlSem Buffers Utf8 Entry Aead Protect.
From S2P Require Import Options StoreKey DbUtils Session SqliteDb Sqlite OdbcSql OdbcDb.
Local Open Scope string_scope.
Local Open Scope list_scope.

Record OdbcSession := mkOdbcSession {
  os_profile : string;
  os_transaction : bool;
}.

(** A session with its connection and the cache it shares with the store. *)
Record OdbcWorld := mkOdbcWorld {
  ow_pool : OdbcPool;
  ow_cache : KeyCache;
  ow_session : OdbcSession;
}.

Definition ow_set_cache (c : KeyCache) (w : OdbcWorld) : OdbcWorld := mkOdbcWorld (ow_pool w) c (ow_session w).

#[export] Instance odbc_world_pool : HasPool OdbcWorld := {|
  pool_of := ow_pool;
  set_pool p w := mkOdbcWorld p (ow_cache w) (ow_session w);
|}.

(** [OdbcSession::new]; that switching the commit mode failed is not noticed. *)
Definition odbc_session_new (c : KeyCache) (profile : string) (p : OdbcPool) (transaction : bool) : OdbcWorld :=
  (o_set_autocommit (negb transaction) (mkOdbcWorld p c (mkOdbcSession profile transaction))).1.

(** [VarCharArray<1024>], read back: what does not fit before the terminator is cut off. *)
Definition varchar_1024 (b : bytes) : bytes := take 1023 b.

Definition BATCH : nat := 64.

Section Session.
Context `{Allocator} `{Hmac} `{AeadCipher} `{StoreCodecs} `{CborCodec} `{SqlEngine} `{OdbcDriver}.
Context (env : Env).
Abbreviation M := (stm OdbcWorld StorageError.Error).

(** ** The key of the profile *)

(** A profile that is not there ends in a panic. *)
Definition o_acquire_key : M (Z * ProfileKey) :=
  w ← sget;
  let profile := os_profile (ow_session w) in
  match get_profile profile (ow_cache w) with
  | Some (pid, key) => mret (pid, key)
  | None =>
      rows ← o_execute (backend_err "Error fetching profile key") (o_find_profile profile);
      '(row, _) ← o_next_row (backend_err "Error fetching profile key") rows;
      '(pid, enc_key) ← lift (unwrap row);
      pid ← o_get pid;
      enc_key ← o_get enc_key;
      w ← sget;
      key ← lift (load_key (ow_cache w) enc_key);
      _ ← smod (λ w, ow_set_cache (add_profile profile pid key (ow_cache w)) w);
      mret (pid, key)
  end.

(** ** Tags *)

Definition read_tag (t : EncEntryTag) : EncEntryTag :=
  mkEncTag (varchar_1024 (enc_tag_name t)) (varchar_1024 (enc_tag_value t)) (enc_tag_plaintext t).

(** [while let Some(batch) = block_cursor.fetch()?]. *)
Fixpoint fetch_batches (fuel : nat) (rows : list EncEntryTag) : M (list EncEntryTag) :=
  match fuel with
  | O => lift Panic
  | S fuel =>
      _ ← o_call from_odbc;
      match rows with
      | [] => mret []
      | _ => rest ← fetch_batches fuel (drop BATCH rows); mret (List.map read_tag (take BATCH rows) ++ rest)
      end
  end.

Definition get_decoded_tags (item_id : Z) (key : ProfileKey) : M (list EntryTag) :=
  rows ← o_execute from_odbc (o_item_tags item_id);
  _ ← o_allocate;
  enc_tags ← fetch_batches (S (length rows)) rows;
  lift (decrypt_entry_tags key enc_tags).

(** ** Queries *)

Definition o_create_query (query : string) (profile_id : Z) (key : ProfileKey) (kind : option EntryKind)
    (category : option string) (tag_filter : option TagFilter) (order_by : option OrderBy) (descending : bool)
    : M (string * list SqlArg) :=
  '(enc_category, tag_filter) ← lift (
    enc_category ← match category with
      | Some c => Some <$> encrypt_entry_category key (prepared key (as_bytes c))
      | None => Ok None
      end;
    tag_filter ← encode_odbc_tag_filter tag_filter key;
    mret (enc_category, tag_filter));
  mret (create_query query profile_id enc_category kind tag_filter order_by descending).

(** The fields of a row and its tags, decrypted. *)
Definition read_item (key : ProfileKey) (r : ItemRow) : M Entry :=
  item_id ← o_get (i_id r);
  kind ← o_get (i_kind r);
  category ← o_get (i_category r);
  name ← o_get (i_name r);
  value ← o_get (i_value r);
  tags ← get_decoded_tags item_id key;
  lift (
    category ← decrypt_entry_category key category;
    name ← decrypt_entry_name key name;
    value ← decrypt_entry_value key (as_bytes category) (as_bytes name) value;
    kind ← kind_try_from kind;
    mret (entry_new kind category name (sec_data value) tags)).

(** The loop over the rows: the offset and the limit are counted here. *)
Fixpoint scan_rows (key : ProfileKey) (offset limit row_number : Z) (rows : list ItemRow) : M (list Entry) :=
  _ ← o_call from_odbc;
  match rows with
  | [] => mret []
  | r :: rows =>
      let row_number := (row_number + 1)%Z in
      if (row_number <=? offset)%Z then scan_rows key offset limit row_number rows else
      past ← lift (if (limit =? -1)%Z then Ok false
                   else seen ← i64_add row_number (- offset); Ok (limit <? seen)%Z);
      if past : bool then mret [] else
      entry ← read_item key r;
      rest ← scan_rows key offset limit row_number rows;
      mret (entry :: rest)
  end.

Definition o_perform_scan (kind : option EntryKind) (category : option string) (tag_filter : option TagFilter)
    (offset limit : option Z) (order_by : option OrderBy) (descending : bool) : M (list Entry) :=
  '(profile_id, key) ← o_acquire_key;
  '(query, params) ← o_create_query GET_ALL_ITEMS profile_id key kind category tag_filter order_by descending;
  _ ← o_allocate;
  _ ← o_allocate;
  rows ← o_execute from_odbc (o_scan (env_now env) query params);
  scan_rows key (default 0%Z offset) (default (-1)%Z limit) 0 rows.

Definition o_fetch_all (kind : option EntryKind) (category : option string) (tag_filter : option TagFilter)
    (limit : option Z) (order_by : option OrderBy) (descending _for_update : bool) : M (list Entry) :=
  o_perform_scan kind category tag_filter None limit order_by descending.

Definition o_session_count (kind : option EntryKind) (category : option string) (tag_filter : option TagFilter) : M Z :=
  '(profile_id, key) ← o_acquire_key;
  '(query, params) ← o_create_query COUNT_ITEMS profile_id key kind category tag_filter None false;
  rows ← o_execute (backend_err "Error performing count query") (o_count (env_now env) query params);
  '(row, _) ← o_next_row (backend_err "Error performing count query") rows;
  count ← lift (unwrap row);
  o_get count.

Definition o_remove_all (kind : option EntryKind) (category : option string) (tag_filter : option TagFilter) : M Z :=
  '(profile_id, key) ← o_acquire_key;
  '(query, params) ← o_create_query DELETE_ALL_ITEMS profile_id key kind category tag_filter None false;
  _ ← o_allocate;
  n ← o_execute (backend_err "Error removing entry") (o_delete_all query params);
  o_row_count n.

Definition encrypt_key (key : ProfileKey) (category name : string) : sres (bytes * bytes) :=
  enc_category ← encrypt_entry_category key (prepared key (as_bytes category));
  enc_name ← encrypt_entry_name key (prepared key (as_bytes name));
  mret (enc_category, enc_name).

Definition o_fetch (kind : EntryKind) (category name : string) (_for_update : bool) : M (option Entry) :=
  '(pid, key) ← o_acquire_key;
  '(enc_category, enc_name) ← lift (encrypt_key key category name);
  _ ← o_allocate;
  rows ← o_execute (backend_err "Error performing fetch query")
    (o_fetch_item (env_now env) (pid, kind_value kind, enc_category, enc_name));
  (* an error counts as nothing found *)
  next ← attempt (o_next_row from_odbc rows);
  match next with
  | Some (Some (item_id, value), _) =>
      value ← o_get value;
      item_id ← o_get item_id;
      value ← lift (decrypt_entry_value key (as_bytes category) (as_bytes name) value);
      tags ← get_decoded_tags item_id key;
      mret (Some (entry_new kind category name (sec_data value) tags))
  | _ => mret None
  end.

(** ** Changes *)

Fixpoint o_insert_tags (item_id : Z) (tags : list EncEntryTag) : M () :=
  match tags with
  | [] => mret ()
  | t :: tags =>
      _ ← o_execute (backend_err "Error inserting entry tags") (o_insert_tag item_id t);
      o_insert_tags item_id tags
  end.

(** Storing the row: the tags deleted before an update are those of the item whose
    identifier is the profile's. *)
Definition o_store_row (operation : EntryOperation) (k : IKey) (value : bytes) (expiry : option Z) : M () :=
  match operation with
  | EntryOperation.Insert =>
      n ← o_execute (backend_err "Error inserting new entry") (o_insert_item k value expiry);
      n ← o_row_count n;
      if (n =? 0)%Z then sfail (err_kind StorageError.Duplicate "Duplicate entry") else mret ()
  | _ =>
      _ ← o_execute (λ _, err_kind StorageError.NotFound "Error updating existing entry") (o_update_item k value expiry);
      o_execute (backend_err "Error removing existing entry tags") (o_delete_tags k.1.1.1)
  end.

Definition o_store_tags (k : IKey) (enc_tags : option (list EncEntryTag)) : M () :=
  match enc_tags with
  | None => mret ()
  | Some tags =>
      rows ← o_execute (backend_err "Error retrieving item") (o_item_id k);
      '(row, _) ← o_next_row (backend_err "Error retrieving item") rows;
      item_id ← lift (unwrap row);
      item_id ← o_get item_id;
      _ ← o_allocate;
      o_insert_tags item_id tags
  end.

Definition o_update (kind : EntryKind) (operation : EntryOperation) (category name : string)
    (value : option bytes) (tags : option (list EntryTag)) (expiry_ms : option Z) : M () :=
  match operation with
  | EntryOperation.Insert | EntryOperation.Replace =>
      '(pid, key) ← o_acquire_key;
      enc ← lift (
        let cat := prepared key (as_bytes category) in
        let nm := prepared key (as_bytes name) in
        enc_value ← encrypt_entry_value key (env_rng env) (as_ref cat) (as_ref nm) (prepared key (default [] value));
        enc_category ← encrypt_entry_category key cat;
        enc_name ← encrypt_entry_name key nm;
        enc_tags ← match tags with
          | Some tags => tags ← prepare_tags key tags; Some <$> encrypt_entry_tags key tags
          | None => Ok None
          end;
        mret (enc_category, enc_name, enc_value, enc_tags));
      let '(enc_category, enc_name, enc_value, enc_tags) := enc in
      _ ← o_allocate;
      expiry ← lift (bind_expiry env expiry_ms);
      let k := (pid, kind_value kind, enc_category, enc_name) in
      _ ← o_store_row operation k enc_value expiry;
      o_store_tags k enc_tags
  | EntryOperation.Remove =>
      '(pid, key) ← o_acquire_key;
      '(enc_category, enc_name) ← lift (encrypt_key key category name);
      _ ← o_allocate;
      deleted ← o_execute (backend_err "Error deleting item") (o_delete_item (pid, kind_value kind, enc_category, enc_name));
      deleted ← o_row_count deleted;
      if (deleted =? 0)%Z then sfail (err_kind StorageError.NotFound "Entry not found") else mret ()
  end.

(** ** The session itself *)

(** It is the name of the profile that is looked for. *)
Definition o_ping : M () :=
  w ← sget;
  rows ← o_execute (backend_err "Error pinging session") (o_count_name (os_profile (ow_session w)));
  '(row, _) ← o_next_row (backend_err "Error pinging session") rows;
  count ← lift (unwrap row);
  count ← o_get count;
  if (count =? 0)%Z then sfail (err_kind StorageError.NotFound "Session profile has been removed") else mret ().

Definition o_close (commit : bool) : M () :=
  w ← sget;
  if os_transaction (ow_session w) then
    _ ← (if commit then o_commit else o_rollback);
    o_set_autocommit true
  else mret ().
End Session.
