(* ===== verification/OdbcStore.v ===== *)
(** * What a profile of an ODBC store holds

    The operations of [Odbc] against the abstract store of [Store].  All but two keep it:
    a second insertion under a key fails with another error than in the other backends,
    and a replacement deletes the tags of a different item.  Both are stated as they are. *)

From S2P Require Import Prelude Errors Wql TagSql DbQuery TagSqlSem SqlEval Buffers Utf8 Entry Aead.
From S2P Require Import Protect Options StoreKey DbUtils Session SqliteDb PgDb Sqlite Store Backend Scans PgStore.
From S2P Require Import OdbcSql OdbcDb Odbc.
Local Open Scope string_scope.
Local Open Scope list_scope.
#[local] Existing Instance pg_resolution.

(** ** Connections *)

Abbreviation conn_of w := (p_conn (ow_pool w)).
Definition od (w : OdbcWorld) : OdbcDb := c_db (conn_of w).

(** What a rollback would go back to, once a statement has run. *)
Definition begun (c : OdbcConn) : option OdbcDb := if c_auto c then c_begin c else Some (default (c_db c) (c_begin c)).

(** The world after statements that leave the database as [d]. *)
Definition ran (d : OdbcDb) (w : OdbcWorld) : OdbcWorld :=
  set_pool (set_conn (mkConn d (begun (conn_of w)) (c_auto (conn_of w))) (ow_pool w)) w.

Lemma ran_ran d1 d2 w : ran d2 (ran d1 w) = ran d2 w.
Proof. unfold ran, begun. cbn. by destruct (c_auto (conn_of w)). Qed.

Lemma o_call_ok on_err (w : OdbcWorld) : p_faults (ow_pool w) = [] → o_call on_err w = (w, Ok ()).
Proof. intros Hf. unfold o_call. cbn. by rewrite Hf. Qed.

Lemma o_call_bind {A} on_err (f : () → stm OdbcWorld StorageError.Error A) w :
  p_faults (ow_pool w) = [] → (o_call on_err ≫= f) w = f () w.
Proof. intros Hf. unfold mbind, stm_bind. by rewrite o_call_ok. Qed.

Lemma o_execute_ok {A} on_err (f : OStatement A) w d a :
  p_faults (ow_pool w) = [] → f (od w) = (d, Ok a) → o_execute on_err f w = (ran d w, Ok a).
Proof.
  intros Hf E. unfold o_execute. rewrite o_call_bind by done. unfold run_statement, conn_run. cbn.
  change (c_db (p_conn (ow_pool w))) with (od w). by rewrite E.
Qed.

Lemma o_execute_err {A} on_err (f : OStatement A) w d msg :
  p_faults (ow_pool w) = [] → f (od w) = (d, Err msg) → o_execute on_err f w = (ran d w, Err (on_err msg)).
Proof.
  intros Hf E. unfold o_execute. rewrite o_call_bind by done. unfold run_statement, conn_run. cbn.
  change (c_db (p_conn (ow_pool w))) with (od w). by rewrite E.
Qed.

(** All the tables are there. *)
Definition tables_present (d : OdbcDb) : Prop := ∀ n, n ∈ TABLES → n ∈ od_present d.

Lemma present_eqb n l : n ∈ l → existsb (String.eqb n) l = true.
Proof. intros H. apply existsb_exists. exists n. split; [by apply list_elem_of_In|apply String.eqb_refl]. Qed.

Lemma on_present_ok {A} names (f : Db → res string (Db * A)) d t a :
  tables_present d → forallb (λ n, existsb (String.eqb n) TABLES) names = true → f (od_tables d) = Ok (t, a) →
  on_present names f d = (od_set t d, Ok a).
Proof.
  intros Hp Hn E. unfold on_present. rewrite (proj2 (forallb_Forall _ _)).
  - cbn. by rewrite E.
  - apply forallb_Forall in Hn. eapply Forall_impl; [exact Hn|]. intros n Hin. apply present_eqb, Hp.
    apply existsb_exists in Hin as (n' & Hin & ->%String.eqb_eq). by apply list_elem_of_In.
Qed.

Lemma od_set_same d : od_set (od_tables d) d = d.
Proof. by destruct d. Qed.

Lemma o_read_ok {A} on_err names (f : Db → res string (Db * A)) w a :
  p_faults (ow_pool w) = [] → tables_present (od w) → forallb (λ n, existsb (String.eqb n) TABLES) names = true →
  f (od_tables (od w)) = Ok (od_tables (od w), a) →
  o_execute on_err (on_present names f) w = (ran (od w) w, Ok a).
Proof.
  intros Hf Hp Hn E. apply o_execute_ok; [done|]. rewrite <- (od_set_same (od w)) at 2. by apply on_present_ok.
Qed.

(** Runs a statement that only reads. *)
Ltac run_read := erewrite stm_bind_ok by (apply o_read_ok; [done|done|reflexivity|reflexivity]).

Lemma next_row_ok {R} on_err (rows : list R) w : p_faults (ow_pool w) = [] →
  o_next_row on_err rows w = (w, Ok (match rows with r :: rows => (Some r, rows) | [] => (None, []) end)).
Proof. intros Hf. unfold o_next_row. by rewrite o_call_bind. Qed.

Lemma get_ok {A} (a : A) w : p_faults (ow_pool w) = [] → o_get a w = (w, Ok a).
Proof. intros Hf. unfold o_get. by rewrite o_call_bind. Qed.

Lemma row_count_ok `{OdbcDriver} n w : p_faults (ow_pool w) = [] → counts_rows = true → o_row_count n w = (w, Ok n).
Proof. intros Hf Hc. unfold o_row_count. rewrite o_call_bind by done. by rewrite Hc. Qed.

(** What an operation leaves as it was. *)
Definition o_stays (w w' : OdbcWorld) : Prop :=
  ow_session w' = ow_session w ∧ ow_cache w' = ow_cache w ∧ p_faults (ow_pool w') = []
  ∧ p_checkouts (ow_pool w') = p_checkouts (ow_pool w)
  ∧ c_auto (conn_of w') = c_auto (conn_of w) ∧ begun (conn_of w') = begun (conn_of w).

Lemma stays_ran d w : p_faults (ow_pool w) = [] → o_stays w (ran d w).
Proof. intros Hf. split_and!; try done. unfold begun. cbn. unfold begun. by destruct (c_auto (conn_of w)). Qed.

Lemma stays_refl w : p_faults (ow_pool w) = [] → o_stays w w.
Proof. done. Qed.

Section Refinement.
Context `{HAl : Allocator} `{HH : Hmac} `{HC : AeadCipher} {laws : CipherLaws} {HD : LawfulDerivation Chacha20Key}.
Context `{HS : StoreCodecs} `{HB : CborCodec} `{HE : SqlEngine} `{HO : OdbcDriver}.
Context (env : Env) (pk : ProfileKey) (pid : Z).
Hypothesis pk_ok : profile_ok pk.
Hypothesis nonce_12 : cipher_nonce_size = 12%nat.
Hypothesis rng_length : ∀ n, length (env_rng env n) = n.
Hypothesis rows_counted : counts_rows = true.
Hypothesis utc : clock_offset = 0%Z.

Abbreviation enc_category_opt c := ((λ t, enc_category pk (as_bytes t)) <$> c).

(** A text that its column holds, and that is read back whole. *)
Definition fits (b : bytes) : Prop := (length b ≤ text_width)%nat ∧ (length b ≤ 1023)%nat.
Definition okey_ok (k : AKey) : Prop :=
  akey_ok k ∧ fits (enc_category pk (as_bytes k.1.2)) ∧ fits (enc_name pk (as_bytes k.2)).
Definition tag_fits (t : EntryTag) : Prop := fits (enc_tag_name (enc_tag pk t)) ∧ fits (enc_tag_value (enc_tag pk t)).

Definition o_ready (w : OdbcWorld) : Prop :=
  p_faults (ow_pool w) = [] ∧ get_profile (os_profile (ow_session w)) (ow_cache w) = Some (pid, pk)
  ∧ tables_present (od w).

Record o_represents (d : OdbcDb) (s : AStore) : Prop := {
  o_rep_tables : represents pk pid (od_tables d) s;
  o_rep_wf : od_wf d;
  o_rep_tags k v : s !! k = Some v → Forall tag_fits (a_tags v);
}.

Definition o_frame (d d' : OdbcDb) : Prop := frame pid (od_tables d) (od_tables d') ∧ od_present d' = od_present d.

Lemma stays_o_ready w w' : o_ready w → o_stays w w' → o_frame (od w) (od w') → o_ready w'.
Proof.
  intros (_ & Hk & Hp) (Es & Ec & Hf & _) [_ Ep]. split_and!; [done|by rewrite Es, Ec|].
  intros n Hn. rewrite Ep. by apply Hp.
Qed.

Lemma o_acquire_ready w : o_ready w → o_acquire_key w = (w, Ok (pid, pk)).
Proof.
  intros (_ & Hk & _). unfold o_acquire_key. rewrite (stm_bind_ok sget _ w w w eq_refl). cbv zeta. by rewrite Hk.
Qed.

(** *** Tags *)

Lemma read_tag_fits t : tag_fits t → read_tag (enc_tag pk t) = enc_tag pk t.
Proof.
  intros [[_ Hn] [_ Hv]]. unfold read_tag, varchar_1024. rewrite !take_ge by done. by destruct (enc_tag pk t).
Qed.

Lemma fetch_batches_run w : p_faults (ow_pool w) = [] → ∀ fuel rows, (length rows < fuel)%nat →
  fetch_batches fuel rows w = (w, Ok (List.map read_tag rows)).
Proof.
  intros Hf. induction fuel as [|fuel IH]; intros rows Hl; [lia|]. cbn [fetch_batches].
  rewrite o_call_bind by done. destruct rows as [|r rows]; [done|].
  rewrite (stm_bind_ok _ _ _ _ _ (IH (drop BATCH (r :: rows)) ltac:(rewrite length_drop; cbn [length] in *; unfold BATCH; lia))).
  unfold mret, stm_ret. by rewrite <- List.map_app, take_drop.
Qed.

Lemma decoded_tags_run w id tags :
  o_ready w → item_tags id (od_tables (od w)) = List.map (enc_tag pk) tags →
  Forall tag_ok tags → Forall (tag_small cipher_max) tags → Forall tag_fits tags →
  get_decoded_tags id pk w = (ran (od w) w, Ok tags).
Proof.
  intros (Hf & _ & Hp) Et Ho Hs Hfit. unfold get_decoded_tags, o_item_tags.
  run_read.
  unfold o_allocate. rewrite o_call_bind by done. rewrite Et.
  rewrite (stm_bind_ok _ _ _ _ _ (fetch_batches_run (ran (od w) w) Hf _ (List.map (enc_tag pk) tags) (Nat.lt_succ_diag_r _))).
  apply lift_ok. rewrite List.map_map, (List.map_ext_in _ (enc_tag pk)).
  - by apply (decrypt_tags_spec pk tags pk_ok Ho Hs).
  - intros t Ht. apply read_tag_fits. rewrite List.Forall_forall in Hfit. by apply Hfit.
Qed.

(** *** Fetching *)

Lemma has_key_filter d k (p : ItemRow → bool) :
  db_wf d → List.filter (λ r, has_key k r && p r) (items d)
  = match find_item k d with Some r => if p r then [r] else [] | None => [] end.
Proof.
  intros Hwf. pose proof (keys_unique _ Hwf) as Hnd. unfold find_item. induction (items d) as [|r l IH]; [done|].
  cbn in Hnd |- *. apply NoDup_cons in Hnd as [Hn Hd]. destruct (has_key k r) eqn:Hk; cbn; [|by apply IH].
  assert (Hl : List.find (has_key k) l = None).
  { apply (find_item_none k (mkDb [] [] l [])). apply bool_decide_eq_true in Hk as <-. done. }
  rewrite IH, Hl by done. by destruct (p r).
Qed.

Lemma encrypt_key_ok c n : text_ok c → text_ok n →
  encrypt_key pk c n = Ok (enc_category pk (as_bytes c), enc_name pk (as_bytes n)).
Proof. apply (encrypt_key_run pk pk_ok). Qed.

Lemma o_live_utc r : o_live (env_now env) r = pg_live (env_now env) r.
Proof. unfold o_live. by rewrite utc, Z.add_0_r. Qed.

Lemma o_fetch_run w s kind c n fu :
  o_ready w → o_represents (od w) s → akey_ok (kind, c, n) →
  o_fetch env kind c n fu w = (ran (od w) w, Ok (a_fetch env (kind, c, n) s)).
Proof.
  intros Hw [Hr _ Htags] Hk. pose proof Hk as [Hc Hn]. cbn in Hc, Hn. set (k := (kind, c, n)) in *.
  pose proof Hw as (Hf & _ & Hp).
  unfold o_fetch. rewrite (stm_bind_ok _ _ _ _ _ (o_acquire_ready w Hw)). cbv beta iota.
  rewrite (stm_bind_ok _ _ _ _ _ (lift_ok _ _ w (encrypt_key_ok c n Hc Hn))). cbv beta iota.
  unfold o_allocate. rewrite o_call_bind by done. unfold o_fetch_item.
  run_read.
  change (pid, kind_value kind, enc_category pk (as_bytes c), enc_name pk (as_bytes n)) with (ekey pk pid k).
  rewrite has_key_filter by apply Hr. set (w1 := ran (od w) w).
  assert (Ea : ∀ rows : list (Z * bytes), attempt (o_next_row from_odbc rows) w1
    = (w1, Ok (Some (match rows with r :: rows => (Some r, rows) | [] => (None, []) end)))).
  { intros rows. unfold attempt. by rewrite next_row_ok. }
  rewrite (stm_bind_ok _ _ _ _ _ (Ea _)). unfold a_fetch.
  destruct (s !! k) as [v|] eqn:Es.
  - destruct (rep_find pk pid _ _ _ _ Hr Es) as (r & -> & _ & _ & (b & Eb & Hb) & He & Et & Ho & Hs).
    cbn [fst snd mbind option_bind] in *. rewrite o_live_utc. unfold a_live, pg_live. rewrite <- He.
    destruct (unexpired _ _); cbn [List.map]; [|done].
    rewrite (stm_bind_ok _ _ _ _ _ (get_ok (i_value r) w1 Hf)), (stm_bind_ok _ _ _ _ _ (get_ok (i_id r) w1 Hf)).
    rewrite (stm_bind_ok _ _ _ _ _ (lift_ok _ _ w1 Eb)).
    rewrite (stm_bind_ok _ _ _ _ _ (decoded_tags_run w1 (i_id r) (a_tags v) Hw Et Ho Hs (Htags _ _ Es))).
    unfold w1. rewrite ran_ran. unfold mret, stm_ret. by rewrite Hb.
  - pose proof (rep_none pk pid pk_ok _ _ _ Hr Hk Es) as Hnone%view_find. rewrite Hnone. done.
Qed.

(** *** Inserting *)

Lemma o_insert_cases k v e d :
  tables_present d → (length k.1.2 ≤ text_width)%nat → (length k.2 ≤ text_width)%nat →
  o_insert_item k v e d =
  match find_item k (od_tables d) with
  | Some _ => (od_next_item d, Err duplicate_item)
  | None =>
      if negb (has_profile k.1.1.1 (od_tables d)) then (od_next_item d, Err "foreign key violation")
      else (od_set (set_items (items (od_tables d) ++ [new_item k (od_item_seq d) v e]) (od_tables d)) (od_next_item d), Ok 1%Z)
  end.
Proof.
  destruct k as [[[? ?] c] n]. cbn [fst snd]. intros Hp Hc Hn. unfold o_insert_item.
  rewrite present_eqb by (apply Hp; unfold TABLES; set_solver). cbn [negb].
  by rewrite !(proj2 (Nat.ltb_ge _ _)) by done.
Qed.

Lemma o_insert_tags_run id tags : ∀ w t,
  p_faults (ow_pool w) = [] → tables_present (od w) → ran (od w) w = w → Forall tag_fits tags →
  insert_all_tags id (List.map (enc_tag pk) tags) (od_tables (od w)) = Ok (t, ()) →
  o_insert_tags id (List.map (enc_tag pk) tags) w = (ran (od_set t (od w)) w, Ok ()).
Proof.
  induction tags as [|x tags IH]; intros w t Hf Hp Hran Hfit; cbn [List.map insert_all_tags o_insert_tags].
  - intros [= <-]. by rewrite od_set_same, Hran.
  - apply Forall_cons in Hfit as [[[Hx1 _] [Hx2 _]] Hfit].
    destruct (sql_insert_tag id (enc_tag pk x) (od_tables (od w))) as [[t1 []]| |] eqn:E; cbn; [|done..]. intros E2.
    assert (Ex : o_insert_tag id (enc_tag pk x) (od w) = (od_set t1 (od w), Ok ())).
    { unfold o_insert_tag. rewrite !(proj2 (Nat.ltb_ge _ _)) by done. by apply on_present_ok. }
    rewrite (stm_bind_ok _ _ _ _ _ (o_execute_ok _ _ w _ _ Hf Ex)).
    rewrite (IH (ran (od_set t1 (od w)) w) t Hf Hp (ran_ran _ _ _) Hfit E2). by rewrite ran_ran.
Qed.

Lemma item_id_one t k r : db_wf t → find_item k t = Some r → List.map i_id (List.filter (has_key k) (items t)) = [i_id r].
Proof.
  intros Hwf Hf. pose proof (has_key_filter t k (λ _, true) Hwf) as E. rewrite Hf in E.
  rewrite (List.filter_ext _ (λ r, has_key k r && true)), E; [done|]. intros. by rewrite andb_true_r.
Qed.

Lemma o_store_tags_run k tags w t iid :
  p_faults (ow_pool w) = [] → tables_present (od w) → ran (od w) w = w →
  Forall tag_fits (default [] tags) → List.map i_id (List.filter (has_key k) (items (od_tables (od w)))) = [iid] →
  insert_all_tags iid (List.map (enc_tag pk) (default [] tags)) (od_tables (od w)) = Ok (t, ()) →
  o_store_tags k (enc_tags_opt pk tags) w = (ran (od_set t (od w)) w, Ok ()).
Proof.
  intros Hf Hp Hran Hfit Hk E. destruct tags as [ts|]; cbn [enc_tags_opt fmap option_fmap option_map default from_option id] in *.
  - unfold o_store_tags, o_item_id. run_read. rewrite Hran, Hk.
    rewrite (stm_bind_ok _ _ _ _ _ (next_row_ok _ _ w Hf)). cbv beta iota.
    rewrite (stm_bind_ok (lift (unwrap (Some iid))) _ _ _ _ eq_refl).
    rewrite (stm_bind_ok _ _ _ _ _ (get_ok iid w Hf)). unfold o_allocate. rewrite o_call_bind by done.
    by apply o_insert_tags_run.
  - cbn in E. injection E as <-. by rewrite od_set_same, Hran.
Qed.

(** What the updates of this backend do to the abstract store: all but a replacement. *)
Definition oa_update (op : EntryOperation) (k : AKey) (value : option bytes) (tags : option (list EntryTag))
    (expiry_ms : option Z) (s : AStore) : AStore * sres () :=
  match op, bind_expiry env expiry_ms, s !! k with
  | EntryOperation.Insert, Ok _, Some _ => (s, Err (backend_err "Error inserting new entry" duplicate_item))
  | _, _, _ => a_update env op k value tags expiry_ms s
  end.

Definition o_tags_ok (tags : option (list EntryTag)) : Prop := tags_ok tags ∧ Forall tag_fits (default [] tags).

Lemma od_next_item_wf d : od_wf d → od_wf (od_next_item d).
Proof. intros [Ht Hi Hp]. split; [done| |done]. eapply Forall_impl; [exact Hi|]. cbn. intros r Hr. lia. Qed.

Lemma od_fresh_item d : od_wf d → od_item_seq d ∉ List.map i_id (items (od_tables d)).
Proof.
  intros [_ Hb _] (r & E & Hr)%list_elem_of_fmap. rewrite Forall_forall in Hb. specialize (Hb _ Hr). cbn in Hb. lia.
Qed.

(** The encryption that comes before a row is stored. *)
Lemma o_update_run w (is_new : bool) kind c n value tags ms encv :
  o_ready w →
  (enc_value ← encrypt_entry_value pk (env_rng env) (as_ref (prepared pk (as_bytes c)))
        (as_ref (prepared pk (as_bytes n))) (prepared pk (default [] value));
      enc_category ← encrypt_entry_category pk (prepared pk (as_bytes c));
      enc_name ← encrypt_entry_name pk (prepared pk (as_bytes n));
      enc_tags ← match tags with
        | Some tags => tags ← prepare_tags pk tags; Some <$> encrypt_entry_tags pk tags
        | None => Ok None
        end;
      mret (enc_category, enc_name, enc_value, enc_tags) : sres _)
    = Ok (enc_category pk (as_bytes c), enc_name pk (as_bytes n), encv, enc_tags_opt pk tags) →
  o_update env kind (upsert is_new) c n value tags ms w
  = (expiry ← lift (bind_expiry env ms);
     _ ← o_store_row (upsert is_new) (ekey pk pid (kind, c, n)) encv expiry;
     o_store_tags (ekey pk pid (kind, c, n)) (enc_tags_opt pk tags)) w.
Proof.
  intros Hw E. pose proof Hw as (Hf & _). destruct is_new; unfold o_update, upsert;
    rewrite (stm_bind_ok _ _ _ _ _ (o_acquire_ready w Hw)); cbv beta iota zeta;
    rewrite (stm_bind_ok _ _ _ _ _ (lift_ok _ _ w E)); cbv beta iota;
    unfold o_allocate; by rewrite o_call_bind.
Qed.

Lemma o_insert_sim w s kind c n value tags ms :
  o_ready w → o_represents (od w) s → okey_ok (kind, c, n) → value_ok value → o_tags_ok tags →
  let '(s', r) := oa_update EntryOperation.Insert (kind, c, n) value tags ms s in
  ∃ w', o_update env kind EntryOperation.Insert c n value tags ms w = (w', r) ∧ o_stays w w'
    ∧ o_represents (od w') s' ∧ o_frame (od w) (od w').
Proof.
  intros Hw Hrep (Hk & Hkc & Hkn) Hv [Ht Hfit]. pose proof Hk as [Hc Hn]. cbn in Hc, Hn.
  pose proof Hw as (Hf & _ & Hp). destruct Hrep as [Hr Hwf Htags].
  destruct (encrypt_entry_run env pk pk_ok rng_length c n value tags Hc Hn Hv Ht) as (encv & b & Eenc & Hdec & Hb).
  pose proof (o_update_run w true kind c n value tags ms encv Hw Eenc) as E. cbn [upsert] in E. rewrite E. clear E Eenc.
  set (k := (kind, c, n)) in *. unfold oa_update, a_update.
  destruct (bind_expiry env ms) as [e|e|] eqn:Ee; [|by exists w|by apply bind_expiry_total in Ee].
  rewrite (stm_bind_ok (lift (Ok e)) _ _ _ _ eq_refl).
  assert (Ecases := o_insert_cases (ekey pk pid k) encv e (od w) Hp (proj1 Hkc) (proj1 Hkn)).
  unfold o_store_row. destruct (s !! k) as [v0|] eqn:Es.
  - destruct (rep_find pk pid _ _ _ _ Hr Es) as (r & Hfi & _). rewrite Hfi in Ecases.
    exists (ran (od_next_item (od w)) w). split_and!; [|by apply stays_ran|by split; [|apply od_next_item_wf|]|done].
    rewrite stm_bind_assoc. apply stm_bind_err. by apply o_execute_err.
  - pose proof (rep_none pk pid pk_ok _ _ _ Hr Hk Es) as Hnone%view_find.
    set (x := (encv, e, List.map (enc_tag pk) (default [] tags))).
    destruct (insert_row_spec (od_item_seq (od w)) (ekey pk pid k) encv e x.2 (od_tables (od w)) (rep_wf _ _ _ _ Hr) Hnone
      (rep_profile _ _ _ _ Hr) (od_fresh_item _ Hwf)) as (t2 & E2 & Hwf2 & Hpr & Hcf & Hi & Hview & Ho).
    rewrite Hnone in Ecases. rewrite (rep_profile _ _ _ _ Hr : has_profile (ekey pk pid k).1.1.1 _ = true) in Ecases.
    set (d1 := od_set (set_items _ _) (od_next_item (od w))) in Ecases. set (w1 := ran d1 w).
    exists (ran (od_set t2 d1) w). split_and!.
    + rewrite stm_bind_assoc, (stm_bind_ok _ _ _ _ _ (o_execute_ok _ _ w _ _ Hf Ecases)).
      rewrite stm_bind_assoc. fold w1. rewrite (stm_bind_ok _ _ _ _ _ (row_count_ok 1 w1 Hf rows_counted)).
      change (1 =? 0)%Z with false. cbv iota. rewrite stm_bind_ret.
      rewrite (o_store_tags_run _ tags w1 t2 (od_item_seq (od w))); [|done..|apply ran_ran|done| |done].
      * unfold w1. by rewrite ran_ran.
      * change (items (od_tables (od w1))) with (items (od_tables (od w)) ++ [new_item (ekey pk pid k) (od_item_seq (od w)) encv e]).
        rewrite <- Hi, (item_id_one _ _ (new_item (ekey pk pid k) (od_item_seq (od w)) encv e)); [|done|].
        { by rewrite (proj2 (new_item_key _ _ _ _)). }
        unfold find_item. rewrite Hi, find_app. unfold find_item in Hnone. rewrite Hnone. cbn [List.find].
        unfold has_key. by rewrite bool_decide_true by apply new_item_key.
    + by apply stays_ran.
    + split.
      * eapply (represents_insert pk pid pk_ok _ _ s k _ x); try done. split_and!; [by exists b|done..| |]; apply Ht.
      * destruct Hwf as [_ Hib Hpb]. split; [done| |cbn; by rewrite Hpr]. cbn. rewrite Hi. apply Forall_app. split.
        { eapply Forall_impl; [exact Hib|]. cbn. intros r Hlt. lia. }
        constructor; [|constructor]. rewrite (proj2 (new_item_key _ _ _ _)). lia.
      * intros k' v' [[<- <-]|[_ Hs']]%lookup_insert_Some; [done|by eapply Htags].
    + split; [by eapply ekey_frame|done].
Qed.

(** *** Removing *)

Lemma o_delete_run w s kind c n :
  o_ready w → o_represents (od w) s → akey_ok (kind, c, n) →
  let '(s', r) := a_update env EntryOperation.Remove (kind, c, n) None None None s in
  ∃ w', (∀ value tags ms, o_update env kind EntryOperation.Remove c n value tags ms w = (w', r)) ∧ o_stays w w'
    ∧ o_represents (od w') s' ∧ o_frame (od w) (od w').
Proof.
  intros Hw [Hr Hwf Htags] Hk. pose proof Hk as [Hc Hn]. cbn in Hc, Hn. pose proof Hw as (Hf & _ & Hp).
  pose proof (delete_row pk pid pk_ok (od_tables (od w)) s (kind, c, n) Hr Hk) as (En & Hr' & Hfr).
  set (k := ekey pk pid (kind, c, n)) in *. set (t := (delete_items (has_key k) (od_tables (od w))).1) in *.
  cbn [a_update]. set (w' := ran (od_set t (od w)) w).
  assert (E : ∀ value tags ms, o_update env kind EntryOperation.Remove c n value tags ms w
    = (w', match s !! (kind, c, n) with Some _ => Ok () | None => Err (err_kind StorageError.NotFound "Entry not found") end)).
  { intros value tags ms. unfold o_update. rewrite (stm_bind_ok _ _ _ _ _ (o_acquire_ready w Hw)). cbv beta iota.
    rewrite (stm_bind_ok _ _ _ _ _ (lift_ok _ _ w (encrypt_key_ok c n Hc Hn))). cbv beta iota.
    unfold o_allocate. rewrite o_call_bind by done.
    rewrite (stm_bind_ok _ _ _ w' (delete_items (has_key k) (od_tables (od w))).2)
      by (apply o_execute_ok; [done|apply on_present_ok; [done|reflexivity|reflexivity]]).
    rewrite (stm_bind_ok _ _ _ _ _ (row_count_ok _ w' Hf rows_counted)). rewrite En. by destruct (s !! (kind, c, n)). }
  assert (Hd : o_represents (od w') (delete (kind, c, n) s)).
  { destruct Hwf as [_ Hib Hpb]. split; [exact Hr'|split; [apply Hr'| |exact Hpb]|].
    - cbn. apply List.Forall_forall. intros r [Hin _]%List.filter_In. rewrite List.Forall_forall in Hib. by apply Hib.
    - intros k' v' [_ Hs]%lookup_delete_Some. by eapply Htags. }
  destruct (s !! (kind, c, n)) eqn:Es; [|rewrite delete_id in Hd by done]; exists w';
    (split_and!; [exact E|by apply stays_ran|exact Hd|by split]).
Qed.

(** *** Queries *)

(** What a query is made from. *)
Lemma o_encode_run tags c f :
  opt_text_ok c → match f with Some f => filter_ok pk tags (rename split_tag_name (filter_query f)) 3 | None => True end →
  ∃ flt cond,
    (enc_category ← match c with
       | Some c => Some <$> encrypt_entry_category pk (prepared pk (as_bytes c))
       | None => Ok None
       end;
     tag_filter ← encode_odbc_tag_filter f pk;
     mret (enc_category, tag_filter) : sres _) = Ok (enc_category_opt c, flt)
    ∧ filter_marked flt cond
    ∧ cond = (f ← f; compile (En pk) (Ev pk) (rename split_tag_name (filter_query f)) false).
Proof.
  intros Hc Hf. set (cond := f ← f; compile (En pk) (Ev pk) (rename split_tag_name (filter_query f)) false).
  assert (∃ flt, encode_odbc_tag_filter f pk = Ok flt ∧ filter_marked flt cond) as (flt & Ef & Hm).
  { destruct f as [f|]; [|by exists None]. destruct (encode_odbc_compiles pk tags f 3 pk_ok Hf) as [E Hm]. by eexists. }
  exists flt, cond. split_and!; [|done..].
  rewrite (bind_ok _ _ (enc_category_opt c)), (bind_ok _ _ _ Ef); [reflexivity|].
  destruct c as [c|]; [|done]. by rewrite (encrypt_category_ok pk pk_ok c Hc).
Qed.

Lemma o_create_query_run w s query kind c f order_by descending :
  query ∈ [COUNT_ITEMS; DELETE_ALL_ITEMS; GET_ALL_ITEMS] → is_select query = true ∨ order_by = None →
  opt_text_ok c → pg_filter_ready pk s f →
  ∃ text args cond, o_create_query query pid pk kind c f order_by descending w = (w, Ok (text, args))
    ∧ let sel := mkSelection pid (kind_value <$> kind) (enc_category_opt c) cond ((λ _, descending) <$> order_by) in
      read_query query text args = Some sel ∧ sel_objection sel = None
      ∧ ∀ d r k v, s !! k = Some v → stored pk k (i_value r, i_expiry r, item_tags (i_id r) d) v →
          match cond with Some cl => sem sql_like (List.map row_of (item_tags (i_id r) d)) cl | None => true end
          = filter_holds sql_like f (a_tags v).
Proof.
  intros Hq Ho Hc [Hf Hok].
  destruct (o_encode_run [] c f Hc) as (flt & cond & E & Hm & Econd); [by destruct f; [destruct Hf|]|].
  pose proof (read_create_query query pid (enc_category_opt c) kind flt cond order_by descending Hq Ho Hm) as Hread.
  destruct (create_query query pid (enc_category_opt c) kind flt order_by descending) as [text args] eqn:Et.
  exists text, args, cond. split; [|split_and!; [exact Hread| |]]; try subst cond.
  - unfold o_create_query. rewrite (stm_bind_ok _ _ _ _ _ (lift_ok _ _ w E)). cbv beta iota. by rewrite Et.
  - unfold sel_objection. cbn [sel_condition]. destruct f as [f|]; [|done]. cbn [mbind option_bind].
    destruct (compile_unobjectionable (En pk) (Ev pk) (rename split_tag_name (filter_query f)) false) as (cl & Ecl & Hob).
    { by rewrite rename_query_ok. }
    rewrite Ecl. cbn [mbind option_bind]. exact Hob.
  - intros d r k v Hs (_ & _ & Etags & Hto & Hts). destruct f as [f|]; [|done]. destruct Hf as [_ Hall].
    pose proof (compile_tags_sem pk (a_tags v) sql_like _ 3 pk_ok nonce_12 Hts (Hall _ _ Hs)) as Hsem.
    cbn [filter_holds]. rewrite <- Hsem. cbn [fst snd] in Etags. rewrite Etags, List.map_map. done.
Qed.

Lemma with_selection_ok {A} base text args sel (f : Selection → Db → res string (Db * A)) d t a :
  read_query base text args = Some sel → sel_objection sel = None → tables_present d →
  f sel (od_tables d) = Ok (t, a) → with_selection base text args f d = (od_set t d, Ok a).
Proof.
  intros Hr Ho Hp E. unfold with_selection. rewrite Hr, Ho. apply on_present_ok; [done| |done].
  by destruct (sel_condition sel).
Qed.

(** The rows of a selection are those of the matching entries. *)
Lemma selection_rows d s kind c f cond order (sel := mkSelection pid (kind_value <$> kind) (enc_category_opt c) cond order) :
  represents pk pid d s → opt_text_ok c →
  (∀ d r k v, s !! k = Some v → stored pk k (i_value r, i_expiry r, item_tags (i_id r) d) v →
      match cond with Some cl => sem sql_like (List.map row_of (item_tags (i_id r) d)) cl | None => true end
      = filter_holds sql_like f (a_tags v)) →
  List.filter (λ r, sel_holds sel d r && o_live (env_now env) r) (items d)
  ≡ₚ List.map (row_at pk pid d) (map_to_list (a_matching sql_like env kind c f s)).
Proof.
  intros Hr Hc Hm.
  rewrite <- (matching_rows env pk pid pk_ok d s kind c f
    (λ r, match cond with Some cl => sem sql_like (List.map row_of (item_tags (i_id r) d)) cl | None => true end) Hr Hc
    (λ r k v, Hm d r k v)).
  match goal with |- ?a ≡ₚ ?b => assert (a = b) as ->; [|done] end. apply List.filter_ext. intros r. unfold sel_holds, sel. cbn. rewrite o_live_utc. unfold pg_live.
  rewrite <- !andb_assoc. f_equal. apply andb_comm.
Qed.

Lemma o_count_run w s kind c f :
  o_ready w → o_represents (od w) s → opt_text_ok c → pg_filter_ready pk s f →
  o_session_count env kind c f w = (ran (od w) w, Ok (a_count sql_like env kind c f s)).
Proof.
  intros Hw [Hr _ _] Hc Hfl. pose proof Hw as (Hf & _ & Hp).
  destruct (o_create_query_run w s COUNT_ITEMS kind c f None false) as (text & args & cond & Eq & Hread & Hob & Hm);
    [set_solver|by right|done|done|].
  unfold o_session_count. rewrite (stm_bind_ok _ _ _ _ _ (o_acquire_ready w Hw)). cbv beta iota.
  rewrite (stm_bind_ok _ _ _ _ _ Eq). cbv beta iota. unfold o_count.
  erewrite stm_bind_ok by (apply o_execute_ok; [done|apply (with_selection_ok _ _ _ _ _ _ _ _ Hread Hob Hp eq_refl)]).
  rewrite od_set_same. rewrite (stm_bind_ok _ _ _ _ _ (next_row_ok _ _ (ran (od w) w) Hf)). cbv beta iota.
  rewrite (stm_bind_ok (lift (unwrap (Some _))) _ _ _ _ eq_refl), get_ok by done. unfold a_count. do 3 f_equal.
  pose proof (selection_rows _ s kind c f cond None Hr Hc Hm) as E. apply Permutation_length in E.
  rewrite List.length_map, length_map_to_list in E. exact E.
Qed.

Lemma o_remove_all_sim w s kind c f :
  o_ready w → o_represents (od w) s → opt_text_ok c → pg_filter_ready pk s f →
  let '(s', n) := a_remove_all sql_like kind c f s in
  ∃ w', o_remove_all kind c f w = (w', Ok n) ∧ o_stays w w' ∧ o_represents (od w') s' ∧ o_frame (od w) (od w').
Proof.
  intros Hw [Hr Hwf Htags] Hc Hfl. pose proof Hw as (Hf & _ & Hp).
  destruct (o_create_query_run w s DELETE_ALL_ITEMS kind c f None false) as (text & args & cond & Eq & Hread & Hob & Hm);
    [set_solver|by right|done|done|].
  set (m := λ r, match cond with Some cl => sem sql_like (List.map row_of (item_tags (i_id r) (od_tables (od w)))) cl | None => true end).
  pose proof (remove_rows pk pid pk_ok (od_tables (od w)) s kind c f m Hr Hc (λ r k v, Hm (od_tables (od w)) r k v))
    as (En & Hr' & Hfr).
  assert (Hsub : ∀ k v, (a_remove_all sql_like kind c f s).1 !! k = Some v → s !! k = Some v).
  { intros k v. unfold a_remove_all. cbn. by intros [Hs _]%map_lookup_filter_Some. }
  destruct (a_remove_all _ _ _ _ _) as [s' n]. cbn [fst snd] in En, Hr', Hsub.
  set (p := λ r, selected pid (kind_value <$> kind) (enc_category_opt c) r && m r) in *.
  set (t := (delete_items p (od_tables (od w))).1) in *.
  exists (ran (od_set t (od w)) w). split_and!; [|by apply stays_ran| |by split].
  - unfold o_remove_all. rewrite (stm_bind_ok _ _ _ _ _ (o_acquire_ready w Hw)). cbv beta iota.
    rewrite (stm_bind_ok _ _ _ _ _ Eq). cbv beta iota. unfold o_allocate. rewrite o_call_bind by done. unfold o_delete_all.
    erewrite stm_bind_ok by (apply o_execute_ok; [done|apply (with_selection_ok _ _ _ _ _ _ _ _ Hread Hob Hp eq_refl)]).
    rewrite row_count_ok by done. rewrite <- En. reflexivity.
  - destruct Hwf as [_ Hib Hpb]. split; [exact Hr'|split; [apply Hr'| |exact Hpb]|].
    + cbn. apply List.Forall_forall. intros r [Hin _]%List.filter_In. rewrite List.Forall_forall in Hib. by apply Hib.
    + intros k v Hs. by eapply Htags, Hsub.
Qed.

(** *** Scans *)

Lemma read_item_run w s k v :
  o_ready w → ran (od w) w = w → o_represents (od w) s → s !! k = Some v →
  read_item pk (row_at pk pid (od_tables (od w)) (k, v)) w = (w, Ok (a_entry k v)).
Proof.
  intros Hw Hran [Hr _ Htags] Hs. pose proof Hw as (Hf & _ & _).
  destruct (rep_find pk pid _ _ k v Hr Hs) as (r & Hfi & _ & Hk & (b & Eb & Hb) & _ & Et & Ho & Hsm).
  destruct (rep_some _ _ _ _ Hr _ _ Hs) as [[[Ok1 Hc1] [Ok2 Hn1]] _].
  unfold row_at. cbn [fst]. rewrite Hfi. cbn [default from_option id].
  destruct k as [[e cat] nm]. destruct r as [i p' e' cat' nm' v' ex]. unfold item_key, ekey in Hk.
  cbn [fst snd i_profile i_kind i_category i_name i_value i_id] in *. injection Hk as -> -> -> ->.
  unfold read_item. cbn [i_id i_kind i_category i_name i_value].
  do 5 (rewrite (stm_bind_ok _ _ _ _ _ (get_ok _ w Hf))).
  rewrite (stm_bind_ok _ _ _ _ _ (decoded_tags_run w i (a_tags v) Hw Et Ho Hsm (Htags _ _ Hs))). rewrite Hran.
  assert (Ecat : decrypt_entry_category pk (enc_category pk (as_bytes cat)) = Ok cat) by (by apply category_inverse).
  assert (Enm : decrypt_entry_name pk (enc_name pk (as_bytes nm)) = Ok nm) by (by apply name_inverse).
  apply lift_ok. rewrite (bind_ok _ _ _ Ecat), (bind_ok _ _ _ Enm), (bind_ok _ _ _ Eb), (bind_ok _ _ _ (kind_back e)).
  by rewrite Hb.
Qed.

(** A list without a limit, or what is left of the limit after [n] rows. *)
Definition window {A} (limit n : Z) (l : list A) : list A :=
  if (limit =? -1)%Z then l else take (Z.to_nat (limit - n)) l.

Lemma past_check {W} (limit n : Z) (w : W) :
  (limit = -1 ∨ 0 ≤ limit)%Z → (0 ≤ n)%Z → (n ≤ i64_max)%Z → ∀ offset,
  lift (if (limit =? -1)%Z then Ok false else seen ← i64_add (n + offset) (- offset); Ok (limit <? seen)%Z : sres bool) w
  = (w, Ok (negb (limit =? -1)%Z && (limit <? n)%Z)).
Proof.
  intros Hl Hn Hmax offset. destruct (limit =? -1)%Z; [done|]. rewrite i64_add_ok by (unfold i64_min; lia).
  run_bind. unfold lift. do 2 f_equal. cbn. f_equal. lia.
Qed.

Lemma scan_rows_window w s offset limit : ∀ kvs n,
  o_ready w → ran (od w) w = w → o_represents (od w) s → (limit = -1 ∨ 0 ≤ limit)%Z →
  (∀ kv, kv ∈ kvs → s !! kv.1 = Some kv.2) → (0 ≤ n)%Z → (n + Z.of_nat (length kvs) ≤ i64_max)%Z →
  scan_rows pk offset limit (n + offset) (List.map (row_at pk pid (od_tables (od w))) kvs) w
  = (w, Ok (List.map (λ kv, a_entry kv.1 kv.2) (window limit n kvs))).
Proof.
  induction kvs as [|[k v] kvs IH]; intros n Hw Hran Hrep Hl Hkvs Hn Hmax; pose proof Hw as (Hf & _); cbn [List.map scan_rows];
    rewrite o_call_bind by done.
  { unfold window. destruct (limit =? -1)%Z; [done|]. by rewrite take_nil. }
  rewrite (proj2 (Z.leb_gt _ _)) by lia. cbn [length] in Hmax.
  replace (n + offset + 1)%Z with (n + 1 + offset)%Z by lia.
  rewrite (stm_bind_ok _ _ _ _ _ (past_check limit (n + 1) w Hl ltac:(lia) ltac:(lia) offset)).
  unfold window. destruct (Z.eqb_spec limit (-1)) as [->|Hne]; cbn [negb andb].
  - rewrite (stm_bind_ok _ _ _ _ _ (read_item_run w s k v Hw Hran Hrep (Hkvs _ ltac:(left)))).
    rewrite (stm_bind_ok _ _ _ _ _ (IH (n + 1)%Z Hw Hran Hrep Hl (λ kv H, Hkvs kv ltac:(by right)) ltac:(lia) ltac:(lia))).
    done.
  - destruct (Z.ltb_spec limit (n + 1)) as [Hlt|Hge].
    + by replace (Z.to_nat (limit - n)) with 0%nat by lia.
    + rewrite (stm_bind_ok _ _ _ _ _ (read_item_run w s k v Hw Hran Hrep (Hkvs _ ltac:(left)))).
      rewrite (stm_bind_ok _ _ _ _ _ (IH (n + 1)%Z Hw Hran Hrep Hl (λ kv H, Hkvs kv ltac:(by right)) ltac:(lia) ltac:(lia))).
      unfold window. rewrite (proj2 (Z.eqb_neq _ _)) by done.
      replace (Z.to_nat (limit - n)) with (S (Z.to_nat (limit - (n + 1)))) by lia. done.
Qed.

(** The rows before the offset are skipped. *)
Lemma scan_rows_skip w key offset limit : ∀ rows n,
  p_faults (ow_pool w) = [] → (0 ≤ n ≤ offset)%Z →
  scan_rows key offset limit n rows w
  = scan_rows key offset limit offset (drop (Z.to_nat (offset - n)) rows) w.
Proof.
  induction rows as [|r rows IH]; intros n Hf Hn; [rewrite drop_nil; cbn; by rewrite !o_call_bind|].
  destruct (decide (n = offset)) as [->|Hne]; [by rewrite Z.sub_diag|].
  replace (Z.to_nat (offset - n)) with (S (Z.to_nat (offset - (n + 1)))) by lia. cbn [drop].
  rewrite <- IH by (done || lia). cbn [scan_rows]. rewrite o_call_bind by done.
  by rewrite (proj2 (Z.leb_le _ _)) by lia.
Qed.

Lemma window_limit {A} offset limit (l : list A) :
  pg_limit_ok offset → pg_limit_ok limit →
  window (default (-1)%Z limit) 0 (drop (Z.to_nat (default 0%Z offset)) l) = sql_limit offset limit l.
Proof.
  intros Ho Hl. unfold window, sql_limit.
  destruct offset as [o|], limit as [n|]; cbn [default from_option id] in *; unfold pg_limit_ok in *; try done;
    rewrite (proj2 (Z.eqb_neq _ _)), (proj2 (Z.ltb_ge _ _)) by lia; by rewrite Z.sub_0_r.
Qed.

Lemma o_perform_scan_run w s kind c f offset limit order_by descending :
  o_ready w → o_represents (od w) s → opt_text_ok c → pg_filter_ready pk s f →
  pg_limit_ok offset → pg_limit_ok limit → (Z.of_nat (size s) ≤ i64_max)%Z →
  ∃ l, l ≡ₚ map_to_list (a_matching sql_like env kind c f s)
    ∧ o_perform_scan env kind c f offset limit order_by descending w
      = (ran (od w) w, Ok (List.map (λ kv, a_entry kv.1 kv.2) (sql_limit offset limit l))).
Proof.
  intros Hw Hrep Hc Hfl Ho Hl Hsize. pose proof Hrep as [Hr _ _]. pose proof Hw as (Hf & _ & Hp).
  destruct (o_create_query_run w s GET_ALL_ITEMS kind c f order_by descending) as (text & args & cond & Eq & Hread & Hob & Hm);
    [set_solver|by left|done|done|].
  pose proof (selection_rows _ s kind c f cond ((λ _, descending) <$> order_by) Hr Hc Hm) as Hp1.
  set (sel := mkSelection _ _ _ _ _) in *. set (rows := List.filter _ (items _)) in Hp1.
  set (rows' := match sel_descending sel with
    | Some descending => if descending then rev rows else rows | None => natural_order rows end).
  assert (Hp' : rows' ≡ₚ rows).
  { transitivity (match order_by with Some OrderBy.Id => if descending then rev rows else rows | None => natural_order rows end);
      [by destruct order_by as [[]|]|apply ordered_perm]. }
  rewrite Hp1 in Hp'. apply Permutation_map_inv in Hp' as (l & El & Hpl). symmetry in Hpl. exists l. split; [done|].
  set (w1 := ran (od w) w).
  assert (Hkv : ∀ kv, kv ∈ l → s !! kv.1 = Some kv.2).
  { intros [k v] Hin. rewrite Hpl in Hin. by apply elem_of_map_to_list, map_lookup_filter_Some in Hin as [Hs _]. }
  assert (Hlen : (length l ≤ size s)%nat).
  { rewrite (Permutation_length Hpl), length_map_to_list. apply map_size_filter. }
  unfold o_perform_scan. rewrite (stm_bind_ok _ _ _ _ _ (o_acquire_ready w Hw)). cbv beta iota.
  rewrite (stm_bind_ok _ _ _ _ _ Eq). cbv beta iota. unfold o_allocate. rewrite !o_call_bind by done.
  rewrite (stm_bind_ok _ _ _ w1 rows'); last first.
  { unfold w1. rewrite <- (od_set_same (od w)) at 1. apply o_execute_ok; [done|].
    by apply (with_selection_ok _ _ _ _ _ _ _ _ Hread Hob Hp eq_refl). }
  assert (Hoff : (0 ≤ default 0 offset)%Z) by (destruct offset; cbn in *; lia).
  rewrite scan_rows_skip, Z.sub_0_r by (done || lia). rewrite El, skipn_map.
  pose proof (scan_rows_window w1 s (default 0%Z offset) (default (-1)%Z limit) (drop (Z.to_nat (default 0%Z offset)) l) 0
    Hw (ran_ran _ _ _) Hrep) as E. rewrite (Z.add_0_l (default 0%Z offset)) in E.
  change (od_tables (od w1)) with (od_tables (od w)) in E. rewrite E.
  - unfold w1. by rewrite window_limit.
  - destruct limit as [n|]; cbn in *; lia.
  - intros kv Hin. apply Hkv. rewrite <- (take_drop (Z.to_nat (default 0%Z offset)) l). apply elem_of_app. by right.
  - done.
  - rewrite length_drop. lia.
Qed.

(** *** Replacing *)

Lemma updated_ids k v e l :
  List.map i_id (List.filter (has_key k) (List.map (upd_item k v e) l)) = List.map i_id (List.filter (has_key k) l).
Proof.
  induction l as [|r l IH]; [done|]. cbn [List.map List.filter].
  assert (E : has_key k (upd_item k v e r) = has_key k r) by (unfold has_key; by destruct (upd_item_keeps k v e r) as [-> _]).
  rewrite E. destruct (has_key k r); cbn [List.map]; [|done]. rewrite IH. f_equal. apply upd_item_keeps.
Qed.

Lemma o_replace_run w s kind c n value tags ms e v0 :
  o_ready w → o_represents (od w) s → okey_ok (kind, c, n) → value_ok value → o_tags_ok tags →
  s !! (kind, c, n) = Some v0 → bind_expiry env ms = Ok e →
  ∃ t encv, o_update env kind EntryOperation.Replace c n value tags ms w = (ran (od_set t (od w)) w, Ok ())
    ∧ (∃ b, decrypt_entry_value pk (as_bytes c) (as_bytes n) encv = Ok b ∧ sec_data b = default [] value)
    ∧ db_wf t ∧ profiles t = profiles (od_tables (od w))
    ∧ List.map i_id (items t) = List.map i_id (items (od_tables (od w)))
    ∧ ∀ k', view t k' = updated pid (ekey pk pid (kind, c, n)) encv e (List.map (enc_tag pk) (default [] tags))
        (od_tables (od w)) k' <$> find_item k' (od_tables (od w)).
Proof.
  intros Hw Hrep (Hk & _) Hv [Ht Hfit] Es Ee. pose proof Hk as [Hc Hn]. cbn in Hc, Hn.
  pose proof Hw as (Hf & _ & Hp). destruct Hrep as [Hr _ _].
  destruct (encrypt_entry_run env pk pk_ok rng_length c n value tags Hc Hn Hv Ht) as (encv & b & Eenc & Hdec & Hb).
  pose proof (o_update_run w false kind c n value tags ms encv Hw Eenc) as E. cbn [upsert] in E. rewrite E. clear E Eenc.
  rewrite Ee, (stm_bind_ok (lift (Ok e)) _ _ _ _ eq_refl).
  set (k := ekey pk pid (kind, c, n)). set (ts := List.map (enc_tag pk) (default [] tags)).
  destruct (rep_find pk pid _ _ _ _ Hr Es) as (r0 & Hfi & _). fold k in Hfi.
  destruct (update_rows_spec pid k encv e ts (od_tables (od w)) r0 (rep_wf _ _ _ _ Hr) Hfi)
    as (t1 & t2 & t3 & E1 & E2 & E3 & Hwf3 & Hpr & _ & Hi2 & Hi3 & Hview).
  assert (Hids : List.map i_id (items t3) = List.map i_id (items (od_tables (od w)))).
  { rewrite Hi3, Hi2. apply map_upd_same. intros r. apply upd_item_keeps. }
  set (w2 := ran (od_set t2 (od w)) w).
  exists t3, encv. split_and!; [|by exists b|done..].
  unfold o_store_row. rewrite stm_bind_assoc.
  rewrite (stm_bind_ok _ _ _ (ran (od_set t1 (od w)) w) 1%Z); last first.
  { apply o_execute_ok; [done|]. apply on_present_ok; [done|done|]. by rewrite Hfi, E1. }
  rewrite (stm_bind_ok _ _ _ w2 ()); last first.
  { replace w2 with (ran (od_set t2 (od w)) (ran (od_set t1 (od w)) w)) by apply ran_ran.
    apply o_execute_ok; [done|]. by apply (on_present_ok _ _ (od_set t1 (od w))). }
  assert (Eid : List.map i_id (List.filter (has_key k) (items t2)) = [i_id r0]).
  { rewrite Hi2, updated_ids. apply item_id_one; [apply Hr|done]. }
  rewrite (o_store_tags_run k tags w2 t3 (i_id r0)); [|done|done|apply ran_ran|done|exact Eid|exact E3].
  unfold w2. by rewrite ran_ran.
Qed.

(** Is the row of an entry the one whose identifier is that of the profile? *)
Definition marked (t : Db) (k : AKey) : bool := bool_decide (i_id <$> find_item (ekey pk pid k) t = Some pid).
Definition kept_tags (t : Db) (k : AKey) (v : AVal) : list EntryTag := if marked t k then [] else a_tags v.

(** What is left of a store by a replacement: the tags of the marked entry are lost, and
    those of the entry replaced are kept beside the new ones. *)
Definition after_replace (t : Db) (k : AKey) (value : bytes) (tags : list EntryTag) (e : option Z) (s : AStore) : AStore :=
  map_imap (λ k' v, Some (if decide (k' = k) then mkAVal value (kept_tags t k v ++ tags) e
                          else mkAVal (a_value v) (kept_tags t k' v) (a_expiry v))) s.

Lemma replace_represents d t k encv e v0 value tags s :
  o_represents d s → akey_ok k → s !! k = Some v0 →
  (∃ b, decrypt_entry_value pk (as_bytes k.1.2) (as_bytes k.2) encv = Ok b ∧ sec_data b = value) →
  tags_ok (Some tags) → Forall tag_fits tags →
  db_wf t → profiles t = profiles (od_tables d) → List.map i_id (items t) = List.map i_id (items (od_tables d)) →
  (∀ k', view t k' = updated pid (ekey pk pid k) encv e (List.map (enc_tag pk) tags) (od_tables d) k'
      <$> find_item k' (od_tables d)) →
  o_represents (od_set t d) (after_replace (od_tables d) k value tags e s).
Proof.
  intros [Hr [_ Hib Hpb] Htags] Hk Es Hdec Ht Hfit Hwf Hp Hids Hview.
  assert (Hkept : ∀ k' v, kept_tags (od_tables d) k' v = [] ∨ kept_tags (od_tables d) k' v = a_tags v).
  { intros. unfold kept_tags. destruct (marked _ _); auto. }
  split.
  - split; [done| | |].
    + pose proof (rep_profile _ _ _ _ Hr) as Hh. unfold has_profile in *. cbn. by rewrite Hp.
    + intros k' v'. unfold after_replace. rewrite map_lookup_imap. destruct (s !! k') as [v|] eqn:Es'; [|done].
      intros [= <-]. destruct (rep_some _ _ _ _ Hr _ _ Es') as [Hk' _]. split; [done|].
      destruct (rep_find pk pid _ _ _ _ Hr Es') as (r & Hfi & _ & _ & Hdec' & He & Et & Ho & Hs).
      cbn [fst snd] in *. cbn [od_tables od_set]. rewrite Hview, Hfi. eexists. split; [reflexivity|].
      assert (Emark : (if decide (pid = i_id r) then [] else item_tags (i_id r) (od_tables d))
        = List.map (enc_tag pk) (kept_tags (od_tables d) k' v)).
      { unfold kept_tags, marked. rewrite Hfi. cbn. destruct (decide (pid = i_id r)) as [<-|Hne].
        - by rewrite bool_decide_true.
        - rewrite bool_decide_false by congruence. done. }
      assert (Hst : Forall tag_ok (kept_tags (od_tables d) k' v) ∧ Forall (tag_small cipher_max) (kept_tags (od_tables d) k' v)).
      { by destruct (Hkept k' v) as [->| ->]. }
      unfold updated. rewrite Emark. destruct (decide (k' = k)) as [->|Hne].
      * rewrite decide_True by done. split_and!; [exact Hdec|done| | |]; cbn.
        { by rewrite List.map_app. }
        all: apply Forall_app; split; first [apply Hst|apply Ht].
      * rewrite decide_False; [split_and!; [exact Hdec'|done..| |]; apply Hst|].
        intros E%(ekey_inj pk pid pk_ok); done.
    + intros k' x Hx Hpid. cbn [od_tables od_set] in Hx. rewrite Hview in Hx.
      destruct (find_item k' (od_tables d)) as [r|] eqn:Hfi; [|done].
      destruct (rep_only _ _ _ _ Hr k' (i_value r, i_expiry r, item_tags (i_id r) (od_tables d))) as (k1 & v1 & Es1 & ->);
        [unfold view; by rewrite Hfi|done|].
      unfold after_replace. eexists k1, _. split; [|done]. rewrite map_lookup_imap, Es1. reflexivity.
  - split; [done| |cbn; by rewrite Hp]. cbn. apply List.Forall_forall. intros r Hin.
    assert (Hid : i_id r ∈ List.map i_id (items (od_tables d))).
    { rewrite <- Hids. apply list_elem_of_fmap_2. by apply list_elem_of_In. }
    apply list_elem_of_fmap in Hid as (r' & -> & Hin'). rewrite Forall_forall in Hib. by apply Hib.
  - intros k' v'. unfold after_replace. rewrite map_lookup_imap. destruct (s !! k') as [v|] eqn:Es'; [|done].
    intros [= <-]. specialize (Htags _ _ Es').
    assert (Forall tag_fits (kept_tags (od_tables d) k' v)) by (by destruct (Hkept k' v) as [->| ->]).
    destruct (decide (k' = k)) as [->|Hne]; cbn; [by apply Forall_app|done].
Qed.

(** Replacing what is not there changes nothing; with tags, it is a panic. *)
Lemma o_replace_missing w s kind c n value tags ms :
  o_ready w → o_represents (od w) s → okey_ok (kind, c, n) → value_ok value → o_tags_ok tags →
  s !! (kind, c, n) = None → (∃ e, bind_expiry env ms = Ok e) →
  (o_update env kind EntryOperation.Replace c n value tags ms w).2 = match tags with Some _ => Panic | None => Ok () end.
Proof.
  intros Hw Hrep (Hk & _) Hv [Ht Hfit] Es [e Ee]. pose proof Hk as [Hc Hn]. cbn in Hc, Hn.
  pose proof Hw as (Hf & _ & Hp). destruct Hrep as [Hr _ _].
  destruct (encrypt_entry_run env pk pk_ok rng_length c n value tags Hc Hn Hv Ht) as (encv & b & Eenc & _).
  pose proof (o_update_run w false kind c n value tags ms encv Hw Eenc) as E. cbn [upsert] in E. rewrite E. clear E Eenc.
  rewrite Ee, (stm_bind_ok (lift (Ok e)) _ _ _ _ eq_refl). set (k := ekey pk pid (kind, c, n)).
  pose proof (rep_none pk pid pk_ok _ _ _ Hr Hk Es) as Hnone%view_find. fold k in Hnone.
  set (t1 := od_tables (od w)) in *. unfold o_store_row. rewrite stm_bind_assoc.
  rewrite (stm_bind_ok _ _ _ (ran (od w) w) 0%Z); last first.
  { rewrite <- (od_set_same (od w)) at 1. apply o_execute_ok; [done|]. apply on_present_ok; [done|done|].
    fold t1. by rewrite Hnone. }
  destruct (sql_delete_tags pid t1) as [[t2 []]| |] eqn:E2; try done.
  set (w2 := ran (od_set t2 (od w)) w).
  rewrite (stm_bind_ok _ _ _ w2 ()); last first.
  { replace w2 with (ran (od_set t2 (od w)) (ran (od w) w)) by apply ran_ran. apply o_execute_ok; [done|]. by apply (on_present_ok _ _ (od w)). }
  destruct tags as [ts|]; [|done]. unfold o_store_tags, o_item_id. cbn [enc_tags_opt fmap option_fmap option_map].
  run_read.
  assert (Hrows : List.map i_id (List.filter (has_key k) (items (od_tables (od w2)))) = []).
  { injection E2 as <-. cbn. clear -Hnone. unfold find_item in Hnone. induction (items t1) as [|r l IH]; [done|].
    cbn in Hnone |- *. by destruct (has_key k r); [|apply IH]. }
  rewrite Hrows. rewrite (stm_bind_ok _ _ _ _ _ (next_row_ok _ _ (ran (od w2) w2) Hf)). done.
Qed.
End Refinement.
