(* ===== verification/OdbcBackend.v ===== *)
(** * The ODBC store

    [OdbcStoreOptions] of askar-storage/src/backend/odbc/provision.rs, with the tables its
    schema file creates (db2.sql), and the operations of [OdbcBackend] in
    askar-storage/src/backend/odbc/mod.rs that work on the store rather than in a
    session. *)

From S2P Require Import Prelude Errors Wql TagSql DbQuery Buffers Utf8 Entry Aead Protect Options StoreKey DbUtils.
From S2P Require Import SqlEval Session SqliteDb Sqlite SqliteBackend Store Backend OdbcSql OdbcDb Odbc.
Local Open Scope string_scope.
Local Open Scope list_scope.

(** ** Options *)

Module OdbcDefaults.
Definition DEFAULT_CONNECT_TIMEOUT : Z := 30.
Definition DEFAULT_IDLE_TIMEOUT : Z := 300.
Definition DEFAULT_MAX_LIFETIME : Z := 300.
Definition DEFAULT_MIN_CONNECTIONS : Z := 0.
Definition DEFAULT_MAX_CONNECTIONS : Z := 10.
End OdbcDefaults.
Import OdbcDefaults.

(** Timeouts are in seconds. *)
Record OdbcStoreOptions := mkOdbcOptions {
  oo_connect_timeout : Z;
  oo_idle_timeout : Z;
  oo_max_lifetime : Z;
  oo_max_connections : Z;
  oo_min_connections : Z;
  oo_connection_string : string;
  oo_schema_file : string;
}.

Definition odbc_options_new (opts : Options) : sres OdbcStoreOptions :=
  connect_timeout ← option_param (query opts) "connect_timeout" "Error parsing 'connect_timeout' parameter"
    (parse_unsigned u64_limit) (Ok DEFAULT_CONNECT_TIMEOUT);
  idle_timeout ← option_param (query opts) "idle_timeout" "Error parsing 'idle_timeout' parameter"
    (parse_unsigned u64_limit) (Ok DEFAULT_IDLE_TIMEOUT);
  max_lifetime ← option_param (query opts) "max_lifetime" "Error parsing 'max_lifetime' parameter"
    (parse_unsigned u64_limit) (Ok DEFAULT_MAX_LIFETIME);
  max_connections ← option_param (query opts) "max_connections" "Error parsing 'max_connections' parameter"
    (parse_unsigned u32_limit) (Ok DEFAULT_MAX_CONNECTIONS);
  min_connections ← option_param (query opts) "min_connections" "Error parsing 'min_connections' parameter"
    (parse_unsigned u32_limit) (Ok DEFAULT_MIN_CONNECTIONS);
  schema_file ← ok_or (query opts !! "schema_file")
    (StorageError.from_msg StorageError.Input "Missing 'schema_file' parameter");
  mret (mkOdbcOptions connect_timeout idle_timeout max_lifetime max_connections min_connections
    (host opts +:+ path opts) schema_file).

(** ** Tables made and dropped *)

(** The schema that comes with the code, for a DB2 server. *)
Definition DB2_SCHEMA : string := "
-- This SQL file contains the database schema for a DB2 server.
--

CREATE TABLE config (
    name VARCHAR(1022) NOT NULL,
    value CLOB,
    PRIMARY KEY(name)
);

CREATE TABLE profiles (
    id BIGINT NOT NULL GENERATED ALWAYS AS IDENTITY,
    name VARCHAR(1022) NOT NULL,
    reference CLOB NULL,
    profile_key BLOB NULL,
    PRIMARY KEY(id)
);

CREATE UNIQUE INDEX ix_profile_name ON profiles(name);

CREATE TABLE items (
    id BIGINT NOT NULL GENERATED ALWAYS AS IDENTITY,
    profile_id BIGINT NOT NULL,
    kind SMALLINT NOT NULL,
    category VARCHAR(500) NOT NULL,
    name VARCHAR(500) NOT NULL,
    value BLOB NOT NULL,
    expiry TIMESTAMP NULL,
    PRIMARY KEY(id),
    FOREIGN KEY(profile_id) REFERENCES profiles(id)
        ON DELETE CASCADE
);

CREATE UNIQUE INDEX ix_items_uniq ON items(profile_id, kind, category, name);
CREATE INDEX ix_items_profile_id ON items(profile_id);

CREATE TABLE items_tags (
    id BIGINT NOT NULL GENERATED ALWAYS AS IDENTITY,
    item_id BIGINT NOT NULL,
    name VARCHAR(500) NOT NULL,
    value VARCHAR(500) NOT NULL,
    plaintext SMALLINT NOT NULL,
    PRIMARY KEY(id),
    FOREIGN KEY(item_id) REFERENCES items(id)
        ON DELETE CASCADE
);

CREATE INDEX ix_items_tags_item_id ON items_tags(item_id);
CREATE INDEX ix_items_tags_name ON items_tags(name, value);

COMMIT;
".

(** Making a table, empty and with its identities at the start, and dropping one. *)
Definition create_table (n : string) (d : OdbcDb) : OdbcDb :=
  mkOdbc (od_tables d) (od_present d ++ [n])
    (if String.eqb n "profiles" then 1 else od_profile_seq d)%Z (if String.eqb n "items" then 1 else od_item_seq d)%Z.

Definition empty_table (n : string) (t : Db) : Db :=
  mkDb (if String.eqb n "config" then [] else config t) (if String.eqb n "profiles" then [] else profiles t)
    (if String.eqb n "items" then [] else items t) (if String.eqb n "items_tags" then [] else items_tags t).

(** [DROP TABLE]. *)
Definition drop_table (n : string) : OStatement () := λ d,
  if negb (existsb (String.eqb n) (od_present d)) then (d, Err no_table) else
  (mkOdbc (empty_table n (od_tables d)) (List.filter (λ m, negb (String.eqb n m)) (od_present d))
     (od_profile_seq d) (od_item_seq d), Ok ()).

Definition newline : Ascii.ascii := Ascii.ascii_of_nat 10.

Fixpoint after_line (s : string) : string :=
  match s with String c s => if Ascii.eqb c newline then s else after_line s | EmptyString => "" end.

(** The server's reading of a statement of the schema: comments are skipped; each turn
    takes a line away. *)
Fixpoint skip_comments (fuel : nat) (s : string) : string :=
  match fuel with
  | O => s
  | S fuel => let s := trim_start s in if String.prefix "--" s then skip_comments fuel (after_line s) else s
  end.

Fixpoint read_word (s : string) : string :=
  match s with
  | String c s => if is_space c || Ascii.eqb c "(" then "" else String c (read_word s)
  | EmptyString => ""
  end.

Definition run_ddl (statement : string) : OStatement () := λ d,
  let s := skip_comments (String.length statement) statement in
  match strip "CREATE TABLE " s with
  | Some s =>
      let n := read_word s in
      if existsb (String.eqb n) (od_present d) then (d, Err "the name of the object exists already")
      else (create_table n d, Ok ())
  | None =>
      if String.prefix "CREATE INDEX " s || String.prefix "CREATE UNIQUE INDEX " s || String.eqb s "COMMIT"
      then (d, Ok ()) else (d, Err "unexpected token")
  end.

Fixpoint trim_end (s : string) : string :=
  match s with
  | String c s =>
      match trim_end s with
      | EmptyString => if is_space c then "" else String c ""
      | t => String c t
      end
  | EmptyString => ""
  end.

(** [str::split] at semicolons. *)
Fixpoint split_statements (s : string) : list string :=
  match s with
  | EmptyString => [""]
  | String c s =>
      if Ascii.eqb c ";" then "" :: split_statements s
      else match split_statements s with
           | [] => [String c ""]
           | t :: ts => String c t :: ts
           end
  end.

(** [INSERT INTO config], three rows at once. *)
Definition o_insert_config (rows : list (string * string)) : OStatement () :=
  on_present ["config"] (λ t,
    if existsb (λ r, existsb (λ c, String.eqb (fst c) (fst r)) (config t)) rows
    then Err "duplicate values for the primary key" else Ok (set_config (config t ++ rows) t, ())).

(** [select count(name) from config]. *)
Definition o_count_config : OStatement nat := on_present ["config"] (λ t, Ok (t, length (config t))).

(** [SELECT name, value FROM config WHERE name IN ('default_profile', 'key', 'version')]. *)
Definition o_config_rows : OStatement (list (string * string)) :=
  on_present ["config"] (λ t,
    Ok (t, List.filter (λ c, existsb (String.eqb (fst c)) ["default_profile"; "key"; "version"]) (config t))).

(** ** The store *)

Record OdbcBackend := mkOdbcBackend {
  ob_pool : OdbcPool;
  ob_active : string;
  ob_cache : KeyCache;
}.

#[export] Instance odbc_backend_pool : HasPool OdbcBackend := {|
  pool_of := ob_pool;
  set_pool p b := mkOdbcBackend p (ob_active b) (ob_cache b);
|}.

Definition set_ocache (c : KeyCache) (b : OdbcBackend) : OdbcBackend := mkOdbcBackend (ob_pool b) (ob_active b) c.

Section Store.
Context `{Allocator} `{Hmac} `{AeadCipher} `{StoreCodecs} `{UriCodec} `{CborCodec} `{SqlEngine} `{OdbcDriver}.
Abbreviation B := (stm OdbcBackend StorageError.Error).

(** [.unwrap().next_row()?.unwrap().get_data(1, ..)?] on the rows of a query. *)
Definition first_row {W A} `{HasPool W} (on_err : string → StorageError.Error) (rows : list A) : stm W StorageError.Error A :=
  '(row, _) ← o_next_row on_err rows;
  a ← lift (unwrap row);
  o_get a.

Definition o_create_profile (rng : nat → bytes) (new_key : sres ProfileKey) (random_name : string)
    (name : option string) : B string :=
  let name := default random_name name in
  b ← sget;
  '(profile_key, enc_key) ← lift (
    profile_key ← new_key;
    enc_key ← encode_profile_key rng profile_key (cache_store_key (ob_cache b));
    mret (profile_key, enc_key));
  _ ← get_connection;
  _ ← o_allocate;
  n ← o_execute (backend_err "Error inserting profile") (o_insert_profile name enc_key);
  n ← o_row_count n;
  if (n =? 0)%Z then sfail (err_kind StorageError.Duplicate "Duplicate profile name") else
  rows ← o_execute (backend_err "Error retrieving profile") (o_profile_id name enc_key);
  pid ← first_row (backend_err "Error retrieving profile") rows;
  _ ← smod (λ b, set_ocache (add_profile name pid profile_key (ob_cache b)) b);
  mret name.

Definition o_get_default_profile : B string :=
  _ ← get_connection;
  rows ← o_execute (backend_err "Error fetching default profile name") (o_config_get "default_profile");
  first_row (backend_err "Error fetching default profile name") rows.

Definition o_set_default_profile (profile : string) : B () :=
  _ ← get_connection;
  _ ← o_execute (backend_err "Error setting default profile name") (o_config_update "default_profile" profile);
  mret ().

(** [as_str()?.unwrap().to_string()] of a name in the buffer. *)
Definition read_profile_name (name : string) : sres string :=
  map_err StorageError.from_sqlx (from_utf8 (varchar_1024 (as_bytes name))).

(** One batch of at most 64 names is fetched; without rows there is none to unwrap. *)
Definition o_list_profiles : B (list string) :=
  _ ← get_connection;
  rows ← o_execute (λ _, err_kind StorageError.Backend "Error fetching profile list") o_all_profiles;
  _ ← o_allocate;
  _ ← o_call from_odbc;
  match rows with
  | [] => lift Panic
  | _ => lift (mapM (λ p, read_profile_name (p_name p)) (take BATCH rows))
  end.

Definition o_remove_profile (name : string) : B bool :=
  _ ← get_connection;
  _ ← o_allocate;
  n ← o_execute (backend_err "Error removing profile") (o_delete_profile name);
  n ← o_row_count n;
  mret (negb (n =? 0)%Z).

(** *** Rekeying, which is not a transaction *)

Fixpoint read_keys (rows : list ProfileRow) : B (list (Z * bytes)) :=
  _ ← o_call from_odbc;
  match rows with
  | [] => mret []
  | p :: rows =>
      pid ← o_get (p_id p);
      enc_key ← o_get (p_key p);
      rest ← read_keys rows;
      mret ((pid, enc_key) :: rest)
  end.

Fixpoint o_update_keys (rngs : Z → nat → bytes) (store_key : StoreKey) (upd : list (Z * bytes)) : B () :=
  match upd with
  | [] => mret ()
  | (pid, key) :: upd =>
      b ← sget;
      upd_key ← lift (
        profile_key ← load_key (ob_cache b) key;
        encode_profile_key (rngs pid) profile_key store_key);
      _ ← o_execute from_odbc (o_update_profile upd_key pid);
      o_update_keys rngs store_key upd
  end.

Definition o_rekey (rng : nat → bytes) (rngs : Z → nat → bytes) (method : StoreKeyMethod) (pass_key : PassKey) : B () :=
  '(store_key, store_key_ref) ← lift (method_resolve method rng (pass_into_owned pass_key));
  _ ← get_connection;
  rows ← o_execute (λ _, err_kind StorageError.NotFound "Configuration data not found") o_all_profiles;
  upd ← read_keys rows;
  _ ← o_update_keys rngs store_key (btree_of upd);
  _ ← o_execute (backend_err "Error updating the store key") (o_config_update "key" (ref_into_uri store_key_ref));
  smod (set_ocache (key_cache_new store_key)).

(** *** Sessions *)

Definition odbc_session_open (profile : option string) (transaction : bool) (b : OdbcBackend) : sres OdbcWorld :=
  match pool_get (ob_pool b) with
  | (p, Ok _) => Ok (odbc_session_new (ob_cache b) (default (ob_active b) profile) p transaction)
  | (_, Err e) => Err e
  | (_, Panic) => Panic
  end.

(** There is nothing that runs when a session is dropped: its connection is given back. *)
Definition odbc_drop_session (w : OdbcWorld) (b : OdbcBackend) : OdbcBackend :=
  mkOdbcBackend (set_conn (give_back (p_conn (ow_pool w))) (ow_pool w)) (ob_active b) (ow_cache w).

#[export] Instance odbc_session (env : Env) : BackendSession OdbcWorld := {|
  bs_count := o_session_count env;
  bs_fetch := o_fetch env;
  bs_fetch_all := o_fetch_all env;
  bs_remove_all := o_remove_all;
  bs_update := o_update env;
  bs_ping := o_ping;
  bs_close := o_close;
|}.

(** All the entries in one page, whatever their number. *)
Definition scan_session (env : Env) (kind : option EntryKind) (category : option string) (tag_filter : option TagFilter)
    (offset limit : option Z) (order_by : option OrderBy) (descending : bool) : stm OdbcWorld StorageError.Error (Scan Entry) :=
  entries ← o_perform_scan env kind category tag_filter offset limit order_by descending;
  _ ← o_close true;
  mret (scan_new [Ok entries] PAGE_SIZE).

Definition o_scan_store (env : Env) (profile : option string) (kind : option EntryKind) (category : option string)
    (tag_filter : option TagFilter) (offset limit : option Z) (order_by : option OrderBy) (descending : bool)
    : B (Scan Entry) := λ b,
  match odbc_session_open profile false b with
  | Ok w =>
      let '(w, r) := scan_session env kind category tag_filter offset limit order_by descending w in
      (odbc_drop_session w b, r)
  | Err e => (b, Err e)
  | Panic => (b, Panic)
  end.

#[export] Instance odbc_backend (env : Env) (new_key : sres ProfileKey) (random_name : string)
    (rngs : Z → nat → bytes) : Backend OdbcBackend OdbcWorld := {|
  be_sessions := odbc_session env;
  be_create_profile := o_create_profile (env_rng env) new_key random_name;
  be_get_active_profile := ob_active;
  be_get_default_profile := o_get_default_profile;
  be_set_default_profile := o_set_default_profile;
  be_list_profiles := o_list_profiles;
  be_remove_profile := o_remove_profile;
  be_scan := o_scan_store env;
  be_session := odbc_session_open;
  be_drop_session := odbc_drop_session;
  be_visit _ w := w;
  be_rekey := o_rekey (env_rng env) rngs;
  be_holds _ := false;
  be_scans_hold _ := false;
  be_begin_close b := b;
  be_close := mret ();
|}.
End Store.

(** ** Provisioning and opening *)

(** What r2d2 makes of a configuration of its pool: the maximum and minimum of
    connections, and the timeouts. *)
Class PoolBuilder := { builder_panics : OdbcStoreOptions → bool }.

#[export] Instance pool_itself : HasPool OdbcPool := {| pool_of p := p; set_pool p _ := p |}.

Section Provision.
Context `{Allocator} `{Hmac} `{AeadCipher} `{StoreCodecs} `{UriCodec} `{CborCodec} `{OdbcDriver} `{PoolBuilder}.
(** The state is the server, as a pool of fresh connections to it sees it. *)
Abbreviation M := (stm OdbcPool StorageError.Error).

(** With a minimum of connections, they are made before the pool is returned. *)
Definition open_pool (o : OdbcStoreOptions) : M () := λ p,
  if builder_panics o then (p, Panic) else
  if (0 <? oo_min_connections o)%Z then
    match p_checkouts p with
    | TimedOut msg :: cs => (mkPool (p_conn p) (p_faults p) cs, Err (backend_err "Failed to open the database pool" msg))
    | _ => (p, Ok ())
    end
  else (p, Ok ()).

Definition config_exists : M bool :=
  _ ← get_connection;
  r ← attempt (o_execute from_odbc o_count_config);
  mret (match r with Some _ => true | None => false end).

Fixpoint drop_tables (names : list string) : M () :=
  match names with
  | [] => mret ()
  | n :: names =>
      _ ← get_connection;
      _ ← o_execute (backend_err "Failed to drop a database table") (drop_table n);
      drop_tables names
  end.

(** The statements of the schema, one at a time. *)
Fixpoint run_schema (definitions : list string) : M () :=
  match definitions with
  | [] => mret ()
  | definition :: definitions =>
      let trimmed := trim_end (trim_start definition) in
      _ ← (if String.eqb trimmed "" then mret () else o_execute from_odbc (run_ddl trimmed));
      run_schema definitions
  end.

(** The loop over the rows of the configuration. *)
Fixpoint o_read_config (rows : list (string * string)) (default_profile key : option string) (ver_ok : bool)
    : M (option string * option string * bool) :=
  _ ← o_call from_odbc;
  match rows with
  | [] => mret (default_profile, key, ver_ok)
  | (name, value) :: rows =>
      name ← o_get name;
      value ← o_get value;
      if String.eqb name "default_profile" then o_read_config rows (Some value) key ver_ok
      else if String.eqb name "key" then o_read_config rows default_profile (Some value) ver_ok
      else if String.eqb name "version" then
        if String.eqb value "1" then o_read_config rows default_profile key true
        else sfail (unsupported "Unsupported store version")
      else o_read_config rows default_profile key ver_ok
  end.

Definition odbc_open (o : OdbcStoreOptions) (method : option StoreKeyMethod) (pass_key : PassKey)
    (profile : option string) : M OdbcBackend :=
  _ ← open_pool o;
  _ ← get_connection;
  rows ← o_execute (λ _, unsupported "Configuration data not found") o_config_rows;
  '(default_profile, store_key_ref, ver_ok) ← o_read_config rows None None false;
  if negb (ver_ok : bool) then sfail (unsupported "Store version not found") else
  profile ← lift (ok_or (match profile with Some p => Some p | None => default_profile end)
    (unsupported "Default store profile not found"));
  store_key ← lift match store_key_ref with
    | Some store_key_ref =>
        wrap_ref ← ref_parse_uri store_key_ref;
        if match method with Some m => negb (compare_method wrap_ref m) | None => false end
        then Err (input_err "Store key method mismatch")
        else ref_resolve wrap_ref (pass_into_owned pass_key)
    | None => Err (unsupported "Store key not found")
    end;
  _ ← get_connection;
  found ← attempt (o_execute from_odbc (o_find_profile profile));
  '(profile_id, profile_key_buf) ← match found with
    | Some rows =>
        '(row, _) ← o_next_row from_odbc rows;
        '(pid, key) ← lift (unwrap row);
        pid ← o_get pid;
        key ← o_get key;
        mret (pid, key)
    | None => mret (0%Z, [])
    end;
  let key_cache := key_cache_new store_key in
  profile_key ← lift (load_key key_cache profile_key_buf);
  p ← sget;
  mret (mkOdbcBackend p profile (add_profile profile profile_id profile_key key_cache)).

(** [read_file] is [fs::read_to_string]. *)
Definition odbc_provision (rng : nat → bytes) (new_key : sres ProfileKey) (random_name : string)
    (read_file : string → res string string) (o : OdbcStoreOptions)
    (method : StoreKeyMethod) (pass_key : PassKey) (profile : option string) (recreate : bool) : M OdbcBackend :=
  _ ← open_pool o;
  exists_already ← config_exists;
  if exists_already && negb recreate then odbc_open o (Some method) pass_key profile else
  _ ← (if exists_already : bool then drop_tables TABLES else mret ());
  '(profile_key, enc_profile_key, store_key, store_key_ref) ←
    lift (init_keys rng new_key method (pass_into_owned pass_key));
  let default_profile := default random_name profile in
  schema ← lift (map_err (backend_err "Failed to read the schema file") (read_file (oo_schema_file o)));
  _ ← get_connection;
  _ ← o_allocate;
  _ ← run_schema (split_statements schema);
  _ ← o_execute (backend_err "Failed to insert the configuration data")
    (o_insert_config [("default_profile", default_profile); ("key", store_key_ref); ("version", "1")]);
  _ ← o_execute (backend_err "Failed to insert the default profile") (o_insert_profile default_profile enc_profile_key);
  rows ← o_execute (backend_err "Failed to retrieve the default profile") (o_profile_id default_profile enc_profile_key);
  profile_id ← first_row (backend_err "Failed to retrieve the default profile") rows;
  p ← sget;
  mret (mkOdbcBackend p default_profile (add_profile default_profile profile_id profile_key (key_cache_new store_key))).

(** It is [true] whether there was a store or not. *)
Definition odbc_remove (o : OdbcStoreOptions) : M bool :=
  _ ← open_pool o;
  exists_already ← config_exists;
  _ ← (if exists_already : bool then drop_tables TABLES else mret ());
  mret true.
End Provision.
