(* ===== verification/OdbcLaws.v ===== *)
(** * What the sessions of an ODBC store do

    Sequences of operations against the abstract store, what a replacement does instead
    of replacing, and what becomes of the work of a transaction, closed or dropped. *)

From S2P Require Import Prelude Errors Wql TagSql DbQuery TagSqlSem SqlEval Buffers Utf8 Entry Aead.
From S2P Require Import Protect Options StoreKey DbUtils Session SqliteDb PgDb Sqlite Store Backend Scans PgStore.
From S2P Require Import SqliteBackend Lifecycle OdbcSql OdbcDb Odbc OdbcStore OdbcBackend.
Local Open Scope string_scope.
Local Open Scope list_scope.
#[local] Existing Instance pg_resolution.

Section Laws.
Context `{HAl : Allocator} `{HH : Hmac} `{HC : AeadCipher} {laws : CipherLaws} {HD : LawfulDerivation Chacha20Key}.
Context `{HS : StoreCodecs} `{HB : CborCodec} `{HE : SqlEngine} `{HO : OdbcDriver}.
Context (env : Env) (pk : ProfileKey) (pid : Z).
Hypothesis pk_ok : profile_ok pk.
Hypothesis nonce_12 : cipher_nonce_size = 12%nat.
Hypothesis rng_length : ∀ n, length (env_rng env n) = n.
Hypothesis rows_counted : counts_rows = true.
Hypothesis utc : clock_offset = 0%Z.

(** ** Sequences of operations *)

(** What an operation that is no replacement does to the abstract store. *)
Definition oa_step (op : Op) (s : AStore) : AStore * sres Result :=
  match op with
  | OpUpdate operation kind c n value tags ms =>
      let '(s', r) := oa_update env operation (kind, c, n) value tags ms s in (s', (λ _, RUnit) <$> r)
  | _ => a_step sql_like env op s
  end.

Fixpoint oa_run (ops : list Op) (s : AStore) : AStore * list (sres Result) :=
  match ops with
  | [] => (s, [])
  | op :: ops' =>
      let '(s1, r) := oa_step op s in
      let '(s2, rs) := oa_run ops' s1 in
      (s2, r :: rs)
  end.

(** Nothing is replaced; the texts are not too long for the cipher or for the columns;
    the server evaluates the filters. *)
Definition o_op_ok (op : Op) (s : AStore) : Prop :=
  match op with
  | OpUpdate operation kind c n value tags _ =>
      operation ≠ EntryOperation.Replace ∧ okey_ok pk (kind, c, n) ∧ value_ok value ∧ o_tags_ok pk tags
  | OpFetch kind c n _ => akey_ok (kind, c, n)
  | OpCount _ c f | OpRemoveAll _ c f => opt_text_ok c ∧ pg_filter_ready pk s f
  end.

Fixpoint o_ops_ok (ops : list Op) (s : AStore) : Prop :=
  match ops with
  | [] => True
  | op :: ops' => o_op_ok op s ∧ o_ops_ok ops' (oa_step op s).1
  end.

Lemma oa_remove k v ts ms s :
  oa_update env EntryOperation.Remove k v ts ms s = a_update env EntryOperation.Remove k None None None s.
Proof. unfold oa_update. by destruct (bind_expiry env ms), (s !! k). Qed.

Lemma o_step_sim w s op :
  o_ready pk pid w → o_represents pk pid (od w) s → o_op_ok op s →
  ∃ w', s_step (H := odbc_session env) op w = (w', (oa_step op s).2) ∧ o_stays w w'
    ∧ o_represents pk pid (od w') (oa_step op s).1 ∧ o_frame pid (od w) (od w').
Proof.
  intros Hw Hr Hop. pose proof Hw as (Hf & _).
  destruct op as [o kind c n v ts ms|kind c n fu|kind c f|kind c f]; cbn [o_op_ok s_step oa_step a_step] in *.
  - destruct Hop as (Hno & Hk & Hv & Ht).
    assert (∃ w', o_update env kind o c n v ts ms w = (w', (oa_update env o (kind, c, n) v ts ms s).2) ∧ o_stays w w'
      ∧ o_represents pk pid (od w') (oa_update env o (kind, c, n) v ts ms s).1 ∧ o_frame pid (od w) (od w'))
      as (w' & E & Hst & Hrep & Hfr).
    { destruct o; [|done|].
      - pose proof (o_insert_sim env pk pid pk_ok nonce_12 rng_length rows_counted utc w s kind c n v ts ms Hw Hr Hk Hv Ht) as Hs.
        by destruct (oa_update _ _ _ _ _ _ _).
      - pose proof (o_delete_run env pk pid pk_ok rows_counted w s kind c n Hw Hr (proj1 Hk)) as Hs.
        rewrite oa_remove. destruct (a_update _ _ _ _ _ _ _) as [s' r]. destruct Hs as (w' & E & Hs). by exists w'. }
    exists w'. destruct (oa_update _ _ _ _ _ _ _) as [s' r]. cbn [fst snd] in *. split_and!; try done; [|apply Hfr..].
    unfold mbind, stm_bind. cbn [bs_update odbc_session]. rewrite E. by destruct r.
  - exists (ran (od w) w). cbn [bs_fetch odbc_session].
    rewrite (stm_bind_ok _ _ _ _ _ (o_fetch_run env pk pid pk_ok nonce_12 utc w s kind c n fu Hw Hr Hop)).
    split_and!; try done. by apply stays_ran.
  - destruct Hop as [Hc Hfl]. exists (ran (od w) w). cbn [bs_count odbc_session].
    rewrite (stm_bind_ok _ _ _ _ _ (o_count_run env pk pid pk_ok nonce_12 rng_length rows_counted utc w s kind c f Hw Hr Hc Hfl)).
    split_and!; try done. by apply stays_ran.
  - destruct Hop as [Hc Hfl].
    pose proof (o_remove_all_sim env pk pid pk_ok nonce_12 rng_length rows_counted utc w s kind c f Hw Hr Hc Hfl) as Hs.
    destruct (a_remove_all _ _ _ _ _) as [s' n]. destruct Hs as (w' & E & Hst & Hrep & Hfr).
    exists w'. cbn [bs_remove_all odbc_session]. rewrite (stm_bind_ok _ _ _ _ _ E). split_and!; try done; apply Hfr.
Qed.

Lemma stays_trans w1 w2 w3 : o_stays w1 w2 → o_stays w2 w3 → o_stays w1 w3.
Proof. intros (A1 & B1 & C1 & D1 & E1 & F1) (A2 & B2 & C2 & D2 & E2 & F2). split_and!; congruence. Qed.

Lemma o_frame_trans d1 d2 d3 : o_frame pid d1 d2 → o_frame pid d2 d3 → o_frame pid d1 d3.
Proof. intros [F1 P1] [F2 P2]. split; [by eapply frame_trans|congruence]. Qed.

Lemma o_run_sim ops : ∀ w s,
  o_ready pk pid w → o_represents pk pid (od w) s → o_ops_ok ops s →
  ∃ w', s_run (H := odbc_session env) ops w = (w', (oa_run ops s).2) ∧ o_stays w w'
    ∧ o_represents pk pid (od w') (oa_run ops s).1 ∧ o_frame pid (od w) (od w').
Proof.
  induction ops as [|op ops IH]; intros w s Hw Hr Hok.
  { exists w. split_and!; try done. apply stays_refl, Hw. }
  destruct Hok as [Hop Hops]. destruct (o_step_sim w s op Hw Hr Hop) as (w1 & E1 & Hst1 & Hr1 & Hf1).
  cbn [s_run oa_run]. destruct (oa_step op s) as [s1 r1]. cbn [fst snd] in *. rewrite E1.
  destruct (IH w1 s1) as (w2 & E2 & Hst2 & Hr2 & Hf2); [by eapply stays_o_ready|done..|]. rewrite E2.
  destruct (oa_run ops s1) as [s2 rs]. exists w2. split_and!; [done|by eapply stays_trans|done|apply (o_frame_trans _ _ _ Hf1 Hf2)..].
Qed.


(** ** Replacing *)

(** C37: Replacing an entry of an ODBC store sets the value and expiry, but deletes the tags
    of the entry whose identifier is that of the profile instead of its own: the tags it
    had stay beside the new ones, and that entry, in whatever profile, is left without
    tags.  Replacing an entry that is not there is no error, except that with tags it
    ends in a panic. *)
Theorem odbc_replace_deviates w s kind c n value tags ms e :
  o_ready pk pid w → o_represents pk pid (od w) s → okey_ok pk (kind, c, n) → value_ok value → o_tags_ok pk tags →
  bind_expiry env ms = Ok e →
  match s !! (kind, c, n) with
  | Some _ =>
      ∃ w', o_update env kind EntryOperation.Replace c n value tags ms w = (w', Ok ()) ∧ o_stays w w'
        ∧ o_represents pk pid (od w')
            (after_replace pk pid (od_tables (od w)) (kind, c, n) (default [] value) (default [] tags) e s)
        ∧ ∀ k r, k.1.1.1 ≠ pid → find_item k (od_tables (od w)) = Some r →
            view (od_tables (od w')) k = Some (i_value r, i_expiry r,
              if decide (pid = i_id r) then [] else item_tags (i_id r) (od_tables (od w)))
  | None =>
      (o_update env kind EntryOperation.Replace c n value tags ms w).2 = match tags with Some _ => Panic | None => Ok () end
  end.
Proof.
  intros Hw Hr Hk Hv Ht Ee. destruct (s !! (kind, c, n)) as [v0|] eqn:Es.
  - destruct (o_replace_run env pk pid pk_ok rng_length w s kind c n value tags ms e v0 Hw Hr Hk Hv Ht Es Ee)
      as (t & encv & E & Hdec & Hwf & Hp & Hids & Hview).
    exists (ran (od_set t (od w)) w). split_and!; [exact E|apply stays_ran, Hw| |].
    + destruct Ht. by eapply replace_represents; [exact pk_ok|exact Hr|apply Hk|..].
    + intros k r Hne Hfi. cbn. rewrite Hview, Hfi. cbn. unfold updated. rewrite (decide_False (P := k = _)); [done|].
      by intros ->.
  - eapply o_replace_missing; try done. by exists e.
Qed.

(** ** Transactions *)

(** A connection in the pool of a store, between sessions that were closed. *)
Definition idle (c : OdbcConn) : Prop := c_begin c = None ∧ c_auto c = true.

(** Within a transaction that goes back to [d0], closing ends it, either way. *)
Lemma close_run (commit : bool) w d0 :
  p_faults (ow_pool w) = [] → os_transaction (ow_session w) = true → c_auto (conn_of w) = false →
  begun (conn_of w) = Some d0 →
  ∃ w', o_close commit w = (w', Ok ()) ∧ idle (conn_of w') ∧ ow_cache w' = ow_cache w
    ∧ od_tables (od w') = od_tables (if commit then od w else d0)
    ∧ od_present (od w') = od_present (if commit then od w else d0)
    ∧ p_faults (ow_pool w') = [] ∧ p_checkouts (ow_pool w') = p_checkouts (ow_pool w).
Proof.
  intros Hf Ht Ha Hb. destruct w as [[[d bg a] fs cs] ca [p t]]. unfold begun in Hb. cbn in *. subst.
  injection Hb as <-. destruct commit, bg; eexists; (split; [reflexivity|done]).
Qed.

(** A store none of whose connections is in use or broken, with a profile that it knows. *)
Definition at_rest (b : OdbcBackend) (profile : option string) (s : AStore) : Prop :=
  p_faults (ob_pool b) = [] ∧ p_checkouts (ob_pool b) = []
  ∧ get_profile (default (ob_active b) profile) (ob_cache b) = Some (pid, pk)
  ∧ tables_present (c_db (p_conn (ob_pool b))) ∧ o_represents pk pid (c_db (p_conn (ob_pool b))) s.

Lemma session_open_run profile transaction b s : at_rest b profile s →
  ∃ w, odbc_session_open profile transaction b = Ok w ∧ o_ready pk pid w ∧ od w = c_db (p_conn (ob_pool b))
    ∧ conn_of w = conn_autocommit (negb transaction) (p_conn (ob_pool b))
    ∧ p_checkouts (ow_pool w) = [] ∧ ow_cache w = ob_cache b
    ∧ ow_session w = mkOdbcSession (default (ob_active b) profile) transaction.
Proof.
  intros (Hf & Hcs & Hk & Hp & _). unfold odbc_session_open, pool_get. rewrite Hcs.
  destruct b as [[[d bg au] fs cs] act ca]. cbn in *. subst.
  eexists. split; [reflexivity|]. destruct transaction; done.
Qed.

(** A transaction, from its beginning to before its end. *)
Lemma transaction_run profile b s ops :
  at_rest b profile s → o_ops_ok ops s →
  ∃ w w', odbc_session_open profile true b = Ok w
    ∧ s_run (H := odbc_session env) ops w = (w', (oa_run ops s).2)
    ∧ o_represents pk pid (od w') (oa_run ops s).1 ∧ tables_present (od w')
    ∧ p_faults (ow_pool w') = [] ∧ p_checkouts (ow_pool w') = [] ∧ ow_cache w' = ob_cache b
    ∧ os_transaction (ow_session w') = true ∧ c_auto (conn_of w') = false
    ∧ begun (conn_of w') = Some (default (c_db (p_conn (ob_pool b))) (c_begin (p_conn (ob_pool b)))).
Proof.
  intros Hb Hops. pose proof Hb as (_ & _ & _ & _ & Hr).
  destruct (session_open_run profile true b s Hb) as (w & Eo & Hw & Ed & Ec & Ecs & Eca & Es).
  rewrite <- Ed in Hr.
  destruct (o_run_sim ops w s Hw Hr Hops) as (w' & E & Hst & Hr' & Hfr).
  pose proof (stays_o_ready pk pid w w' Hw Hst Hfr) as (_ & _ & Hp').
  destruct Hst as (Es' & Eca' & Hf' & Ecs' & Ea' & Eb').
  exists w, w'. split_and!; try done; try congruence.
  - by rewrite Es', Es.
  - by rewrite Ea', Ec.
  - by rewrite Eb', Ec.
Qed.

(** A transaction of an ODBC session takes place as a whole: closed with commit it keeps
    what its operations did, closed without the tables are as they were, and in both
    cases the connection commits by itself again, with no transaction open. *)
Theorem odbc_transaction_outcome profile b s ops (commit : bool) :
  at_rest b profile s → idle (p_conn (ob_pool b)) → o_ops_ok ops s →
  ∃ w w' w'', odbc_session_open profile true b = Ok w
    ∧ s_run (H := odbc_session env) ops w = (w', (oa_run ops s).2)
    ∧ o_close commit w' = (w'', Ok ()) ∧ idle (conn_of w'')
    ∧ represents pk pid (od_tables (od w'')) (if commit then (oa_run ops s).1 else s)
    ∧ (commit = false → od_tables (od w'') = od_tables (c_db (p_conn (ob_pool b)))).
Proof.
  intros Hb [Hbg _] Hops.
  destruct (transaction_run profile b s ops Hb Hops) as (w & w' & Eo & E & Hr & _ & Hf & _ & _ & Ht & Ha & Ebg).
  rewrite Hbg in Ebg. destruct (close_run commit w' _ Hf Ht Ha Ebg) as (w'' & Ec & Hi & _ & Et & _).
  exists w, w', w''. rewrite Et. split_and!; try done; [|by intros ->].
  destruct commit; [apply Hr|]. apply Hb.
Qed.

(** C25: A transaction whose session is dropped before it is closed is not rolled back: its
    connection goes back to the pool as it is.  The next session sees what the
    transaction did; if it is not a transaction itself, it has committed it; if it is,
    what it does becomes part of the same transaction, which its close commits or rolls
    back together with the work of the dropped session. *)
Theorem odbc_dropped_transaction profile b s ops ops2 (commit : bool) :
  at_rest b profile s → idle (p_conn (ob_pool b)) → o_ops_ok ops s → o_ops_ok ops2 (oa_run ops s).1 →
  ∃ w w', odbc_session_open profile true b = Ok w
    ∧ s_run (H := odbc_session env) ops w = (w', (oa_run ops s).2)
    ∧ let b' := odbc_drop_session w' b in
      (∃ w2, odbc_session_open profile false b' = Ok w2 ∧ idle (conn_of w2)
        ∧ represents pk pid (od_tables (od w2)) (oa_run ops s).1)
      ∧ ∃ w2 w3 w4, odbc_session_open profile true b' = Ok w2
        ∧ s_run (H := odbc_session env) ops2 w2 = (w3, (oa_run ops2 (oa_run ops s).1).2)
        ∧ o_close commit w3 = (w4, Ok ()) ∧ idle (conn_of w4)
        ∧ represents pk pid (od_tables (od w4)) (if commit then (oa_run ops2 (oa_run ops s).1).1 else s).
Proof.
  intros Hb [Hbg _] Hops Hops2.
  destruct (transaction_run profile b s ops Hb Hops) as (w & w' & Eo & E & Hr & Hp & Hf & Hcs & Hca & Ht & Ha & Ebg).
  exists w, w'. split; [done|]. split; [done|]. intros b'.
  assert (Hb' : at_rest b' profile (oa_run ops s).1).
  { split_and!; cbn; try done; [rewrite Hca; apply Hb|apply Hr..]. }
  split.
  - destruct (session_open_run profile false b' _ Hb') as (w2 & Eo2 & _ & Ed & Ec & _). exists w2.
    rewrite Ed, Ec. split_and!; try done. apply Hb'.
  - destruct (transaction_run profile b' _ ops2 Hb' Hops2) as (w2 & w3 & Eo2 & E3 & Hr3 & _ & Hf3 & _ & _ & Ht3 & Ha3 & Ebg3).
    destruct (close_run commit w3 _ Hf3 Ht3 Ha3 Ebg3) as (w4 & Ec & Hi & _ & Et & _).
    exists w2, w3, w4. rewrite Et. split_and!; try done. destruct commit; [apply Hr3|].
    unfold begun in Ebg. rewrite Ha, Hbg in Ebg. injection Ebg as Ebg.
    change (default (c_db (p_conn (ob_pool b'))) (c_begin (p_conn (ob_pool b'))))
      with (default (od w') (c_begin (conn_of w'))). unfold od. rewrite Ebg. apply Hb.
Qed.

(** That a connection could not be taken out of autocommit mode is not noticed: the
    session of a transaction is handed out all the same, its operations succeed and are
    durable at once, and closing it without commit reports success and takes none of
    them back. *)
Theorem odbc_begin_unchecked profile b s ops msg :
  at_rest b profile s → idle (p_conn (ob_pool b)) → o_ops_ok ops s →
  let failing := mkOdbcBackend (mkPool (p_conn (ob_pool b)) [Some msg] []) (ob_active b) (ob_cache b) in
  ∃ w w' w'', odbc_session_open profile true failing = Ok w
    ∧ s_run (H := odbc_session env) ops w = (w', (oa_run ops s).2)
    ∧ o_close false w' = (w'', Ok ()) ∧ idle (conn_of w'')
    ∧ represents pk pid (od_tables (od w'')) (oa_run ops s).1.
Proof.
  intros (Hf & Hcs & Hk & Hp & Hr) [Hbg Hau] Hops failing.
  destruct b as [[[d bg au] fs cs] act ca]. cbn in *. subst.
  eexists. set (w := mkOdbcWorld (mkPool (mkConn d None true) [] []) ca (mkOdbcSession (default act profile) true)).
  assert (Hw : o_ready pk pid w) by done.
  destruct (o_run_sim ops w s Hw Hr Hops) as (w' & E & (Es & _ & Hf' & _ & Ea & Eb) & Hr' & _).
  exists w'. change (begun (conn_of w)) with (@None OdbcDb) in Eb. change (c_auto (conn_of w)) with true in Ea.
  destruct w' as [[[d' bg' au'] fs' cs'] ca' se']. unfold begun in Eb. cbn in Es, Hf', Ea, Eb. subst.
  eexists. split; [reflexivity|]. split; [exact E|]. split; [reflexivity|]. split; [done|exact (o_rep_tables _ _ _ _ Hr')].
Qed.

(** ** Queries *)

(** C10: The text of a query, whose arguments are marked by question marks alone, read with
    the arguments bound in their order, is the query asked for: one over the entries of
    the profile that are of the kind and category and whose tags satisfy the filter, in
    the order asked for. *)
Theorem odbc_query_correct query kind c f order_by descending tags w :
  query ∈ [COUNT_ITEMS; DELETE_ALL_ITEMS; GET_ALL_ITEMS] → is_select query = true ∨ order_by = None →
  opt_text_ok c → Forall (tag_small cipher_max) tags →
  match f with Some f => filter_ok pk tags (rename split_tag_name (filter_query f)) 3 | None => True end →
  ∃ text args cond, o_create_query query pid pk kind c f order_by descending w = (w, Ok (text, args))
    ∧ read_query query text args
      = Some (mkSelection pid (kind_value <$> kind) ((λ c, enc_category pk (as_bytes c)) <$> c) cond
                ((λ _, descending) <$> order_by))
    ∧ match cond with Some cl => sem sql_like (tag_rows pk tags) cl | None => true end = filter_holds sql_like f tags.
Proof.
  intros Hq Ho Hc Hts Hf. destruct (o_encode_run pk pk_ok tags c f Hc) as (flt & cond & E & Hm & Econd); [done|].
  pose proof (read_create_query query pid ((λ c, enc_category pk (as_bytes c)) <$> c) kind flt cond order_by descending
    Hq Ho Hm) as Hread.
  destruct (create_query _ _ _ _ _ _ _) as [text args] eqn:Et. exists text, args, cond. split_and!.
  - unfold o_create_query. rewrite (stm_bind_ok _ _ _ _ _ (lift_ok _ _ w E)). cbv beta iota. by rewrite Et.
  - exact Hread.
  - subst cond. destruct f as [f|]; [|done]. cbn [mbind option_bind filter_holds].
    by rewrite <- (compile_tags_sem pk tags sql_like _ 3 pk_ok nonce_12 Hts Hf).
Qed.

(** ** Scans *)

(** Draining a scan of an ODBC store yields the live entries that match, from the offset
    on and up to the limit, and ends; all of them are read before it begins, and the
    connection is idle again. *)
Theorem odbc_scan_correct profile kind c f offset limit order_by descending b s :
  at_rest b profile s → idle (p_conn (ob_pool b)) → opt_text_ok c → pg_filter_ready pk s f →
  pg_limit_ok offset → pg_limit_ok limit → (Z.of_nat (size s) ≤ i64_max)%Z →
  ∃ l b' scan, l ≡ₚ map_to_list (a_matching sql_like env kind c f s)
    ∧ o_scan_store env profile kind c f offset limit order_by descending b = (b', Ok scan)
    ∧ (∀ fuel, (2 ≤ fuel)%nat →
         (drain fuel scan).2 = Ok (List.map (λ kv, a_entry kv.1 kv.2) (sql_limit offset limit l)))
    ∧ at_rest b' profile s ∧ idle (p_conn (ob_pool b')).
Proof.
  intros Hb [Hbg Hau] Hc Hfl Ho Hl Hsize. pose proof Hb as (_ & _ & Hk & Hp & Hr).
  destruct (session_open_run profile false b s Hb) as (w & Eo & Hw & Ed & Ec & Ecs & Eca & Es). rewrite <- Ed in Hr.
  destruct (o_perform_scan_run env pk pid pk_ok nonce_12 rng_length rows_counted utc w s kind c f offset limit order_by
    descending Hw Hr Hc Hfl Ho Hl Hsize) as (l & Hpl & E).
  pose proof Hw as (Hf & _ & Hpw).
  assert (Ecl : o_close true (ran (od w) w) = (ran (od w) w, Ok ())).
  { unfold o_close. rewrite (stm_bind_ok sget _ _ _ _ eq_refl). cbn [ow_session ran set_pool odbc_world_pool].
    by rewrite Es. }
  exists l. eexists _, _. split; [done|]. split; [|split; [|split]].
  - unfold o_scan_store. rewrite Eo. unfold scan_session. rewrite (stm_bind_ok _ _ _ _ _ E).
    rewrite (stm_bind_ok _ _ _ _ _ Ecl). reflexivity.
  - intros fuel Hfu. etransitivity; [apply (drain_pages PAGE_SIZE [_] fuel); [done|cbn; lia]|]. cbn. by rewrite app_nil_r.
  - split_and!; try done; cbn; rewrite ?Eca; done.
  - unfold idle, ran, odbc_drop_session, give_back, has_broken, begun. cbn. rewrite Ec. done.
Qed.
End Laws.

(** ** Instances on a small store *)

(** The schema of db2.sql, on a server whose time is UTC. *)
Definition toy_odbc : OdbcDriver := {|
  text_width := 500; name_width := 1022; counts_rows := true; clock_offset := 0;
|}.

Definition toy_odbc_db : OdbcDb := mkOdbc (b_db toy_backend) TABLES 2 1.
Definition toy_odbc_backend : OdbcBackend :=
  mkOdbcBackend (mkPool (mkConn toy_odbc_db None true) [] []) "main" (key_cache toy_backend).
Definition toy_odbc_world : OdbcWorld :=
  mkOdbcWorld (ob_pool toy_odbc_backend) (key_cache toy_backend) (mkOdbcSession "main" false).

Definition toy_odbc_session : BackendSession OdbcWorld :=
  @odbc_session demo_allocator toy_hmac toy_cipher toy_cbor toy_engine toy_odbc toy_env.

Lemma toy_odbc_represents :
  @o_represents demo_allocator toy_hmac toy_cipher toy_cipher_laws toy_derivation toy_odbc toy_profile_key 1 toy_odbc_db ∅.
Proof.
  split; [apply init_represents|split; [apply init_tables_wf|constructor|by repeat constructor]|done].
Qed.

Lemma toy_odbc_ready : @o_ready toy_profile_key 1 toy_odbc_world.
Proof. split; [done|]. split; [vm_compute; reflexivity|]. intros n Hn. exact Hn. Qed.

Lemma toy_odbc_at_rest :
  @at_rest demo_allocator toy_hmac toy_cipher toy_cipher_laws toy_derivation toy_odbc toy_profile_key 1
    toy_odbc_backend None ∅.
Proof.
  split; [done|]. split; [done|]. split; [vm_compute; reflexivity|]. split; [intros n Hn; exact Hn|].
  exact toy_odbc_represents.
Qed.

Definition toy_odbc_ops : list Op := [
  OpUpdate EntryOperation.Insert EntryKind.Item "cat" "one" (Some [x01]) (Some toy_tags) None;
  OpUpdate EntryOperation.Insert EntryKind.Item "cat" "one" (Some [x02]) None None;
  OpCount None (Some "cat") (Some toy_filter)].

Definition toy_odbc_store : AStore := {[toy_key := mkAVal [x01] toy_tags None]}.

Lemma toy_okey_ok : @okey_ok demo_allocator toy_hmac toy_cipher toy_cipher_laws toy_derivation toy_odbc toy_profile_key toy_key.
Proof. split; [apply toy_key_ok|]. split; split; vm_compute; lia. Qed.

Lemma toy_o_tags_ok tags : tags = Some toy_tags ∨ tags = None →
  @o_tags_ok toy_hmac toy_cipher toy_cipher_laws toy_odbc toy_profile_key tags.
Proof. intros [->| ->]; [|by repeat constructor]. split; [split|]; repeat constructor; vm_compute; lia. Qed.

Lemma toy_value_ok b : @value_ok toy_cipher toy_cipher_laws (Some [b]).
Proof. vm_compute. lia. Qed.

Lemma toy_odbc_ops_ok :
  @o_ops_ok demo_allocator toy_hmac toy_cipher toy_cipher_laws toy_derivation toy_engine toy_odbc toy_env toy_profile_key
    toy_odbc_ops ∅.
Proof.
  split; [split_and!; [done|apply toy_okey_ok|apply toy_value_ok|by apply toy_o_tags_ok; left]|].
  replace (oa_step _ _ ∅).1 with toy_odbc_store by reflexivity.
  split; [split_and!; [done|apply toy_okey_ok|apply toy_value_ok|by apply toy_o_tags_ok; right]|].
  replace (oa_step _ _ toy_odbc_store).1 with toy_odbc_store by reflexivity.
  split; [|done]. split; [apply toy_key_ok|]. split; [by apply toy_filter_ready; left|reflexivity].
Qed.


(** The world after the operations. *)
Definition toy_odbc_filled : OdbcWorld := (@s_run _ toy_odbc_session toy_odbc_ops toy_odbc_world).1.

Lemma toy_odbc_filled_ok :
  o_ready toy_profile_key 1 toy_odbc_filled
  ∧ @o_represents demo_allocator toy_hmac toy_cipher toy_cipher_laws toy_derivation toy_odbc toy_profile_key 1
      (od toy_odbc_filled) toy_odbc_store.
Proof.
  destruct (@o_run_sim demo_allocator toy_hmac toy_cipher toy_cipher_laws toy_derivation toy_cbor toy_engine
    toy_odbc toy_env toy_profile_key 1 ltac:(repeat split) eq_refl toy_rng_length eq_refl eq_refl
    toy_odbc_ops toy_odbc_world ∅ toy_odbc_ready toy_odbc_represents toy_odbc_ops_ok)
    as (w' & E & Hst & Hr & Hfr).
  assert (w' = toy_odbc_filled) as <- by (unfold toy_odbc_filled, toy_odbc_session; by rewrite E).
  split; [by eapply stays_o_ready; [exact toy_odbc_ready|..]|exact Hr].
Qed.

(** The item has the identifier of its profile: its own tags happen to be the ones that
    are deleted. *)
Lemma odbc_replace_deviates_witness :
  (∃ w', @o_update demo_allocator toy_hmac toy_cipher toy_cbor toy_odbc toy_env EntryKind.Item EntryOperation.Replace
        "cat" "one" (Some [x03]) None None toy_odbc_filled = (w', Ok ())
    ∧ @o_represents demo_allocator toy_hmac toy_cipher toy_cipher_laws toy_derivation toy_odbc toy_profile_key 1
        (od w') {[toy_key := mkAVal [x03] [] None]})
  ∧ (@o_update demo_allocator toy_hmac toy_cipher toy_cbor toy_odbc toy_env EntryKind.Item EntryOperation.Replace
        "cat" "one" (Some [x03]) (Some toy_tags) None toy_odbc_world).2 = Panic.
Proof.
  pose proof (@odbc_replace_deviates demo_allocator toy_hmac toy_cipher toy_cipher_laws toy_derivation toy_cbor
    toy_odbc toy_env toy_profile_key 1 ltac:(repeat split) toy_rng_length) as E.
  destruct toy_odbc_filled_ok as [Hw Hr]. split.
  - destruct (E toy_odbc_filled toy_odbc_store EntryKind.Item "cat" "one" (Some [x03]) None None None Hw Hr toy_okey_ok
      (toy_value_ok _) (toy_o_tags_ok _ (or_intror eq_refl)) eq_refl) as (w' & E1 & _ & Hr' & _).
    exists w'. split; [exact E1|]. match type of Hr' with o_represents _ _ _ ?s =>
      replace ({[toy_key := mkAVal [x03] [] None]} : AStore) with s; [exact Hr'|vm_compute; reflexivity] end.
  - exact (E toy_odbc_world ∅ EntryKind.Item "cat" "one" (Some [x03]) (Some toy_tags) None None toy_odbc_ready
      toy_odbc_represents toy_okey_ok (toy_value_ok _) (toy_o_tags_ok _ (or_introl eq_refl)) eq_refl).
Defined.

Lemma odbc_transaction_outcome_witness :
  ∃ w w' w'', odbc_session_open None true toy_odbc_backend = Ok w
    ∧ (@s_run _ toy_odbc_session toy_odbc_ops w).1 = w'
    ∧ o_close false w' = (w'', Ok ()) ∧ idle (conn_of w'') ∧ od_tables (od w'') = b_db toy_backend.
Proof.
  destruct (@odbc_transaction_outcome demo_allocator toy_hmac toy_cipher toy_cipher_laws toy_derivation toy_cbor toy_engine
    toy_odbc toy_env toy_profile_key 1 ltac:(repeat split) eq_refl toy_rng_length eq_refl eq_refl
    None toy_odbc_backend ∅ toy_odbc_ops false toy_odbc_at_rest (conj eq_refl eq_refl) toy_odbc_ops_ok)
    as (w & w' & w'' & E1 & E2 & E3 & Hi & _ & Et).
  exists w, w', w''. split; [exact E1|]. split; [unfold toy_odbc_session; by rewrite E2|].
  split; [exact E3|]. split; [exact Hi|exact (Et eq_refl)].
Defined.

Lemma odbc_dropped_transaction_witness :
  ∃ w w', odbc_session_open None true toy_odbc_backend = Ok w
    ∧ (@s_run _ toy_odbc_session toy_odbc_ops w).1 = w'
    ∧ ∃ w2, odbc_session_open None false (odbc_drop_session w' toy_odbc_backend) = Ok w2 ∧ idle (conn_of w2)
      ∧ @represents demo_allocator toy_hmac toy_cipher toy_cipher_laws toy_derivation toy_profile_key 1
          (od_tables (od w2)) toy_odbc_store.
Proof.
  destruct (@odbc_dropped_transaction demo_allocator toy_hmac toy_cipher toy_cipher_laws toy_derivation toy_cbor toy_engine
    toy_odbc toy_env toy_profile_key 1 ltac:(repeat split) eq_refl toy_rng_length eq_refl eq_refl
    None toy_odbc_backend ∅ toy_odbc_ops [] false toy_odbc_at_rest (conj eq_refl eq_refl) toy_odbc_ops_ok I)
    as (w & w' & E1 & E2 & E3 & _).
  exists w, w'. split; [exact E1|]. split; [unfold toy_odbc_session; by rewrite E2|exact E3].
Defined.

Lemma odbc_begin_unchecked_witness :
  ∃ w w' w'', odbc_session_open None true
        (mkOdbcBackend (mkPool (mkConn toy_odbc_db None true) [Some "link failure"] []) "main" (key_cache toy_backend)) = Ok w
    ∧ (@s_run _ toy_odbc_session toy_odbc_ops w).1 = w' ∧ o_close false w' = (w'', Ok ())
    ∧ @represents demo_allocator toy_hmac toy_cipher toy_cipher_laws toy_derivation toy_profile_key 1
        (od_tables (od w'')) toy_odbc_store.
Proof.
  destruct (@odbc_begin_unchecked demo_allocator toy_hmac toy_cipher toy_cipher_laws toy_derivation toy_cbor toy_engine
    toy_odbc toy_env toy_profile_key 1 ltac:(repeat split) eq_refl toy_rng_length eq_refl eq_refl
    None toy_odbc_backend ∅ toy_odbc_ops "link failure" toy_odbc_at_rest (conj eq_refl eq_refl) toy_odbc_ops_ok)
    as (w & w' & w'' & E1 & E2 & E3 & _ & Hr).
  exists w, w', w''. split; [exact E1|]. split; [unfold toy_odbc_session; by rewrite E2|]. split; [exact E3|exact Hr].
Defined.

Lemma odbc_query_correct_witness :
  ∃ text args cond, @o_create_query demo_allocator toy_hmac toy_cipher GET_ALL_ITEMS 1 toy_profile_key
        (Some EntryKind.Item) None (Some toy_filter) (Some OrderBy.Id) true toy_odbc_world
      = (toy_odbc_world, Ok (text, args))
    ∧ read_query GET_ALL_ITEMS text args
      = Some (mkSelection 1 (Some (kind_value EntryKind.Item)) None cond (Some true))
    ∧ match cond with Some cl => sem (@sql_like toy_engine) (tag_rows (HC := toy_cipher) (laws := toy_cipher_laws) (HH := toy_hmac) toy_profile_key toy_tags) cl | None => true end
      = filter_holds (@sql_like toy_engine) (Some toy_filter) toy_tags.
Proof.
  apply (@odbc_query_correct demo_allocator toy_hmac toy_cipher toy_cipher_laws toy_derivation toy_engine toy_profile_key 1
    ltac:(repeat split) eq_refl GET_ALL_ITEMS (Some EntryKind.Item) None (Some toy_filter) (Some OrderBy.Id) true
    toy_tags toy_odbc_world).
  - by do 2 right; left.
  - left. reflexivity.
  - exact I.
  - repeat constructor; vm_compute; lia.
  - exact toy_filter_ok.
Defined.

Lemma odbc_scan_correct_witness :
  ∃ b' scan, @o_scan_store demo_allocator toy_hmac toy_cipher toy_cbor toy_engine toy_odbc toy_env None
        None (Some "cat") None None (Some 10%Z) (Some OrderBy.Id) false toy_odbc_backend = (b', Ok scan)
    ∧ (drain 2 scan).2 = Ok [] ∧ idle (p_conn (ob_pool b')).
Proof.
  destruct (@odbc_scan_correct demo_allocator toy_hmac toy_cipher toy_cipher_laws toy_derivation toy_cbor toy_engine
    toy_odbc toy_env toy_profile_key 1 ltac:(repeat split) eq_refl toy_rng_length eq_refl eq_refl
    None None (Some "cat") None None (Some 10%Z) (Some OrderBy.Id) false toy_odbc_backend ∅ toy_odbc_at_rest
    (conj eq_refl eq_refl) (proj1 toy_key_ok) (conj I I) I ltac:(done) ltac:(done))
    as (l & b' & scan & Hl & E & Hd & _ & Hi).
  exists b', scan. split; [exact E|]. split; [|exact Hi].
  apply Permutation_nil_r in Hl as ->. exact (Hd 2%nat (le_n 2)).
Defined.
