(* ===== verification/OdbcStoreLaws.v ===== *)
(** * What an ODBC store does

    Provisioning with the tables of db2.sql and opening, from the blank server to the
    entries of a session; rekeying, whose changes stay when it fails; the profiles it
    lists, and what a missing one does. *)

From S2P Require Import Prelude Errors Wql TagSql DbQuery TagSqlSem SqlEval Buffers Utf8 Entry Aead.
From S2P Require Import Protect Options StoreKey DbUtils Session SqliteDb PgDb Sqlite Store Backend Scans PgStore.
From S2P Require Import SqliteBackend Lifecycle OdbcSql OdbcDb Odbc OdbcStore OdbcBackend OdbcLaws.
Local Open Scope string_scope.
Local Open Scope list_scope.
#[local] Existing Instance pg_resolution.

(** ** Calls over an idle connection *)

Class PoolLaws (W : Type) `{HasPool W} := {
  pool_of_set p (w : W) : pool_of (set_pool p w) = p;
  set_pool_twice p q (w : W) : set_pool p (set_pool q w) = set_pool p w;
}.

#[export] Instance odbc_backend_laws : PoolLaws OdbcBackend.
Proof. split; [by intros p []|by intros p q []]. Qed.
#[export] Instance odbc_pool_laws : PoolLaws OdbcPool.
Proof. by split. Qed.

(** Calls that succeed, [n] of them before one that fails, if one does. *)
Definition calls (n : nat) (failure : option string) : list (option string) :=
  match failure with None => [] | Some msg => replicate n None ++ [Some msg] end.

Definition resting (d : OdbcDb) (fs : list (option string)) : OdbcPool := mkPool (mkConn d None true) fs [].

Section Calls.
Context {W : Type} `{HP : PoolLaws W} (w : W).

Definition on_db (d : OdbcDb) (fs : list (option string)) : W := set_pool (resting d fs) w.

Lemma get_connection_run d fs : get_connection (on_db d fs) = (on_db d fs, Ok ()).
Proof. unfold get_connection, on_db. rewrite pool_of_set. cbn. by rewrite set_pool_twice. Qed.

Lemma call_run on_err d n t : o_call on_err (on_db d (calls (S n) t)) = (on_db d (calls n t), Ok ()).
Proof. unfold o_call, on_db. rewrite pool_of_set. destruct t; cbn; [|done]. by rewrite set_pool_twice. Qed.

Lemma call_fails on_err d msg : o_call on_err (on_db d (calls 0 (Some msg))) = (on_db d [], Err (on_err msg)).
Proof. unfold o_call, on_db. rewrite pool_of_set. cbn. by rewrite set_pool_twice. Qed.

Lemma run_statement_run {A} on_err (f : OStatement A) d d' fs r :
  f d = (d', r) → run_statement on_err f (on_db d fs) = (on_db d' fs, map_err on_err r).
Proof. intros E. unfold run_statement, on_db, conn_run. rewrite pool_of_set. cbn. rewrite E. by rewrite set_pool_twice. Qed.

Lemma execute_run {A} on_err (f : OStatement A) d d' n t r :
  f d = (d', r) → o_execute on_err f (on_db d (calls (S n) t)) = (on_db d' (calls n t), map_err on_err r).
Proof.
  intros E. unfold o_execute. rewrite (stm_bind_ok _ _ _ _ _ (call_run on_err d n t)). by apply run_statement_run.
Qed.

Lemma execute_done {A} on_err (f : OStatement A) d d' n t a :
  f d = (d', Ok a) → o_execute on_err f (on_db d (calls (S n) t)) = (on_db d' (calls n t), Ok a).
Proof. intros E. by rewrite (execute_run on_err f d d' n t _ E). Qed.

Lemma execute_fails {A} on_err (f : OStatement A) d msg :
  o_execute on_err f (on_db d (calls 0 (Some msg))) = (on_db d [], Err (on_err msg)).
Proof. unfold o_execute. apply stm_bind_err, call_fails. Qed.

Lemma call_idle on_err d : o_call on_err (on_db d []) = (on_db d [], Ok ()).
Proof. exact (call_run on_err d 0 None). Qed.

Lemma execute_idle {A} on_err (f : OStatement A) d d' r :
  f d = (d', r) → o_execute on_err f (on_db d []) = (on_db d' [], map_err on_err r).
Proof. exact (execute_run on_err f d d' 0 None r). Qed.

Lemma get_run {A} (a : A) d n t : o_get a (on_db d (calls (S n) t)) = (on_db d (calls n t), Ok a).
Proof. unfold o_get. by rewrite (stm_bind_ok _ _ _ _ _ (call_run _ d n t)). Qed.

Lemma next_row_run {R} on_err (rows : list R) d n t :
  o_next_row on_err rows (on_db d (calls (S n) t))
  = (on_db d (calls n t), Ok (match rows with r :: rows => (Some r, rows) | [] => (None, []) end)).
Proof. unfold o_next_row. by rewrite (stm_bind_ok _ _ _ _ _ (call_run _ d n t)). Qed.

Lemma row_count_run `{OdbcDriver} m d n t : counts_rows = true →
  o_row_count m (on_db d (calls (S n) t)) = (on_db d (calls n t), Ok m).
Proof. intros Hc. unfold o_row_count. rewrite (stm_bind_ok _ _ _ _ _ (call_run _ d n t)). by rewrite Hc. Qed.

Lemma lift_run {A} (a : A) (r : sres A) (x : W) : r = Ok a → lift r x = (x, Ok a).
Proof. by intros ->. Qed.

Lemma first_row_run {A} on_err (a : A) rows d n t :
  first_row on_err (a :: rows) (on_db d (calls (S (S n)) t)) = (on_db d (calls n t), Ok a).
Proof.
  unfold first_row. rewrite (stm_bind_ok _ _ _ _ _ (next_row_run on_err (a :: rows) d (S n) t)). cbv beta iota.
  rewrite (stm_bind_ok (lift (unwrap (Some a))) _ _ _ _ eq_refl). apply get_run.
Qed.
End Calls.

(** A statement that only reads. *)
Lemma on_present_reads {A} names (f : Db → res string (Db * A)) d a :
  tables_present d → forallb (λ n, existsb (String.eqb n) TABLES) names = true → f (od_tables d) = Ok (od_tables d, a) →
  on_present names f d = (d, Ok a).
Proof. intros Hp Hn E. rewrite (on_present_ok _ _ _ _ _ Hp Hn E). by rewrite od_set_same. Qed.

Lemma find_head {A} (p : A → bool) l : List.find p l = List.head (List.filter p l).
Proof. induction l as [|x l IH]; [done|]. cbn. by destruct (p x). Qed.

(** ** Opening *)

Section Opening.
Context `{Allocator} `{HC : AeadCipher} {laws : CipherLaws} `{HS : StoreCodecs} {SL : StoreCodecLaws}.
Context `{HU : UriCodec} {UL : UriCodecLaws} `{HB : CborCodec} `{HO : OdbcDriver} `{HPB : PoolBuilder}.

Lemma read_config_run d : ∀ l dp k v r, read_config l dp k v = Ok r →
  o_read_config (List.filter (λ c, existsb (String.eqb (fst c)) ["default_profile"; "key"; "version"]) l) dp k v
    (resting d []) = (resting d [], Ok r).
Proof.
  induction l as [|[name value] l IH]; intros dp k v r E; [cbn in E; by injection E as <-|].
  cbn [read_config] in E. cbn [List.filter existsb fst]. rewrite orb_false_r.
  assert (Hcall : o_call from_odbc (resting d []) = (resting d [], Ok ())) by done.
  assert (Hget : ∀ a : string, o_get a (resting d []) = (resting d [], Ok a)) by done.
  destruct (String.eqb name "default_profile") eqn:E1; [|destruct (String.eqb name "key") eqn:E2;
    [|destruct (String.eqb name "version") eqn:E3]]; cbn [orb]; [| | |by apply IH]; cbn [o_read_config];
    rewrite (stm_bind_ok _ _ _ _ _ Hcall), (stm_bind_ok _ _ _ _ _ (Hget name)),
      (stm_bind_ok _ _ _ _ _ (Hget value)), ?E1, ?E2, ?E3; try (by apply IH).
  destruct (String.eqb value "1"); [by apply IH|done].
Qed.

(** At the pool of a server. *)
Lemma pool_execute {A} on_err (f : OStatement A) d d' a :
  f d = (d', Ok a) → o_execute on_err f (resting d []) = (resting d' [], Ok a).
Proof. exact (execute_idle (resting d []) on_err f d d' (Ok a)). Qed.

Lemma open_pool_run o d : builder_panics o = false → open_pool o (resting d []) = (resting d [], Ok ()).
Proof. intros Hb. unfold open_pool. rewrite Hb. by destruct (0 <? oo_min_connections o)%Z. Qed.

(** The tables open as those of a file with the same contents do. *)
Lemma odbc_open_agrees o d method pass profile path b :
  builder_panics o = false → tables_present d → open_db (od_tables d) method pass profile path = Ok b →
  odbc_open o method pass profile (resting d [])
  = (resting d [], Ok (mkOdbcBackend (resting d []) (active_profile b) (key_cache b))).
Proof.
  intros Hb Hp E. unfold open_db in E. apply bind_ok_inv in E as ([[dp kref] ver] & Er & E). cbv beta iota in E.
  destruct (negb ver) eqn:Ev; [done|]. apply bind_ok_inv in E as (name & En & E). apply bind_ok_inv in E as (sk & Ek & E).
  apply bind_ok_inv in E as ([d0 row] & Ef & E). cbv beta iota in E. apply bind_ok_inv in E as ([id enc] & Eo & E).
  cbv beta iota zeta in E. apply bind_ok_inv in E as (pk & El & E). injection E as <-.
  assert (Efind : ∃ rows, List.map (λ p, (p_id p, p_key p))
      (List.filter (λ p, String.eqb (p_name p) name) (profiles (od_tables d))) = (id, enc) :: rows).
  { injection Ef as <- <-. rewrite find_head in Eo. destruct (List.filter _ _) as [|q qs]; [done|].
    cbn in Eo. injection Eo as <- <-. by eexists. }
  destruct Efind as [rows Efind]. set (P := resting d []).
  assert (Hconn : get_connection P = (P, Ok ())) by done.
  unfold odbc_open. rewrite (stm_bind_ok _ _ _ _ _ (open_pool_run o d Hb)). fold P.
  rewrite (stm_bind_ok _ _ _ _ _ Hconn).
  rewrite (stm_bind_ok _ _ _ P (List.filter (λ c, existsb (String.eqb (fst c)) ["default_profile"; "key"; "version"])
    (config (od_tables d)))); last first.
  { apply pool_execute. by apply on_present_reads. }
  rewrite (stm_bind_ok _ _ _ _ _ (read_config_run d _ _ _ _ _ Er)). cbv beta iota. rewrite Ev. fold P.
  rewrite (stm_bind_ok _ _ _ _ _ (lift_ok _ _ P En)), (stm_bind_ok _ _ _ _ _ (lift_ok _ _ P Ek)).
  rewrite (stm_bind_ok _ _ _ _ _ Hconn).
  rewrite (stm_bind_ok _ _ _ P (Some ((id, enc) :: rows))); last first.
  { unfold attempt, P. erewrite pool_execute; [done|].
    unfold o_find_profile. apply on_present_reads; [done|done|]. by rewrite Efind. }
  rewrite (stm_bind_ok _ _ _ P (id, enc)) by reflexivity. cbv beta iota zeta.
  by rewrite (stm_bind_ok _ _ _ _ _ (lift_ok _ _ P El)).
Qed.

(** *** Provisioning *)

(** A server on which nothing is in the way: the tables are not there, or they are the
    only ones and are to be made again. *)
Definition od_vacant (recreate : bool) (d : OdbcDb) : Prop :=
  (od_tables d = mkDb [] [] [] [] ∧ od_present d = [])
  ∨ (recreate = true ∧ tables_present d ∧ ∀ n, n ∈ od_present d → n ∈ TABLES).

Lemma drop_tables_run names : ∀ d,
  NoDup names → (∀ n, n ∈ names → n ∈ od_present d) →
  drop_tables names (resting d [])
  = (resting (mkOdbc (foldl (λ t n, empty_table n t) (od_tables d) names)
       (List.filter (λ m, negb (existsb (λ n, String.eqb n m) names)) (od_present d)) (od_profile_seq d) (od_item_seq d)) [],
     Ok ()).
Proof.
  induction names as [|n names IH]; intros d Hnd Hin.
  - cbn [drop_tables foldl existsb negb]. assert (List.filter (λ _, true) (od_present d) = od_present d) as ->.
    { clear. induction (od_present d) as [|x l IH]; [done|]. cbn. by rewrite IH. }
    by destruct d.
  - apply NoDup_cons in Hnd as [Hn Hnd]. cbn [drop_tables]. assert (Hconn : get_connection (resting d []) = (resting d [], Ok ())) by done.
    rewrite (stm_bind_ok _ _ _ _ _ Hconn).
    erewrite stm_bind_ok by (apply pool_execute; unfold drop_table; rewrite present_eqb by (apply Hin; left); reflexivity).
    rewrite IH; [|done|].
    + cbn [od_tables od_present od_profile_seq od_item_seq foldl existsb]. do 3 f_equal.
      clear. induction (od_present d) as [|x l IHl]; [done|]. cbn [List.filter]. rewrite negb_orb.
      destruct (String.eqb n x); cbn [negb andb List.filter]; [exact IHl|].
      destruct (negb (existsb _ names)); [f_equal; exact IHl|exact IHl].
    + cbn. intros m Hm. apply list_elem_of_In, List.filter_In. split; [apply list_elem_of_In, Hin; by right|].
      destruct (String.eqb_spec n m) as [->|]; [done|done].
Qed.

(** The schema makes the tables, empty. *)
Lemma schema_run ps si :
  run_schema (split_statements DB2_SCHEMA) (resting (mkOdbc (mkDb [] [] [] []) [] ps si) [])
  = (resting (mkOdbc (mkDb [] [] [] []) ["config"; "profiles"; "items"; "items_tags"] 1 1) [], Ok ()).
Proof. vm_compute. reflexivity. Qed.

(** The tables of a new store. *)
Definition init_odbc (name uri : string) (enc : bytes) : OdbcDb :=
  mkOdbc (init_tables name uri enc) ["config"; "profiles"; "items"; "items_tags"] 2 1.

Lemma init_odbc_present name uri enc : tables_present (init_odbc name uri enc).
Proof. unfold tables_present. rewrite <- Forall_forall. by apply (bool_decide_unpack _). Qed.

(** Whatever was there, provisioning comes to the schema with nothing left. *)
Lemma vacant_run recreate d :
  od_vacant recreate d →
  ∃ there ps si, config_exists (resting d []) = (resting d [], Ok there) ∧ (there && negb recreate = false)
    ∧ (if there : bool then drop_tables TABLES else mret ()) (resting d [])
      = (resting (mkOdbc (mkDb [] [] [] []) [] ps si) [], Ok ()).
Proof.
  intros [[Et Ep]|(-> & Hp & Hall)].
  - exists false, (od_profile_seq d), (od_item_seq d). destruct d as [t pr ps si]. cbn in Et, Ep. subst. done.
  - exists true, (od_profile_seq d), (od_item_seq d). split; [|split; [done|]].
    + unfold config_exists. assert (Hconn : get_connection (resting d []) = (resting d [], Ok ())) by done.
      rewrite (stm_bind_ok _ _ _ _ _ Hconn).
      rewrite (stm_bind_ok _ _ _ (resting d []) (Some (length (config (od_tables d))))); [done|].
      unfold attempt. erewrite pool_execute; [reflexivity|]. by apply on_present_reads.
    + rewrite drop_tables_run; [|by apply (bool_decide_unpack _)|done]. do 3 f_equal.
      assert (Hnil : List.filter (λ m, negb (existsb (λ n, String.eqb n m) TABLES)) (od_present d) = []); [|by rewrite Hnil].
      induction (od_present d) as [|x l IH]; [done|]. cbn [List.filter].
      rewrite (proj2 (existsb_exists (λ n, String.eqb n x) TABLES)); [cbn; apply IH; intros; apply Hall; by right|].
      exists x. split; [apply list_elem_of_In, Hall; left|apply String.eqb_refl].
Qed.

Lemma odbc_provision_run o rng pk random_name read_file method pass profile recreate sk ref d
    (name := default random_name profile) :
  builder_panics o = false → od_vacant recreate d → read_file (oo_schema_file o) = Ok DB2_SCHEMA →
  (String.length name ≤ name_width)%nat → (∀ n, length (rng n) = n) → key_portable pk →
  (method = StoreKeyMethod.RawKey → pass_is_empty pass = false) →
  method_resolve method rng pass = Ok (sk, ref) →
  ∃ enc, let d' := init_odbc name (ref_into_uri ref) enc in
    odbc_provision rng (Ok pk) random_name read_file o method pass profile recreate (resting d [])
      = (resting d' [], Ok (mkOdbcBackend (resting d' []) name (add_profile name 1 pk (key_cache_new sk))))
    ∧ load_key (key_cache_new sk) enc = Ok pk.
Proof.
  intros Hb Hv Hread Hlen Hr Hpk Hraw Eres. destruct (init_keys_run rng pk method pass sk ref Hr Hpk Hraw Eres) as (enc & Ek & Hload).
  exists enc. split; [|done]. destruct (vacant_run recreate d Hv) as (there & ps & si & E1 & E2 & E3).
  set (d0 := mkOdbc (mkDb [] [] [] []) [] ps si) in E3. set (P := resting d0 []).
  set (d1 := mkOdbc (mkDb [] [] [] []) ["config"; "profiles"; "items"; "items_tags"] 1 1).
  assert (Hconn : get_connection P = (P, Ok ())) by done. assert (Hall : @o_allocate OdbcPool _ P = (P, Ok ())) by done.
  unfold odbc_provision. rewrite (stm_bind_ok _ _ _ _ _ (open_pool_run o d Hb)), (stm_bind_ok _ _ _ _ _ E1), E2.
  rewrite (stm_bind_ok _ _ _ _ _ E3), (stm_bind_ok _ _ _ _ _ (lift_ok _ _ _ Ek)). cbv beta iota zeta.
  erewrite stm_bind_ok by (apply lift_ok; by rewrite Hread).
  rewrite (stm_bind_ok _ _ _ _ _ Hconn), (stm_bind_ok _ _ _ _ _ Hall), (stm_bind_ok _ _ _ _ _ (schema_run ps si)).
  erewrite stm_bind_ok by (apply pool_execute; reflexivity).
  set (d2 := od_set _ _). fold name.
  rewrite (stm_bind_ok _ _ _ (resting (init_odbc name (ref_into_uri ref) enc) []) 1%Z); last first.
  { apply pool_execute. unfold o_insert_profile. cbn [existsb od_present d2 od_set String.eqb Ascii.eqb Bool.eqb orb negb].
    by rewrite (proj2 (Nat.ltb_ge _ _)). }
  erewrite stm_bind_ok; last first.
  { apply pool_execute. apply on_present_reads; [apply init_odbc_present|done|]. cbn.
    rewrite String.eqb_refl, bool_decide_true by done. reflexivity. }
  cbn [List.filter List.map andb]. done.
Qed.

(** A new store opens with the same pass key, by the same method or without naming one. *)
Lemma odbc_reopen o rng pk random_name method pass profile sk ref m enc (name := default random_name profile) :
  builder_panics o = false → (∀ n, length (rng n) = n) →
  (method = StoreKeyMethod.RawKey → pass_is_empty pass = false) → method_resolve method rng pass = Ok (sk, ref) →
  m = None ∨ m = Some method → load_key (key_cache_new sk) enc = Ok pk →
  let P := resting (init_odbc name (ref_into_uri ref) enc) [] in
  odbc_open o m pass profile P = (P, Ok (mkOdbcBackend P name (add_profile name 1 pk (key_cache_new sk)))).
Proof.
  intros Hb Hr Hraw Eres Hm Hload P. set (d' := init_odbc name (ref_into_uri ref) enc) in *.
  destruct (resolve_reopen method rng pass sk ref Hr Hraw Eres) as (ref' & Eu & Hc & Ers).
  refine (odbc_open_agrees o d' m pass profile "" (mkBackend (od_tables d') (PoolOpen []) name _ "") Hb (init_odbc_present _ _ _) _).
  change (open_store "" (Some (od_tables d')) m pass profile = Ok (mkBackend (od_tables d') (PoolOpen []) name
    (add_profile name 1 pk (key_cache_new sk)) "")).
  apply (open_run m pass profile "" _ _ _ sk ref' pk m); try done; [by destruct Hm as [-> | ->]|by destruct profile].
Qed.

(** Removing a store takes its tables away, and there is nothing to open after it. *)
Lemma odbc_remove_run o name uri enc m pass profile :
  builder_panics o = false →
  ∃ p, odbc_remove o (resting (init_odbc name uri enc) []) = (p, Ok true)
    ∧ odbc_open o m pass profile p = (p, Err (unsupported "Configuration data not found")).
Proof.
  intros Hb. destruct (vacant_run true (init_odbc name uri enc)) as (there & ps & si & E1 & _ & E2).
  { right. split_and!; [done|apply init_odbc_present|]. intros n. cbn. unfold TABLES. set_solver. }
  exists (resting (mkOdbc (mkDb [] [] [] []) [] ps si) []). split.
  - unfold odbc_remove. rewrite (stm_bind_ok _ _ _ _ _ (open_pool_run o _ Hb)), (stm_bind_ok _ _ _ _ _ E1).
    by rewrite (stm_bind_ok _ _ _ _ _ E2).
  - unfold odbc_open. by rewrite (stm_bind_ok _ _ _ _ _ (open_pool_run o _ Hb)).
Qed.
End Opening.

Section Lifecycle.
Context `{HAl : Allocator} `{HH : Hmac} `{HC : AeadCipher} {laws : CipherLaws} {HD : LawfulDerivation Chacha20Key}.
Context `{HS : StoreCodecs} {SL : StoreCodecLaws} `{HU : UriCodec} {UL : UriCodecLaws} `{HB : CborCodec}.
Context `{HE : SqlEngine} `{HO : OdbcDriver} `{HPB : PoolBuilder}.

Lemma init_odbc_represents pk name uri enc : o_represents pk 1 (init_odbc name uri enc) ∅.
Proof.
  split; [apply init_represents|split; [apply init_tables_wf|constructor|by repeat constructor]|done].
Qed.

End Lifecycle.
(** ** Rekeying *)

Section Rekey.
Context `{HAl : Allocator} `{HC : AeadCipher} {laws : CipherLaws} `{HS : StoreCodecs} {SL : StoreCodecLaws}.
Context `{HU : UriCodec} {UL : UriCodecLaws} `{HB : CborCodec} `{HO : OdbcDriver} `{HPB : PoolBuilder}.
Context (rngs : Z → nat → bytes) (c : KeyCache) (sk : StoreKey).
Hypothesis rngs_length : ∀ i n, length (rngs i n) = n.
Hypothesis sk_ok : store_key_ok sk.

(** The keys as they are stored next, one after the other. *)
Definition rewrap_pairs (l : list (Z * bytes)) : sres (list (Z * bytes)) :=
  mapM (λ kv, enc ← (key ← load_key c kv.2; encode_profile_key (rngs kv.1) key sk); mret (kv.1, enc)) l.

Lemma rewrap_pairs_run l :
  (∀ kv, kv ∈ l → ∃ key, load_key c kv.2 = Ok key ∧ key_portable key) →
  ∃ l', rewrap_pairs l = Ok l' ∧ l'.*1 = l.*1
    ∧ ∀ pid enc, (pid, enc) ∈ l' → ∃ old key, (pid, old) ∈ l ∧ load_key c old = Ok key
        ∧ load_key (key_cache_new sk) enc = Ok key.
Proof.
  induction l as [|[pid old] l IH]; intros Hk.
  - exists []. split_and!; [done..|]. by intros ? ? ?%elem_of_nil.
  - destruct (Hk (pid, old)) as (key & El & b & Eto & Efrom & Hb); [left|].
    destruct (load_encoded_key (rngs pid) sk key b (rngs_length _) sk_ok Eto Efrom Hb) as (enc & Eenc & Hload).
    destruct IH as (l' & E & Hids & Hall); [intros kv Hkv; apply Hk; by right|].
    exists ((pid, enc) :: l'). split_and!; [|cbn; by rewrite Hids|].
    + unfold rewrap_pairs in *. rewrite mapM_cons. cbn [fst snd] in *. rewrite El. run_bind. rewrite Eenc. run_bind. by rewrite E.
    + intros i e [[= -> ->]|Hin]%elem_of_cons; [exists old, key; split_and!; [left|done..]|].
      destruct (Hall i e Hin) as (o & k & Ho & Hk1 & Hk2). exists o, k. split_and!; [by right|done..].
Qed.

Context (b : OdbcBackend).
Hypothesis the_cache : ob_cache b = c.

Definition with_profiles (l : list (Z * bytes)) (d : OdbcDb) : OdbcDb :=
  od_set (set_profiles (List.map (rekeyed l) (profiles (od_tables d))) (od_tables d)) d.

Lemma read_keys_run d rows : ∀ k t,
  read_keys rows (on_db b d (calls (3 * length rows + S k) t))
  = (on_db b d (calls k t), Ok (List.map (λ p, (p_id p, p_key p)) rows)).
Proof.
  induction rows as [|p rows IH]; intros k t; cbn [read_keys length List.map].
  - by rewrite (stm_bind_ok _ _ _ _ _ (call_run b from_odbc d k t)).
  - replace (3 * S (length rows) + S k)%nat with (S (S (S (3 * length rows + S k)))) by lia.
    rewrite (stm_bind_ok _ _ _ _ _ (call_run b from_odbc d _ t)), (stm_bind_ok _ _ _ _ _ (get_run b _ d _ t)),
      (stm_bind_ok _ _ _ _ _ (get_run b _ d _ t)), (stm_bind_ok _ _ _ _ _ (IH k t)). done.
Qed.

(** One key: it is encoded, then stored. *)
Lemma update_key_run pid old enc l w :
  (key ← load_key c old; encode_profile_key (rngs pid) key sk) = Ok enc → ob_cache w = c →
  o_update_keys rngs sk ((pid, old) :: l) w
  = (_ ← o_execute from_odbc (o_update_profile enc pid); o_update_keys rngs sk l) w.
Proof.
  intros E Hc. cbn [o_update_keys]. rewrite (stm_bind_ok sget _ w w w eq_refl), Hc. by rewrite (stm_bind_ok _ _ _ _ _ (lift_ok _ _ w E)).
Qed.

Lemma rekeyed_one pid enc l :
  List.map (rekeyed [(pid, enc)]) l
  = List.map (λ p, if bool_decide (p_id p = pid) then mkProfile (p_id p) (p_name p) enc else p) l.
Proof. rewrite <- rekeyed_step, rekeyed_nil; [done|apply not_elem_of_nil]. Qed.

Lemma store_key_run pid enc d n t :
  tables_present d →
  o_execute from_odbc (o_update_profile enc pid) (on_db b d (calls (S n) t))
  = (on_db b (with_profiles [(pid, enc)] d) (calls n t),
     Ok (Z.of_nat (length (List.filter (λ p, bool_decide (p_id p = pid)) (profiles (od_tables d)))))).
Proof.
  intros Hp. apply execute_done.
  unfold o_update_profile, with_profiles. apply on_present_ok; [done|done|]. unfold sql_update_profile_key.
  by rewrite rekeyed_one.
Qed.

Lemma with_profiles_step pid enc l d :
  pid ∉ l.*1 → with_profiles l (with_profiles [(pid, enc)] d) = with_profiles ((pid, enc) :: l) d.
Proof.
  intros Hn. unfold with_profiles. cbn [od_tables od_set profiles set_profiles].
  by rewrite rekeyed_one, rekeyed_step.
Qed.

Lemma rewrap_pairs_cons pid old l l' : rewrap_pairs ((pid, old) :: l) = Ok l' →
  ∃ enc l1, l' = (pid, enc) :: l1 ∧ rewrap_pairs l = Ok l1
    ∧ (key ← load_key c old; encode_profile_key (rngs pid) key sk) = Ok enc.
Proof.
  unfold rewrap_pairs. rewrite mapM_cons. intros E. apply bind_ok_inv in E as (x & Ex & E).
  apply bind_ok_inv in E as (l1 & El & [= <-]). apply bind_ok_inv in Ex as (enc & Ee & [= <-]). by exists enc, l1.
Qed.

(** All the keys, or those before a call that fails. *)
Lemma o_update_keys_run l : ∀ l' d,
  rewrap_pairs l = Ok l' → l'.*1 = l.*1 → NoDup l.*1 → tables_present d →
  (∀ k t, o_update_keys rngs sk l (on_db b d (calls (length l + k) t)) = (on_db b (with_profiles l' d) (calls k t), Ok ()))
  ∧ ∀ j msg, (j < length l)%nat → o_update_keys rngs sk l (on_db b d (calls j (Some msg)))
      = (on_db b (with_profiles (take j l') d) [], Err (from_odbc msg)).
Proof.
  assert (Hsame : ∀ d, with_profiles [] d = d) by (intros [[]]; unfold with_profiles; by rewrite rekeyed_nil).
  induction l as [|[pid old] l IH]; intros l' d E Hids Hnd Hp.
  - injection E as <-. rewrite Hsame. split; [done|cbn; lia].
  - apply rewrap_pairs_cons in E as (enc & l1 & -> & El & Ee). injection Hids as Hids. change (l1.*1 = l.*1) in Hids.
    apply NoDup_cons in Hnd as [Hni Hnd]. change (pid ∉ l.*1) in Hni. destruct (IH l1 (with_profiles [(pid, enc)] d) El Hids Hnd Hp) as [Hall Hsome].
    split; [intros k t|intros [|j] msg Hj]; rewrite (update_key_run pid old enc l _ Ee) by exact the_cache.
    + cbn [length Nat.add]. rewrite (stm_bind_ok _ _ _ _ _ (store_key_run pid enc d _ t Hp)), Hall.
      by rewrite with_profiles_step by (by rewrite Hids).
    + cbn [take]. rewrite Hsame. apply stm_bind_err, execute_fails.
    + cbn [length] in Hj. rewrite (stm_bind_ok _ _ _ _ _ (store_key_run pid enc d _ _ Hp)), Hsome by lia. cbn [take].
      rewrite with_profiles_step; [done|]. intros Hin. apply Hni. rewrite <- Hids.
      apply list_elem_of_fmap in Hin as (x & -> & Hx). apply list_elem_of_fmap_2. 
      apply elem_of_take in Hx as (i & Hi & _). by eapply list_elem_of_lookup_2.
Qed.

(** The keys of a list of profiles can be read, and go to the same profiles. *)
Lemma btree_readable d key_of :
  keys_readable c d key_of → NoDup (List.map p_id (profiles d)) →
  let l := btree_of (List.map (λ p, (p_id p, p_key p)) (profiles d)) in
  NoDup l.*1 ∧ length l = length (profiles d) ∧ (∀ pid, pid ∈ l.*1 ↔ pid ∈ List.map p_id (profiles d))
  ∧ ∀ pid old, (pid, old) ∈ l → ∃ p, p ∈ profiles d ∧ p_id p = pid ∧ p_key p = old
      ∧ load_key c old = Ok (key_of p) ∧ key_portable (key_of p).
Proof.
  intros Hk Hnd l. set (rows := List.map (λ p, (p_id p, p_key p)) (profiles d)) in l.
  assert (Hids : rows.*1 = List.map p_id (profiles d)) by (unfold rows; exact (List.map_map _ fst _)).
  assert (Hp : l ≡ₚ rows) by (apply btree_of_perm; by rewrite Hids).
  split_and!.
  - by rewrite Hp, Hids.
  - rewrite (Permutation_length Hp). unfold rows. by rewrite List.length_map.
  - intros pid. by rewrite Hp, Hids.
  - intros pid old. rewrite Hp. intros (p & [= -> ->] & Hin)%list_elem_of_fmap. exists p. by destruct (Hk p Hin).
Qed.

End Rekey.

Section RekeyLaws.
Context `{HAl : Allocator} `{HC : AeadCipher} {laws : CipherLaws} `{HS : StoreCodecs} {SL : StoreCodecLaws}.
Context `{HU : UriCodec} {UL : UriCodecLaws} `{HB : CborCodec} `{HO : OdbcDriver} `{HPB : PoolBuilder}.
Context (rng : nat → bytes) (rngs : Z → nat → bytes) (method : StoreKeyMethod) (pass : PassKey) (sk : StoreKey)
  (ref : StoreKeyReference) (b : OdbcBackend) (d : OdbcDb) (key_of : ProfileRow → ProfileKey).
Hypothesis rng_length : ∀ n, length (rng n) = n.
Hypothesis rngs_length : ∀ i n, length (rngs i n) = n.
Hypothesis resolved : method_resolve method rng pass = Ok (sk, ref).
Hypothesis wf : db_wf (od_tables d).
Hypothesis present : tables_present d.
Hypothesis readable : keys_readable (ob_cache b) (od_tables d) key_of.

Definition old_keys : list (Z * bytes) := btree_of (List.map (λ p, (p_id p, p_key p)) (profiles (od_tables d))).

(** Up to the updates. *)
Lemma o_rekey_start k t :
  o_rekey rng rngs method pass (on_db b d (calls (S (3 * length (profiles (od_tables d)) + S k)) t))
  = (_ ← o_update_keys rngs sk old_keys;
     _ ← o_execute (backend_err "Error updating the store key") (o_config_update "key" (ref_into_uri ref));
     smod (set_ocache (key_cache_new sk))) (on_db b d (calls k t)).
Proof.
  unfold o_rekey. rewrite pass_owned, (stm_bind_ok _ _ _ _ _ (lift_ok _ _ _ resolved)). cbv beta iota.
  rewrite (stm_bind_ok _ _ _ _ _ (get_connection_run b d _)).
  erewrite stm_bind_ok by (apply execute_done, on_present_reads; [exact present|reflexivity|reflexivity]).
  by rewrite (stm_bind_ok _ _ _ _ _ (read_keys_run b d (profiles (od_tables d)) k t)).
Qed.

(** The keys that take the place of the old ones. *)
Lemma new_keys : ∃ upd, rewrap_pairs rngs (ob_cache b) sk old_keys = Ok upd ∧ upd.*1 = old_keys.*1
  ∧ NoDup old_keys.*1 ∧ length old_keys = length (profiles (od_tables d))
  ∧ (∀ p, p ∈ profiles (od_tables d) → p_id p ∈ upd.*1)
  ∧ ∀ pid enc, (pid, enc) ∈ upd → ∃ p, p ∈ profiles (od_tables d) ∧ p_id p = pid
      ∧ load_key (key_cache_new sk) enc = Ok (key_of p).
Proof.
  destruct (btree_readable (ob_cache b) (od_tables d) key_of readable (profile_ids_unique _ wf)) as (Hnd & Hlen & Hin & Hall).
  destruct (rewrap_pairs_run rngs (ob_cache b) sk rngs_length (method_resolve_ok _ _ _ _ _ rng_length resolved) old_keys)
    as (upd & E & Hids & Hupd).
  { intros [pid old] Hkv. destruct (Hall _ _ Hkv) as (p & _ & _ & <- & Hl). by exists (key_of p). }
  exists upd. split_and!; try done.
  - intros p Hp. rewrite Hids. apply Hin. by apply list_elem_of_fmap_2.
  - intros pid enc He. destruct (Hupd _ _ He) as (old & key & Hold & Hl & Hn).
    destruct (Hall _ _ Hold) as (p & Hp & Hid & _ & Hl' & _). exists p. split_and!; [done..|]. congruence.
Qed.

(** Rekeying an ODBC store replaces the key every profile key is stored under and
    nothing else: the store opens with the new pass key, and every profile has the key it
    had before. *)
Theorem odbc_rekey_correct :
  config_ok (od_tables d) → (method = StoreKeyMethod.RawKey → pass_is_empty pass = false) →
  ∃ b', o_rekey rng rngs method pass (on_db b d []) = (b', Ok ()) ∧ idle (p_conn (ob_pool b'))
    ∧ items (od_tables (c_db (p_conn (ob_pool b')))) = items (od_tables d)
    ∧ items_tags (od_tables (c_db (p_conn (ob_pool b')))) = items_tags (od_tables d)
    ∧ ∀ p o, p ∈ profiles (od_tables d) → builder_panics o = false →
        ∃ b'', odbc_open o (Some method) pass (Some (p_name p)) (ob_pool b') = (ob_pool b', Ok b'')
          ∧ get_profile (p_name p) (ob_cache b'') = Some (p_id p, key_of p).
Proof.
  intros (_ & Hkey & dp & k & Hrc) Hraw. destruct new_keys as (upd & E & Hids & Hnd & Hlen & Hin & Hload).
  destruct (o_update_keys_run rngs (ob_cache b) sk b eq_refl old_keys upd d E Hids Hnd present) as [Hrun _].
  set (d1 := with_profiles upd d). set (d2 := od_set (config_update "key" (ref_into_uri ref) (od_tables d1)).1 d1).
  exists (set_ocache (key_cache_new sk) (on_db b d2 [])). split_and!; [|done..|].
  - pose proof (o_rekey_start (length old_keys + 1) None) as Es. cbn [calls] in Es. etransitivity; [exact Es|].
    rewrite (stm_bind_ok _ _ _ _ _ (Hrun 1%nat None)).
    erewrite stm_bind_ok by (apply execute_done; unfold o_config_update; apply on_present_ok; [exact present|done|done]).
    done.
  - intros p o Hp Hb. assert (Hl : load_key (key_cache_new sk) (p_key (rekeyed upd p)) = Ok (key_of p)).
    { pose proof (Hin p Hp) as ([pid enc] & Epid & He)%list_elem_of_fmap. cbn in Epid. subst pid.
      unfold rekeyed. rewrite (assoc_some upd _ enc); [|by rewrite Hids|done]. cbn.
      destruct (Hload _ _ He) as (q & Hq & Eid & ->). f_equal. f_equal.
      eapply (nodup_inj p_id); [apply wf|done..]. }
    pose proof (open_rekeyed rng method pass (od_tables d) upd p dp k (key_of p) sk ref "" wf Hrc Hkey Hp rng_length Hraw
      resolved Hl) as Eo. cbv zeta in Eo.
    eexists. split; [exact (odbc_open_agrees o d2 (Some method) pass (Some (p_name p)) "" _ Hb present Eo)|].
    apply lookup_insert_eq.
Qed.

(** C38: Rekeying is no transaction: when a call fails after [j] keys have been stored, they
    stay stored under the new store key, which the configuration does not name and the
    store does not use; the others are still stored under the old one. *)
Theorem odbc_rekey_not_atomic j msg :
  (j ≤ length (profiles (od_tables d)))%nat →
  ∃ b' e upd, o_rekey rng rngs method pass
        (on_db b d (calls (3 * length (profiles (od_tables d)) + 2 + j) (Some msg))) = (b', Err e)
    ∧ idle (p_conn (ob_pool b')) ∧ ob_cache b' = ob_cache b
    ∧ config (od_tables (c_db (p_conn (ob_pool b')))) = config (od_tables d)
    ∧ profiles (od_tables (c_db (p_conn (ob_pool b')))) = List.map (rekeyed upd) (profiles (od_tables d))
    ∧ length upd = j ∧ NoDup upd.*1
    ∧ ∀ pid enc, (pid, enc) ∈ upd → ∃ p, p ∈ profiles (od_tables d) ∧ p_id p = pid
        ∧ load_key (key_cache_new sk) enc = Ok (key_of p).
Proof.
  intros Hj. destruct new_keys as (upd & E & Hids & Hnd & Hlen & _ & Hload).
  assert (Hlen' : length upd = length old_keys) by (rewrite <- (length_fmap fst), Hids; apply length_fmap).
  destruct (o_update_keys_run rngs (ob_cache b) sk b eq_refl old_keys upd d E Hids Hnd present) as [Hrun Hfail].
  exists (on_db b (with_profiles (take j upd) d) []).
  assert (∃ e, o_rekey rng rngs method pass
      (on_db b d (calls (3 * length (profiles (od_tables d)) + 2 + j) (Some msg)))
    = (on_db b (with_profiles (take j upd) d) [], Err e)) as [e Es].
  { replace (3 * length (profiles (od_tables d)) + 2 + j)%nat with (S (3 * length (profiles (od_tables d)) + S j)) by lia.
    rewrite o_rekey_start. destruct (decide (j = length old_keys)) as [->|Hne].
    - eexists. rewrite <- (Nat.add_0_r (length old_keys)) at 1. rewrite (stm_bind_ok _ _ _ _ _ (Hrun 0%nat (Some msg))).
      rewrite <- Hlen', take_ge by done. apply stm_bind_err, execute_fails.
    - eexists. apply stm_bind_err, Hfail. lia. }
  exists e, (take j upd). split_and!; try done.
  - rewrite length_take. lia.
  - rewrite fmap_take, Hids. rewrite <- (take_drop j old_keys.*1) in Hnd. by apply NoDup_app in Hnd as [Hnd _].
  - intros pid enc (i & Hi & _)%elem_of_take. eapply Hload, list_elem_of_lookup_2, Hi.
Qed.
End RekeyLaws.

(** ** Profiles *)

Section Profiles.
Context `{HAl : Allocator} `{HH : Hmac} `{HC : AeadCipher} {laws : CipherLaws} `{HB : CborCodec}.
Context `{HE : SqlEngine} `{HO : OdbcDriver}.

(** The names that fit the buffers they are fetched in. *)
Definition names_fit (l : list ProfileRow) : Prop :=
  Forall (λ p, str_ok (p_name p) ∧ (length (as_bytes (p_name p)) ≤ 1023)%nat) l.

Lemma read_name_fits p : str_ok (p_name p) ∧ (length (as_bytes (p_name p)) ≤ 1023)%nat → read_profile_name (p_name p) = Ok (p_name p).
Proof. intros [Hs Hl]. unfold read_profile_name, varchar_1024. rewrite take_ge by done. by rewrite from_utf8_str. Qed.

(** The profiles listed are the first 64, whatever their number; of a store without
    profiles none can be listed, which is a panic.  A second profile of a name is
    refused, with an error of the database rather than of a duplicate. *)
Theorem odbc_profiles_listed b d :
  tables_present d → names_fit (profiles (od_tables d)) →
  o_list_profiles (on_db b d [])
  = (on_db b d [], match profiles (od_tables d) with
                   | [] => Panic
                   | l => Ok (take 64 (List.map p_name l))
                   end)
  ∧ ∀ rng pk random_name name,
      (∀ n, length (rng n) = n) → store_key_ok (cache_store_key (ob_cache b)) → key_portable pk →
      name ∈ List.map p_name (profiles (od_tables d)) → (String.length name ≤ name_width)%nat →
      ∃ b', o_create_profile rng (Ok pk) random_name (Some name) (on_db b d [])
        = (b', Err (backend_err "Error inserting profile" duplicate_profile))
        ∧ od_tables (c_db (p_conn (ob_pool b'))) = od_tables d ∧ ob_cache b' = ob_cache b.
Proof.
  intros Hp Hfit. split.
  - unfold o_list_profiles, o_allocate. rewrite (stm_bind_ok _ _ _ _ _ (get_connection_run b d [])).
    erewrite stm_bind_ok by (eapply (execute_idle b _ _ d d (Ok _)), on_present_reads; [done|reflexivity|reflexivity]).
    rewrite (stm_bind_ok _ _ _ _ _ (call_idle b from_odbc d)), (stm_bind_ok _ _ _ _ _ (call_idle b from_odbc d)).
    destruct (profiles (od_tables d)) as [|p l] eqn:E; [done|]. unfold lift. f_equal.
    rewrite (mapM_ok _ p_name), firstn_map; [done|]. apply Forall_take. eapply Forall_impl; [exact Hfit|]. intros q. apply read_name_fits.
  - intros rng pk random_name name Hr Hsk (x & Eto & Efrom & Hx) Hin Hlen.
    destruct (load_encoded_key rng _ pk x Hr Hsk Eto Efrom Hx) as (enc & Eenc & _).
    exists (on_db b (od_next_profile d) []). split_and!; [|done..].
    unfold o_create_profile, o_allocate. rewrite (stm_bind_ok sget _ (on_db b d []) _ _ eq_refl).
    erewrite stm_bind_ok; [|apply lift_ok; rewrite (bind_ok (Ok pk) _ _ eq_refl), (bind_ok _ _ _ Eenc); reflexivity].
    cbv beta iota. rewrite (stm_bind_ok _ _ _ _ _ (get_connection_run b d [])).
    rewrite (stm_bind_ok _ _ _ _ _ (call_idle b from_odbc d)).
    apply stm_bind_err. cbn [default from_option id].
    apply (execute_idle b _ _ d (od_next_profile d) (Err duplicate_profile)). unfold o_insert_profile.
    rewrite present_eqb by (apply Hp; by do 2 right; left). cbn [negb]. rewrite (proj2 (Nat.ltb_ge _ _)) by done.
    rewrite (proj2 (existsb_exists _ _)); [done|].
    apply list_elem_of_fmap in Hin as (p & -> & Hin). exists p. split; [by apply list_elem_of_In|apply String.eqb_refl].
Qed.

(** In a session for a profile that is not there, every operation panics, where the
    other backends have an error; only a ping finds it out. *)
Theorem odbc_missing_profile env w :
  p_faults (ow_pool w) = [] → tables_present (od w) → get_profile (os_profile (ow_session w)) (ow_cache w) = None →
  os_profile (ow_session w) ∉ List.map p_name (profiles (od_tables (od w))) →
  o_ping w = (ran (od w) w, Err (err_kind StorageError.NotFound "Session profile has been removed"))
  ∧ (∀ kind c n fu, (o_fetch env kind c n fu w).2 = Panic)
  ∧ (∀ kind c f, (o_session_count env kind c f w).2 = Panic ∧ (o_remove_all kind c f w).2 = Panic)
  ∧ ∀ kind op c n v ts ms, (o_update env kind op c n v ts ms w).2 = Panic.
Proof.
  intros Hf Hp Hg Hn. set (name := os_profile (ow_session w)) in *.
  assert (Hnone : List.filter (λ p, String.eqb (p_name p) name) (profiles (od_tables (od w))) = []).
  { destruct (List.filter _ _) as [|p l] eqn:E; [done|]. exfalso. apply Hn.
    assert (Hin : List.In p (List.filter (λ p, String.eqb (p_name p) name) (profiles (od_tables (od w))))) by (rewrite E; by left).
    apply List.filter_In in Hin as [Hin <-%String.eqb_eq]. by apply list_elem_of_fmap_2, list_elem_of_In. }
  assert (Eacq : o_acquire_key w = (ran (od w) w, Panic)).
  { unfold o_acquire_key. rewrite (stm_bind_ok sget _ w w w eq_refl). cbv zeta. fold name. rewrite Hg.
    unfold o_find_profile. run_read. rewrite Hnone. cbn [List.map].
    by rewrite (stm_bind_ok _ _ _ _ _ (next_row_ok _ _ (ran (od w) w) Hf)). }
  assert (Hpanic : ∀ A (f : Z * ProfileKey → stm OdbcWorld StorageError.Error A), ((x ← o_acquire_key; f x) w).2 = Panic).
  { intros A f. unfold mbind, stm_bind. by rewrite Eacq. }
  split; [|split; [|split]].
  - unfold o_ping. rewrite (stm_bind_ok sget _ w w w eq_refl). unfold o_count_name. run_read. fold name. rewrite Hnone.
    cbn [length Z.of_nat]. rewrite (stm_bind_ok _ _ _ _ _ (next_row_ok _ _ (ran (od w) w) Hf)). cbv beta iota.
    rewrite (stm_bind_ok (lift (unwrap (Some 0%Z))) _ _ _ _ eq_refl), (stm_bind_ok _ _ _ _ _ (get_ok 0%Z (ran (od w) w) Hf)).
    done.
  - intros. apply Hpanic.
  - intros. split; apply Hpanic.
  - intros kind op c n v ts ms. destruct op; apply Hpanic.
Qed.
End Profiles.


(** ** Instances on a small server *)

Definition toy_builder : PoolBuilder := {| builder_panics _ := false |}.
Definition toy_odbc_options : OdbcStoreOptions := mkOdbcOptions 30 300 300 10 1 "dsn" "/etc/schema.sql".
Definition toy_read_file (_ : string) : res string string := Ok DB2_SCHEMA.
Definition blank_odbc : OdbcDb := mkOdbc (mkDb [] [] [] []) [] 1 1.


Lemma odbc_rekey_correct_witness :
  ∃ b', @o_rekey demo_allocator toy_cipher toy_codecs toy_cbor toy_rng (λ _, toy_rng) StoreKeyMethod.Unprotected
      pass_empty toy_odbc_backend = (b', Ok ())
    ∧ items (od_tables (c_db (p_conn (ob_pool b')))) = [].
Proof.
  destruct (@odbc_rekey_correct demo_allocator toy_cipher toy_cipher_laws toy_codecs toy_codecs_laws demo_codec
    demo_codec_laws toy_cbor toy_builder toy_rng (λ _, toy_rng) StoreKeyMethod.Unprotected pass_empty store_key_empty
    StoreKeyReference.Unprotected toy_odbc_backend toy_odbc_db (λ _, toy_profile_key)) as (b' & E1 & _ & E2 & _).
  - exact toy_rng_length.
  - intros i. exact toy_rng_length.
  - reflexivity.
  - cbn; auto with wf.
  - intros n Hn. exact Hn.
  - exact toy_keys_readable.
  - exact toy_config_ok.
  - discriminate.
  - exists b'. split; [exact E1|exact E2].
Defined.

(** The key of the profile has been stored, and the configuration has not. *)
Lemma odbc_rekey_not_atomic_witness :
  ∃ b' e upd, @o_rekey demo_allocator toy_cipher toy_codecs toy_cbor toy_rng (λ _, toy_rng) StoreKeyMethod.Unprotected
      pass_empty (on_db toy_odbc_backend toy_odbc_db (replicate 6 None ++ [Some "link failure"])) = (b', Err e)
    ∧ length upd = 1%nat ∧ config (od_tables (c_db (p_conn (ob_pool b')))) = config (b_db toy_backend)
    ∧ profiles (od_tables (c_db (p_conn (ob_pool b')))) = List.map (rekeyed upd) (profiles (b_db toy_backend)).
Proof.
  destruct (@odbc_rekey_not_atomic demo_allocator toy_cipher toy_cipher_laws toy_codecs toy_cbor toy_rng (λ _, toy_rng) StoreKeyMethod.Unprotected pass_empty store_key_empty
    StoreKeyReference.Unprotected toy_odbc_backend toy_odbc_db (λ _, toy_profile_key)) with (j := 1%nat) (msg := "link failure")
    as (b' & e & upd & E1 & _ & _ & E2 & E3 & E4 & _).
  - exact toy_rng_length.
  - intros i. exact toy_rng_length.
  - reflexivity.
  - cbn; auto with wf.
  - intros n Hn. exact Hn.
  - exact toy_keys_readable.
  - vm_compute. lia.
  - exists b', e, upd. split; [exact E1|]. split; [exact E4|]. split; [exact E2|exact E3].
Defined.

Lemma odbc_profiles_listed_witness :
  o_list_profiles toy_odbc_backend = (toy_odbc_backend, Ok ["main"])
  ∧ ∃ b', @o_create_profile demo_allocator toy_cipher toy_cbor toy_odbc toy_rng (Ok toy_profile_key) "r" (Some "main")
      toy_odbc_backend = (b', Err (backend_err "Error inserting profile" duplicate_profile)).
Proof.
  destruct (@odbc_profiles_listed demo_allocator toy_cipher toy_cipher_laws toy_cbor toy_odbc toy_odbc_backend toy_odbc_db)
    as [E1 E2].
  - intros n Hn. exact Hn.
  - repeat constructor; vm_compute; lia.
  - split; [exact E1|].
    destruct (E2 toy_rng toy_profile_key "r" "main") as (b' & E & _).
    + exact toy_rng_length.
    + reflexivity.
    + exact toy_key_portable.
    + left.
    + vm_compute. lia.
    + exists b'. exact E.
Defined.

Definition toy_odbc_stranger : OdbcWorld :=
  mkOdbcWorld (ob_pool toy_odbc_backend) (key_cache toy_backend) (mkOdbcSession "nobody" false).

Lemma odbc_missing_profile_witness :
  (@o_fetch demo_allocator toy_hmac toy_cipher toy_cbor toy_odbc toy_env EntryKind.Item "cat" "one" false toy_odbc_stranger).2 = Panic
  ∧ (o_ping toy_odbc_stranger).2 = Err (err_kind StorageError.NotFound "Session profile has been removed").
Proof.
  destruct (@odbc_missing_profile demo_allocator toy_hmac toy_cipher toy_cbor toy_engine toy_odbc toy_env toy_odbc_stranger)
    as (E1 & E2 & _).
  - reflexivity.
  - intros n Hn. exact Hn.
  - vm_compute. reflexivity.
  - cbn. intros [E|E]%elem_of_cons; [discriminate|by apply elem_of_nil in E].
  - split; [exact (E2 EntryKind.Item "cat" "one" false)|exact (f_equal snd E1)].
Defined.
