(* ===== verification/AnyStore.v ===== *)
(** * Stores by URI

    Models the dispatch of askar-storage/src/any.rs over the backends of this library:
    the boxed backend and session of whatever kind, and [ManageBackend] for URIs, which
    opens, provisions and removes stores on the system the scheme names; with the
    opening and removal of SQLite files (sqlite/provision.rs) in a file system. *)

From S2P Require Import Prelude Errors Wql TagSql DbQuery TagSqlSem SqlEval Buffers Utf8 Entry Aead.
From S2P Require Import Protect Options StoreKey DbUtils Session SqliteDb PgDb Sqlite Postgres Store Backend Scans PgStore.
From S2P Require Import SqliteBackend PgProvision Lifecycle PgSession PgBackend Copying.
From S2P Require Import OdbcSql OdbcDb Odbc OdbcStore OdbcBackend OdbcLaws OdbcStoreLaws.
Local Open Scope string_scope.
Local Open Scope list_scope.

(** ** SQLite stores in a file system *)

(** The files by name; a new one has no tables. *)
Abbreviation Files := (gmap string (option Db)).

(** Errors of [sqlx]: a file that cannot be opened (code 14), another of the database,
    and the others. *)
Inductive ConnectError :=
| CantOpen
| DatabaseError (cause : string)
| ConnectOther (cause : string).

Definition connect_cause (e : ConnectError) : string :=
  match e with CantOpen => "unable to open database file" | DatabaseError c | ConnectOther c => c end.

(** The file a path names for [SqliteConnectOptions::from_str], what keeps it from being
    opened, and what keeps a file from being removed at the nth attempt. *)
Class FileSystem := {
  file_named : string → res string string;
  cannot_connect : string → option ConnectError;
  obstacle : string → nat → option RemoveOutcome;
  on_windows : bool;
}.

Section SqliteFiles.
Context `{FileSystem} `{SqliteEnv}.
Context `{Allocator} `{AeadCipher} `{StoreCodecs} `{UriCodec} `{CborCodec}.
Abbreviation M := (stm Files StorageError.Error).

(** [SqliteStoreOptions::pool]: the file and its contents.  A pool for a store in
    memory makes a new one. *)
Definition sqlite_pool (o : SqliteStoreOptions) (auto_create : bool) : stm Files ConnectError (string * option Db) := λ fs,
  match file_named (db_path o) with
  | Ok f =>
      match cannot_connect f with
      | Some e => (fs, Err e)
      | None =>
          if in_memory o then (fs, Ok (f, None)) else
          match fs !! f with
          | Some contents => (fs, Ok (f, contents))
          | None => if auto_create then (<[f := None]> fs, Ok (f, None)) else (fs, Err CantOpen)
          end
      end
  | Err cause => (fs, Err (ConnectOther cause))
  | Panic => (fs, Panic)
  end.

(** [try_remove_file]. *)
Definition sqlite_remove_file (path : string) : M bool := λ fs,
  let r := try_remove_file on_windows
    (λ n, default (match fs !! path with Some _ => Removed | None => Missing end) (obstacle path n)) in
  (match r with Ok _ => delete path fs | _ => fs end, r).

(** [SqliteStoreOptions::provision], past the removal of an old file: a new store is in
    the file from then on. *)
Definition sqlite_provision_file (rng : nat → bytes) (new_key : sres ProfileKey) (random_name : string)
    (o : SqliteStoreOptions) (method : StoreKeyMethod) (pass_key : PassKey) (profile : option string)
    (recreate : bool) : M SqliteBackend := λ fs,
  match sqlite_pool o true fs with
  | (fs, Ok (f, contents)) =>
      match (if recreate then contents else None) with
      | Some _ => (fs, Err (backend_err "Error creating database tables" "table config already exists"))
      | None =>
          match provision rng new_key random_name (in_memory o) (db_path o) contents method pass_key profile recreate with
          | Ok b => (if in_memory o then fs else <[f := Some (b_db b)]> fs, Ok b)
          | r => (fs, r)
          end
      end
  | (fs, Err e) => (fs, Err (backend_err "Error creating database pool" (connect_cause e)))
  | (fs, Panic) => (fs, Panic)
  end.

Definition sqlite_provision (rng : nat → bytes) (new_key : sres ProfileKey) (random_name : string)
    (o : SqliteStoreOptions) (method : StoreKeyMethod) (pass_key : PassKey) (profile : option string)
    (recreate : bool) : M SqliteBackend :=
  _ ← (if recreate && negb (in_memory o) then sqlite_remove_file (db_path o) else mret true);
  sqlite_provision_file rng new_key random_name o method pass_key profile recreate.

(** [SqliteStoreOptions::open]. *)
Definition sqlite_open (o : SqliteStoreOptions) (method : option StoreKeyMethod) (pass_key : PassKey)
    (profile : option string) : M SqliteBackend := λ fs,
  match sqlite_pool o false fs with
  | (fs, Ok (_, Some d)) => (fs, open_db d method pass_key profile (db_path o))
  | (fs, Ok (_, None)) => (fs, Err (backend_err "Error fetching store configuration" "no such table: config"))
  | (fs, Err CantOpen) => (fs, Err (err_kind StorageError.NotFound "The requested database path was not found"))
  | (fs, Err (DatabaseError cause)) => (fs, Err (backend_err "Error connecting to database pool" cause))
  | (fs, Err (ConnectOther cause)) => (fs, Err (StorageError.from_sqlx cause))
  | (fs, Panic) => (fs, Panic)
  end.

(** [SqliteStoreOptions::remove]. *)
Definition sqlite_remove (o : SqliteStoreOptions) : M bool :=
  if in_memory o then mret true else sqlite_remove_file (db_path o).
End SqliteFiles.

(** ** The boxed backend *)

(** [dyn BackendSession] and [dyn Backend] over the concrete types there are. *)
Inductive BoxedSession :=
| SqliteSession (w : World Db KeyCache ProfileKey)
| PostgresSession (w : World PgDb KeyCache ProfileKey)
| OdbcSession (w : OdbcWorld).

Inductive BoxedBackend :=
| SqliteStore (b : SqliteBackend)
| PostgresStore (b : PostgresBackend)
| OdbcStore (b : OdbcBackend).

Definition boxed {B X A} (inj : B → X) (m : stm B StorageError.Error A) (b : B) : X * sres A :=
  let '(b', r) := m b in (inj b', r).

Section Boxes.
Context `{HAl : Allocator} `{HH : Hmac} `{HC : AeadCipher} `{HS : StoreCodecs} `{HU : UriCodec} `{HB : CborCodec}.
Context `{HE : SqlEngine} `{HO : OdbcDriver}.
Context (env : Env).

#[local] Instance sqlite_s : BackendSession (World Db KeyCache ProfileKey) := sqlite_session env.
#[local] Instance pg_s : BackendSession (World PgDb KeyCache ProfileKey) := pg_session env.
#[local] Instance odbc_s : BackendSession OdbcWorld := odbc_session env.

(** The virtual call of a method. *)
Definition dyn_session {A} (sq : stm (World Db KeyCache ProfileKey) StorageError.Error A)
    (pg : stm (World PgDb KeyCache ProfileKey) StorageError.Error A) (od : stm OdbcWorld StorageError.Error A)
    : stm BoxedSession StorageError.Error A := λ w,
  match w with
  | SqliteSession w => boxed SqliteSession sq w
  | PostgresSession w => boxed PostgresSession pg w
  | OdbcSession w => boxed OdbcSession od w
  end.

Definition dyn_backend {A} (sq : stm SqliteBackend StorageError.Error A) (pg : stm PostgresBackend StorageError.Error A)
    (od : stm OdbcBackend StorageError.Error A) : stm BoxedBackend StorageError.Error A := λ b,
  match b with
  | SqliteStore b => boxed SqliteStore sq b
  | PostgresStore b => boxed PostgresStore pg b
  | OdbcStore b => boxed OdbcStore od b
  end.

#[export] Instance boxed_session : BackendSession BoxedSession := {|
  bs_count kind category tag_filter :=
    dyn_session (bs_count kind category tag_filter) (bs_count kind category tag_filter) (bs_count kind category tag_filter);
  bs_fetch kind category name for_update :=
    dyn_session (bs_fetch kind category name for_update) (bs_fetch kind category name for_update)
      (bs_fetch kind category name for_update);
  bs_fetch_all kind category tag_filter limit order_by descending for_update :=
    dyn_session (bs_fetch_all kind category tag_filter limit order_by descending for_update)
      (bs_fetch_all kind category tag_filter limit order_by descending for_update)
      (bs_fetch_all kind category tag_filter limit order_by descending for_update);
  bs_remove_all kind category tag_filter :=
    dyn_session (bs_remove_all kind category tag_filter) (bs_remove_all kind category tag_filter)
      (bs_remove_all kind category tag_filter);
  bs_update kind operation category name value tags expiry_ms :=
    dyn_session (bs_update kind operation category name value tags expiry_ms)
      (bs_update kind operation category name value tags expiry_ms)
      (bs_update kind operation category name value tags expiry_ms);
  bs_ping := dyn_session bs_ping bs_ping bs_ping;
  bs_close commit := dyn_session (bs_close commit) (bs_close commit) (bs_close commit);
|}.

(** The random choices of the operations on profiles are parameters, as in the backends. *)
Context (new_key : sres ProfileKey) (random_name : string) (rngs : Z → nat → bytes).

#[local] Instance sqlite_b : Backend SqliteBackend (World Db KeyCache ProfileKey) := sqlite_backend env new_key random_name rngs.
#[local] Instance pg_b : Backend PostgresBackend (World PgDb KeyCache ProfileKey) := postgres_backend env new_key random_name rngs.
#[local] Instance odbc_b : Backend OdbcBackend OdbcWorld := odbc_backend env new_key random_name rngs.

(** A session is of the kind of its backend. *)
#[export] Instance boxed_backend : Backend BoxedBackend BoxedSession := {|
  be_sessions := boxed_session;
  be_create_profile name := dyn_backend (be_create_profile name) (be_create_profile name) (be_create_profile name);
  be_get_active_profile b :=
    match b with
    | SqliteStore b => be_get_active_profile b
    | PostgresStore b => be_get_active_profile b
    | OdbcStore b => be_get_active_profile b
    end;
  be_get_default_profile := dyn_backend be_get_default_profile be_get_default_profile be_get_default_profile;
  be_set_default_profile profile :=
    dyn_backend (be_set_default_profile profile) (be_set_default_profile profile) (be_set_default_profile profile);
  be_list_profiles := dyn_backend be_list_profiles be_list_profiles be_list_profiles;
  be_remove_profile name := dyn_backend (be_remove_profile name) (be_remove_profile name) (be_remove_profile name);
  be_scan profile kind category tag_filter offset limit order_by descending :=
    dyn_backend (be_scan profile kind category tag_filter offset limit order_by descending)
      (be_scan profile kind category tag_filter offset limit order_by descending)
      (be_scan profile kind category tag_filter offset limit order_by descending);
  be_session profile transaction b :=
    match b with
    | SqliteStore b => SqliteSession <$> be_session profile transaction b
    | PostgresStore b => PostgresSession <$> be_session profile transaction b
    | OdbcStore b => OdbcSession <$> be_session profile transaction b
    end;
  be_drop_session w b :=
    match w, b with
    | SqliteSession w, SqliteStore b => SqliteStore (be_drop_session w b)
    | PostgresSession w, PostgresStore b => PostgresStore (be_drop_session w b)
    | OdbcSession w, OdbcStore b => OdbcStore (be_drop_session w b)
    | _, _ => b
    end;
  be_visit b w :=
    match w, b with
    | SqliteSession w, SqliteStore b => SqliteSession (be_visit b w)
    | PostgresSession w, PostgresStore b => PostgresSession (be_visit b w)
    | OdbcSession w, OdbcStore b => OdbcSession (be_visit b w)
    | _, _ => w
    end;
  be_rekey method key := dyn_backend (be_rekey method key) (be_rekey method key) (be_rekey method key);
  be_holds w :=
    match w with SqliteSession w => be_holds w | PostgresSession w => be_holds w | OdbcSession w => be_holds w end;
  be_scans_hold b :=
    match b with SqliteStore b => be_scans_hold b | PostgresStore b => be_scans_hold b | OdbcStore b => be_scans_hold b end;
  be_begin_close b :=
    match b with
    | SqliteStore b => SqliteStore (be_begin_close b)
    | PostgresStore b => PostgresStore (be_begin_close b)
    | OdbcStore b => OdbcStore (be_begin_close b)
    end;
  be_close := dyn_backend be_close be_close be_close;
|}.
End Boxes.

(** ** Managing stores by URI *)

(** The file system, a PostgreSQL server and a server behind ODBC. *)
Record Systems := mkSystems {
  sy_files : Files;
  sy_server : PgServer;
  sy_odbc : OdbcPool;
}.

Definition on_files {A} (m : stm Files StorageError.Error A) : stm Systems StorageError.Error A := λ w,
  let '(fs, r) := m (sy_files w) in (mkSystems fs (sy_server w) (sy_odbc w), r).
Definition on_server {A} (m : stm PgServer StorageError.Error A) : stm Systems StorageError.Error A := λ w,
  let '(s, r) := m (sy_server w) in (mkSystems (sy_files w) s (sy_odbc w), r).
Definition on_odbc {A} (m : stm OdbcPool StorageError.Error A) : stm Systems StorageError.Error A := λ w,
  let '(p, r) := m (sy_odbc w) in (mkSystems (sy_files w) (sy_server w) p, r).

Section Managing.
Context `{FileSystem} `{SqliteEnv} `{PgClient} `{OdbcDriver} `{PoolBuilder}.
Context `{Allocator} `{Hmac} `{AeadCipher} `{StoreCodecs} `{UriCodec} `{CborCodec}.
Abbreviation M := (stm Systems StorageError.Error).

(** [ManageBackend for &str], with all the backends built; [order] is the order in which
    a map is iterated. *)
Context (order : gmap string string → list (string * string)).

Definition unsupported_backend (opts : Options) : StorageError.Error :=
  StorageError.from_msg StorageError.Unsupported ("Unsupported backend: " +:+ scheme opts).

Definition any_open (uri : string) (method : option StoreKeyMethod) (pass_key : PassKey) (profile : option string)
    : M (AnyBackend BoxedBackend) :=
  opts ← lift (parse_uri uri);
  if String.eqb (scheme opts) "postgres" then
    opts ← lift (pg_options_new order opts);
    mgr ← on_server (pg_open opts method pass_key profile);
    mret (into_any_backend (PostgresStore mgr))
  else if String.eqb (scheme opts) "sqlite" then
    opts ← lift (sqlite_options_new opts);
    mgr ← on_files (sqlite_open opts method pass_key profile);
    mret (into_any_backend (SqliteStore mgr))
  else if String.eqb (scheme opts) "odbc" then
    opts ← lift (odbc_options_new opts);
    mgr ← on_odbc (odbc_open opts method pass_key profile);
    mret (into_any_backend (OdbcStore mgr))
  else sfail (unsupported_backend opts).

(** The random choices, the file of the schema for ODBC, and what other clients do to the
    PostgreSQL server meanwhile. *)
Definition any_provision (rng : nat → bytes) (new_key : sres ProfileKey) (random_name : string)
    (read_file : string → res string string) (meanwhile : gmap string Schemas → gmap string Schemas)
    (uri : string) (method : StoreKeyMethod) (pass_key : PassKey) (profile : option string) (recreate : bool)
    : M (AnyBackend BoxedBackend) :=
  opts ← lift (parse_uri uri);
  if String.eqb (scheme opts) "postgres" then
    opts ← lift (pg_options_new order opts);
    mgr ← on_server (pg_provision rng new_key random_name meanwhile opts method pass_key profile recreate);
    mret (into_any_backend (PostgresStore mgr))
  else if String.eqb (scheme opts) "sqlite" then
    opts ← lift (sqlite_options_new opts);
    mgr ← on_files (sqlite_provision rng new_key random_name opts method pass_key profile recreate);
    mret (into_any_backend (SqliteStore mgr))
  else if String.eqb (scheme opts) "odbc" then
    opts ← lift (odbc_options_new opts);
    mgr ← on_odbc (odbc_provision rng new_key random_name read_file opts method pass_key profile recreate);
    mret (into_any_backend (OdbcStore mgr))
  else sfail (unsupported_backend opts).

Definition any_remove (uri : string) : M bool :=
  opts ← lift (parse_uri uri);
  if String.eqb (scheme opts) "postgres" then
    opts ← lift (pg_options_new order opts);
    on_server (pg_remove opts)
  else if String.eqb (scheme opts) "sqlite" then
    opts ← lift (sqlite_options_new opts);
    on_files (sqlite_remove opts)
  else if String.eqb (scheme opts) "odbc" then
    opts ← lift (odbc_options_new opts);
    on_odbc (odbc_remove opts)
  else sfail (unsupported_backend opts).

(** The systems the scheme does not name are as they were. *)
Definition elsewhere (opts : Options) (w w' : Systems) : Prop :=
  (scheme opts ≠ "sqlite" → sy_files w' = sy_files w)
  ∧ (scheme opts ≠ "postgres" → sy_server w' = sy_server w)
  ∧ (scheme opts ≠ "odbc" → sy_odbc w' = sy_odbc w).

(** Each call touches the system that the scheme names and no other, and none for an
    unknown scheme, which is refused. *)
Theorem uri_touches_one_system rng new_key random_name read_file meanwhile uri opts method m pass profile recreate w :
  parse_uri uri = Ok opts →
  let opened := any_open uri m pass profile w in
  let provisioned := any_provision rng new_key random_name read_file meanwhile uri method pass profile recreate w in
  let removed := any_remove uri w in
  (elsewhere opts w opened.1 ∧ elsewhere opts w provisioned.1 ∧ elsewhere opts w removed.1)
  ∧ (scheme opts ∉ ["postgres"; "sqlite"; "odbc"] →
      opened = (w, Err (unsupported_backend opts)) ∧ provisioned = (w, Err (unsupported_backend opts))
      ∧ removed = (w, Err (unsupported_backend opts))).
Proof.
  intros Eu opened provisioned removed. unfold opened, provisioned, removed, any_open, any_provision, any_remove.
  rewrite !(lift_bind _ _ _ _ Eu).
  destruct (String.eqb_spec (scheme opts) "postgres") as [Es|Hp]; [|destruct (String.eqb_spec (scheme opts) "sqlite") as [Es|Hs];
    [|destruct (String.eqb_spec (scheme opts) "odbc") as [Es|Ho]]].
  4: { split; [done|]. done. }
  all: split; [|intros Hn; exfalso; apply Hn; rewrite Es; set_solver].
  all: unfold elsewhere; rewrite Es; unfold on_server, on_files, on_odbc, mbind, stm_bind, lift.
  all: split_and!; intros; repeat case_match; by simplify_eq/=.
Qed.

End Managing.

(** ** Boxed sessions keep contracts *)

Section BoxContracts.
Context `{HAl : Allocator} `{HH : Hmac} `{HC : AeadCipher} `{HS : StoreCodecs} `{HU : UriCodec} `{HB : CborCodec}.
Context `{HE : SqlEngine} `{HO : OdbcDriver} (env : Env).

(** A boxed session of SQLite, or of PostgreSQL, keeps the contract of the session in it. *)
Definition boxed_contract {W} `{SW : SessionContract W} (inj : W → BoxedSession)
    (inj_count : ∀ kind c f w, bs_count (BackendSession := boxed_session env) kind c f (inj w) = boxed inj (bs_count kind c f) w)
    (inj_fetch : ∀ kind c n fu w, bs_fetch (BackendSession := boxed_session env) kind c n fu (inj w) = boxed inj (bs_fetch kind c n fu) w)
    (inj_fetch_all : ∀ kind c f l o d fu w,
      bs_fetch_all (BackendSession := boxed_session env) kind c f l o d fu (inj w) = boxed inj (bs_fetch_all kind c f l o d fu) w)
    (inj_remove_all : ∀ kind c f w,
      bs_remove_all (BackendSession := boxed_session env) kind c f (inj w) = boxed inj (bs_remove_all kind c f) w)
    (inj_update : ∀ kind op c n v ts ms w,
      bs_update (BackendSession := boxed_session env) kind op c n v ts ms (inj w) = boxed inj (bs_update kind op c n v ts ms) w)
    : @SessionContract BoxedSession (boxed_session env).
Proof.
  refine {|
    ct_resolution := ct_resolution; ct_env := ct_env; ct_like := ct_like; ct_rep w s := ∃ w0, w = inj w0 ∧ ct_rep w0 s;
    ct_key_ok := ct_key_ok; ct_value_ok := ct_value_ok; ct_tags_ok := ct_tags_ok; ct_filter_ok := ct_filter_ok;
    ct_limit_ok := ct_limit_ok |}.
  - intros ? s kind op c n v ts ms (w & -> & Hr) Hk Hv Ht. destruct (ct_update w s kind op c n v ts ms Hr Hk Hv Ht) as (w' & E & ?).
    exists (inj w'). rewrite inj_update. unfold boxed. rewrite E. eauto.
  - intros ? s kind c n fu (w & -> & Hr) Hk. destruct (ct_fetch w s kind c n fu Hr Hk) as (w' & E & ?).
    exists (inj w'). rewrite inj_fetch. unfold boxed. rewrite E. eauto.
  - intros ? s kind c f (w & -> & Hr) Hc Hf. destruct (ct_count w s kind c f Hr Hc Hf) as (w' & E & ?).
    exists (inj w'). rewrite inj_count. unfold boxed. rewrite E. eauto.
  - intros ? s kind c f limit order_by descending fu (w & -> & Hr) Hc Hf Hl.
    destruct (ct_fetch_all w s kind c f limit order_by descending fu Hr Hc Hf Hl) as (w' & l & E & Hp & ?).
    exists (inj w'), l. rewrite inj_fetch_all. unfold boxed. rewrite E. eauto.
  - intros ? s kind c f (w & -> & Hr) Hc Hf. destruct (ct_remove_all w s kind c f Hr Hc Hf) as (w' & E & ?).
    exists (inj w'). rewrite inj_remove_all. unfold boxed. rewrite E. eauto.
Defined.

Definition boxed_sqlite_contract (SW : @SessionContract _ (sqlite_session env)) : @SessionContract BoxedSession (boxed_session env) :=
  boxed_contract (SW := SW) SqliteSession (λ _ _ _ _, eq_refl) (λ _ _ _ _ _, eq_refl) (λ _ _ _ _ _ _ _ _, eq_refl)
    (λ _ _ _ _, eq_refl) (λ _ _ _ _ _ _ _ _, eq_refl).

Definition boxed_pg_contract (SW : @SessionContract _ (pg_session env)) : @SessionContract BoxedSession (boxed_session env) :=
  boxed_contract (SW := SW) PostgresSession (λ _ _ _ _, eq_refl) (λ _ _ _ _ _, eq_refl) (λ _ _ _ _ _ _ _ _, eq_refl)
    (λ _ _ _ _, eq_refl) (λ _ _ _ _ _ _ _ _, eq_refl).
End BoxContracts.

(** ** A store by its URI *)

Section ByUri.
Context `{HF : FileSystem} `{HSE : SqliteEnv} `{HPg : PgClient} `{HO : OdbcDriver} `{HPB : PoolBuilder}.
Context `{HAl : Allocator} `{HH : Hmac} `{HC : AeadCipher} {laws : CipherLaws}.
Context `{HS : StoreCodecs} {SL : StoreCodecLaws} `{HU : UriCodec} {UL : UriCodecLaws} `{HB : CborCodec}.
Context (order : gmap string string → list (string * string)).
Context (rng : nat → bytes) (pk : ProfileKey) (random_name : string) (read_file : string → res string string).
Context (meanwhile : gmap string Schemas → gmap string Schemas).
Context (method : StoreKeyMethod) (pass : PassKey) (profile : option string) (recreate : bool) (sk : StoreKey).
Context (ref : StoreKeyReference).
Hypothesis rng_length : ∀ n, length (rng n) = n.
Hypothesis pk_portable : key_portable pk.
Hypothesis raw_pass : method = StoreKeyMethod.RawKey → pass_is_empty pass = false.
Hypothesis resolved : method_resolve method rng pass = Ok (sk, ref).

Abbreviation name := (default random_name profile).
Abbreviation cache := (add_profile name 1 pk (key_cache_new sk)).

(** A path that is the file it names, which can be opened and removed. *)
Definition plain_file (f : string) : Prop := file_named f = Ok f ∧ cannot_connect f = None ∧ obstacle f 0 = None.

(** There is no store in the file, or it is to be made again. *)
Definition file_vacant (f : string) (fs : Files) : Prop := recreate = true ∨ fs !! f = None ∨ fs !! f = Some None.

Lemma remove_plain f (fs : Files) : plain_file f →
  sqlite_remove_file f fs = (delete f fs, Ok (bool_decide (is_Some (fs !! f)))).
Proof.
  intros (_ & _ & Ho). unfold sqlite_remove_file, try_remove_file. cbn [remove_loop]. rewrite Ho. cbn [default from_option].
  by destruct (fs !! f).
Qed.

Lemma pool_plain o auto_create (fs : Files) : plain_file (db_path o) → in_memory o = false →
  sqlite_pool o auto_create fs =
  match fs !! db_path o with
  | Some contents => (fs, Ok (db_path o, contents))
  | None => if auto_create then (<[db_path o := None]> fs, Ok (db_path o, None)) else (fs, Err CantOpen)
  end.
Proof. intros (Hn & Hc & _) Hm. unfold sqlite_pool. by rewrite Hn, Hc, Hm. Qed.

(** The file of a new store. *)
Lemma sqlite_file_run o m (fs : Files) : plain_file (db_path o) → in_memory o = false → file_vacant (db_path o) fs →
  m = None ∨ m = Some method →
  ∃ fs' b, sqlite_provision rng (Ok pk) random_name o method pass profile recreate fs = (fs', Ok b)
    ∧ active_profile b = name ∧ sqlite_open o m pass profile fs' = (fs', Ok b)
    ∧ sqlite_remove o fs' = (delete (db_path o) fs', Ok true)
    ∧ sqlite_open o m pass profile (delete (db_path o) fs')
      = (delete (db_path o) fs', Err (err_kind StorageError.NotFound "The requested database path was not found"))
    ∧ ∀ f, f ≠ db_path o → fs' !! f = fs !! f.
Proof.
  intros Hp Him Hv Hm.
  destruct (provision_run rng pk random_name false (db_path o) method pass profile sk ref rng_length pk_portable raw_pass resolved)
    as (enc & Ep & Hload).
  destruct (resolve_reopen method rng pass sk ref rng_length raw_pass resolved) as (ref' & Eu & Hc & Ers).
  set (b := mkBackend (init_tables name (ref_into_uri ref) enc) (PoolOpen []) name cache (db_path o)) in *.
  assert (∃ fs1, sqlite_provision rng (Ok pk) random_name o method pass profile recreate fs
    = (<[db_path o := Some (b_db b)]> fs1, Ok b) ∧ ∀ f, f ≠ db_path o → fs1 !! f = fs !! f) as (fs1 & E & Ho).
  { unfold sqlite_provision, file_vacant in *. rewrite Him. destruct recreate; cbn [andb negb].
    - rewrite (stm_bind_ok _ _ _ _ _ (remove_plain _ fs Hp)). exists (<[db_path o := None]> (delete (db_path o) fs)). split.
      + unfold sqlite_provision_file. rewrite pool_plain, lookup_delete_eq, Him by done. unfold provision in *. cbn [andb negb] in *.
        by rewrite Ep.
      + intros f Hf. by rewrite lookup_insert_ne, lookup_delete_ne.
    - unfold sqlite_provision_file, mbind, stm_bind. cbn. rewrite pool_plain by done. rewrite Him.
      destruct Hv as [Hv|[-> | ->]]; [done|exists (<[db_path o := None]> fs)|exists fs]; rewrite Ep; split; try done.
      intros f Hf. by rewrite lookup_insert_ne. }
  exists (<[db_path o := Some (b_db b)]> fs1), b. split_and!; [exact E|done|..].
  - unfold sqlite_open. rewrite pool_plain, lookup_insert_eq by done. f_equal.
    apply (open_run m pass profile (db_path o) _ _ _ sk ref' pk m); try done; [by destruct Hm as [-> | ->]|by destruct profile].
  - unfold sqlite_remove. rewrite Him, remove_plain by done. do 2 f_equal. apply bool_decide_eq_true_2. by rewrite lookup_insert_eq.
  - unfold sqlite_open. by rewrite pool_plain, lookup_delete_eq by done.
  - intros f Hf. rewrite lookup_insert_ne by done. by apply Ho.
Qed.

(** Nothing is in the way on the system the scheme names. *)
Definition system_ready (opts : Options) (w : Systems) : Prop :=
  (scheme opts = "postgres" ∧ ∃ o rest, pg_options_new order opts = Ok o
     ∧ srv_faults (sy_server w) = [] ∧ (0 < po_max_connections o)%Z ∧ uri_database (po_uri o) = po_name o
     ∧ search_path o = default (po_username o) (po_schema o) :: rest
     ∧ vacant o recreate (databases (sy_server w)) ∧ (∀ dbs, vacant o recreate dbs → vacant o recreate (meanwhile dbs)))
  ∨ (scheme opts = "sqlite" ∧ ∃ o, sqlite_options_new opts = Ok o ∧ in_memory o = false ∧ plain_file (db_path o)
     ∧ file_vacant (db_path o) (sy_files w))
  ∨ (scheme opts = "odbc" ∧ ∃ o d, odbc_options_new opts = Ok o ∧ builder_panics o = false
     ∧ sy_odbc w = resting d [] ∧ od_vacant recreate d ∧ read_file (oo_schema_file o) = Ok DB2_SCHEMA
     ∧ (String.length name ≤ name_width)%nat).

(** Where the scheme leads. *)
Lemma uri_postgres uri opts o m w : parse_uri uri = Ok opts → scheme opts = "postgres" → pg_options_new order opts = Ok o →
  any_open order uri m pass profile w =
    (let '(s, r) := pg_open o m pass profile (sy_server w) in (mkSystems (sy_files w) s (sy_odbc w), into_any_backend ∘ PostgresStore <$> r))
  ∧ any_provision order rng (Ok pk) random_name read_file meanwhile uri method pass profile recreate w =
    (let '(s, r) := pg_provision rng (Ok pk) random_name meanwhile o method pass profile recreate (sy_server w) in (mkSystems (sy_files w) s (sy_odbc w), into_any_backend ∘ PostgresStore <$> r))
  ∧ any_remove order uri w = (let '(s, r) := pg_remove o (sy_server w) in (mkSystems (sy_files w) s (sy_odbc w), r)).
Proof.
  intros Eu Es Eo. unfold any_open, any_provision, any_remove. rewrite !(lift_bind _ _ _ _ Eu), Es.
  cbn [String.eqb Ascii.eqb Bool.eqb]. rewrite !(lift_bind _ _ _ _ Eo).
  unfold on_server, mbind, stm_bind. split_and!; by repeat case_match; simplify_eq.
Qed.

Lemma uri_sqlite uri opts o m w : parse_uri uri = Ok opts → scheme opts = "sqlite" → sqlite_options_new opts = Ok o →
  any_open order uri m pass profile w =
    (let '(s, r) := sqlite_open o m pass profile (sy_files w) in (mkSystems s (sy_server w) (sy_odbc w), into_any_backend ∘ SqliteStore <$> r))
  ∧ any_provision order rng (Ok pk) random_name read_file meanwhile uri method pass profile recreate w =
    (let '(s, r) := sqlite_provision rng (Ok pk) random_name o method pass profile recreate (sy_files w) in (mkSystems s (sy_server w) (sy_odbc w), into_any_backend ∘ SqliteStore <$> r))
  ∧ any_remove order uri w = (let '(s, r) := sqlite_remove o (sy_files w) in (mkSystems s (sy_server w) (sy_odbc w), r)).
Proof.
  intros Eu Es Eo. unfold any_open, any_provision, any_remove. rewrite !(lift_bind _ _ _ _ Eu), Es.
  cbn [String.eqb Ascii.eqb Bool.eqb]. rewrite !(lift_bind _ _ _ _ Eo).
  unfold on_files, mbind, stm_bind. split_and!; by repeat case_match; simplify_eq.
Qed.

Lemma uri_odbc uri opts o m w : parse_uri uri = Ok opts → scheme opts = "odbc" → odbc_options_new opts = Ok o →
  any_open order uri m pass profile w =
    (let '(s, r) := odbc_open o m pass profile (sy_odbc w) in (mkSystems (sy_files w) (sy_server w) s, into_any_backend ∘ OdbcStore <$> r))
  ∧ any_provision order rng (Ok pk) random_name read_file meanwhile uri method pass profile recreate w =
    (let '(s, r) := odbc_provision rng (Ok pk) random_name read_file o method pass profile recreate (sy_odbc w) in (mkSystems (sy_files w) (sy_server w) s, into_any_backend ∘ OdbcStore <$> r))
  ∧ any_remove order uri w = (let '(s, r) := odbc_remove o (sy_odbc w) in (mkSystems (sy_files w) (sy_server w) s, r)).
Proof.
  intros Eu Es Eo. unfold any_open, any_provision, any_remove. rewrite !(lift_bind _ _ _ _ Eu), Es.
  cbn [String.eqb Ascii.eqb Bool.eqb]. rewrite !(lift_bind _ _ _ _ Eo).
  unfold on_odbc, mbind, stm_bind. split_and!; by repeat case_match; simplify_eq.
Qed.

(** The profile a backend of any kind works on. *)
Definition boxed_active_profile (b : BoxedBackend) : string :=
  match b with
  | SqliteStore b => active_profile b
  | PostgresStore b => pb_active_profile b
  | OdbcStore b => ob_active b
  end.

(** C8: A store named by a URI, of whichever system: with nothing in the way it is provisioned
    and opened again, by the same method or without naming one, as the same backend with
    the profile asked for; it is removed, and opening it then fails, with NotFound but for
    ODBC.  The systems that the scheme does not name are not touched. *)
Theorem store_by_uri uri opts m w : parse_uri uri = Ok opts → system_ready opts w → m = None ∨ m = Some method →
  ∃ w1 w2 b e,
    any_provision order rng (Ok pk) random_name read_file meanwhile uri method pass profile recreate w
      = (w1, Ok (into_any_backend b))
    ∧ boxed_active_profile b = name
    ∧ any_open order uri m pass profile w1 = (w1, Ok (into_any_backend b))
    ∧ any_remove order uri w1 = (w2, Ok true)
    ∧ any_open order uri m pass profile w2 = (w2, Err e)
    ∧ StorageError.kind e = (if String.eqb (scheme opts) "odbc" then StorageError.Unsupported else StorageError.NotFound)
    ∧ elsewhere opts w w1 ∧ elsewhere opts w w2.
Proof.
  intros Eu [(Es & o & rest & Eo & Hf & Hmax & En & Hp & Hv & Hmw)|[(Es & o & Eo & Him & Hpf & Hv)|
    (Es & o & d & Eo & Hb & Hod & Hv & Hread & Hlen)]] Hm; unfold elsewhere; rewrite Es.
  - pose proof (λ w, uri_postgres uri opts o m w Eu Es Eo) as Hu.
    destruct (pg_provision_run o rng pk random_name meanwhile method pass profile recreate sk ref m rest (sy_server w)
      Hf Hmax En Hp Hv Hmw rng_length pk_portable raw_pass resolved Hm) as (s' & enc & _ & E & Eop & _ & _ & Hf' & Hd').
    destruct (pg_remove_run o m pass profile s' Hf' Hmax En Hd') as (s2 & Er & Eno).
    eexists (mkSystems (sy_files w) s' (sy_odbc w)), (mkSystems (sy_files w) s2 (sy_odbc w)), (PostgresStore _), _.
    split_and!; [rewrite (proj1 (proj2 (Hu _))), E; reflexivity|done|rewrite (proj1 (Hu _)); cbn [sy_server]; rewrite Eop; reflexivity
      |rewrite (proj2 (proj2 (Hu _))); cbn [sy_server]; rewrite Er; reflexivity
      |rewrite (proj1 (Hu _)); cbn [sy_server]; rewrite Eno; reflexivity|done..].
  - pose proof (λ w, uri_sqlite uri opts o m w Eu Es Eo) as Hu.
    destruct (sqlite_file_run o m (sy_files w) Hpf Him Hv Hm) as (fs' & b & E & Ha & Eop & Er & Eno & _).
    eexists (mkSystems fs' (sy_server w) (sy_odbc w)), (mkSystems (delete (db_path o) fs') (sy_server w) (sy_odbc w)), (SqliteStore b), _.
    split_and!; [rewrite (proj1 (proj2 (Hu _))), E; reflexivity|done|rewrite (proj1 (Hu _)); cbn [sy_files]; rewrite Eop; reflexivity
      |rewrite (proj2 (proj2 (Hu _))); cbn [sy_files]; rewrite Er; reflexivity
      |rewrite (proj1 (Hu _)); cbn [sy_files]; rewrite Eno; reflexivity|done..].
  - pose proof (λ w, uri_odbc uri opts o m w Eu Es Eo) as Hu.
    destruct (odbc_provision_run o rng pk random_name read_file method pass profile recreate sk ref d Hb Hv Hread Hlen rng_length
      pk_portable raw_pass resolved) as (enc & E & Hload).
    pose proof (odbc_reopen o rng pk random_name method pass profile sk ref m enc Hb rng_length raw_pass resolved Hm Hload) as Eop.
    destruct (odbc_remove_run o name (ref_into_uri ref) enc m pass profile Hb) as (p & Er & Eno).
    eexists (mkSystems (sy_files w) (sy_server w) _), (mkSystems (sy_files w) (sy_server w) p), (OdbcStore _), _.
    split_and!; [rewrite (proj1 (proj2 (Hu _))), Hod, E; reflexivity|done|rewrite (proj1 (Hu _)); cbn [sy_odbc]; rewrite Eop; reflexivity
      |rewrite (proj2 (proj2 (Hu _))); cbn [sy_odbc]; rewrite Er; reflexivity
      |rewrite (proj1 (Hu _)); cbn [sy_odbc]; rewrite Eno; reflexivity|done..].
Qed.
End ByUri.

(** ** Sessions behind the boxes *)

Section Transparent.
Context `{HAl : Allocator} `{HH : Hmac} `{HC : AeadCipher} `{HS : StoreCodecs} `{HU : UriCodec} `{HB : CborCodec}.
Context `{HE : SqlEngine} `{HO : OdbcDriver} (env : Env).

(** The two boxes around a session of a store opened by URI. *)
Definition boxed_twice (w : BoxedSession) : AnyBackendSession (AnyBackendSession BoxedSession) := mkAnySession (mkAnySession w).

#[local] Instance boxed_s : BackendSession BoxedSession := boxed_session env.

(** A step whose operation is forwarded is forwarded. *)
Lemma step_boxed `{SX : BackendSession X} `{SY : BackendSession Y} (inj : X → Y) :
  (∀ kind c f w, bs_count kind c f (inj w) = boxed inj (bs_count kind c f) w) →
  (∀ kind c n fu w, bs_fetch kind c n fu (inj w) = boxed inj (bs_fetch kind c n fu) w) →
  (∀ kind c f w, bs_remove_all kind c f (inj w) = boxed inj (bs_remove_all kind c f) w) →
  (∀ kind op c n v ts ms w, bs_update kind op c n v ts ms (inj w) = boxed inj (bs_update kind op c n v ts ms) w) →
  ∀ ops w, s_run ops (inj w) = (let '(w', rs) := s_run ops w in (inj w', rs)).
Proof.
  intros Hc Hf Hr Hu ops. induction ops as [|op ops IH]; intros w; [done|]. cbn [s_run].
  assert (s_step op (inj w) = boxed inj (s_step op) w) as ->.
  { destruct op; unfold s_step, boxed, mbind, stm_bind; rewrite ?Hc, ?Hf, ?Hr, ?Hu; unfold boxed;
      match goal with |- context [let '(_, _) := ?m in _] => by destruct m as [? []] end. }
  unfold boxed. destruct (s_step op w) as [w1 r]. rewrite IH. by destruct (s_run ops w1).
Qed.

Lemma twice_run `{SX : BackendSession X} ops (w : X) :
  s_run ops (mkAnySession (mkAnySession w)) = (let '(w', rs) := s_run ops w in (mkAnySession (mkAnySession w'), rs)).
Proof.
  rewrite (step_boxed mkAnySession) by done. rewrite (step_boxed mkAnySession) by done.
  by destruct (s_run ops w).
Qed.

(** Through the boxes of any backend the operations of a session of each kind do and return
    what they do in the session itself. *)
Theorem boxes_transparent ops :
  (∀ w, s_run ops (boxed_twice (SqliteSession w)) =
     let '(w', rs) := s_run (H := sqlite_session env) ops w in (boxed_twice (SqliteSession w'), rs))
  ∧ (∀ w, s_run ops (boxed_twice (PostgresSession w)) =
     let '(w', rs) := s_run (H := pg_session env) ops w in (boxed_twice (PostgresSession w'), rs))
  ∧ (∀ w, s_run ops (boxed_twice (OdbcSession w)) =
     let '(w', rs) := s_run (H := odbc_session env) ops w in (boxed_twice (OdbcSession w'), rs)).
Proof.
  split_and!; intros w; unfold boxed_twice; rewrite twice_run.
  - rewrite (step_boxed (SX := sqlite_session env) SqliteSession) by done. by destruct (s_run ops w).
  - rewrite (step_boxed (SX := pg_session env) PostgresSession) by done. by destruct (s_run ops w).
  - rewrite (step_boxed (SX := odbc_session env) OdbcSession) by done. by destruct (s_run ops w).
Qed.
End Transparent.

(** ** Examples: plain files, and the systems of the other files *)

Definition toy_file_system : FileSystem := {|
  file_named f := Ok f; cannot_connect _ := None; obstacle _ _ := None; on_windows := false |}.

Definition toy_systems : Systems := mkSystems ∅ toy_pg_server (resting blank_odbc []).
Definition toy_opened := @any_open toy_file_system toy_sqlite_env toy_pg_client toy_builder demo_allocator toy_cipher
  toy_codecs demo_codec toy_cbor map_to_list.
Definition toy_provisioned := @any_provision toy_file_system toy_sqlite_env toy_pg_client toy_odbc toy_builder demo_allocator
  toy_cipher toy_codecs demo_codec toy_cbor map_to_list toy_rng (Ok toy_profile_key) "main" toy_read_file toy_meanwhile.
Definition toy_removed := @any_remove toy_file_system toy_sqlite_env toy_builder demo_codec map_to_list.

Lemma store_by_uri_witness :
  ∃ w1 w2 b e,
    toy_provisioned "sqlite://a.db" toy_method (pass_from "pass") None true toy_systems = (w1, Ok (into_any_backend b))
    ∧ boxed_active_profile b = "main"
    ∧ toy_opened "sqlite://a.db" None (pass_from "pass") None w1 = (w1, Ok (into_any_backend b))
    ∧ toy_removed "sqlite://a.db" w1 = (w2, Ok true)
    ∧ toy_opened "sqlite://a.db" None (pass_from "pass") None w2 = (w2, Err e)
    ∧ StorageError.kind e = StorageError.NotFound
    ∧ sy_server w2 = toy_pg_server.
Proof.
  pose proof (@store_by_uri toy_file_system toy_sqlite_env toy_pg_client toy_odbc toy_builder demo_allocator toy_cipher
    toy_cipher_laws toy_codecs toy_codecs_laws demo_codec demo_codec_laws toy_cbor map_to_list toy_rng toy_profile_key
    "main" toy_read_file toy_meanwhile toy_method (pass_from "pass") None true toy_store_key toy_reference toy_rng_length
    toy_key_portable ltac:(discriminate) ltac:(vm_compute; reflexivity) "sqlite://a.db"
    (mkOptions "sqlite" "" "" "a.db" "" ∅ "") None toy_systems) as E.
  destruct E as (w1 & w2 & b & e & E1 & E2 & E3 & E4 & E5 & E6 & _ & E7).
  - vm_compute. reflexivity.
  - right. left. split; [reflexivity|]. eexists. split_and!; [vm_compute; reflexivity|reflexivity|repeat split|by left].
  - by left.
  - exists w1, w2, b, e. split_and!; [exact E1|exact E2|exact E3|exact E4|exact E5|exact E6|].
    apply E7. discriminate.
Defined.

Lemma uri_touches_one_system_witness :
  toy_removed "mysql://h/d" toy_systems
  = (toy_systems, Err (StorageError.from_msg StorageError.Unsupported "Unsupported backend: mysql")).
Proof.
  pose proof (@uri_touches_one_system toy_file_system toy_sqlite_env toy_pg_client toy_odbc toy_builder demo_allocator toy_cipher
    toy_codecs demo_codec toy_cbor map_to_list toy_rng (Ok toy_profile_key) "main" toy_read_file toy_meanwhile "mysql://h/d"
    (mkOptions "mysql" "" "" "h" "/d" ∅ "") toy_method None (pass_from "pass") None true toy_systems) as E.
  destruct E as [_ E]; [vm_compute; reflexivity|]. apply E. set_solver.
Defined.
