(* ===== verification/JwkAttrs.v ===== *)
(** * Attributes of JSON web keys

    The encoding of a key to any encoder as a list of attributes, what the encoders
    of jwk/encode.rs make of such a list, and the reading of a key from text
    (askar-crypto/src/jwk/mod.rs and parts.rs).  The JSON reader and the base64
    alphabet are third-party crates: parameters. *)

From S2P Require Import Prelude Errors Buffers KeyAlg Kdf Jwk Wql.
Local Open Scope string_scope.
Local Open Scope list_scope.

(** ** Attributes *)

Inductive attr_value :=
| AStr (s : string)
| ABase64 (b : bytes).

Definition add_attr `{JwkEncoder E} (a : string * attr_value) (e : E) : cres E :=
  match a with
  | (k, AStr s) => add_str k s e
  | (k, ABase64 b) => add_as_base64 k b e
  end.

Fixpoint add_attrs `{JwkEncoder E} (l : list (string * attr_value)) (e : E) : cres E :=
  match l with
  | [] => mret e
  | a :: l => e ← add_attr a e; add_attrs l e
  end.

Lemma add_attrs_app `{JwkEncoder E} l1 l2 e :
  add_attrs (l1 ++ l2) e = (e ← add_attrs l1 e; add_attrs l2 e).
Proof.
  revert e. induction l1 as [|a l1 IH]; intros e; [done|]. cbn [app add_attrs].
  destruct (add_attr a e); cbn; [apply IH|done|done].
Qed.

(** Encoders keep their mode and algorithm. *)
Class EncoderLaws (E : Type) `{JwkEncoder E} := {
  add_attr_keeps a e e' : add_attr a e = Ok e' → enc_mode e' = enc_mode e ∧ enc_alg e' = enc_alg e;
}.

Lemma add_attrs_keeps `{EncoderLaws E} l e e' :
  add_attrs l e = Ok e' → enc_mode e' = enc_mode e ∧ enc_alg e' = enc_alg e.
Proof.
  revert e. induction l as [|a l IH]; intros e Hl; [by injection Hl as ->|].
  cbn [add_attrs] in Hl. bind_inv Hl. apply add_attr_keeps in E0 as [<- <-]. by apply IH.
Qed.

(** The value as it is written. *)
Definition attr_bytes (base64 : bytes → bytes) (v : attr_value) : bytes :=
  match v with AStr s => as_bytes s | ABase64 b => base64 b end.
Definition attr_pairs (base64 : bytes → bytes) (l : list (string * attr_value)) : list (string * bytes) :=
  List.map (λ '(k, v), (k, attr_bytes base64 v)) l.
Definition attr_members (base64 : bytes → bytes) (l : list (string * attr_value)) : list (string * JsonValue) :=
  List.map (λ '(k, v), (k, JString (string_of_bytes (attr_bytes base64 v)))) l.

(** ** The buffer encoder *)

Lemma attrs_text_snoc l k v : l ≠ [] →
  attrs_text (l ++ [(k, v)]) = attrs_text l ++ [x2c] ++ attr_text k v.
Proof.
  induction l as [|[k1 v1] l IH]; [done|]. intros _. destruct l as [|[k2 v2] l]; [done|].
  change (((k1, v1) :: (k2, v2) :: l) ++ [(k, v)]) with ((k1, v1) :: ((k2, v2) :: l) ++ [(k, v)]).
  cbn [attrs_text app] in *. rewrite IH by done. by rewrite <- !app_assoc.
Qed.

#[export] Instance buffer_encoder_laws `{LawfulWrite B} base64 :
  EncoderLaws (JwkBufferEncoder B) (H := buffer_encoder base64).
Proof.
  constructor. intros [k [s|b]] e e'; cbn [add_attr add_str add_as_base64 buffer_encoder].
  all: unfold buffer_add_str, buffer_add_as_base64, write_hex_buffer, start_attr, enc_write.
  all: intros Hl; repeat (bind_inv Hl); injection Hl as <-; cbn [enc_mode enc_alg buffer_encoder].
  all: repeat match goal with
       | H : map_err _ ?r = Ok _ |- _ => destruct r eqn:?; cbn in H; simplify_eq
       | H : (if ?c then _ else _) = Ok _ |- _ => destruct c
       | H : (_ ≫= _) = Ok _ |- _ => bind_inv H
       | H : mret _ = Ok _ |- _ => injection H as <-
       end; done.
Qed.

Section BufferAttrs.
Context `{LawfulWrite B} (base64 : bytes → bytes).
#[local] Instance text_encoder : JwkEncoder (JwkBufferEncoder B) := buffer_encoder base64.

Lemma add_attr_run a e : wb_ok (e_buffer e) →
  ∃ e', add_attr a e = Ok e' ∧ e_empty e' = false
    ∧ extends ((if e_empty e then [x7b] else [x2c]) ++ attr_text a.1 (attr_bytes base64 a.2)) e e'.
Proof. destruct a as [k [s|b]]; [apply add_str_run|apply add_base64_run]. Qed.

(** Adding attributes to an encoder that has some already. *)
Lemma add_attrs_more l e : wb_ok (e_buffer e) → e_empty e = false →
  ∃ e', add_attrs l e = Ok e' ∧ e_empty e' = false
    ∧ extends (concat (List.map (λ a, [x2c] ++ attr_text a.1 (attr_bytes base64 a.2)) l)) e e'.
Proof.
  revert e. induction l as [|a l IH]; intros e Hb He.
  - exists e. split_and!; [done..|]. cbn [List.map concat]. unfold extends. by rewrite app_nil_r.
  - cbn [add_attrs]. destruct (add_attr_run a e Hb) as (e1 & -> & He1 & X1). cbn [mbind res_bind].
    rewrite He in X1. destruct (IH e1 (proj1 X1) He1) as (e2 & -> & He2 & X2).
    exists e2. split_and!; [done..|]. exact (extends_trans _ _ _ _ _ X1 X2).
Qed.

Lemma attrs_text_cons a l :
  attrs_text (attr_pairs base64 (a :: l)) =
  attr_text a.1 (attr_bytes base64 a.2)
  ++ concat (List.map (λ a, [x2c] ++ attr_text a.1 (attr_bytes base64 a.2)) l).
Proof.
  revert a. induction l as [|b l IH]; intros [k v].
  - cbn. by rewrite app_nil_r.
  - specialize (IH b). destruct b as [k2 v2]. cbn [attr_pairs List.map attrs_text] in *.
    unfold attr_pairs in *. cbn [List.map concat fst snd] in *. rewrite IH. by rewrite <- !app_assoc.
Qed.

(** A new encoder given attributes, closed: the text of the object. *)
Lemma encode_attrs_text l b mode a : wb_ok b → l ≠ [] →
  ∃ e b', add_attrs l (with_alg a (encoder_new b mode)) = Ok e ∧ finalize e = Ok b' ∧ wb_ok b'
    ∧ wb_contents b' = wb_contents b ++ object_text (attr_pairs base64 l).
Proof.
  intros Hb Hl. destruct l as [|at1 l]; [done|]. cbn [add_attrs].
  destruct (add_attr_run at1 (with_alg a (encoder_new b mode)) Hb) as (e1 & -> & He1 & X1).
  cbn [mbind res_bind]. destruct (add_attrs_more l e1 (proj1 X1) He1) as (e & -> & He & X2).
  pose proof (extends_trans _ _ _ _ _ X1 X2) as (Hb' & Hc & _ & _ & Ho & Hk).
  destruct (finalize_run e Hb' He Ho Hk) as (b' & Ef & Hbf & Hcf).
  exists e, b'. split_and!; [done..|]. rewrite Hcf, Hc, <- !app_assoc. f_equal.
  cbn [e_empty with_alg encoder_new]. unfold object_text. rewrite attrs_text_cons. by rewrite <- !app_assoc.
Qed.
End BufferAttrs.

(** ** The map encoder *)

#[export] Instance map_encoder_laws base64 accepts : EncoderLaws MapEncoder (H := map_encoder base64 accepts).
Proof.
  constructor. intros [k [s|b]] e e'; cbn [add_attr add_str add_as_base64 map_encoder].
  - unfold map_add_str, serialize_entry. destruct (accepts _); [|done]. by intros [= <-].
  - unfold map_add_as_base64, serialize_entry. intros Hl. bind_inv Hl.
    destruct (accepts _) in Hl; [|done]. by injection Hl as <-.
Qed.

(** The longest value an attribute may have in base64. *)
Definition attr_fits (base64 : bytes → bytes) (a : string * attr_value) : Prop :=
  match a.2 with AStr _ => True | ABase64 b => (length (base64 b) ≤ 256)%nat end.

Lemma map_add_attrs base64 l e : Forall (attr_fits base64) l →
  add_attrs (H := map_encoder base64 (λ _, true)) l e
  = Ok (mkMapEncoder (m_mode e) (m_alg e) (m_map e ++ attr_members base64 l)).
Proof.
  intros Hl. revert e. induction Hl as [|a l Ha _ IH]; intros [mode alg ms].
  - cbn. by rewrite app_nil_r.
  - cbn [add_attrs].
    assert (add_attr (H := map_encoder base64 (λ _, true)) a (mkMapEncoder mode alg ms)
      = Ok (mkMapEncoder mode alg (ms ++ [(a.1, JString (string_of_bytes (attr_bytes base64 a.2)))]))) as ->.
    { destruct a as [k [s|b]]; cbn [add_attr add_str add_as_base64 map_encoder fst snd attr_bytes].
      - unfold map_add_str. cbn. by rewrite string_of_as_bytes.
      - unfold map_add_as_base64, attr_fits in *. cbn in Ha.
        destruct (writer_write_spec (base64 b) (from_slice (replicate 256 x00))) as (w & -> & Ew & _);
          [cbn; lia..|]. cbn [as_ref slice_writer_buffer from_slice w_pos w_inner take app] in Ew.
        cbn. cbn [as_ref slice_writer_buffer] in *. by rewrite Ew. }
    cbn [mbind res_bind]. rewrite IH. cbn [m_mode m_alg m_map].
    do 2 f_equal. rewrite <- app_assoc. f_equal. by destruct a.
Qed.

(** ** Base64 *)

(** Unpadded base64 in the alphabet for URLs. *)
Class Base64 := {
  base64 : bytes → bytes;
  base64_decode : bytes → nat → option bytes;
  base64_length b : length (base64 b) = ((length b * 4 + 2) / 3)%nat;
  base64_inverse b n : (length b ≤ n)%nat → base64_decode (base64 b) n = Some b;
  base64_decode_fits s n b : base64_decode s n = Some b → (length b ≤ n)%nat;
  (** Letters, digits, hyphen and underscore. *)
  base64_alphabet b : Forall (λ c, (45 ≤ byte_val c ≤ 122)%N ∧ c ≠ x5c) (base64 b);
}.

(** Reading back an attribute that holds [n] bytes. *)
Lemma decode_base64_encoded `{Base64} b n : (length b ≤ n)%nat →
  decode_base64 base64_decode (Some (string_of_bytes (base64 b))) n = Ok b.
Proof.
  intros Hn. unfold decode_base64. rewrite as_bytes_of_string, base64_length.
  rewrite (proj2 (Nat.ltb_ge _ _)).
  - by rewrite base64_inverse.
  - apply Nat.Div0.div_le_mono. lia.
Qed.

(** [if jwk.x.decode_base64(arr)? != arr.len() { Err(..) } else { .. }]. *)
Definition decode_exact `{Base64} (a : option string) (n : nat) : cres bytes :=
  b ← decode_base64 base64_decode a n;
  if negb (length b =? n)%nat then Err (CryptoError.from_kind CryptoError.InvalidKeyData) else mret b.

Lemma decode_exact_encoded `{Base64} b :
  decode_exact (Some (string_of_bytes (base64 b))) (length b) = Ok b.
Proof. unfold decode_exact. rewrite decode_base64_encoded by lia. cbn. by rewrite Nat.eqb_refl. Qed.

Lemma decode_exact_length `{Base64} a n b : decode_exact a n = Ok b → length b = n.
Proof.
  unfold decode_exact. intros Hd. bind_inv Hd. destruct (length a0 =? n)%nat eqn:En; [|done].
  injection Hd as <-. by apply Nat.eqb_eq.
Qed.

Lemma decode_exact_no_panic `{Base64} a n : decode_exact a n ≠ Panic.
Proof.
  unfold decode_exact, decode_base64. destruct a as [s|]; [|done].
  destruct (_ <? _)%nat; [done|]. destruct (base64_decode _ _); [|done]. cbn. by destruct (_ =? _)%nat.
Qed.

(** ** Text *)

(** A byte that stands for itself in a JSON string. *)
Definition json_plain (c : byte) : bool :=
  (32 <=? byte_val c)%N && (byte_val c <=? 126)%N && negb (bool_decide (c = quote)) && negb (bool_decide (c = x5c)).

(** The JSON reader: the members of an object, or the text of the error. *)
Class JsonReader := {
  read_members : bytes → res string (list (string * JsonValue));
  jwk_err_text : JwkErr → string;
  read_object l : l ≠ [] →
    Forall (λ kv, forallb json_plain (as_bytes kv.1) = true ∧ forallb json_plain kv.2 = true) l →
    read_members (object_text l) = Ok (List.map (λ '(k, v), (k, JString (string_of_bytes v))) l);
}.

(** [JwkParts::from_slice]; [try_from_str] is the same on the bytes of the string.
    [unread] is as for [visit_map]. *)
Definition jwk_from_slice `{JsonReader} (unread : res JwkErr ()) (jwk : bytes) : cres JwkParts :=
  map_err (λ c, CryptoError.with_cause (CryptoError.from_msg CryptoError.Invalid "Error parsing JWK") c)
    (ms ← read_members jwk; map_err jwk_err_text (visit_map unread ms)).

Class FromJwk (K : Type) := { from_jwk_parts : JwkParts → cres K }.

Definition from_jwk_slice `{JsonReader} `{FromJwk K} (unread : res JwkErr ()) (jwk : bytes) : cres K :=
  parts ← jwk_from_slice unread jwk; from_jwk_parts parts.
Definition from_jwk `{JsonReader} `{FromJwk K} (unread : res JwkErr ()) (jwk : string) : cres K :=
  from_jwk_slice unread (as_bytes jwk).

Lemma base64_plain `{Base64} b : forallb json_plain (base64 b) = true.
Proof.
  apply forallb_Forall. eapply Forall_impl; [apply base64_alphabet|]. intros c [Hc Hne].
  unfold json_plain. rewrite (proj2 (N.leb_le _ _)), (proj2 (N.leb_le _ _)) by lia.
  rewrite (bool_decide_eq_false_2 (c = x5c)), (bool_decide_eq_false_2 (c = quote)); [done| |done].
  intros ->. unfold quote in Hc. cbn in Hc. lia.
Qed.

(** An attribute whose name and text need no escapes. *)
Definition attr_plain (a : string * attr_value) : Prop :=
  forallb json_plain (as_bytes a.1) = true
  ∧ match a.2 with AStr s => forallb json_plain (as_bytes s) = true | ABase64 _ => True end.

(** The text of attributes is read as the members. *)
Lemma read_attrs `{Base64} `{JsonReader} l : l ≠ [] → Forall attr_plain l →
  read_members (object_text (attr_pairs base64 l)) = Ok (attr_members base64 l).
Proof.
  intros Hne Hl. rewrite read_object.
  - f_equal. unfold attr_pairs, attr_members. rewrite map_map. apply map_ext. by intros [k v].
  - by destruct l as [|[] ?].
  - unfold attr_pairs. rewrite Forall_map. eapply Forall_impl; [exact Hl|]. intros [k [s|b]] [Hk Hv].
    + done.
    + split; [done|]. apply base64_plain.
Qed.

(** ** Exporting a key that encodes as attributes *)

Section ExportAttrs.
Context `{ToJwk K} `{Base64} (key : K) (a : option KeyAlg.t).

(** How the key encodes to a buffer encoder in a mode. *)
Definition encodes_as (B : Type) `{WriteBuffer B} (mode : JwkEncoderMode.t) (l : list (string * attr_value)) : Prop :=
  ∀ e : JwkBufferEncoder B, e_mode e = mode → e_alg e = a →
    encode_jwk (E := JwkBufferEncoder B) (H := buffer_encoder base64) key e
    = add_attrs (H := buffer_encoder base64) l e.

Lemma to_jwk_public_text l : l ≠ [] → encodes_as bytes JwkEncoderMode.PublicKey l →
  to_jwk_public base64 key a = Ok (object_text (attr_pairs base64 l)).
Proof.
  intros Hl He. unfold to_jwk_public. rewrite He by done.
  pose proof (encode_attrs_text base64 l ([] : bytes) JwkEncoderMode.PublicKey a) as X.
  destruct (X I Hl) as (e & b & E1 & E2 & _ & Hc).
  unfold text_encoder in E1. rewrite E1. cbn [mbind res_bind]. rewrite E2. f_equal. exact Hc.
Qed.

Lemma to_jwk_secret_text `{Allocator} l : l ≠ [] → encodes_as SecretBytes JwkEncoderMode.SecretKey l →
  ∃ s, to_jwk_secret base64 key a = Ok s ∧ sec_data s = object_text (attr_pairs base64 l).
Proof.
  intros Hl He. unfold to_jwk_secret. rewrite He by done.
  assert (sec_inv (with_capacity 128)) as Hok by (split; [unfold sec_ok; cbn; lia|constructor]).
  pose proof (encode_attrs_text base64 l (with_capacity 128) JwkEncoderMode.SecretKey a) as X.
  destruct (X Hok Hl) as (e & b & E1 & E2 & _ & Hc).
  unfold text_encoder in E1. rewrite E1. cbn [mbind res_bind]. rewrite E2. exists b. split; [done|exact Hc].
Qed.

Lemma jwk_thumbprint_text `{Digest} `{LawfulWrite B} l (out : B) : l ≠ [] →
  encodes_as HashBuffer JwkEncoderMode.Thumbprint l → wb_ok out → digest_output_size = 32%nat →
  ∃ out', write_jwk_thumbprint base64 key a out = Ok out'
    ∧ wb_contents out' = wb_contents out ++ base64 (digest (object_text (attr_pairs base64 l))).
Proof.
  intros Hl He Ho Hd. unfold write_jwk_thumbprint. rewrite He by done.
  pose proof (encode_attrs_text base64 l (mkHashBuffer []) JwkEncoderMode.Thumbprint a) as X.
  destruct (X I Hl) as (e & h & E1 & E2 & _ & Hc).
  unfold text_encoder in E1. rewrite E1. cbn [mbind res_bind]. rewrite E2. cbn [mbind res_bind].
  change (hashed h = object_text (attr_pairs base64 l)) in Hc. rewrite Hc.
  rewrite base64_length, digest_size, Hd. cbn [Nat.mul Nat.add Nat.div Nat.divmod fst Nat.ltb Nat.leb].
  destruct (wb_write_spec out (base64 (digest (object_text (attr_pairs base64 l)))) Ho) as (out' & E & _ & Eo).
  by exists out'.
Qed.
End ExportAttrs.

(** Reading the text of attributes whose members are those of a key. *)
Lemma from_jwk_text `{Base64} `{JsonReader} `{FromJwk K} u l parts (r : cres K) :
  l ≠ [] → Forall attr_plain l → visit_map u (attr_members base64 l) = Ok parts → from_jwk_parts parts = r →
  from_jwk_slice u (object_text (attr_pairs base64 l)) = r.
Proof.
  intros Hl Hp Hv Hf. unfold from_jwk_slice, jwk_from_slice. rewrite read_attrs by done. cbn [mbind res_bind].
  by rewrite Hv.
Qed.
