(* ===== verification/JwkToy.v ===== *)
(** * A base64 codec and a JSON reader, for examples

    Instances of the parameters of JwkAttrs with their laws: unpadded base64 in the
    alphabet for URLs, and a reader of objects whose members are plain strings. *)

From S2P Require Import Prelude Words Errors Buffers KeyAlg Kdf Jwk JwkAttrs Wql.
Local Open Scope list_scope.

(** ** Base64 *)

Definition sextet (n : N) : byte :=
  byte_of (if n <? 26 then 65 + n else if n <? 52 then 71 + n else if n <? 62 then n - 4
           else if n =? 62 then 45 else 95)%N.

Definition unsextet (b : byte) : option N :=
  (let n := byte_val b in
  if (65 <=? n) && (n <=? 90) then Some (n - 65)
  else if (97 <=? n) && (n <=? 122) then Some (n - 71)
  else if (48 <=? n) && (n <=? 57) then Some (n + 4)
  else if n =? 45 then Some 62 else if n =? 95 then Some 63 else None)%N.

Fixpoint b64_encode (b : bytes) : bytes :=
  match b with
  | [] => []
  | [a] => let v := (byte_val a * 16)%N in [sextet (v / 64); sextet (v mod 64)]
  | [a; b] => let v := ((byte_val a * 256 + byte_val b) * 4)%N in
      [sextet (v / 4096); sextet (v / 64 mod 64); sextet (v mod 64)]
  | a :: b :: c :: l => let v := (byte_val a * 65536 + byte_val b * 256 + byte_val c)%N in
      [sextet (v / 262144); sextet (v / 4096 mod 64); sextet (v / 64 mod 64); sextet (v mod 64)] ++ b64_encode l
  end%N.

Fixpoint b64_decode (s : bytes) : option bytes :=
  match s with
  | [] => Some []
  | [_] => None
  | [a; b] => a ← unsextet a; b ← unsextet b; Some [byte_of ((a * 64 + b) / 16)]
  | [a; b; c] => a ← unsextet a; b ← unsextet b; c ← unsextet c;
      let v := ((a * 64 + b) * 64 + c)%N in Some [byte_of (v / 1024); byte_of (v / 4)]
  | a :: b :: c :: d :: l => a ← unsextet a; b ← unsextet b; c ← unsextet c; d ← unsextet d;
      let v := (((a * 64 + b) * 64 + c) * 64 + d)%N in
      l ← b64_decode l; Some ([byte_of (v / 65536); byte_of (v / 256); byte_of v] ++ l)
  end%N.

Lemma sextets n : (n < 64)%N →
  unsextet (sextet n) = Some n ∧ (45 ≤ byte_val (sextet n) ≤ 122)%N ∧ sextet n ≠ x5c.
Proof.
  intros Hn.
  assert (forallb (λ n, let c := sextet (N.of_nat n) in
    bool_decide (unsextet c = Some (N.of_nat n)) && (45 <=? byte_val c)%N && (byte_val c <=? 122)%N
    && negb (bool_decide (c = x5c))) (List.seq 0 64) = true) as H by (vm_compute; reflexivity).
  rewrite List.forallb_forall in H. specialize (H (N.to_nat n)). cbv beta in H.
  rewrite N2Nat.id in H. rewrite !andb_true_iff, negb_true_iff, bool_decide_eq_true, bool_decide_eq_false, !N.leb_le in H.
  destruct H as [[[? ?] ?] ?]; [apply in_seq; lia|]. done.
Qed.

(** Induction three bytes at a time. *)
Lemma bytes_ind3 (P : bytes → Prop) :
  P [] → (∀ a, P [a]) → (∀ a b, P [a; b]) → (∀ a b c l, P l → P (a :: b :: c :: l)) → ∀ l, P l.
Proof.
  intros H0 H1 H2 H3. fix IH 1. intros [|a [|b [|c l]]]; [done|apply H1|apply H2|]. apply H3, IH.
Qed.

Lemma byte_of_eq n b : (n mod 256 = byte_val b)%N → byte_of n = b.
Proof. intros H. apply byte_val_inj. by rewrite byte_val_of. Qed.

(** The digits of a number to the base 64. *)
Lemma digits2 v : (v / 64 * 64 + v mod 64 = v)%N.
Proof. rewrite N.mul_comm. symmetry. apply N.div_mod'. Qed.
Lemma digits3 v : ((v / 4096 * 64 + v / 64 mod 64) * 64 + v mod 64 = v)%N.
Proof. change 4096%N with (64 * 64)%N. by rewrite <- N.Div0.div_div, !digits2. Qed.
Lemma digits4 v : (((v / 262144 * 64 + v / 4096 mod 64) * 64 + v / 64 mod 64) * 64 + v mod 64 = v)%N.
Proof.
  change 262144%N with (64 * 4096)%N. change 4096%N with (64 * 64)%N.
  by rewrite <- !N.Div0.div_div, !digits2.
Qed.

(** A digit is below 64. *)
Ltac digit := first [by apply N.mod_upper_bound | apply N.Div0.div_lt_upper_bound; lia].
(** A quotient modulo 256 of a sum with byte parts. *)
Ltac part := zify; Z.to_euclidean_division_equations; lia.

Lemma b64_inverse b : b64_decode (b64_encode b) = Some b.
Proof.
  induction b as [|a|a b|a b c l IH] using bytes_ind3; [done|..].
  - cbn [b64_encode b64_decode]. pose proof (byte_val_lt a). set (v := (byte_val a * 16)%N).
    assert (v < 4096)%N by lia.
    rewrite !(λ n H, proj1 (sextets n H)) by digit. cbn [mbind option_bind]. rewrite digits2. subst v.
    do 2 f_equal. apply byte_of_eq. part.
  - cbn [b64_encode b64_decode]. pose proof (byte_val_lt a). pose proof (byte_val_lt b).
    set (v := ((byte_val a * 256 + byte_val b) * 4)%N). assert (v < 262144)%N by lia.
    rewrite !(λ n H, proj1 (sextets n H)) by digit. cbn [mbind option_bind]. rewrite digits3. subst v.
    f_equal. f_equal; [|f_equal]; apply byte_of_eq; part.
  - cbn [b64_encode app b64_decode]. pose proof (byte_val_lt a). pose proof (byte_val_lt b). pose proof (byte_val_lt c).
    set (v := (byte_val a * 65536 + byte_val b * 256 + byte_val c)%N). assert (v < 16777216)%N by lia.
    rewrite !(λ n H, proj1 (sextets n H)) by digit. cbn [mbind option_bind]. rewrite digits4.
    rewrite IH. cbn [mbind option_bind app]. subst v. clear IH.
    f_equal. f_equal; [|f_equal; [|f_equal]]; apply byte_of_eq; part.
Qed.

Lemma b64_alphabet b : Forall (λ c, (45 ≤ byte_val c ≤ 122)%N ∧ c ≠ x5c) (b64_encode b).
Proof.
  assert (∀ n, (n < 64)%N → (45 ≤ byte_val (sextet n) ≤ 122)%N ∧ sextet n ≠ x5c) as Hs
    by (intros n Hn; by apply sextets).
  induction b as [|a|a b|a b c l IH] using bytes_ind3; [constructor|..]; cbn [b64_encode];
    [pose proof (byte_val_lt a)|pose proof (byte_val_lt a); pose proof (byte_val_lt b)|
     pose proof (byte_val_lt a); pose proof (byte_val_lt b); pose proof (byte_val_lt c);
     apply Forall_app; split; [|done]];
    repeat (constructor; [apply Hs; digit|]); constructor.
Qed.

Definition b64 : Base64.
Proof.
  refine {| base64 := b64_encode;
            base64_decode s n := b ← b64_decode s; if (length b <=? n)%nat then Some b else None |}.
  - intros b. induction b as [|a|a b|a b c l IH] using bytes_ind3; [done..|].
    cbn [b64_encode]. rewrite length_app, IH. cbn [length].
    replace ((S (S (S (length l))) * 4 + 2))%nat with (length l * 4 + 2 + 4 * 3)%nat by lia.
    rewrite Nat.div_add by done. lia.
  - intros b n Hn. rewrite b64_inverse. cbn. by rewrite (proj2 (Nat.leb_le _ _)).
  - intros s n b. destruct (b64_decode s) as [b'|]; [|done]. cbn.
    destruct (length b' <=? n)%nat eqn:E; [|done]. intros [= <-]. by apply Nat.leb_le.
  - apply b64_alphabet.
Defined.

(** ** A reader of plain objects *)

(** The text up to a quote, and what follows the quote. *)
Fixpoint until_quote (s : bytes) : option (bytes * bytes) :=
  match s with
  | [] => None
  | c :: s => if bool_decide (c = quote) then Some ([], s) else
      '(t, rest) ← until_quote s; Some (c :: t, rest)
  end.

(** A quoted text. *)
Definition read_string (s : bytes) : option (bytes * bytes) :=
  match s with c :: s => if bool_decide (c = quote) then until_quote s else None | [] => None end.

(** Members separated by commas up to the closing brace. *)
Fixpoint read_fields (fuel : nat) (s : bytes) : option (list (string * JsonValue)) :=
  match fuel with
  | O => None
  | S fuel =>
      '(k, s) ← read_string s;
      match s with
      | x3a :: s =>
          '(v, s) ← read_string s;
          let m := (string_of_bytes k, JString (string_of_bytes v)) in
          match s with
          | [x7d] => Some [m]
          | x2c :: s => ms ← read_fields fuel s; Some (m :: ms)
          | _ => None
          end
      | _ => None
      end
  end.

Definition read_plain (s : bytes) : res string (list (string * JsonValue)) :=
  match s with
  | x7b :: s => ok_or (read_fields (length s) s) "malformed"%string
  | _ => Err "no object"%string
  end.

Lemma until_quote_plain t rest : forallb json_plain t = true → until_quote (t ++ quote :: rest) = Some (t, rest).
Proof.
  induction t as [|c t IH]; intros Ht.
  - cbn. by rewrite bool_decide_eq_true_2.
  - cbn [forallb] in Ht. apply andb_prop in Ht as [Hc Ht]. cbn [app until_quote].
    rewrite bool_decide_eq_false_2.
    + by rewrite IH.
    + intros ->. by vm_compute in Hc.
Qed.

Lemma read_attr k v rest : forallb json_plain (as_bytes k) = true → forallb json_plain v = true →
  ∃ mid, read_string (attr_text k v ++ rest) = Some (as_bytes k, x3a :: mid) ∧ read_string mid = Some (v, rest).
Proof.
  intros Hk Hv. exists ([quote] ++ v ++ [quote] ++ rest). split.
  - unfold attr_text. rewrite <- !app_assoc. cbn [app read_string]. rewrite bool_decide_eq_true_2 by done.
    by rewrite until_quote_plain.
  - cbn [app read_string]. rewrite bool_decide_eq_true_2 by done. by rewrite until_quote_plain.
Qed.

Lemma read_fields_spec l fuel : l ≠ [] → (length l ≤ fuel)%nat →
  Forall (λ kv, forallb json_plain (as_bytes kv.1) = true ∧ forallb json_plain kv.2 = true) l →
  read_fields fuel (attrs_text l ++ [x7d]) = Some (List.map (λ '(k, v), (k, JString (string_of_bytes v))) l).
Proof.
  revert fuel. induction l as [|[k v] l IH]; intros fuel Hne Hf Hl; [done|].
  apply Forall_cons in Hl as [[Hk Hv] Hl]. cbn [fst snd] in Hk, Hv. cbn [length] in Hf.
  destruct fuel as [|fuel]; [lia|]. destruct l as [|[k2 v2] l].
  - cbn [attrs_text]. destruct (read_attr k v [x7d] Hk Hv) as (mid & E1 & E2).
    cbn [read_fields]. rewrite E1. cbn [mbind option_bind]. rewrite E2. cbn.
    by rewrite string_of_as_bytes.
  - change (attrs_text ((k, v) :: (k2, v2) :: l)) with (attr_text k v ++ [x2c] ++ attrs_text ((k2, v2) :: l)).
    rewrite <- app_assoc. destruct (read_attr k v (([x2c] ++ attrs_text ((k2, v2) :: l)) ++ [x7d]) Hk Hv) as (mid & E1 & E2).
    cbn [read_fields]. rewrite E1. cbn [mbind option_bind]. rewrite E2. cbn [mbind option_bind app].
    rewrite (IH fuel) by (done || lia). cbn [mbind option_bind List.map]. by rewrite string_of_as_bytes.
Qed.

Lemma attrs_text_length l : (length l ≤ length (attrs_text l))%nat.
Proof.
  induction l as [|[k v] l IH]; [done|]. destruct l as [|m l]; [unfold attrs_text, attr_text; lens|].
  change (attrs_text ((k, v) :: m :: l)) with (attr_text k v ++ [x2c] ++ attrs_text (m :: l)).
  rewrite !length_app. cbn [length] in *. lia.
Qed.

Definition plain_reader : JsonReader.
Proof.
  refine {| read_members := read_plain; jwk_err_text _ := "invalid key"%string |}.
  intros l Hne Hl. unfold read_plain, object_text. cbn [app].
  rewrite read_fields_spec; [done|done| |done]. rewrite length_app. pose proof (attrs_text_length l). lia.
Defined.
