(* ===== verification/Repr.v ===== *)
(** * Representations of keys, and signatures

    Models askar-crypto/src/repr.rs (the traits that expose the bytes of keys, as
    classes, with the methods they provide), sign.rs and backend/mod.rs.  Access to
    bytes through a closure is a function to those bytes. *)

From S2P Require Import Prelude Errors Buffers KeyAlg Kdf Jwk Random.
Local Open Scope string_scope.
Local Open Scope list_scope.

(** [err_msg!(InvalidKeyData)], [err_msg!(MissingSecretKey)] and the like. *)
Definition invalid_key_data : CryptoError.Error := CryptoError.from_kind CryptoError.InvalidKeyData.
Definition missing_secret_key : CryptoError.Error := CryptoError.from_kind CryptoError.MissingSecretKey.

(** ** The traits *)

Class KeyMeta (K : Type) := { key_size : nat }.
Class KeypairMeta (K : Type) := { public_key_size : nat; keypair_size : nat }.

Class KeySecretBytes (K : Type) := {
  from_secret_bytes : bytes → cres K;
  with_secret_bytes : K → cres (option bytes);
}.

Class KeyPublicBytes (K : Type) := {
  from_public_bytes : bytes → cres K;
  with_public_bytes : K → cres bytes;
}.

Class KeypairBytes (K : Type) := {
  from_keypair_bytes : bytes → cres K;
  with_keypair_bytes : K → cres (option bytes);
}.

Arguments key_size K {_}.
Arguments public_key_size K {_}.
Arguments keypair_size K {_}.

(** ** The methods they provide *)

Section Provided.
Context {K : Type}.

Definition secret_bytes_length `{KeyMeta K} (k : K) : cres nat := Ok (key_size K).

Definition write_secret_bytes `{KeySecretBytes K} `{WriteBuffer B} (k : K) (out : B) : cres B :=
  b ← with_secret_bytes k;
  match b with Some b => wb_write b out | None => Err missing_secret_key end.

Definition to_secret_bytes `{KeySecretBytes K} `{Allocator} (k : K) : cres SecretBytes :=
  write_secret_bytes k (with_capacity 128).

Definition public_bytes_length `{KeypairMeta K} (k : K) : cres nat := Ok (public_key_size K).

Definition write_public_bytes `{KeyPublicBytes K} `{WriteBuffer B} (k : K) (out : B) : cres B :=
  b ← with_public_bytes k; wb_write b out.

Definition to_public_bytes `{KeyPublicBytes K} `{Allocator} (k : K) : cres SecretBytes :=
  write_public_bytes k (with_capacity 128).

Definition to_keypair_bytes_buffer `{KeypairBytes K} `{WriteBuffer B} (k : K) (out : B) : cres B :=
  b ← with_keypair_bytes k;
  match b with Some b => wb_write b out | None => Err missing_secret_key end.

Definition to_keypair_bytes `{KeypairBytes K} `{Allocator} (k : K) : cres SecretBytes :=
  to_keypair_bytes_buffer k (with_capacity 128).

(** [KeyExchange::key_exchange_bytes]. *)
Definition key_exchange_bytes `{KeyExchange K} `{Allocator} (k other : K) : cres SecretBytes :=
  z ← write_key_exchange k other; buffer_write z (with_capacity 128).
End Provided.

(** ** Signatures *)

Module SignatureType.
Inductive t := EdDSA | ES256 | ES256K | ES384.
End SignatureType.

#[export] Instance SignatureType_eq_dec : EqDecision SignatureType.t.
Proof. solve_decision. Defined.

Definition signature_from_str (s : string) : cres SignatureType.t :=
  a ← normalize_alg s;
  if named a "eddsa" then Ok SignatureType.EdDSA else
  if named a "es256" then Ok SignatureType.ES256 else
  if named a "es256k" then Ok SignatureType.ES256K else
  if named a "es384" then Ok SignatureType.ES384 else
  Err (CryptoError.from_msg CryptoError.Unsupported "Unknown signature algorithm").

Definition signature_length (s : SignatureType.t) : nat :=
  match s with
  | SignatureType.EdDSA | SignatureType.ES256 | SignatureType.ES256K => 64
  | SignatureType.ES384 => 96
  end.

(** [KeySign] and [KeySigVerify]: message, type; the signature that is written. *)
Class KeySign (K : Type) := {
  write_signature : K → bytes → option SignatureType.t → cres bytes;
  verify_signature : K → bytes → bytes → option SignatureType.t → cres bool;
}.

Definition create_signature `{KeySign K} `{Allocator} (k : K) (message : bytes)
    (sig_type : option SignatureType.t) : cres SecretBytes :=
  sig ← write_signature k message sig_type; buffer_write sig (with_capacity 128).

Definition unsupported_signature : CryptoError.Error :=
  CryptoError.from_msg CryptoError.Unsupported "Unsupported signature type".

(** ** Key backends *)

Module KeyBackend.
Inductive t := Software | SecureElement.
End KeyBackend.

#[export] Instance KeyBackend_eq_dec : EqDecision KeyBackend.t.
Proof. solve_decision. Defined.

Definition backend_as_str (b : KeyBackend.t) : string :=
  match b with KeyBackend.Software => "software" | KeyBackend.SecureElement => "secure_element" end.

Definition backend_from_str (s : string) : cres KeyBackend.t :=
  if bool_decide (s = "software") then Ok KeyBackend.Software else
  if bool_decide (s = "secure_element") then Ok KeyBackend.SecureElement else
  Err (CryptoError.from_msg CryptoError.Invalid "Invalid key backend.").

Lemma backend_roundtrip b : backend_from_str (backend_as_str b) = Ok b.
Proof. by destruct b. Qed.

(** ** Contracts *)

(** What a type with a secret and a public part promises to its users, for keys
    that satisfy [pair_ok]: what is loaded from secret bytes has them as its secret
    bytes, the bytes of either part load that part again, and a key without its
    secret part loads as itself. *)
Class LawfulKeypair (K : Type) `{KeyMeta K} `{KeySecretBytes K} `{KeyPublicBytes K} := {
  pair_ok : K → Prop;
  (** The key without its secret part. *)
  public_only : K → K;
  secret_bytes_of : K → option bytes;
  public_bytes_of : K → bytes;
  public_only_ok k : pair_ok k → pair_ok (public_only k);
  public_only_bytes k : public_bytes_of (public_only k) = public_bytes_of k;
  public_only_secret k : secret_bytes_of (public_only k) = None;
  public_only_id k : secret_bytes_of k = None → public_only k = k;
  with_secret_spec k : pair_ok k → with_secret_bytes k = Ok (secret_bytes_of k);
  with_public_spec k : pair_ok k → with_public_bytes k = Ok (public_bytes_of k);
  from_secret_no_panic b : length b = key_size K → from_secret_bytes b ≠ Panic;
  from_public_no_panic b : from_public_bytes b ≠ Panic;
  from_secret_spec b k : from_secret_bytes b = Ok k → pair_ok k ∧ secret_bytes_of k = Some b ∧ length b = key_size K;
  secret_reload k b : pair_ok k → secret_bytes_of k = Some b → from_secret_bytes b = Ok k;
  from_public_spec b k : from_public_bytes b = Ok k → pair_ok k ∧ secret_bytes_of k = None;
  public_reload k : pair_ok k → from_public_bytes (public_bytes_of k) = Ok (public_only k);
}.

(** Writing the bytes to an allocated buffer gives those bytes. *)
Lemma secret_write_data `{Allocator} b n : ∃ s, buffer_write b (with_capacity n) = Ok s ∧ sec_data s = b.
Proof.
  assert (sec_inv (with_capacity n)) as Hok by (split; [unfold sec_ok; cbn; lia|constructor]).
  destruct (@write_spec SecretBytes secret_buffer secret_lawful (with_capacity n) b Hok) as (s & E & _ & Es). exists s. split; [done|exact Es].
Qed.

Section KeypairLemmas.
Context `{LawfulKeypair K} `{Allocator}.

Lemma to_secret_bytes_spec k b : pair_ok k → secret_bytes_of k = Some b →
  ∃ s, to_secret_bytes k = Ok s ∧ sec_data s = b.
Proof.
  intros Hk Hb. unfold to_secret_bytes, write_secret_bytes. rewrite with_secret_spec by done.
  rewrite Hb. cbn. apply secret_write_data.
Qed.

Lemma to_secret_bytes_missing k : pair_ok k → secret_bytes_of k = None →
  to_secret_bytes k = Err missing_secret_key.
Proof.
  intros Hk Hb. unfold to_secret_bytes, write_secret_bytes. rewrite with_secret_spec by done. by rewrite Hb.
Qed.

Lemma to_public_bytes_spec k : pair_ok k →
  ∃ s, to_public_bytes k = Ok s ∧ sec_data s = public_bytes_of k.
Proof.
  intros Hk. unfold to_public_bytes, write_public_bytes. rewrite with_public_spec by done. cbn.
  apply secret_write_data.
Qed.
End KeypairLemmas.
