(* ===== verification/EcKeys.v ===== *)
(** * Keys on the curves K-256, P-256 and P-384

    Models askar-crypto/src/alg/k256.rs, p256.rs, p384.rs and ec_common.rs.  The
    three key types have the same code: it is written once, over the constants of
    the file and the curve arithmetic, which is a third-party crate. *)

From S2P Require Import Prelude Words Errors Buffers KeyAlg Kdf Jwk JwkAttrs Random Repr.
Local Open Scope string_scope.
Local Open Scope list_scope.

(** ** The curve arithmetic *)

Inductive Coordinates :=
| Identity
| Compact (x : bytes)
| Compressed (x : bytes) (y_is_odd : bool)
| Uncompressed (x y : bytes).

Class EcCurve := {
  ec_sk : Type;
  ec_pk : Type;
  ec_pk_eq_dec :: EqDecision ec_pk;
  (** [FieldBytesSize]. *)
  field_size : nat;
  (** [SecretKey::from_bytes], and the limbs of its scalar. *)
  sk_from_bytes : bytes → option ec_sk;
  sk_limbs : ec_sk → list N;
  sk_public_key : ec_sk → ec_pk;
  (** [to_encoded_point(compress).as_bytes()], and [coordinates()] of it. *)
  encoded_point : bool → ec_pk → bytes;
  point_coordinates : bytes → Coordinates;
  from_sec1_bytes : bytes → option ec_pk;
  (** [from_encoded_point] of [from_affine_coordinates(x, y, false)]. *)
  from_affine_coordinates : bytes → bytes → option ec_pk;
  (** [diffie_hellman(..).raw_secret_bytes()]. *)
  diffie_hellman : ec_sk → ec_pk → bytes;
  ecdsa_sign : ec_sk → bytes → bytes;
  (** [Signature::try_from] and [verify]: [None] when the bytes are no signature. *)
  ecdsa_verify : ec_pk → bytes → bytes → option bool;
}.

(** ** The constants of the three files *)

Record EcConsts := mkConsts {
  SIGNATURE_LENGTH : nat;
  PUBLIC_KEY_LENGTH : nat;
  SECRET_KEY_LENGTH : nat;
  JWK_CURVE : string;
  KEYPAIR_ERROR : string;
  EC_ALG : EcCurves.t;
  SIG_TYPE : SignatureType.t;
}.

Definition KEYPAIR_LENGTH (P : EcConsts) : nat := (SECRET_KEY_LENGTH P + PUBLIC_KEY_LENGTH P)%nat.
Definition EC_KEY_TYPE : string := "EC".

(** What the arithmetic documents, for a curve with these constants. *)
Class EcCurveLaws (C : EcCurve) (P : EcConsts) := {
  field_size_const : field_size = SECRET_KEY_LENGTH P;
  (** Scalars are read from big-endian bytes. *)
  sk_from_bytes_limbs b sk : sk_from_bytes b = Some sk → length b = field_size →
    Forall is_limb (sk_limbs sk) ∧ (8 * length (sk_limbs sk))%nat = field_size
    ∧ limbs_value (sk_limbs sk) = be_value b;
  sk_from_some_bytes sk : ∃ b, length b = field_size ∧ sk_from_bytes b = Some sk;
  encoded_point_length pk : length (encoded_point true pk) = PUBLIC_KEY_LENGTH P;
  from_sec1_encoded c pk : from_sec1_bytes (encoded_point c pk) = Some pk;
  encoded_coordinates pk : ∃ x y, point_coordinates (encoded_point false pk) = Uncompressed x y
    ∧ length x = field_size ∧ length y = field_size ∧ from_affine_coordinates x y = Some pk;
  diffie_hellman_comm a b : diffie_hellman a (sk_public_key b) = diffie_hellman b (sk_public_key a);
  ecdsa_sign_length sk m : length (ecdsa_sign sk m) = SIGNATURE_LENGTH P;
  ecdsa_verify_sign sk m : ecdsa_verify (sk_public_key sk) m (ecdsa_sign sk m) = Some true;
}.

(** ** Writing a scalar *)

(** The loop over the limbs, reversed, and the chunks of eight bytes of the output. *)
Fixpoint write_limbs (srcs : list N) (out : bytes) : bytes :=
  match srcs with
  | [] => out
  | src :: srcs => if (length out <? 8)%nat then out else be_bytes 8 src ++ write_limbs srcs (drop 8 out)
  end.
Definition write_sk `{EcCurve} (sk : ec_sk) (out : bytes) : bytes := write_limbs (rev (sk_limbs sk)) out.

(** ** Key pairs *)

Record EcKeyPair (C : EcCurve) := mkEc {
  ec_secret : option ec_sk;
  ec_public : ec_pk;
}.
Arguments mkEc {C}.
Arguments ec_secret {C}.
Arguments ec_public {C}.

Section EcKeys.
Context (P : EcConsts) {C : EcCurve}.
Abbreviation KeyPair := (EcKeyPair C).

Definition ec_from_secret_key (sk : ec_sk) : KeyPair := mkEc (Some sk) (sk_public_key sk).

Definition ec_with_public_bytes (k : KeyPair) : cres bytes := Ok (encoded_point true (ec_public k)).

Definition ec_check_public_bytes (k : KeyPair) (pk : bytes) : cres () :=
  slf ← ec_with_public_bytes k;
  if bool_decide (slf = pk) then Ok ()
  else Err (CryptoError.from_msg CryptoError.InvalidKeyData (KEYPAIR_ERROR P)).

(** The signature is moved to an array of its documented length. *)
Definition ec_sign (k : KeyPair) (message : bytes) : cres (option bytes) :=
  match ec_secret k with
  | Some sk => sig ← array_from_slice (SIGNATURE_LENGTH P) (ecdsa_sign sk message); mret (Some sig)
  | None => Ok None
  end.

Definition ec_verify (k : KeyPair) (message signature : bytes) : bool :=
  default false (ecdsa_verify (ec_public k) message signature).

(** The loop of [generate]; [None] when the fuel is used up. *)
Fixpoint ec_generate `{KeyMaterial R} (fuel : nat) (rng : R) : option (cres (R * KeyPair)) :=
  match fuel with
  | O => None
  | S fuel =>
      match read_okm field_size rng with
      | Ok (rng, buf) =>
          match sk_from_bytes buf with
          | Some key => Some (Ok (rng, ec_from_secret_key key))
          | None => ec_generate fuel rng
          end
      | Err e => Some (Err e)
      | Panic => Some Panic
      end
  end.

(** [try_into] is the conversion of generic arrays, which asserts the length. *)
Definition ec_from_secret_bytes (key : bytes) : cres KeyPair :=
  key ← array_from_slice field_size key;
  match sk_from_bytes key with
  | Some sk => Ok (ec_from_secret_key sk)
  | None => Err invalid_key_data
  end.

Definition ec_with_secret_bytes (k : KeyPair) : cres (option bytes) :=
  match ec_secret k with
  | Some sk => Ok (Some (write_sk sk (replicate field_size x00)))
  | None => Ok None
  end.

Definition ec_from_keypair_bytes (kp : bytes) : cres KeyPair :=
  if negb (length kp =? KEYPAIR_LENGTH P)%nat then Err invalid_key_data else
  result ← map_err (λ _, invalid_key_data) (ec_from_secret_bytes (take (SECRET_KEY_LENGTH P) kp));
  _ ← ec_check_public_bytes result (drop (SECRET_KEY_LENGTH P) kp);
  mret result.

Definition ec_with_keypair_bytes (k : KeyPair) : cres (option bytes) :=
  match ec_secret k with
  | Some sk =>
      let arr := replicate (KEYPAIR_LENGTH P) x00 in
      let head := write_sk sk (take (SECRET_KEY_LENGTH P) arr) in
      tail ← array_from_slice (length (drop (SECRET_KEY_LENGTH P) arr)) (encoded_point true (ec_public k));
      Ok (Some (head ++ tail))
  | None => Ok None
  end.

Definition ec_from_public_bytes (key : bytes) : cres KeyPair :=
  pk ← ok_or (from_sec1_bytes key) invalid_key_data; Ok (mkEc None pk).

Definition ec_write_signature (k : KeyPair) (message : bytes) (sig_type : option SignatureType.t) : cres bytes :=
  if bool_decide (sig_type = None) || bool_decide (sig_type = Some (SIG_TYPE P)) then
    sig ← ec_sign k message;
    match sig with
    | Some sig => Ok sig
    | None => Err (CryptoError.from_msg CryptoError.Unsupported "Undefined secret key")
    end
  else Err unsupported_signature.

Definition ec_verify_signature (k : KeyPair) (message signature : bytes) (sig_type : option SignatureType.t)
    : cres bool :=
  if bool_decide (sig_type = None) || bool_decide (sig_type = Some (SIG_TYPE P))
  then Ok (ec_verify k message signature)
  else Err unsupported_signature.

Definition ec_encode_jwk `{JwkEncoder E} (k : KeyPair) (enc : E) : cres E :=
  '(x, y) ← match point_coordinates (encoded_point false (ec_public k)) with
            | Identity => Err (CryptoError.from_msg CryptoError.Unsupported "Cannot convert identity point to JWK")
            | Uncompressed x y => Ok (x, y)
            | Compressed _ _ | Compact _ => Panic
            end;
  enc ← add_str "crv" (JWK_CURVE P) enc;
  enc ← add_str "kty" EC_KEY_TYPE enc;
  enc ← add_as_base64 "x" x enc;
  enc ← add_as_base64 "y" y enc;
  if is_secret enc then
    buf ← ec_with_secret_bytes k;
    match buf with Some sk => add_as_base64 "d" sk enc | None => Ok enc end
  else Ok enc.

Definition ec_from_jwk_parts `{Base64} (jwk : JwkParts) : cres KeyPair :=
  if negb (String.eqb (kty jwk) EC_KEY_TYPE)
  then Err (CryptoError.from_msg CryptoError.InvalidKeyData "Unsupported key type") else
  if negb (bool_decide (crv jwk = Some (JWK_CURVE P)))
  then Err (CryptoError.from_msg CryptoError.InvalidKeyData "Unsupported key algorithm") else
  pk_x ← decode_exact (jwk_x jwk) field_size;
  pk_y ← decode_exact (jwk_y jwk) field_size;
  pk ← ok_or (from_affine_coordinates pk_x pk_y) invalid_key_data;
  match jwk_d jwk with
  | Some _ =>
      arr ← decode_exact (jwk_d jwk) field_size;
      kp ← ec_from_secret_bytes arr;
      if negb (bool_decide (ec_public kp = pk)) then Err invalid_key_data else Ok kp
  | None => Ok (mkEc None pk)
  end.

Definition ec_write_key_exchange (k other : KeyPair) : cres bytes :=
  match ec_secret k with
  | Some sk => Ok (diffie_hellman sk (ec_public other))
  | None => Err missing_secret_key
  end.
End EcKeys.

Module K256.
Definition consts : EcConsts :=
  mkConsts 64 33 32 "secp256k1" "invalid k256 keypair" EcCurves.Secp256k1 SignatureType.ES256K.
Section Ops.
Context {C : EcCurve}.
Definition from_secret_key := ec_from_secret_key (C := C).
Definition check_public_bytes := ec_check_public_bytes consts (C := C).
Definition sign := ec_sign consts (C := C).
Definition verify := ec_verify (C := C).
Definition generate `{KeyMaterial R} := ec_generate (C := C) (R := R).
Definition from_secret_bytes := ec_from_secret_bytes (C := C).
Definition with_secret_bytes := ec_with_secret_bytes (C := C).
Definition from_keypair_bytes := ec_from_keypair_bytes consts (C := C).
Definition with_keypair_bytes := ec_with_keypair_bytes consts (C := C).
Definition from_public_bytes := ec_from_public_bytes (C := C).
Definition with_public_bytes := ec_with_public_bytes (C := C).
Definition write_signature := ec_write_signature consts (C := C).
Definition verify_signature := ec_verify_signature consts (C := C).
Definition encode_jwk `{JwkEncoder E} := ec_encode_jwk consts (C := C) (E := E).
Definition from_jwk_parts `{Base64} := ec_from_jwk_parts consts (C := C).
Definition write_key_exchange := ec_write_key_exchange (C := C).
End Ops.
End K256.

Module P256.
Definition consts : EcConsts :=
  mkConsts 64 33 32 "P-256" "invalid p256 keypair" EcCurves.Secp256r1 SignatureType.ES256.
Section Ops.
Context {C : EcCurve}.
Definition from_secret_key := ec_from_secret_key (C := C).
Definition check_public_bytes := ec_check_public_bytes consts (C := C).
Definition sign := ec_sign consts (C := C).
Definition verify := ec_verify (C := C).
Definition generate `{KeyMaterial R} := ec_generate (C := C) (R := R).
Definition from_secret_bytes := ec_from_secret_bytes (C := C).
Definition with_secret_bytes := ec_with_secret_bytes (C := C).
Definition from_keypair_bytes := ec_from_keypair_bytes consts (C := C).
Definition with_keypair_bytes := ec_with_keypair_bytes consts (C := C).
Definition from_public_bytes := ec_from_public_bytes (C := C).
Definition with_public_bytes := ec_with_public_bytes (C := C).
Definition write_signature := ec_write_signature consts (C := C).
Definition verify_signature := ec_verify_signature consts (C := C).
Definition encode_jwk `{JwkEncoder E} := ec_encode_jwk consts (C := C) (E := E).
Definition from_jwk_parts `{Base64} := ec_from_jwk_parts consts (C := C).
Definition write_key_exchange := ec_write_key_exchange (C := C).
End Ops.
End P256.

Module P384.
Definition consts : EcConsts :=
  mkConsts 96 49 48 "P-384" "invalid p384 keypair" EcCurves.Secp384r1 SignatureType.ES384.
Section Ops.
Context {C : EcCurve}.
Definition from_secret_key := ec_from_secret_key (C := C).
Definition check_public_bytes := ec_check_public_bytes consts (C := C).
Definition sign := ec_sign consts (C := C).
Definition verify := ec_verify (C := C).
Definition generate `{KeyMaterial R} := ec_generate (C := C) (R := R).
Definition from_secret_bytes := ec_from_secret_bytes (C := C).
Definition with_secret_bytes := ec_with_secret_bytes (C := C).
Definition from_keypair_bytes := ec_from_keypair_bytes consts (C := C).
Definition with_keypair_bytes := ec_with_keypair_bytes consts (C := C).
Definition from_public_bytes := ec_from_public_bytes (C := C).
Definition with_public_bytes := ec_with_public_bytes (C := C).
Definition write_signature := ec_write_signature consts (C := C).
Definition verify_signature := ec_verify_signature consts (C := C).
Definition encode_jwk `{JwkEncoder E} := ec_encode_jwk consts (C := C) (E := E).
Definition from_jwk_parts `{Base64} := ec_from_jwk_parts consts (C := C).
Definition write_key_exchange := ec_write_key_exchange (C := C).
End Ops.
End P384.

(** ** Lemmas *)

Lemma write_limbs_spec srcs out : length out = (8 * length srcs)%nat →
  write_limbs srcs out = concat (List.map (be_bytes 8) srcs).
Proof.
  revert out. induction srcs as [|x srcs IH]; intros out Hl.
  - destruct out; [done|cbn in Hl; lia].
  - cbn [write_limbs List.map concat length] in *. rewrite (proj2 (Nat.ltb_ge _ _)) by lia.
    by rewrite IH by lens.
Qed.

Lemma array_from_slice_ok {E} n b : length b = n → array_from_slice (E := E) n b = Ok b.
Proof. intros <-. unfold array_from_slice. by rewrite Nat.eqb_refl. Qed.

Definition ec_meta (P : EcConsts) {C} : KeyMeta (EcKeyPair C) := {| key_size := SECRET_KEY_LENGTH P |}.
#[export] Instance ec_secret_repr {C} : KeySecretBytes (EcKeyPair C) :=
  {| from_secret_bytes := ec_from_secret_bytes; with_secret_bytes := ec_with_secret_bytes |}.
#[export] Instance ec_public_repr {C} : KeyPublicBytes (EcKeyPair C) :=
  {| from_public_bytes := ec_from_public_bytes; with_public_bytes := ec_with_public_bytes |}.

Section EcLemmas.
Context (P : EcConsts) {C : EcCurve} {laws : EcCurveLaws C P}.

(** The secret part goes with the public part. *)
Definition ec_ok (k : EcKeyPair C) : Prop :=
  match ec_secret k with Some sk => ec_public k = sk_public_key sk | None => True end.

Definition sk_bytes (sk : ec_sk) : bytes := be_bytes field_size (limbs_value (sk_limbs sk)).

Lemma sk_bytes_inv b sk : sk_from_bytes b = Some sk → length b = field_size → sk_bytes sk = b.
Proof.
  intros Hs Hl. destruct (sk_from_bytes_limbs b sk Hs Hl) as (_ & _ & Ev).
  unfold sk_bytes. rewrite Ev, <- Hl. apply be_bytes_value.
Qed.

Lemma sk_bytes_load sk : sk_from_bytes (sk_bytes sk) = Some sk.
Proof. destruct (sk_from_some_bytes sk) as (b & Hl & Hs). by rewrite (sk_bytes_inv b). Qed.

Lemma sk_bytes_length sk : length (sk_bytes sk) = field_size.
Proof. unfold sk_bytes. lens. Qed.

(** The scalar is written as the bytes it is read from. *)
Lemma write_sk_spec sk out : length out = field_size → write_sk sk out = sk_bytes sk.
Proof.
  intros Hl. destruct (sk_from_some_bytes sk) as (b & Hb & Hs).
  destruct (sk_from_bytes_limbs b sk Hs Hb) as (Hf & Hn & _).
  unfold write_sk, sk_bytes. rewrite write_limbs_spec by (rewrite length_rev; lia).
  rewrite limbs_be_bytes by done. by rewrite Hn.
Qed.

Lemma ec_load_secret b k : ec_from_secret_bytes b = Ok k ↔
  length b = field_size ∧ ∃ sk, sk_from_bytes b = Some sk ∧ k = ec_from_secret_key sk.
Proof.
  unfold ec_from_secret_bytes, array_from_slice. destruct (length b =? field_size)%nat eqn:El; cbn.
  - apply Nat.eqb_eq in El. destruct (sk_from_bytes b) as [sk|]; naive_solver.
  - apply Nat.eqb_neq in El. naive_solver.
Qed.

Lemma ec_secret_again sk : ec_from_secret_bytes (sk_bytes sk) = Ok (ec_from_secret_key sk).
Proof. apply ec_load_secret. split; [apply sk_bytes_length|]. exists sk. by rewrite sk_bytes_load. Qed.

Lemma ec_from_secret_key_ok sk : ec_ok (ec_from_secret_key sk).
Proof. done. Qed.

Lemma ec_ok_secret k sk : ec_ok k → ec_secret k = Some sk → k = ec_from_secret_key sk.
Proof. destruct k as [s p]. unfold ec_ok. cbn. by intros Hk [= ->]; subst. Qed.

Definition ec_lawful : LawfulKeypair (EcKeyPair C) (H := ec_meta P).
Proof.
  refine {| pair_ok := ec_ok; public_only k := mkEc None (ec_public k);
            secret_bytes_of k := sk_bytes <$> ec_secret k;
            public_bytes_of k := encoded_point true (ec_public k) |}.
  - done.
  - done.
  - done.
  - intros [[sk|] pk]; done.
  - intros k Hk. cbn. unfold ec_with_secret_bytes. destruct (ec_secret k) as [sk|]; [|done]. cbn.
    by rewrite write_sk_spec by lens.
  - done.
  - intros b Hl. cbn in *. unfold ec_from_secret_bytes.
    rewrite array_from_slice_ok by (by rewrite field_size_const). cbn. by destruct (sk_from_bytes b).
  - intros b. cbn. unfold ec_from_public_bytes. by destruct (from_sec1_bytes b).
  - intros b k Hk. apply ec_load_secret in Hk as (Hl & sk & Hs & ->). cbn.
    rewrite (sk_bytes_inv b sk) by done. by rewrite Hl, field_size_const.
  - intros k b Hk Hb. cbn. apply ec_load_secret. destruct (ec_secret k) as [sk|] eqn:Es; [|done].
    injection Hb as <-. split; [apply sk_bytes_length|]. exists sk.
    split; [apply sk_bytes_load|]. by apply ec_ok_secret.
  - intros b k. cbn. unfold ec_from_public_bytes. destruct (from_sec1_bytes b) as [pk|]; [|done]. by intros [= <-].
  - intros k Hk. cbn. unfold ec_from_public_bytes. by rewrite from_sec1_encoded.
Defined.

(** *** Key pairs in one byte string *)

Lemma ec_keypair_bytes_spec k sk : ec_ok k → ec_secret k = Some sk →
  ec_with_keypair_bytes P k = Ok (Some (sk_bytes sk ++ encoded_point true (ec_public k))).
Proof.
  intros Hk Hs. unfold ec_with_keypair_bytes, KEYPAIR_LENGTH. rewrite Hs.
  rewrite array_from_slice_ok.
  - cbn. rewrite write_sk_spec; [done|]. rewrite field_size_const. lens.
  - rewrite encoded_point_length. lens.
Qed.

(** Loading a secret with a public key that is or is not its own. *)
Lemma ec_load_keypair sk pkb : length pkb = PUBLIC_KEY_LENGTH P →
  ec_from_keypair_bytes P (sk_bytes sk ++ pkb)
  = if bool_decide (encoded_point true (sk_public_key sk) = pkb) then Ok (ec_from_secret_key sk)
    else Err (CryptoError.from_msg CryptoError.InvalidKeyData (KEYPAIR_ERROR P)).
Proof.
  intros Hl. unfold ec_from_keypair_bytes, KEYPAIR_LENGTH.
  assert (length (sk_bytes sk) = SECRET_KEY_LENGTH P) as El by (by rewrite sk_bytes_length, field_size_const).
  rewrite length_app, Hl, El, Nat.eqb_refl. cbn [negb].
  rewrite take_app_length', drop_app_length' by done.
  rewrite ec_secret_again.
  cbn. unfold ec_check_public_bytes. cbn. by case_bool_decide.
Qed.

(** *** Generation *)

(** The source gives values that are no scalars until it gives one that is. *)
Inductive draws `{KeyMaterial R} : R → R → ec_sk → Prop :=
| draw_hit r r' b sk : read_okm field_size r = Ok (r', b) → sk_from_bytes b = Some sk → draws r r' sk
| draw_miss r r1 r' b sk : read_okm field_size r = Ok (r1, b) → sk_from_bytes b = None →
    draws r1 r' sk → draws r r' sk.

Lemma ec_generate_spec `{KeyMaterial R} (r r' : R) k :
  (∃ fuel, ec_generate fuel r = Some (Ok (r', k))) ↔ ∃ sk, draws r r' sk ∧ k = ec_from_secret_key sk.
Proof.
  split.
  - intros [fuel Hf]. revert r Hf. induction fuel as [|fuel IH]; intros r Hf; [done|].
    cbn [ec_generate] in Hf. destruct (read_okm field_size r) as [[r1 b]| |] eqn:Er; [|done|done].
    destruct (sk_from_bytes b) as [sk|] eqn:Es.
    + injection Hf as <- <-. exists sk. split; [by eapply draw_hit|done].
    + destruct (IH _ Hf) as (sk & Hd & Hk). exists sk. split; [by eapply draw_miss|done].
  - intros (sk & Hd & ->). induction Hd as [r r' b sk Er Es|r r1 r' b sk Er Es _ [fuel IH]].
    + exists 1%nat. cbn. by rewrite Er, Es.
    + exists (S fuel). cbn. by rewrite Er, Es, IH.
Qed.

Lemma ec_generate_mono `{KeyMaterial R} fuel fuel' (r : R) x :
  (fuel ≤ fuel')%nat → ec_generate fuel r = Some x → ec_generate (C := C) fuel' r = Some x.
Proof.
  revert fuel' r. induction fuel as [|fuel IH]; intros fuel' r Hf Hg; [done|].
  destruct fuel' as [|fuel']; [lia|]. cbn [ec_generate] in *.
  destruct (read_okm field_size r) as [[r1 b]| |]; [|done|done].
  destruct (sk_from_bytes b); [done|]. apply (IH fuel'); [lia|done].
Qed.

(** *** JSON web keys *)

Definition ec_x (k : EcKeyPair C) : bytes :=
  match point_coordinates (encoded_point false (ec_public k)) with Uncompressed x _ => x | _ => [] end.
Definition ec_y (k : EcKeyPair C) : bytes :=
  match point_coordinates (encoded_point false (ec_public k)) with Uncompressed _ y => y | _ => [] end.

Definition secret_mode (m : JwkEncoderMode.t) : bool :=
  match m with JwkEncoderMode.SecretKey => true | _ => false end.

(** The attributes in the order they are written. *)
Definition ec_attrs (mode : JwkEncoderMode.t) (k : EcKeyPair C) : list (string * attr_value) :=
  [("crv", AStr (JWK_CURVE P)); ("kty", AStr EC_KEY_TYPE); ("x", ABase64 (ec_x k)); ("y", ABase64 (ec_y k))]
  ++ match ec_secret k with
     | Some sk => if secret_mode mode then [("d", ABase64 (sk_bytes sk))] else []
     | None => []
     end.

Lemma ec_encode_attrs `{EncoderLaws E} k (e : E) : ec_encode_jwk P k e = add_attrs (ec_attrs (enc_mode e) k) e.
Proof.
  unfold ec_encode_jwk, ec_attrs, ec_x, ec_y.
  destruct (encoded_coordinates (P := P) (ec_public k)) as (x & y & -> & _). cbn [mbind res_bind].
  rewrite add_attrs_app.
  set (l := [("crv", AStr (JWK_CURVE P)); ("kty", AStr EC_KEY_TYPE); ("x", ABase64 x); ("y", ABase64 y)]).
  trans (e' ← add_attrs l e; if is_secret e' then
    buf ← ec_with_secret_bytes k; match buf with Some sk => add_as_base64 "d" sk e' | None => Ok e' end
    else Ok e').
  { cbn [l add_attrs add_attr]. repeat (match goal with |- (?m ≫= _) = _ => destruct m; [|done|done]; cbn [mbind res_bind] end).
    done. }
  destruct (add_attrs l e) as [e'| |] eqn:El; [|done|done]. cbn [mbind res_bind].
  apply add_attrs_keeps in El as [Em _]. unfold is_secret. rewrite Em. unfold secret_mode.
  unfold ec_with_secret_bytes. destruct (enc_mode e), (ec_secret k) as [sk|]; try done.
  cbn. rewrite write_sk_spec by lens. by destruct (add_as_base64 _ _ _).
Qed.

(** The parts read from the members of a key without key operations. *)
Definition ec_parts (b64 : bytes → bytes) (mode : JwkEncoderMode.t) (k : EcKeyPair C) : JwkParts :=
  mkJwk EC_KEY_TYPE None None (Some (JWK_CURVE P)) (Some (string_of_bytes (b64 (ec_x k))))
    (Some (string_of_bytes (b64 (ec_y k))))
    (sk ← ec_secret k; if secret_mode mode then Some (string_of_bytes (b64 (sk_bytes sk))) else None) None None.

Lemma ec_attrs_parts u b64 mode k : visit_map u (attr_members b64 (ec_attrs mode k)) = Ok (ec_parts b64 mode k).
Proof.
  unfold ec_attrs, ec_parts. destruct (ec_secret k) as [sk|]; [destruct (secret_mode mode)|];
    cbn -[string_of_bytes as_bytes]; by rewrite !string_of_as_bytes.
Qed.

(** A key read from its parts; the secret key when it was written. *)
Lemma ec_parts_load `{Base64} mode k : ec_ok k →
  ec_from_jwk_parts P (ec_parts base64 mode k)
  = Ok (if secret_mode mode then k else mkEc None (ec_public k)).
Proof.
  intros Hk. unfold ec_from_jwk_parts, ec_parts. cbn [kty crv jwk_x jwk_y jwk_d].
  rewrite String.eqb_refl, bool_decide_eq_true_2 by done. cbn [negb].
  unfold ec_x, ec_y. destruct (encoded_coordinates (P := P) (ec_public k)) as (x & y & -> & Hx & Hy & Ha).
  rewrite <- Hx at 1. rewrite decode_exact_encoded. cbn [mbind res_bind].
  rewrite <- Hy at 1. rewrite decode_exact_encoded. cbn [mbind res_bind]. rewrite Ha. cbn [ok_or mbind res_bind].
  destruct (ec_secret k) as [sk|] eqn:Es; cbn [mbind option_bind].
  - destruct (secret_mode mode); [|done].
    rewrite <- (sk_bytes_length sk), decode_exact_encoded. cbn [mbind res_bind].
    rewrite ec_secret_again.
    cbn [mbind res_bind]. rewrite (ec_ok_secret k sk Hk Es). cbn.
    by rewrite bool_decide_eq_true_2.
  - destruct (secret_mode mode); [|done]. destruct k as [s p]. cbn in Es. by subst.
Qed.

(** A key pair whose halves do not go together is refused. *)
Lemma ec_parts_mismatch `{Base64} jwk sk pk x y :
  kty jwk = EC_KEY_TYPE → crv jwk = Some (JWK_CURVE P) →
  decode_exact (jwk_x jwk) field_size = Ok x → decode_exact (jwk_y jwk) field_size = Ok y →
  from_affine_coordinates x y = Some pk → decode_exact (jwk_d jwk) field_size = Ok (sk_bytes sk) →
  sk_public_key sk ≠ pk → ec_from_jwk_parts P jwk = Err invalid_key_data.
Proof.
  intros Ht Hc Hx Hy Ha Hd Hne. unfold ec_from_jwk_parts.
  rewrite Ht, String.eqb_refl, Hc, bool_decide_eq_true_2 by done. cbn [negb].
  rewrite Hx, Hy. cbn [mbind res_bind]. rewrite Ha. cbn [ok_or mbind res_bind].
  destruct (jwk_d jwk) as [d|]; [|done]. rewrite Hd. cbn [mbind res_bind].
  rewrite ec_secret_again.
  cbn. by rewrite bool_decide_eq_false_2.
Qed.
End EcLemmas.

(** ** A toy curve with the laws, for examples: a point is its scalar, in [k]
    limbs, and zero is no scalar *)

Section Toy.
Context (k : nat).
Abbreviation n := (8 * k)%nat.

Definition toy_scalar (b : bytes) : bool := (length b =? n)%nat && negb (be_value b =? 0)%N.
Record ToySk := mkToySk { toy_sk : bytes; toy_sk_ok : Is_true (toy_scalar toy_sk) }.

Lemma toy_sk_eq a b : toy_sk a = toy_sk b → a = b.
Proof. destruct a as [a Ha], b as [b Hb]. cbn. intros ->. f_equal. apply proof_irrel. Qed.

#[export] Instance toy_sk_eq_dec : EqDecision ToySk.
Proof. intros a b. destruct (decide (toy_sk a = toy_sk b)); [left; by apply toy_sk_eq|right; congruence]. Defined.

Definition toy_load (b : bytes) : option ToySk :=
  match decide (Is_true (toy_scalar b)) with left H => Some (mkToySk b H) | right _ => None end.

Fixpoint to_limbs (m : nat) (v : N) : list N :=
  match m with O => [] | S m => (v mod 2 ^ 64)%N :: to_limbs m (v / 2 ^ 64) end.

Definition toy_curve : EcCurve := {|
  ec_sk := ToySk;
  ec_pk := ToySk;
  field_size := n;
  sk_from_bytes := toy_load;
  sk_limbs sk := to_limbs k (be_value (toy_sk sk));
  sk_public_key sk := sk;
  encoded_point c pk := if c : bool then x02 :: toy_sk pk else x04 :: toy_sk pk ++ toy_sk pk;
  point_coordinates b := Uncompressed (take n (drop 1 b)) (drop n (drop 1 b));
  from_sec1_bytes b := match b with
                       | x02 :: b => toy_load b
                       | x04 :: b => if bool_decide (take n b = drop n b) then toy_load (take n b) else None
                       | _ => None
                       end;
  from_affine_coordinates x y := if bool_decide (x = y) then toy_load x else None;
  diffie_hellman a b := be_bytes n (be_value (toy_sk a) * be_value (toy_sk b));
  ecdsa_sign sk m := toy_sk sk ++ toy_sk sk;
  ecdsa_verify pk m sig := if (length sig =? 2 * n)%nat then Some (bool_decide (sig = toy_sk pk ++ toy_sk pk)) else None;
|}.

Lemma toy_load_spec b sk : toy_load b = Some sk ↔ toy_sk sk = b.
Proof.
  unfold toy_load. destruct (decide _) as [H|H]; split; intros E.
  - by injection E as <-.
  - f_equal. by apply toy_sk_eq.
  - done.
  - subst b. destruct H. apply toy_sk_ok.
Qed.

Lemma toy_sk_length sk : length (toy_sk sk) = n.
Proof. destruct sk as [b Hb]. cbn. apply Is_true_true, andb_prop in Hb as [H _]. by apply Nat.eqb_eq. Qed.

Lemma to_limbs_spec m v : (v < 2 ^ (64 * N.of_nat m))%N →
  Forall is_limb (to_limbs m v) ∧ length (to_limbs m v) = m ∧ limbs_value (to_limbs m v) = v.
Proof.
  revert v. induction m as [|m IH]; intros v Hv; [cbn in *; split_and!; [constructor|done|lia]|].
  cbn [to_limbs length limbs_value].
  destruct (IH (v / 2 ^ 64)%N) as (Hf & Hl & Hs).
  - apply N.Div0.div_lt_upper_bound. rewrite <- N.pow_add_r.
    replace (64 + 64 * N.of_nat m)%N with (64 * N.of_nat (S m))%N by lia. done.
  - split_and!; [constructor; [by apply N.mod_upper_bound|done]|by rewrite Hl|].
    rewrite Hs, N.add_comm. symmetry. apply N.div_mod'.
Qed.

#[export] Instance toy_curve_laws P : SECRET_KEY_LENGTH P = n → PUBLIC_KEY_LENGTH P = S n →
  SIGNATURE_LENGTH P = (2 * n)%nat → EcCurveLaws toy_curve P.
Proof.
  intros Hs Hp Hg. constructor; cbn.
  - lia.
  - intros b sk Hb Hl. apply toy_load_spec in Hb as <-.
    destruct (to_limbs_spec k (be_value (toy_sk sk))) as (Hf & Hk & Hv).
    + eapply N.lt_le_trans; [apply be_value_bound|]. rewrite toy_sk_length.
      change 256%N with (2 ^ 8)%N. rewrite <- N.pow_mul_r. apply N.pow_le_mono_r; [done|]. lia.
    + split_and!; [done|lia|done].
  - intros sk. exists (toy_sk sk). split; [apply toy_sk_length|]. by apply toy_load_spec.
  - intros pk. cbn. rewrite toy_sk_length. lia.
  - intros [] pk; cbn; [by apply toy_load_spec|].
    pose proof (toy_sk_length pk) as E. cbn in E. rewrite take_app_length', drop_app_length' by lia.
    rewrite bool_decide_eq_true_2 by done. by apply toy_load_spec.
  - intros pk. exists (toy_sk pk), (toy_sk pk). pose proof (toy_sk_length pk) as E. cbn in E.
    rewrite drop_0, take_app_length', drop_app_length' by lia.
    split_and!; [done|lia|lia|]. rewrite bool_decide_eq_true_2 by done. by apply toy_load_spec.
  - intros a b. by rewrite N.mul_comm.
  - intros sk m. pose proof (toy_sk_length sk). lens.
  - intros sk m. rewrite length_app, toy_sk_length. rewrite (proj2 (Nat.eqb_eq _ _)) by lia.
    by rewrite bool_decide_eq_true_2.
Qed.
End Toy.

(** ** Properties *)

(** C36: Key generation returns exactly when its source gives a scalar at some time:
    the key of the first scalar given, however many values before it were none, with
    the source moved on to just after it; more turns of the loop do not change it. *)
Theorem ec_generate_live {C : EcCurve} `{KeyMaterial R} (r r' : R) k :
  (∃ n, ∀ fuel, (n ≤ fuel)%nat → ec_generate fuel r = Some (Ok (r', k)))
  ↔ ∃ sk, draws r r' sk ∧ k = ec_from_secret_key sk.
Proof.
  rewrite <- ec_generate_spec. split.
  - intros [n Hn]. exists n. by apply Hn.
  - intros [n Hn]. exists n. intros fuel Hf. by apply (ec_generate_mono n).
Qed.

(** A key pair is loaded from secret and public bytes, in one string or as a JWK,
    only when the public key is the one of the secret; loading what was written
    gives the key pair back. *)
Theorem ec_keypair_checked {C : EcCurve} P {laws : EcCurveLaws C P} sk pk pkb :
  length pkb = PUBLIC_KEY_LENGTH P →
  (ec_with_keypair_bytes P (ec_from_secret_key sk) = Ok (Some (sk_bytes sk ++ encoded_point true (sk_public_key sk))))
  ∧ ec_from_keypair_bytes P (sk_bytes sk ++ encoded_point true (sk_public_key sk)) = Ok (ec_from_secret_key sk)
  ∧ (pkb ≠ encoded_point true (sk_public_key sk) →
     ec_from_keypair_bytes P (sk_bytes sk ++ pkb)
     = Err (CryptoError.from_msg CryptoError.InvalidKeyData (KEYPAIR_ERROR P)))
  ∧ (pk ≠ sk_public_key sk → ∀ `{Base64},
     ec_from_jwk_parts P (ec_parts P base64 JwkEncoderMode.SecretKey (mkEc (Some sk) pk)) = Err invalid_key_data).
Proof.
  intros Hl. split_and!.
  - by apply (ec_keypair_bytes_spec P (ec_from_secret_key sk) sk).
  - rewrite (ec_load_keypair P sk) by apply encoded_point_length. by rewrite bool_decide_eq_true_2.
  - intros Hne. rewrite (ec_load_keypair P sk) by done. by rewrite bool_decide_eq_false_2.
  - intros Hne B64. destruct (encoded_coordinates (P := P) pk) as (x & y & Ec & Hx & Hy & Ha).
    apply (ec_parts_mismatch P _ sk pk x y); [done|done|..|done| |]; cbn [ec_parts jwk_x jwk_y jwk_d ec_secret mbind option_bind secret_mode].
    + unfold ec_x. cbn [ec_public]. rewrite Ec, <- Hx. apply decode_exact_encoded.
    + unfold ec_y. cbn [ec_public]. rewrite Ec, <- Hy. apply decode_exact_encoded.
    + rewrite <- (sk_bytes_length sk). apply decode_exact_encoded.
    + by apply not_eq_sym.
Qed.

Definition toy_one : ToySk 4 := mkToySk 4 (replicate 31 x00 ++ [x01]) I.
Definition toy_two : ToySk 4 := mkToySk 4 (replicate 31 x00 ++ [x02]) I.

Lemma ec_keypair_checked_witness :
  @ec_from_keypair_bytes P256.consts (toy_curve 4) (@sk_bytes (toy_curve 4) toy_one ++ x02 :: toy_sk 4 toy_two)
  = Err (CryptoError.from_msg CryptoError.InvalidKeyData "invalid p256 keypair").
Proof.
  pose proof (@ec_keypair_checked (toy_curve 4) P256.consts
    (toy_curve_laws 4 P256.consts eq_refl eq_refl eq_refl) toy_one toy_two (x02 :: toy_sk 4 toy_two) eq_refl) as (_ & _ & E & _).
  apply E. discriminate.
Defined.
