(* ===== verification/EdKeys.v ===== *)
(** * Ed25519 and X25519 keys

    Models askar-crypto/src/alg/ed25519.rs and x25519.rs.  The arithmetic of
    Curve25519 and SHA-512 are third-party crates. *)

From S2P Require Import Prelude Errors Buffers KeyAlg Kdf Jwk JwkAttrs Random Repr EcKeys.
Local Open Scope string_scope.
Local Open Scope list_scope.

(** ** The arithmetic *)

Class Curve25519 := {
  (** The bytes of the verifying key of a signing key. *)
  ed_public_key : bytes → bytes;
  (** [VerifyingKey::from_bytes], then [to_bytes]. *)
  ed_verifying_key : bytes → option bytes;
  (** [CompressedEdwardsY::decompress], then [to_montgomery]. *)
  ed_to_montgomery : bytes → option bytes;
  ed_sign : bytes → bytes → bytes;
  (** [Signature::try_from]. *)
  ed_signature : bytes → option bytes;
  ed_verify_strict : bytes → bytes → bytes → bool;
  sha512 : bytes → bytes;
  clamp_integer : bytes → bytes;
  x_public_key : bytes → bytes;
  x_diffie_hellman : bytes → bytes → bytes;
}.

(** What the crates document. *)
Class Curve25519Laws `{Curve25519} := {
  ed_public_key_length s : length s = 32%nat → length (ed_public_key s) = 32%nat;
  (** A verifying key keeps the bytes it was read from, and is a point. *)
  ed_verifying_key_bytes b b' : ed_verifying_key b = Some b' → b' = b;
  ed_verifying_key_point b : is_Some (ed_verifying_key b) ↔ is_Some (ed_to_montgomery b);
  ed_public_key_valid s : length s = 32%nat → is_Some (ed_verifying_key (ed_public_key s));
  ed_montgomery_length b u : ed_to_montgomery b = Some u → length u = 32%nat;
  ed_sign_length s m : length (ed_sign s m) = 64%nat;
  ed_signature_length b : length b = 64%nat → ed_signature b = Some b;
  ed_verify_sign s m : length s = 32%nat → ed_verify_strict (ed_public_key s) m (ed_sign s m) = true;
  sha512_length m : length (sha512 m) = 64%nat;
  clamp_length b : length b = 32%nat → length (clamp_integer b) = 32%nat;
  x_public_key_length s : length s = 32%nat → length (x_public_key s) = 32%nat;
  x_diffie_hellman_length s p : length (x_diffie_hellman s p) = 32%nat;
  x_diffie_hellman_comm a b : x_diffie_hellman a (x_public_key b) = x_diffie_hellman b (x_public_key a);
  (** The birational map takes the Ed25519 public key of a secret to the X25519
      public key of the scalar derived from that secret. *)
  montgomery_public s : length s = 32%nat →
    ed_to_montgomery (ed_public_key s) = Some (x_public_key (clamp_integer (take 32 (sha512 s))));
}.

Module X25519.
Definition PUBLIC_KEY_LENGTH : nat := 32.
Definition SECRET_KEY_LENGTH : nat := 32.
Definition KEYPAIR_LENGTH : nat := SECRET_KEY_LENGTH + PUBLIC_KEY_LENGTH.
Definition JWK_KEY_TYPE : string := "OKP".
Definition JWK_CURVE : string := "X25519".

(** The bytes of the static secret and of the public key. *)
Record KeyPair := new {
  secret : option bytes;
  public : bytes;
}.

Section Ops.
Context `{Curve25519}.

Definition from_secret_key (sk : bytes) : KeyPair := new (Some sk) (x_public_key sk).

Definition check_public_bytes (k : KeyPair) (pk : bytes) : cres () :=
  if bool_decide (public k = pk) then Ok ()
  else Err (CryptoError.from_msg CryptoError.InvalidKeyData "invalid x25519 keypair").

Definition generate `{KeyMaterial R} (rng : R) : cres (R * KeyPair) :=
  '(rng, sk) ← read_okm 32 rng;
  sk ← array_from_slice SECRET_KEY_LENGTH sk;
  mret (rng, new (Some sk) (x_public_key sk)).

Definition from_secret_bytes (key : bytes) : cres KeyPair :=
  if (length key =? SECRET_KEY_LENGTH)%nat then Ok (from_secret_key key) else Err invalid_key_data.

Definition with_secret_bytes (k : KeyPair) : cres (option bytes) := Ok (secret k).

Definition from_keypair_bytes (kp : bytes) : cres KeyPair :=
  if negb (length kp =? KEYPAIR_LENGTH)%nat then Err invalid_key_data else
  result ← from_secret_bytes (take SECRET_KEY_LENGTH kp);
  _ ← check_public_bytes result (drop SECRET_KEY_LENGTH kp);
  mret result.

Definition with_keypair_bytes (k : KeyPair) : cres (option bytes) :=
  match secret k with
  | Some secret =>
      a ← array_from_slice SECRET_KEY_LENGTH secret;
      b ← array_from_slice (KEYPAIR_LENGTH - SECRET_KEY_LENGTH) (public k);
      Ok (Some (a ++ b))
  | None => Ok None
  end.

Definition from_public_bytes (key : bytes) : cres KeyPair :=
  if (length key =? PUBLIC_KEY_LENGTH)%nat then Ok (new None key) else Err invalid_key_data.

Definition with_public_bytes (k : KeyPair) : cres bytes := Ok (public k).

Definition encode_jwk `{JwkEncoder E} (k : KeyPair) (enc : E) : cres E :=
  enc ← add_str "crv" JWK_CURVE enc;
  enc ← add_str "kty" JWK_KEY_TYPE enc;
  buf ← with_public_bytes k;
  enc ← add_as_base64 "x" buf enc;
  if is_secret enc then
    buf ← with_secret_bytes k;
    match buf with Some sk => add_as_base64 "d" sk enc | None => Ok enc end
  else Ok enc.

Definition from_jwk_parts `{Base64} (jwk : JwkParts) : cres KeyPair :=
  if negb (String.eqb (kty jwk) JWK_KEY_TYPE)
  then Err (CryptoError.from_msg CryptoError.InvalidKeyData "Unsupported key type") else
  if negb (bool_decide (crv jwk = Some JWK_CURVE))
  then Err (CryptoError.from_msg CryptoError.InvalidKeyData "Unsupported key algorithm") else
  pk_arr ← decode_exact (jwk_x jwk) 32;
  match jwk_d jwk with
  | Some _ =>
      sk_arr ← decode_exact (jwk_d jwk) 32;
      kp ← from_secret_bytes sk_arr;
      _ ← check_public_bytes kp pk_arr;
      mret kp
  | None => from_public_bytes pk_arr
  end.

Definition write_key_exchange (k other : KeyPair) : cres bytes :=
  match secret k with
  | Some sk => Ok (x_diffie_hellman sk (public other))
  | None => Err missing_secret_key
  end.
End Ops.
End X25519.

Module Ed25519.
Definition PUBLIC_KEY_LENGTH : nat := 32.
Definition SECRET_KEY_LENGTH : nat := 32.
Definition KEYPAIR_LENGTH : nat := 64.
Definition JWK_KEY_TYPE : string := "OKP".
Definition JWK_CURVE : string := "Ed25519".

Record KeyPair := mkKeyPair {
  secret : option bytes;
  public : bytes;
}.

Section Ops.
Context `{Curve25519}.

Definition from_secret_key (secret : bytes) : KeyPair := mkKeyPair (Some secret) (ed_public_key secret).

Definition check_public_bytes (k : KeyPair) (pk : bytes) : cres () :=
  if bool_decide (public k = pk) then Ok ()
  else Err (CryptoError.from_msg CryptoError.InvalidKeyData "invalid ed25519 keypair").

(** Converting the point panics when the public key is no point. *)
Definition to_x25519_keypair (k : KeyPair) : cres X25519.KeyPair :=
  match secret k with
  | Some secret =>
      let hash := sha512 secret in
      sk ← array_from_slice 32 (take 32 hash);
      let secret := clamp_integer sk in
      Ok (X25519.new (Some secret) (x_public_key secret))
  | None =>
      public ← unwrap (ed_to_montgomery (public k));
      Ok (X25519.new None public)
  end.

Definition sign (k : KeyPair) (message : bytes) : option bytes :=
  (λ sk, ed_sign sk message) <$> secret k.

Definition verify (k : KeyPair) (message signature : bytes) : cres bool :=
  match ed_signature signature with
  | Some sig =>
      vk ← unwrap (ed_verifying_key (public k));
      Ok (ed_verify_strict vk message sig)
  | None => Ok false
  end.

Definition generate `{KeyMaterial R} (rng : R) : cres (R * KeyPair) :=
  '(rng, sk) ← read_okm 32 rng;
  sk ← array_from_slice SECRET_KEY_LENGTH sk;
  mret (rng, from_secret_key sk).

Definition from_secret_bytes (key : bytes) : cres KeyPair :=
  if (length key =? SECRET_KEY_LENGTH)%nat then Ok (from_secret_key key) else Err invalid_key_data.

Definition with_secret_bytes (k : KeyPair) : cres (option bytes) := Ok (secret k).

Definition from_keypair_bytes (kp : bytes) : cres KeyPair :=
  if negb (length kp =? KEYPAIR_LENGTH)%nat then Err invalid_key_data else
  result ← from_secret_bytes (take SECRET_KEY_LENGTH kp);
  _ ← check_public_bytes result (drop SECRET_KEY_LENGTH kp);
  mret result.

Definition with_keypair_bytes (k : KeyPair) : cres (option bytes) :=
  match secret k with
  | Some secret =>
      a ← array_from_slice SECRET_KEY_LENGTH secret;
      b ← array_from_slice (KEYPAIR_LENGTH - SECRET_KEY_LENGTH) (public k);
      Ok (Some (a ++ b))
  | None => Ok None
  end.

Definition from_public_bytes (key : bytes) : cres KeyPair :=
  vk ← ok_or (if (length key =? PUBLIC_KEY_LENGTH)%nat then ed_verifying_key key else None) invalid_key_data;
  Ok (mkKeyPair None vk).

Definition with_public_bytes (k : KeyPair) : cres bytes := Ok (public k).

Definition write_signature (k : KeyPair) (message : bytes) (sig_type : option SignatureType.t) : cres bytes :=
  if bool_decide (sig_type = None) || bool_decide (sig_type = Some SignatureType.EdDSA) then
    match sign k message with Some sig => Ok sig | None => Err missing_secret_key end
  else Err unsupported_signature.

Definition verify_signature (k : KeyPair) (message signature : bytes) (sig_type : option SignatureType.t)
    : cres bool :=
  if bool_decide (sig_type = None) || bool_decide (sig_type = Some SignatureType.EdDSA)
  then verify k message signature
  else Err unsupported_signature.

Definition encode_jwk `{JwkEncoder E} (k : KeyPair) (enc : E) : cres E :=
  enc ← add_str "crv" JWK_CURVE enc;
  enc ← add_str "kty" JWK_KEY_TYPE enc;
  buf ← with_public_bytes k;
  enc ← add_as_base64 "x" buf enc;
  if is_secret enc then
    buf ← with_secret_bytes k;
    match buf with Some sk => add_as_base64 "d" sk enc | None => Ok enc end
  else Ok enc.

Definition from_jwk_parts `{Base64} (jwk : JwkParts) : cres KeyPair :=
  if negb (String.eqb (kty jwk) JWK_KEY_TYPE)
  then Err (CryptoError.from_msg CryptoError.InvalidKeyData "Unsupported key type") else
  if negb (bool_decide (crv jwk = Some JWK_CURVE))
  then Err (CryptoError.from_msg CryptoError.InvalidKeyData "Unsupported key algorithm") else
  pk_arr ← decode_exact (jwk_x jwk) 32;
  match jwk_d jwk with
  | Some _ =>
      sk_arr ← decode_exact (jwk_d jwk) 32;
      kp ← from_secret_bytes sk_arr;
      _ ← check_public_bytes kp pk_arr;
      mret kp
  | None => from_public_bytes pk_arr
  end.
End Ops.
End Ed25519.

(** [TryFrom<&Ed25519KeyPair> for X25519KeyPair]. *)
Definition x25519_try_from `{Curve25519} (value : Ed25519.KeyPair) : cres X25519.KeyPair :=
  Ed25519.to_x25519_keypair value.

#[export] Instance x25519_meta : KeyMeta X25519.KeyPair := {| key_size := 32 |}.
#[export] Instance x25519_pair_meta : KeypairMeta X25519.KeyPair := {| public_key_size := 32; keypair_size := 64 |}.
#[export] Instance x25519_secret `{Curve25519} : KeySecretBytes X25519.KeyPair :=
  {| from_secret_bytes := X25519.from_secret_bytes; with_secret_bytes := X25519.with_secret_bytes |}.
#[export] Instance x25519_public : KeyPublicBytes X25519.KeyPair :=
  {| from_public_bytes := X25519.from_public_bytes; with_public_bytes := X25519.with_public_bytes |}.
#[export] Instance x25519_exchange `{Curve25519} : KeyExchange X25519.KeyPair :=
  {| write_key_exchange := X25519.write_key_exchange |}.
#[export] Instance x25519_to_jwk : ToJwk X25519.KeyPair := {| encode_jwk E H := X25519.encode_jwk (E := E) |}.
#[export] Instance x25519_from_jwk `{Curve25519} `{Base64} : FromJwk X25519.KeyPair :=
  {| from_jwk_parts := X25519.from_jwk_parts |}.

#[export] Instance ed25519_meta : KeyMeta Ed25519.KeyPair := {| key_size := 32 |}.
#[export] Instance ed25519_pair_meta : KeypairMeta Ed25519.KeyPair := {| public_key_size := 32; keypair_size := 64 |}.
#[export] Instance ed25519_secret `{Curve25519} : KeySecretBytes Ed25519.KeyPair :=
  {| from_secret_bytes := Ed25519.from_secret_bytes; with_secret_bytes := Ed25519.with_secret_bytes |}.
#[export] Instance ed25519_public `{Curve25519} : KeyPublicBytes Ed25519.KeyPair :=
  {| from_public_bytes := Ed25519.from_public_bytes; with_public_bytes := Ed25519.with_public_bytes |}.
#[export] Instance ed25519_sign `{Curve25519} : KeySign Ed25519.KeyPair :=
  {| write_signature := Ed25519.write_signature; verify_signature := Ed25519.verify_signature |}.
#[export] Instance ed25519_to_jwk : ToJwk Ed25519.KeyPair := {| encode_jwk E H := Ed25519.encode_jwk (E := E) |}.
#[export] Instance ed25519_from_jwk `{Curve25519} `{Base64} : FromJwk Ed25519.KeyPair :=
  {| from_jwk_parts := Ed25519.from_jwk_parts |}.

(** ** Lemmas *)

(** *** Octet key pairs as JSON web keys *)

Definition okp_attrs (curve : string) (mode : JwkEncoderMode.t) (pk : bytes) (sk : option bytes)
    : list (string * attr_value) :=
  [("crv", AStr curve); ("kty", AStr "OKP"); ("x", ABase64 pk)]
  ++ match sk with Some sk => if secret_mode mode then [("d", ABase64 sk)] else [] | None => [] end.

Lemma okp_encode `{EncoderLaws E} curve pk sk (e : E) :
  (enc ← add_str "crv" curve e; enc ← add_str "kty" "OKP" enc; enc ← add_as_base64 "x" pk enc;
   if is_secret enc then match sk with Some sk => add_as_base64 "d" sk enc | None => Ok enc end else Ok enc)
  = add_attrs (okp_attrs curve (enc_mode e) pk sk) e.
Proof.
  unfold okp_attrs. rewrite add_attrs_app.
  set (l := [("crv", AStr curve); ("kty", AStr "OKP"); ("x", ABase64 pk)]).
  trans (e' ← add_attrs l e;
    if is_secret e' then match sk with Some sk => add_as_base64 "d" sk e' | None => Ok e' end else Ok e').
  { cbn [l add_attrs add_attr].
    repeat (match goal with |- (?m ≫= _) = _ => destruct m; [|done|done]; cbn [mbind res_bind] end). done. }
  destruct (add_attrs l e) as [e'| |] eqn:El; [|done|done]. cbn [mbind res_bind].
  apply add_attrs_keeps in El as [Em _]. unfold is_secret. rewrite Em. unfold secret_mode.
  destruct (enc_mode e), sk as [sk|]; try done. cbn. by destruct (add_as_base64 _ _ _).
Qed.

Definition okp_parts (b64 : bytes → bytes) (curve : string) (mode : JwkEncoderMode.t) (pk : bytes)
    (sk : option bytes) : JwkParts :=
  mkJwk "OKP" None None (Some curve) (Some (string_of_bytes (b64 pk))) None
    (sk ← sk; if secret_mode mode then Some (string_of_bytes (b64 sk)) else None) None None.

Lemma okp_attrs_parts u b64 curve mode pk sk :
  visit_map u (attr_members b64 (okp_attrs curve mode pk sk)) = Ok (okp_parts b64 curve mode pk sk).
Proof.
  unfold okp_attrs, okp_parts. destruct sk as [sk|]; [destruct (secret_mode mode)|];
    cbn -[string_of_bytes as_bytes]; by rewrite !string_of_as_bytes.
Qed.

Section EdLemmas.
Context `{Curve25519Laws}.

(** *** X25519 *)

Definition x_ok (k : X25519.KeyPair) : Prop :=
  length (X25519.public k) = 32%nat
  ∧ match X25519.secret k with
    | Some sk => length sk = 32%nat ∧ X25519.public k = x_public_key sk
    | None => True
    end.

Lemma x_load_secret b k : X25519.from_secret_bytes b = Ok k ↔ length b = 32%nat ∧ k = X25519.from_secret_key b.
Proof.
  unfold X25519.from_secret_bytes, X25519.SECRET_KEY_LENGTH. destruct (length b =? 32)%nat eqn:E.
  - apply Nat.eqb_eq in E. naive_solver.
  - apply Nat.eqb_neq in E. naive_solver.
Qed.

Lemma x_from_secret_ok b : length b = 32%nat → x_ok (X25519.from_secret_key b).
Proof. intros Hb. split; [by apply x_public_key_length|done]. Qed.

Lemma x_ok_secret k sk : x_ok k → X25519.secret k = Some sk → k = X25519.from_secret_key sk ∧ length sk = 32%nat.
Proof. destruct k as [s p]. intros [_ Hk] Hs. cbn in *. subst s. destruct Hk as [Hl ->]. done. Qed.

#[export] Instance x25519_lawful : LawfulKeypair X25519.KeyPair.
Proof.
  refine {| pair_ok := x_ok; public_only k := X25519.new None (X25519.public k);
            secret_bytes_of := X25519.secret; public_bytes_of := X25519.public |}; cbn.
  - intros k [Hk _]. done.
  - done.
  - done.
  - intros [[sk|] pk]; done.
  - done.
  - done.
  - intros b _. unfold X25519.from_secret_bytes. by destruct (_ =? _)%nat.
  - intros b. unfold X25519.from_public_bytes. by destruct (_ =? _)%nat.
  - intros b k [Hb ->]%x_load_secret. split; [by apply x_from_secret_ok|done].
  - intros k b Hk Hb. apply x_load_secret. by apply and_comm, x_ok_secret.
  - intros b k. unfold X25519.from_public_bytes, X25519.PUBLIC_KEY_LENGTH.
    destruct (length b =? 32)%nat eqn:E; [|done]. intros [= <-]. apply Nat.eqb_eq in E. done.
  - intros k [Hk _]. unfold X25519.from_public_bytes. by rewrite Hk.
Defined.

Lemma x_encode_attrs `{EncoderLaws E} k (e : E) :
  X25519.encode_jwk k e = add_attrs (okp_attrs X25519.JWK_CURVE (enc_mode e) (X25519.public k) (X25519.secret k)) e.
Proof. exact (okp_encode _ _ _ e). Qed.

Lemma x_parts_load `{Base64} mode k : x_ok k →
  X25519.from_jwk_parts (okp_parts base64 X25519.JWK_CURVE mode (X25519.public k) (X25519.secret k))
  = Ok (if secret_mode mode then k else X25519.new None (X25519.public k)).
Proof.
  intros Hk. unfold X25519.from_jwk_parts, okp_parts. cbn [kty crv jwk_x jwk_d].
  change (String.eqb "OKP" X25519.JWK_KEY_TYPE) with true. rewrite bool_decide_eq_true_2 by done. cbn [negb].
  rewrite <- (proj1 Hk) at 1. rewrite decode_exact_encoded. cbn [mbind res_bind].
  destruct (X25519.secret k) as [sk|] eqn:Es; cbn [mbind option_bind].
  - destruct (x_ok_secret k sk Hk Es) as [Ek Hl]. destruct (secret_mode mode).
    + rewrite <- Hl, decode_exact_encoded. cbn [mbind res_bind].
      rewrite (proj2 (x_load_secret sk (X25519.from_secret_key sk))) by done. cbn [mbind res_bind].
      unfold X25519.check_public_bytes. rewrite <- Ek, bool_decide_eq_true_2 by done. done.
    + unfold X25519.from_public_bytes. by rewrite (proj1 Hk).
  - unfold X25519.from_public_bytes. rewrite (proj1 Hk). destruct k as [s p]. cbn in *. subst.
    by destruct (secret_mode mode).
Qed.

Lemma x_keypair_bytes k sk : x_ok k → X25519.secret k = Some sk →
  X25519.with_keypair_bytes k = Ok (Some (sk ++ X25519.public k)).
Proof.
  intros Hk Hs. destruct (x_ok_secret k sk Hk Hs) as [_ Hl]. unfold X25519.with_keypair_bytes. rewrite Hs.
  rewrite (array_from_slice_ok _ sk) by done. cbn [mbind res_bind].
  by rewrite array_from_slice_ok by exact (proj1 Hk).
Qed.

Lemma x_load_keypair sk pkb : length sk = 32%nat → length pkb = 32%nat →
  X25519.from_keypair_bytes (sk ++ pkb)
  = if bool_decide (x_public_key sk = pkb) then Ok (X25519.from_secret_key sk)
    else Err (CryptoError.from_msg CryptoError.InvalidKeyData "invalid x25519 keypair").
Proof.
  intros Hs Hp. unfold X25519.from_keypair_bytes.
  rewrite length_app, Hs, Hp. cbn [negb Nat.eqb Nat.add X25519.KEYPAIR_LENGTH X25519.SECRET_KEY_LENGTH X25519.PUBLIC_KEY_LENGTH].
  rewrite take_app_length', drop_app_length' by done.
  rewrite (proj2 (x_load_secret sk (X25519.from_secret_key sk))) by done. cbn. unfold X25519.check_public_bytes. cbn. by case_bool_decide.
Qed.

(** *** Ed25519 *)

(** The public key is a point; the secret part goes with it. *)
Definition ed_ok (k : Ed25519.KeyPair) : Prop :=
  length (Ed25519.public k) = 32%nat ∧ is_Some (ed_verifying_key (Ed25519.public k))
  ∧ match Ed25519.secret k with
    | Some sk => length sk = 32%nat ∧ Ed25519.public k = ed_public_key sk
    | None => True
    end.

Lemma ed_load_secret b k : Ed25519.from_secret_bytes b = Ok k ↔ length b = 32%nat ∧ k = Ed25519.from_secret_key b.
Proof.
  unfold Ed25519.from_secret_bytes, Ed25519.SECRET_KEY_LENGTH. destruct (length b =? 32)%nat eqn:E.
  - apply Nat.eqb_eq in E. naive_solver.
  - apply Nat.eqb_neq in E. naive_solver.
Qed.

Lemma ed_from_secret_ok b : length b = 32%nat → ed_ok (Ed25519.from_secret_key b).
Proof. intros Hb. split_and!; [by apply ed_public_key_length|by apply ed_public_key_valid|done]. Qed.

Lemma ed_ok_secret k sk : ed_ok k → Ed25519.secret k = Some sk → k = Ed25519.from_secret_key sk ∧ length sk = 32%nat.
Proof. destruct k as [s p]. intros (_ & _ & Hk) Hs. cbn in *. subst s. destruct Hk as [Hl ->]. done. Qed.

Lemma ed_load_public b k : Ed25519.from_public_bytes b = Ok k ↔
  length b = 32%nat ∧ is_Some (ed_verifying_key b) ∧ k = Ed25519.mkKeyPair None b.
Proof.
  unfold Ed25519.from_public_bytes, Ed25519.PUBLIC_KEY_LENGTH. destruct (length b =? 32)%nat eqn:E.
  - apply Nat.eqb_eq in E. destruct (ed_verifying_key b) as [b'|] eqn:Ev; cbn.
    + apply ed_verifying_key_bytes in Ev as ->. naive_solver.
    + split; [done|]. by intros (_ & [] & _).
  - apply Nat.eqb_neq in E. naive_solver.
Qed.

#[export] Instance ed25519_lawful : LawfulKeypair Ed25519.KeyPair.
Proof.
  refine {| pair_ok := ed_ok; public_only k := Ed25519.mkKeyPair None (Ed25519.public k);
            secret_bytes_of := Ed25519.secret; public_bytes_of := Ed25519.public |}; cbn.
  - intros k (Hl & Hv & _). done.
  - done.
  - done.
  - intros [[sk|] pk]; done.
  - done.
  - done.
  - intros b _. unfold Ed25519.from_secret_bytes. by destruct (_ =? _)%nat.
  - intros b. unfold Ed25519.from_public_bytes. destruct (_ =? _)%nat; [|done]. by destruct (ed_verifying_key b).
  - intros b k [Hb ->]%ed_load_secret. split; [by apply ed_from_secret_ok|done].
  - intros k b Hk Hb. apply ed_load_secret. by apply and_comm, ed_ok_secret.
  - intros b k (Hl & Hv & ->)%ed_load_public. done.
  - intros k (Hl & Hv & _). by apply ed_load_public.
Defined.

Lemma ed_encode_attrs `{EncoderLaws E} k (e : E) :
  Ed25519.encode_jwk k e = add_attrs (okp_attrs Ed25519.JWK_CURVE (enc_mode e) (Ed25519.public k) (Ed25519.secret k)) e.
Proof. exact (okp_encode _ _ _ e). Qed.

Lemma ed_parts_load `{Base64} mode k : ed_ok k →
  Ed25519.from_jwk_parts (okp_parts base64 Ed25519.JWK_CURVE mode (Ed25519.public k) (Ed25519.secret k))
  = Ok (if secret_mode mode then k else Ed25519.mkKeyPair None (Ed25519.public k)).
Proof.
  intros Hk. unfold Ed25519.from_jwk_parts, okp_parts. cbn [kty crv jwk_x jwk_d].
  change (String.eqb "OKP" Ed25519.JWK_KEY_TYPE) with true. rewrite bool_decide_eq_true_2 by done. cbn [negb].
  pose proof Hk as (Hl & Hv & _).
  assert (Ed25519.from_public_bytes (Ed25519.public k) = Ok (Ed25519.mkKeyPair None (Ed25519.public k))) as Hp
    by (by apply ed_load_public).
  rewrite <- Hl at 1. rewrite decode_exact_encoded. cbn [mbind res_bind].
  destruct (Ed25519.secret k) as [sk|] eqn:Es; cbn [mbind option_bind].
  - destruct (ed_ok_secret k sk Hk Es) as [Ek Hs]. destruct (secret_mode mode); [|done].
    rewrite <- Hs, decode_exact_encoded. cbn [mbind res_bind].
    rewrite (proj2 (ed_load_secret sk (Ed25519.from_secret_key sk))) by done. cbn [mbind res_bind].
    unfold Ed25519.check_public_bytes. rewrite <- Ek, bool_decide_eq_true_2 by done. done.
  - rewrite Hp. destruct k as [s p]. cbn in *. subst. by destruct (secret_mode mode).
Qed.

Lemma ed_keypair_bytes k sk : ed_ok k → Ed25519.secret k = Some sk →
  Ed25519.with_keypair_bytes k = Ok (Some (sk ++ Ed25519.public k)).
Proof.
  intros Hk Hs. destruct (ed_ok_secret k sk Hk Hs) as [_ Hl]. unfold Ed25519.with_keypair_bytes. rewrite Hs.
  rewrite (array_from_slice_ok _ sk) by done. cbn [mbind res_bind].
  by rewrite array_from_slice_ok by exact (proj1 Hk).
Qed.

Lemma ed_load_keypair sk pkb : length sk = 32%nat → length pkb = 32%nat →
  Ed25519.from_keypair_bytes (sk ++ pkb)
  = if bool_decide (ed_public_key sk = pkb) then Ok (Ed25519.from_secret_key sk)
    else Err (CryptoError.from_msg CryptoError.InvalidKeyData "invalid ed25519 keypair").
Proof.
  intros Hs Hp. unfold Ed25519.from_keypair_bytes.
  rewrite length_app, Hs, Hp. cbn [negb Nat.eqb Nat.add Ed25519.KEYPAIR_LENGTH Ed25519.SECRET_KEY_LENGTH].
  rewrite take_app_length', drop_app_length' by done.
  rewrite (proj2 (ed_load_secret sk (Ed25519.from_secret_key sk))) by done. cbn. unfold Ed25519.check_public_bytes. cbn. by case_bool_decide.
Qed.

(** *** Signatures and conversion *)

(** Verification never panics, and accepts what the key pair signed. *)
Lemma ed_verify_ok k m sig : ed_ok k → ∃ r, Ed25519.verify k m sig = Ok r.
Proof.
  intros (_ & [vk Hv] & _). unfold Ed25519.verify. destruct (ed_signature sig); [|by eexists].
  rewrite Hv. by eexists.
Qed.

Lemma ed_verify_signed k m sig : ed_ok k → Ed25519.sign k m = Some sig →
  length sig = 64%nat ∧ Ed25519.verify (public_only k) m sig = Ok true.
Proof.
  intros Hk Hs. unfold Ed25519.sign in Hs. destruct (Ed25519.secret k) as [sk|] eqn:Es; [|done].
  injection Hs as <-. destruct (ed_ok_secret k sk Hk Es) as [-> Hl].
  split; [apply ed_sign_length|]. unfold Ed25519.verify. cbn [public_only ed25519_lawful Ed25519.public].
  rewrite (ed_signature_length _ (ed_sign_length sk m)).
  destruct (ed_public_key_valid sk Hl) as [vk Hv]. cbn [Ed25519.from_secret_key Ed25519.public].
  rewrite Hv. cbn. apply ed_verifying_key_bytes in Hv as ->. by rewrite ed_verify_sign.
Qed.

(** Converting never panics, gives a sound key, and commutes with leaving the
    secret part out. *)
Lemma to_x25519_spec k : ed_ok k → ∃ x, Ed25519.to_x25519_keypair k = Ok x ∧ x_ok x
  ∧ (is_Some (X25519.secret x) ↔ is_Some (Ed25519.secret k))
  ∧ Ed25519.to_x25519_keypair (public_only k) = Ok (public_only x).
Proof.
  intros Hk. pose proof Hk as (Hl & Hv & _). unfold Ed25519.to_x25519_keypair. cbn [public_only ed25519_lawful Ed25519.secret Ed25519.public].
  destruct (Ed25519.secret k) as [sk|] eqn:Es.
  - destruct (ed_ok_secret k sk Hk Es) as [-> Hs].
    assert (length (take 32 (sha512 sk)) = 32%nat) as Ht by (rewrite length_take, sha512_length; lia).
    rewrite array_from_slice_ok by done. cbn [mbind res_bind]. eexists. split_and!; [done| | |].
    + apply (x_from_secret_ok (clamp_integer (take 32 (sha512 sk)))). by apply clamp_length.
    + split; by eexists.
    + cbn [Ed25519.from_secret_key Ed25519.public]. by rewrite montgomery_public.
  - destruct (proj1 (ed_verifying_key_point _) Hv) as [u Hu]. rewrite Hu. cbn. eexists.
    split_and!; [done|split; [by apply ed_montgomery_length in Hu|done]| |done].
    cbn. split; by intros [].
Qed.
End EdLemmas.

(** ** Toy arithmetic with the laws, for examples: a public key is its secret *)

Definition toy_25519 : Curve25519 := {|
  ed_public_key s := s;
  ed_verifying_key b := if (length b =? 32)%nat then Some b else None;
  ed_to_montgomery b := if (length b =? 32)%nat then Some b else None;
  ed_sign s m := resize 64 x00 (s ++ m);
  ed_signature b := if (length b =? 64)%nat then Some b else None;
  ed_verify_strict pk m sig := bool_decide (sig = resize 64 x00 (pk ++ m));
  sha512 m := resize 64 x00 m;
  clamp_integer b := b;
  x_public_key s := s;
  x_diffie_hellman a b := zip_with (λ x y, byte_of (byte_val x + byte_val y)) (resize 32 x00 a) (resize 32 x00 b);
|}.

#[export] Instance toy_25519_laws : @Curve25519Laws toy_25519.
Proof.
  constructor; cbn.
  - done.
  - intros b b'. destruct (_ =? _)%nat; [|done]. by intros [= ->].
  - intros b. by destruct (_ =? _)%nat.
  - intros s ->. by eexists.
  - intros b u. destruct (length b =? 32)%nat eqn:E; [|done]. intros [= ->]. by apply Nat.eqb_eq.
  - intros. lens.
  - intros b ->. done.
  - intros s m _. by rewrite bool_decide_eq_true_2.
  - intros. lens.
  - done.
  - done.
  - intros s p. rewrite length_zip_with. lens.
  - intros a b. generalize (resize 32 x00 a), (resize 32 x00 b). clear a b.
    intros l k. revert k. induction l as [|x l IH]; intros [|y k]; try done. cbn. by rewrite IH, N.add_comm.
  - intros s Hs. rewrite Hs. cbn. f_equal.
    rewrite take_resize. by rewrite resize_all_alt by (rewrite Hs; lia).
Qed.
