(* ===== verification/BlsKeys.v ===== *)
(** * BLS12-381 keys

    Models askar-crypto/src/alg/bls.rs: key pairs over any of the three kinds of
    public keys (the trait [BlsPublicKeyType] as a class with its instances G1, G2
    and G1G2), and the generator of key material of the BLS signature draft.  The
    arithmetic of the groups, SHA-256 and HKDF are third-party crates. *)

From S2P Require Import Prelude Words Errors Buffers KeyAlg Kdf Jwk JwkAttrs Random Repr EcKeys EdKeys.
Local Open Scope string_scope.
Local Open Scope list_scope.

(** ** The arithmetic *)

Class BlsArith := {
  scalar : Type;
  scalar_eq_dec :: EqDecision scalar;
  (** Of 32 little-endian bytes, and of 64 reduced. *)
  scalar_from_bytes : bytes → option scalar;
  scalar_to_bytes : scalar → bytes;
  scalar_from_bytes_wide : bytes → scalar;
  g1 : Type;
  g2 : Type;
  g1_eq_dec :: EqDecision g1;
  g2_eq_dec :: EqDecision g2;
  (** The generator times a scalar, as an affine point. *)
  g1_times : scalar → g1;
  g2_times : scalar → g2;
  g1_to_bytes : g1 → bytes;
  g2_to_bytes : g2 → bytes;
  g1_from_compressed : bytes → option g1;
  g2_from_compressed : bytes → option g2;
}.

Class BlsLaws `{BlsArith} := {
  (** The order of the groups. *)
  bls_order : N;
  bls_order_range : (0 < bls_order ≤ 256 ^ 32)%N;
  scalar_to_bytes_length s : length (scalar_to_bytes s) = 32%nat;
  scalar_reload s : scalar_from_bytes (scalar_to_bytes s) = Some s;
  scalar_from_bytes_value b s : length b = 32%nat → scalar_from_bytes b = Some s → scalar_to_bytes s = b;
  scalar_wide b : length b = 64%nat →
    le_value (scalar_to_bytes (scalar_from_bytes_wide b)) = (le_value b mod bls_order)%N;
  g1_length p : length (g1_to_bytes p) = 48%nat;
  g2_length p : length (g2_to_bytes p) = 96%nat;
  g1_reload p : g1_from_compressed (g1_to_bytes p) = Some p;
  g2_reload p : g2_from_compressed (g2_to_bytes p) = Some p;
}.

Class Hkdf := {
  sha256 : bytes → bytes;
  hkdf_extract : bytes → bytes → bytes;
  (** Fails on outputs that are too long. *)
  hkdf_expand : bytes → bytes → nat → option bytes;
  hkdf_expand_length prk info n b : hkdf_expand prk info n = Some b → length b = n;
}.

(** ** Kinds of public keys *)

Class BlsPublicKeyType `{BlsArith} := {
  Buffer : Type;
  Buffer_eq_dec :: EqDecision Buffer;
  BufferSize : nat;
  ALG_TYPE : BlsCurves.t;
  BLS_JWK_CURVE : string;
  get_jwk_curve : option KeyAlg.t → string;
  from_secret_scalar : scalar → Buffer;
  pk_from_public_bytes : bytes → cres Buffer;
  pk_with_bytes : Buffer → option KeyAlg.t → cres bytes;
}.

Section Kinds.
Context `{BlsArith}.

Definition g1_from_public_bytes (key : bytes) : cres g1 :=
  if negb (length key =? 48)%nat then Err invalid_key_data else ok_or (g1_from_compressed key) invalid_key_data.

Definition G1 : BlsPublicKeyType := {|
  Buffer := g1;
  BufferSize := 48;
  ALG_TYPE := BlsCurves.G1;
  BLS_JWK_CURVE := "BLS12381_G1";
  get_jwk_curve _ := "BLS12381_G1";
  from_secret_scalar := g1_times;
  pk_from_public_bytes := g1_from_public_bytes;
  pk_with_bytes buf _ := Ok (g1_to_bytes buf);
|}.

Definition g2_from_public_bytes (key : bytes) : cres g2 :=
  if negb (length key =? 96)%nat then Err invalid_key_data else ok_or (g2_from_compressed key) invalid_key_data.

Definition G2 : BlsPublicKeyType := {|
  Buffer := g2;
  BufferSize := 96;
  ALG_TYPE := BlsCurves.G2;
  BLS_JWK_CURVE := "BLS12381_G2";
  get_jwk_curve _ := "BLS12381_G2";
  from_secret_scalar := g2_times;
  pk_from_public_bytes := g2_from_public_bytes;
  pk_with_bytes buf _ := Ok (g2_to_bytes buf);
|}.

Definition is_alg (a : option KeyAlg.t) (c : BlsCurves.t) : bool := bool_decide (a = Some (KeyAlg.Bls12_381 c)).

Definition g1g2_jwk_curve (a : option KeyAlg.t) : string :=
  if is_alg a BlsCurves.G1 then "BLS12381_G1" else if is_alg a BlsCurves.G2 then "BLS12381_G2" else "BLS12381_G1G2".

Definition g1g2_from_public_bytes (key : bytes) : cres (g1 * g2) :=
  if negb (length key =? 144)%nat then Err invalid_key_data else
  k1 ← array_from_slice 48 (take 48 key);
  let g1 := g1_from_compressed k1 in
  k2 ← array_from_slice 96 (drop 48 key);
  let g2 := g2_from_compressed k2 in
  match g1, g2 with Some g1, Some g2 => Ok (g1, g2) | _, _ => Err invalid_key_data end.

Definition g1g2_with_bytes (buf : g1 * g2) (a : option KeyAlg.t) : cres bytes :=
  if is_alg a BlsCurves.G1 then array_from_slice 48 (g1_to_bytes buf.1)
  else if is_alg a BlsCurves.G2 then array_from_slice 96 (g2_to_bytes buf.2)
  else x ← array_from_slice 48 (g1_to_bytes buf.1); y ← array_from_slice (144 - 48) (g2_to_bytes buf.2); mret (x ++ y).

Definition G1G2 : BlsPublicKeyType := {|
  Buffer := g1 * g2;
  BufferSize := 144;
  ALG_TYPE := BlsCurves.G1G2;
  BLS_JWK_CURVE := "BLS12381_G1G2";
  get_jwk_curve := g1g2_jwk_curve;
  from_secret_scalar s := (g1_times s, g2_times s);
  pk_from_public_bytes := g1g2_from_public_bytes;
  pk_with_bytes := g1g2_with_bytes;
|}.
End Kinds.

(** ** Secret keys *)

Section Secrets.
Context `{BlsArith}.

(** Big-endian material in the last 48 of 64 bytes, reversed. *)
Definition bls_sk_generate `{KeyMaterial R} (rng : R) : cres (R * scalar) :=
  '(rng, okm) ← read_okm (64 - 16) rng;
  let secret := replicate 16 x00 ++ okm in
  mret (rng, scalar_from_bytes_wide (rev secret)).

Definition bls_sk_from_bytes (sk : bytes) : cres scalar :=
  if negb (length sk =? 32)%nat then Err invalid_key_data else
  ok_or (scalar_from_bytes (rev sk)) invalid_key_data.

(** The generator of key material, with its salt. *)
Record BlsKeyGen := mkKeyGen {
  kg_salt : option bytes;
  kg_ikm : bytes;
}.

Definition key_gen_new (ikm : bytes) : cres BlsKeyGen :=
  if (length ikm <? 32)%nat then Err (CryptoError.from_msg CryptoError.Usage "Insufficient length for seed")
  else Ok (mkKeyGen None ikm).

Context `{Hkdf}.

Definition SALT : bytes := as_bytes "BLS-SIG-KEYGEN-SALT-".

(** [buf.len() as u16] in big-endian order goes with the expansion. *)
Definition key_gen_read (n : nat) (g : BlsKeyGen) : cres (BlsKeyGen * bytes) :=
  let salt := match kg_salt g with None => sha256 SALT | Some salt => sha256 salt end in
  let g := mkKeyGen (Some salt) (kg_ikm g) in
  let prk := hkdf_extract salt (kg_ikm g ++ [x00]) in
  buf ← unwrap (hkdf_expand prk (be_bytes 2 (N.of_nat n)) n);
  Ok (g, buf).

#[export] Instance bls_key_gen : KeyMaterial BlsKeyGen.
Proof.
  refine {| read_okm := key_gen_read |}. intros n g g' b. unfold key_gen_read.
  destruct (hkdf_expand _ _ _) as [o|] eqn:E; [|done]. cbn. intros [= <- <-]. by eapply hkdf_expand_length.
Defined.
End Secrets.

(** ** Key pairs *)

Record BlsKeyPair `{BlsArith} (Pk : BlsPublicKeyType) := mkBls {
  bls_secret : option scalar;
  bls_public : Buffer;
}.
Arguments mkBls {_ Pk}.
Arguments bls_secret {_ Pk}.
Arguments bls_public {_ Pk}.

Section Pairs.
Context `{BlsArith} {Pk : BlsPublicKeyType}.

Definition bls_from_secret_key (sk : scalar) : BlsKeyPair Pk := mkBls (Some sk) (from_secret_scalar sk).

Definition bls_from_seed `{Hkdf} (seed : bytes) : cres (BlsKeyPair Pk) :=
  g ← key_gen_new seed; '(_, sk) ← bls_sk_generate g; mret (bls_from_secret_key sk).

Definition bls_check_public_bytes (k : BlsKeyPair Pk) (pk : bytes) : cres () :=
  slf ← pk_with_bytes (bls_public k) None;
  if bool_decide (slf = pk) then Ok ()
  else Err (CryptoError.from_msg CryptoError.InvalidKeyData "invalid BLS keypair").

Definition bls_eq (a b : BlsKeyPair Pk) : bool :=
  bool_decide (bls_secret b = bls_secret a) && bool_decide (bls_public b = bls_public a).

Definition bls_generate `{KeyMaterial R} (rng : R) : cres (R * BlsKeyPair Pk) :=
  '(rng, secret) ← bls_sk_generate rng; mret (rng, bls_from_secret_key secret).

Definition bls_from_secret_bytes (key : bytes) : cres (BlsKeyPair Pk) :=
  sk ← bls_sk_from_bytes key; Ok (bls_from_secret_key sk).

Definition bls_with_secret_bytes (k : BlsKeyPair Pk) : cres (option bytes) :=
  Ok ((λ sk, rev (scalar_to_bytes sk)) <$> bls_secret k).

Definition bls_from_public_bytes (key : bytes) : cres (BlsKeyPair Pk) :=
  public ← pk_from_public_bytes key; Ok (mkBls None public).

Definition bls_with_public_bytes (k : BlsKeyPair Pk) : cres bytes := pk_with_bytes (bls_public k) None.

Definition bls_encode_jwk `{JwkEncoder E} (k : BlsKeyPair Pk) (enc : E) : cres E :=
  enc ← add_str "crv" (get_jwk_curve (enc_alg enc)) enc;
  enc ← add_str "kty" "OKP" enc;
  buf ← pk_with_bytes (bls_public k) (enc_alg enc);
  enc ← add_as_base64 "x" buf enc;
  if is_secret enc then
    buf ← bls_with_secret_bytes k;
    match buf with Some sk => add_as_base64 "d" sk enc | None => Ok enc end
  else Ok enc.

Definition bls_from_jwk_parts `{Base64} (jwk : JwkParts) : cres (BlsKeyPair Pk) :=
  if negb (String.eqb (kty jwk) "OKP") && negb (String.eqb (kty jwk) "EC")
  then Err (CryptoError.from_msg CryptoError.InvalidKeyData "Unsupported key type") else
  if negb (bool_decide (crv jwk = Some BLS_JWK_CURVE))
  then Err (CryptoError.from_msg CryptoError.InvalidKeyData "Unsupported key algorithm") else
  pk_arr ← decode_exact (jwk_x jwk) BufferSize;
  match jwk_d jwk with
  | Some _ =>
      sk_arr ← decode_exact (jwk_d jwk) 32;
      sk ← bls_sk_from_bytes sk_arr;
      let result := bls_from_secret_key sk in
      _ ← bls_check_public_bytes result pk_arr;
      mret result
  | None => public ← pk_from_public_bytes pk_arr; Ok (mkBls None public)
  end.
End Pairs.

Definition bls_to_g1 `{BlsArith} (k : BlsKeyPair G1G2) : BlsKeyPair G1 := mkBls (Pk := G1) (bls_secret k) (bls_public k).1.
Definition bls_to_g2 `{BlsArith} (k : BlsKeyPair G1G2) : BlsKeyPair G2 := mkBls (Pk := G2) (bls_secret k) (bls_public k).2.

#[export] Instance bls_meta `{BlsArith} {Pk} : KeyMeta (BlsKeyPair Pk) := {| key_size := 32 |}.
#[export] Instance bls_pair_meta `{BlsArith} {Pk : BlsPublicKeyType} : KeypairMeta (BlsKeyPair Pk) :=
  {| public_key_size := BufferSize; keypair_size := 32 + BufferSize |}.
#[export] Instance bls_secret_repr `{BlsArith} {Pk} : KeySecretBytes (BlsKeyPair Pk) :=
  {| from_secret_bytes := bls_from_secret_bytes; with_secret_bytes := bls_with_secret_bytes |}.
#[export] Instance bls_public_repr `{BlsArith} {Pk} : KeyPublicBytes (BlsKeyPair Pk) :=
  {| from_public_bytes := bls_from_public_bytes; with_public_bytes := bls_with_public_bytes |}.
#[export] Instance bls_to_jwk `{BlsArith} {Pk} : ToJwk (BlsKeyPair Pk) := {| encode_jwk E H := bls_encode_jwk (E := E) |}.
#[export] Instance bls_from_jwk `{BlsArith} {Pk} `{Base64} : FromJwk (BlsKeyPair Pk) :=
  {| from_jwk_parts := bls_from_jwk_parts |}.

(** ** Lemmas *)

(** What a kind of public keys promises: its bytes have its size and load again,
    and name the kind's own curve unless another algorithm is asked for. *)
Class LawfulBlsPk `{BlsArith} (Pk : BlsPublicKeyType) := {
  pk_bytes : Buffer → bytes;
  pk_bytes_length b : length (pk_bytes b) = BufferSize;
  pk_bytes_own a b : a = None ∨ a = Some (KeyAlg.Bls12_381 ALG_TYPE) →
    get_jwk_curve a = BLS_JWK_CURVE ∧ pk_with_bytes b a = Ok (pk_bytes b);
  pk_reload b : pk_from_public_bytes (pk_bytes b) = Ok b;
  pk_load_no_panic b : pk_from_public_bytes b ≠ Panic;
}.

Section BlsLemmas.
Context `{BlsLaws}.

#[export] Instance g1_lawful : LawfulBlsPk G1.
Proof.
  refine {| pk_bytes := g1_to_bytes : @Buffer _ G1 → bytes |}; cbn.
  - apply g1_length.
  - done.
  - intros b. unfold g1_from_public_bytes. rewrite g1_length. cbn. by rewrite g1_reload.
  - intros b. unfold g1_from_public_bytes. destruct (_ =? _)%nat; [|done]. cbn. by destruct (g1_from_compressed b).
Defined.

#[export] Instance g2_lawful : LawfulBlsPk G2.
Proof.
  refine {| pk_bytes := g2_to_bytes : @Buffer _ G2 → bytes |}; cbn.
  - apply g2_length.
  - done.
  - intros b. unfold g2_from_public_bytes. rewrite g2_length. cbn. by rewrite g2_reload.
  - intros b. unfold g2_from_public_bytes. destruct (_ =? _)%nat; [|done]. cbn. by destruct (g2_from_compressed b).
Defined.

#[export] Instance g1g2_lawful : LawfulBlsPk G1G2.
Proof.
  refine {| pk_bytes := (λ b, g1_to_bytes b.1 ++ g2_to_bytes b.2) : @Buffer _ G1G2 → bytes |}; cbn.
  - intros b. by rewrite length_app, g1_length, g2_length.
  - intros a b Ha. unfold g1g2_jwk_curve, g1g2_with_bytes, is_alg.
    rewrite !bool_decide_eq_false_2 by (destruct Ha as [-> | ->]; done).
    rewrite (array_from_slice_ok _ (g1_to_bytes b.1)) by apply g1_length. cbn [mbind res_bind].
    by rewrite array_from_slice_ok by apply g2_length.
  - intros b. unfold g1g2_from_public_bytes. rewrite length_app, g1_length, g2_length. cbn [negb Nat.eqb Nat.add].
    rewrite take_app_length', drop_app_length' by (symmetry; apply g1_length).
    rewrite (array_from_slice_ok _ (g1_to_bytes b.1)) by apply g1_length. cbn [mbind res_bind].
    rewrite array_from_slice_ok by apply g2_length. cbn [mbind res_bind].
    rewrite g1_reload, g2_reload. by destruct b.
  - intros b. unfold g1g2_from_public_bytes. destruct (length b =? 144)%nat eqn:E; [|done]. cbn [negb].
    apply Nat.eqb_eq in E. rewrite (array_from_slice_ok _ (take 48 b)) by lens. cbn [mbind res_bind].
    rewrite array_from_slice_ok by lens. cbn [mbind res_bind].
    by destruct (g1_from_compressed (take 48 b)), (g2_from_compressed (drop 48 b)).
Defined.

Definition bls_sk_bytes (s : scalar) : bytes := rev (scalar_to_bytes s).

Lemma bls_sk_bytes_length s : length (bls_sk_bytes s) = 32%nat.
Proof. unfold bls_sk_bytes. by rewrite length_rev, scalar_to_bytes_length. Qed.

Lemma bls_sk_load b s : bls_sk_from_bytes b = Ok s ↔ b = bls_sk_bytes s.
Proof.
  unfold bls_sk_from_bytes, bls_sk_bytes. split.
  - destruct (length b =? 32)%nat eqn:E; [|done]. apply Nat.eqb_eq in E. cbn [negb].
    destruct (scalar_from_bytes (rev b)) as [s'|] eqn:Es; [|done]. intros [= ->].
    apply scalar_from_bytes_value in Es as ->; [by rewrite rev_involutive|lens].
  - intros ->. rewrite length_rev, scalar_to_bytes_length. cbn [negb Nat.eqb].
    by rewrite rev_involutive, scalar_reload.
Qed.

Context {Pk : BlsPublicKeyType} {PkL : LawfulBlsPk Pk}.

Definition bls_ok (k : BlsKeyPair Pk) : Prop :=
  match bls_secret k with Some s => bls_public k = from_secret_scalar s | None => True end.

Lemma bls_ok_secret k s : bls_ok k → bls_secret k = Some s → k = bls_from_secret_key s.
Proof. destruct k as [s' p]. unfold bls_ok. cbn. by intros Hk [= ->]; subst. Qed.

Lemma pk_with_none b : pk_with_bytes b None = Ok (pk_bytes b).
Proof. by apply pk_bytes_own; left. Qed.

#[export] Instance bls_lawful : LawfulKeypair (BlsKeyPair Pk).
Proof.
  refine {| pair_ok := bls_ok; public_only k := mkBls None (bls_public k);
            secret_bytes_of k := bls_sk_bytes <$> bls_secret k;
            public_bytes_of k := pk_bytes (bls_public k) |}; cbn.
  - done.
  - done.
  - done.
  - intros [[s|] p]; done.
  - done.
  - intros k _. apply pk_with_none.
  - intros b Hb. unfold bls_from_secret_bytes, bls_sk_from_bytes. rewrite Hb. cbn.
    by destruct (scalar_from_bytes _).
  - intros b. unfold bls_from_public_bytes. pose proof (pk_load_no_panic b). by destruct (pk_from_public_bytes b).
  - intros b k Hk. unfold bls_from_secret_bytes in Hk. bind_inv Hk. injection Hk as <-.
    apply bls_sk_load in E as ->. split; [done|]. split; [done|apply bls_sk_bytes_length].
  - intros k b Hk Hb. destruct (bls_secret k) as [s|] eqn:Es; [|done]. injection Hb as <-.
    unfold bls_from_secret_bytes. rewrite (proj2 (bls_sk_load _ s) eq_refl). cbn. by rewrite <- (bls_ok_secret k s).
  - intros b k. unfold bls_from_public_bytes. destruct (pk_from_public_bytes b); [|done|done]. by intros [= <-].
  - intros k _. unfold bls_from_public_bytes. by rewrite pk_reload.
Defined.

Lemma bls_encode_attrs `{EncoderLaws E} k (e : E) buf : pk_with_bytes (bls_public k) (enc_alg e) = Ok buf →
  bls_encode_jwk k e
  = add_attrs (okp_attrs (get_jwk_curve (enc_alg e)) (enc_mode e) buf (bls_sk_bytes <$> bls_secret k)) e.
Proof.
  intros Hb. rewrite <- okp_encode. unfold bls_encode_jwk.
  destruct (add_str "crv" _ e) as [e1| |] eqn:E1; [|done|done]. cbn [mbind res_bind].
  destruct (add_str "kty" "OKP" e1) as [e2| |] eqn:E2; [|done|done]. cbn [mbind res_bind].
  pose proof (add_attr_keeps ("crv", AStr (get_jwk_curve (enc_alg e))) e e1 E1) as [_ A1].
  pose proof (add_attr_keeps ("kty", AStr "OKP") e1 e2 E2) as [_ A2].
  by rewrite A2, A1, Hb.
Qed.

Lemma bls_parts_load `{Base64} mode k : bls_ok k →
  bls_from_jwk_parts (okp_parts base64 BLS_JWK_CURVE mode (pk_bytes (bls_public k)) (bls_sk_bytes <$> bls_secret k))
  = Ok (if secret_mode mode then k else mkBls None (bls_public k)).
Proof.
  intros Hk. unfold bls_from_jwk_parts, okp_parts. cbn [kty crv jwk_x jwk_d].
  change (String.eqb "OKP" "OKP") with true. rewrite bool_decide_eq_true_2 by done. cbn [negb andb].
  rewrite <- (pk_bytes_length (bls_public k)), decode_exact_encoded. cbn [mbind res_bind].
  destruct (bls_secret k) as [s|] eqn:Es; cbn [fmap option_fmap option_map mbind option_bind].
  - destruct (secret_mode mode); [|by rewrite pk_reload].
    rewrite <- (bls_sk_bytes_length s), decode_exact_encoded. cbn [mbind res_bind].
    rewrite (proj2 (bls_sk_load _ s) eq_refl). cbn [mbind res_bind].
    rewrite <- (bls_ok_secret k s) by done. unfold bls_check_public_bytes. rewrite pk_with_none. cbn [mbind res_bind].
    by rewrite bool_decide_eq_true_2.
  - rewrite pk_reload. cbn. destruct k as [s p]. cbn in *. subst. by destruct (secret_mode mode).
Qed.
End BlsLemmas.

(** The key of a combined pair for one of its groups is written as the
    conversion to that group is. *)
Lemma bls_jwk_of_group `{BlsLaws} `{EncoderLaws E} k (e : E) :
  (enc_alg e = Some (KeyAlg.Bls12_381 BlsCurves.G1) →
   bls_encode_jwk (Pk := G1G2) k e = bls_encode_jwk (bls_to_g1 k) e)
  ∧ (enc_alg e = Some (KeyAlg.Bls12_381 BlsCurves.G2) →
   bls_encode_jwk (Pk := G1G2) k e = bls_encode_jwk (bls_to_g2 k) e).
Proof.
  split; intros Ha.
  - rewrite (bls_encode_attrs (Pk := G1G2) k e (g1_to_bytes (bls_public k).1)).
    + rewrite (bls_encode_attrs (bls_to_g1 k) e (g1_to_bytes (bls_public k).1) eq_refl).
      cbn [get_jwk_curve G1 G1G2]. by rewrite Ha.
    + rewrite Ha. apply array_from_slice_ok, g1_length.
  - rewrite (bls_encode_attrs (Pk := G1G2) k e (g2_to_bytes (bls_public k).2)).
    + rewrite (bls_encode_attrs (bls_to_g2 k) e (g2_to_bytes (bls_public k).2) eq_refl).
      cbn [get_jwk_curve G2 G1G2]. by rewrite Ha.
    + rewrite Ha. apply array_from_slice_ok, g2_length.
Qed.

(** ** Key generation from a seed *)

(** One turn of [KeyGen] of the BLS signature draft 4 (section 2.3): the value of
    the output of HKDF in 48 bytes, modulo the order of the groups. *)
Definition draft_keygen_turn `{Hkdf} (order : N) (salt ikm : bytes) : option N :=
  okm ← hkdf_expand (hkdf_extract salt (ikm ++ [x00])) (be_bytes 2 48) 48;
  Some (be_value okm mod order)%N.

(** The loop of the draft, [while SK == 0]; no key information is used. *)
Fixpoint draft_keygen `{Hkdf} (fuel : nat) (order : N) (salt ikm : bytes) : option N :=
  match fuel with
  | O => None
  | S fuel =>
      let salt := sha256 salt in
      sk ← draft_keygen_turn order salt ikm;
      if (sk =? 0)%N then draft_keygen fuel order salt ikm else Some sk
  end.

(** The value of a secret scalar. *)
Definition scalar_value `{BlsArith} (s : scalar) : N := le_value (scalar_to_bytes s).

Lemma bls_seed_value `{BlsLaws} `{Hkdf} seed g s :
  key_gen_new seed = Ok g → (snd <$> bls_sk_generate g) = Ok s →
  draft_keygen_turn bls_order (sha256 SALT) seed = Some (scalar_value s).
Proof.
  unfold key_gen_new. destruct (_ <? _)%nat; [done|]. intros [= <-].
  unfold bls_sk_generate, draft_keygen_turn, scalar_value. change (64 - 16)%nat with 48%nat.
  cbn [read_okm bls_key_gen]. unfold key_gen_read. cbn [kg_salt kg_ikm].
  change (N.of_nat 48) with 48%N.
  destruct (hkdf_expand (hkdf_extract (sha256 SALT) (seed ++ [x00])) (be_bytes 2 48) 48) as [okm|] eqn:E; [|done].
  cbn [unwrap mbind res_bind option_bind fmap res_fmap mret res_ret snd].
  remember (rev (replicate 16 x00 ++ okm)) as w eqn:Hw. intros [= <-]. apply hkdf_expand_length in E. f_equal.
  subst w. 
  rewrite rev_app_distr. change (rev (replicate 16 x00)) with (replicate 16 x00).
  rewrite scalar_wide by lens. rewrite le_value_app, le_value_zeroes, N.mul_0_r, N.add_0_r. done.
Qed.

(** ** Toy arithmetic with the laws, for examples: points are scalars with zeroes *)

Record Sized (n : nat) := mkSized { sized : bytes; sized_ok : Is_true (length sized =? n)%nat }.
Arguments mkSized {n}.
Arguments sized {n}.

Lemma sized_eq n (a b : Sized n) : sized a = sized b → a = b.
Proof. destruct a as [a Ha], b as [b Hb]. cbn. intros ->. f_equal. apply proof_irrel. Qed.

#[export] Instance sized_eq_dec n : EqDecision (Sized n).
Proof. intros a b. destruct (decide (sized a = sized b)); [left; by apply sized_eq|right; congruence]. Defined.

Lemma sized_length n (a : Sized n) : length (sized a) = n.
Proof. destruct a as [b Hb]. cbn. apply Is_true_true in Hb. by apply Nat.eqb_eq. Qed.

Lemma resized_ok n (b : bytes) : Is_true (length (resize n x00 b) =? n)%nat.
Proof. apply Is_true_true, Nat.eqb_eq. lens. Qed.
Definition to_sized (n : nat) (b : bytes) : Sized n := mkSized (resize n x00 b) (resized_ok n b).
Definition of_sized (n : nat) (b : bytes) : option (Sized n) := if (length b =? n)%nat then Some (to_sized n b) else None.

Lemma to_sized_id n b : length b = n → sized (to_sized n b) = b.
Proof. intros <-. cbn. by rewrite resize_all. Qed.

Lemma of_sized_spec n b a : of_sized n b = Some a ↔ sized a = b.
Proof.
  unfold of_sized. split.
  - destruct (length b =? n)%nat eqn:E; [|done]. intros [= <-]. by apply to_sized_id, Nat.eqb_eq.
  - intros <-. rewrite sized_length, Nat.eqb_refl. f_equal. apply sized_eq, to_sized_id, sized_length.
Qed.

Definition toy_bls : BlsArith := {|
  scalar := Sized 32;
  scalar_from_bytes := of_sized 32;
  scalar_to_bytes := sized;
  scalar_from_bytes_wide b := to_sized 32 (le_bytes 32 (le_value b));
  g1 := Sized 48;
  g2 := Sized 96;
  g1_times s := to_sized 48 (sized s);
  g2_times s := to_sized 96 (sized s);
  g1_to_bytes := sized;
  g2_to_bytes := sized;
  g1_from_compressed := of_sized 48;
  g2_from_compressed := of_sized 96;
|}.

Lemma le_value_mod n v : le_value (le_bytes n v) = (v mod 256 ^ N.of_nat n)%N.
Proof.
  revert v. induction n as [|n IH]; intros v; [cbn; by rewrite N.mod_1_r|].
  cbn [le_bytes le_value]. rewrite IH, byte_val_of, Nat2N.inj_succ, N.pow_succ_r'.
  symmetry. apply N.Div0.mod_mul_r.
Qed.

#[export] Instance toy_bls_laws : @BlsLaws toy_bls.
Proof.
  refine {| bls_order := (256 ^ 32)%N |}; cbn [scalar_to_bytes scalar_from_bytes scalar_from_bytes_wide
    g1_to_bytes g2_to_bytes g1_from_compressed g2_from_compressed toy_bls].
  - split; [reflexivity|]. by apply N.le_refl.
  - apply sized_length.
  - intros s. by apply of_sized_spec.
  - intros b s _ Hs. by apply of_sized_spec.
  - intros b _. rewrite to_sized_id by apply le_bytes_length. apply le_value_mod.
  - apply sized_length.
  - apply sized_length.
  - intros p. by apply of_sized_spec.
  - intros p. by apply of_sized_spec.
Defined.

Definition toy_hkdf : Hkdf.
Proof.
  refine {| sha256 m := resize 32 x00 m; hkdf_extract salt ikm := resize 32 x00 ikm;
            hkdf_expand prk info n := Some (resize n x00 (info ++ prk)) |}.
  intros prk info n b [= <-]. lens.
Defined.

(** ** Properties *)

(** Key pairs from a seed are those of the KeyGen procedure of draft 4 whenever
    its first turn gives a key; where the draft would turn again because the key is
    zero, the zero key is returned. *)
Theorem bls_seed_draft `{BlsLaws} `{Hkdf} {Pk : BlsPublicKeyType} seed k :
  bls_from_seed (Pk := Pk) seed = Ok k →
  ∃ s, bls_secret k = Some s ∧ bls_public k = from_secret_scalar s
    ∧ (scalar_value s < bls_order)%N
    ∧ (scalar_value s ≠ 0%N → ∀ fuel, draft_keygen (S fuel) bls_order SALT seed = Some (scalar_value s))
    ∧ (scalar_value s = 0%N →
       draft_keygen_turn bls_order (sha256 SALT) seed = Some 0%N
       ∧ ∀ fuel, draft_keygen (S fuel) bls_order SALT seed = draft_keygen fuel bls_order (sha256 SALT) seed).
Proof.
  unfold bls_from_seed. intros Hk. bind_inv Hk. bind_inv Hk. destruct a0 as [g' s]. injection Hk as <-.
  pose proof (bls_seed_value seed a s E) as Hv. rewrite E0 in Hv. specialize (Hv eq_refl).
  exists s. split_and!; [done|done| | |].
  - unfold draft_keygen_turn in Hv. destruct (hkdf_expand _ _ _); [|done]. injection Hv as <-.
    pose proof bls_order_range. apply N.mod_lt. lia.
  - intros Hne fuel. cbn [draft_keygen]. rewrite Hv. cbn [mbind option_bind].
    by rewrite (proj2 (N.eqb_neq _ _)).
  - intros Hz. rewrite Hz in Hv. split; [done|]. intros fuel. cbn [draft_keygen]. by rewrite Hv.
Qed.

Lemma bls_seed_draft_witness :
  ∃ k s, @bls_from_seed toy_bls (@G1 toy_bls) toy_hkdf (replicate 32 x07) = Ok k ∧ bls_secret k = Some s
    ∧ (scalar_value s < @bls_order toy_bls _)%N.
Proof.
  assert (∃ k, @bls_from_seed toy_bls (@G1 toy_bls) toy_hkdf (replicate 32 x07) = Ok k) as [k E]
    by (eexists; reflexivity).
  pose proof (@bls_seed_draft toy_bls toy_bls_laws toy_hkdf (@G1 toy_bls) (replicate 32 x07) k E) as (s & Hs & _ & Hl & _).
  exists k, s. exact (conj E (conj Hs Hl)).
Defined.
