(* ===== verification/AnyKey.v ===== *)
(** * Keys of any algorithm

    Models askar-crypto/src/alg/any.rs: the type-erased key, its creation for an
    algorithm and the dispatch of its operations to the concrete types, with the
    default features (no hardware keys).  A key is an element of the sum of the
    concrete types; a downcast to another type fails, and [assume] then panics. *)

From S2P Require Import Prelude Words Errors Buffers Random Aead Aes KeyAlg Kdf Jwk JwkAttrs Repr.
From S2P Require Import EcKeys EdKeys BlsKeys.
Local Open Scope string_scope.
Local Open Scope list_scope.

(** ** The parameters of all key types *)

Class Crypto := {
  cr_25519 :: Curve25519;
  cr_k256 : EcCurve;
  cr_p256 : EcCurve;
  cr_p384 : EcCurve;
  cr_bls :: BlsArith;
  cr_a128gcm : AeadCipher;
  cr_a256gcm : AeadCipher;
  cr_a128cbc : CbcHmac;
  cr_a256cbc : CbcHmac;
  cr_a128kw : BlockCipher;
  cr_a256kw : BlockCipher;
  cr_c20p : AeadCipher;
  cr_xc20p : AeadCipher;
}.

(** [AesType::KeySize] and [JWK_ALG]. *)
Definition aes_key_size (t : AesTypes.t) : nat :=
  match t with
  | AesTypes.A128Gcm => 16 | AesTypes.A256Gcm => 32
  | AesTypes.A128CbcHs256 => 32 | AesTypes.A256CbcHs512 => 64
  | AesTypes.A128Kw => 16 | AesTypes.A256Kw => 32
  end.

Definition aes_jwk_alg (t : AesTypes.t) : string :=
  match t with
  | AesTypes.A128Gcm => "A128GCM" | AesTypes.A256Gcm => "A256GCM"
  | AesTypes.A128CbcHs256 => "A128CBC-HS256" | AesTypes.A256CbcHs512 => "A256CBC-HS512"
  | AesTypes.A128Kw => "A128KW" | AesTypes.A256Kw => "A256KW"
  end.

Section AnyKey.
Context `{Crypto}.

Definition chacha_cipher (t : Chacha20Types.t) : AeadCipher :=
  match t with Chacha20Types.C20P => cr_c20p | Chacha20Types.XC20P => cr_xc20p end.

Definition chacha_generate (t : Chacha20Types.t) `{KeyMaterial R} (rng : R) : cres (R * Chacha20Key) :=
  '(rng, key) ← read_okm (@cipher_key_size (chacha_cipher t)) rng; mret (rng, mkChacha key).

(** ** The key *)

Inductive AnyKey :=
| AnyAes (t : AesTypes.t) (k : AesKey)
| AnyBlsG1 (k : BlsKeyPair G1)
| AnyBlsG2 (k : BlsKeyPair G2)
| AnyBlsG1G2 (k : BlsKeyPair G1G2)
| AnyChacha (t : Chacha20Types.t) (k : Chacha20Key)
| AnyEd25519 (k : Ed25519.KeyPair)
| AnyX25519 (k : X25519.KeyPair)
| AnyK256 (k : EcKeyPair cr_k256)
| AnyP256 (k : EcKeyPair cr_p256)
| AnyP384 (k : EcKeyPair cr_p384).

Definition algorithm (k : AnyKey) : KeyAlg.t :=
  match k with
  | AnyAes t _ => KeyAlg.Aes t
  | AnyBlsG1 _ => KeyAlg.Bls12_381 BlsCurves.G1
  | AnyBlsG2 _ => KeyAlg.Bls12_381 BlsCurves.G2
  | AnyBlsG1G2 _ => KeyAlg.Bls12_381 BlsCurves.G1G2
  | AnyChacha t _ => KeyAlg.Chacha20 t
  | AnyEd25519 _ => KeyAlg.Ed25519
  | AnyX25519 _ => KeyAlg.X25519
  | AnyK256 _ => KeyAlg.EcCurve EcCurves.Secp256k1
  | AnyP256 _ => KeyAlg.EcCurve EcCurves.Secp256r1
  | AnyP384 _ => KeyAlg.EcCurve EcCurves.Secp384r1
  end.

(** [HasKeyBackend::key_backend], the default of all these types. *)
Definition backend (k : AnyKey) : KeyBackend.t := KeyBackend.Software.

(** The type of the key inside: one type for each algorithm. *)
Definition key_type_id (k : AnyKey) : KeyAlg.t := algorithm k.

(** [assume::<K>()]. *)
Definition assume_aes (t : AesTypes.t) (k : AnyKey) : cres AesKey :=
  match k with AnyAes t' k => if decide (t' = t) then Ok k else Panic | _ => Panic end.
Definition assume_chacha (t : Chacha20Types.t) (k : AnyKey) : cres Chacha20Key :=
  match k with AnyChacha t' k => if decide (t' = t) then Ok k else Panic | _ => Panic end.
Definition assume_g1 (k : AnyKey) : cres (BlsKeyPair G1) := match k with AnyBlsG1 k => Ok k | _ => Panic end.
Definition assume_g2 (k : AnyKey) : cres (BlsKeyPair G2) := match k with AnyBlsG2 k => Ok k | _ => Panic end.
Definition assume_g1g2 (k : AnyKey) : cres (BlsKeyPair G1G2) := match k with AnyBlsG1G2 k => Ok k | _ => Panic end.
Definition assume_ed25519 (k : AnyKey) : cres Ed25519.KeyPair := match k with AnyEd25519 k => Ok k | _ => Panic end.
Definition assume_x25519 (k : AnyKey) : cres X25519.KeyPair := match k with AnyX25519 k => Ok k | _ => Panic end.
Definition assume_k256 (k : AnyKey) : cres (EcKeyPair cr_k256) := match k with AnyK256 k => Ok k | _ => Panic end.
Definition assume_p256 (k : AnyKey) : cres (EcKeyPair cr_p256) := match k with AnyP256 k => Ok k | _ => Panic end.
Definition assume_p384 (k : AnyKey) : cres (EcKeyPair cr_p384) := match k with AnyP384 k => Ok k | _ => Panic end.

Definition unsupported (msg : string) : CryptoError.Error := CryptoError.from_msg CryptoError.Unsupported msg.

(** ** Creating keys *)

Definition with_rng {R K} (f : K → AnyKey) (r : cres (R * K)) : option (cres (R * AnyKey)) :=
  Some ((λ '(rng, k), (rng, f k)) <$> r).

(** The keys on the elliptic curves are searched for: [None] when the fuel for
    that is used up. *)
Definition generate_any_with_rng `{KeyMaterial R} (fuel : nat) (a : KeyAlg.t) (rng : R)
    : option (cres (R * AnyKey)) :=
  match a with
  | KeyAlg.Aes t => with_rng (AnyAes t) (aes_generate (aes_key_size t) rng)
  | KeyAlg.Bls12_381 BlsCurves.G1 => with_rng AnyBlsG1 (bls_generate rng)
  | KeyAlg.Bls12_381 BlsCurves.G2 => with_rng AnyBlsG2 (bls_generate rng)
  | KeyAlg.Bls12_381 BlsCurves.G1G2 => with_rng AnyBlsG1G2 (bls_generate rng)
  | KeyAlg.Chacha20 t => with_rng (AnyChacha t) (chacha_generate t rng)
  | KeyAlg.Ed25519 => with_rng AnyEd25519 (Ed25519.generate rng)
  | KeyAlg.X25519 => with_rng AnyX25519 (X25519.generate rng)
  | KeyAlg.EcCurve EcCurves.Secp256k1 => r ← K256.generate fuel rng; with_rng AnyK256 r
  | KeyAlg.EcCurve EcCurves.Secp256r1 => r ← P256.generate fuel rng; with_rng AnyP256 r
  | KeyAlg.EcCurve EcCurves.Secp384r1 => r ← P384.generate fuel rng; with_rng AnyP384 r
  end.

Definition generate_any_for_hardware (a : KeyAlg.t) : cres AnyKey :=
  Err (unsupported "Unsupported algorithm for key generation with id").
Definition get_any_with_id (a : KeyAlg.t) (id : string) : cres AnyKey :=
  Err (unsupported "Unsupported algorithm for key retrieval by id").

(** [AnyKeyCreate::random_det]. *)
Definition random_det `{StreamCipher} (fuel : nat) (a : KeyAlg.t) (seed : bytes) : option (cres AnyKey) :=
  match generate_any_with_rng (R := RandomDet) fuel a (random_det_new seed) with
  | Some r => Some (snd <$> r)
  | None => None
  end.

Definition from_public_bytes_any (a : KeyAlg.t) (public : bytes) : cres AnyKey :=
  match a with
  | KeyAlg.Bls12_381 BlsCurves.G1 => AnyBlsG1 <$> bls_from_public_bytes public
  | KeyAlg.Bls12_381 BlsCurves.G2 => AnyBlsG2 <$> bls_from_public_bytes public
  | KeyAlg.Bls12_381 BlsCurves.G1G2 => AnyBlsG1G2 <$> bls_from_public_bytes public
  | KeyAlg.Ed25519 => AnyEd25519 <$> Ed25519.from_public_bytes public
  | KeyAlg.X25519 => AnyX25519 <$> X25519.from_public_bytes public
  | KeyAlg.EcCurve EcCurves.Secp256k1 => AnyK256 <$> K256.from_public_bytes public
  | KeyAlg.EcCurve EcCurves.Secp256r1 => AnyP256 <$> P256.from_public_bytes public
  | KeyAlg.EcCurve EcCurves.Secp384r1 => AnyP384 <$> P384.from_public_bytes public
  | _ => Err (unsupported "Unsupported algorithm for public key import")
  end.

Definition from_secret_bytes_any (a : KeyAlg.t) (secret : bytes) : cres AnyKey :=
  match a with
  | KeyAlg.Aes t => AnyAes t <$> aes_from_secret_bytes (aes_key_size t) secret
  | KeyAlg.Bls12_381 BlsCurves.G1 => AnyBlsG1 <$> bls_from_secret_bytes secret
  | KeyAlg.Bls12_381 BlsCurves.G2 => AnyBlsG2 <$> bls_from_secret_bytes secret
  | KeyAlg.Bls12_381 BlsCurves.G1G2 => AnyBlsG1G2 <$> bls_from_secret_bytes secret
  | KeyAlg.Chacha20 t => AnyChacha t <$> @chacha_from_secret_bytes (chacha_cipher t) secret
  | KeyAlg.Ed25519 => AnyEd25519 <$> Ed25519.from_secret_bytes secret
  | KeyAlg.X25519 => AnyX25519 <$> X25519.from_secret_bytes secret
  | KeyAlg.EcCurve EcCurves.Secp256k1 => AnyK256 <$> K256.from_secret_bytes secret
  | KeyAlg.EcCurve EcCurves.Secp256r1 => AnyP256 <$> P256.from_secret_bytes secret
  | KeyAlg.EcCurve EcCurves.Secp384r1 => AnyP384 <$> P384.from_secret_bytes secret
  end.

Definition from_key_exchange_any (a : KeyAlg.t) (exchange : SliceWriter → cres SliceWriter) : cres AnyKey :=
  match a with
  | KeyAlg.Aes t => AnyAes t <$> aes_from_key_exchange (aes_key_size t) exchange
  | KeyAlg.Chacha20 t => AnyChacha t <$> @chacha_from_key_exchange (chacha_cipher t) exchange
  | _ => Err (unsupported "Unsupported algorithm for key exchange")
  end.

Definition from_key_derivation_any (a : KeyAlg.t) (derive : nat → cres bytes) : cres AnyKey :=
  match a with
  | KeyAlg.Aes t => AnyAes t <$> aes_from_key_derivation (aes_key_size t) derive
  | KeyAlg.Chacha20 t => AnyChacha t <$> @chacha_from_key_derivation (chacha_cipher t) derive
  | _ => Err (unsupported "Unsupported algorithm for key derivation")
  end.

Definition convert_key_any (key : AnyKey) (a : KeyAlg.t) : cres AnyKey :=
  match algorithm key, a with
  | KeyAlg.Bls12_381 BlsCurves.G1G2, KeyAlg.Bls12_381 BlsCurves.G1 =>
      k ← assume_g1g2 key; Ok (AnyBlsG1 (bls_to_g1 k))
  | KeyAlg.Bls12_381 BlsCurves.G1G2, KeyAlg.Bls12_381 BlsCurves.G2 =>
      k ← assume_g1g2 key; Ok (AnyBlsG2 (bls_to_g2 k))
  | KeyAlg.Ed25519, KeyAlg.X25519 => k ← assume_ed25519 key; AnyX25519 <$> x25519_try_from k
  | _, _ => Err (unsupported "Unsupported key conversion operation")
  end.

Definition get_key_id_any (key : AnyKey) : cres SecretBytes := Err (unsupported "Unsupported get key id operation").

(** The type and curve of a JWK. *)
Definition from_jwk_any `{Base64} (jwk : JwkParts) : cres AnyKey :=
  let c := default "" (crv jwk) in
  let okp := String.eqb (kty jwk) "OKP" in
  let ec := String.eqb (kty jwk) "EC" in
  if okp && String.eqb c Ed25519.JWK_CURVE then AnyEd25519 <$> Ed25519.from_jwk_parts jwk else
  if okp && String.eqb c X25519.JWK_CURVE then AnyX25519 <$> X25519.from_jwk_parts jwk else
  if (okp || ec) && String.eqb c (@BLS_JWK_CURVE _ G1) then AnyBlsG1 <$> bls_from_jwk_parts jwk else
  if (okp || ec) && String.eqb c (@BLS_JWK_CURVE _ G2) then AnyBlsG2 <$> bls_from_jwk_parts jwk else
  if (okp || ec) && String.eqb c (@BLS_JWK_CURVE _ G1G2) then AnyBlsG1G2 <$> bls_from_jwk_parts jwk else
  if ec && String.eqb c (JWK_CURVE K256.consts) then AnyK256 <$> K256.from_jwk_parts jwk else
  if ec && String.eqb c (JWK_CURVE P256.consts) then AnyP256 <$> P256.from_jwk_parts jwk else
  if ec && String.eqb c (JWK_CURVE P384.consts) then AnyP384 <$> P384.from_jwk_parts jwk else
  Err (unsupported "Unsupported JWK for key import").

#[export] Instance any_from_jwk `{Base64} : FromJwk AnyKey := {| from_jwk_parts := from_jwk_any |}.

(** ** Bytes of keys *)

Definition any_secret_bytes_length (k : AnyKey) : cres nat :=
  match algorithm k with
  | KeyAlg.Aes t => _ ← assume_aes t k; Ok (aes_key_size t)
  | KeyAlg.Bls12_381 BlsCurves.G1 => k ← assume_g1 k; secret_bytes_length k
  | KeyAlg.Bls12_381 BlsCurves.G2 => k ← assume_g2 k; secret_bytes_length k
  | KeyAlg.Bls12_381 BlsCurves.G1G2 => k ← assume_g1g2 k; secret_bytes_length k
  | KeyAlg.Chacha20 t => _ ← assume_chacha t k; Ok (@cipher_key_size (chacha_cipher t))
  | KeyAlg.Ed25519 => k ← assume_ed25519 k; secret_bytes_length k
  | KeyAlg.X25519 => k ← assume_x25519 k; secret_bytes_length k
  | KeyAlg.EcCurve EcCurves.Secp256k1 => _ ← assume_k256 k; Ok (SECRET_KEY_LENGTH K256.consts)
  | KeyAlg.EcCurve EcCurves.Secp256r1 => _ ← assume_p256 k; Ok (SECRET_KEY_LENGTH P256.consts)
  | KeyAlg.EcCurve EcCurves.Secp384r1 => _ ← assume_p384 k; Ok (SECRET_KEY_LENGTH P384.consts)
  end.

(** [key_to_secret]: the bytes [write_secret_bytes] writes. *)
Definition any_with_secret_bytes (k : AnyKey) : cres (option bytes) :=
  match algorithm k with
  | KeyAlg.Aes t => k ← assume_aes t k; Ok (Some (aes_bytes k))
  | KeyAlg.Bls12_381 BlsCurves.G1 => k ← assume_g1 k; bls_with_secret_bytes k
  | KeyAlg.Bls12_381 BlsCurves.G2 => k ← assume_g2 k; bls_with_secret_bytes k
  | KeyAlg.Bls12_381 BlsCurves.G1G2 => k ← assume_g1g2 k; bls_with_secret_bytes k
  | KeyAlg.Chacha20 t => k ← assume_chacha t k; Ok (Some (chacha_bytes k))
  | KeyAlg.Ed25519 => k ← assume_ed25519 k; Ed25519.with_secret_bytes k
  | KeyAlg.X25519 => k ← assume_x25519 k; X25519.with_secret_bytes k
  | KeyAlg.EcCurve EcCurves.Secp256k1 => k ← assume_k256 k; K256.with_secret_bytes k
  | KeyAlg.EcCurve EcCurves.Secp256r1 => k ← assume_p256 k; P256.with_secret_bytes k
  | KeyAlg.EcCurve EcCurves.Secp384r1 => k ← assume_p384 k; P384.with_secret_bytes k
  end.

(** [key_to_public]. *)
Definition any_with_public_bytes (k : AnyKey) : cres bytes :=
  match algorithm k with
  | KeyAlg.Bls12_381 BlsCurves.G1 => k ← assume_g1 k; bls_with_public_bytes k
  | KeyAlg.Bls12_381 BlsCurves.G2 => k ← assume_g2 k; bls_with_public_bytes k
  | KeyAlg.Bls12_381 BlsCurves.G1G2 => k ← assume_g1g2 k; bls_with_public_bytes k
  | KeyAlg.Ed25519 => k ← assume_ed25519 k; Ed25519.with_public_bytes k
  | KeyAlg.X25519 => k ← assume_x25519 k; X25519.with_public_bytes k
  | KeyAlg.EcCurve EcCurves.Secp256k1 => k ← assume_k256 k; K256.with_public_bytes k
  | KeyAlg.EcCurve EcCurves.Secp256r1 => k ← assume_p256 k; P256.with_public_bytes k
  | KeyAlg.EcCurve EcCurves.Secp384r1 => k ← assume_p384 k; P384.with_public_bytes k
  | _ => Err (unsupported "Public key export is not supported for this key type")
  end.

(** [ToSecretBytes] and [ToPublicBytes] for keys of any type. *)
Definition any_write_secret_bytes {B} `{WriteBuffer B} (k : AnyKey) (out : B) : cres B :=
  b ← any_with_secret_bytes k;
  match b with Some b => wb_write b out | None => Err missing_secret_key end.
Definition any_to_secret_bytes `{Allocator} (k : AnyKey) : cres SecretBytes :=
  any_write_secret_bytes k (with_capacity 128).
Definition any_write_public_bytes {B} `{WriteBuffer B} (k : AnyKey) (out : B) : cres B :=
  b ← any_with_public_bytes k; wb_write b out.
Definition any_to_public_bytes `{Allocator} (k : AnyKey) : cres SecretBytes :=
  any_write_public_bytes k (with_capacity 128).

(** ** Key exchange, signatures and JSON web keys *)

Definition any_write_key_exchange (k other : AnyKey) : cres bytes :=
  if negb (bool_decide (key_type_id k = key_type_id other)) then Err (unsupported "Unsupported key exchange") else
  match algorithm k with
  | KeyAlg.X25519 => a ← assume_x25519 k; b ← assume_x25519 other; X25519.write_key_exchange a b
  | KeyAlg.EcCurve EcCurves.Secp256k1 => a ← assume_k256 k; b ← assume_k256 other; K256.write_key_exchange a b
  | KeyAlg.EcCurve EcCurves.Secp256r1 => a ← assume_p256 k; b ← assume_p256 other; P256.write_key_exchange a b
  | KeyAlg.EcCurve EcCurves.Secp384r1 => a ← assume_p384 k; b ← assume_p384 other; P384.write_key_exchange a b
  | _ => Err (unsupported "Unsupported key exchange")
  end.

#[export] Instance any_exchange : KeyExchange AnyKey := {| write_key_exchange := any_write_key_exchange |}.

Definition any_write_signature (k : AnyKey) (message : bytes) (sig_type : option SignatureType.t) : cres bytes :=
  match algorithm k with
  | KeyAlg.Ed25519 => k ← assume_ed25519 k; Ed25519.write_signature k message sig_type
  | KeyAlg.EcCurve EcCurves.Secp256k1 => k ← assume_k256 k; K256.write_signature k message sig_type
  | KeyAlg.EcCurve EcCurves.Secp256r1 => k ← assume_p256 k; P256.write_signature k message sig_type
  | KeyAlg.EcCurve EcCurves.Secp384r1 => k ← assume_p384 k; P384.write_signature k message sig_type
  | _ => Err (unsupported "Signing is not supported for this key type")
  end.

Definition any_verify_signature (k : AnyKey) (message signature : bytes) (sig_type : option SignatureType.t)
    : cres bool :=
  match algorithm k with
  | KeyAlg.Ed25519 => k ← assume_ed25519 k; Ed25519.verify_signature k message signature sig_type
  | KeyAlg.EcCurve EcCurves.Secp256k1 => k ← assume_k256 k; K256.verify_signature k message signature sig_type
  | KeyAlg.EcCurve EcCurves.Secp256r1 => k ← assume_p256 k; P256.verify_signature k message signature sig_type
  | KeyAlg.EcCurve EcCurves.Secp384r1 => k ← assume_p384 k; P384.verify_signature k message signature sig_type
  | _ => Err (unsupported "Signature verification is not supported for this key type")
  end.

#[export] Instance any_sign : KeySign AnyKey :=
  {| write_signature := any_write_signature; verify_signature := any_verify_signature |}.

Definition any_encode_jwk {E} `{JwkEncoder E} (k : AnyKey) (enc : E) : cres E :=
  match algorithm k with
  | KeyAlg.Aes t => k ← assume_aes t k; symmetric_encode_jwk (aes_jwk_alg t) (aes_bytes k) enc
  | KeyAlg.Bls12_381 BlsCurves.G1 => k ← assume_g1 k; bls_encode_jwk k enc
  | KeyAlg.Bls12_381 BlsCurves.G2 => k ← assume_g2 k; bls_encode_jwk k enc
  | KeyAlg.Bls12_381 BlsCurves.G1G2 => k ← assume_g1g2 k; bls_encode_jwk k enc
  | KeyAlg.Chacha20 t => k ← assume_chacha t k; chacha_encode_jwk t k enc
  | KeyAlg.Ed25519 => k ← assume_ed25519 k; Ed25519.encode_jwk k enc
  | KeyAlg.X25519 => k ← assume_x25519 k; X25519.encode_jwk k enc
  | KeyAlg.EcCurve EcCurves.Secp256k1 => k ← assume_k256 k; K256.encode_jwk k enc
  | KeyAlg.EcCurve EcCurves.Secp256r1 => k ← assume_p256 k; P256.encode_jwk k enc
  | KeyAlg.EcCurve EcCurves.Secp384r1 => k ← assume_p384 k; P384.encode_jwk k enc
  end.

#[export] Instance any_to_jwk : ToJwk AnyKey := {| encode_jwk E H := any_encode_jwk (E := E) |}.

(** ** Authenticated encryption *)

Definition aead_unsupported : CryptoError.Error := unsupported "AEAD is not supported for this key type".

Definition any_encrypt_in_place {B} `{ResizeBuffer B} (k : AnyKey) (nonce aad : bytes) (buffer : B)
    : cres (B * nat) :=
  match algorithm k with
  | KeyAlg.Aes t =>
      k ← assume_aes t k;
      match t with
      | AesTypes.A128Gcm => @aes_encrypt_in_place cr_a128gcm _ _ k nonce aad buffer
      | AesTypes.A256Gcm => @aes_encrypt_in_place cr_a256gcm _ _ k nonce aad buffer
      | AesTypes.A128CbcHs256 => @cbc_encrypt_in_place cr_a128cbc (aes_bytes k) _ _ nonce aad buffer
      | AesTypes.A256CbcHs512 => @cbc_encrypt_in_place cr_a256cbc (aes_bytes k) _ _ nonce aad buffer
      | AesTypes.A128Kw => @kw_encrypt_in_place cr_a128kw (aes_bytes k) _ _ nonce aad buffer
      | AesTypes.A256Kw => @kw_encrypt_in_place cr_a256kw (aes_bytes k) _ _ nonce aad buffer
      end
  | KeyAlg.Chacha20 t => k ← assume_chacha t k; @chacha_encrypt_in_place (chacha_cipher t) _ _ k nonce aad buffer
  | _ => Err aead_unsupported
  end.

Definition any_decrypt_in_place {B} `{ResizeBuffer B} (k : AnyKey) (nonce aad : bytes) (buffer : B) : cres B :=
  match algorithm k with
  | KeyAlg.Aes t =>
      k ← assume_aes t k;
      match t with
      | AesTypes.A128Gcm => @aes_decrypt_in_place cr_a128gcm _ _ k nonce aad buffer
      | AesTypes.A256Gcm => @aes_decrypt_in_place cr_a256gcm _ _ k nonce aad buffer
      | AesTypes.A128CbcHs256 => @cbc_decrypt_in_place cr_a128cbc (aes_bytes k) _ _ nonce aad buffer
      | AesTypes.A256CbcHs512 => @cbc_decrypt_in_place cr_a256cbc (aes_bytes k) _ _ nonce aad buffer
      | AesTypes.A128Kw => @kw_decrypt_in_place cr_a128kw (aes_bytes k) _ _ nonce aad buffer
      | AesTypes.A256Kw => @kw_decrypt_in_place cr_a256kw (aes_bytes k) _ _ nonce aad buffer
      end
  | KeyAlg.Chacha20 t => k ← assume_chacha t k; @chacha_decrypt_in_place (chacha_cipher t) _ _ k nonce aad buffer
  | _ => Err aead_unsupported
  end.

(** The sizes of the concrete types; zeroes for the other keys. *)
Definition any_aead_params (k : AnyKey) : KeyAeadParams :=
  match k with
  | AnyAes AesTypes.A128Gcm _ => mkAeadParams (@cipher_nonce_size cr_a128gcm) (@cipher_tag_size cr_a128gcm)
  | AnyAes AesTypes.A256Gcm _ => mkAeadParams (@cipher_nonce_size cr_a256gcm) (@cipher_tag_size cr_a256gcm)
  | AnyAes AesTypes.A128CbcHs256 _ => mkAeadParams (@cbc_block_size cr_a128cbc) (@cbc_key_size cr_a128cbc)
  | AnyAes AesTypes.A256CbcHs512 _ => mkAeadParams (@cbc_block_size cr_a256cbc) (@cbc_key_size cr_a256cbc)
  | AnyAes AesTypes.A128Kw _ => mkAeadParams 0 8
  | AnyAes AesTypes.A256Kw _ => mkAeadParams 0 8
  | AnyChacha t _ => mkAeadParams (@cipher_nonce_size (chacha_cipher t)) (@cipher_tag_size (chacha_cipher t))
  | _ => mkAeadParams 0 0
  end.

Definition any_aead_padding (k : AnyKey) (msg_len : nat) : nat :=
  match k with
  | AnyAes AesTypes.A128CbcHs256 _ => @padding_length cr_a128cbc msg_len
  | AnyAes AesTypes.A256CbcHs512 _ => @padding_length cr_a256cbc msg_len
  | _ => 0
  end.

#[export] Instance any_aead : KeyAeadInPlace AnyKey := {
  aead_params := any_aead_params;
  aead_padding := any_aead_padding;
  encrypt_in_place B H := any_encrypt_in_place (B := B);
  decrypt_in_place B H := any_decrypt_in_place (B := B);
}.
End AnyKey.
Arguments AnyKey : clear implicits.
Arguments AnyKey {_}.
