(* ===== verification/AnyKeyLaws.v ===== *)
(** * Properties of keys of any algorithm

    The contracts of the concrete key types, carried over to the type-erased key:
    its invariant, round trips of its byte and JWK forms, key exchange, signatures
    and authenticated encryption. *)

From S2P Require Import Prelude Words Errors Buffers Random Aead Aes KeyAlg Kdf Jwk JwkAttrs JwkToy Repr.
From S2P Require Import EcKeys EdKeys BlsKeys AnyKey.
Local Open Scope string_scope.
Local Open Scope list_scope.

(** What the third-party crates document, for all of them. *)
Class CryptoLaws `{Crypto} := {
  laws_25519 :: Curve25519Laws;
  laws_k256 : EcCurveLaws cr_k256 K256.consts;
  laws_p256 : EcCurveLaws cr_p256 P256.consts;
  laws_p384 : EcCurveLaws cr_p384 P384.consts;
  laws_bls :: BlsLaws;
  laws_a128gcm : @CipherLaws cr_a128gcm;
  laws_a256gcm : @CipherLaws cr_a256gcm;
  laws_a128cbc : @CbcHmacLaws cr_a128cbc;
  laws_a256cbc : @CbcHmacLaws cr_a256cbc;
  laws_a128kw : @BlockCipherLaws cr_a128kw;
  laws_a256kw : @BlockCipherLaws cr_a256kw;
  laws_chacha t : @CipherLaws (chacha_cipher t);
  a128gcm_key : @cipher_key_size cr_a128gcm = 16%nat;
  a256gcm_key : @cipher_key_size cr_a256gcm = 32%nat;
  a128cbc_key : @cbc_key_size cr_a128cbc = 16%nat;
  a256cbc_key : @cbc_key_size cr_a256cbc = 32%nat;
}.

(** A law of a class at a hypothesis stated for its instance. *)
Ltac use_law H L := let X := fresh "L" in pose proof L as X; specialize (X H).

Section Laws.
Context `{CryptoLaws}.
#[local] Existing Instance laws_k256.
#[local] Existing Instance laws_p256.
#[local] Existing Instance laws_p384.

#[local] Instance meta_k256 : KeyMeta (EcKeyPair cr_k256) := ec_meta K256.consts.
#[local] Instance meta_p256 : KeyMeta (EcKeyPair cr_p256) := ec_meta P256.consts.
#[local] Instance meta_p384 : KeyMeta (EcKeyPair cr_p384) := ec_meta P384.consts.
#[local] Instance lawful_k256 : LawfulKeypair (EcKeyPair cr_k256) := ec_lawful K256.consts.
#[local] Instance lawful_p256 : LawfulKeypair (EcKeyPair cr_p256) := ec_lawful P256.consts.
#[local] Instance lawful_p384 : LawfulKeypair (EcKeyPair cr_p384) := ec_lawful P384.consts.

(** ** The invariant *)

Definition any_ok (k : AnyKey) : Prop :=
  match k with
  | AnyAes t k => length (aes_bytes k) = aes_key_size t
  | AnyChacha t k => length (chacha_bytes k) = @cipher_key_size (chacha_cipher t)
  | AnyBlsG1 k => pair_ok k
  | AnyBlsG2 k => pair_ok k
  | AnyBlsG1G2 k => pair_ok k
  | AnyEd25519 k => pair_ok k
  | AnyX25519 k => pair_ok k
  | AnyK256 k => pair_ok k
  | AnyP256 k => pair_ok k
  | AnyP384 k => pair_ok k
  end.

Definition any_secret_of (k : AnyKey) : option bytes :=
  match k with
  | AnyAes t k => Some (aes_bytes k)
  | AnyChacha t k => Some (chacha_bytes k)
  | AnyBlsG1 k => secret_bytes_of k
  | AnyBlsG2 k => secret_bytes_of k
  | AnyBlsG1G2 k => secret_bytes_of k
  | AnyEd25519 k => secret_bytes_of k
  | AnyX25519 k => secret_bytes_of k
  | AnyK256 k => secret_bytes_of k
  | AnyP256 k => secret_bytes_of k
  | AnyP384 k => secret_bytes_of k
  end.

(** The public bytes of a key pair. *)
Definition any_public_of (k : AnyKey) : option bytes :=
  match k with
  | AnyAes _ _ | AnyChacha _ _ => None
  | AnyBlsG1 k => Some (public_bytes_of k)
  | AnyBlsG2 k => Some (public_bytes_of k)
  | AnyBlsG1G2 k => Some (public_bytes_of k)
  | AnyEd25519 k => Some (public_bytes_of k)
  | AnyX25519 k => Some (public_bytes_of k)
  | AnyK256 k => Some (public_bytes_of k)
  | AnyP256 k => Some (public_bytes_of k)
  | AnyP384 k => Some (public_bytes_of k)
  end.

(** The key without its secret part; a symmetric key has no other part. *)
Definition any_public_only (k : AnyKey) : AnyKey :=
  match k with
  | AnyAes _ _ | AnyChacha _ _ => k
  | AnyBlsG1 k => AnyBlsG1 (public_only k)
  | AnyBlsG2 k => AnyBlsG2 (public_only k)
  | AnyBlsG1G2 k => AnyBlsG1G2 (public_only k)
  | AnyEd25519 k => AnyEd25519 (public_only k)
  | AnyX25519 k => AnyX25519 (public_only k)
  | AnyK256 k => AnyK256 (public_only k)
  | AnyP256 k => AnyP256 (public_only k)
  | AnyP384 k => AnyP384 (public_only k)
  end.

Lemma any_public_only_ok k : any_ok k → any_ok (any_public_only k).
Proof. destruct k; cbn [any_ok any_public_only]; try done; apply public_only_ok. Qed.

Lemma any_public_only_algorithm k : algorithm (any_public_only k) = algorithm k.
Proof. by destruct k. Qed.

(** ** Bytes *)

Lemma any_with_secret_spec k : any_ok k → any_with_secret_bytes k = Ok (any_secret_of k).
Proof.
  destruct k; cbn [any_ok any_secret_of]; unfold any_with_secret_bytes; cbn [algorithm]; intros Hk.
  1, 5: by cbn; rewrite decide_True.
  all: cbn [assume_g1 assume_g2 assume_g1g2 assume_ed25519 assume_x25519 assume_k256 assume_p256 assume_p384 mbind res_bind].
  all: exact (with_secret_spec _ Hk).
Qed.

Lemma any_with_public_spec k b : any_ok k → any_public_of k = Some b → any_with_public_bytes k = Ok b.
Proof.
  destruct k; cbn [any_ok any_public_of]; unfold any_with_public_bytes; cbn [algorithm]; intros Hk [= <-].
  all: cbn [assume_g1 assume_g2 assume_g1g2 assume_ed25519 assume_x25519 assume_k256 assume_p256 assume_p384 mbind res_bind].
  all: exact (with_public_spec _ Hk).
Qed.

Lemma fmap_ok_inv {E A B} (f : A → B) (r : res E A) b : (f <$> r) = Ok b → ∃ a, r = Ok a ∧ b = f a.
Proof. destruct r; cbn; naive_solver. Qed.

Lemma aes_load n b k : aes_from_secret_bytes n b = Ok k ↔ length b = n ∧ k = mkAes b.
Proof.
  unfold aes_from_secret_bytes, array_from_slice. destruct (length b =? n)%nat eqn:E; cbn.
  - apply Nat.eqb_eq in E. split; [by intros [= <-]|by intros [_ ->]].
  - apply Nat.eqb_neq in E. split; [done|by intros [? _]].
Qed.

Lemma chacha_load (C : AeadCipher) b k : chacha_from_secret_bytes b = Ok k ↔ length b = cipher_key_size ∧ k = mkChacha b.
Proof.
  unfold chacha_from_secret_bytes, array_from_slice. destruct (length b =? cipher_key_size)%nat eqn:E; cbn.
  - apply Nat.eqb_eq in E. split; [by intros [= <-]|by intros [_ ->]].
  - apply Nat.eqb_neq in E. split; [done|by intros [? _]].
Qed.

Lemma any_from_secret_spec a b k : from_secret_bytes_any a b = Ok k →
  algorithm k = a ∧ any_ok k ∧ any_secret_of k = Some b.
Proof.
  destruct a as [t|[]|t| | |[]]; cbn [from_secret_bytes_any]; intros Hk;
    apply fmap_ok_inv in Hk as (k' & Hk & ->).
  - apply aes_load in Hk as [Hl ->]. done.
  - use_law Hk (from_secret_spec (K := BlsKeyPair G1) b k'). naive_solver.
  - use_law Hk (from_secret_spec (K := BlsKeyPair G2) b k'). naive_solver.
  - use_law Hk (from_secret_spec (K := BlsKeyPair G1G2) b k'). naive_solver.
  - apply (chacha_load (chacha_cipher t)) in Hk as [Hl ->]. done.
  - use_law Hk (from_secret_spec (K := Ed25519.KeyPair) b k'). naive_solver.
  - use_law Hk (from_secret_spec (K := X25519.KeyPair) b k'). naive_solver.
  - use_law Hk (from_secret_spec (K := EcKeyPair cr_p256) b k'). naive_solver.
  - use_law Hk (from_secret_spec (K := EcKeyPair cr_k256) b k'). naive_solver.
  - use_law Hk (from_secret_spec (K := EcKeyPair cr_p384) b k'). naive_solver.
Qed.

Lemma any_secret_reload k b : any_ok k → any_secret_of k = Some b → from_secret_bytes_any (algorithm k) b = Ok k.
Proof.
  destruct k as [t [d]|k|k|k|t [d]|k|k|k|k|k]; cbn [any_ok any_secret_of algorithm from_secret_bytes_any]; intros Hk Hb.
  - injection Hb as <-. by rewrite (proj2 (aes_load _ d (mkAes d))).
  - by rewrite (secret_reload (K := BlsKeyPair G1) k b Hk Hb : bls_from_secret_bytes b = Ok k).
  - by rewrite (secret_reload (K := BlsKeyPair G2) k b Hk Hb : bls_from_secret_bytes b = Ok k).
  - by rewrite (secret_reload (K := BlsKeyPair G1G2) k b Hk Hb : bls_from_secret_bytes b = Ok k).
  - injection Hb as <-. by rewrite (proj2 (chacha_load (chacha_cipher t) d (mkChacha d))).
  - by rewrite (secret_reload k b Hk Hb : Ed25519.from_secret_bytes b = Ok k).
  - by rewrite (secret_reload k b Hk Hb : X25519.from_secret_bytes b = Ok k).
  - by rewrite (secret_reload k b Hk Hb : K256.from_secret_bytes b = Ok k).
  - by rewrite (secret_reload k b Hk Hb : P256.from_secret_bytes b = Ok k).
  - by rewrite (secret_reload k b Hk Hb : P384.from_secret_bytes b = Ok k).
Qed.

Lemma any_secret_length k b : any_ok k → any_secret_of k = Some b → any_secret_bytes_length k = Ok (length b).
Proof.
  intros Hk Hb. pose proof (any_secret_reload k b Hk Hb) as Hr.
  destruct k as [t [d]|k|k|k|t [d]|k|k|k|k|k]; cbn [any_ok algorithm from_secret_bytes_any] in *;
    apply fmap_ok_inv in Hr as (k' & Hr & _).
  1: apply aes_load in Hr as [-> _]; cbn; by rewrite decide_True.
  4: apply (chacha_load (chacha_cipher t)) in Hr as [-> _]; cbn; by rewrite decide_True.
  - use_law Hr (from_secret_spec (K := BlsKeyPair G1) b k'). destruct L as (_ & _ & ->). done.
  - use_law Hr (from_secret_spec (K := BlsKeyPair G2) b k'). destruct L as (_ & _ & ->). done.
  - use_law Hr (from_secret_spec (K := BlsKeyPair G1G2) b k'). destruct L as (_ & _ & ->). done.
  - use_law Hr (from_secret_spec (K := Ed25519.KeyPair) b k'). destruct L as (_ & _ & ->). done.
  - use_law Hr (from_secret_spec (K := X25519.KeyPair) b k'). destruct L as (_ & _ & ->). done.
  - use_law Hr (from_secret_spec (K := EcKeyPair cr_k256) b k'). destruct L as (_ & _ & ->). done.
  - use_law Hr (from_secret_spec (K := EcKeyPair cr_p256) b k'). destruct L as (_ & _ & ->). done.
  - use_law Hr (from_secret_spec (K := EcKeyPair cr_p384) b k'). destruct L as (_ & _ & ->). done.
Qed.

Lemma any_from_public_spec a b k : from_public_bytes_any a b = Ok k →
  algorithm k = a ∧ any_ok k ∧ any_secret_of k = None.
Proof.
  destruct a as [t|[]|t| | |[]]; cbn [from_public_bytes_any]; intros Hk; try done;
    apply fmap_ok_inv in Hk as (k' & Hk & ->); (split; [done|]); cbn [any_ok any_secret_of].
  - use_law Hk (from_public_spec (K := BlsKeyPair G1) b k'). done.
  - use_law Hk (from_public_spec (K := BlsKeyPair G2) b k'). done.
  - use_law Hk (from_public_spec (K := BlsKeyPair G1G2) b k'). done.
  - use_law Hk (from_public_spec (K := Ed25519.KeyPair) b k'). done.
  - use_law Hk (from_public_spec (K := X25519.KeyPair) b k'). done.
  - use_law Hk (from_public_spec (K := EcKeyPair cr_p256) b k'). done.
  - use_law Hk (from_public_spec (K := EcKeyPair cr_k256) b k'). done.
  - use_law Hk (from_public_spec (K := EcKeyPair cr_p384) b k'). done.
Qed.

Lemma any_public_reload k b : any_ok k → any_public_of k = Some b →
  from_public_bytes_any (algorithm k) b = Ok (any_public_only k).
Proof.
  destruct k as [t d|k|k|k|t d|k|k|k|k|k]; cbn [any_ok any_public_of algorithm from_public_bytes_any any_public_only];
    intros Hk Hb; try done; apply (inj Some) in Hb as <-.
  - by rewrite (public_reload k Hk : bls_from_public_bytes _ = _).
  - by rewrite (public_reload k Hk : bls_from_public_bytes _ = _).
  - by rewrite (public_reload k Hk : bls_from_public_bytes _ = _).
  - by rewrite (public_reload k Hk : Ed25519.from_public_bytes _ = _).
  - by rewrite (public_reload k Hk : X25519.from_public_bytes _ = _).
  - by rewrite (public_reload k Hk : K256.from_public_bytes _ = _).
  - by rewrite (public_reload k Hk : P256.from_public_bytes _ = _).
  - by rewrite (public_reload k Hk : P384.from_public_bytes _ = _).
Qed.

(** ** JSON web keys *)

Definition sym_attrs (mode : JwkEncoderMode.t) (name : string) (key : bytes) : list (string * attr_value) :=
  match mode with JwkEncoderMode.Thumbprint => [] | _ => [("alg", AStr name)] end
  ++ [("k", ABase64 key); ("kty", AStr "oct")].

(** The attributes of a key that is written under its own algorithm. *)
Definition any_attrs (mode : JwkEncoderMode.t) (k : AnyKey) : list (string * attr_value) :=
  match k with
  | AnyAes t k => sym_attrs mode (aes_jwk_alg t) (aes_bytes k)
  | AnyChacha t k => sym_attrs mode (chacha_jwk_alg t) (chacha_bytes k)
  | AnyBlsG1 k => okp_attrs (@BLS_JWK_CURVE _ G1) mode (public_bytes_of k) (secret_bytes_of k)
  | AnyBlsG2 k => okp_attrs (@BLS_JWK_CURVE _ G2) mode (public_bytes_of k) (secret_bytes_of k)
  | AnyBlsG1G2 k => okp_attrs (@BLS_JWK_CURVE _ G1G2) mode (public_bytes_of k) (secret_bytes_of k)
  | AnyEd25519 k => okp_attrs Ed25519.JWK_CURVE mode (public_bytes_of k) (secret_bytes_of k)
  | AnyX25519 k => okp_attrs X25519.JWK_CURVE mode (public_bytes_of k) (secret_bytes_of k)
  | AnyK256 k => ec_attrs K256.consts mode k
  | AnyP256 k => ec_attrs P256.consts mode k
  | AnyP384 k => ec_attrs P384.consts mode k
  end.

Lemma any_attrs_nonempty mode k : any_attrs mode k ≠ [].
Proof. by destruct k, mode. Qed.

Lemma any_attrs_plain mode k : Forall attr_plain (any_attrs mode k).
Proof.
  destruct k as [t k|k|k|k|t k|k|k|k|k|k]; cbn [any_attrs]; unfold sym_attrs, okp_attrs, ec_attrs.
  1: destruct mode, t; repeat constructor.
  4: destruct mode, t; repeat constructor.
  all: apply Forall_app; split; [repeat constructor|].
  all: repeat match goal with
       | |- Forall _ (match ?x with _ => _ end) => destruct x
       | |- Forall _ (if ?x then _ else _) => destruct x
       end; repeat constructor.
Qed.

Lemma sym_encode `{EncoderLaws E} name key (e : E) : enc_mode e ≠ JwkEncoderMode.PublicKey →
  symmetric_encode_jwk name key e = add_attrs (sym_attrs (enc_mode e) name key) e.
Proof.
  intros Hm. unfold symmetric_encode_jwk, is_public, is_thumbprint, sym_attrs.
  destruct (enc_mode e); [done| |]; cbn [negb app add_attrs add_attr mbind res_bind].
  - destruct (add_str "alg" name e) as [e1| |]; [|done|done]. cbn [mbind res_bind].
    destruct (add_as_base64 "k" key e1) as [e2| |]; [|done|done]. cbn [mbind res_bind].
    by destruct (add_str "kty" "oct" e2).
  - cbn [mret res_ret mbind res_bind]. destruct (add_as_base64 "k" key e) as [e2| |]; [|done|done]. cbn [mbind res_bind].
    by destruct (add_str "kty" "oct" e2).
Qed.

Lemma any_encode_attrs `{EncoderLaws E} k (e : E) :
  enc_alg e = None ∨ enc_alg e = Some (algorithm k) →
  any_public_of k ≠ None ∨ enc_mode e ≠ JwkEncoderMode.PublicKey →
  any_encode_jwk k e = add_attrs (any_attrs (enc_mode e) k) e.
Proof.
  intros Ha Hm. unfold any_encode_jwk. destruct k as [t k|k|k|k|t k|k|k|k|k|k]; cbn [algorithm any_attrs] in *.
  1: cbn; rewrite decide_True by done; cbn; apply sym_encode; naive_solver.
  4: cbn; rewrite decide_True by done; cbn; apply sym_encode; naive_solver.
  all: cbn [assume_g1 assume_g2 assume_g1g2 assume_ed25519 assume_x25519 assume_k256 assume_p256 assume_p384 mbind res_bind].
  1-3: destruct (pk_bytes_own (enc_alg e) (bls_public k) Ha) as [Hc Hb]; rewrite (bls_encode_attrs k e _ Hb), Hc; done.
  - apply ed_encode_attrs.
  - apply x_encode_attrs.
  - exact (ec_encode_attrs K256.consts k e).
  - exact (ec_encode_attrs P256.consts k e).
  - exact (ec_encode_attrs P384.consts k e).
Qed.

(** What is read from the attributes: the key, or its public part. *)
Lemma any_attrs_load `{Base64} u mode k : any_ok k → any_public_of k ≠ None →
  ∃ parts, visit_map u (attr_members base64 (any_attrs mode k)) = Ok parts
    ∧ from_jwk_any parts = Ok (if secret_mode mode then k else any_public_only k).
Proof.
  intros Hk Hp. destruct k as [t k|k|k|k|t k|k|k|k|k|k]; try done; cbn [any_attrs any_public_only any_ok] in *.
  1-5: eexists; split; [apply okp_attrs_parts|].
  6-8: eexists; split; [apply ec_attrs_parts|].
  - trans (AnyBlsG1 <$> bls_from_jwk_parts (okp_parts base64 (@BLS_JWK_CURVE _ G1) mode (pk_bytes (bls_public k)) (bls_sk_bytes <$> bls_secret k)));
      [done|]. rewrite bls_parts_load by exact Hk. by destruct (secret_mode mode).
  - trans (AnyBlsG2 <$> bls_from_jwk_parts (okp_parts base64 (@BLS_JWK_CURVE _ G2) mode (pk_bytes (bls_public k)) (bls_sk_bytes <$> bls_secret k)));
      [done|]. rewrite bls_parts_load by exact Hk. by destruct (secret_mode mode).
  - trans (AnyBlsG1G2 <$> bls_from_jwk_parts (okp_parts base64 (@BLS_JWK_CURVE _ G1G2) mode (pk_bytes (bls_public k)) (bls_sk_bytes <$> bls_secret k)));
      [done|]. rewrite bls_parts_load by exact Hk. by destruct (secret_mode mode).
  - trans (AnyEd25519 <$> Ed25519.from_jwk_parts (okp_parts base64 Ed25519.JWK_CURVE mode (Ed25519.public k) (Ed25519.secret k)));
      [done|]. rewrite ed_parts_load by exact Hk. by destruct (secret_mode mode).
  - trans (AnyX25519 <$> X25519.from_jwk_parts (okp_parts base64 X25519.JWK_CURVE mode (X25519.public k) (X25519.secret k)));
      [done|]. rewrite x_parts_load by exact Hk. by destruct (secret_mode mode).
  - trans (AnyK256 <$> ec_from_jwk_parts K256.consts (ec_parts K256.consts base64 mode k)); [done|].
    rewrite (ec_parts_load K256.consts mode k Hk). by destruct (secret_mode mode).
  - trans (AnyP256 <$> ec_from_jwk_parts P256.consts (ec_parts P256.consts base64 mode k)); [done|].
    rewrite (ec_parts_load P256.consts mode k Hk). by destruct (secret_mode mode).
  - trans (AnyP384 <$> ec_from_jwk_parts P384.consts (ec_parts P384.consts base64 mode k)); [done|].
    rewrite (ec_parts_load P384.consts mode k Hk). by destruct (secret_mode mode).
Qed.

(** A symmetric key's members are read, and refused. *)
Lemma any_attrs_symmetric `{Base64} u k : any_public_of k = None →
  ∃ parts, visit_map u (attr_members base64 (any_attrs JwkEncoderMode.SecretKey k)) = Ok parts
    ∧ from_jwk_any parts = Err (unsupported "Unsupported JWK for key import").
Proof.
  destruct k as [t k|k|k|k|t k|k|k|k|k|k]; try done; intros _; destruct t; (eexists; split; [reflexivity|]); reflexivity.
Qed.

(** ** Creation *)

Lemma with_rng_inv {R K} (f : K → AnyKey) (r : cres (R * K)) r' k :
  with_rng f r = Some (Ok (r', k)) → ∃ k', r = Ok (r', k') ∧ k = f k'.
Proof.
  unfold with_rng. intros E. injection E as E. apply fmap_ok_inv in E as ([r1 k'] & -> & [= -> ->]). eauto.
Qed.

Lemma ec_generate_ok `{KeyMaterial R} (C : EcCurve) fuel (r r' : R) (k : EcKeyPair C) :
  ec_generate fuel r = Some (Ok (r', k)) → ec_ok k.
Proof.
  intros Hg. assert (∃ fuel, ec_generate fuel r = Some (Ok (r', k))) as Hx by eauto.
  apply ec_generate_spec in Hx as (sk & _ & ->). done.
Qed.

(** A generated key is sound and of the algorithm that was asked for. *)
Lemma generate_any_ok `{KeyMaterial R} fuel a (r r' : R) k :
  generate_any_with_rng fuel a r = Some (Ok (r', k)) → algorithm k = a ∧ any_ok k.
Proof.
  destruct a as [t|[]|t| | |[]]; cbn [generate_any_with_rng]; intros Hg.
  1-7: apply with_rng_inv in Hg as (k' & Hg & ->); split; [done|]; cbn [any_ok].
  - unfold aes_generate in Hg. bind_inv Hg. destruct a as [r1 b]. injection Hg as <- <-. cbn. by eapply read_okm_length.
  - unfold bls_generate in Hg. bind_inv Hg. destruct a as [r1 b]. by injection Hg as <- <-.
  - unfold bls_generate in Hg. bind_inv Hg. destruct a as [r1 b]. by injection Hg as <- <-.
  - unfold bls_generate in Hg. bind_inv Hg. destruct a as [r1 b]. by injection Hg as <- <-.
  - unfold chacha_generate in Hg. bind_inv Hg. destruct a as [r1 b]. injection Hg as <- <-. cbn. by eapply read_okm_length.
  - unfold Ed25519.generate in Hg. bind_inv Hg. destruct a as [r1 b]. apply read_okm_length in E.
    rewrite (array_from_slice_ok _ b) in Hg by done. injection Hg as <- <-. by apply ed_from_secret_ok.
  - unfold X25519.generate in Hg. bind_inv Hg. destruct a as [r1 b]. apply read_okm_length in E.
    rewrite (array_from_slice_ok _ b) in Hg by done. injection Hg as <- <-. by apply x_from_secret_ok.
  - destruct (P256.generate fuel r) as [x|] eqn:E; [|done]. apply with_rng_inv in Hg as (k' & -> & ->).
    split; [done|]. by eapply ec_generate_ok.
  - destruct (K256.generate fuel r) as [x|] eqn:E; [|done]. apply with_rng_inv in Hg as (k' & -> & ->).
    split; [done|]. by eapply ec_generate_ok.
  - destruct (P384.generate fuel r) as [x|] eqn:E; [|done]. apply with_rng_inv in Hg as (k' & -> & ->).
    split; [done|]. by eapply ec_generate_ok.
Qed.

(** Conversion keeps keys sound, and leaves the secret part in or out. *)
Lemma convert_any_ok k a k' : any_ok k → convert_key_any k a = Ok k' →
  algorithm k' = a ∧ any_ok k' ∧ convert_key_any (any_public_only k) a = Ok (any_public_only k').
Proof.
  intros Hk. unfold convert_key_any.
  destruct k as [t k|k|k|k|t k|k|k|k|k|k]; cbn [algorithm any_public_only any_ok] in *; try done.
  - destruct a as [|[]| | | |]; try done; cbn [assume_g1g2 mbind res_bind]; intros [= <-];
      (split; [done|]); (split; [|done]); destruct k as [[sk|] pk]; cbn in *; try done;
      unfold bls_ok in *; cbn in *; by subst.
  - destruct a; try done. cbn [assume_ed25519 mbind res_bind]. unfold x25519_try_from.
    destruct (to_x25519_spec k Hk) as (x & -> & Hx & _ & Hp). intros [= <-]. cbn [algorithm any_public_only].
    split_and!; [done|exact Hx|]. rewrite Hp. done.
Qed.

(** Keys read from a JWK. *)
Lemma ec_jwk_ok P (C : EcCurve) `{Base64} jwk (k : EcKeyPair C) : ec_from_jwk_parts P jwk = Ok k → ec_ok k.
Proof.
  unfold ec_from_jwk_parts. intros E. repeat (case_match; [done|]). do 3 (bind_inv E). destruct (jwk_d jwk).
  - bind_inv E. bind_inv E. apply ec_load_secret in E4 as (_ & sk & _ & ->). by case_match; [|injection E as <-].
  - by injection E as <-.
Qed.

Lemma bls_jwk_ok {Pk : BlsPublicKeyType} `{Base64} jwk (k : BlsKeyPair Pk) : bls_from_jwk_parts jwk = Ok k → bls_ok k.
Proof.
  unfold bls_from_jwk_parts. intros E. repeat (case_match; [done|]). bind_inv E. destruct (jwk_d jwk).
  - do 3 (bind_inv E). by injection E as <-.
  - bind_inv E. by injection E as <-.
Qed.

Lemma ed_jwk_ok `{Base64} jwk k : Ed25519.from_jwk_parts jwk = Ok k → ed_ok k.
Proof.
  unfold Ed25519.from_jwk_parts. intros E. repeat (case_match; [done|]). bind_inv E. destruct (jwk_d jwk).
  - do 3 (bind_inv E). injection E as <-. apply ed_load_secret in E2 as [? ->]. by apply ed_from_secret_ok.
  - by apply ed_load_public in E as (? & ? & ->).
Qed.

Lemma x_jwk_ok `{Base64} jwk k : X25519.from_jwk_parts jwk = Ok k → x_ok k.
Proof.
  unfold X25519.from_jwk_parts. intros E. repeat (case_match; [done|]). bind_inv E. destruct (jwk_d jwk).
  - do 3 (bind_inv E). injection E as <-. apply x_load_secret in E2 as [? ->]. by apply x_from_secret_ok.
  - pose proof (from_public_spec (K := X25519.KeyPair) a k E) as [Hk _]. exact Hk.
Qed.

Lemma from_jwk_any_ok `{Base64} jwk k : from_jwk_any jwk = Ok k → any_ok k.
Proof.
  unfold from_jwk_any. intros Hk.
  repeat match type of Hk with (if ?c then _ else _) = _ => destruct c end; try done;
    apply fmap_ok_inv in Hk as (k' & Hk & ->); cbn [any_ok].
  - exact (ed_jwk_ok _ _ Hk).
  - exact (x_jwk_ok _ _ Hk).
  - exact (bls_jwk_ok _ _ Hk).
  - exact (bls_jwk_ok _ _ Hk).
  - exact (bls_jwk_ok _ _ Hk).
  - exact (ec_jwk_ok _ _ _ _ Hk).
  - exact (ec_jwk_ok _ _ _ _ Hk).
  - exact (ec_jwk_ok _ _ _ _ Hk).
Qed.

(** ** Key exchange and signatures *)

(** The algorithms with a key exchange. *)
Definition exchanges (a : KeyAlg.t) : bool :=
  match a with KeyAlg.X25519 | KeyAlg.EcCurve _ => true | _ => false end.

Lemma ec_exchange P (C : EcCurve) (L : EcCurveLaws C P) (a b : EcKeyPair C) : ec_ok a → ec_ok b →
  ec_secret a ≠ None → ec_secret b ≠ None →
  ∃ z, ec_write_key_exchange a (mkEc None (ec_public b)) = Ok z ∧ ec_write_key_exchange b (mkEc None (ec_public a)) = Ok z.
Proof.
  unfold ec_ok, ec_write_key_exchange. destruct a as [[sa|] pa], b as [[sb|] pb]; cbn; try done.
  intros -> -> _ _. exists (diffie_hellman sa (sk_public_key sb)). split; [done|]. by rewrite diffie_hellman_comm.
Qed.

Lemma x_exchange a b : x_ok a → x_ok b → X25519.secret a ≠ None → X25519.secret b ≠ None →
  ∃ z, X25519.write_key_exchange a (X25519.new None (X25519.public b)) = Ok z
    ∧ X25519.write_key_exchange b (X25519.new None (X25519.public a)) = Ok z.
Proof.
  unfold x_ok, X25519.write_key_exchange. destruct a as [[sa|] pa], b as [[sb|] pb]; cbn; try done.
  intros (_ & _ & ->) (_ & _ & ->) _ _. exists (x_diffie_hellman sa (x_public_key sb)).
  split; [done|]. by rewrite x_diffie_hellman_comm.
Qed.

Lemma fmap_none {A B} (f : A → B) (o : option A) : f <$> o ≠ None → o ≠ None.
Proof. by destruct o. Qed.

Lemma any_exchange_ok a b : any_ok a → any_ok b → algorithm a = algorithm b → exchanges (algorithm a) = true →
  any_secret_of a ≠ None → any_secret_of b ≠ None →
  ∃ z, any_write_key_exchange a (any_public_only b) = Ok z ∧ any_write_key_exchange b (any_public_only a) = Ok z.
Proof.
  intros Ha Hb Hab Hx Hsa Hsb. unfold any_write_key_exchange, key_type_id.
  rewrite !any_public_only_algorithm, Hab, bool_decide_eq_true_2 by done. cbn [negb].
  destruct a, b; try done; cbn [algorithm any_public_only assume_x25519 assume_k256 assume_p256 assume_p384 mbind res_bind];
    cbn [any_ok any_secret_of] in *.
  - exact (x_exchange _ _ Ha Hb Hsa Hsb).
  - exact (ec_exchange K256.consts _ _ _ _ Ha Hb (fmap_none _ _ Hsa) (fmap_none _ _ Hsb)).
  - exact (ec_exchange P256.consts _ _ _ _ Ha Hb (fmap_none _ _ Hsa) (fmap_none _ _ Hsb)).
  - exact (ec_exchange P384.consts _ _ _ _ Ha Hb (fmap_none _ _ Hsa) (fmap_none _ _ Hsb)).
Qed.

Lemma ec_signed P (C : EcCurve) (L : EcCurveLaws C P) (k : EcKeyPair C) m t sig : ec_ok k →
  ec_write_signature P k m t = Ok sig →
  length sig = SIGNATURE_LENGTH P ∧ ec_verify_signature P (mkEc None (ec_public k)) m sig t = Ok true.
Proof.
  unfold ec_ok, ec_write_signature, ec_verify_signature, ec_sign, ec_verify.
  destruct (bool_decide (t = None) || bool_decide (t = Some (SIG_TYPE P))); [|done].
  destruct k as [[sk|] pk]; cbn [ec_secret ec_public]; [|done]. intros ->.
  rewrite array_from_slice_ok by apply ecdsa_sign_length. cbn. intros [= <-].
  split; [apply ecdsa_sign_length|]. by rewrite ecdsa_verify_sign.
Qed.

(** The length of the signatures of an algorithm. *)
Definition alg_signature_length (a : KeyAlg.t) : nat :=
  match a with KeyAlg.EcCurve EcCurves.Secp384r1 => signature_length SignatureType.ES384 | _ => 64 end.

Lemma any_signed k m t sig : any_ok k → any_write_signature k m t = Ok sig →
  length sig = alg_signature_length (algorithm k) ∧ any_verify_signature (any_public_only k) m sig t = Ok true.
Proof.
  intros Hk. unfold any_write_signature, any_verify_signature. rewrite any_public_only_algorithm.
  destruct k; cbn [algorithm any_public_only any_ok] in *; try done;
    cbn [assume_ed25519 assume_k256 assume_p256 assume_p384 mbind res_bind].
  - unfold Ed25519.write_signature, Ed25519.verify_signature. destruct (bool_decide _ || bool_decide _); [|done].
    destruct (Ed25519.sign k m) as [s|] eqn:Es; [|done]. intros [= <-]. by apply ed_verify_signed.
  - exact (ec_signed K256.consts _ _ _ m t sig Hk).
  - exact (ec_signed P256.consts _ _ _ m t sig Hk).
  - exact (ec_signed P384.consts _ _ _ m t sig Hk).
Qed.

(** ** Authenticated encryption *)

(** The nonces, additional data and messages that a key of a type takes. *)
Definition aead_takes (k : AnyKey) (nonce aad m : bytes) : Prop :=
  match k with
  | AnyAes AesTypes.A128Gcm _ => length nonce = @cipher_nonce_size cr_a128gcm
      ∧ (length m ≤ @cipher_max cr_a128gcm laws_a128gcm)%nat
  | AnyAes AesTypes.A256Gcm _ => length nonce = @cipher_nonce_size cr_a256gcm
      ∧ (length m ≤ @cipher_max cr_a256gcm laws_a256gcm)%nat
  | AnyAes AesTypes.A128CbcHs256 _ => length nonce = @cbc_block_size cr_a128cbc
      ∧ (N.of_nat (length aad) ≤ u64_max / 8)%N
  | AnyAes AesTypes.A256CbcHs512 _ => length nonce = @cbc_block_size cr_a256cbc
      ∧ (N.of_nat (length aad) ≤ u64_max / 8)%N
  | AnyAes _ _ => nonce = [] ∧ aad = [] ∧ (length m mod 8 = 0)%nat
  | AnyChacha t _ => length nonce = @cipher_nonce_size (chacha_cipher t)
      ∧ (length m ≤ @cipher_max (chacha_cipher t) (laws_chacha t))%nat
  | _ => False
  end.

(** The sealed form of a message, as long as the message, its padding and tag. *)
Definition any_sealed (k : AnyKey) (nonce aad m : bytes) : bytes :=
  match k with
  | AnyAes AesTypes.A128Gcm k => @chacha_sealed cr_a128gcm (mkChacha (aes_bytes k)) nonce aad m
  | AnyAes AesTypes.A256Gcm k => @chacha_sealed cr_a256gcm (mkChacha (aes_bytes k)) nonce aad m
  | AnyAes AesTypes.A128CbcHs256 k => @cbc_sealed cr_a128cbc (aes_bytes k) nonce aad m
  | AnyAes AesTypes.A256CbcHs512 k => @cbc_sealed cr_a256cbc (aes_bytes k) nonce aad m
  | AnyAes AesTypes.A128Kw k => @kw_sealed cr_a128kw (aes_bytes k) m
  | AnyAes AesTypes.A256Kw k => @kw_sealed cr_a256kw (aes_bytes k) m
  | AnyChacha t k => @chacha_sealed (chacha_cipher t) k nonce aad m
  | _ => []
  end.

(** The position returned by encryption: key wrapping counts the tag in. *)
Definition any_tag_pos (k : AnyKey) (len : nat) : nat :=
  match k with
  | AnyAes (AesTypes.A128Kw | AesTypes.A256Kw) _ => (len + 8)%nat
  | _ => (len + any_aead_padding k len)%nat
  end.

Lemma mod8_div n : (n mod 8 = 0)%nat → n = (8 * (n / 8))%nat.
Proof. intros Hm. pose proof (Nat.div_mod_eq n 8). lia. Qed.

(** A length is determined by how encryption lays the buffer out. *)
Lemma any_encrypt_spec {B} `{LawfulBuffer B} k nonce aad (b : B) : any_ok k →
  aead_takes k nonce aad (as_ref b) → buf_ok b →
  ∃ b', any_encrypt_in_place k nonce aad b = Ok (b', any_tag_pos k (length (as_ref b)))
    ∧ buf_ok b' ∧ as_ref b' = any_sealed k nonce aad (as_ref b).
Proof.
  intros Hk Ht Hb. unfold any_encrypt_in_place.
  destruct k as [t k|k|k|k|t k|k|k|k|k|k]; try done; cbn [algorithm assume_aes assume_chacha];
    rewrite decide_True by done; cbn [mbind res_bind any_ok] in *.
  - destruct t; cbn [aead_takes any_sealed any_tag_pos any_aead_padding aes_key_size] in *.
    + exact (@chacha_encrypt_spec cr_a128gcm laws_a128gcm B _ _ (mkChacha (aes_bytes k)) nonce aad b
        (eq_trans Hk (eq_sym a128gcm_key)) (proj1 Ht) Hb (proj2 Ht)).
    + exact (@chacha_encrypt_spec cr_a256gcm laws_a256gcm B _ _ (mkChacha (aes_bytes k)) nonce aad b
        (eq_trans Hk (eq_sym a256gcm_key)) (proj1 Ht) Hb (proj2 Ht)).
    + destruct Ht as [Hn Ha].
      destruct (@cbc_encrypt_spec cr_a128cbc laws_a128cbc (aes_bytes k) B _ _ nonce aad b) as (b' & E & ? & ? & _); eauto.
      unfold cbc_key_ok. rewrite length_drop, Hk, a128cbc_key. done.
    + destruct Ht as [Hn Ha].
      destruct (@cbc_encrypt_spec cr_a256cbc laws_a256cbc (aes_bytes k) B _ _ nonce aad b) as (b' & E & ? & ? & _); eauto.
      unfold cbc_key_ok. rewrite length_drop, Hk, a256cbc_key. done.
    + destruct Ht as (-> & -> & Hm).
      exact (@kw_encrypt_spec cr_a128kw laws_a128kw (aes_bytes k) B _ _ _ b Hb (mod8_div _ Hm)).
    + destruct Ht as (-> & -> & Hm).
      exact (@kw_encrypt_spec cr_a256kw laws_a256kw (aes_bytes k) B _ _ _ b Hb (mod8_div _ Hm)).
  - destruct Ht as [Hn Hm].
    exact (@chacha_encrypt_spec (chacha_cipher t) (laws_chacha t) B _ _ k nonce aad b Hk Hn Hb Hm).
Qed.

Lemma any_decrypt_spec {B} `{LawfulBuffer B} k nonce aad m (b : B) : any_ok k →
  aead_takes k nonce aad m → buf_ok b → as_ref b = any_sealed k nonce aad m →
  ∃ b', any_decrypt_in_place k nonce aad b = Ok b' ∧ buf_ok b' ∧ as_ref b' = m.
Proof.
  intros Hk Ht Hb Es. unfold any_decrypt_in_place.
  destruct k as [t k|k|k|k|t k|k|k|k|k|k]; try done; cbn [algorithm assume_aes assume_chacha];
    rewrite decide_True by done; cbn [mbind res_bind any_ok] in *.
  - destruct t; cbn [aead_takes any_sealed aes_key_size] in *.
    + exact (@aes_decrypt_spec cr_a128gcm laws_a128gcm B _ _ k nonce aad b m
        (eq_trans Hk (eq_sym a128gcm_key)) (proj1 Ht) Hb (proj2 Ht) Es).
    + exact (@aes_decrypt_spec cr_a256gcm laws_a256gcm B _ _ k nonce aad b m
        (eq_trans Hk (eq_sym a256gcm_key)) (proj1 Ht) Hb (proj2 Ht) Es).
    + destruct Ht as [Hn Ha]. apply (@cbc_decrypt_spec cr_a128cbc laws_a128cbc); try done.
      unfold cbc_key_ok. rewrite length_drop, Hk, a128cbc_key. done.
    + destruct Ht as [Hn Ha]. apply (@cbc_decrypt_spec cr_a256cbc laws_a256cbc); try done.
      unfold cbc_key_ok. rewrite length_drop, Hk, a256cbc_key. done.
    + destruct Ht as (-> & -> & Hm).
      exact (@kw_decrypt_spec cr_a128kw laws_a128kw (aes_bytes k) B _ _ _ m b Hb (mod8_div _ Hm) Es).
    + destruct Ht as (-> & -> & Hm).
      exact (@kw_decrypt_spec cr_a256kw laws_a256kw (aes_bytes k) B _ _ _ m b Hb (mod8_div _ Hm) Es).
  - destruct Ht as [Hn Hm].
    exact (@chacha_decrypt_spec (chacha_cipher t) (laws_chacha t) B _ _ k nonce aad b m Hk Hn Hb Hm Es).
Qed.
End Laws.

(** ** Toy parameters, for examples *)

Definition toy_cipher_n (key nonce : nat) : AeadCipher := {|
  cipher_key_size := key;
  cipher_nonce_size := nonce;
  cipher_tag_size := 16;
  encrypt_detached key nonce aad m := Some (m, toy_tag key nonce);
  decrypt_detached key nonce aad c t := if decide (t = toy_tag key nonce) then Some c else None;
|}.

#[export] Instance toy_cipher_n_laws key nonce : @CipherLaws (toy_cipher_n key nonce).
Proof.
  refine {| cipher_max := 1000 : nat |}.
  - done.
  - intros k n aad m c t [= <- <-]. split; [done|apply length_resize].
  - intros k n aad m c t [= <- <-]. cbn. by rewrite decide_True.
Defined.

Definition toy_cbc_n (n : nat) : CbcHmac := {|
  cbc_block_size := 4;
  cbc_key_size := n;
  Aes.digest_size := n;
  cbc_encrypt _ _ m := Some (toy_pad m);
  cbc_decrypt _ _ c := toy_unpad c;
  cbc_hmac key m := resize n x00 (key ++ m);
|}.

#[export] Instance toy_cbc_n_laws n : @CbcHmacLaws (toy_cbc_n n).
Proof.
  split; cbn; try lia.
  - intros. apply length_resize.
  - intros key nonce m _ _. exists (toy_pad m). split_and!; [done| |apply toy_unpad_pad].
    unfold toy_pad. by rewrite length_app, length_replicate.
  - intros key nonce c m. apply (@cbc_decrypt_length toy_cbc toy_cbc_laws key nonce c m).
Qed.

Definition toy_crypto : Crypto := {|
  cr_25519 := toy_25519;
  cr_k256 := toy_curve 4;
  cr_p256 := toy_curve 4;
  cr_p384 := toy_curve 6;
  cr_bls := toy_bls;
  cr_a128gcm := toy_cipher_n 16 12;
  cr_a256gcm := toy_cipher_n 32 12;
  cr_a128cbc := toy_cbc_n 16;
  cr_a256cbc := toy_cbc_n 32;
  cr_a128kw := toy_block;
  cr_a256kw := toy_block;
  cr_c20p := toy_cipher_n 32 12;
  cr_xc20p := toy_cipher_n 32 24;
|}.

#[export] Instance toy_crypto_laws : @CryptoLaws toy_crypto.
Proof.
  refine (@Build_CryptoLaws toy_crypto toy_25519_laws _ _ _ toy_bls_laws (toy_cipher_n_laws 16 12)
    (toy_cipher_n_laws 32 12) (toy_cbc_n_laws 16) (toy_cbc_n_laws 32) toy_block_laws toy_block_laws _ _ _ _ _).
  - by apply toy_curve_laws.
  - by apply toy_curve_laws.
  - by apply toy_curve_laws.
  - intros []; apply toy_cipher_n_laws.
  - done.
  - done.
  - done.
  - done.
Defined.

(** ** Properties *)

(** C27: Every key that is created, whether generated, loaded from bytes, read from
    a JWK or converted, is of the algorithm asked for and keeps the invariant of its
    type: its bytes have the right sizes, and a secret part goes with the public part. *)
Theorem any_created_ok `{CryptoLaws} `{Base64} `{KeyMaterial R} fuel a b jwk (r r' : R) k k' :
  (generate_any_with_rng fuel a r = Some (Ok (r', k)) → algorithm k = a ∧ any_ok k)
  ∧ (from_secret_bytes_any a b = Ok k → algorithm k = a ∧ any_ok k ∧ any_secret_of k = Some b)
  ∧ (from_public_bytes_any a b = Ok k → algorithm k = a ∧ any_ok k ∧ any_secret_of k = None)
  ∧ (from_jwk_any jwk = Ok k → any_ok k)
  ∧ (any_ok k → convert_key_any k a = Ok k' → algorithm k' = a ∧ any_ok k').
Proof.
  split_and!.
  - apply generate_any_ok.
  - apply any_from_secret_spec.
  - apply any_from_public_spec.
  - apply from_jwk_any_ok.
  - intros Hk Hc. by destruct (convert_any_ok k a k' Hk Hc) as (? & ? & _).
Qed.

(** A key pair for examples. *)
Definition toy_ed : @AnyKey toy_crypto := AnyEd25519 (Ed25519.mkKeyPair (Some (replicate 32 x07)) (replicate 32 x07)).

Lemma any_created_ok_witness :
  from_secret_bytes_any KeyAlg.Ed25519 (replicate 32 x07) = Ok toy_ed
  ∧ algorithm toy_ed = KeyAlg.Ed25519 ∧ any_ok toy_ed.
Proof.
  split; [reflexivity|].
  pose proof (@any_created_ok toy_crypto toy_crypto_laws b64 ListSource _ 1 KeyAlg.Ed25519 (replicate 32 x07)
    (mkJwk "" None None None None None None None None) (mkSource []) (mkSource []) toy_ed toy_ed) as (_ & E & _).
  by destruct (E eq_refl) as (? & ? & _).
Defined.

(** The bytes of a key load the key again: its secret bytes the whole key, its
    public bytes the key without its secret part; a key without secret part has no
    secret bytes to give, and a symmetric key no public ones. *)
Theorem any_bytes_roundtrip `{CryptoLaws} `{Allocator} k :
  any_ok k →
  match any_secret_of k with
  | Some b => ∃ s, any_to_secret_bytes k = Ok s ∧ sec_data s = b ∧ from_secret_bytes_any (algorithm k) b = Ok k
      ∧ any_secret_bytes_length k = Ok (length b)
  | None => any_to_secret_bytes k = Err missing_secret_key
  end
  ∧ match any_public_of k with
    | Some b => ∃ s, any_to_public_bytes k = Ok s ∧ sec_data s = b
        ∧ from_public_bytes_any (algorithm k) b = Ok (any_public_only k)
    | None => any_to_public_bytes k = Err (unsupported "Public key export is not supported for this key type")
    end.
Proof.
  intros Hk. split.
  - unfold any_to_secret_bytes, any_write_secret_bytes. rewrite any_with_secret_spec by done.
    destruct (any_secret_of k) as [b|] eqn:Eb; [|done]. cbn [mbind res_bind].
    destruct (secret_write_data b 128) as (s & E & Es). exists s.
    split_and!; [done|done|by apply any_secret_reload|by apply any_secret_length].
  - unfold any_to_public_bytes, any_write_public_bytes. destruct (any_public_of k) as [b|] eqn:Eb.
    + rewrite (any_with_public_spec k b) by done. cbn [mbind res_bind].
      destruct (secret_write_data b 128) as (s & E & Es). exists s.
      split_and!; [done|done|by apply any_public_reload].
    + by destruct k.
Qed.

Lemma any_bytes_roundtrip_witness :
  ∃ s, @any_to_secret_bytes toy_crypto demo_allocator toy_ed = Ok s ∧ sec_data s = replicate 32 x07
    ∧ from_secret_bytes_any KeyAlg.Ed25519 (sec_data s) = Ok toy_ed.
Proof.
  pose proof (@any_bytes_roundtrip toy_crypto toy_crypto_laws demo_allocator toy_ed) as E.
  destruct E as [(s & Es & Ed & Er & _) _]; [split_and!; [reflexivity|by eexists|split; reflexivity]|].
  exists s. rewrite Ed. split_and!; [exact Es|reflexivity|exact Er].
Defined.

(** A key's attributes, as either encoder writes them. *)
Lemma any_encodes `{CryptoLaws} `{Base64} k mode (B : Type) (W : WriteBuffer B) (L : LawfulWrite B) :
  any_public_of k ≠ None ∨ mode ≠ JwkEncoderMode.PublicKey → encodes_as k None B mode (any_attrs mode k).
Proof.
  intros Hm e Em Ea. pose proof (any_encode_attrs (E := JwkBufferEncoder B) (H1 := buffer_encoder base64) k e) as X.
  cbn [enc_mode enc_alg buffer_encoder] in X. rewrite Em in X. apply X; [by left|done].
Qed.

(** The secret form of a key, and what is read from it. *)
Lemma any_jwk_secret `{CryptoLaws} `{Base64} `{JsonReader} `{Allocator} u k : any_ok k →
  ∃ s, to_jwk_secret base64 k None = Ok s
    ∧ from_jwk_slice u (sec_data s)
      = if any_public_of k then Ok k else Err (unsupported "Unsupported JWK for key import").
Proof.
  intros Hk.
  destruct (to_jwk_secret_text k None (any_attrs JwkEncoderMode.SecretKey k)) as (s & Es & Ed);
    [apply any_attrs_nonempty|apply (any_encodes k _ SecretBytes _ _); by right|].
  exists s. split; [exact Es|]. rewrite Ed. destruct (any_public_of k) as [pb|] eqn:Ep.
  - destruct (any_attrs_load u JwkEncoderMode.SecretKey k Hk) as (parts & Hv & Hf); [by rewrite Ep|].
    by eapply from_jwk_text; [apply any_attrs_nonempty|apply any_attrs_plain|exact Hv|].
  - destruct (any_attrs_symmetric u k Ep) as (parts & Hv & Hf).
    by eapply from_jwk_text; [apply any_attrs_nonempty|apply any_attrs_plain|exact Hv|].
Qed.

(** C28: A key pair written as a JWK, with or without its secret part, reads back as
    that key or its public part; a symmetric key is written with its secret only,
    and no reader for it exists. *)
Theorem any_jwk_roundtrip `{CryptoLaws} `{Base64} `{JsonReader} `{Allocator} u k :
  any_ok k →
  match any_public_of k with
  | Some _ =>
      (∃ text, to_jwk_public base64 k None = Ok text ∧ from_jwk_slice u text = Ok (any_public_only k))
      ∧ (∃ s, to_jwk_secret base64 k None = Ok s ∧ from_jwk_slice u (sec_data s) = Ok k)
  | None =>
      to_jwk_public base64 k None = Err (unsupported "Cannot export as a public key")
      ∧ (∃ s, to_jwk_secret base64 k None = Ok s
          ∧ from_jwk_slice (K := AnyKey) u (sec_data s) = Err (unsupported "Unsupported JWK for key import"))
  end.
Proof.
  intros Hk. destruct (any_jwk_secret u k Hk) as (s & Es & Hs).
  destruct (any_public_of k) as [pb|] eqn:Ep; (split; [|by exists s]).
  - eexists. split.
    + apply to_jwk_public_text; [apply any_attrs_nonempty|]. apply (any_encodes k _ bytes _ _). left. by rewrite Ep.
    + destruct (any_attrs_load u JwkEncoderMode.PublicKey k Hk) as (parts & Hv & Hf); [by rewrite Ep|].
      by eapply from_jwk_text; [apply any_attrs_nonempty|apply any_attrs_plain|exact Hv|].
  - destruct k; try done; cbn; by rewrite decide_True.
Qed.

Lemma any_jwk_roundtrip_witness :
  (∃ text, to_jwk_public (@base64 b64) toy_ed None = Ok text
     ∧ @from_jwk_slice plain_reader _ (@any_from_jwk toy_crypto b64) (Ok ()) text = Ok (any_public_only toy_ed))
  ∧ (∃ s, @to_jwk_secret _ _ (@base64 b64) demo_allocator toy_ed None = Ok s
     ∧ @from_jwk_slice plain_reader _ (@any_from_jwk toy_crypto b64) (Ok ()) (sec_data s) = Ok toy_ed).
Proof.
  pose proof (@any_jwk_roundtrip toy_crypto toy_crypto_laws b64 plain_reader demo_allocator (Ok ()) toy_ed) as E.
  apply E. split_and!; [reflexivity|by eexists|split; reflexivity].
Defined.

(** The members RFC 7638 (section 3.2) and RFC 8037 hash for a key type, in
    lexicographic order. *)
Definition rfc7638_members (key_type : string) : list string :=
  if String.eqb key_type "EC" then ["crv"; "kty"; "x"; "y"]
  else if String.eqb key_type "OKP" then ["crv"; "kty"; "x"]
  else ["k"; "kty"].

(** C29: The thumbprint of a key is the digest, in base64, of the JSON object whose
    members are those RFC 7638 requires for its key type, in lexicographic order and
    without its secret part; it is the same for a key pair and its public part. *)
Theorem any_thumbprint_rfc7638 `{CryptoLaws} `{Base64} `{Digest} `{LawfulWrite B} k (out : B) :
  any_ok k → digest_output_size = 32%nat → wb_ok out →
  ∃ l out' t, write_jwk_thumbprint base64 k None out = Ok out'
    ∧ wb_contents out' = wb_contents out ++ base64 (digest (object_text (attr_pairs base64 l)))
    ∧ In ("kty", AStr t) l ∧ List.map fst l = rfc7638_members t
    ∧ any_attrs JwkEncoderMode.Thumbprint (any_public_only k) = l.
Proof.
  intros Hk Hd Ho.
  destruct (jwk_thumbprint_text k None (any_attrs JwkEncoderMode.Thumbprint k) out) as (out' & E & Eo);
    [apply any_attrs_nonempty| |done|done|].
  { intros e Em Ea. pose proof (any_encode_attrs (E := JwkBufferEncoder HashBuffer) (H1 := buffer_encoder base64) k e) as X.
    cbn [enc_mode enc_alg buffer_encoder] in X. rewrite Em in X. apply X; [by left|by right]. }
  assert (∃ t, In ("kty", AStr t) (any_attrs JwkEncoderMode.Thumbprint k)
    ∧ List.map fst (any_attrs JwkEncoderMode.Thumbprint k) = rfc7638_members t
    ∧ any_attrs JwkEncoderMode.Thumbprint (any_public_only k) = any_attrs JwkEncoderMode.Thumbprint k) as (t & Hi & Hm & He).
  { destruct k as [t k|k|k|k|t k|k|k|k|k|k]; cbn [any_attrs any_public_only]; unfold sym_attrs, okp_attrs, ec_attrs; cbn [secret_mode].
    1, 5: exists "oct"; split_and!; [right; left; done|done|done].
    1-5: exists "OKP"; split_and!; [right; left; done| |]; destruct (secret_bytes_of k); done.
    all: exists "EC"; split_and!; [right; left; done| |]; cbn [public_only ec_secret]; destruct (ec_secret k); done. }
  exists (any_attrs JwkEncoderMode.Thumbprint k), out', t. done.
Qed.

Definition sha_len_digest : Digest.
Proof. refine {| digest m := resize 32 x00 m; digest_output_size := 32 |}. intros m. apply length_resize. Defined.

Lemma any_thumbprint_rfc7638_witness :
  ∃ l out' t, write_jwk_thumbprint (H0 := sha_len_digest) (@base64 b64) toy_ed None ([] : bytes) = Ok out'
    ∧ out' = @base64 b64 (@digest sha_len_digest (object_text (attr_pairs (@base64 b64) l)))
    ∧ In ("kty", AStr t) l ∧ List.map fst l = rfc7638_members t
    ∧ any_attrs JwkEncoderMode.Thumbprint (any_public_only toy_ed) = l.
Proof.
  pose proof (@any_thumbprint_rfc7638 toy_crypto toy_crypto_laws b64 sha_len_digest bytes _ _ toy_ed []) as E.
  apply E; [split_and!; [reflexivity|by eexists|split; reflexivity]|reflexivity|exact I].
Defined.

(** Two key pairs of the same algorithm agree: each derives from its secret and
    the other's public part the same shared secret, for the four algorithms with a
    key exchange; keys of different types are refused. *)
Theorem any_exchange_agreement `{CryptoLaws} a b :
  any_ok a → any_ok b →
  (algorithm a = algorithm b → exchanges (algorithm a) = true →
   any_secret_of a ≠ None → any_secret_of b ≠ None →
   ∃ z, any_write_key_exchange a (any_public_only b) = Ok z ∧ any_write_key_exchange b (any_public_only a) = Ok z)
  ∧ (algorithm a ≠ algorithm b → any_write_key_exchange a b = Err (unsupported "Unsupported key exchange")).
Proof.
  intros Ha Hb. split; [by apply any_exchange_ok|]. intros Hne. unfold any_write_key_exchange, key_type_id.
  by rewrite bool_decide_eq_false_2.
Qed.

Definition toy_x (b : byte) : @AnyKey toy_crypto :=
  AnyX25519 (X25519.new (Some (replicate 32 b)) (replicate 32 b)).

Lemma any_exchange_agreement_witness :
  ∃ z, any_write_key_exchange (toy_x x01) (any_public_only (toy_x x02)) = Ok z
    ∧ any_write_key_exchange (toy_x x02) (any_public_only (toy_x x01)) = Ok z.
Proof.
  pose proof (@any_exchange_agreement toy_crypto toy_crypto_laws (toy_x x01) (toy_x x02)) as E.
  apply E; [split; [reflexivity|split; reflexivity]|split; [reflexivity|split; reflexivity]|reflexivity|reflexivity|done|done].
Defined.

(** What a key signs verifies with its public part, for the type that was asked
    for or the default one, and has the length of that type. *)
Theorem any_signature_verifies `{CryptoLaws} k message sig_type sig :
  any_ok k → any_write_signature k message sig_type = Ok sig →
  length sig = alg_signature_length (algorithm k)
  ∧ any_verify_signature (any_public_only k) message sig sig_type = Ok true.
Proof. apply any_signed. Qed.

Lemma any_signature_verifies_witness :
  ∃ sig, any_write_signature toy_ed [x01; x02] None = Ok sig
    ∧ any_verify_signature (any_public_only toy_ed) [x01; x02] sig None = Ok true.
Proof.
  destruct (any_write_signature toy_ed [x01; x02] None) as [sig| |] eqn:E; [|discriminate E|discriminate E].
  exists sig. split; [reflexivity|].
  apply (@any_signature_verifies toy_crypto toy_crypto_laws toy_ed [x01; x02] None sig); [|exact E].
  split_and!; [reflexivity|by eexists|split; reflexivity].
Defined.

(** Authenticated encryption with a key of any type that supports it: what is
    encrypted in place under a nonce and additional data the type takes decrypts to
    the message, whatever buffers either side uses; other keys refuse. *)
Theorem any_aead_roundtrip `{CryptoLaws} {B1} `{LawfulBuffer B1} {B2} `{LawfulBuffer B2} k nonce aad (b : B1) (c : B2) :
  any_ok k → buf_ok b → buf_ok c →
  (aead_takes k nonce aad (as_ref b) →
   ∃ b', any_encrypt_in_place k nonce aad b = Ok (b', any_tag_pos k (length (as_ref b)))
     ∧ (as_ref c = as_ref b' → ∃ c', any_decrypt_in_place k nonce aad c = Ok c' ∧ as_ref c' = as_ref b))
  ∧ (any_public_of k ≠ None → any_encrypt_in_place k nonce aad b = Err aead_unsupported
     ∧ any_decrypt_in_place k nonce aad c = Err aead_unsupported).
Proof.
  intros Hk Hb Hc. split.
  - intros Ht. destruct (any_encrypt_spec k nonce aad b Hk Ht Hb) as (b' & E & _ & Es). exists b'.
    split; [done|]. rewrite Es. intros Ec.
    destruct (any_decrypt_spec k nonce aad (as_ref b) c Hk Ht Hc Ec) as (c' & ? & _ & ?). by exists c'.
  - by destruct k.
Qed.

Lemma any_aead_roundtrip_witness :
  let k : @AnyKey toy_crypto := AnyChacha Chacha20Types.XC20P (mkChacha (replicate 32 x07)) in
  let nonce := replicate 24 x01 in
  ∃ b', any_encrypt_in_place k nonce [] [x61; x62] = Ok (b', 2%nat)
    ∧ ([x61; x62] ++ toy_tag (replicate 32 x07) nonce = as_ref b' →
       ∃ c', any_decrypt_in_place k nonce [] ([x61; x62] ++ toy_tag (replicate 32 x07) nonce) = Ok c'
         ∧ as_ref c' = [x61; x62]).
Proof.
  intros k nonce.
  pose proof (@any_aead_roundtrip toy_crypto toy_crypto_laws bytes _ _ bytes _ _ k nonce [] [x61; x62]
    ([x61; x62] ++ toy_tag (replicate 32 x07) nonce)) as E.
  apply E; [reflexivity|exact I|exact I|split; [reflexivity|cbn; lia]].
Defined.
