(* ===== verification/CryptoBox.v ===== *)
(** * Crypto boxes

    Models askar-crypto/src/encrypt/crypto_box.rs over any buffer.  The box cipher
    (X25519 with XSalsa20-Poly1305) and Blake2b are third-party crates. *)

From S2P Require Import Prelude Errors Buffers Random KeyAlg Kdf Jwk Repr EcKeys EdKeys.
Local Open Scope string_scope.
Local Open Scope list_scope.

(** [SalsaBox], from a public and a secret key: detached encryption. *)
Class SalsaBox `{Curve25519} := {
  box_encrypt : bytes → bytes → bytes → bytes → option (bytes * bytes);
  box_decrypt : bytes → bytes → bytes → bytes → bytes → option bytes;
  (** Blake2b with an output of so many bytes. *)
  blake2b : nat → bytes → bytes;
}.

Class SalsaBoxLaws `{SalsaBox} := {
  box_encrypt_total pk sk nonce m : length nonce = 24%nat → is_Some (box_encrypt pk sk nonce m);
  box_encrypt_sizes pk sk nonce m c t : box_encrypt pk sk nonce m = Some (c, t) →
    length c = length m ∧ length t = 16%nat;
  (** The two parties share the key of the box. *)
  box_decrypt_inverts a b nonce m c t :
    box_encrypt (x_public_key b) a nonce m = Some (c, t) → box_decrypt (x_public_key a) b nonce c t = Some m;
  blake2b_length n m : length (blake2b n m) = n;
}.

Definition CBOX_NONCE_LENGTH : nat := 24.
Definition CBOX_KEY_LENGTH : nat := X25519.PUBLIC_KEY_LENGTH.
Definition CBOX_TAG_LENGTH : nat := 16.

Section CryptoBox.
Context `{SalsaBox}.

Definition secret_key_from (kp : X25519.KeyPair) : cres bytes :=
  match X25519.secret kp with Some sk => Ok sk | None => Err missing_secret_key end.

Definition nonce_from (nonce : bytes) : cres bytes :=
  if (length nonce =? CBOX_NONCE_LENGTH)%nat then Ok nonce else Err (CryptoError.from_kind CryptoError.InvalidNonce).

Definition encryption_err (msg : string) : CryptoError.Error := CryptoError.from_msg CryptoError.Encryption msg.

Definition crypto_box {B} `{ResizeBuffer B} (recip_pk sender_sk : X25519.KeyPair) (buffer : B) (nonce : bytes) : cres B :=
  sender_sk ← secret_key_from sender_sk;
  nonce ← nonce_from nonce;
  let pk := X25519.public recip_pk in
  '(ctext, tag) ← ok_or (box_encrypt pk sender_sk nonce (as_ref buffer)) (encryption_err "Crypto box AEAD encryption error");
  buffer_insert 0 tag (as_mut_set buffer ctext).

Definition crypto_box_open {B} `{ResizeBuffer B} (recip_sk sender_pk : X25519.KeyPair) (buffer : B) (nonce : bytes)
    : cres B :=
  recip_sk ← secret_key_from recip_sk;
  nonce ← nonce_from nonce;
  let buf_len := length (as_ref buffer) in
  if (buf_len <? CBOX_TAG_LENGTH)%nat then Err (encryption_err "Invalid size for encrypted data") else
  let tag := take CBOX_TAG_LENGTH (as_ref buffer) in
  let pk := X25519.public sender_pk in
  msg ← ok_or (box_decrypt pk recip_sk nonce (drop CBOX_TAG_LENGTH (as_ref buffer)) tag)
    (encryption_err "Crypto box AEAD decryption error");
  buffer_remove 0 CBOX_TAG_LENGTH (as_mut_set buffer (tag ++ msg)).

Definition crypto_box_seal_nonce (ephemeral_pk recip_pk : bytes) : cres bytes :=
  Ok (blake2b CBOX_NONCE_LENGTH (ephemeral_pk ++ recip_pk)).

(** The writer works on the vector inside the buffer, past the ephemeral key. *)
Definition crypto_box_seal `{Allocator} `{KeyMaterial R} (rng : R) (recip_pk : X25519.KeyPair) (message : bytes)
    : cres SecretBytes :=
  '(_, ephem_kp) ← X25519.generate rng;
  let ephem_pk_bytes := X25519.public ephem_kp in
  let buf_len := (CBOX_KEY_LENGTH + CBOX_TAG_LENGTH + length message)%nat in
  let buffer := with_capacity buf_len in
  buffer ← buffer_write ephem_pk_bytes buffer;
  buffer ← buffer_write message buffer;
  let writer := from_vec_skip (sec_data buffer) CBOX_KEY_LENGTH in
  nonce ← crypto_box_seal_nonce ephem_pk_bytes (X25519.public recip_pk);
  writer ← crypto_box recip_pk ephem_kp writer nonce;
  Ok (set_data (bw_inner writer) buffer).

Definition crypto_box_seal_open `{Allocator} (recip_sk : X25519.KeyPair) (ciphertext : bytes) : cres SecretBytes :=
  if (length ciphertext <? CBOX_KEY_LENGTH + CBOX_TAG_LENGTH)%nat
  then Err (encryption_err "Invalid size for encrypted data") else
  ephem_pk ← X25519.from_public_bytes (take CBOX_KEY_LENGTH ciphertext);
  let buffer := secret_from_slice (drop CBOX_KEY_LENGTH ciphertext) in
  nonce ← crypto_box_seal_nonce (X25519.public ephem_pk) (X25519.public recip_sk);
  crypto_box_open recip_sk ephem_pk buffer nonce.
End CryptoBox.

(** ** Lemmas *)

Section BoxLemmas.
Context `{Curve25519Laws} {S : SalsaBox} {SL : SalsaBoxLaws}.

(** The sealed form: the tag comes first. *)
Definition box_sealed (pk sk nonce m : bytes) : bytes :=
  match box_encrypt pk sk nonce m with Some (c, t) => t ++ c | None => [] end.

Lemma box_sealed_length pk sk nonce m : length nonce = 24%nat → length (box_sealed pk sk nonce m) = (16 + length m)%nat.
Proof.
  intros Hn. unfold box_sealed. destruct (box_encrypt_total pk sk nonce m Hn) as [[c t] E]. rewrite E.
  apply box_encrypt_sizes in E as [Hc Ht]. lens.
Qed.

Lemma crypto_box_spec `{LawfulBuffer B} recip sender sk (b : B) nonce :
  X25519.secret sender = Some sk → length nonce = 24%nat → buf_ok b →
  ∃ b', crypto_box recip sender b nonce = Ok b' ∧ buf_ok b'
    ∧ as_ref b' = box_sealed (X25519.public recip) sk nonce (as_ref b).
Proof.
  intros Hs Hn Hb. unfold crypto_box, secret_key_from, nonce_from, box_sealed. rewrite Hs, Hn. cbn [Nat.eqb CBOX_NONCE_LENGTH mbind res_bind].
  destruct (box_encrypt_total (X25519.public recip) sk nonce (as_ref b) Hn) as [[c t] E]. rewrite E. cbn [ok_or mbind res_bind].
  apply box_encrypt_sizes in E as [Hc Ht].
  destruct (as_mut_spec b c Hb Hc) as [Hb1 E1].
  destruct (insert_spec (as_mut_set b c) 0 t Hb1) as (b' & -> & Hb' & E'); [lia|].
  exists b'. split_and!; [done|done|]. by rewrite E', E1, take_0, drop_0.
Qed.

Lemma crypto_box_open_spec `{LawfulBuffer B} recip sender s r (b : B) nonce m :
  X25519.secret recip = Some r → X25519.public sender = x_public_key s →
  length nonce = 24%nat → buf_ok b → as_ref b = box_sealed (x_public_key r) s nonce m →
  ∃ b', crypto_box_open recip sender b nonce = Ok b' ∧ buf_ok b' ∧ as_ref b' = m.
Proof.
  intros Hr Hp Hn Hb Eb. unfold crypto_box_open, secret_key_from, nonce_from. rewrite Hr, Hn. cbn [Nat.eqb CBOX_NONCE_LENGTH mbind res_bind].
  rewrite Hp. pose proof (box_sealed_length (x_public_key r) s nonce m Hn) as Hl. unfold box_sealed in *.
  destruct (box_encrypt_total (x_public_key r) s nonce m Hn) as [[c t] E]. rewrite E in *.
  pose proof E as [Hc Ht]%box_encrypt_sizes. unfold CBOX_TAG_LENGTH. rewrite Eb, Hl, (proj2 (Nat.ltb_ge _ _)) by lia.
  rewrite take_app_length', drop_app_length' by done.
  rewrite (box_decrypt_inverts _ _ _ _ _ _ E). cbn [ok_or mbind res_bind].
  destruct (as_mut_spec b (t ++ m) Hb) as [Hb1 E1]; [rewrite Eb; lens|].
  destruct (remove_spec (as_mut_set b (t ++ m)) 0 16 Hb1) as (b' & -> & Hb' & E'); [lia|rewrite E1; lens|].
  exists b'. split_and!; [done|done|]. by rewrite E', E1, take_0, drop_app_length'.
Qed.

(** What is before the writer's start stays as it is. *)
Lemma box_seal_inner recip sender sk (w w' : BufWriter bytes) nonce :
  X25519.secret sender = Some sk → length nonce = 24%nat → (bw_pos w ≤ length (bw_inner w))%nat →
  crypto_box recip sender w nonce = Ok w' →
  bw_inner w' = take (bw_pos w) (bw_inner w) ++ box_sealed (X25519.public recip) sk nonce (drop (bw_pos w) (bw_inner w)).
Proof.
  intros Hs Hn Hp. unfold crypto_box, secret_key_from, nonce_from, box_sealed. rewrite Hs, Hn.
  cbn [Nat.eqb CBOX_NONCE_LENGTH mbind res_bind as_ref buf_writer_buffer vec_buffer].
  destruct (box_encrypt _ _ _ _) as [[c t]|]; [|done]. cbn [ok_or mbind res_bind].
  cbn [buffer_insert as_mut_set buf_writer_buffer vec_buffer bw_inner bw_pos as_ref]. unfold bw_with, vec_splice.
  rewrite Nat.add_0_r, Nat.leb_refl, length_app, length_take_le, (proj2 (Nat.leb_le _ _)) by lia.
  cbn. intros [= <-]. cbn. by rewrite take_app_length', drop_app_length' by (rewrite length_take; lia).
Qed.

(** Writing within the capacity does not reallocate. *)
Lemma secret_write_fits `{Allocator} d s : (length (sec_data s) + length d < sec_cap s)%nat →
  buffer_write d s = Ok (mkSecret (sec_data s ++ d) (sec_cap s) (sec_released s)).
Proof.
  intros Hl. cbn. unfold extend_from_slice, secret_reserve, ensure_capacity.
  rewrite (proj2 (Nat.eqb_neq _ _)) by lia.
  rewrite (proj2 (Nat.leb_gt (sec_cap s) _)) by lia. rewrite andb_false_r.
  unfold vec_reserve. by rewrite (proj2 (Nat.leb_le _ _)) by lia.
Qed.

(** The text of a sealed box: the ephemeral key, then the box, in a buffer that
    never moved. *)
Lemma crypto_box_seal_spec `{Allocator} `{KeyMaterial R} (rng rng' : R) okm recip m :
  read_okm 32 rng = Ok (rng', okm) →
  ∃ t, crypto_box_seal rng recip m = Ok t ∧ sec_ok t ∧ sec_released t = []
    ∧ sec_data t = x_public_key okm ++ box_sealed (X25519.public recip) okm
        (blake2b 24 (x_public_key okm ++ X25519.public recip)) m.
Proof.
  intros Hrng. pose proof (read_okm_length _ _ _ _ Hrng) as Hok. pose proof (x_public_key_length okm Hok) as Hpk.
  unfold crypto_box_seal, X25519.generate. rewrite Hrng. cbn [mbind res_bind].
  rewrite (array_from_slice_ok _ okm) by done. cbn [mbind res_bind mret res_ret X25519.public].
  pose proof (alloc_cap_ge (CBOX_KEY_LENGTH + CBOX_TAG_LENGTH + length m)) as Hcap.
  unfold with_capacity. revert Hcap. generalize (alloc_cap (CBOX_KEY_LENGTH + CBOX_TAG_LENGTH + length m)) as cap.
  intros cap Hcap. change (48 + length m ≤ cap)%nat in Hcap. change CBOX_KEY_LENGTH with 32%nat.
  rewrite (secret_write_fits (x_public_key okm)) by (cbn; lia). cbn [mbind res_bind].
  rewrite secret_write_fits by (cbn [sec_data sec_cap app]; lia).
  cbn [mbind res_bind]. cbn [sec_data sec_cap sec_released with_capacity app]. unfold crypto_box_seal_nonce. cbn [mbind res_bind].
  change CBOX_NONCE_LENGTH with 24%nat. set (nc := blake2b 24 (x_public_key okm ++ X25519.public recip)).
  assert (length nc = 24%nat) as Hnc by apply blake2b_length.
  pose proof (crypto_box_spec recip (X25519.new (Some okm) (x_public_key okm)) okm
    (from_vec_skip (x_public_key okm ++ m) 32) nc eq_refl Hnc) as X.
  destruct X as (w & E & _ & Ew); [split; [exact I|cbn; rewrite length_app; lia]|].
  rewrite E. cbn [mbind res_bind]. eexists. split; [done|].
  assert (bw_inner w = x_public_key okm ++ box_sealed (X25519.public recip) okm nc m) as Hw.
  { apply (box_seal_inner _ _ okm) in E; [|done|done|cbn; rewrite length_app; lia]. rewrite E.
    cbn [from_vec_skip bw_inner bw_pos]. by rewrite take_app_length', drop_app_length'. }
  pose proof (box_sealed_length (X25519.public recip) okm nc m Hnc) as Hsl.
  cbn [set_data sec_data sec_cap sec_released]. rewrite Hw. split_and!; [|done|done].
  unfold sec_ok. cbn. rewrite length_app, Hpk, Hsl. lia.
Qed.

Lemma crypto_box_seal_open_spec `{Allocator} okm r m : length okm = 32%nat →
  ∃ o, crypto_box_seal_open (X25519.from_secret_key r)
      (x_public_key okm ++ box_sealed (x_public_key r) okm (blake2b 24 (x_public_key okm ++ x_public_key r)) m) = Ok o
    ∧ sec_data o = m.
Proof.
  intros Hok. pose proof (x_public_key_length okm Hok) as Hpk.
  set (nc := blake2b 24 (x_public_key okm ++ x_public_key r)).
  assert (length nc = 24%nat) as Hnc by apply blake2b_length.
  pose proof (box_sealed_length (x_public_key r) okm nc m Hnc) as Hsl.
  unfold crypto_box_seal_open. rewrite length_app, Hpk, Hsl.
  change CBOX_KEY_LENGTH with 32%nat. change CBOX_TAG_LENGTH with 16%nat. rewrite (proj2 (Nat.ltb_ge _ _)) by lia.
  rewrite take_app_length', drop_app_length' by done.
  unfold X25519.from_public_bytes. rewrite Hpk. cbn [Nat.eqb X25519.PUBLIC_KEY_LENGTH mbind res_bind X25519.public].
  unfold crypto_box_seal_nonce. cbn [mbind res_bind X25519.from_secret_key X25519.public].
  change CBOX_NONCE_LENGTH with 24%nat. fold nc.
  pose proof (crypto_box_open_spec (X25519.from_secret_key r) (X25519.new None (x_public_key okm)) okm r
    (secret_from_slice (box_sealed (x_public_key r) okm nc m)) nc m eq_refl eq_refl Hnc) as X.
  destruct X as (o & Eo & _ & Ho); [split; [unfold sec_ok; cbn; apply alloc_cap_ge|constructor]|done|].
  exists o. split; [exact Eo|exact Ho].
Qed.
End BoxLemmas.

(** ** A toy box with the laws, for examples: the tag is the sum of the keys *)

Definition toy_box : @SalsaBox toy_25519 := {|
  box_encrypt pk sk nonce m := Some (m, take 16 (@x_diffie_hellman toy_25519 sk pk));
  box_decrypt pk sk nonce c t :=
    if decide (t = take 16 (@x_diffie_hellman toy_25519 sk pk)) then Some c else None;
  blake2b n m := resize n x00 m;
|}.

#[export] Instance toy_box_laws : @SalsaBoxLaws toy_25519 toy_box.
Proof.
  constructor; cbn [box_encrypt box_decrypt blake2b toy_box].
  - intros. by eexists.
  - intros pk sk nonce m c t [= <- <-]. split; [done|]. rewrite length_take, length_zip_with. lens.
  - intros a b nonce m c t E. apply (inj Some) in E. injection E as -> <-.
    rewrite decide_True; [done|]. by rewrite (@x_diffie_hellman_comm toy_25519 toy_25519_laws).
  - intros. lens.
Qed.

(** ** Properties *)

(** A box for a recipient, opened by that recipient with the sender's public
    key, gives the message back in whatever buffer; a sealed box gives it back to the
    recipient alone, its buffer was large enough from the start (nothing is
    reallocated, so no copy of the message is left behind), and text too short for a
    key and a tag is refused. *)
Theorem crypto_box_roundtrip `{Curve25519Laws} {S : SalsaBox} {SL : SalsaBoxLaws} `{Allocator} `{KeyMaterial R}
    `{LawfulBuffer B1} `{LawfulBuffer B2} (recip sender : X25519.KeyPair) r s (b : B1) (c : B2) nonce (rng rng' : R) okm :
  x_ok recip → x_ok sender → X25519.secret recip = Some r → X25519.secret sender = Some s →
  length nonce = 24%nat → buf_ok b → buf_ok c → read_okm 32 rng = Ok (rng', okm) →
  (∃ b', crypto_box (X25519.new None (X25519.public recip)) sender b nonce = Ok b'
     ∧ (as_ref c = as_ref b' →
        ∃ c', crypto_box_open recip (X25519.new None (X25519.public sender)) c nonce = Ok c' ∧ as_ref c' = as_ref b))
  ∧ (∃ t, crypto_box_seal rng (X25519.new None (X25519.public recip)) (as_ref b) = Ok t
     ∧ length (sec_data t) = (48 + length (as_ref b))%nat ∧ sec_ok t ∧ sec_released t = []
     ∧ (∃ m, crypto_box_seal_open recip (sec_data t) = Ok m ∧ sec_data m = as_ref b))
  ∧ ∀ short, (length short < 48)%nat →
     crypto_box_seal_open recip short = Err (encryption_err "Invalid size for encrypted data").
Proof.
  intros Hr Hs Er Es Hn Hb Hc Hrng.
  destruct (x_ok_secret recip r Hr Er) as [-> Hlr]. destruct (x_ok_secret sender s Hs Es) as [-> Hls].
  split_and!.
  - destruct (crypto_box_spec (X25519.new None (x_public_key r)) (X25519.from_secret_key s) s b nonce eq_refl Hn Hb)
      as (b' & E & _ & Eb).
    exists b'. split; [exact E|]. intros Ec. rewrite Eb in Ec.
    destruct (crypto_box_open_spec (X25519.from_secret_key r) (X25519.new None (x_public_key s)) s r c nonce (as_ref b)
      eq_refl eq_refl Hn Hc Ec) as (c' & ? & _ & ?). by exists c'.
  - destruct (crypto_box_seal_spec rng rng' okm (X25519.new None (x_public_key r)) (as_ref b) Hrng) as (t & E & Ht & Hz & Hd).
    pose proof (read_okm_length _ _ _ _ Hrng) as Hok. exists t. rewrite Hd. cbn [X25519.public].
    split_and!; [exact E| |exact Ht|exact Hz|by apply crypto_box_seal_open_spec].
    rewrite length_app, x_public_key_length, box_sealed_length by (done || apply blake2b_length). lia.
  - intros short Hsh. unfold crypto_box_seal_open. by rewrite (proj2 (Nat.ltb_lt _ _)).
Qed.

Lemma crypto_box_roundtrip_witness :
  let kp b := X25519.new (Some (replicate 32 b)) (replicate 32 b) in
  ∃ t, @crypto_box_seal toy_25519 toy_box demo_allocator ListSource _ (mkSource [replicate 32 x05])
      (X25519.new None (X25519.public (kp x01))) [x61; x62] = Ok t
    ∧ length (sec_data t) = 50%nat ∧ sec_ok t ∧ sec_released t = []
    ∧ (∃ m, @crypto_box_seal_open toy_25519 toy_box demo_allocator (kp x01) (sec_data t) = Ok m ∧ sec_data m = [x61; x62]).
Proof.
  intros kp.
  pose proof (@crypto_box_roundtrip toy_25519 toy_25519_laws toy_box toy_box_laws demo_allocator ListSource _
    bytes _ _ bytes _ _ (kp x01) (kp x02) (replicate 32 x01) (replicate 32 x02) [x61; x62] [] (replicate 24 x00)
    (mkSource [replicate 32 x05]) (mkSource []) (replicate 32 x05)) as E.
  destruct E as (_ & E & _); [split; [reflexivity|split; reflexivity]|split; [reflexivity|split; reflexivity]|
    reflexivity|reflexivity|reflexivity|exact I|exact I|reflexivity|exact E].
Defined.
