(* ===== verification/LocalKey.v ===== *)
(** * Local keys

    Models src/kms/local_key.rs, src/kms/enc.rs and src/kms/envelope.rs: the key
    type of the API with all its operations, the layout of encrypted messages, crypto
    boxes and the derivation of shared keys. *)

From S2P Require Import Prelude Words Errors Buffers Random Utf8 Aead Aes KeyAlg Kdf Jwk JwkAttrs JwkToy Repr.
From S2P Require Import EcKeys EdKeys BlsKeys AnyKey AnyKeyLaws CryptoBox.
Local Open Scope string_scope.
Local Open Scope list_scope.

(** The API crate's [Result], and [?] on the results of the other crates. *)
Abbreviation ares := (res AskarError.Error).
Definition api_cres {A} (r : cres A) : ares A := map_err AskarError.from_crypto r.
Definition api_sres {A} (r : sres A) : ares A := map_err AskarError.from_storage r.

(** [&v[i..j]]: out of range panics. *)
Definition slice_range {E} (i j : nat) (v : bytes) : res E bytes :=
  if (i <=? j)%nat && (j <=? length v)%nat then Ok (take (j - i) (drop i v)) else Panic.

(** ** Encrypted messages *)

Module Encrypted.
Record t := new {
  buffer : SecretBytes;
  tag_pos : nat;
  nonce_pos : nat;
}.

Definition into_vec (e : t) : bytes := fst (into_vec (buffer e)).
Definition ciphertext {E} (e : t) : res E bytes := slice_range 0 (tag_pos e) (sec_data (buffer e)).
Definition nonce {E} (e : t) : res E bytes :=
  slice_range (nonce_pos e) (length (sec_data (buffer e))) (sec_data (buffer e)).
Definition tag {E} (e : t) : res E bytes := slice_range (tag_pos e) (nonce_pos e) (sec_data (buffer e)).
Definition as_ref (e : t) : bytes := sec_data (buffer e).
End Encrypted.

(** The payload of a decryption: a slice, a pair of slices or an encrypted message. *)
Module ToDecrypt.
Record t := mk {
  ciphertext : bytes;
  tag : bytes;
}.

Definition len (d : t) : nat := length (ciphertext d) + length (tag d).

Definition into_secret `{Allocator} (d : t) : SecretBytes :=
  if (length (tag d) =? 0)%nat then secret_from_slice (ciphertext d)
  else extend_from_slice (tag d) (extend_from_slice (ciphertext d) (with_capacity (len d))).

Definition from_bytes (c : bytes) : t := mk c [].
Definition from_pair (split : bytes * bytes) : t := mk split.1 split.2.
Definition from_encrypted {E} (e : Encrypted.t) : res E t :=
  c ← Encrypted.ciphertext e; g ← Encrypted.tag e; mret (mk c g).
End ToDecrypt.

(** ** Local keys *)

Record LocalKey `{Crypto} := mkLocal {
  inner : AnyKey;
  ephemeral : bool;
}.

Section LocalKey.
Context `{C : Crypto} `{Allocator} `{Base64} `{JsonReader} `{Digest} `{StreamCipher} `{Hkdf}.

(** An imported key is not ephemeral. *)
Definition imported (r : cres AnyKey) : ares LocalKey := k ← api_cres r; mret (mkLocal _ k false).

(** [AnyKeyCreate::random] draws from the system's generator; [None] when the fuel
    of the search for a key is used up. *)
Definition local_generate `{KeyMaterial R} (fuel : nat) (rng : R) (a : KeyAlg.t) (eph : bool)
    : option (ares LocalKey) :=
  match generate_any_with_rng fuel a rng with
  | Some r => Some ('(_, k) ← api_cres r; mret (mkLocal _ k eph))
  | None => None
  end.

Definition local_generate_for_hardware (a : KeyAlg.t) (eph : bool) : ares LocalKey :=
  k ← api_cres (generate_any_for_hardware a); mret (mkLocal _ k eph).

Definition local_from_id (a : KeyAlg.t) (id : string) : ares LocalKey := imported (get_any_with_id a id).

Definition drop_rng {R} (r : cres (R * AnyKey)) : cres AnyKey := snd <$> r.

Definition local_from_seed (fuel : nat) (a : KeyAlg.t) (seed : bytes) (method : option string)
    : option (ares LocalKey) :=
  if bool_decide (method = Some "bls_keygen") then
    match key_gen_new seed with
    | Ok g => imported ∘ drop_rng <$> generate_any_with_rng fuel a g
    | Err e => Some (Err (AskarError.from_crypto e))
    | Panic => Some Panic
    end
  else if bool_decide (method = None) || bool_decide (method = Some "") then
    imported ∘ drop_rng <$> generate_any_with_rng fuel a (random_det_new seed)
  else Some (Err (AskarError.from_msg AskarError.Unsupported "Unknown seed method for key generation")).

Definition local_from_jwk_slice (u : res JwkErr ()) (jwk : bytes) : ares LocalKey :=
  imported (from_jwk_slice u jwk).
Definition local_from_jwk (u : res JwkErr ()) (jwk : string) : ares LocalKey := imported (from_jwk u jwk).
Definition local_from_public_bytes (a : KeyAlg.t) (public : bytes) : ares LocalKey :=
  imported (from_public_bytes_any a public).
Definition local_from_secret_bytes (a : KeyAlg.t) (secret : bytes) : ares LocalKey :=
  imported (from_secret_bytes_any a secret).

Definition local_to_public_bytes (k : LocalKey) : ares SecretBytes := api_cres (any_to_public_bytes (inner k)).
Definition local_to_secret_bytes (k : LocalKey) : ares SecretBytes := api_cres (any_to_secret_bytes (inner k)).

(** The shared secret written into a buffer of the new key. *)
Definition exchange_into (a b : AnyKey) (w : SliceWriter) : cres SliceWriter :=
  z ← any_write_key_exchange a b; writer_write z w.

Definition to_key_exchange (k : LocalKey) (a : KeyAlg.t) (pk : LocalKey) : ares LocalKey :=
  i ← api_cres (from_key_exchange_any a (exchange_into (inner k) (inner pk)));
  mret (mkLocal _ i (ephemeral k || ephemeral pk)).

Definition local_from_key_derivation (a : KeyAlg.t) (derive : nat → cres bytes) : ares LocalKey :=
  imported (from_key_derivation_any a derive).

Definition encode (k : LocalKey) : ares SecretBytes := api_cres (to_jwk_secret base64 (inner k) None).
Definition local_algorithm (k : LocalKey) : KeyAlg.t := algorithm (inner k).

(** JSON text, of ASCII characters. *)
Definition local_to_jwk_public (k : LocalKey) (a : option KeyAlg.t) : ares string :=
  api_cres (string_of_bytes <$> to_jwk_public base64 (inner k) a).
Definition local_to_jwk_secret (k : LocalKey) : ares SecretBytes := api_cres (to_jwk_secret base64 (inner k) None).
Definition to_jwk_thumbprint (k : LocalKey) (a : option KeyAlg.t) : ares string :=
  api_cres (string_of_bytes <$> write_jwk_thumbprint base64 (inner k) a ([] : bytes)).

Definition to_jwk_thumbprints (k : LocalKey) : ares (list string) :=
  if bool_decide (algorithm (inner k) = KeyAlg.Bls12_381 BlsCurves.G1G2) then
    g1 ← to_jwk_thumbprint k (Some (KeyAlg.Bls12_381 BlsCurves.G1));
    g2 ← to_jwk_thumbprint k (Some (KeyAlg.Bls12_381 BlsCurves.G2));
    mret [g1; g2]
  else
    t ← to_jwk_thumbprint k None; mret [t].

Definition convert_key (k : LocalKey) (a : KeyAlg.t) : ares LocalKey :=
  i ← api_cres (convert_key_any (inner k) a); mret (mkLocal _ i (ephemeral k)).

(** ** Authenticated encryption *)

Definition local_aead_params (k : LocalKey) : ares KeyAeadParams :=
  let params := any_aead_params (inner k) in
  if (tag_length params =? 0)%nat
  then Err (AskarError.from_msg AskarError.Unsupported "AEAD is not supported for this key type")
  else Ok params.

Definition local_aead_padding (k : LocalKey) (msg_len : nat) : nat := any_aead_padding (inner k) msg_len.

(** [fill_random]: the bytes the system's generator puts into a buffer of a length. *)
Definition aead_random_nonce (fill_random : nat → bytes) (k : LocalKey) : ares bytes :=
  let nonce_len := nonce_length (any_aead_params (inner k)) in
  if (nonce_len =? 0)%nat then Ok [] else Ok (fill_random nonce_len).

Definition aead_encrypt (fill_random : nat → bytes) (k : LocalKey) (message nonce aad : bytes)
    : ares Encrypted.t :=
  let params := any_aead_params (inner k) in
  nonce ← (if (length nonce =? 0)%nat && (0 <? nonce_length params)%nat
           then aead_random_nonce fill_random k else Ok nonce);
  let pad_len := any_aead_padding (inner k) (length message) in
  let buf := secret_from_slice_reserve message (pad_len + tag_length params + length nonce) in
  '(buf, tag_pos) ← api_cres (any_encrypt_in_place (inner k) nonce aad buf);
  let nonce_pos := length (sec_data buf) in
  let buf := if (length nonce =? 0)%nat then buf else extend_from_slice nonce buf in
  Ok (Encrypted.new buf tag_pos nonce_pos).

Definition aead_decrypt (k : LocalKey) (ciphertext : ToDecrypt.t) (nonce aad : bytes) : ares SecretBytes :=
  api_cres (any_decrypt_in_place (inner k) nonce aad (ToDecrypt.into_secret ciphertext)).

(** ** Signatures *)

(** [sig_type.map(SignatureType::from_str).transpose()]. *)
Definition parse_sig_type (sig_type : option string) : cres (option SignatureType.t) :=
  match sig_type with Some s => Some <$> signature_from_str s | None => Ok None end.

Definition sign_message (k : LocalKey) (message : bytes) (sig_type : option string) : ares bytes :=
  api_cres (t ← parse_sig_type sig_type; any_write_signature (inner k) message t).

Definition local_verify_signature (k : LocalKey) (message signature : bytes) (sig_type : option string) : ares bool :=
  api_cres (t ← parse_sig_type sig_type; any_verify_signature (inner k) message signature t).

(** ** Key wrapping *)

Definition wrap_key (k key : LocalKey) (nonce : bytes) : ares Encrypted.t :=
  let params := any_aead_params (inner k) in
  n ← api_cres (any_secret_bytes_length (inner key));
  let buf := with_capacity (n + tag_length params + nonce_length params) in
  buf ← api_cres (any_write_secret_bytes (inner key) buf);
  '(buf, tag_pos) ← api_cres (any_encrypt_in_place (inner k) nonce [] buf);
  let nonce_pos := length (sec_data buf) in
  Ok (Encrypted.new (extend_from_slice nonce buf) tag_pos nonce_pos).

Definition unwrap_key (k : LocalKey) (a : KeyAlg.t) (ciphertext : ToDecrypt.t) (nonce : bytes) : ares LocalKey :=
  buf ← api_cres (any_decrypt_in_place (inner k) nonce [] (ToDecrypt.into_secret ciphertext));
  local_from_secret_bytes a (sec_data buf).

(** Without the feature for hardware keys. *)
Definition is_hardware_backed (k : LocalKey) : bool := false.

#[export] Instance local_exchange : KeyExchange LocalKey :=
  {| write_key_exchange k other := any_write_key_exchange (inner k) (inner other) |}.

(** ** Envelopes *)

Definition cast_x25519 (k : LocalKey) : ares X25519.KeyPair :=
  match inner k with
  | AnyX25519 kp => Ok kp
  | _ => Err (AskarError.from_msg AskarError.Input "x25519 keypair required")
  end.

Definition crypto_box_random_nonce (fill_random : nat → bytes) : ares bytes := Ok (fill_random CBOX_NONCE_LENGTH).

Context {S : SalsaBox}.

Definition local_crypto_box (recip sender : LocalKey) (message nonce : bytes) : ares bytes :=
  recip_pk ← cast_x25519 recip;
  sender_sk ← cast_x25519 sender;
  let buffer := secret_from_slice_reserve message CBOX_TAG_LENGTH in
  b ← api_cres (crypto_box recip_pk sender_sk buffer nonce);
  Ok (fst (into_vec b)).

Definition local_crypto_box_open (recip sender : LocalKey) (message nonce : bytes) : ares SecretBytes :=
  recip_pk ← cast_x25519 recip;
  sender_sk ← cast_x25519 sender;
  api_cres (crypto_box_open recip_pk sender_sk (secret_from_slice message) nonce).

Definition local_crypto_box_seal `{KeyMaterial R} (rng : R) (recip : LocalKey) (message : bytes) : ares bytes :=
  kp ← cast_x25519 recip;
  sealed ← api_cres (crypto_box_seal rng kp message);
  Ok (fst (into_vec sealed)).

Definition local_crypto_box_seal_open (recip : LocalKey) (ciphertext : bytes) : ares SecretBytes :=
  kp ← cast_x25519 recip;
  api_cres (crypto_box_seal_open kp ciphertext).

Definition derive_key_ecdh_1pu (key_alg : KeyAlg.t) (ephem_key sender_key recip_key : LocalKey)
    (alg_id apu apv cc_tag : bytes) (receive : bool) : ares LocalKey :=
  local_from_key_derivation key_alg
    (pu_derive_key_bytes (mkEcdh1PU ephem_key sender_key recip_key alg_id apu apv cc_tag receive)).

Definition derive_key_ecdh_es (key_alg : KeyAlg.t) (ephem_key recip_key : LocalKey)
    (alg_id apu apv : bytes) (receive : bool) : ares LocalKey :=
  local_from_key_derivation key_alg
    (es_derive_key_bytes (mkEcdhEs ephem_key recip_key alg_id apu apv receive)).
End LocalKey.

(** ** Lemmas *)

Lemma slice_range_app {E} (a b c : bytes) :
  slice_range (E := E) (length a) (length a + length b) (a ++ b ++ c) = Ok b.
Proof.
  unfold slice_range. rewrite (proj2 (Nat.leb_le _ _)), (proj2 (Nat.leb_le _ _)) by lens. cbn [andb].
  rewrite drop_app_length. replace (length a + length b - length a)%nat with (length b) by lia.
  by rewrite take_app_length.
Qed.

Section LocalLemmas.
Context `{L : CryptoLaws} `{Allocator}.

Lemma chacha_sealed_size (A : AeadCipher) (LA : CipherLaws) k nonce aad m : chacha_ok k →
  length nonce = cipher_nonce_size → (length m ≤ cipher_max)%nat →
  length (chacha_sealed k nonce aad m) = (length m + cipher_tag_size)%nat.
Proof.
  intros Hk Hn Hm. unfold chacha_sealed.
  pose proof (encrypt_detached_total _ _ aad _ Hk Hn Hm) as Ht.
  destruct (encrypt_detached _ _ _ _) as [[c t]|] eqn:E; [|done].
  apply encrypt_detached_sizes in E as [Hc Hl]. lens.
Qed.

Lemma cbc_sealed_size (A : CbcHmac) (LA : CbcHmacLaws) key nonce aad m : cbc_key_ok key →
  length nonce = cbc_block_size →
  length (cbc_sealed key nonce aad m) = (length m + padding_length (length m) + cbc_key_size)%nat.
Proof.
  intros Hk Hn. unfold cbc_sealed. destruct (cbc_encrypt_total _ _ m Hk Hn) as (c & E & Hc & _).
  rewrite E. change (default [] (Some c)) with c. rewrite length_app, cbc_mac_length. by rewrite Hc.
Qed.

Lemma kw_sealed_size (A : BlockCipher) (LA : BlockCipherLaws) key m : (length m mod 8 = 0)%nat →
  length (kw_sealed key m) = (length m + 8)%nat.
Proof.
  intros Hm%mod8_div. destruct (kw_sealed_spec key _ _ Hm) as (iv & cs & _ & -> & Hi & Hc & Hl & _).
  rewrite length_app, Hi, (concat_length8 _ Hc), Hl. lia.
Qed.

(** A sealed message is as long as the parameters of its key say. *)
Lemma any_sealed_size k nonce aad m : any_ok k → aead_takes k nonce aad m →
  length (any_sealed k nonce aad m)
  = (length m + any_aead_padding k (length m) + tag_length (any_aead_params k))%nat.
Proof.
  destruct k as [t k|k|k|k|t k|k|k|k|k|k]; try done; cbn [any_ok].
  - destruct t; cbn [aead_takes any_sealed any_aead_padding any_aead_params tag_length aes_key_size];
      intros Hk Ht; rewrite ?Nat.add_0_r.
    + apply (chacha_sealed_size _ laws_a128gcm (mkChacha (aes_bytes k))); [|apply Ht..].
      unfold chacha_ok. cbn [chacha_bytes]. by rewrite Hk, a128gcm_key.
    + apply (chacha_sealed_size _ laws_a256gcm (mkChacha (aes_bytes k))); [|apply Ht..].
      unfold chacha_ok. cbn [chacha_bytes]. by rewrite Hk, a256gcm_key.
    + apply (cbc_sealed_size _ laws_a128cbc); [|apply Ht]. unfold cbc_key_ok. by rewrite length_drop, Hk, a128cbc_key.
    + apply (cbc_sealed_size _ laws_a256cbc); [|apply Ht]. unfold cbc_key_ok. by rewrite length_drop, Hk, a256cbc_key.
    + apply (kw_sealed_size _ laws_a128kw), Ht.
    + apply (kw_sealed_size _ laws_a256kw), Ht.
  - intros Hk [Hn Hm]. cbn [any_sealed any_aead_padding any_aead_params tag_length]. rewrite Nat.add_0_r.
    by apply (chacha_sealed_size _ (laws_chacha t)).
Qed.

(** Key wrapping, whose tag is not told apart from the ciphertext. *)
Definition wraps_keys (k : AnyKey) : bool :=
  match k with AnyAes (AesTypes.A128Kw | AesTypes.A256Kw) _ => true | _ => false end.

(** The lengths of the ciphertext and of the tag after it. *)
Definition sealed_lengths (k : AnyKey) (len : nat) : nat * nat :=
  if wraps_keys k then (len + tag_length (any_aead_params k), 0)%nat
  else (len + any_aead_padding k len, tag_length (any_aead_params k))%nat.

Lemma sealed_split k nonce aad m : any_ok k → aead_takes k nonce aad m →
  (length (take (any_tag_pos k (length m)) (any_sealed k nonce aad m)),
   length (drop (any_tag_pos k (length m)) (any_sealed k nonce aad m))) = sealed_lengths k (length m).
Proof.
  intros Hk Ht. rewrite length_take, length_drop, any_sealed_size by done. unfold sealed_lengths.
  destruct k as [t k|k|k|k|t k|k|k|k|k|k]; try done; [destruct t|]; cbn [wraps_keys any_tag_pos any_aead_padding any_aead_params tag_length];
    f_equal; lia.
Qed.

Lemma aead_takes_nonce k nonce aad m : aead_takes k nonce aad m → length nonce = nonce_length (any_aead_params k).
Proof. destruct k as [t k|k|k|k|t k|k|k|k|k|k]; [destruct t| | | | | | | | |]; try done; by intros [-> ?]. Qed.

Lemma any_tag_pos_fits k nonce aad m : any_ok k → aead_takes k nonce aad m →
  (any_tag_pos k (length m) ≤ length (any_sealed k nonce aad m))%nat.
Proof.
  intros Hk Ht. rewrite any_sealed_size by done.
  destruct k as [t k|k|k|k|t k|k|k|k|k|k]; try done; [destruct t|]; cbn; lia.
Qed.

Lemma from_slice_inv d : sec_inv (secret_from_slice d) ∧ sec_data (secret_from_slice d) = d.
Proof. split; [split; [unfold sec_ok; cbn; apply alloc_cap_ge|constructor]|done]. Qed.

Lemma from_slice_reserve_inv d n :
  sec_inv (secret_from_slice_reserve d n) ∧ sec_data (secret_from_slice_reserve d n) = d.
Proof.
  split; [split; [unfold sec_ok; cbn|constructor]|done].
  pose proof (alloc_cap_ge (length d + n)). lia.
Qed.

Lemma with_capacity_inv n : sec_inv (with_capacity n).
Proof. split; [unfold sec_ok; cbn; lia|constructor]. Qed.

Lemma into_secret_spec d : sec_inv (ToDecrypt.into_secret d)
  ∧ sec_data (ToDecrypt.into_secret d) = ToDecrypt.ciphertext d ++ ToDecrypt.tag d.
Proof.
  unfold ToDecrypt.into_secret. destruct (Nat.eqb_spec (length (ToDecrypt.tag d)) 0) as [E|_].
  - apply nil_length_inv in E as ->. rewrite app_nil_r. apply from_slice_inv.
  - destruct (secret_extend_inv (ToDecrypt.ciphertext d) _ (with_capacity_inv (ToDecrypt.len d))) as [H1 E1].
    destruct (secret_extend_inv (ToDecrypt.tag d) _ H1) as [H2 E2]. by rewrite E2, E1.
Qed.

(** The parts of a message laid out as encryption does. *)
Lemma encrypted_parts {E} (b : SecretBytes) sealed pos nonce :
  (pos ≤ length sealed)%nat → sec_data b = sealed ++ nonce →
  let e := Encrypted.new b pos (length sealed) in
  Encrypted.ciphertext (E := E) e = Ok (take pos sealed) ∧ Encrypted.tag (E := E) e = Ok (drop pos sealed)
  ∧ Encrypted.nonce (E := E) e = Ok nonce
  ∧ ToDecrypt.from_encrypted (E := E) e = Ok (ToDecrypt.mk (take pos sealed) (drop pos sealed)).
Proof.
  intros Hp Hb e.
  assert (Encrypted.ciphertext (E := E) e = Ok (take pos sealed)) as E1.
  { pose proof (slice_range_app (E := E) [] (take pos sealed) (drop pos sealed ++ nonce)) as X.
    rewrite app_nil_l, app_assoc, take_drop, <- Hb in X. cbn [length Nat.add] in X.
    rewrite length_take, Nat.min_l in X by lia. exact X. }
  assert (Encrypted.tag (E := E) e = Ok (drop pos sealed)) as E2.
  { pose proof (slice_range_app (E := E) (take pos sealed) (drop pos sealed) nonce) as X.
    rewrite app_assoc, take_drop, <- Hb, length_take, length_drop, Nat.min_l in X by lia.
    replace (pos + (length sealed - pos))%nat with (length sealed) in X by lia. exact X. }
  split_and!; [exact E1|exact E2| |].
  - pose proof (slice_range_app (E := E) sealed nonce []) as X.
    rewrite app_nil_r, <- Hb in X. unfold Encrypted.nonce. cbn [Encrypted.buffer Encrypted.nonce_pos e].
    rewrite Hb at 1. rewrite length_app. exact X.
  - unfold ToDecrypt.from_encrypted. rewrite E1. run_bind. by rewrite E2.
Qed.

(** The nonce encryption uses. *)
Definition used_nonce (fill_random : nat → bytes) (k : LocalKey) (nonce : bytes) : bytes :=
  if (length nonce =? 0)%nat then fill_random (nonce_length (any_aead_params (inner k))) else nonce.

Lemma aead_encrypt_spec fill_random k message nonce aad : any_ok (inner k) →
  (length (fill_random 0%nat) = 0)%nat →
  let n := used_nonce fill_random k nonce in
  aead_takes (inner k) n aad message →
  ∃ b, aead_encrypt fill_random k message nonce aad
      = Ok (Encrypted.new b (any_tag_pos (inner k) (length message)) (length (any_sealed (inner k) n aad message)))
    ∧ sec_inv b ∧ sec_data b = any_sealed (inner k) n aad message ++ n.
Proof.
  intros Hk Hr n Ht. unfold aead_encrypt.
  assert ((if (length nonce =? 0)%nat && (0 <? nonce_length (any_aead_params (inner k)))%nat
      then aead_random_nonce fill_random k else Ok nonce) = Ok n) as ->.
  { unfold aead_random_nonce, n, used_nonce.
    destruct (Nat.eqb_spec (length nonce) 0) as [E|]; [|done]. cbn [andb].
    destruct (nonce_length _) as [|m] eqn:En; [|done]. cbn.
    apply nil_length_inv in E as ->. by rewrite (nil_length_inv _ Hr). }
  run_bind. set (b0 := secret_from_slice_reserve message _).
  destruct (from_slice_reserve_inv message
    (any_aead_padding (inner k) (length message) + tag_length (any_aead_params (inner k)) + length n)) as [Hb0 Eb0].
  fold b0 in Hb0, Eb0.
  destruct (any_encrypt_spec (inner k) n aad b0 Hk) as (b1 & E1 & Hb1 & Es1);
    [change (as_ref b0) with (sec_data b0); by rewrite Eb0|exact Hb0|].
  change (as_ref b0) with (sec_data b0) in E1, Es1. change (as_ref b1) with (sec_data b1) in Es1.
  rewrite Eb0 in E1, Es1. rewrite E1. cbn [api_cres map_err mbind res_bind]. rewrite Es1.
  destruct (Nat.eqb_spec (length n) 0) as [E|_].
  - exists b1. split; [done|]. split; [exact Hb1|].
    apply nil_length_inv in E. rewrite Es1, E. by rewrite app_nil_r.
  - destruct (secret_extend_inv n b1 Hb1) as [H2 E2]. eexists. split; [done|]. by rewrite E2, Es1.
Qed.

Lemma decrypt_any_spec k nonce aad m (d : ToDecrypt.t) : any_ok k → aead_takes k nonce aad m →
  ToDecrypt.ciphertext d ++ ToDecrypt.tag d = any_sealed k nonce aad m →
  ∃ b, any_decrypt_in_place k nonce aad (ToDecrypt.into_secret d) = Ok b ∧ sec_inv b ∧ sec_data b = m.
Proof.
  intros Hk Ht Hd. destruct (into_secret_spec d) as [Hi Ed].
  destruct (any_decrypt_spec k nonce aad m (ToDecrypt.into_secret d) Hk Ht) as (b & E & Hb & Eb);
    [exact Hi|exact (eq_trans Ed Hd)|by exists b].
Qed.
End LocalLemmas.

Section Agreement.
Context `{L : CryptoLaws} `{Allocator} `{Base64} `{JsonReader} `{Digest} `{StreamCipher} `{Hkdf}.

(** The keys that can be derived, from as many bytes. *)
Definition derived_size (a : KeyAlg.t) : option nat :=
  match a with
  | KeyAlg.Aes t => Some (aes_key_size t)
  | KeyAlg.Chacha20 t => Some (@cipher_key_size (chacha_cipher t))
  | _ => None
  end.

Definition derived_key (a : KeyAlg.t) (b : bytes) : option AnyKey :=
  match a with
  | KeyAlg.Aes t => Some (AnyAes t (mkAes b))
  | KeyAlg.Chacha20 t => Some (AnyChacha t (mkChacha b))
  | _ => None
  end.

Lemma from_derivation_ok a n derive b : derived_size a = Some n → derive n = Ok b → length b = n →
  ∃ k, derived_key a b = Some k ∧ local_from_key_derivation a derive = Ok (mkLocal _ k false) ∧ any_ok k
    ∧ algorithm k = a.
Proof.
  intros Hn Hd Hb. unfold local_from_key_derivation, from_key_derivation_any.
  destruct a as [t| |t| | |]; try done; injection Hn as Hn; cbn [derived_key];
    unfold aes_from_key_derivation, chacha_from_key_derivation, array_try_new_with;
    rewrite length_replicate, Hn, Hd; run_bind; eexists; split_and!; try done; cbn; congruence.
Qed.

(** Two derivations of the same bytes. *)
Lemma from_derivation_both a n derive1 derive2 b : derived_size a = Some n →
  derive1 n = Ok b → derive2 n = Ok b → length b = n →
  ∃ k, local_from_key_derivation a derive1 = Ok k ∧ local_from_key_derivation a derive2 = Ok k
    ∧ any_ok (inner k) ∧ local_algorithm k = a.
Proof.
  intros Hn Hd1 Hd2 Hb. destruct (from_derivation_ok a n derive1 b Hn Hd1 Hb) as (k & K1 & E1 & Hk & Ak).
  destruct (from_derivation_ok a n derive2 b Hn Hd2 Hb) as (k' & K2 & E2 & _). rewrite K1 in K2. injection K2 as <-.
  by exists (mkLocal _ k false).
Qed.

Lemma from_derivation_err a n derive e : derived_size a = Some n → derive n = Err e →
  local_from_key_derivation a derive = Err (AskarError.from_crypto e).
Proof.
  intros Hn Hd. unfold local_from_key_derivation, from_key_derivation_any.
  destruct a as [t| |t| | |]; try done; injection Hn as Hn;
    unfold aes_from_key_derivation, chacha_from_key_derivation, array_try_new_with;
    by rewrite length_replicate, Hn, Hd.
Qed.

Definition local_public (k : LocalKey) : LocalKey := mkLocal _ (any_public_only (inner k)) (ephemeral k).

(** Keys that take part in an agreement. *)
Definition agrees (a : KeyAlg.t) (k : LocalKey) : Prop :=
  any_ok (inner k) ∧ algorithm (inner k) = a ∧ any_secret_of (inner k) ≠ None.

Lemma local_exchange_ok a k j : exchanges a = true → agrees a k → agrees a j →
  ∃ z, write_key_exchange k (local_public j) = Ok z ∧ write_key_exchange j (local_public k) = Ok z.
Proof.
  intros Ha (Hk & Ak & Sk) (Hj & Aj & Sj). apply any_exchange_ok; try done; congruence.
Qed.
End Agreement.

(** ** Properties *)

(** C31: A message encrypted with a local key of any type that supports it: the buffer holds
    ciphertext, tag and nonce and nothing else, at the recorded positions.  The ciphertext
    is as long as the message with its padding, the tag and the nonce are as long as the
    parameters of the key say, with a fresh nonce when none was given; only AES key
    wrapping has its 8 bytes in the ciphertext, and its tag is empty though its parameters
    say 8.  The ciphertext and tag, split in any way, decrypt under that nonce and the
    additional data to the message, and no memory the buffers gave up still holds data. *)
Theorem aead_message_roundtrip `{CryptoLaws} `{Allocator} fill_random k message nonce aad :
  any_ok (inner k) → (length (fill_random 0%nat) = 0)%nat →
  let n := used_nonce fill_random k nonce in
  aead_takes (inner k) n aad message →
  ∃ e c t, aead_encrypt fill_random k message nonce aad = Ok e
    ∧ Encrypted.ciphertext (E := ()) e = Ok c ∧ Encrypted.tag (E := ()) e = Ok t ∧ Encrypted.nonce (E := ()) e = Ok n
    ∧ Encrypted.into_vec e = c ++ t ++ n ∧ sec_inv (Encrypted.buffer e)
    ∧ (length c, length t) = (if wraps_keys (inner k) then (length message + 8, 0)
        else (length message + local_aead_padding k (length message), tag_length (any_aead_params (inner k))))%nat
    ∧ length n = nonce_length (any_aead_params (inner k))
    ∧ ∀ d, ToDecrypt.ciphertext d ++ ToDecrypt.tag d = c ++ t →
        ∃ m, aead_decrypt k d n aad = Ok m ∧ sec_data m = message ∧ sec_inv m.
Proof.
  intros Hk Hr n Ht. destruct (aead_encrypt_spec fill_random k message nonce aad Hk Hr Ht) as (b & E & Hb & Eb).
  fold n in E, Eb. pose proof (any_tag_pos_fits _ _ _ _ Hk Ht) as Hp.
  destruct (encrypted_parts (E := ()) b _ _ _ Hp Eb) as (Ec & Et & En & _).
  eexists _, _, _. split_and!; [exact E|exact Ec|exact Et|exact En| |exact Hb| |by eapply aead_takes_nonce|].
  - unfold Encrypted.into_vec. cbn [Encrypted.buffer into_vec fst]. by rewrite Eb, app_assoc, take_drop.
  - rewrite sealed_split by done. unfold sealed_lengths, local_aead_padding. destruct (inner k) as [[]| | | | | | | | |]; done.
  - intros d. rewrite take_drop. intros Hd.
    destruct (decrypt_any_spec _ _ _ _ d Hk Ht Hd) as (m & Em & Hm & Hdm). exists m.
    unfold aead_decrypt. by rewrite Em.
Qed.

(** A ChaCha20 key of the toy parameters. *)
Definition toy_local : @LocalKey toy_crypto :=
  mkLocal _ (AnyChacha Chacha20Types.XC20P (mkChacha (replicate 32 x07))) false.

Lemma aead_message_roundtrip_witness :
  ∃ e c t, @aead_encrypt toy_crypto demo_allocator (λ n, replicate n x05) toy_local [x61; x62] [] [x63] = Ok e
    ∧ Encrypted.ciphertext (E := ()) e = Ok c ∧ Encrypted.tag (E := ()) e = Ok t
    ∧ Encrypted.nonce (E := ()) e = Ok (replicate 24 x05) ∧ (length c, length t) = (2, 16)%nat
    ∧ ∀ d, ToDecrypt.ciphertext d ++ ToDecrypt.tag d = c ++ t →
        ∃ m, @aead_decrypt toy_crypto demo_allocator toy_local d (replicate 24 x05) [x63] = Ok m
          ∧ sec_data m = [x61; x62] ∧ sec_inv m.
Proof.
  pose proof (@aead_message_roundtrip toy_crypto toy_crypto_laws demo_allocator (λ n, replicate n x05) toy_local
    [x61; x62] [] [x63]) as E.
  destruct E as (e & c & t & E & Ec & Et & En & _ & _ & El & _ & Hd);
    [reflexivity|reflexivity|split; [reflexivity|cbn; lia]|].
  exists e, c, t. split_and!; assumption.
Defined.

(** A key wrapped by another and unwrapped, with the same nonce, is the key
    itself, for every pair of types whose bytes the wrapping key takes. *)
Theorem wrap_unwrap_roundtrip `{CryptoLaws} `{Allocator} `{Base64} `{JsonReader} `{Digest} `{StreamCipher} `{Hkdf}
    k key nonce secret :
  any_ok (inner k) → any_ok (inner key) →
  any_secret_of (inner key) = Some secret → aead_takes (inner k) nonce [] secret →
  ∃ e d, wrap_key k key nonce = Ok e ∧ ToDecrypt.from_encrypted (E := ()) e = Ok d
    ∧ Encrypted.nonce (E := ()) e = Ok nonce
    ∧ unwrap_key k (local_algorithm key) d nonce = Ok (mkLocal _ (inner key) false).
Proof.
  intros Hk Hj Hs Ht. unfold wrap_key.
  rewrite (any_secret_length _ _ Hj Hs). cbn [api_cres map_err mbind res_bind].
  set (b0 := with_capacity _). unfold any_write_secret_bytes.
  rewrite (any_with_secret_spec _ Hj), Hs. cbn [mbind res_bind].
  destruct (write_spec b0 secret) as (b1 & E1 & Hb1 & D1); [exact (with_capacity_inv _)|].
  change (wb_write secret b0) with (buffer_write secret b0). rewrite E1.
  cbn [api_cres map_err mbind res_bind].
  change (as_ref b0) with ([] : bytes) in D1. rewrite app_nil_l in D1.
  destruct (any_encrypt_spec (inner k) nonce [] b1 Hk) as (b2 & E2 & Hb2 & D2); [by rewrite D1|exact Hb1|].
  rewrite E2, D1 in *. cbn [api_cres map_err mbind res_bind].
  destruct (secret_extend_inv nonce b2 Hb2) as [_ D3].
  change (as_ref b2) with (sec_data b2) in D2. rewrite D2 in D3.
  pose proof (any_tag_pos_fits _ _ _ _ Hk Ht) as Hp.
  destruct (encrypted_parts (E := ()) _ _ _ _ Hp D3) as (_ & _ & En & Ed).
  rewrite D2. eexists _, _. split_and!; [done|exact Ed|exact En|].
  unfold unwrap_key. set (d := ToDecrypt.mk _ _).
  destruct (decrypt_any_spec _ _ _ _ d Hk Ht) as (m & Em & _ & Hm); [by apply take_drop|].
  rewrite Em. cbn [api_cres map_err mbind res_bind]. rewrite Hm.
  unfold local_from_secret_bytes, local_algorithm, imported. by rewrite (any_secret_reload _ _ Hj Hs).
Qed.

Lemma wrap_unwrap_roundtrip_witness :
  ∃ e d, @wrap_key toy_crypto demo_allocator toy_local (mkLocal _ toy_ed true) (replicate 24 x09) = Ok e
    ∧ ToDecrypt.from_encrypted (E := ()) e = Ok d ∧ Encrypted.nonce (E := ()) e = Ok (replicate 24 x09)
    ∧ @unwrap_key toy_crypto demo_allocator toy_local KeyAlg.Ed25519 d (replicate 24 x09) = Ok (mkLocal _ toy_ed false).
Proof.
  pose proof (@wrap_unwrap_roundtrip toy_crypto toy_crypto_laws demo_allocator b64 plain_reader toy_digest toy_stream
    toy_hkdf toy_local (mkLocal _ toy_ed true) (replicate 24 x09) (replicate 32 x07)) as E.
  apply E; [reflexivity|split_and!; [reflexivity|by eexists|split; reflexivity]|reflexivity|split; [reflexivity|cbn; lia]].
Defined.

(** C32: The sender and the recipient of a message derive the same key, each from
    its own secret keys and the public parts of the others', by ECDH-ES and by ECDH-1PU
    with the tag of the content, for every algorithm with a key exchange and every
    symmetric algorithm whose keys have at most 32 bytes; the derived key is valid.
    Both refuse longer keys in both ways.  In ECDH-1PU the tag may have up to 124 bytes:
    with a longer one both fail, by the check of the tag's length only above 128. *)
Theorem derive_key_agreement `{CryptoLaws} `{Digest} a key_alg size ephem sender recip alg_id apu apv cc_tag :
  digest_output_size = 32%nat →
  exchanges a = true → agrees a ephem → agrees a sender → agrees a recip → derived_size key_alg = Some size →
  let send_1pu := derive_key_ecdh_1pu key_alg ephem sender (local_public recip) alg_id apu apv cc_tag false in
  let receive_1pu := derive_key_ecdh_1pu key_alg (local_public ephem) (local_public sender) recip alg_id apu apv cc_tag true in
  let send_es := derive_key_ecdh_es key_alg ephem (local_public recip) alg_id apu apv false in
  let receive_es := derive_key_ecdh_es key_alg (local_public ephem) recip alg_id apu apv true in
  let same r1 r2 := ∃ k, r1 = Ok k ∧ r2 = Ok k ∧ any_ok (inner k) ∧ local_algorithm k = key_alg in
  let fail e r := r = Err (AskarError.from_crypto e) in
  if (size <=? 32)%nat then
    same send_es receive_es
    ∧ if (length cc_tag <=? 124)%nat then same send_1pu receive_1pu
      else let e := if (length cc_tag <=? 128)%nat then CryptoError.from_kind CryptoError.ExceededBuffer
                    else CryptoError.from_msg CryptoError.Unsupported "Exceeded maximum length for cc_tag" in
           fail e send_1pu ∧ fail e receive_1pu
  else Forall (fail (CryptoError.from_msg CryptoError.Unsupported "Exceeded maximum output length"))
         [send_1pu; receive_1pu; send_es; receive_es].
Proof.
  intros Hd Ha He Hs Hr Hn. cbv zeta. unfold derive_key_ecdh_1pu, derive_key_ecdh_es.
  destruct (local_exchange_ok a ephem recip Ha He Hr) as (ze & Ze1 & Ze2).
  destruct (local_exchange_ok a sender recip Ha Hs Hr) as (zs & Zs1 & Zs2).
  set (p1 := mkEcdh1PU ephem sender (local_public recip) alg_id apu apv cc_tag false).
  set (p2 := mkEcdh1PU (local_public ephem) (local_public sender) recip alg_id apu apv cc_tag true).
  destruct (Nat.leb_spec size 32) as [Hsz|Hsz].
  - split.
    + apply (from_derivation_both _ _ _ _ (take size (kdf_block ze (es_params (mkEcdhEs ephem (local_public recip) alg_id apu apv false) size) 1)) Hn).
      * by apply es_run; [| rewrite Hd|].
      * by apply (es_run (mkEcdhEs (local_public ephem) recip alg_id apu apv true)); [| rewrite Hd|].
      * rewrite length_take; unfold kdf_block; rewrite digest_size; lia.
    + assert (pu_shared p1 = Ok (ze ++ zs)) as Z1
        by (unfold pu_shared; cbn [p1 pu_receive pu_recip_key pu_ephem_key pu_send_key]; by rewrite Ze1, Zs1).
      assert (pu_shared p2 = Ok (ze ++ zs)) as Z2
        by (unfold pu_shared; cbn [p2 pu_receive pu_recip_key pu_ephem_key pu_send_key]; by rewrite Ze2, Zs2).
      destruct (Nat.leb_spec (length cc_tag) 124) as [Ht|Ht].
      * apply (from_derivation_both _ _ _ _ (take size (kdf_block (ze ++ zs) (pu_params p1 size) 1)) Hn).
        -- apply pu_run; [done|lia|done|done].
        -- apply (pu_run p2); [done|lia|done|done].
        -- rewrite length_take; unfold kdf_block; rewrite digest_size; lia.
      * destruct (Nat.leb_spec (length cc_tag) 128) as [Ht2|Ht2]; split; apply (from_derivation_err _ _ _ _ Hn).
        -- apply (ecdh_1pu_tag_exceeds p1 size (ze ++ zs) Hsz); [cbn; lia|exact Z1].
        -- apply (ecdh_1pu_tag_exceeds p2 size (ze ++ zs) Hsz); [cbn; lia|exact Z2].
        -- by apply pu_tag_refused.
        -- by apply pu_tag_refused.
  - repeat apply Forall_cons_2; [..|by apply Forall_nil]; apply (from_derivation_err _ _ _ _ Hn);
      unfold pu_derive_key_bytes, es_derive_key_bytes; by rewrite (proj2 (Nat.ltb_lt _ _) Hsz).
Qed.

Lemma derive_key_agreement_witness :
  let local b := mkLocal toy_crypto (toy_x b) true in
  (∃ k, @derive_key_ecdh_1pu toy_crypto sha_len_digest (KeyAlg.Aes AesTypes.A256Gcm) (local x01) (local x02)
      (local_public (local x03)) [x41] [] [] [x99] false = Ok k
    ∧ @derive_key_ecdh_1pu toy_crypto sha_len_digest (KeyAlg.Aes AesTypes.A256Gcm) (local_public (local x01))
      (local_public (local x02)) (local x03) [x41] [] [] [x99] true = Ok k
    ∧ any_ok (inner k) ∧ local_algorithm k = KeyAlg.Aes AesTypes.A256Gcm)
  ∧ @derive_key_ecdh_es toy_crypto sha_len_digest (KeyAlg.Aes AesTypes.A256CbcHs512) (local x01) (local_public (local x03))
      [x41] [] [] false
    = Err (AskarError.from_crypto (CryptoError.from_msg CryptoError.Unsupported "Exceeded maximum output length")).
Proof.
  intros local.
  assert (∀ b, agrees KeyAlg.X25519 (local b)) as Ha
    by (intros b; split_and!; [split; [reflexivity|split; reflexivity]|reflexivity|discriminate]).
  pose proof (@derive_key_agreement toy_crypto toy_crypto_laws sha_len_digest KeyAlg.X25519 (KeyAlg.Aes AesTypes.A256Gcm)
    32 (local x01) (local x02) (local x03) [x41] [] [] [x99] eq_refl eq_refl (Ha x01) (Ha x02) (Ha x03) eq_refl) as E.
  pose proof (@derive_key_agreement toy_crypto toy_crypto_laws sha_len_digest KeyAlg.X25519 (KeyAlg.Aes AesTypes.A256CbcHs512)
    64 (local x01) (local x02) (local x03) [x41] [] [] [x99] eq_refl eq_refl (Ha x01) (Ha x02) (Ha x03) eq_refl) as E2.
  split; [exact (proj2 E)|]. apply (proj1 (Forall_forall _ _) E2). right. right. left.
Defined.

(** The boxes of the API, at the level of local keys: a box opens for its
    recipient, a sealed box opens for the key it was sealed to, and a key of another
    type is refused before anything is done. *)
Theorem local_box_roundtrip `{CryptoLaws} {S : SalsaBox} {SL : SalsaBoxLaws} `{Allocator} `{KeyMaterial R}
    recip sender (r s message nonce : bytes) (rng rng' : R) okm :
  x_ok recip → x_ok sender → X25519.secret recip = Some r → X25519.secret sender = Some s →
  length nonce = 24%nat → read_okm 32 rng = Ok (rng', okm) →
  let kp k := mkLocal _ (AnyX25519 k) false in
  (∃ b m, local_crypto_box (local_public (kp recip)) (kp sender) message nonce = Ok b
     ∧ local_crypto_box_open (kp recip) (local_public (kp sender)) b nonce = Ok m ∧ sec_data m = message)
  ∧ (∃ b m, local_crypto_box_seal rng (local_public (kp recip)) message = Ok b
     ∧ local_crypto_box_seal_open (kp recip) b = Ok m ∧ sec_data m = message)
  ∧ ∀ k, local_algorithm k ≠ KeyAlg.X25519 →
     local_crypto_box_seal_open k message = Err (AskarError.from_msg AskarError.Input "x25519 keypair required").
Proof.
  intros Hr Hs Er Es Hn Hrng kp.
  destruct (x_ok_secret recip r Hr Er) as [-> Hlr]. destruct (x_ok_secret sender s Hs Es) as [-> Hls].
  split_and!.
  - destruct (from_slice_reserve_inv message CBOX_TAG_LENGTH) as [Hb Eb].
    destruct (crypto_box_spec (X25519.new None (x_public_key r)) (X25519.from_secret_key s) s
      (secret_from_slice_reserve message CBOX_TAG_LENGTH) nonce eq_refl Hn) as (b & E & _ & Db); [exact Hb|].
    change (as_ref b) with (sec_data b) in Db.
    change (as_ref (secret_from_slice_reserve message CBOX_TAG_LENGTH)) with message in Db.
    destruct (crypto_box_open_spec (X25519.from_secret_key r) (X25519.new None (x_public_key s)) s r
      (secret_from_slice (sec_data b)) nonce message eq_refl eq_refl Hn) as (m & Em & _ & Dm);
      [exact (proj1 (from_slice_inv _))|exact Db|].
    exists (sec_data b), m. split_and!; [|exact (f_equal api_cres Em)|exact Dm].
    exact (f_equal (λ r, b ← api_cres r; Ok (fst (into_vec b))) E).
  - destruct (crypto_box_seal_spec rng rng' okm (X25519.new None (x_public_key r)) message Hrng) as (t & E & _ & _ & Hd).
    pose proof (read_okm_length _ _ _ _ Hrng) as Hok.
    destruct (crypto_box_seal_open_spec okm r message Hok) as (m & Em & Dm).
    exists (sec_data t), m. split_and!; [| |exact Dm].
    + exact (f_equal (λ r, b ← api_cres r; Ok (fst (into_vec b))) E).
    + rewrite Hd. exact (f_equal api_cres Em).
  - intros [[] ?] Hk; try done.
Qed.

Lemma local_box_roundtrip_witness :
  let kp b := mkLocal toy_crypto (toy_x b) false in
  ∃ b m, @local_crypto_box_seal toy_crypto demo_allocator toy_box ListSource _ (mkSource [replicate 32 x05])
      (local_public (kp x01)) [x61; x62] = Ok b
    ∧ @local_crypto_box_seal_open toy_crypto demo_allocator toy_box (kp x01) b = Ok m ∧ sec_data m = [x61; x62].
Proof.
  intros kp.
  pose proof (@local_box_roundtrip toy_crypto toy_crypto_laws toy_box toy_box_laws demo_allocator ListSource _
    (X25519.new (Some (replicate 32 x01)) (replicate 32 x01)) (X25519.new (Some (replicate 32 x02)) (replicate 32 x02))
    (replicate 32 x01) (replicate 32 x02) [x61; x62] (replicate 24 x00) (mkSource [replicate 32 x05]) (mkSource [])
    (replicate 32 x05)) as E.
  destruct E as (_ & E & _); [split; [reflexivity|split; reflexivity]|split; [reflexivity|split; reflexivity]|
    reflexivity|reflexivity|reflexivity|reflexivity|exact E].
Defined.
