(* ===== verification/KeyEntry.v ===== *)
(** * Stored keys

    Models src/kms/entry.rs and the category of src/kms/mod.rs: the parameters of a
    stored key, how a key entry is read from a store entry, and loading the key.  CBOR
    is a third-party codec. *)

From S2P Require Import Prelude Errors Buffers Random Utf8 Entry Aead Aes KeyAlg Kdf Jwk JwkAttrs JwkToy Repr.
From S2P Require Import EdKeys BlsKeys AnyKey AnyKeyLaws LocalKey.
From stdpp Require Import sorting.
Local Open Scope string_scope.
Local Open Scope list_scope.

(** ** Categories *)

Module KmsCategory.
Inductive t := CryptoKey.

Definition as_str (c : t) : string := match c with CryptoKey => "cryptokey" end.

Definition from_str (s : string) : ares t :=
  if String.eqb s "cryptokey" then Ok CryptoKey
  else Err (AskarError.from_msg AskarError.Input ("Unknown KMS category: " +:+ s)).
End KmsCategory.

(** ** Parameters *)

Module KeyReference.
Inductive t :=
| MobileSecureElement
| Any (s : string).

Definition from_str (value : string) : t :=
  if String.eqb value "mobile_secure_element" then MobileSecureElement else Any value.
Definition into_string (r : t) : string :=
  match r with MobileSecureElement => "mobile_secure_element" | Any s => s end.
End KeyReference.

Record KeyParams := mkKeyParams {
  kp_metadata : option string;
  kp_reference : option KeyReference.t;
  kp_data : option bytes;
}.

(** The strings of a value are UTF-8, as every Rust string is. *)
Definition params_wf (p : KeyParams) : Prop :=
  (∀ s, kp_metadata p = Some s → str_ok s) ∧ (∀ s, kp_reference p = Some (KeyReference.Any s) → str_ok s).

(** [serde_cbor] on the derived form of the parameters. *)
Class ParamsCodec := {
  params_to_vec : KeyParams → res string bytes;
  params_from_vec : bytes → res string KeyParams;
  (** What was written is read back. *)
  params_codec p : params_wf p → ∃ b, params_to_vec p = Ok b ∧ params_from_vec b = Ok p;
}.

Section Params.
Context `{ParamsCodec}.

Definition params_to_bytes (p : KeyParams) : ares bytes :=
  map_err (λ e, AskarError.from_msg AskarError.Unexpected ("Error serializing key params: " +:+ e)) (params_to_vec p).

Definition params_to_id (p : KeyParams) : ares string :=
  match kp_data p with
  | Some d =>
      if utf8_valid d then Ok (string_of_bytes d)
      else Err (AskarError.from_msg AskarError.Input "Could not convert key data to string for id")
  | None => Err (AskarError.from_msg AskarError.Input "Could not convert key data to string for id")
  end.

Definition params_from_slice (b : bytes) : ares KeyParams :=
  map_err (λ e, AskarError.from_msg AskarError.Unexpected ("Error deserializing key params: " +:+ e)) (params_from_vec b).
End Params.

(** ** Key entries *)

Record KeyEntry := mkKeyEntry {
  ke_name : string;
  ke_params : KeyParams;
  ke_alg : option string;
  ke_thumbprints : list string;
  ke_tags : list EntryTag;
}.

Definition ke_metadata (e : KeyEntry) : option string := kp_metadata (ke_params e).
Definition ke_is_local (e : KeyEntry) : bool :=
  match kp_reference (ke_params e) with None => true | Some _ => false end.

Definition user_prefix : string := "user:".
Definition is_user (name : string) : bool := String.prefix user_prefix name.
(** [replace_range(0..5, "")]. *)
Definition strip_user (name : string) : string := string_of_bytes (drop 5 (as_bytes name)).

Definition vec_remove {A} (idx : nat) (l : list A) : list A := take idx l ++ drop (S idx) l.

(** The loop over the tags, which renames those of the user in place and takes the
    others out; [None] when its fuel is used up. *)
Fixpoint split_tags (fuel idx : nat) (tags : list EntryTag) (alg : option string) (thumbprints : list string)
    : option (list EntryTag * option string * list string) :=
  match tags !! idx with
  | None => Some (tags, alg, thumbprints)
  | Some tag =>
      match fuel with
      | O => None
      | S fuel =>
          let name := EntryTag.name tag in
          if is_user name then
            split_tags fuel (S idx) (<[idx := EntryTag.update_name strip_user tag]> tags) alg thumbprints
          else if String.eqb name "alg" then
            split_tags fuel idx (vec_remove idx tags) (Some (EntryTag.into_value tag)) thumbprints
          else if String.eqb name "thumb" then
            split_tags fuel idx (vec_remove idx tags) alg (thumbprints ++ [EntryTag.into_value tag])
          else split_tags fuel idx (vec_remove idx tags) alg thumbprints
      end
  end.

Definition string_le (a b : string) : Prop := bytes_compare (as_bytes a) (as_bytes b) ≠ Datatypes.Gt.
#[export] Instance string_le_dec a b : Decision (string_le a b).
Proof. unfold string_le. solve_decision. Defined.

Definition sort_strings (l : list string) : list string := merge_sort string_le l.

Definition key_entry_from_entry `{ParamsCodec} (entry : Entry) : ares KeyEntry :=
  params ← params_from_slice (value entry);
  match split_tags (length (tags entry)) 0 (tags entry) None [] with
  | None => Panic
  | Some (tags, alg, thumbprints) =>
      Ok (mkKeyEntry (name entry) params alg (sort_strings thumbprints) (sorted_tags tags))
  end.

Definition load_local_key `{Crypto} `{Base64} `{JsonReader} (u : res JwkErr ()) (e : KeyEntry) : ares LocalKey :=
  match kp_data (ke_params e) with
  | Some key_data =>
      match kp_reference (ke_params e) with
      | Some KeyReference.MobileSecureElement =>
          id ← params_to_id (ke_params e);
          a ← ok_or (ke_alg e) (AskarError.from_msg AskarError.Input "Algorithm is required to get key by id");
          a ← api_cres (alg_from_str a);
          local_from_id a id
      | _ => imported (from_jwk_slice u key_data)
      end
  | None => Err (AskarError.from_msg AskarError.Input "Missing key data")
  end.

(** ** Lemmas *)

Lemma kms_category_roundtrip c : KmsCategory.from_str (KmsCategory.as_str c) = Ok c.
Proof. by destruct c. Qed.

Lemma key_reference_string r :
  KeyReference.from_str (KeyReference.into_string r) = r ∨ r = KeyReference.Any "mobile_secure_element".
Proof.
  destruct r as [|s]; [by left|]. cbn. unfold KeyReference.from_str.
  destruct (String.eqb_spec s "mobile_secure_element") as [->|]; auto.
Qed.

Lemma user_name k : is_user (user_prefix +:+ k) = true ∧ strip_user (user_prefix +:+ k) = k.
Proof. split; [by destruct k|]. unfold strip_user. apply string_of_as_bytes. Qed.

(** What the loop computes. *)
Definition user_tags (tags : list EntryTag) : list EntryTag :=
  List.map (EntryTag.update_name strip_user) (List.filter (λ t, is_user (EntryTag.name t)) tags).
Definition named_values (n : string) (tags : list EntryTag) : list string :=
  List.map EntryTag.value (List.filter (λ t, String.eqb (EntryTag.name t) n) tags).

Lemma vec_remove_app {A} (l1 l2 : list A) x : vec_remove (length l1) (l1 ++ x :: l2) = l1 ++ l2.
Proof.
  unfold vec_remove. rewrite take_app_length. f_equal.
  rewrite drop_app_ge by lia. by replace (S (length l1) - length l1)%nat with 1%nat by lia.
Qed.

Lemma last_cons_default {A} (x : A) l d : last (x :: l) = Some (default x (last l)) ∧ default d (last (x :: l)) = default x (last l).
Proof. rewrite last_cons. by destruct (last l). Qed.

(** Each step handles one more of the tags the loop started with, so that many steps
    are enough. *)
Lemma split_tags_run rest : ∀ done_tags alg thumbs,
  split_tags (length rest) (length done_tags) (done_tags ++ rest) alg thumbs
  = Some (done_tags ++ user_tags rest,
          match last (named_values "alg" rest) with Some a => Some a | None => alg end,
          thumbs ++ named_values "thumb" rest).
Proof.
  induction rest as [|t rest IH]; intros done_tags alg thumbs.
  - cbn [split_tags length]. rewrite app_nil_r, lookup_ge_None_2 by lia. cbn. by rewrite !app_nil_r.
  - cbn [length split_tags]. rewrite list_lookup_middle by done.
    unfold user_tags, named_values. cbn [List.filter].
    destruct (is_user (EntryTag.name t)) eqn:Eu.
    + assert (∀ n, (n = "alg" ∨ n = "thumb") → String.eqb (EntryTag.name t) n = false) as Hne.
      { intros n Hn. apply String.eqb_neq. intros E. rewrite E in Eu. by destruct Hn as [-> | ->]. }
      rewrite !Hne by auto. cbn [List.map].
      rewrite insert_app_r_alt, Nat.sub_diag by lia. cbn [insert list_insert].
      pose proof (IH (done_tags ++ [EntryTag.update_name strip_user t]) alg thumbs) as X.
      rewrite length_app, Nat.add_comm in X. cbn [length Nat.add] in X. rewrite <- !app_assoc in X. exact X.
    + rewrite vec_remove_app.
      destruct (String.eqb_spec (EntryTag.name t) "alg") as [Ea|Ha].
      * rewrite Ea. cbn [String.eqb Ascii.eqb Bool.eqb List.map]. rewrite IH. unfold named_values, user_tags.
        rewrite last_cons. change (String.eqb "alg" "thumb") with false. cbn iota.
        by destruct (last _).
      * destruct (String.eqb_spec (EntryTag.name t) "thumb") as [Et|Ht]; rewrite IH; [|done].
        by rewrite <- app_assoc.
Qed.

Lemma split_tags_spec tags :
  split_tags (length tags) 0 tags None []
  = Some (user_tags tags, last (named_values "alg" tags), named_values "thumb" tags).
Proof.
  pose proof (split_tags_run tags [] None []) as X. cbn [app length] in X. rewrite X.
  by destruct (last _).
Qed.

(** An entry is read without running out of fuel. *)
Lemma key_entry_spec `{ParamsCodec} entry :
  key_entry_from_entry entry =
  (params ← params_from_slice (value entry);
   Ok (mkKeyEntry (name entry) params (last (named_values "alg" (tags entry)))
     (sort_strings (named_values "thumb" (tags entry))) (sorted_tags (user_tags (tags entry))))).
Proof. unfold key_entry_from_entry. by rewrite split_tags_spec. Qed.

(** More fuel than is needed changes nothing. *)
Lemma split_tags_fuel fuel more : ∀ idx tags alg thumbs r,
  split_tags fuel idx tags alg thumbs = Some r → split_tags (fuel + more) idx tags alg thumbs = Some r.
Proof.
  induction fuel as [|fuel IH]; intros idx tags alg thumbs r; cbn [split_tags Nat.add].
  - destruct (tags !! idx) eqn:E; [done|]. by destruct more; cbn [split_tags]; rewrite E.
  - destruct (tags !! idx); [|done]. repeat case_match; eauto.
Qed.

(** The loop of [KeyEntry::from_entry], whose index stands still when a tag is taken
    out, ends: with any amount of fuel from the number of tags on it gives the same
    result, so reading an entry never panics; the tags of the user keep their order and
    the last of several algorithms is kept. *)
Theorem key_entry_terminates `{ParamsCodec} (entry : Entry) (fuel : nat) :
  (length (tags entry) ≤ fuel)%nat →
  split_tags fuel 0 (tags entry) None []
    = Some (user_tags (tags entry), last (named_values "alg" (tags entry)), named_values "thumb" (tags entry))
  ∧ ((∃ p, params_from_vec (value entry) = Ok p) → ∃ e, key_entry_from_entry entry = Ok e).
Proof.
  intros Hf. split.
  - replace fuel with (length (tags entry) + (fuel - length (tags entry)))%nat by lia.
    apply split_tags_fuel, split_tags_spec.
  - intros [p Hp]. rewrite key_entry_spec. unfold params_from_slice. rewrite Hp. by eexists.
Qed.

(** ** A codec with the law, for examples: each byte is marked, and ends are too *)

Definition mark (b : bytes) : bytes := flat_map (λ c, [x01; c]) b ++ [x00].
Fixpoint unmark (fuel : nat) (b : bytes) : option (bytes * bytes) :=
  match fuel, b with
  | _, x00 :: rest => Some ([], rest)
  | S fuel, x01 :: c :: rest =>
      match unmark fuel rest with Some (d, rest) => Some (c :: d, rest) | None => None end
  | _, _ => None
  end.

Lemma unmark_mark d rest : ∀ fuel, (length d ≤ fuel)%nat → unmark fuel (mark d ++ rest) = Some (d, rest).
Proof.
  unfold mark. induction d as [|c d IH]; intros fuel Hf; [by destruct fuel|].
  destruct fuel as [|fuel]; [cbn in Hf; lia|]. cbn in *. by rewrite IH by lia.
Qed.

Definition mark_opt (o : option bytes) : bytes := match o with Some d => mark d | None => [x02] end.
Definition unmark_opt (b : bytes) : option (option bytes * bytes) :=
  match b with
  | x02 :: rest => Some (None, rest)
  | _ => '(d, rest) ← unmark (length b) b; Some (Some d, rest)
  end.

Lemma unmark_mark_opt o rest : unmark_opt (mark_opt o ++ rest) = Some (o, rest).
Proof.
  destruct o as [d|]; [|done].
  assert (unmark (length (mark d ++ rest)) (mark d ++ rest) = Some (d, rest)) as E.
  { apply unmark_mark. unfold mark. rewrite !length_app. cbn [length].
    assert (length d ≤ length (flat_map (λ c, [x01; c]) d))%nat; [|lia].
    induction d as [|c d IH]; cbn; lia. }
  unfold unmark_opt, mark_opt. rewrite E. by destruct d.
Qed.

Definition mark_ref (r : option KeyReference.t) : bytes :=
  match r with
  | Some KeyReference.MobileSecureElement => [x03]
  | Some (KeyReference.Any s) => mark_opt (Some (as_bytes s))
  | None => mark_opt None
  end.
Definition unmark_ref (b : bytes) : option (option KeyReference.t * bytes) :=
  if bool_decide (head b = Some x03) then Some (Some KeyReference.MobileSecureElement, tail b) else
  match unmark_opt b with
  | Some (Some s, b) => Some (Some (KeyReference.Any (string_of_bytes s)), b)
  | Some (None, b) => Some (None, b)
  | None => None
  end.

Lemma unmark_mark_ref r rest : unmark_ref (mark_ref r ++ rest) = Some (r, rest).
Proof.
  destruct r as [[|s]|]; [done| |done]. unfold unmark_ref, mark_ref.
  rewrite unmark_mark_opt, string_of_as_bytes, bool_decide_eq_false_2; [done|]. by destruct (as_bytes s).
Qed.

Definition toy_params : ParamsCodec.
Proof.
  refine {|
    params_to_vec p := Ok (mark_opt (as_bytes <$> kp_metadata p) ++ mark_ref (kp_reference p) ++ mark_opt (kp_data p));
    params_from_vec b :=
      match unmark_opt b with
      | Some (m, b) =>
          match unmark_ref b with
          | Some (r, b) =>
              match unmark_opt b with
              | Some (d, _) => Ok (mkKeyParams (string_of_bytes <$> m) r d)
              | None => Err "invalid"
              end
          | None => Err "invalid"
          end
      | None => Err "invalid"
      end |}.
  intros [m r d] _. eexists. split; [done|]. cbn [kp_metadata kp_reference kp_data].
  rewrite unmark_mark_opt, unmark_mark_ref. pose proof (unmark_mark_opt d []) as Hd. rewrite app_nil_r in Hd.
  rewrite Hd. destruct m as [m|]; cbn; by rewrite ?string_of_as_bytes.
Defined.

(** ** Witness *)

Definition sample_key_entry : Entry :=
  mkEntry EntryKind.Kms "cryptokey" "k" (as_bytes "")
    [EntryTag.Encrypted "alg" "ed25519"; EntryTag.Encrypted "user:a" "1"; EntryTag.Encrypted "thumb" "t";
     EntryTag.Plaintext "user:b" "2"; EntryTag.Encrypted "other" "x"].

Lemma key_entry_terminates_witness :
  split_tags 9 0 (tags sample_key_entry) None []
  = Some ([EntryTag.Encrypted "a" "1"; EntryTag.Plaintext "b" "2"], Some "ed25519", ["t"]).
Proof.
  destruct (@key_entry_terminates toy_params sample_key_entry 9) as [E _]; [cbn; lia|].
  rewrite E. reflexivity.
Defined.
