(* ===== verification/StoreApi.v ===== *)
(** * The store API

    Models src/store.rs over any backend: sessions with their operations on items and
    on keys, and stores.  The theorems are proved against the contract of [Backend]. *)

From S2P Require Import Prelude Errors Wql TagSql DbQuery TagSqlSem SqlEval Buffers Utf8 Entry Aead.
From S2P Require Import Protect Options StoreKey DbUtils Session SqliteDb Sqlite Store Backend SqliteBackend Lifecycle Copying.
From S2P Require Import Random KeyAlg Kdf Jwk JwkAttrs JwkToy Repr EdKeys BlsKeys AnyKey AnyKeyLaws LocalKey KeyEntry.
Local Open Scope string_scope.
Local Open Scope list_scope.

(** [Ok(m.await?)], with the error of the storage crate converted. *)
Definition api {S A} (m : stm S StorageError.Error A) : stm S AskarError.Error A := λ s,
  let '(s', r) := m s in (s', api_sres r).

(** ** Sessions: items *)

Module Api.

Section Items.
Context `{BackendSession W}.
Abbreviation M := (stm W AskarError.Error).

Definition count (category : option string) (tag_filter : option TagFilter) : M Z :=
  api (bs_count (Some EntryKind.Item) category tag_filter).

Definition fetch (category name : string) (for_update : bool) : M (option Entry) :=
  api (bs_fetch EntryKind.Item category name for_update).

Definition fetch_all (category : option string) (tag_filter : option TagFilter) (limit : option Z)
    (order_by : option OrderBy) (descending for_update : bool) : M (list Entry) :=
  api (bs_fetch_all (Some EntryKind.Item) category tag_filter limit order_by descending for_update).

Definition insert (category name : string) (value : bytes) (tags : option (list EntryTag)) (expiry_ms : option Z) : M () :=
  api (bs_update EntryKind.Item EntryOperation.Insert category name (Some value) tags expiry_ms).

Definition remove (category name : string) : M () :=
  api (bs_update EntryKind.Item EntryOperation.Remove category name None None None).

Definition replace (category name : string) (value : bytes) (tags : option (list EntryTag)) (expiry_ms : option Z) : M () :=
  api (bs_update EntryKind.Item EntryOperation.Replace category name (Some value) tags expiry_ms).

Definition remove_all (category : option string) (tag_filter : option TagFilter) : M Z :=
  api (bs_remove_all (Some EntryKind.Item) category tag_filter).

Definition update (operation : EntryOperation) (category name : string) (value : option bytes)
    (tags : option (list EntryTag)) (expiry_ms : option Z) : M () :=
  api (bs_update EntryKind.Item operation category name value tags expiry_ms).

Definition ping : M () := api bs_ping.
Definition commit : M () := api (bs_close true).
Definition rollback : M () := api (bs_close false).
End Items.

(** ** Sessions: keys *)

Section Keys.
Context `{BackendSession W} `{ParamsCodec}.
Abbreviation M := (stm W AskarError.Error).

Definition crypto_key : string := KmsCategory.as_str KmsCategory.CryptoKey.

(** [t.map_ref(|k, v| (format!("user:{}", k), v.to_string()))]. *)
Definition user_tag (t : EntryTag) : EntryTag := EntryTag.map_ref (λ k v, (user_prefix +:+ k, v)) t.

Definition key_tags (alg : string) (thumbs : list string) (tags : option (list EntryTag)) : list EntryTag :=
  (if String.eqb alg "" then [] else [EntryTag.Encrypted "alg" alg])
  ++ List.map (EntryTag.Encrypted "thumb") thumbs
  ++ List.map user_tag (default [] tags).

Definition insert_key `{Crypto} `{Allocator} `{Base64} `{Digest} (name : string) (key : LocalKey)
    (metadata : option string) (reference : option KeyReference.t) (tags : option (list EntryTag))
    (expiry_ms : option Z) : M () :=
  data ← lift (if is_hardware_backed key then api_cres (get_key_id_any (inner key)) else encode key);
  value ← lift (params_to_bytes (mkKeyParams metadata reference (Some (sec_data data))));
  thumbs ← lift (to_jwk_thumbprints key);
  api (bs_update EntryKind.Kms EntryOperation.Insert crypto_key name (Some value)
    (Some (key_tags (alg_as_str (local_algorithm key)) thumbs tags)) expiry_ms).

Definition fetch_key (name : string) (for_update : bool) : M (option KeyEntry) :=
  row ← api (bs_fetch EntryKind.Kms crypto_key name for_update);
  match row with
  | Some row => e ← lift (key_entry_from_entry row); mret (Some e)
  | None => mret None
  end.

(** The names in the caller's filter are those of user tags. *)
Definition user_query (q : Query) : Query :=
  match map_names (E := ()) (λ k, Ok (user_prefix +:+ k)) q with Ok q' => q' | _ => q end.

Definition key_filter (algorithm thumbprint : option string) (tag_filter : option TagFilter) : option TagFilter :=
  let query_parts :=
    match tag_filter with Some f => [mkFilter (user_query (filter_query f))] | None => [] end
    ++ match algorithm with Some a => [is_eq "alg" a] | None => [] end
    ++ match thumbprint with Some t => [is_eq "thumb" t] | None => [] end in
  match query_parts with [] => None | _ => Some (all_of query_parts) end.

Definition fetch_all_keys (algorithm thumbprint : option string) (tag_filter : option TagFilter)
    (limit : option Z) (for_update : bool) : M (list KeyEntry) :=
  rows ← api (bs_fetch_all (Some EntryKind.Kms) (Some crypto_key) (key_filter algorithm thumbprint tag_filter)
    limit None false for_update);
  lift (mapM key_entry_from_entry rows).

Definition remove_key (name : string) : M () :=
  api (bs_update EntryKind.Kms EntryOperation.Remove crypto_key name None None None).

Definition update_key (name : string) (metadata : option string) (tags : option (list EntryTag))
    (expiry_ms : option Z) : M () :=
  row ← api (bs_fetch EntryKind.Kms crypto_key name true);
  match row with
  | None => sfail (AskarError.from_msg AskarError.NotFound "Key entry not found")
  | Some row =>
      params ← lift (params_from_slice (Entry.value row));
      value ← lift (params_to_bytes (mkKeyParams metadata (kp_reference params) (kp_data params)));
      let upd_tags := List.map user_tag (default [] tags)
        ++ List.filter (λ t, negb (is_user (EntryTag.name t))) (Entry.tags row) in
      api (bs_update EntryKind.Kms EntryOperation.Replace crypto_key name (Some value) (Some upd_tags) expiry_ms)
  end.
End Keys.

(** ** Stores *)

Section Stores.
Context `{Backend B W}.
Abbreviation M := (stm B AskarError.Error).

Definition get_active_profile (b : B) : string := be_get_active_profile b.
Definition get_default_profile : M string := api be_get_default_profile.
Definition set_default_profile (profile : string) : M () := api (be_set_default_profile profile).
Definition rekey (method : StoreKeyMethod) (pass_key : PassKey) : M () := api (be_rekey method pass_key).
Definition create_profile (name : option string) : M string := api (be_create_profile name).
Definition list_profiles : M (list string) := api be_list_profiles.
Definition remove_profile (name : string) : M bool := api (be_remove_profile name).
Definition close : M () := api be_close.

Definition scan (profile category : option string) (tag_filter : option TagFilter) (offset limit : option Z)
    (order_by : option OrderBy) (descending : bool) : M (Scan Entry) :=
  api (be_scan profile (Some EntryKind.Item) category tag_filter offset limit order_by descending).

(** A session that does not answer is closed; if even that fails, so does this. *)
Definition open_session (profile : option string) (transaction : bool) : M W := λ b,
  match api_sres (be_session profile transaction b) with
  | Ok sess =>
      match ping sess with
      | (sess, Err e) =>
          match api (bs_close false) sess with
          | (sess, Ok _) => (be_drop_session sess b, Err e)
          | (sess, Err e') => (be_drop_session sess b, Err e')
          | (sess, Panic) => (be_drop_session sess b, Panic)
          end
      | (sess, Ok _) => (b, Ok sess)
      | (sess, Panic) => (b, Panic)
      end
  | Err e => (b, Err e)
  | Panic => (b, Panic)
  end.

Definition session (profile : option string) : M W := open_session profile false.
Definition transaction (profile : option string) : M W := open_session profile true.

(** The target, provisioned with the default profile of this store, is another
    instance of a backend. *)
Definition copy_to {B' W'} `{Backend B' W'} (provision : option string → sres B') : stm (B * option B') AskarError.Error B' := λ s,
  match (default_profile ← get_default_profile; ids ← list_profiles; mret (default_profile, ids)) s.1 with
  | (b, Ok (default_profile, ids)) =>
      match api_sres (provision (Some default_profile)) with
      | Ok t =>
          let '((b', t'), r) := copy_profiles ids (b, t) in
          ((b', Some t'), (λ _, t') <$> api_sres r)
      | Err e => ((b, None), Err e)
      | Panic => ((b, None), Panic)
      end
  | (b, Err e) => ((b, None), Err e)
  | (b, Panic) => ((b, None), Panic)
  end.
End Stores.
End Api.

(** ** Lemmas on tags *)

Lemma user_tag_name t : EntryTag.name (Api.user_tag t) = user_prefix +:+ EntryTag.name t.
Proof. by destruct t. Qed.

Lemma user_tag_is_user t : is_user (EntryTag.name (Api.user_tag t)) = true.
Proof. rewrite user_tag_name. apply user_name. Qed.

Lemma user_tag_strip t : EntryTag.update_name strip_user (Api.user_tag t) = t.
Proof. destruct t as [n v|n v]; cbn -[strip_user user_prefix]; f_equal; apply user_name. Qed.

Lemma user_tags_app l1 l2 : user_tags (l1 ++ l2) = user_tags l1 ++ user_tags l2.
Proof. unfold user_tags. by rewrite List.filter_app, List.map_app. Qed.
Lemma named_values_app n l1 l2 : named_values n (l1 ++ l2) = named_values n l1 ++ named_values n l2.
Proof. unfold named_values. by rewrite List.filter_app, List.map_app. Qed.

Lemma user_tags_map l : user_tags (List.map Api.user_tag l) = l.
Proof.
  induction l as [|t l IH]; [done|]. unfold user_tags in *. cbn [List.map List.filter].
  rewrite user_tag_is_user. cbn [List.map]. by rewrite user_tag_strip, IH.
Qed.

Lemma named_values_user n l : is_user n = false → named_values n (List.map Api.user_tag l) = [].
Proof.
  intros Hn. induction l as [|t l IH]; [done|]. unfold named_values in *. cbn [List.map List.filter].
  destruct (String.eqb_spec (EntryTag.name (Api.user_tag t)) n) as [E|_]; [|done].
  by rewrite <- E, user_tag_is_user in Hn.
Qed.

Lemma thumb_tags_plain thumbs : user_tags (List.map (EntryTag.Encrypted "thumb") thumbs) = []
  ∧ named_values "thumb" (List.map (EntryTag.Encrypted "thumb") thumbs) = thumbs
  ∧ named_values "alg" (List.map (EntryTag.Encrypted "thumb") thumbs) = [].
Proof.
  induction thumbs as [|t l (IH1 & IH2 & IH3)]; [done|]. unfold user_tags, named_values in *.
  cbn [List.map List.filter EntryTag.name EntryTag.value]. cbn. rewrite IH1, IH3. split_and!; [done| |done]. by f_equal.
Qed.

(** The tags a key is stored with, as they are read. *)
Lemma key_tags_read alg thumbs tags : alg ≠ "" →
  user_tags (Api.key_tags alg thumbs tags) = default [] tags
  ∧ last (named_values "alg" (Api.key_tags alg thumbs tags)) = Some alg
  ∧ named_values "thumb" (Api.key_tags alg thumbs tags) = thumbs.
Proof.
  intros Ha. unfold Api.key_tags. rewrite (proj2 (String.eqb_neq _ _) Ha).
  destruct (thumb_tags_plain thumbs) as (H1 & H2 & H3).
  rewrite !user_tags_app, !named_values_app, H1, H2, H3, user_tags_map, !named_values_user by done.
  cbn. split_and!; [done|done|by rewrite app_nil_r].
Qed.

(** Replacing the user's tags keeps the others. *)
Lemma kept_tags_read tags row :
  let upd := List.map Api.user_tag tags ++ List.filter (λ t, negb (is_user (EntryTag.name t))) row in
  user_tags upd = tags
  ∧ ∀ n, is_user n = false → named_values n upd = named_values n row.
Proof.
  intros upd. unfold upd. split.
  - rewrite user_tags_app, user_tags_map. rewrite <- (app_nil_r tags) at 2. f_equal.
    unfold user_tags. induction row as [|t row IH]; [done|]. cbn [List.filter].
    destruct (is_user (EntryTag.name t)) eqn:E; [done|]. cbn [negb List.filter]. by rewrite E.
  - intros n Hn. rewrite named_values_app, named_values_user by done. cbn [app].
    unfold named_values. induction row as [|t row IH]; [done|]. cbn [List.filter].
    destruct (is_user (EntryTag.name t)) eqn:E; cbn [negb List.filter].
    + destruct (String.eqb_spec (EntryTag.name t) n) as [<-|_]; [congruence|done].
    + destruct (String.eqb (EntryTag.name t) n); cbn [List.map]; congruence.
Qed.

Lemma alg_name_nonempty a : alg_as_str a ≠ "".
Proof. by destruct a as [[]|[]|[]| | |[]]. Qed.

(** ** Thumbprints *)

Section Thumbprints.
Context `{CryptoLaws} `{Base64} `{Digest}.
Hypothesis sha_256 : digest_output_size = 32%nat.

Definition thumb_text (k : AnyKey) : string :=
  string_of_bytes (base64 (digest (object_text (attr_pairs base64 (any_attrs JwkEncoderMode.Thumbprint k))))).

Lemma thumbprint_text (k : AnyKey) a : a = None ∨ a = Some (algorithm k) →
  string_of_bytes <$> write_jwk_thumbprint base64 k a ([] : bytes) = Ok (thumb_text k).
Proof.
  intros Ha.
  destruct (jwk_thumbprint_text k a (any_attrs JwkEncoderMode.Thumbprint k) ([] : bytes)) as (out & E & Eo);
    [apply any_attrs_nonempty| |exact I|done|].
  { intros e Em Ea. pose proof (any_encode_attrs (E := JwkBufferEncoder HashBuffer) (H1 := buffer_encoder base64) k e) as X.
    cbn [enc_mode enc_alg buffer_encoder] in X. rewrite Em, Ea in X. apply X; [done|by right]. }
  rewrite E. unfold thumb_text. cbn [fmap res_fmap]. do 2 f_equal. exact Eo.
Qed.

(** A key on both groups has the thumbprints of its two halves. *)
Definition thumb_texts (k : AnyKey) : list string :=
  match k with
  | AnyBlsG1G2 k => [thumb_text (AnyBlsG1 (bls_to_g1 k)); thumb_text (AnyBlsG2 (bls_to_g2 k))]
  | k => [thumb_text k]
  end.

Lemma thumbprints_text (k : LocalKey) : to_jwk_thumbprints k = Ok (thumb_texts (inner k)).
Proof.
  unfold to_jwk_thumbprints, to_jwk_thumbprint. destruct (inner k) as [t i|i|i|i|t i|i|i|i|i|i] eqn:Ei; cbn [algorithm].
  4: { rewrite bool_decide_eq_true_2 by done.
    assert (write_jwk_thumbprint base64 (AnyBlsG1G2 i) (Some (KeyAlg.Bls12_381 BlsCurves.G1)) ([] : bytes)
      = write_jwk_thumbprint base64 (AnyBlsG1 (bls_to_g1 i)) (Some (KeyAlg.Bls12_381 BlsCurves.G1)) ([] : bytes)) as ->.
    { unfold write_jwk_thumbprint. set (e := with_alg _ _).
      pose proof (proj1 (bls_jwk_of_group (E := JwkBufferEncoder HashBuffer) (H1 := buffer_encoder base64) i e)
        eq_refl) as X. exact (f_equal (mbind _) X). }
    assert (write_jwk_thumbprint base64 (AnyBlsG1G2 i) (Some (KeyAlg.Bls12_381 BlsCurves.G2)) ([] : bytes)
      = write_jwk_thumbprint base64 (AnyBlsG2 (bls_to_g2 i)) (Some (KeyAlg.Bls12_381 BlsCurves.G2)) ([] : bytes)) as ->.
    { unfold write_jwk_thumbprint. set (e := with_alg _ _).
      pose proof (proj2 (bls_jwk_of_group (E := JwkBufferEncoder HashBuffer) (H1 := buffer_encoder base64) i e)
        eq_refl) as X. exact (f_equal (mbind _) X). }
    by rewrite !thumbprint_text by auto. }
  all: rewrite bool_decide_eq_false_2 by done; by rewrite thumbprint_text by auto.
Qed.
End Thumbprints.

(** ** Keys in a store, against the contract *)

Lemma api_run {S A} (m : stm S StorageError.Error A) s s' r : m s = (s', r) → api m s = (s', api_sres r).
Proof. unfold api. by intros ->. Qed.

Section KeyStore.
Context `{HL : CryptoLaws} `{HAl : Allocator} `{HB : Base64} `{HJ : JsonReader} `{HDg : Digest} `{HP : ParamsCodec}.
Context `{HW : SessionContract W}.
Hypothesis sha_256 : digest_output_size = 32%nat.

Definition kkey (name : string) : AKey := (EntryKind.Kms, Api.crypto_key, name).

(** The backend takes the value and the tags the key is stored with. *)
Definition storable (key : LocalKey) (metadata : option string) (reference : option KeyReference.t)
    (tags : option (list EntryTag)) : Prop :=
  params_wf (mkKeyParams metadata reference None)
  ∧ ct_tags_ok (Api.key_tags (alg_as_str (local_algorithm key)) (thumb_texts (inner key)) tags)
  ∧ ∀ data v, encode key = Ok data →
      params_to_vec (mkKeyParams metadata reference (Some (sec_data data))) = Ok v → ct_value_ok v.

Lemma insert_key_run u (w : W) s name key metadata reference tags :
  ct_rep w s → ct_key_ok (kkey name) → s !! kkey name = None → any_ok (inner key) → storable key metadata reference tags →
  ∃ w' data v, Api.insert_key name key metadata reference tags None w = (w', Ok ())
    ∧ ct_rep w' (<[kkey name := mkAVal v (Api.key_tags (alg_as_str (local_algorithm key)) (thumb_texts (inner key)) tags)
                                  None]> s)
    ∧ encode key = Ok data ∧ params_from_vec v = Ok (mkKeyParams metadata reference (Some (sec_data data)))
    ∧ from_jwk_slice u (sec_data data)
      = if any_public_of (inner key) then Ok (inner key) else Err (unsupported "Unsupported JWK for key import").
Proof.
  intros Hr Hk Hn Hok (Hwf & Ht & Hv).
  destruct (any_jwk_secret u (inner key) Hok) as (data & Ed & Hd).
  destruct (params_codec (mkKeyParams metadata reference (Some (sec_data data)))) as (v & Ev & Ef); [exact Hwf|].
  destruct (ct_update w s EntryKind.Kms EntryOperation.Insert Api.crypto_key name (Some v)
    (Some (Api.key_tags (alg_as_str (local_algorithm key)) (thumb_texts (inner key)) tags)) None Hr Hk)
    as (w' & E & Hr'); [apply (Hv data); [unfold encode; by rewrite Ed|exact Ev]|exact Ht|].
  change (EntryKind.Kms, Api.crypto_key, name) with (kkey name) in E, Hr'.
  unfold a_update in E, Hr'. cbn [bind_expiry] in E, Hr'. rewrite Hn in E, Hr'. cbn [fst snd default] in E, Hr'.
  exists w', data, v. split_and!; [|exact Hr'|unfold encode; by rewrite Ed|exact Ef|exact Hd].
  unfold Api.insert_key. cbn [is_hardware_backed].
  rewrite (lift_bind _ data); [|unfold encode; by rewrite Ed].
  rewrite (lift_bind _ v); [|unfold params_to_bytes; by rewrite Ev].
  rewrite (lift_bind _ _ _ _ (thumbprints_text sha_256 key)). exact (api_run _ _ _ _ E).
Qed.

Lemma fetch_key_run (w : W) s name v fu :
  ct_rep w s → ct_key_ok (kkey name) → s !! kkey name = Some v → a_live (env_now ct_env) v = true →
  ∃ w', Api.fetch_key name fu w = (w', Some <$> key_entry_from_entry (a_entry (kkey name) v)) ∧ ct_rep w' s.
Proof.
  intros Hr Hk Hs Hl. destruct (ct_fetch w s EntryKind.Kms Api.crypto_key name fu Hr Hk) as (w' & E & Hr').
  exists w'. split; [|done]. unfold Api.fetch_key.
  change (EntryKind.Kms, Api.crypto_key, name) with (kkey name) in E.
  unfold a_fetch in E. rewrite Hs in E. cbn [mbind option_bind] in E. rewrite Hl in E.
  erewrite stm_bind_ok; [|exact (api_run _ _ _ _ E)]. cbv beta iota.
  destruct (key_entry_from_entry _); reflexivity.
Qed.

Lemma fetch_key_absent (w : W) s name fu :
  ct_rep w s → ct_key_ok (kkey name) → s !! kkey name = None →
  ∃ w', Api.fetch_key name fu w = (w', Ok None) ∧ ct_rep w' s.
Proof.
  intros Hr Hk Hs. destruct (ct_fetch w s EntryKind.Kms Api.crypto_key name fu Hr Hk) as (w' & E & Hr').
  exists w'. split; [|done]. unfold Api.fetch_key.
  change (EntryKind.Kms, Api.crypto_key, name) with (kkey name) in E.
  unfold a_fetch in E. rewrite Hs in E. by erewrite stm_bind_ok; [|exact (api_run _ _ _ _ E)].
Qed.

(** C12: A key inserted through a session of any backend that keeps its contract and
    fetched again: the entry names its algorithm, carries its thumbprints (two for a key
    on both BLS groups) and the user's tags in order, and the metadata; loading it gives
    the key, or, for a symmetric key, which has no JWK that could be read, an error. *)
Theorem insert_key_fetch u (w : W) s name key metadata reference tags fu :
  ct_rep w s → ct_key_ok (kkey name) → s !! kkey name = None → any_ok (inner key) →
  storable key metadata reference tags → reference ≠ Some KeyReference.MobileSecureElement →
  ∃ w1 w2 e, Api.insert_key name key metadata reference tags None w = (w1, Ok ())
    ∧ Api.fetch_key name fu w1 = (w2, Ok (Some e))
    ∧ ke_name e = name ∧ ke_metadata e = metadata
    ∧ ke_alg e = Some (alg_as_str (local_algorithm key))
    ∧ ke_thumbprints e = sort_strings (thumb_texts (inner key))
    ∧ ke_tags e = sorted_tags (default [] tags)
    ∧ load_local_key u e
      = if any_public_of (inner key) then Ok (mkLocal _ (inner key) false)
        else Err (AskarError.from_msg AskarError.Unsupported "Unsupported JWK for key import").
Proof.
  intros Hr Hk Hn Hok Hst Href.
  destruct (insert_key_run u w s name key metadata reference tags Hr Hk Hn Hok Hst) as (w1 & data & v & E1 & Hr1 & _ & Ev & Ed).
  destruct (fetch_key_run w1 _ name _ fu Hr1 Hk (lookup_insert_eq _ _ _) eq_refl) as (w2 & E2 & _).
  rewrite key_entry_spec in E2. unfold params_from_slice in E2. cbn [value a_entry entry_new] in E2.
  cbn [a_value] in E2. rewrite Ev in E2. cbn [map_err mbind res_bind fmap res_fmap] in E2.
  eexists w1, w2, _. split_and!; [exact E1|exact E2|..].
  all: cbn [ke_name ke_metadata ke_params ke_alg ke_thumbprints ke_tags kp_metadata Entry.tags a_entry entry_new a_tags].
  all: destruct (key_tags_read (alg_as_str (local_algorithm key)) (thumb_texts (inner key)) tags (alg_name_nonempty _))
    as (Hu & Ha & Hth); rewrite ?Hu, ?Ha, ?Hth; try done.
  unfold load_local_key. cbn [ke_params kp_data kp_reference].
  assert (imported (from_jwk_slice u (sec_data data)) = if any_public_of (inner key) then Ok (mkLocal _ (inner key) false)
        else Err (AskarError.from_msg AskarError.Unsupported "Unsupported JWK for key import")) as <-.
  { rewrite Ed. by destruct (any_public_of (inner key)). }
  by destruct reference as [[]|].
Qed.

(** Updating a key replaces its metadata and the user's tags and nothing else:
    the entry read afterwards has the same algorithm, thumbprints and key; without such
    a key the update fails with NotFound. *)
Theorem update_key_keeps_key u (w : W) s name e w0 fu metadata tags v :
  ct_rep w s → ct_key_ok (kkey name) → s !! kkey name = Some v → a_live (env_now ct_env) v = true →
  Api.fetch_key name fu w = (w0, Ok (Some e)) →
  params_wf (mkKeyParams metadata (kp_reference (ke_params e)) None) →
  (∀ b, params_to_vec (mkKeyParams metadata (kp_reference (ke_params e)) (kp_data (ke_params e))) = Ok b → ct_value_ok b) →
  ct_tags_ok (List.map Api.user_tag (default [] tags) ++ List.filter (λ t, negb (is_user (EntryTag.name t))) (a_tags v)) →
  (∃ w1 w2 e', Api.update_key name metadata tags None w = (w1, Ok ())
     ∧ Api.fetch_key name fu w1 = (w2, Ok (Some e'))
     ∧ ke_name e' = ke_name e ∧ ke_alg e' = ke_alg e ∧ ke_thumbprints e' = ke_thumbprints e
     ∧ ke_metadata e' = metadata ∧ ke_tags e' = sorted_tags (default [] tags)
     ∧ load_local_key u e' = load_local_key u e)
  ∧ ∀ other, ct_key_ok (kkey other) → s !! kkey other = None →
     ∃ w1, Api.update_key other metadata tags None w
       = (w1, Err (AskarError.from_msg AskarError.NotFound "Key entry not found")) ∧ ct_rep w1 s.
Proof.
  intros Hr Hk Hs Hl Hf Hwf Hv Ht. split.
  - destruct (fetch_key_run w s name v fu Hr Hk Hs Hl) as (w' & E' & _). rewrite Hf in E'. injection E' as _ E'.
    rewrite key_entry_spec in E'. unfold params_from_slice in E'. cbn [value a_entry entry_new] in E'.
    destruct (params_from_vec (a_value v)) as [p| |] eqn:Ep; [|discriminate E'|discriminate E'].
    cbn [map_err mbind res_bind fmap res_fmap] in E'. injection E' as ->. cbn [ke_params] in *.
    destruct (params_codec (mkKeyParams metadata (kp_reference p) (kp_data p)) Hwf) as (b & Eb & Efb).
    destruct (ct_fetch w s EntryKind.Kms Api.crypto_key name true Hr Hk) as (w1 & E1 & Hr1).
    change (EntryKind.Kms, Api.crypto_key, name) with (kkey name) in E1.
    unfold a_fetch in E1. rewrite Hs in E1. cbn [mbind option_bind] in E1. rewrite Hl in E1.
    set (upd := List.map Api.user_tag (default [] tags) ++ _) in Ht.
    destruct (ct_update w1 s EntryKind.Kms EntryOperation.Replace Api.crypto_key name (Some b) (Some upd) None Hr1 Hk
      (Hv b Eb) Ht) as (w2 & E2 & Hr2).
    change (EntryKind.Kms, Api.crypto_key, name) with (kkey name) in E2, Hr2.
    unfold a_update in E2, Hr2. cbn [bind_expiry] in E2, Hr2. rewrite Hs in E2, Hr2. cbn [fst snd default] in E2, Hr2.
    destruct (fetch_key_run w2 _ name _ fu Hr2 Hk (lookup_insert_eq _ _ _) eq_refl) as (w3 & E3 & _).
    rewrite key_entry_spec in E3. unfold params_from_slice in E3. cbn [value a_entry entry_new a_value] in E3.
    cbn [from_option id] in E3. rewrite Efb in E3. cbn [map_err mbind res_bind fmap res_fmap] in E3.
    exists w2, w3. eexists. split_and!; [|exact E3|..].
    + unfold Api.update_key. erewrite stm_bind_ok; [|exact (api_run _ _ _ _ E1)]. cbv beta iota.
      rewrite (lift_bind _ p); [|unfold params_from_slice; cbn [value a_entry entry_new]; by rewrite Ep].
      rewrite (lift_bind _ b); [|unfold params_to_bytes; by rewrite Eb]. exact (api_run _ _ _ _ E2).
    + done.
    + cbn [ke_alg Entry.tags a_entry entry_new a_tags]. change (id upd) with upd.
      destruct (kept_tags_read (default [] tags) (a_tags v)) as [_ Hn]. f_equal. exact (Hn "alg" eq_refl).
    + cbn [ke_thumbprints Entry.tags a_entry entry_new a_tags].
      destruct (kept_tags_read (default [] tags) (a_tags v)) as [_ Hn]. f_equal. exact (Hn "thumb" eq_refl).
    + done.
    + cbn [ke_tags Entry.tags a_entry entry_new a_tags]. f_equal.
      exact (proj1 (kept_tags_read (default [] tags) (a_tags v))).
    + unfold load_local_key. cbn [ke_params kp_data kp_reference ke_alg Entry.tags a_entry entry_new a_tags].
      destruct (kept_tags_read (default [] tags) (a_tags v)) as [_ Hn]. specialize (Hn "alg" eq_refl).
      fold upd in Hn. change (id upd) with upd. rewrite Hn. done.
  - intros other Ho Hso. destruct (ct_fetch w s EntryKind.Kms Api.crypto_key other true Hr Ho) as (w1 & E1 & Hr1).
    exists w1. split; [|done]. change (EntryKind.Kms, Api.crypto_key, other) with (kkey other) in E1.
    unfold a_fetch in E1. rewrite Hso in E1. unfold Api.update_key.
    by erewrite stm_bind_ok; [|exact (api_run _ _ _ _ E1)].
Qed.
End KeyStore.

(** ** On SQLite: a key pair in the store of the examples *)

Definition toy_session : BackendSession (World Db KeyCache ProfileKey) :=
  @sqlite_session demo_allocator toy_hmac toy_cipher toy_codecs toy_cbor toy_engine toy_env.

Definition toy_contract : @SessionContract (World Db KeyCache ProfileKey) toy_session.
Proof.
  refine (@sqlite_contract demo_allocator toy_hmac toy_cipher toy_cipher_laws toy_derivation toy_codecs toy_cbor
    toy_engine toy_env toy_profile_key 1 _ eq_refl toy_rng_length toy_hex_upper toy_world).
  repeat split.
Defined.

Lemma toy_session_rep : @ct_rep _ _ toy_contract toy_world ∅.
Proof. apply session_rep_refl; [exact toy_ready|exact toy_represents]. Qed.

Definition toy_ed_local : LocalKey := mkLocal toy_crypto toy_ed false.
Definition toy_key_tags : list EntryTag := [EntryTag.Plaintext "b" "2"; EntryTag.Encrypted "a" "1"].

Lemma toy_ed_ok : any_ok toy_ed.
Proof. split_and!; [reflexivity|by eexists|split; reflexivity]. Qed.

Lemma toy_kkey_ok name : (length (as_bytes name) <= 10)%nat → str_ok name → @ct_key_ok _ _ toy_contract (kkey name).
Proof. intros Hn Hs. repeat split; [vm_compute; lia|exact Hs|]. cbn [snd kkey]. etransitivity; [exact Hn|]. vm_compute. lia. Qed.

Lemma toy_storable : @storable toy_crypto toy_crypto_laws demo_allocator b64 sha_len_digest toy_params _ _ toy_contract toy_ed_local
  (Some "meta") None (Some toy_key_tags).
Proof.
  split_and!; [split; [intros s [= <-]; reflexivity|done]|split; repeat constructor; vm_compute; lia|].
  intros data v Ed Ev. vm_compute in Ed. injection Ed as <-. injection Ev as <-. vm_compute. lia.
Qed.

Lemma insert_key_fetch_witness :
  ∃ w1 w2 e,
    @Api.insert_key _ toy_session toy_params toy_crypto demo_allocator b64 sha_len_digest "k1" toy_ed_local
      (Some "meta") None (Some toy_key_tags) None toy_world = (w1, Ok ())
    ∧ @Api.fetch_key _ toy_session toy_params "k1" false w1 = (w2, Ok (Some e))
    ∧ ke_name e = "k1" ∧ ke_metadata e = Some "meta" ∧ ke_alg e = Some "ed25519"
    ∧ ke_tags e = [EntryTag.Encrypted "a" "1"; EntryTag.Plaintext "b" "2"]
    ∧ @load_local_key toy_crypto b64 plain_reader (Ok ()) e = Ok toy_ed_local.
Proof.
  pose proof (@insert_key_fetch toy_crypto toy_crypto_laws demo_allocator b64 plain_reader sha_len_digest toy_params _ _
    toy_contract eq_refl (Ok ()) toy_world ∅ "k1" toy_ed_local (Some "meta") None (Some toy_key_tags) false) as E.
  destruct E as (w1 & w2 & e & E1 & E2 & En & Em & Ea & _ & Et & El).
  - exact toy_session_rep.
  - apply toy_kkey_ok; [cbn; lia|reflexivity].
  - reflexivity.
  - exact toy_ed_ok.
  - exact toy_storable.
  - discriminate.
  - exists w1, w2, e. split_and!; [exact E1|exact E2|exact En|exact Em|exact Ea|exact Et|exact El].
Defined.

Lemma update_key_keeps_key_witness :
  ∃ w e w1 w2 e',
    @load_local_key toy_crypto b64 plain_reader (Ok ()) e = Ok toy_ed_local
    ∧ @Api.update_key _ toy_session toy_params "k1" None None None w = (w1, Ok ())
    ∧ @Api.fetch_key _ toy_session toy_params "k1" false w1 = (w2, Ok (Some e'))
    ∧ ke_alg e' = ke_alg e ∧ ke_metadata e' = None ∧ ke_tags e' = []
    ∧ @load_local_key toy_crypto b64 plain_reader (Ok ()) e' = Ok toy_ed_local.
Proof.
  destruct (@insert_key_run toy_crypto toy_crypto_laws demo_allocator b64 plain_reader sha_len_digest toy_params _ _
    toy_contract eq_refl (Ok ()) toy_world ∅ "k1" toy_ed_local (Some "meta") None (Some toy_key_tags))
    as (w & data & v & _ & Hr & Ee & Ev & Ed).
  { exact toy_session_rep. }
  { apply toy_kkey_ok; [cbn; lia|reflexivity]. }
  { reflexivity. }
  { exact toy_ed_ok. }
  { exact toy_storable. }
  assert (Hk : @ct_key_ok _ _ toy_contract (kkey "k1")) by (apply toy_kkey_ok; [cbn; lia|reflexivity]).
  destruct (@fetch_key_run toy_params _ _ toy_contract w _ "k1" _ false Hr Hk (lookup_insert_eq _ _ _) eq_refl) as (w0 & E0 & _).
  rewrite key_entry_spec in E0. unfold params_from_slice in E0. cbn [value a_entry entry_new a_value] in E0.
  rewrite Ev in E0. cbn [map_err mbind res_bind fmap res_fmap] in E0.
  pose proof (@update_key_keeps_key toy_crypto b64 plain_reader toy_params _ _
    toy_contract (Ok ()) w _ "k1" _ w0 false None None _ Hr Hk (lookup_insert_eq _ _ _) eq_refl E0) as E.
  destruct E as ((w1 & w2 & e' & E1 & E2 & _ & Ha & _ & Hm & Ht & El) & _).
  - split; done.
  - vm_compute in Ee. injection Ee as <-. intros b [= <-]. vm_compute. lia.
  - split; repeat constructor; vm_compute; lia.
  - eexists w, _, w1, w2, e'. split_and!; [|exact E1|exact E2|exact Ha|exact Hm|exact Ht|].
    all: rewrite ?El; exact (f_equal imported Ed).
Defined.
