(* ===== verification/KeyQueries.v ===== *)
(** * Items, keys and queries over keys

    Properties of src/store.rs over a backend that keeps its contract: operations on
    items leave keys alone and the other way round, and what a query over keys selects. *)

From S2P Require Import Prelude Errors Wql TagSql DbQuery TagSqlSem SqlEval Buffers Utf8 Entry Aead.
From S2P Require Import Protect Options StoreKey DbUtils Session SqliteDb Sqlite Store Backend Lifecycle Copying.
From S2P Require Import KeyAlg Kdf Jwk JwkAttrs JwkToy AnyKey AnyKeyLaws LocalKey KeyEntry StoreApi.
Local Open Scope string_scope.
Local Open Scope list_scope.

(** ** What a filter sees of a key's tags *)

(** Evaluation of two renamings of a query, for the names that occur in it. *)
Lemma eval_rename {K K1 K2 V} (p : K → bool) (f : K → K1) (g : K → K2)
    (h1 : CompareOp → K1 → V → bool) (e1 : K1 → bool) (h2 : CompareOp → K2 → V → bool) (e2 : K2 → bool) q :
  (∀ k, p k = true → (∀ op v, h1 op (f k) v = h2 op (g k) v) ∧ e1 (f k) = e2 (g k)) →
  all_names p q = true → eval h1 e1 (rename f q) = eval h2 e2 (rename g q).
Proof.
  intros Hn. induction q as [l IH|l IH|q IH|q Hleaf] using query_ind; cbn [rename eval all_names].
  - intros Hp. apply Forall_guard in IH; [|done]. clear Hp.
    induction IH as [|x l Hx _ IHl]; [done|]. cbn. by rewrite Hx, IHl.
  - intros Hp. apply Forall_guard in IH; [|done]. clear Hp.
    induction IH as [|x l Hx _ IHl]; [done|]. cbn. by rewrite Hx, IHl.
  - intros Hp. by rewrite IH.
  - destruct q as [| | |k v|k v|k v|k v|k v|k v|k v|k vs|ks]; try done; cbn [rename eval all_names]; intros Hp;
      try (apply (Hn k Hp)).
    + induction vs as [|v vs IH]; [done|]. cbn. by rewrite (proj1 (Hn k Hp)), IH.
    + induction ks as [|k ks IH]; [done|]. cbn in Hp |- *. apply andb_prop in Hp as [Hk Hp].
      by rewrite (proj2 (Hn k Hk)), IH.
Qed.

Lemma is_user_name n : is_user n = true → n = user_prefix +:+ strip_user n.
Proof.
  unfold is_user, user_prefix. intros E.
  do 5 (destruct n as [|? n]; [discriminate E|];
    cbn [String.prefix] in E; destruct (Ascii.ascii_dec _ _) as [<-|]; [|discriminate E]).
  change (strip_user _) with (string_of_bytes (as_bytes n)). by rewrite string_of_as_bytes.
Qed.

Lemma user_prefix_inj a b : user_prefix +:+ a = user_prefix +:+ b → a = b.
Proof. intros E. by injection E. Qed.

(** Encrypted tags of the user, among all tags of a key. *)
Lemma tag_is_user k t :
  tag_is (Encrypted (user_prefix +:+ k)) t
  = is_user (EntryTag.name t) && tag_is (Encrypted k) (EntryTag.update_name strip_user t).
Proof.
  destruct t as [n v|n v]; cbn [tag_is EntryTag.name EntryTag.update_name]; [|by rewrite andb_false_r].
  destruct (is_user n) eqn:Eu; cbn [andb].
  - apply is_user_name in Eu. rewrite Eu at 1.
    destruct (String.eqb_spec (user_prefix +:+ strip_user n) (user_prefix +:+ k)) as [E|E];
      destruct (String.eqb_spec (strip_user n) k) as [E'|E']; try done; [by apply user_prefix_inj in E|by rewrite E' in E].
  - apply String.eqb_neq. intros ->. by rewrite (proj1 (user_name k)) in Eu.
Qed.

Lemma existsb_user_tags (f g : EntryTag → bool) tags :
  (∀ t, f t = is_user (EntryTag.name t) && g (EntryTag.update_name strip_user t)) →
  existsb f tags = existsb g (user_tags tags).
Proof.
  intros Hf. unfold user_tags. induction tags as [|t tags IH]; [done|]. cbn [existsb List.filter].
  rewrite Hf. destruct (is_user (EntryTag.name t)); cbn [andb orb List.map existsb]; by rewrite IH.
Qed.

(** The value of a renamed tag. *)
Lemma strip_value t : EntryTag.value (EntryTag.update_name strip_user t) = EntryTag.value t.
Proof. by destruct t. Qed.

(** Names that do not ask for a plaintext tag. *)
Definition encrypted_name (k : string) : bool := match strip_tilde k with Some _ => false | None => true end.

Lemma user_query_eval like tags q : all_names encrypted_name q = true →
  eval (tags_hold like tags) (tags_have tags) (rename split_tag_name (Api.user_query q))
  = eval (tags_hold like (user_tags tags)) (tags_have (user_tags tags)) (rename split_tag_name q).
Proof.
  intros Hq. unfold Api.user_query. rewrite map_names_rename.
  assert (rename split_tag_name (rename (String.append user_prefix) q) = rename (λ k, Encrypted (user_prefix +:+ k)) q) as ->.
  { clear Hq. induction q as [l IH|l IH|q IH|q Hleaf] using query_ind; cbn [rename].
    - f_equal. rewrite List.map_map. by apply List.map_ext_Forall.
    - f_equal. rewrite List.map_map. by apply List.map_ext_Forall.
    - by f_equal.
    - destruct q; try done; cbn [rename]. f_equal. by rewrite List.map_map. }
  apply (eval_rename encrypted_name); [|done]. intros k Hk. unfold split_tag_name, encrypted_name in *.
  destruct (strip_tilde k); [done|]. split; [intros op v|].
  - apply existsb_user_tags. intros t. rewrite tag_is_user, strip_value. by rewrite andb_assoc.
  - apply existsb_user_tags, tag_is_user.
Qed.

(** What the filter of [fetch_all_keys] means for the tags of a key. *)
Definition key_selected (like : bytes → bytes → bool) (algorithm thumbprint : option string) (f : option TagFilter)
    (tags : list EntryTag) : bool :=
  filter_holds like f (user_tags tags)
  && match algorithm with Some a => tags_hold like tags CompareOp.Eq (Encrypted "alg") a | None => true end
  && match thumbprint with Some t => tags_hold like tags CompareOp.Eq (Encrypted "thumb") t | None => true end.

Definition plain_free (f : option TagFilter) : Prop :=
  match f with Some f => all_names encrypted_name (filter_query f) = true | None => True end.

Lemma key_filter_holds like algorithm thumbprint f tags : plain_free f →
  filter_holds like (Api.key_filter algorithm thumbprint f) tags = key_selected like algorithm thumbprint f tags.
Proof.
  intros Hf. unfold Api.key_filter, key_selected.
  assert (∀ q, f = Some q → eval (tags_hold like tags) (tags_have tags)
      (rename split_tag_name (Api.user_query (filter_query q))) = filter_holds like f (user_tags tags)) as Hq.
  { intros q ->. by apply user_query_eval. }
  destruct f as [q|], algorithm as [a|], thumbprint as [t|];
    cbn [app filter_holds all_of filter_query List.map rename eval forallb is_eq];
    rewrite ?(Hq q eq_refl); change (split_tag_name "alg") with (Encrypted "alg");
    change (split_tag_name "thumb") with (Encrypted "thumb"); cbn [filter_holds filter_query];
    rewrite ?andb_true_r, ?andb_true_l, ?andb_assoc; done.
Qed.

(** ** Operations on items and on keys *)

(** The operations of a session that change items. *)
Inductive ItemOp : Type :=
| IInsert (category name : string) (value : bytes) (tags : option (list EntryTag)) (expiry_ms : option Z)
| IReplace (category name : string) (value : bytes) (tags : option (list EntryTag)) (expiry_ms : option Z)
| IRemove (category name : string)
| IRemoveAll (category : option string) (tag_filter : option TagFilter)
| IUpdate (operation : EntryOperation) (category name : string) (value : option bytes)
    (tags : option (list EntryTag)) (expiry_ms : option Z).

Definition item_step `{BackendSession W} (op : ItemOp) : stm W AskarError.Error () :=
  match op with
  | IInsert c n v ts ms => Api.insert c n v ts ms
  | IReplace c n v ts ms => Api.replace c n v ts ms
  | IRemove c n => Api.remove c n
  | IRemoveAll c f => _ ← Api.remove_all c f; mret ()
  | IUpdate o c n v ts ms => Api.update o c n v ts ms
  end.

(** The part of a store of one kind. *)
Definition only (k : EntryKind) (s : AStore) : AStore := filter (λ kv, kv.1.1.1 = k) s.

Lemma a_update_only env op k k' v ts ms s : k.1.1 ≠ k' → only k' (a_update env op k v ts ms s).1 = only k' s.
Proof.
  intros Hk.
  assert (∀ x, only k' (<[k := x]> s) = only k' s) as Hi by (intros x; by apply map_filter_insert_not).
  assert (only k' (delete k s) = only k' s) as Hd.
  { apply map_filter_delete_not. intros x _. exact Hk. }
  unfold a_update. destruct op; [| |by destruct (s !! k); rewrite ?Hd];
    destruct (bind_expiry env ms) as [e|e|]; try done; destruct (s !! k); cbn [fst]; rewrite ?Hi; done.
Qed.

Lemma a_remove_all_only like k k' c f s : k ≠ k' → only k' (a_remove_all like (Some k) c f s).1 = only k' s.
Proof.
  intros Hk. unfold only, a_remove_all. cbn [fst]. rewrite map_filter_filter. apply map_filter_ext.
  intros i x _. split; [by intros [? _]|]. intros Hi. split; [done|]. unfold a_selected.
  by rewrite bool_decide_eq_false_2 by congruence.
Qed.

Section Separation.
Context `{HW : SessionContract W}.

(** What the backend needs of an operation's texts. *)
Definition item_ok (op : ItemOp) (s : AStore) : Prop :=
  match op with
  | IInsert c n v ts _ | IReplace c n v ts _ =>
      ct_key_ok (EntryKind.Item, c, n) ∧ ct_value_ok v ∧ ct_tags_ok (default [] ts)
  | IRemove c n => ct_key_ok (EntryKind.Item, c, n) ∧ ct_value_ok [] ∧ ct_tags_ok []
  | IUpdate _ c n v ts _ => ct_key_ok (EntryKind.Item, c, n) ∧ ct_value_ok (default [] v) ∧ ct_tags_ok (default [] ts)
  | IRemoveAll c f =>
      match c with Some c => ct_key_ok (EntryKind.Item, c, c) | None => True end ∧ ct_filter_ok s f
  end.

Lemma update_sim_api kind op c n v ts ms (w : W) s : ct_rep w s → ct_key_ok (kind, c, n) →
  ct_value_ok (default [] v) → ct_tags_ok (default [] ts) →
  ∃ w', api (bs_update kind op c n v ts ms) w = (w', api_sres (a_update ct_env op (kind, c, n) v ts ms s).2)
    ∧ ct_rep w' (a_update ct_env op (kind, c, n) v ts ms s).1.
Proof.
  intros Hr Hk Hv Ht. destruct (ct_update w s kind op c n v ts ms Hr Hk Hv Ht) as (w' & E & Hr').
  exists w'. split; [|done]. exact (api_run _ _ _ _ E).
Qed.

Lemma item_update_keeps op c n v ts ms (w : W) s : ct_rep w s →
  ct_key_ok (EntryKind.Item, c, n) ∧ ct_value_ok (default [] v) ∧ ct_tags_ok (default [] ts) →
  ∃ w' s', (api (bs_update EntryKind.Item op c n v ts ms) w).1 = w' ∧ ct_rep w' s'
    ∧ only EntryKind.Kms s' = only EntryKind.Kms s.
Proof.
  intros Hr (Hk & Hv & Ht). destruct (update_sim_api EntryKind.Item op c n v ts ms w s Hr Hk Hv Ht) as (w' & E & Hr').
  eexists w', _. split_and!; [by rewrite E|exact Hr'|by apply a_update_only].
Qed.

(** Items and keys share a store but not a name space: whatever an operation on
    items does, removing everything included, the keys of the store are as before, and
    removing a key leaves the items as before; the results are those of the abstract
    store. *)
Theorem kinds_separate (w : W) s :
  ct_rep w s →
  (∀ op, item_ok op s → ∃ w' s', (item_step op w).1 = w' ∧ ct_rep w' s' ∧ only EntryKind.Kms s' = only EntryKind.Kms s)
  ∧ (∀ name, ct_key_ok (kkey name) → ct_value_ok [] → ct_tags_ok [] →
     ∃ w', Api.remove_key name w
         = (w', api_sres (a_update ct_env EntryOperation.Remove (kkey name) None None None s).2)
       ∧ ct_rep w' (delete (kkey name) s) ∧ only EntryKind.Item (delete (kkey name) s) = only EntryKind.Item s).
Proof.
  intros Hr. split.
  - intros op Hop. destruct op as [c n v ts ms|c n v ts ms|c n|c f|o c n v ts ms]; cbn [item_step item_ok] in *;
      try (by apply item_update_keeps).
    destruct Hop as [Hc Hf]. destruct (ct_remove_all w s (Some EntryKind.Item) c f Hr Hc Hf) as (w' & E & Hr').
    eexists w', _. split_and!; [|exact Hr'|by apply a_remove_all_only].
    by erewrite stm_bind_ok; [|exact (api_run _ _ _ _ E)].
  - intros name Hk Hv Ht.
    destruct (update_sim_api EntryKind.Kms EntryOperation.Remove Api.crypto_key name None None None w s Hr Hk Hv Ht)
      as (w' & E & Hr').
    exists w'. split_and!; [exact E| |].
    + change (EntryKind.Kms, Api.crypto_key, name) with (kkey name) in Hr'. unfold a_update in Hr'.
      destruct (s !! kkey name) eqn:Es; [exact Hr'|]. by rewrite delete_id.
    + apply map_filter_delete_not. intros x _. discriminate.
Qed.
End Separation.

(** ** Queries over keys *)

Section Queries.
Context `{HW : SessionContract W} `{HP : ParamsCodec}.

(** C22: A query over keys by algorithm, thumbprint and a filter on the user's tags
    (of encrypted tags) reads exactly the live keys that have that algorithm and that
    thumbprint and whose tags, as the user gave them, satisfy the filter: each once, up to
    the limit, and none of the items. *)
Theorem fetch_all_keys_correct (w : W) s algorithm thumbprint f limit fu :
  ct_rep w s → ct_key_ok (EntryKind.Item, Api.crypto_key, Api.crypto_key) →
  ct_filter_ok s (Api.key_filter algorithm thumbprint f) → plain_free f → ct_limit_ok limit →
  ∃ w' l, Api.fetch_all_keys algorithm thumbprint f limit fu w
      = (w', mapM key_entry_from_entry (List.map (λ kv, a_entry kv.1 kv.2) (sql_limit None limit l)))
    ∧ ct_rep w' s ∧ NoDup l.*1
    ∧ ∀ k v, (k, v) ∈ l ↔ s !! k = Some v ∧ a_live (env_now ct_env) v = true
        ∧ k.1.1 = EntryKind.Kms ∧ k.1.2 = Api.crypto_key
        ∧ key_selected ct_like algorithm thumbprint f (a_tags v) = true.
Proof.
  intros Hr Hc Hf Hp Hlim.
  destruct (ct_fetch_all w s (Some EntryKind.Kms) (Some Api.crypto_key) (Api.key_filter algorithm thumbprint f) limit
    None false fu Hr Hc Hf Hlim) as (w' & l & E & Hl & Hr').
  exists w', l. split_and!; [|done|by rewrite Hl; apply NoDup_fst_map_to_list|].
  - unfold Api.fetch_all_keys. by erewrite stm_bind_ok; [|exact (api_run _ _ _ _ E)].
  - intros k v. rewrite Hl, elem_of_map_to_list. unfold a_matching. rewrite map_lookup_filter_Some.
    unfold a_selected. cbn [fst snd]. rewrite (key_filter_holds _ _ _ _ _ Hp), !andb_true_iff, bool_decide_eq_true, String.eqb_eq.
    tauto.
Qed.
End Queries.

(** A filter on a plaintext tag does not find keys: the mark of plaintext names is
    no longer at the front once the name is prefixed, so that an encrypted tag is looked
    for; the same filter on an item with the same tags matches. *)
Theorem key_plaintext_query_misses like a thumbs tags n v :
  (∀ x, EntryTag.Encrypted ("~" +:+ n) x ∉ tags) → EntryTag.Plaintext n v ∈ tags →
  let f := Some (is_eq ("~" +:+ n) v) in
  filter_holds like f tags = true
  ∧ filter_holds like (Api.key_filter None None f) (Api.key_tags (alg_as_str a) thumbs (Some tags)) = false.
Proof.
  intros Hn Hin f. split.
  - cbn. apply existsb_exists. exists (EntryTag.Plaintext n v). split; [by apply list_elem_of_In|].
    apply andb_true_iff. split; [apply String.eqb_refl|]. cbn [EntryTag.value sql_compare]. by rewrite bytes_compare_refl.
  - unfold filter_holds, Api.key_filter, f. cbn [app all_of filter_query is_eq List.map rename eval forallb].
    unfold Api.user_query. rewrite map_names_rename. cbn [rename eval forallb].
    change (split_tag_name (user_prefix +:+ "~" +:+ n)) with (Encrypted (user_prefix +:+ "~" +:+ n)).
    rewrite andb_true_r. unfold tags_hold.
    rewrite (existsb_user_tags _ (λ t, tag_is (Encrypted ("~" +:+ n)) t
      && sql_compare like CompareOp.Eq (as_bytes (EntryTag.value t)) (as_bytes v))).
    2: { intros t. by rewrite tag_is_user, strip_value, andb_assoc. }
    destruct (key_tags_read (alg_as_str a) thumbs (Some tags) (alg_name_nonempty a)) as [-> _]. cbn [default from_option id].
    apply not_true_iff_false. intros (t & Ht & E)%existsb_exists. apply andb_prop in E as [E _].
    destruct t as [n' x|n' x]; [|discriminate E]. cbn in E. apply String.eqb_eq in E as ->.
    by apply (Hn x), list_elem_of_In.
Qed.

Lemma key_plaintext_query_misses_witness :
  filter_holds (λ _ _, false) (Some (is_eq "~b" "2")) toy_key_tags = true
  ∧ filter_holds (λ _ _, false) (Api.key_filter None None (Some (is_eq "~b" "2")))
      (Api.key_tags "ed25519" ["t"] (Some toy_key_tags)) = false.
Proof.
  apply (key_plaintext_query_misses (λ _ _, false) KeyAlg.Ed25519 ["t"] toy_key_tags "b" "2").
  - intros x Hx. unfold toy_key_tags in Hx. rewrite !elem_of_cons, elem_of_nil in Hx. naive_solver.
  - unfold toy_key_tags. set_solver.
Defined.

(** The store of the examples with a key in it. *)
Lemma toy_key_inserted :
  ∃ (w : World Db KeyCache ProfileKey) v, @ct_rep _ _ toy_contract w {[kkey "k1" := v]}
    ∧ a_expiry v = None
    ∧ a_tags v = @Api.key_tags "ed25519" (@thumb_texts toy_crypto toy_crypto_laws b64 sha_len_digest toy_ed) (Some toy_key_tags).
Proof.
  destruct (@insert_key_run toy_crypto toy_crypto_laws demo_allocator b64 plain_reader sha_len_digest toy_params _ _
    toy_contract eq_refl (Ok ()) toy_world ∅ "k1" toy_ed_local (Some "meta") None (Some toy_key_tags))
    as (w & data & v & _ & Hr & _).
  { exact toy_session_rep. }
  { apply toy_kkey_ok; [cbn; lia|reflexivity]. }
  { reflexivity. }
  { exact toy_ed_ok. }
  { exact toy_storable. }
  eexists w, _. split; [exact Hr|done].
Qed.

Lemma kinds_separate_witness :
  ∃ w v w' s', @ct_rep _ _ toy_contract w {[kkey "k1" := v]}
    ∧ (@item_step _ toy_session (IRemoveAll None None) w).1 = w' ∧ @ct_rep _ _ toy_contract w' s'
    ∧ only EntryKind.Kms s' = {[kkey "k1" := v]}.
Proof.
  destruct toy_key_inserted as (w & v & Hr & _).
  pose proof (proj1 (@kinds_separate _ _ toy_contract w _ Hr) (IRemoveAll None None)) as E.
  destruct E as (w' & s' & E & Hr' & Ho); [split; [exact I|split; [exact I|vm_compute; discriminate]]|].
  exists w, v, w', s'. split_and!; [exact Hr|exact E|exact Hr'|]. rewrite Ho.
  apply map_filter_singleton_True. reflexivity.
Defined.

(** A query by algorithm can be evaluated on the tags of that key. *)
Lemma toy_key_filter v :
  a_tags v = @Api.key_tags "ed25519" (@thumb_texts toy_crypto toy_crypto_laws b64 sha_len_digest toy_ed) (Some toy_key_tags) →
  @ct_filter_ok _ _ toy_contract {[kkey "k1" := v]} (Api.key_filter (Some "ed25519") None None).
Proof.
  intros Ht. split; [|vm_compute; discriminate]. split.
  - split; [repeat constructor; vm_compute; lia|done|done|vm_compute; discriminate|]. intros v1 n v2 _ H. by apply elem_of_nil in H.
  - intros k x Hx. apply lookup_singleton_Some in Hx as [_ <-]. rewrite Ht.
    split; [repeat constructor; vm_compute; lia|done|done|vm_compute; discriminate|].
    intros v1 n v2 H1 H2. apply list_elem_of_In in H1, H2. vm_compute in H1, H2.
    repeat match goal with H : _ ∨ _ |- _ => destruct H as [H|H] end; try done; simplify_eq; vm_compute; congruence.
Qed.

Lemma fetch_all_keys_correct_witness :
  ∃ w v w' l, @Api.fetch_all_keys _ toy_session toy_params (Some "ed25519") None None None false w
      = (w', mapM (@key_entry_from_entry toy_params) (List.map (λ kv, a_entry kv.1 kv.2) (sql_limit None None l)))
    ∧ (kkey "k1", v) ∈ l.
Proof.
  destruct toy_key_inserted as (w & v & Hr & He & Ht).
  pose proof (@fetch_all_keys_correct _ _ toy_contract toy_params w _ (Some "ed25519") None None None false Hr) as E.
  destruct E as (w' & l & E & _ & _ & Hl).
  - repeat split; vm_compute; lia.
  - exact (toy_key_filter v Ht).
  - exact I.
  - exact I.
  - exists w, v, w', l. split; [exact E|]. apply Hl. split_and!; [apply lookup_singleton_eq| |done|done|].
    + unfold a_live. by rewrite He.
    + rewrite Ht. vm_compute. reflexivity.
Defined.
