(* ===== verification/Migration.v ===== *)
(** * Migration of Indy SDK wallets

    Models askar-storage/src/migration/mod.rs and strategy.rs: a SQLite file with a
    wallet of the Indy SDK becomes a store.  The items are read, decrypted with the keys
    of the wallet and inserted, encrypted with a new profile key, one at a time.  The
    tables of a wallet are those of the file that comes with the tests of the crate
    (tests/indy_wallet_sqlite.db). *)

From stdpp Require Import pretty.
From S2P Require Import Prelude Errors DbQuery Buffers Entry Utf8 Aead Protect Options StoreKey DbUtils Session SqliteDb.
From S2P Require Import Sqlite Store SqliteBackend Lifecycle.
Local Open Scope string_scope.
Local Open Scope list_scope.

(** ** The wallet's keys *)

Record IndyKeyMetadata := mkMetadata { md_keys : bytes; master_key_salt : option bytes }.

(** The keys of ChaCha20 and, unused, those of the HMAC. *)
Record IndyKey := mkIndyKey {
  ik_type_key : Chacha20Key;
  ik_name_key : Chacha20Key;
  ik_value_key : Chacha20Key;
  ik_item_hmac_key : HmacKey;
  ik_tag_name_key : Chacha20Key;
  ik_tag_value_key : Chacha20Key;
  ik_tag_hmac_key : HmacKey;
}.

(** [serde_json] and [rmp_serde] on the two, and how the crate [hex] words an error, and
    [sqlx] that an identifier does not fit its type. *)
Class IndyCodecs := {
  metadata_from_str : string → res string IndyKeyMetadata;
  indy_key_from_slice : bytes → res string IndyKey;
  hex_error_text : bytes → string;
  id_error_text : Z → string;
}.

(** [KdfMethod] of the migration. *)
Inductive IndyKdf : Set :=
| IndyArgon2i (level : Level)
| IndyRaw.

Definition indy_kdf_from_str (s : string) : sres IndyKdf :=
  if String.eqb s "ARGON2I_MOD" then Ok (IndyArgon2i Level.Moderate)
  else if String.eqb s "ARGON2I_INT" then Ok (IndyArgon2i Level.Interactive)
  else if String.eqb s "RAW" then Ok IndyRaw
  else Err (input_err "Invalid key derivation method").

Definition to_store_key_reference (self : IndyKdf) (salt : option bytes) : sres StoreKeyReference :=
  match self with
  | IndyRaw => Ok StoreKeyReference.RawKey
  | IndyArgon2i level =>
      detail ← ok_or ((λ s, "?salt=" +:+ salt_hex s) <$> salt)
        (input_err "Salt must be provided for argon2i kdf method");
      mret (StoreKeyReference.DeriveKey (Argon2i level) detail)
  end.

Record UpdatedKey := mkUpdatedKey { uk_master : StoreKey; uk_key_ref : StoreKeyReference }.

(** [String::from_utf8_lossy]: every invalid sequence becomes U+FFFD. *)
Fixpoint utf8_lossy (fuel : nat) (l : bytes) : bytes :=
  match fuel, utf8_error 0 l with
  | S fuel, Some (n, Some k) => take n l ++ [xef; xbf; xbd] ++ utf8_lossy fuel (drop (n + k) l)
  | _, Some (n, _) => take n l ++ [xef; xbf; xbd]
  | _, None => l
  end.
Definition from_utf8_lossy (l : bytes) : string := string_of_bytes (utf8_lossy (length l) l).

(** ** The file *)

(** A row of the table items of a wallet. *)
Record IndyItem := mkIndyItem {
  ii_id : Z;
  ii_type : bytes;
  ii_name : bytes;
  ii_value : option bytes;
  ii_key : bytes;
}.

(** A row of tags_encrypted or tags_plaintext. *)
Record IndyTag := mkIndyTag { it_name : bytes; it_value : bytes; it_item : Z }.

(** The tables of the file, those of the wallet and those of the store, where they are
    there; items is the wallet's until it is renamed. *)
Record Wallet := mkWallet {
  w_metadata : option (list bytes);
  w_items : option (list IndyItem);
  w_items_old : option (list IndyItem);
  w_tags_encrypted : option (list IndyTag);
  w_tags_plaintext : option (list IndyTag);
  w_store : option Db;
}.

Definition set_store (d : Db) (w : Wallet) : Wallet :=
  mkWallet (w_metadata w) (w_items w) (w_items_old w) (w_tags_encrypted w) (w_tags_plaintext w) (Some d).

(** A [u32]; the identifiers are read as one, though SQLite has 64 bits with a sign. *)
Definition fits_u32 (z : Z) : bool := ((0 <=? z) && (z <? 2 ^ 32))%Z.
Record U32 := mkU32 { u32_val : Z; u32_fits : fits_u32 u32_val = true }.

Definition decode_u32 `{IndyCodecs} (z : Z) : res string U32 :=
  match sumbool_of_bool (fits_u32 z) with
  | left fits => Ok (mkU32 z fits)
  | right _ => Err (id_error_text z)
  end.

(** What is found in an item, [IndyRow]. *)
Record IndyRow := mkIndyRow {
  r_id : U32;
  r_type : bytes;
  r_name : bytes;
  r_value : option bytes;
  r_key : bytes;
  r_tags_enc : option bytes;
  r_tags_plain : option bytes;
}.

(** The order in which SQLite yields items that are not sorted. *)
Class IndyOrder := {
  indy_order : list IndyItem → list IndyItem;
  indy_order_perm l : indy_order l ≡ₚ l;
}.

(** *** Statements *)

Definition no_table (name : string) : string := "no such table: " +:+ name.

Definition sql_is_migrated (w : Wallet) : res string (Wallet * bool) :=
  Ok (w, match w_metadata w with Some _ => false | None => true end).

(** The statements of [pre_upgrade], one transaction: a failure leaves the file as it was. *)
Definition sql_pre_upgrade (w : Wallet) : res string (Wallet * ()) :=
  match w_store w, w_items w, w_items_old w with
  | Some _, _, _ => Err "table config already exists"
  | None, None, _ => Err (no_table "items")
  | None, Some _, Some _ => Err "there is already another table or index with this name: items_old"
  | None, Some l, None =>
      Ok (mkWallet (w_metadata w) None (Some l) (w_tags_encrypted w) (w_tags_plaintext w) (Some (mkDb [] [] [] [])), ())
  end.

(** [SELECT value FROM metadata] with [fetch_one]. *)
Definition sql_metadata (w : Wallet) : res string (Wallet * bytes) :=
  match w_metadata w with
  | Some (value :: _) => Ok (w, value)
  | Some [] => Err "no rows returned by a query that expected to return at least one row"
  | None => Err (no_table "metadata")
  end.

(** A statement on the tables of the store. *)
Definition on_store {A} (f : Db → res string (Db * A)) (w : Wallet) : res string (Wallet * A) :=
  match w_store w with
  | Some d => '(d, a) ← f d; mret (set_store d w, a)
  | None => Err (no_table "config")
  end.

Definition sql_insert_config (name value : string) (d : Db) : res string (Db * ()) :=
  if existsb (λ c, String.eqb (fst c) name) (config d) then Err "UNIQUE constraint failed: config.name"
  else Ok (set_config (config d ++ [(name, value)]) d, ()).

Definition sql_first_profile_key (d : Db) : res string (Db * option bytes) := Ok (d, p_key <$> head (profiles d)).

Definition sql_add_profile (name : string) (key : bytes) (d : Db) : res string (Db * ()) :=
  '(d, id) ← sql_insert_profile name key d;
  match id with Some _ => Ok (d, ()) | None => Err "UNIQUE constraint failed: profiles.name" end.

(** The insertion of an item, without [OR IGNORE]. *)
Definition sql_add_item (category name value : bytes) (d : Db) : res string (Db * Z) :=
  '(d, id) ← sql_insert_item (1%Z, 2%Z, category, name) value None d;
  match id with Some id => Ok (d, id) | None => Err "UNIQUE constraint failed: items.profile_id, items.kind, items.category, items.name" end.

(** [GROUP_CONCAT(HEX(name) || ':' || HEX(value))] over the tags of an item. *)
Definition indy_tags (id : Z) (tags : list IndyTag) : list IndyTag :=
  List.filter (λ t, bool_decide (it_item t = id)) tags.
Definition tag_text (t : IndyTag) : bytes := sql_hex (it_name t) ++ [x3a] ++ sql_hex (it_value t).
Fixpoint group_concat (l : list bytes) : option bytes :=
  match l with
  | [] => None
  | t :: l => Some (match group_concat l with Some rest => t ++ [x2c] ++ rest | None => t end)
  end.

(** A row as [FromRow] decodes it. *)
Definition indy_row `{IndyCodecs} (te tp : list IndyTag) (i : IndyItem) : res string IndyRow :=
  id ← decode_u32 (ii_id i);
  mret (mkIndyRow id (ii_type i) (ii_name i) (ii_value i) (ii_key i)
    (group_concat (List.map tag_text (indy_tags (ii_id i) te)))
    (group_concat (List.map tag_text (indy_tags (ii_id i) tp)))).

Definition sql_pending (limit : nat) `{IndyOrder} `{IndyCodecs} (w : Wallet) : res string (Wallet * list IndyRow) :=
  match w_items_old w, w_tags_encrypted w, w_tags_plaintext w with
  | Some l, Some te, Some tp =>
      rows ← mapM (indy_row te tp) (take limit (indy_order l));
      mret (w, rows)
  | None, _, _ => Err (no_table "items_old")
  | _, None, _ => Err (no_table "tags_encrypted")
  | _, _, None => Err (no_table "tags_plaintext")
  end.

(** [DELETE FROM items_old WHERE id IN (?1)] with one text: the text of a single
    identifier is compared as the number, that of several equals none.  The tags go with
    their items. *)
Definition separated (sep : string) (ids : list Z) : string := String.concat sep (List.map pretty ids).
Definition sql_delete_old (ids : string) (w : Wallet) : res string (Wallet * ()) :=
  match w_items_old w with
  | Some l =>
      let gone id := String.eqb (pretty id) ids in
      let keep := List.filter (λ t, negb (gone (it_item t))) in
      Ok (mkWallet (w_metadata w) (w_items w) (Some (List.filter (λ i, negb (gone (ii_id i))) l))
            (keep <$> w_tags_encrypted w) (keep <$> w_tags_plaintext w) (w_store w), ())
  | None => Err (no_table "items_old")
  end.

(** The statements of [finish_upgrade], one transaction. *)
Definition sql_finish (w : Wallet) : res string (Wallet * ()) :=
  match w_items_old w, w_metadata w, w_tags_encrypted w, w_tags_plaintext w with
  | Some _, Some _, Some _, Some _ =>
      on_store (sql_insert_config "version" "1") (mkWallet None (w_items w) None None None (w_store w))
  | None, _, _, _ => Err (no_table "items_old")
  | _, None, _, _ => Err (no_table "metadata")
  | _, _, None, _ => Err (no_table "tags_encrypted")
  | _, _, _, None => Err (no_table "tags_plaintext")
  end.

(** ** Decrypting and encrypting an item *)

Definition CHACHAPOLY_NONCE_LEN : nat := 12.

(** What is inside an item, [IndyItem] of strategy.rs, and its new form. *)
Record PlainItem := mkPlainItem {
  pi_id : U32;
  pi_typ : bytes;
  pi_name : bytes;
  pi_value : option bytes;
  pi_tags : list EntryTag;
}.

Record UpdatedIndyItem := mkUpdatedItem {
  ui_id : U32;
  ui_category : bytes;
  ui_name : bytes;
  ui_value : bytes;
  ui_tags : list EncEntryTag;
}.

(** [str::split] by an ASCII character. *)
Fixpoint split_byte (c : byte) (l : bytes) : list bytes :=
  match l with
  | [] => [[]]
  | b :: l =>
      match split_byte c l with
      | p :: ps => if bool_decide (b = c) then [] :: p :: ps else (b :: p) :: ps
      | [] => [[b]]
      end
  end.

Section Strategy.
Context `{HAl : Allocator} `{HH : Hmac} `{HC : AeadCipher} `{HS : StoreCodecs} `{HI : IndyCodecs}.


(** [split_at] panics on a text that is shorter than the nonce. *)
Definition decrypt_merged (enc_value : bytes) (key : Chacha20Key) : sres bytes :=
  if (length enc_value <? CHACHAPOLY_NONCE_LEN)%nat then Panic else
  let nonce := take CHACHAPOLY_NONCE_LEN enc_value in
  let ciphertext := drop CHACHAPOLY_NONCE_LEN enc_value in
  buffer ← from_cres (decrypt_in_place key nonce [] (secret_from_slice ciphertext));
  mret (as_ref buffer).

Definition tag_hex (text : bytes) : sres bytes :=
  ok_or (hex_decode text) (StorageError.err_map StorageError.Input "tag is not valid hex encoded" (hex_error_text text)).

(** One tag; its second part is unwrapped. *)
Definition decrypt_tag_text (tag : bytes) (name_key : Chacha20Key) (value_key : option Chacha20Key)
    : sres (string * string) :=
  match split_byte x3a tag with
  | n :: v :: _ =>
      tag_name ← tag_hex n;
      tag_value ← tag_hex v;
      name ← decrypt_merged tag_name name_key;
      name ← map_err (StorageError.err_map StorageError.Input "tag name is not valid utf-8") (from_utf8 name);
      value ← match value_key with None => Ok tag_value | Some value_key => decrypt_merged tag_value value_key end;
      value ← map_err (StorageError.err_map StorageError.Input "tag value is not valid utf-8") (from_utf8 value);
      mret (name, value)
  | n :: [] => _ ← tag_hex n; Panic
  | [] => Panic
  end.

Definition decrypt_tags (tags : bytes) (name_key : Chacha20Key) (value_key : option Chacha20Key)
    : sres (list (string * string)) :=
  mapM (λ tag, decrypt_tag_text tag name_key value_key) (split_byte x2c tags).

Definition opt_tags (tags : option bytes) (name_key : Chacha20Key) (value_key : option Chacha20Key)
    : sres (list (string * string)) :=
  match tags with None => Ok [] | Some tags => decrypt_tags tags name_key value_key end.

Definition decrypt_item (row : IndyRow) (keys : IndyKey) : sres PlainItem :=
  value_key ← decrypt_merged (r_key row) (ik_value_key keys);
  value_key ← from_cres (chacha_from_secret_bytes value_key);
  value ← match r_value row with
    | Some value => Some <$> decrypt_merged value value_key
    | None => Ok None
    end;
  resp ← opt_tags (r_tags_enc row) (ik_tag_name_key keys) (Some (ik_tag_value_key keys));
  resp_plain ← opt_tags (r_tags_plain row) (ik_tag_name_key keys) None;
  typ ← decrypt_merged (r_type row) (ik_type_key keys);
  name ← decrypt_merged (r_name row) (ik_name_key keys);
  mret (mkPlainItem (r_id row) typ name value
    (List.map (λ t, EntryTag.Encrypted t.1 t.2) resp ++ List.map (λ t, EntryTag.Plaintext t.1 t.2) resp_plain)).

Definition update_item (rng : nat → bytes) (item : PlainItem) (key : ProfileKey) : sres UpdatedIndyItem :=
  value ← match pi_value item with
    | Some v => encrypt_entry_value key rng (pi_typ item) (pi_name item) (secret_of v)
    | None => Ok []
    end;
  category ← encrypt_entry_category key (secret_of (pi_typ item));
  name ← encrypt_entry_name key (secret_of (pi_name item));
  tags ← encrypt_entry_tags key (pi_tags item);
  mret (mkUpdatedItem (pi_id item) category name value tags).
End Strategy.

(** ** The migration *)

(** The file, and the calls on the connection that will fail. *)
Record Migration := mkMigration { mg_file : Wallet; mg_faults : list (option string) }.

Section Migrate.
Context `{HAl : Allocator} `{HH : Hmac} `{HC : AeadCipher} `{HS : StoreCodecs} `{HI : IndyCodecs} `{HU : UriCodec}.
Context `{HB : CborCodec} `{HO : IndyOrder} `{HE : SqliteEnv}.
Abbreviation M := (stm Migration StorageError.Error).

(** A statement; its errors are those of the client library. *)
Definition m_exec {A} (f : Wallet → res string (Wallet * A)) : M A := λ m,
  match mg_faults m with
  | Some msg :: fs => (mkMigration (mg_file m) fs, Err (StorageError.from_sqlx msg))
  | fs =>
      match f (mg_file m) with
      | Ok (w, a) => (mkMigration w (List.tl fs), Ok a)
      | Err msg => (mkMigration (mg_file m) (List.tl fs), Err (StorageError.from_sqlx msg))
      | Panic => (mkMigration (mg_file m) (List.tl fs), Panic)
      end
  end.

(** [conn.close()]. *)
Definition m_close : M () := m_exec (λ w, Ok (w, ())).

(** The arguments of [connect], once it has succeeded. *)
Context (spec_uri wallet_name wallet_key : string) (kdf_method : IndyKdf).
(** Randomness: the new profile key, the nonce that wraps it, the nonces of the values. *)
Context (new_key : sres ProfileKey) (rng : nat → bytes) (rngs : Z → nat → bytes).

Definition fetch_indy_key : M (IndyKey * UpdatedKey) :=
  metadata_row ← m_exec sql_metadata;
  metadata ← lift (map_err (StorageError.err_map StorageError.Input "Could not convert value from metadata to IndyKey")
    (metadata_from_str (from_utf8_lossy metadata_row)));
  (* [s[..16]] *)
  salt ← lift (match master_key_salt metadata with
    | Some s => if (length s <? 16)%nat then Panic else Ok (Some (take 16 s))
    | None => Ok None
    end);
  key_ref ← lift (to_store_key_reference kdf_method salt);
  master ← lift (ref_resolve key_ref (pass_from wallet_key));
  keys_mpk ← lift (map_err (λ e, StorageError.err_map StorageError.Input "Error decrypting wallet key" (StorageError.fmt e))
    (unwrap_data master (md_keys metadata)));
  indy_key ← lift (map_err (StorageError.err_map StorageError.Input "indy key not valid msgpack")
    (indy_key_from_slice (as_ref keys_mpk)));
  mret (indy_key, mkUpdatedKey master key_ref).

Definition create_config (key : UpdatedKey) : M () :=
  _ ← m_exec (on_store (sql_insert_config "default_profile" wallet_name));
  m_exec (on_store (sql_insert_config "key" (ref_into_uri (uk_key_ref key)))).

Definition init_profile (key : UpdatedKey) : M ProfileKey :=
  profile_row ← m_exec (on_store sql_first_profile_key);
  match profile_row with
  | Some profile_row =>
      lift (map_err (StorageError.err_map StorageError.Input "Invalid cbor encoding for profile_key") (cbor_from_slice profile_row))
  | None =>
      pk ← lift new_key;
      data ← lift (profile_key_to_bytes cbor_to_vec pk);
      enc_pk ← lift (wrap_data (uk_master key) rng data);
      _ ← m_exec (on_store (sql_add_profile wallet_name enc_pk));
      mret pk
  end.

Definition fetch_pending_items (limit : nat) : M (option (list IndyRow)) :=
  res ← m_exec (sql_pending limit);
  mret (match res with [] => None | _ => Some res end).

Fixpoint m_insert_tags (item_id : Z) (tags : list EncEntryTag) : M () :=
  match tags with
  | [] => mret ()
  | t :: tags => _ ← m_exec (on_store (sql_insert_tag item_id t)); m_insert_tags item_id tags
  end.

Fixpoint insert_items (items : list UpdatedIndyItem) : M () :=
  match items with
  | [] => mret ()
  | item :: items =>
      item_id ← m_exec (on_store (sql_add_item (ui_category item) (ui_name item) (ui_value item)));
      _ ← m_insert_tags item_id (ui_tags item);
      insert_items items
  end.

Definition update_items_in_db (items : list UpdatedIndyItem) : M () :=
  _ ← insert_items items;
  m_exec (sql_delete_old (separated "," (List.map (λ item, u32_val (ui_id item)) items))).

(** The loop, one item at a time; [false] when the fuel is used up. *)
Fixpoint update_items (fuel : nat) (indy_key : IndyKey) (profile_key : ProfileKey) : M bool :=
  match fuel with
  | O => mret false
  | S fuel =>
      rows ← fetch_pending_items 1;
      match rows with
      | None => mret true
      | Some rows =>
          upd ← lift (mapM (λ row, item ← decrypt_item row indy_key; update_item (rngs (u32_val (r_id row))) item profile_key) rows);
          _ ← update_items_in_db upd;
          update_items fuel indy_key profile_key
      end
  end.

(** Opening the store afterwards, which only checks that it can be done. *)
Definition verify_store (key : UpdatedKey) : M () :=
  m ← sget;
  opts ← lift (opts ← parse_uri spec_uri; sqlite_options_new opts);
  _ ← lift (open_store (db_path opts) (w_store (mg_file m)) (Some (method_of_ref (uk_key_ref key))) (pass_from wallet_key) None);
  mret ().

Definition migrate (fuel : nat) : M bool :=
  migrated ← m_exec sql_is_migrated;
  if migrated : bool then _ ← m_close; sfail (err_kind StorageError.Backend "Database is already migrated") else
  _ ← m_exec sql_pre_upgrade;
  '(indy_key, upd_key) ← fetch_indy_key;
  _ ← create_config upd_key;
  profile_key ← init_profile upd_key;
  finished ← update_items fuel indy_key profile_key;
  if negb finished then mret false else
  _ ← m_exec sql_finish;
  _ ← m_close;
  _ ← verify_store upd_key;
  mret true.
End Migrate.

(** [connect] checks the name of the method before it connects; [m] is the file. *)
Definition connect (kdf : string) (m : Migration) : Migration * sres IndyKdf :=
  match indy_kdf_from_str kdf with
  | Ok kdf_method =>
      match mg_faults m with
      | Some msg :: fs => (mkMigration (mg_file m) fs, Err (StorageError.from_sqlx msg))
      | fs => (mkMigration (mg_file m) (List.tl fs), Ok kdf_method)
      end
  | r => (m, r)
  end.
