(* ===== verification/MigrationLaws.v ===== *)
(** * Properties of the migration

    A wallet of the Indy SDK that is migrated is a store with the items of the wallet
    in it (Migration.v), and a migration that fails half-way cannot be taken up again. *)

From stdpp Require Import pretty.
From S2P Require Import Prelude Errors DbQuery Buffers Entry Utf8 Aead Protect Options StoreKey DbUtils Session SqliteDb.
From S2P Require Import Sqlite Store SqliteBackend Lifecycle Migration.
Local Open Scope string_scope.
Local Open Scope list_scope.

#[local] Existing Instance sqlite_resolution.

(** ** Splitting the text of tags *)

Lemma split_byte_free c l : c ∉ l → split_byte c l = [l].
Proof.
  induction l as [|b l IH]; [done|]. intros [Hb Hl]%not_elem_of_cons. cbn. rewrite (IH Hl).
  by rewrite bool_decide_eq_false_2 by congruence.
Qed.

Lemma split_byte_at c l rest : c ∉ l → split_byte c (l ++ [c] ++ rest) = l :: split_byte c rest.
Proof.
  induction l as [|b l IH]; cbn [app].
  - intros _. cbn. destruct (split_byte c rest) eqn:E.
    + exfalso. clear -E. destruct rest as [|b rest]; [done|]. cbn in E. destruct (split_byte c rest); [done|by destruct (bool_decide _)].
    + by rewrite bool_decide_eq_true_2.
  - intros [Hb Hl]%not_elem_of_cons. cbn. cbn in IH. rewrite (IH Hl).
    by rewrite bool_decide_eq_false_2 by congruence.
Qed.

Lemma group_concat_split l : l ≠ [] → Forall (λ t, x2c ∉ t) l → ∃ text, group_concat l = Some text ∧ split_byte x2c text = l.
Proof.
  induction l as [|t l IH]; [done|]. intros _ [Ht Hl]%Forall_cons. cbn [group_concat].
  destruct l as [|t' l]; [exists t; cbn [group_concat]; by rewrite split_byte_free|].
  destruct IH as (text & -> & E); [done..|]. exists (t ++ [x2c] ++ text). by rewrite split_byte_at, E.
Qed.

Lemma sql_hex_free c b : c = x2c ∨ c = x3a → c ∉ sql_hex b.
Proof.
  intros Hc Hin. pose proof (sql_hex_plain b) as Hp. rewrite Forall_forall in Hp. specialize (Hp _ Hin).
  unfold plain_byte in Hp. destruct Hc as [->| ->]; naive_solver.
Qed.

Section Wallets.
Context `{HAl : Allocator} `{HH : Hmac} `{HC : AeadCipher} {laws : CipherLaws} {HD : LawfulDerivation Chacha20Key}.
Context `{HS : StoreCodecs} `{HI : IndyCodecs}.
Hypothesis nonce_12 : cipher_nonce_size = 12%nat.
Hypothesis hex_upper : ∀ b, hex_decode (sql_hex b) = Some b.

(** ** What is in a wallet *)

(** A text encrypted by the Indy SDK: a nonce and the sealed text. *)
Definition merged (k : Chacha20Key) (c m : bytes) : Prop :=
  ∃ nonce, length nonce = cipher_nonce_size ∧ c = nonce ++ sealed k nonce [] m ∧ (length m ≤ cipher_max)%nat.

(** An item of a wallet in the clear. *)
Record WalletItem := mkWalletItem {
  wi_type : string;
  wi_name : string;
  wi_value : bytes;
  wi_encrypted : list (string * string);
  wi_plaintext : list (string * string);
}.

Definition wi_tags (i : WalletItem) : list EntryTag :=
  List.map (λ t, EntryTag.Encrypted t.1 t.2) (wi_encrypted i) ++ List.map (λ t, EntryTag.Plaintext t.1 t.2) (wi_plaintext i).
Definition wi_key (i : WalletItem) : AKey := (EntryKind.Item, wi_type i, wi_name i).
Definition wi_aval (i : WalletItem) : AVal := mkAVal (wi_value i) (wi_tags i) None.

Definition wallet_item_ok (i : WalletItem) : Prop :=
  akey_ok (wi_key i) ∧ (length (wi_value i) ≤ cipher_max)%nat ∧ Forall tag_ok (wi_tags i) ∧ Forall (tag_small cipher_max) (wi_tags i).

(** A row of tags stands for a tag. *)
Definition holds_tag (name_key : Chacha20Key) (value_key : option Chacha20Key) (t : IndyTag) (p : string * string) : Prop :=
  merged name_key (it_name t) (as_bytes p.1)
  ∧ match value_key with Some k => merged k (it_value t) (as_bytes p.2) | None => it_value t = as_bytes p.2 end.

(** A row of items, with its tags, stands for an item. *)
Definition holds_item (ik : IndyKey) (te tp : list IndyTag) (row : IndyItem) (i : WalletItem) : Prop :=
  merged (ik_type_key ik) (ii_type row) (as_bytes (wi_type i))
  ∧ merged (ik_name_key ik) (ii_name row) (as_bytes (wi_name i))
  ∧ (∃ vk v, merged (ik_value_key ik) (ii_key row) vk ∧ length vk = cipher_key_size
      ∧ ii_value row = Some v ∧ merged (mkChacha vk) v (wi_value i))
  ∧ Forall2 (holds_tag (ik_tag_name_key ik) (Some (ik_tag_value_key ik))) (indy_tags (ii_id row) te) (wi_encrypted i)
  ∧ Forall2 (holds_tag (ik_tag_name_key ik) None) (indy_tags (ii_id row) tp) (wi_plaintext i).

Definition indy_key_ok (ik : IndyKey) : Prop :=
  chacha_ok (ik_type_key ik) ∧ chacha_ok (ik_name_key ik) ∧ chacha_ok (ik_value_key ik)
  ∧ chacha_ok (ik_tag_name_key ik) ∧ chacha_ok (ik_tag_value_key ik).

(** ** Decrypting *)

Lemma decrypt_merged_spec k c m : chacha_ok k → merged k c m → decrypt_merged c k = Ok m.
Proof.
  intros Hk (nonce & Hn & -> & Hm). unfold decrypt_merged, CHACHAPOLY_NONCE_LEN.
  assert (length nonce = 12)%nat as H12 by congruence.
  rewrite length_app, (proj2 (Nat.ltb_ge _ _)) by lia. rewrite take_app_length', drop_app_length' by done.
  pose proof (decrypt_spec (B := SecretBytes) k nonce [] (secret_from_slice (sealed k nonce [] m)) m Hk Hn) as Hd.
  destruct Hd as (v & E & _ & Ev); [|done|done|].
  - split; [unfold sec_ok; cbn; apply alloc_cap_ge|constructor].
  - rewrite E. cbn [from_cres map_err mbind res_bind mret res_ret]. f_equal. exact Ev.
Qed.

Lemma decrypt_tag_ok nk vk t p : chacha_ok nk → (∀ k, vk = Some k → chacha_ok k) → str_ok p.1 → str_ok p.2 →
  holds_tag nk vk t p → decrypt_tag_text (tag_text t) nk vk = Ok p.
Proof.
  intros Hnk Hvk H1 H2 [Hn Hv]. unfold decrypt_tag_text, tag_text.
  rewrite split_byte_at, split_byte_free by (apply sql_hex_free; auto).
  unfold tag_hex. rewrite !hex_upper. cbn [ok_or mbind res_bind].
  rewrite (decrypt_merged_spec nk _ _ Hnk Hn). cbn [mbind res_bind]. rewrite (from_utf8_str _ H1). cbn [map_err mbind res_bind].
  assert (match vk with None => Ok (it_value t) | Some value_key => decrypt_merged (it_value t) value_key end = Ok (as_bytes p.2)) as E.
  { destruct vk as [k|]; [by apply decrypt_merged_spec; [apply Hvk|]|by rewrite Hv]. }
  rewrite E. cbn [mbind res_bind]. rewrite (from_utf8_str _ H2). by destruct p.
Qed.

Lemma tag_text_plain t : x2c ∉ tag_text t.
Proof.
  unfold tag_text. rewrite !elem_of_app. intros [H|[H|H]].
  - by apply sql_hex_free in H; [|auto].
  - by apply list_elem_of_singleton in H.
  - by apply sql_hex_free in H; [|auto].
Qed.

Lemma opt_tags_ok nk vk ts ps : chacha_ok nk → (∀ k, vk = Some k → chacha_ok k) →
  Forall2 (holds_tag nk vk) ts ps → Forall (λ p, str_ok p.1 ∧ str_ok p.2) ps →
  opt_tags (group_concat (List.map tag_text ts)) nk vk = Ok ps.
Proof.
  intros Hnk Hvk Hts Hps. destruct (decide (ts = [])) as [->|Hne]; [by apply Forall2_nil_inv_l in Hts as ->|].
  destruct (group_concat_split (List.map tag_text ts)) as (text & -> & E).
  { by destruct ts. }
  { apply List.Forall_map, Forall_true. apply tag_text_plain. }
  cbn [opt_tags]. unfold decrypt_tags. rewrite E. clear E Hne text. induction Hts as [|t p ts ps Ht Hts IH]; [done|].
  apply Forall_cons in Hps as [[H1 H2] Hps]. cbn [List.map mapM].
  rewrite (decrypt_tag_ok nk vk t p Hnk Hvk H1 H2 Ht). cbn [mbind res_bind]. rewrite (IH Hps). done.
Qed.

Lemma indy_row_ok te tp row : fits_u32 (ii_id row) = true →
  ∃ row', indy_row te tp row = Ok row' ∧ u32_val (r_id row') = ii_id row.
Proof. intros Hz. unfold indy_row, decode_u32. destruct (sumbool_of_bool _) as [H|H]; [by eexists|congruence]. Qed.

(** An item whose identifier is none of 32 bits cannot be read. *)
Lemma indy_row_refused te tp row : fits_u32 (ii_id row) = false → indy_row te tp row = Err (id_error_text (ii_id row)).
Proof. intros Hz. unfold indy_row, decode_u32. destruct (sumbool_of_bool _) as [H|H]; [congruence|done]. Qed.

Lemma decrypt_item_ok ik te tp row row' i : indy_key_ok ik → wallet_item_ok i → holds_item ik te tp row i →
  indy_row te tp row = Ok row' →
  decrypt_item row' ik = Ok (mkPlainItem (r_id row') (as_bytes (wi_type i)) (as_bytes (wi_name i)) (Some (wi_value i)) (wi_tags i)).
Proof.
  intros (K1 & K2 & K3 & K4 & K5) (_ & _ & Ht & _) (H1 & H2 & (vk & v & Hvk & Hl & Hv & Hm) & He & Hp) Erow.
  apply bind_ok_inv in Erow as (id & _ & [= <-]). unfold decrypt_item. cbn [r_id r_type r_name r_value r_key r_tags_enc r_tags_plain].
  rewrite (decrypt_merged_spec _ _ _ K3 Hvk). cbn [mbind res_bind].
  assert (chacha_from_secret_bytes vk = Ok (mkChacha vk)) as ->.
  { unfold chacha_from_secret_bytes, array_from_slice. by rewrite Hl, Nat.eqb_refl. }
  cbn [from_cres map_err mbind res_bind]. rewrite Hv, (decrypt_merged_spec (mkChacha vk) _ _ Hl Hm). cbn [fmap res_fmap mbind res_bind].
  assert (Forall (λ p : string * string, str_ok p.1 ∧ str_ok p.2) (wi_encrypted i)
    ∧ Forall (λ p : string * string, str_ok p.1 ∧ str_ok p.2) (wi_plaintext i)) as [Ha Hb].
  { unfold wi_tags in Ht. apply Forall_app in Ht as [Ha Hb]. rewrite List.Forall_map in Ha, Hb. split; [exact Ha|exact Hb]. }
  assert (∀ k, Some (ik_tag_value_key ik) = Some k → chacha_ok k) as Hk by naive_solver.
  assert (∀ k, None = Some k → chacha_ok k) as Hk' by done.
  rewrite (opt_tags_ok _ _ _ _ K4 Hk He Ha). cbn [mbind res_bind].
  rewrite (opt_tags_ok _ _ _ _ K4 Hk' Hp Hb). cbn [mbind res_bind].
  by rewrite (decrypt_merged_spec _ _ _ K1 H1), (decrypt_merged_spec _ _ _ K2 H2).
Qed.

(** ** Encrypting *)

Context (pk : ProfileKey).
Hypothesis pk_ok : profile_ok pk.

Lemma update_item_ok rng id i : (∀ n, length (rng n) = n) → wallet_item_ok i →
  ∃ encv b, update_item rng (mkPlainItem id (as_bytes (wi_type i)) (as_bytes (wi_name i)) (Some (wi_value i)) (wi_tags i)) pk
    = Ok (mkUpdatedItem id (enc_category pk (as_bytes (wi_type i))) (enc_name pk (as_bytes (wi_name i))) encv
        (List.map (enc_tag pk) (wi_tags i)))
  ∧ decrypt_entry_value pk (as_bytes (wi_type i)) (as_bytes (wi_name i)) encv = Ok b ∧ sec_data b = wi_value i.
Proof.
  intros Hr ([[_ Hc] [_ Hn]] & Hv & _ & Hs). cbn [fst snd wi_key] in Hc, Hn.
  destruct (value_inverse pk rng (as_bytes (wi_type i)) (as_bytes (wi_name i)) (secret_of (wi_value i)))
    as (encv & E & b & Eb & Hb); [done|done|apply secret_of_inv|done|].
  exists encv, b. split; [|by rewrite Hb].
  pose proof (category_spec pk (secret_of (as_bytes (wi_type i))) pk_ok (secret_of_inv _) Hc) as E1.
  pose proof (name_spec pk (secret_of (as_bytes (wi_name i))) pk_ok (secret_of_inv _) Hn) as E2.
  pose proof (encrypt_tags_spec pk (wi_tags i) pk_ok Hs) as E3.
  unfold update_item. cbn [pi_id pi_typ pi_name pi_value pi_tags].
  rewrite (bind_ok _ _ _ E), (bind_ok _ _ _ E1), (bind_ok _ _ _ E2), (bind_ok _ _ _ E3). done.
Qed.

(** ** Statements *)

Lemma m_exec_ok {A} (f : Wallet → res string (Wallet * A)) w w' a : f w = Ok (w', a) →
  m_exec f (mkMigration w []) = (mkMigration w' [], Ok a).
Proof. intros E. unfold m_exec. cbn. by rewrite E. Qed.

Lemma on_store_ok {A} (f : Db → res string (Db * A)) w d d' a : w_store w = Some d → f d = Ok (d', a) →
  on_store f w = Ok (set_store d' w, a).
Proof. intros Hd E. unfold on_store. rewrite Hd, E. done. Qed.

(** The file while items are moved. *)
Definition moving (md : list bytes) (l : list IndyItem) (te tp : list IndyTag) (d : Db) : Wallet :=
  mkWallet (Some md) None (Some l) (Some te) (Some tp) (Some d).

Lemma m_insert_tags_run md l te tp id ts : ∀ d d', insert_all_tags id ts d = Ok (d', ()) →
  m_insert_tags id ts (mkMigration (moving md l te tp d) []) = (mkMigration (moving md l te tp d') [], Ok ()).
Proof.
  induction ts as [|t ts IH]; intros d d'; [by intros [= <-]|]. cbn [insert_all_tags m_insert_tags].
  destruct (sql_insert_tag id t d) as [[d1 []]| |] eqn:E; cbn [mbind res_bind]; [|done..]. intros E2.
  rewrite (stm_bind_ok _ _ _ _ _ (m_exec_ok _ _ _ _ (on_store_ok _ (moving md l te tp d) d d1 () eq_refl E))).
  by apply IH.
Qed.

Lemma insert_one_run md l te tp d s id i encv b : represents pk 1 d s → wallet_item_ok i → s !! wi_key i = None →
  decrypt_entry_value pk (as_bytes (wi_type i)) (as_bytes (wi_name i)) encv = Ok b → sec_data b = wi_value i →
  ∃ d', insert_items [mkUpdatedItem id (enc_category pk (as_bytes (wi_type i))) (enc_name pk (as_bytes (wi_name i))) encv
      (List.map (enc_tag pk) (wi_tags i))] (mkMigration (moving md l te tp d) [])
    = (mkMigration (moving md l te tp d') [], Ok ())
  ∧ represents pk 1 d' (<[wi_key i := wi_aval i]> s) ∧ profiles d' = profiles d ∧ config d' = config d.
Proof.
  intros Hr (Hk & _ & Ho & Hs) Hn Eb Hb.
  pose proof (rep_none pk 1 pk_ok _ _ _ Hr Hk Hn) as Hf%view_find.
  destruct (insert_item_spec (ekey pk 1 (wi_key i)) encv None (List.map (enc_tag pk) (wi_tags i)) d (rep_wf _ _ _ _ Hr) Hf
    (rep_profile _ _ _ _ Hr)) as (iid & d1 & d2 & E1 & E2 & Hwf & Hp & Hc & Hv & Hother).
  exists d2. split_and!; [|eapply represents_insert; try done; by split_and!; [exists b|..]|done|done].
  cbn [insert_items ui_category ui_name ui_value ui_tags].
  assert (sql_add_item (enc_category pk (as_bytes (wi_type i))) (enc_name pk (as_bytes (wi_name i))) encv d = Ok (d1, iid)) as E.
  { unfold sql_add_item. change (1%Z, 2%Z, _, _) with (ekey pk 1 (wi_key i)). by rewrite E1. }
  rewrite (stm_bind_ok _ _ _ _ _ (m_exec_ok _ _ _ _ (on_store_ok _ (moving md l te tp d) d d1 iid eq_refl E))).
  by rewrite (stm_bind_ok _ _ _ _ _ (m_insert_tags_run md l te tp iid _ d1 d2 E2)).
Qed.

(** ** Moving the items *)

Lemma delete_one l r : NoDup (List.map ii_id l) → r ∈ l →
  l ≡ₚ r :: List.filter (λ i, negb (String.eqb (pretty (ii_id i)) (pretty (ii_id r)))) l.
Proof.
  induction l as [|x l IH]; [by intros _ ?%elem_of_nil|]. cbn [List.map]. intros [Hx Hl]%NoDup_cons [->|Hr]%elem_of_cons; cbn.
  - rewrite String.eqb_refl. cbn. f_equiv. rewrite List.forallb_filter_id; [done|]. apply List.forallb_forall. intros y Hy%list_elem_of_In.
    apply negb_true_iff, String.eqb_neq. intros E%(inj pretty). apply Hx. rewrite <- E. by apply list_elem_of_fmap_2.
  - rewrite (proj2 (String.eqb_neq _ _)).
    + cbn. rewrite Permutation_swap. f_equiv. by apply IH.
    + intros E%(inj pretty). apply Hx. rewrite E. by apply list_elem_of_fmap_2.
Qed.

(** The tags of the items that stay. *)
Lemma tags_stay id id' ts : id ≠ id' →
  indy_tags id (List.filter (λ t, negb (String.eqb (pretty (it_item t)) (pretty id'))) ts) = indy_tags id ts.
Proof.
  intros Hne. unfold indy_tags. induction ts as [|t ts IH]; [done|]. cbn.
  destruct (String.eqb_spec (pretty (it_item t)) (pretty id')) as [E%(inj pretty)|E]; cbn.
  - rewrite bool_decide_eq_false_2 by congruence. exact IH.
  - destruct (bool_decide _); by rewrite IH.
Qed.

Definition wallet_map (item_of : IndyItem → WalletItem) (l : list IndyItem) : AStore :=
  list_to_map (List.map (λ r, (wi_key (item_of r), wi_aval (item_of r))) l).

Section Loop.
Context `{HO : IndyOrder}.
Context (rngs : Z → nat → bytes) (ik : IndyKey) (item_of : IndyItem → WalletItem).
Hypothesis rngs_length : ∀ z n, length (rngs z n) = n.
Hypothesis ik_ok : indy_key_ok ik.

Definition rows_hold (l : list IndyItem) (te tp : list IndyTag) : Prop :=
  NoDup (List.map ii_id l) ∧ NoDup (List.map (λ r, wi_key (item_of r)) l)
  ∧ Forall (λ r, fits_u32 (ii_id r) = true ∧ holds_item ik te tp r (item_of r) ∧ wallet_item_ok (item_of r)) l.

Lemma rows_hold_one l te tp r : rows_hold l te tp → r ∈ l →
  let keep id := negb (String.eqb (pretty id) (pretty (ii_id r))) in
  let l' := List.filter (λ i, keep (ii_id i)) l in
  rows_hold l' (List.filter (λ t, keep (it_item t)) te) (List.filter (λ t, keep (it_item t)) tp)
  ∧ length l = S (length l') ∧ (∀ r', r' ∈ l' → wi_key (item_of r') ≠ wi_key (item_of r) ∧ r' ∈ l)
  ∧ wallet_map item_of l = <[wi_key (item_of r) := wi_aval (item_of r)]> (wallet_map item_of l').
Proof.
  intros (Hid & Hk & Hf) Hin keep l'. assert (l ≡ₚ r :: l') as Hp by exact (delete_one l r Hid Hin).
  assert (NoDup (ii_id r :: List.map ii_id l')) as [Hid1 Hid2]%NoDup_cons.
  { change (NoDup (List.map ii_id (r :: l'))). by rewrite <- Hp. }
  assert (NoDup (wi_key (item_of r) :: List.map (λ r, wi_key (item_of r)) l')) as [Hk1 Hk2]%NoDup_cons.
  { change (NoDup (List.map (λ r, wi_key (item_of r)) (r :: l'))). by rewrite <- Hp. }
  assert (∀ r', r' ∈ l' → r' ∈ l) as Hsub by (intros r' Hr'; rewrite Hp; by right).
  split_and!; [split_and!; [done|done|]| | |].
  - apply Forall_forall. intros r' Hr'. destruct (proj1 (Forall_forall _ _) Hf r' (Hsub _ Hr')) as (Hfits & (H1 & H2 & H3 & H4 & H5) & Hok).
    split; [done|split; [|done]]. assert (ii_id r' ≠ ii_id r) by (intros E; apply Hid1; rewrite <- E; by apply list_elem_of_fmap_2).
    unfold keep, holds_item. rewrite !tags_stay by done. done.
  - by rewrite Hp at 1.
  - intros r' Hr'. split; [|by apply Hsub]. intros E. apply Hk1. rewrite <- E. exact (list_elem_of_fmap_2 (λ r, wi_key (item_of r)) _ _ Hr').
  - unfold wallet_map. change (<[_:=_]> _) with (list_to_map (M := AStore) (List.map (λ r, (wi_key (item_of r), wi_aval (item_of r))) (r :: l'))).
    apply list_to_map_proper; [|by rewrite Hp at 1]. rewrite <- list_fmap_compose. exact Hk.
Qed.

Lemma update_items_run md fuel : ∀ l te tp d s, (length l < fuel)%nat → rows_hold l te tp →
  represents pk 1 d s → (∀ r, r ∈ l → s !! wi_key (item_of r) = None) →
  ∃ d' te' tp', update_items rngs fuel ik pk (mkMigration (moving md l te tp d) [])
    = (mkMigration (moving md [] te' tp' d') [], Ok true)
  ∧ represents pk 1 d' (wallet_map item_of l ∪ s) ∧ profiles d' = profiles d ∧ config d' = config d.
Proof.
  induction fuel as [|fuel IH]; [lia|]. intros l te tp d s Hl Hrows Hrep Hnew. cbn [update_items].
  set (m := mkMigration (moving md l te tp d) []).
  pose proof (indy_order_perm l) as Hperm. destruct (indy_order l) as [|r rest] eqn:Eo.
  { apply Permutation_nil in Hperm as ->. assert (fetch_pending_items 1 m = (m, Ok None)) as E.
    { unfold fetch_pending_items. erewrite (stm_bind_ok _ _ m m []); [done|]. apply m_exec_ok. cbn. by rewrite Eo. }
    rewrite (stm_bind_ok _ _ _ _ _ E). exists d, te, tp. split_and!; [done| |done|done]. change (wallet_map item_of []) with (∅ : AStore). by rewrite (left_id_L ∅ (∪)). }
  assert (r ∈ l) as Hin by (rewrite <- Hperm; left).
  destruct (proj1 (Forall_forall _ _) (proj2 (proj2 Hrows)) r Hin) as (Hfits & Hh & Hok).
  destruct (indy_row_ok te tp r Hfits) as (row & Erow & Hid).
  assert (fetch_pending_items 1 m = (m, Ok (Some [row]))) as E.
  { unfold fetch_pending_items. erewrite (stm_bind_ok _ _ m m [row]); [done|]. apply m_exec_ok. cbn. rewrite Eo. cbn [take mapM].
    by rewrite take_0, Erow. }
  rewrite (stm_bind_ok _ _ _ _ _ E). cbn [mapM].
  rewrite (decrypt_item_ok ik te tp r row (item_of r) ik_ok Hok Hh Erow). cbn [mbind res_bind]. rewrite Hid.
  destruct (update_item_ok (rngs (ii_id r)) (r_id row) (item_of r) (rngs_length _) Hok) as (encv & b & Eu & Eb & Hb).
  rewrite Eu. cbn [mbind res_bind mret res_ret]. rewrite (stm_bind_ok (lift (mret _)) _ _ _ _ eq_refl).
  destruct (insert_one_run md l te tp d s (r_id row) (item_of r) encv b Hrep Hok (Hnew r Hin) Eb Hb) as (d1 & Ei & Hr1 & Hp1 & Hc1).
  destruct (rows_hold_one l te tp r Hrows Hin) as (Hrows' & Hlen & Hne & Hmap).
  assert (Hdel : ∀ u, insert_items [u] m = (mkMigration (moving md l te tp d1) [], Ok ()) → u32_val (ui_id u) = ii_id r →
    update_items_in_db [u] m = (mkMigration (moving md (List.filter (λ i, negb (String.eqb (pretty (ii_id i)) (pretty (ii_id r)))) l)
      (List.filter (λ t, negb (String.eqb (pretty (it_item t)) (pretty (ii_id r)))) te)
      (List.filter (λ t, negb (String.eqb (pretty (it_item t)) (pretty (ii_id r)))) tp) d1) [], Ok ())).
  { intros u Ei' Hu. unfold update_items_in_db. rewrite (stm_bind_ok _ _ _ _ _ Ei'). apply m_exec_ok.
    cbn [List.map separated String.concat]. by rewrite Hu. }
  rewrite (stm_bind_ok _ _ _ _ _ (Hdel _ Ei Hid)).
  pose proof (λ Hlt, IH _ _ _ d1 _ Hlt Hrows' Hr1) as Hgo.
  destruct Hgo as (d2 & te2 & tp2 & E2 & Hr2 & Hp2 & Hc2); [lia| |].
  { intros r' Hr'. destruct (Hne _ Hr') as [Hk Hin']. rewrite lookup_insert_ne by done. by apply Hnew. }
  exists d2, te2, tp2. split_and!; [exact E2| |congruence|congruence].
  rewrite Hmap, <- insert_union_l, insert_union_r; [exact Hr2|].
  apply not_elem_of_list_to_map_1. rewrite <- list_fmap_compose. intros (r' & Ek & Hr')%list_elem_of_fmap.
  destruct (Hne _ Hr') as [Hk _]. cbn in Ek. congruence.
Qed.
End Loop.
End Wallets.

(** ** The wallet as a store *)

Section Migrated.
Context `{HAl : Allocator} `{HH : Hmac} `{HC : AeadCipher} {laws : CipherLaws} {HD : LawfulDerivation Chacha20Key}.
Context `{HS : StoreCodecs} {SL : StoreCodecLaws} `{HU : UriCodec} {UL : UriCodecLaws}.
Context `{HB : CborCodec} `{HE : SqlEngine} `{HI : IndyCodecs} `{HO : IndyOrder} `{HQ : SqliteEnv}.
Context (env : Env) (pk : ProfileKey).
Hypothesis pk_ok : profile_ok pk.
Hypothesis nonce_12 : cipher_nonce_size = 12%nat.
Hypothesis rng_length : ∀ n, length (env_rng env n) = n.
Hypothesis hex_upper : ∀ b, hex_decode (sql_hex b) = Some b.

Lemma ref_resolve_ok ref pass sk : ref_resolve ref pass = Ok sk → store_key_ok sk.
Proof.
  assert (Hk : ∀ d k', (k ← from_cres (chacha_from_secret_bytes d); mret (mkStoreKey (Some k)) : sres _) = Ok k' →
    store_key_ok k').
  { intros d k' E. apply bind_ok_inv in E as (k & E & [= <-]).
    destruct (chacha_from_secret_bytes d) eqn:Ed; [|done..]. injection E as <-. by eapply from_secret_bytes_ok. }
  destruct ref as [[l] d| |]; cbn [ref_resolve].
  - destruct (negb _); [|done]. unfold kdf_derive_key. intros E. bind_inv E. unfold level_derive_key in E. bind_inv E. bind_inv E. by eapply Hk.
  - destruct (negb _); [|done]. unfold parse_raw_store_key. intros E. bind_inv E. destruct (_ <? _)%nat; [done|].
    destruct (negb _); [done|]. by eapply Hk.
  - by intros [= <-].
Qed.

Lemma reference_ok kdf salt ref : to_store_key_reference kdf salt = Ok ref → ref_ok ref.
Proof.
  destruct kdf; cbn; [|by intros [= <-]]. destruct salt as [s|]; [|done]. cbn. intros [= <-]. cbn. right. eexists. by split; [|done].
Qed.

(** Opening tables with the configuration and the profile of a store. *)
Lemma open_configured path d name uri enc ref pass sk pk' m :
  config d = [("default_profile", name); ("key", uri); ("version", "1")] →
  sql_find_profile name d = Ok (d, Some (1%Z, enc)) → ref_parse_uri uri = Ok ref →
  match m with Some m => compare_method ref m = true | None => True end →
  ref_resolve ref pass = Ok sk → load_key (key_cache_new sk) enc = Ok pk' →
  open_store path (Some d) m pass None
  = Ok (mkBackend d (PoolOpen []) name (add_profile name 1 pk' (key_cache_new sk)) path).
Proof.
  intros Hc Hf Eu Hm Er El. unfold open_store, open_db. rewrite Hc. cbn [read_config String.eqb Ascii.eqb Bool.eqb mbind res_bind negb].
  cbn [ok_or mbind res_bind]. rewrite Eu. run_bind.
  assert (match m with Some m => negb (compare_method ref m) | None => false end = false) as ->
    by (destruct m; [by rewrite Hm|done]).
  rewrite pass_owned, Er. run_bind. rewrite Hf. cbn [map_err mbind res_bind ok_or]. by rewrite El.
Qed.

(** What a wallet must be: its metadata lead, with the wallet's key, to the keys that its
    items are encrypted with. *)
Record wallet_opens (wallet_key : string) (kdf : IndyKdf) (md : bytes) (ref : StoreKeyReference) (sk : StoreKey) (ik : IndyKey) : Prop := {
  wo_metadata : ∃ meta, metadata_from_str (from_utf8_lossy md) = Ok meta
    ∧ (∀ s, master_key_salt meta = Some s → (16 ≤ length s)%nat)
    ∧ to_store_key_reference kdf (take 16 <$> master_key_salt meta) = Ok ref
    ∧ ∃ mpk, unwrap_data sk (md_keys meta) = Ok mpk ∧ indy_key_from_slice (as_ref mpk) = Ok ik;
  wo_resolves : ref_resolve ref (pass_from wallet_key) = Ok sk;
  wo_keys : indy_key_ok ik;
}.

Lemma fetch_indy_key_run wallet_key kdf md mds ref sk ik l te tp d :
  wallet_opens wallet_key kdf md ref sk ik →
  let m := mkMigration (moving (md :: mds) l te tp d) [] in
  fetch_indy_key wallet_key kdf m = (m, Ok (ik, mkUpdatedKey sk ref)).
Proof.
  intros [(meta & E1 & Hs & E2 & mpk & E3 & E4) Er _] m. unfold fetch_indy_key.
  assert (m_exec sql_metadata m = (m, Ok md)) as E0 by done.
  rewrite (stm_bind_ok _ _ _ _ _ E0), E1.
  cbn [map_err]; rewrite (stm_bind_ok (lift (Ok _)) _ _ _ _ eq_refl).
  assert (match master_key_salt meta with
    | Some s => if (length s <? 16)%nat then Panic else Ok (Some (take 16 s)) | None => Ok None end
    = (Ok (take 16 <$> master_key_salt meta) : sres _)) as ->.
  { destruct (master_key_salt meta) as [s|] eqn:E; [|done]. by rewrite (proj2 (Nat.ltb_ge _ _)) by (by apply Hs). }
  cbn [map_err]; rewrite (stm_bind_ok (lift (Ok _)) _ _ _ _ eq_refl), E2.
  cbn [map_err]; rewrite (stm_bind_ok (lift (Ok _)) _ _ _ _ eq_refl), Er.
  cbn [map_err]; rewrite (stm_bind_ok (lift (Ok _)) _ _ _ _ eq_refl), E3.
  cbn [map_err]; rewrite (stm_bind_ok (lift (Ok _)) _ _ _ _ eq_refl), E4.
  cbn [map_err]; by rewrite (stm_bind_ok (lift (Ok _)) _ _ _ _ eq_refl).
Qed.

(** The tables after the profile has been created. *)
Definition prepared_tables (name uri : string) (enc : bytes) : Db :=
  mkDb [("default_profile", name); ("key", uri)] [mkProfile 1 name enc] [] [].

Lemma prepare_run name ref sk rng md l te tp : (∀ n, length (rng n) = n) → store_key_ok sk → key_portable pk →
  ∃ enc, load_key (key_cache_new sk) enc = Ok pk
  ∧ (_ ← create_config name (mkUpdatedKey sk ref); init_profile name (Ok pk) rng (mkUpdatedKey sk ref))
      (mkMigration (moving md l te tp (mkDb [] [] [] [])) [])
    = (mkMigration (moving md l te tp (prepared_tables name (ref_into_uri ref) enc)) [], Ok pk).
Proof.
  intros Hr Hsk (b & Eto & Efrom & Hb).
  destruct (load_encoded_key rng sk pk b Hr Hsk Eto Efrom Hb) as (enc & Eenc & Hload).
  unfold encode_profile_key in Eenc. apply bind_ok_inv in Eenc as (data & Ed & Ew).
  exists enc. split; [done|]. set (m1 := mkMigration (moving md l te tp (mkDb [("default_profile", name); ("key", ref_into_uri ref)] [] [] [])) []).
  rewrite (stm_bind_ok _ _ _ m1 ()) by reflexivity. unfold init_profile.
  rewrite (stm_bind_ok _ _ m1 m1 None) by reflexivity.
  rewrite (stm_bind_ok (lift (Ok _)) _ _ _ _ eq_refl), Ed.
  rewrite (stm_bind_ok (lift (Ok _)) _ _ _ _ eq_refl). cbn [uk_master]. rewrite Ew.
  by rewrite (stm_bind_ok (lift (Ok _)) _ _ _ _ eq_refl).
Qed.

Lemma prepared_represents name uri enc : represents pk 1 (prepared_tables name uri enc) ∅.
Proof. split; [split; repeat constructor; set_solver|done| |]; done. Qed.

(** What a file is once its wallet has been migrated. *)
Definition migrated (d : Db) : Wallet := mkWallet None None None None None (Some d).

(** A session of the store that a file has become. *)
Lemma migrated_session d s name uri enc ref wallet_key sk path method transaction ops :
  represents pk 1 d s → config d = [("default_profile", name); ("key", uri); ("version", "1")] →
  sql_find_profile name d = Ok (d, Some (1%Z, enc)) → ref_parse_uri uri = Ok ref →
  match method with Some m => compare_method ref m = true | None => True end →
  ref_resolve ref (pass_from wallet_key) = Ok sk → load_key (key_cache_new sk) enc = Ok pk → ops_ok env pk ops s →
  ∃ b w w', open_store path (Some d) method (pass_from wallet_key) None = Ok b
  ∧ acquire_key (session_world b None transaction) = (w, Ok (1%Z, pk))
  ∧ c_run env ops w = (w', (a_run sql_like env ops s).2)
  ∧ represents pk 1 (db w') (a_run sql_like env ops s).1.
Proof.
  intros Hrep Hconf Hfind Eu Hm Eres Hload Hops.
  set (b := mkBackend d (PoolOpen []) name (add_profile name 1 pk (key_cache_new sk)) path).
  assert (profile_in_store (b_db b) (key_cache b) name 1 pk) as Hin.
  { exists enc. split_and!; [exact Hfind|exact Hload|right; apply lookup_insert_eq]. }
  destruct (activate (session_world b None transaction) name transaction 1 pk eq_refl eq_refl Hin) as (w & Ew & Hw1 & Hdb & _).
  destruct (run_sim env pk 1 pk_ok nonce_12 rng_length hex_upper ops w s Hw1) as (w' & Er & _ & Hr' & _);
    [rewrite Hdb; exact Hrep|done|].
  exists b, w, w'. split_and!; [by eapply open_configured|done..].
Qed.

Lemma same_method ref : compare_method ref (method_of_ref ref) = true.
Proof. destruct ref; cbn; try done; by apply bool_decide_eq_true. Qed.

(** The last statements add the version. *)
Lemma finish_run md te tp d1 s name uri enc : represents pk 1 d1 s →
  config d1 = config (prepared_tables name uri enc) → profiles d1 = profiles (prepared_tables name uri enc) →
  ∃ d, sql_finish (moving md [] te tp d1) = Ok (migrated d, ()) ∧ represents pk 1 d s
  ∧ config d = [("default_profile", name); ("key", uri); ("version", "1")] ∧ sql_find_profile name d = Ok (d, Some (1%Z, enc)).
Proof.
  intros [[? ? ? ? ? ?] R1 R2 R3] Hc Hp. exists (set_config (config d1 ++ [("version", "1")]) d1). split_and!.
  - cbn. unfold on_store, sql_insert_config. cbn [w_store]. rewrite Hc. reflexivity.
  - split; [by split|exact R1|exact R2|exact R3].
  - cbn. by rewrite Hc.
  - unfold sql_find_profile. cbn [profiles set_config]. rewrite Hp. cbn. by rewrite String.eqb_refl.
Qed.

(** C15: A wallet whose items are encrypted with its keys and have identifiers of 32 bits without
    a sign, as the program reads them, migrated: the loop ends, the wallet's tables are gone, and the file is a store that opens with the wallet's key, by the
    method of the wallet or without naming one; a session of the wallet's profile finds
    the items, and its operations behave as those of the abstract store that has the
    wallet's items, with their values and tags, and nothing else. *)
Theorem migration_correct spec_uri name wallet_key kdf rng rngs fuel opts (o : SqliteStoreOptions) ref sk ik md mds l te tp item_of :
  (∀ n, length (rng n) = n) → (∀ z n, length (rngs z n) = n) → key_portable pk →
  parse_uri spec_uri = Ok opts → sqlite_options_new opts = Ok o →
  wallet_opens wallet_key kdf md ref sk ik → rows_hold ik item_of l te tp → (length l < fuel)%nat →
  ∃ d, migrate spec_uri name wallet_key kdf (Ok pk) rng rngs fuel
      (mkMigration (mkWallet (Some (md :: mds)) (Some l) None (Some te) (Some tp) None) [])
    = (mkMigration (migrated d) [], Ok true)
  ∧ ∀ path method transaction ops, method = None ∨ method = Some (method_of_ref ref) →
    let s := wallet_map item_of l in
    ops_ok env pk ops s →
    ∃ b w w', open_store path (Some d) method (pass_from wallet_key) None = Ok b
    ∧ acquire_key (session_world b None transaction) = (w, Ok (1%Z, pk))
    ∧ c_run env ops w = (w', (a_run sql_like env ops s).2)
    ∧ represents pk 1 (db w') (a_run sql_like env ops s).1.
Proof.
  intros Hr Hrs Hpk Eu Eo Hw Hrows Hfuel. pose proof (wo_resolves _ _ _ _ _ _ Hw) as Eres.
  assert (ref_ok ref) as Href by (destruct (wo_metadata _ _ _ _ _ _ Hw) as (? & _ & _ & E & _); by eapply reference_ok).
  destruct (prepare_run name ref sk rng (md :: mds) l te tp Hr (ref_resolve_ok _ _ _ Eres) Hpk) as (enc & Hload & Eprep).
  destruct (update_items_run nonce_12 hex_upper pk pk_ok rngs ik item_of Hrs (wo_keys _ _ _ _ _ _ Hw) (md :: mds) fuel l te tp
    _ ∅ Hfuel Hrows (prepared_represents name (ref_into_uri ref) enc)) as (d1 & te1 & tp1 & Eloop & Hrep & Hp & Hc); [done|].
  rewrite (right_id_L ∅ (∪)) in Hrep.
  destruct (finish_run (md :: mds) te1 tp1 d1 _ _ _ _ Hrep Hc Hp) as (d & Efin & Hrep' & Hconf & Hfind).
  pose proof (ref_roundtrip ref Href) as Eparse. exists d. split.
  - unfold migrate. set (m0 := mkMigration _ []). set (m1 := mkMigration (moving (md :: mds) l te tp (mkDb [] [] [] [])) []).
    rewrite (stm_bind_ok _ _ m0 m0 false) by reflexivity. rewrite (stm_bind_ok _ _ m0 m1 ()) by reflexivity.
    rewrite (stm_bind_ok _ _ m1 m1 _ (fetch_indy_key_run wallet_key kdf md mds ref sk ik l te tp _ Hw)). cbv beta iota.
    rewrite <- stm_bind_assoc, (stm_bind_ok _ _ _ _ _ Eprep), (stm_bind_ok _ _ _ _ _ Eloop). cbn [negb].
    rewrite (stm_bind_ok _ _ _ _ _ (m_exec_ok _ _ _ _ Efin)). rewrite (stm_bind_ok _ _ _ (mkMigration (migrated d) []) ()) by reflexivity.
    rewrite (stm_bind_ok _ _ _ (mkMigration (migrated d) []) ()); [done|]. unfold verify_store.
    rewrite (stm_bind_ok sget _ _ _ _ eq_refl), Eu. cbn [mbind res_bind]. rewrite Eo.
    rewrite (stm_bind_ok (lift (Ok _)) _ _ _ _ eq_refl). cbn [mg_file migrated w_store uk_key_ref].
    by rewrite (open_configured _ d name _ enc ref _ sk pk (Some (method_of_ref ref)) Hconf Hfind Eparse (same_method ref) Eres Hload).
  - intros path method transaction ops Hm s Hops. eapply migrated_session; try done.
    destruct Hm as [->| ->]; [done|apply same_method].
Qed.
End Migrated.

(** ** A migration is done once or never *)

Section Once.
Context `{HAl : Allocator} `{HH : Hmac} `{HC : AeadCipher} `{HS : StoreCodecs} `{HI : IndyCodecs} `{HU : UriCodec}.
Context `{HB : CborCodec} `{HO : IndyOrder} `{HE : SqliteEnv}.
Abbreviation M := (stm Migration StorageError.Error).

(** The tables of the store stay once they are there. *)
Definition keeps_store {A} (c : M A) : Prop :=
  ∀ m m' r, is_Some (w_store (mg_file m)) → c m = (m', r) → is_Some (w_store (mg_file m')).

Lemma keeps_store_bind {A B} (c : M A) (f : A → M B) :
  keeps_store c → (∀ a, keeps_store (f a)) → keeps_store (c ≫= f).
Proof.
  intros Hc Hf m m' r Hm. unfold mbind, stm_bind. destruct (c m) as [m1 [a|e|]] eqn:E; [|by intros [= <- _]; eapply Hc..].
  intros E2. eapply Hf; [|exact E2]. by eapply Hc.
Qed.

Lemma keeps_store_lift {A} (r : sres A) : keeps_store (lift r).
Proof. by intros m m' r' Hm [= <- _]. Qed.

Lemma keeps_store_exec {A} (f : Wallet → res string (Wallet * A)) :
  (∀ w w' a, is_Some (w_store w) → f w = Ok (w', a) → is_Some (w_store w')) → keeps_store (m_exec f).
Proof.
  intros Hf m m' r Hm. unfold m_exec. destruct (mg_faults m) as [|[msg|] fs]; [|by intros [= <- _]|];
    (destruct (f (mg_file m)) as [[w a]|msg|] eqn:E; intros [= <- _]; cbn; [by eapply Hf|done|done]).
Qed.

Lemma keeps_store_on {A} (f : Db → res string (Db * A)) : keeps_store (m_exec (on_store f)).
Proof.
  apply keeps_store_exec. intros w w' a [d Hd]. unfold on_store. rewrite Hd. destruct (f d) as [[]| |]; [|done..].
  intros [= <- _]. by eexists.
Qed.

Lemma keeps_store_same {A} (f : Wallet → res string (Wallet * A)) :
  (∀ w w' a, f w = Ok (w', a) → w_store w' = w_store w) → keeps_store (m_exec f).
Proof. intros Hf. apply keeps_store_exec. intros w w' a Hw E. by rewrite (Hf _ _ _ E). Qed.

Lemma keeps_store_ret {A} (a : A) : keeps_store (mret a).
Proof. exact (keeps_store_lift (Ok a)). Qed.

Lemma keeps_insert_tags id ts : keeps_store (m_insert_tags id ts).
Proof.
  induction ts as [|t ts IH]; [apply keeps_store_ret|]. apply keeps_store_bind; [apply keeps_store_on|done].
Qed.

Lemma keeps_insert_items us : keeps_store (insert_items us).
Proof.
  induction us as [|u us IH]; [apply keeps_store_ret|]. apply keeps_store_bind; [apply keeps_store_on|]. intros id.
  apply keeps_store_bind; [apply keeps_insert_tags|done].
Qed.

Lemma keeps_delete_old ids : keeps_store (m_exec (sql_delete_old ids)).
Proof. apply keeps_store_same. intros w w' a. unfold sql_delete_old. destruct (w_items_old w); [|done]. by intros [= <- _]. Qed.

Lemma keeps_pending n : keeps_store (m_exec (sql_pending n)).
Proof. apply keeps_store_same. intros w w' a. unfold sql_pending. repeat case_match; try done. cbn [mbind res_bind].
  destruct (mapM _ _); [|done..]. by intros [= <- _].
Qed.

Lemma keeps_metadata : keeps_store (m_exec sql_metadata).
Proof. apply keeps_store_same. intros w w' a. unfold sql_metadata. repeat case_match; try done. by intros [= <- _]. Qed.

Lemma keeps_finish : keeps_store (m_exec sql_finish).
Proof.
  apply keeps_store_exec. intros w w' a Hw. unfold sql_finish. repeat case_match; try done.
  destruct Hw as [d Hd]. unfold on_store. cbn [w_store]. rewrite Hd. destruct (sql_insert_config _ _ d) as [[]| |]; [|done..].
  intros [= <- _]. by eexists.
Qed.

Lemma keeps_close : keeps_store m_close.
Proof. apply keeps_store_same. by intros w w' a [= <- _]. Qed.

Lemma keeps_get : keeps_store sget.
Proof. by intros m m' r Hm [= <- _]. Qed.

Lemma m_exec_cases {A} (f : Wallet → res string (Wallet * A)) m : ∃ fs,
  (∃ r, m_exec f m = (mkMigration (mg_file m) fs, r) ∧ ∀ a, r ≠ Ok a)
  ∨ ∃ w a, f (mg_file m) = Ok (w, a) ∧ m_exec f m = (mkMigration w fs, Ok a).
Proof.
  unfold m_exec. destruct (mg_faults m) as [|[msg|] fs];
    [|exists fs; left; by eexists|]; (eexists; destruct (f (mg_file m)) as [[w a]|msg|]; [right; by eexists _, _|left; by eexists..]).
Qed.

Ltac keeps := repeat first
  [ apply keeps_store_ret | apply keeps_get | apply keeps_store_lift | apply keeps_store_on | apply keeps_insert_items
  | apply keeps_delete_old | apply keeps_pending | apply keeps_metadata | apply keeps_finish | apply keeps_close
  | apply keeps_store_bind; [|intros ?] ].

Lemma keeps_update_items rngs fuel ik pk : keeps_store (update_items rngs fuel ik pk).
Proof.
  induction fuel as [|fuel IH]; [apply keeps_store_ret|]. cbn [update_items]. unfold fetch_pending_items, update_items_in_db.
  apply keeps_store_bind; [keeps|]. intros [rows|]; keeps. exact IH.
Qed.

(** Everything after the wallet's table has been renamed. *)
Lemma keeps_rest spec_uri name wallet_key kdf new_key rng rngs fuel : keeps_store (
  '(indy_key, upd_key) ← fetch_indy_key wallet_key kdf;
  _ ← create_config name upd_key;
  profile_key ← init_profile name new_key rng upd_key;
  finished ← update_items rngs fuel indy_key profile_key;
  if negb finished then mret false else
  _ ← m_exec sql_finish;
  _ ← m_close;
  _ ← verify_store spec_uri wallet_key upd_key;
  mret true).
Proof.
  apply keeps_store_bind; [unfold fetch_indy_key; keeps|]. intros [ik uk]. unfold create_config.
  apply keeps_store_bind; [keeps|intros _]. apply keeps_store_bind.
  { unfold init_profile. apply keeps_store_bind; [keeps|]. intros [row|]; keeps. }
  intros pk. apply keeps_store_bind; [apply keeps_update_items|]. intros []; cbn [negb]; keeps.
Qed.

(** Nothing changes before the first step that does. *)
Lemma m_exec_same {A B} (f : Wallet → res string (Wallet * A)) (k : A → M B) m m1 r :
  (∀ w a, f (mg_file m) = Ok (w, a) → w = mg_file m) → (m_exec f ≫= k) m = (m1, r) →
  mg_file m1 = mg_file m ∨ ∃ a fs, f (mg_file m) = Ok (mg_file m, a) ∧ k a (mkMigration (mg_file m) fs) = (m1, r).
Proof.
  intros Hf E. destruct (m_exec_cases f m) as (fs & [(r1 & E1 & Hr1)|(w & a & Ef & E1)]).
  - left. unfold mbind, stm_bind in E. rewrite E1 in E. destruct r1; [by destruct (Hr1 a)| |]; by injection E as <- _.
  - right. rewrite (stm_bind_ok _ _ _ _ _ E1) in E. pose proof (Hf _ _ Ef) as ->. by exists a, fs.
Qed.

Lemma changed_store spec_uri name wallet_key kdf new_key rng rngs fuel m m1 r :
  migrate spec_uri name wallet_key kdf new_key rng rngs fuel m = (m1, r) → mg_file m1 ≠ mg_file m →
  is_Some (w_store (mg_file m1)).
Proof.
  intros E Hne. unfold migrate in E.
  apply m_exec_same in E as [?|(a & fs & _ & E)]; [done| |unfold sql_is_migrated; by intros w b [= <- _]].
  destruct a.
  { apply m_exec_same in E as [?|(b & fs2 & _ & E)]; [done|by injection E as <- _|by intros w b [= <- _]]. }
  destruct (m_exec_cases sql_pre_upgrade (mkMigration (mg_file m) fs)) as (fs2 & [(r1 & E2 & Hr1)|(w & a & Ef & E2)]).
  - unfold mbind at 1, stm_bind at 1 in E. rewrite E2 in E. destruct r1; [by destruct (Hr1 a)| |]; by injection E as <- _.
  - rewrite (stm_bind_ok _ _ _ _ _ E2) in E. eapply keeps_rest; [|exact E]. cbn in Ef |- *. unfold sql_pre_upgrade in Ef.
    repeat case_match; try done. injection Ef as <- _. by eexists.
Qed.

(** What a file with the tables of a store answers. *)
Lemma m_exec_err {A} (f : Wallet → res string (Wallet * A)) m msg : f (mg_file m) = Err msg →
  ∃ fs e, m_exec f m = (mkMigration (mg_file m) fs, Err e).
Proof. intros Ef. unfold m_exec. rewrite Ef. destruct (mg_faults m) as [|[]]; by eexists _, _. Qed.

Lemma m_exec_query {A} (f : Wallet → res string (Wallet * A)) m a : f (mg_file m) = Ok (mg_file m, a) →
  ∃ fs, m_exec f m = (mkMigration (mg_file m) fs, Ok a) ∨ ∃ e, m_exec f m = (mkMigration (mg_file m) fs, Err e).
Proof. intros Ef. unfold m_exec. rewrite Ef. destruct (mg_faults m) as [|[]]; eexists; [by left|right; by eexists|by left]. Qed.

(** A migration that has changed the file, whether it failed then or not, is the last one:
    every later attempt, with whatever arguments, fails and leaves the file as it is.  So a
    migration that fails after its first step leaves a file that is neither a wallet nor a
    store. *)
Theorem migration_once spec_uri name wallet_key kdf new_key rng rngs fuel m m1 r :
  migrate spec_uri name wallet_key kdf new_key rng rngs fuel m = (m1, r) → mg_file m1 ≠ mg_file m →
  ∀ spec_uri' name' wallet_key' kdf' new_key' rng' rngs' fuel' faults,
  ∃ fs e, migrate spec_uri' name' wallet_key' kdf' new_key' rng' rngs' fuel' (mkMigration (mg_file m1) faults)
    = (mkMigration (mg_file m1) fs, Err e).
Proof.
  intros E Hne spec_uri' name' wallet_key' kdf' new_key' rng' rngs' fuel' faults.
  destruct (changed_store _ _ _ _ _ _ _ _ _ _ _ E Hne) as [d Hd]. unfold migrate.
  destruct (m_exec_query sql_is_migrated (mkMigration (mg_file m1) faults) _ eq_refl) as (fs & [E1|[e E1]]);
    [|rewrite (stm_bind_err _ _ _ _ _ E1); by eexists _, _].
  rewrite (stm_bind_ok _ _ _ _ _ E1). cbn [mg_file]. destruct (w_metadata (mg_file m1)).
  - destruct (m_exec_err sql_pre_upgrade (mkMigration (mg_file m1) fs) "table config already exists") as (fs2 & e & E2).
    { unfold sql_pre_upgrade. cbn. by rewrite Hd. }
    rewrite (stm_bind_err _ _ _ _ _ E2). by eexists _, _.
  - destruct (m_exec_query (λ w, Ok (w, ())) (mkMigration (mg_file m1) fs) () eq_refl) as (fs2 & [E2|[e E2]]).
    + rewrite (stm_bind_ok m_close _ _ _ _ E2). by eexists _, _.
    + rewrite (stm_bind_err m_close _ _ _ _ E2). by eexists _, _.
Qed.
End Once.


(** ** A wallet with one item *)

Definition toy_order : IndyOrder := {| indy_order l := l; indy_order_perm l := Permutation_refl l |}.

Definition toy_chacha (c : byte) : Chacha20Key := mkChacha (replicate 32 c).
Definition toy_merge (k : Chacha20Key) (m : bytes) : bytes :=
  replicate 12 x02 ++ @chacha_sealed toy_cipher k (replicate 12 x02) [] m.

Definition toy_indy_key : IndyKey :=
  mkIndyKey (toy_chacha x01) (toy_chacha x02) (toy_chacha x03) (mkHmacKey []) (toy_chacha x04) (toy_chacha x05) (mkHmacKey []).

(** The keys in the metadata are wrapped by the key of the examples. *)
Definition toy_indy_codecs : IndyCodecs := {|
  metadata_from_str s := Ok (mkMetadata (toy_merge (mkChacha (resize 32 x00 (as_bytes "pass" ++ toy_rng 16))) (as_bytes s)) (Some (toy_rng 32)));
  indy_key_from_slice b := if bool_decide (b = as_bytes "{}") then Ok toy_indy_key else Err "invalid type";
  hex_error_text _ := "Invalid character";
  id_error_text _ := "out of range integral type conversion attempted" |}.

Definition toy_item : WalletItem := mkWalletItem "type" "name" [x09] [("a", "1")] [("b", "2")].
Definition toy_item_row : IndyItem :=
  mkIndyItem 7 (toy_merge (toy_chacha x01) (as_bytes "type")) (toy_merge (toy_chacha x02) (as_bytes "name"))
    (Some (toy_merge (toy_chacha x08) [x09])) (toy_merge (toy_chacha x03) (replicate 32 x08)).
Definition toy_tags_encrypted : list IndyTag :=
  [mkIndyTag (toy_merge (toy_chacha x04) (as_bytes "a")) (toy_merge (toy_chacha x05) (as_bytes "1")) 7].
Definition toy_tags_plaintext : list IndyTag := [mkIndyTag (toy_merge (toy_chacha x04) (as_bytes "b")) (as_bytes "2") 7].

Definition toy_wallet : Wallet :=
  mkWallet (Some [as_bytes "{}"]) (Some [toy_item_row]) None (Some toy_tags_encrypted) (Some toy_tags_plaintext) None.

Lemma toy_merged k m : (length m ≤ 1000)%nat → @merged toy_cipher toy_cipher_laws k (toy_merge k m) m.
Proof. intros Hm. exists (replicate 12 x02). by split_and!. Qed.

Lemma toy_wallet_opens : @wallet_opens demo_allocator toy_cipher toy_codecs demo_codec toy_indy_codecs "pass"
  (IndyArgon2i Level.Interactive) (as_bytes "{}") toy_reference toy_store_key toy_indy_key.
Proof.
  split.
  - eexists. split; [reflexivity|]. split; [by intros s [= <-]; cbn; lia|]. split; [vm_compute; reflexivity|].
    eexists. split; [vm_compute; reflexivity|vm_compute; reflexivity].
  - vm_compute. reflexivity.
  - by split_and!.
Qed.

Lemma toy_rows_hold : @rows_hold toy_cipher toy_cipher_laws toy_indy_key (λ _, toy_item) [toy_item_row] toy_tags_encrypted toy_tags_plaintext.
Proof.
  split_and!; [apply NoDup_singleton|apply NoDup_singleton|]. constructor; [|constructor]. split; [done|split].
  - split_and!; [by apply toy_merged; cbn; lia|by apply toy_merged; cbn; lia| | |].
    + exists (replicate 32 x08), (toy_merge (toy_chacha x08) [x09]).
      split_and!; [by apply toy_merged; cbn; lia|done|done|by apply toy_merged; cbn; lia].
    + constructor; [|constructor]. split; by apply toy_merged; cbn; lia.
    + constructor; [|constructor]. split; [by apply toy_merged; cbn; lia|done].
  - split_and!; [repeat split; vm_compute; lia|vm_compute; lia|repeat constructor|repeat constructor; vm_compute; lia].
Qed.

Definition toy_uri_options : Options := mkOptions "" "" "" "" "/tmp/wallet.db" ∅ "".

(** Migrated, the store has the item with its tags. *)
Lemma migration_correct_witness :
  ∃ d, @migrate demo_allocator toy_hmac toy_cipher toy_codecs toy_indy_codecs demo_codec toy_cbor toy_order toy_sqlite_env
      "/tmp/wallet.db" "alice" "pass" (IndyArgon2i Level.Interactive) (Ok toy_profile_key) toy_rng (λ _, toy_rng) 2
      (mkMigration toy_wallet []) = (mkMigration (migrated d) [], Ok true)
    ∧ ∃ b w w', @open_store demo_allocator toy_cipher toy_codecs demo_codec toy_cbor "/tmp/wallet.db" (Some d) None (pass_from "pass") None = Ok b
    ∧ @acquire_key demo_allocator toy_cipher toy_cbor (session_world b None false) = (w, Ok (1%Z, toy_profile_key))
    ∧ @c_run demo_allocator toy_hmac toy_cipher toy_codecs toy_cbor toy_engine toy_env [OpFetch EntryKind.Item "type" "name" false] w
      = (w', [Ok (REntry (Some (entry_new EntryKind.Item "type" "name" [x09] [EntryTag.Encrypted "a" "1"; EntryTag.Plaintext "b" "2"])))]).
Proof.
  destruct (@sqlite_options_new toy_sqlite_env toy_uri_options) as [o|e|] eqn:Eo; [|discriminate Eo|discriminate Eo].
  destruct (@migration_correct demo_allocator toy_hmac toy_cipher toy_cipher_laws toy_derivation toy_codecs toy_codecs_laws
    demo_codec demo_codec_laws toy_cbor toy_engine toy_indy_codecs toy_order toy_sqlite_env toy_env toy_profile_key ltac:(repeat split)
    eq_refl toy_rng_length toy_hex_upper "/tmp/wallet.db" "alice" "pass" (IndyArgon2i Level.Interactive) toy_rng (λ _, toy_rng) 2
    toy_uri_options o toy_reference toy_store_key toy_indy_key (as_bytes "{}") [] [toy_item_row]
    toy_tags_encrypted toy_tags_plaintext (λ _, toy_item)) as (d & E & Hs).
  - exact toy_rng_length.
  - intros _. exact toy_rng_length.
  - exact toy_key_portable.
  - vm_compute. reflexivity.
  - exact Eo.
  - exact toy_wallet_opens.
  - exact toy_rows_hold.
  - cbn. lia.
  - exists d. split; [exact E|].
    destruct (Hs "/tmp/wallet.db" None false [OpFetch EntryKind.Item "type" "name" false]) as (b & w & w' & E1 & E2 & E3 & _).
    + by left.
    + split; [|done]. repeat split; vm_compute; lia.
    + exists b, w, w'. split_and!; [exact E1|exact E2|]. rewrite E3. reflexivity.
Defined.

(** An identifier that is not a [u32] is where the migration stops, after the file has been
    changed: as above, it cannot be taken up again. *)
Definition toy_wide_wallet : Wallet :=
  let row := mkIndyItem (2 ^ 32) (ii_type toy_item_row) (ii_name toy_item_row) (ii_value toy_item_row) (ii_key toy_item_row) in
  mkWallet (Some [as_bytes "{}"]) (Some [row]) None (Some []) (Some []) None.

Example wide_id_refused :
  let '(m, r) := @migrate demo_allocator toy_hmac toy_cipher toy_codecs toy_indy_codecs demo_codec toy_cbor toy_order toy_sqlite_env
    "/tmp/wallet.db" "alice" "pass" (IndyArgon2i Level.Interactive) (Ok toy_profile_key) toy_rng (λ _, toy_rng) 2
    (mkMigration toy_wide_wallet []) in
  r = Err (StorageError.from_sqlx "out of range integral type conversion attempted")
  ∧ w_items (mg_file m) = None ∧ is_Some (w_store (mg_file m)).
Proof. vm_compute. split_and!; [done|done|by eexists]. Qed.

(** A migration that is cut short after the profile has been created. *)
Definition toy_stuck : Migration :=
  (@migrate demo_allocator toy_hmac toy_cipher toy_codecs toy_indy_codecs demo_codec toy_cbor toy_order toy_sqlite_env
    "/tmp/wallet.db" "alice" "pass" (IndyArgon2i Level.Interactive) (Ok toy_profile_key) toy_rng (λ _, toy_rng) 2
    (mkMigration toy_wallet (replicate 7 None ++ [Some "disk I/O error"]))).1.

Lemma migration_once_witness : ∃ fs e,
  @migrate demo_allocator toy_hmac toy_cipher toy_codecs toy_indy_codecs demo_codec toy_cbor toy_order toy_sqlite_env
    "/tmp/wallet.db" "alice" "pass" (IndyArgon2i Level.Interactive) (Ok toy_profile_key) toy_rng (λ _, toy_rng) 2
    (mkMigration (mg_file toy_stuck) []) = (mkMigration (mg_file toy_stuck) fs, Err e)
  ∧ w_items_old (mg_file toy_stuck) = Some [toy_item_row].
Proof.
  destruct (@migration_once demo_allocator toy_hmac toy_cipher toy_codecs toy_indy_codecs demo_codec toy_cbor toy_order toy_sqlite_env
    "/tmp/wallet.db" "alice" "pass" (IndyArgon2i Level.Interactive) (Ok toy_profile_key) toy_rng (λ _, toy_rng) 2
    (mkMigration toy_wallet (replicate 7 None ++ [Some "disk I/O error"])) toy_stuck
    (@migrate demo_allocator toy_hmac toy_cipher toy_codecs toy_indy_codecs demo_codec toy_cbor toy_order toy_sqlite_env
    "/tmp/wallet.db" "alice" "pass" (IndyArgon2i Level.Interactive) (Ok toy_profile_key) toy_rng (λ _, toy_rng) 2
    (mkMigration toy_wallet (replicate 7 None ++ [Some "disk I/O error"]))).2)
    with (spec_uri' := "/tmp/wallet.db") (name' := "alice") (wallet_key' := "pass") (kdf' := IndyArgon2i Level.Interactive)
    (new_key' := (Ok toy_profile_key : sres ProfileKey)) (rng' := toy_rng) (rngs' := λ _ : Z, toy_rng) (fuel' := 2) (faults := @nil (option string)) as (fs & e & E).
  - unfold toy_stuck. by destruct (migrate _ _ _ _ _ _ _ _ _).
  - vm_compute. discriminate.
  - exists fs, e. split; [exact E|vm_compute; reflexivity].
Defined.
