(* ===== verification/FfiTags.v ===== *)
(** * Tags as JSON objects

    Models src/ffi/tags.rs: the tags of an entry as callers of the foreign function
    interface write and read them.  The text of JSON is the business of [serde_json], a
    parameter: what is modelled is the visitor it calls and the members it is given. *)

From stdpp Require Import sorting.
From S2P Require Import Prelude Errors Wql Entry.
Local Open Scope string_scope.
Local Open Scope list_scope.

(** ** Reading *)

Inductive EntryTagValues : Type :=
| Single (value : string)
| Multiple (values : list string).

(** What stops the reading of tags. *)
Inductive TagErr : Set :=
| KeyNotBorrowed
| EmptyTagName
| InvalidTagValue
| InvalidTagElement.

(** The key of a member: a slice of the text, or, where the text has escapes, a copy. *)
Inductive MapKey : Set :=
| Borrowed (key : string)
| Unescaped (key : string).

(** [<&str>::deserialize] takes a slice of the text only. *)
Definition as_borrowed (k : MapKey) : res TagErr string :=
  match k with Borrowed s => Ok s | Unescaped _ => Err KeyNotBorrowed end.

(** [String::deserialize]. *)
Definition as_element (v : JsonValue) : res TagErr string :=
  match v with JString s => Ok s | _ => Err InvalidTagElement end.

(** [Deserialize for EntryTagValues]. *)
Definition tag_values (v : JsonValue) : res TagErr EntryTagValues :=
  match v with
  | JString s => Ok (Single s)
  | JArray l => Multiple <$> mapM as_element l
  | _ => Err InvalidTagValue
  end.

(** A leading tilde marks a plaintext tag. *)
Definition split_key (key : string) : res TagErr (string * bool) :=
  match key with
  | EmptyString => Err EmptyTagName
  | String c rest => if Ascii.eqb c "~"%char then Ok (rest, false) else Ok (key, true)
  end.

Definition make_tag (k : string * bool) (value : string) : EntryTag :=
  if k.2 then EntryTag.Encrypted k.1 value else EntryTag.Plaintext k.1 value.

(** [visit_map] of the visitor: the members in the order of the text. *)
Fixpoint visit_tags (access : list (MapKey * JsonValue)) : res TagErr (list EntryTag) :=
  match access with
  | [] => Ok []
  | (key, value) :: access =>
      key ← as_borrowed key;
      values ← tag_values value;
      k ← split_key key;
      v ← visit_tags access;
      mret (match values with
            | Single value => [make_tag k value]
            | Multiple values => List.map (make_tag k) values
            end ++ v)
  end.

(** ** Writing *)

(** [TagName]: a name and whether the tag is encrypted, in the derived order. *)
Definition tag_name_of (t : EntryTag) : string * bool :=
  match t with EntryTag.Encrypted n _ => (n, true) | EntryTag.Plaintext n _ => (n, false) end.

Definition tag_name_cmp (a b : string * bool) : comparison :=
  EntryTag.then_cmp (bytes_compare (as_bytes a.1) (as_bytes b.1))
    (Nat.compare (if a.2 then 1 else 0) (if b.2 then 1 else 0)).

(** [Serialize for TagName]. *)
Definition tag_name_text (k : string * bool) : string := if k.2 then k.1 else "~" +:+ k.1.

(** [tags.entry(name).or_insert_with(Vec::new).push(value)] on a map in the order of its keys. *)
Fixpoint entry_push (name : string * bool) (value : string) (tags : list ((string * bool) * list string))
    : list ((string * bool) * list string) :=
  match tags with
  | [] => [(name, [value])]
  | (n, vs) :: tags' =>
      match tag_name_cmp name n with
      | Datatypes.Lt => (name, [value]) :: tags
      | Datatypes.Eq => (n, vs ++ [value]) :: tags'
      | Datatypes.Gt => (n, vs) :: entry_push name value tags'
      end
  end.

Definition group_tags (tags : list EntryTag) : list ((string * bool) * list string) :=
  foldl (λ m t, entry_push (tag_name_of t) (EntryTag.value t) m) [] tags.

(** [&values[0]] panics on an empty list. *)
Definition serialize_group (g : (string * bool) * list string) : res TagErr (string * EntryTagValues) :=
  if (1 <? length g.2)%nat then Ok (tag_name_text g.1, Multiple g.2)
  else value ← unwrap (g.2 !! 0); mret (tag_name_text g.1, Single value).

(** [Serialize for EntryTagSet]: the members of the object. *)
Definition serialize_tags (tags : list EntryTag) : res TagErr (list (string * EntryTagValues)) :=
  mapM serialize_group (group_tags tags).

(** ** The text *)

(** The bytes that a JSON string escapes. *)
Definition json_escaped (c : byte) : bool :=
  (byte_val c <? 32)%N || bool_decide (c = x22) || bool_decide (c = x5c).

Definition key_escaped (k : string) : bool := existsb json_escaped (as_bytes k).

(** A key in the text as the reader hands it on. *)
Definition map_key (k : string) : MapKey := if key_escaped k then Unescaped k else Borrowed k.

Definition values_json (v : EntryTagValues) : JsonValue :=
  match v with Single s => JString s | Multiple l => JArray (List.map JString l) end.

(** [serde_json] on objects: members are read back in the order they were written. *)
Class SerdeTags := {
  tags_text : list (string * EntryTagValues) → string;
  tags_members : string → res string (list (MapKey * JsonValue));
  tag_err_text : TagErr → string;
  tags_members_text l : tags_members (tags_text l) = Ok (List.map (λ kv, (map_key kv.1, values_json kv.2)) l);
  (** Zero bytes are written as escapes. *)
  tags_text_nonzero l : x00 ∉ as_bytes (tags_text l);
}.

(** [serde_json::to_vec(&EntryTagSet::from(tags)).unwrap()]. *)
Definition tags_to_json `{SerdeTags} {E} (tags : list EntryTag) : res E string :=
  match serialize_tags tags with Ok l => Ok (tags_text l) | _ => Panic end.

(** [serde_json::from_str::<EntryTagSet>(tags).map_err(err_map!("Error decoding tags"))?.into_vec()]. *)
Definition tags_from_json `{SerdeTags} (text : string) : res AskarError.Error (list EntryTag) :=
  map_err (λ c, AskarError.mkError AskarError.Input (Some c) (Some "Error decoding tags"))
    (ms ← tags_members text; map_err tag_err_text (visit_tags ms)).

(** ** Lemmas on names *)

Lemma tag_name_order : order_cmp tag_name_cmp.
Proof.
  apply order_then; [exact (order_by (λ k : string * bool, as_bytes k.1) _ order_bytes)|].
  exact (order_by (λ k : string * bool, if k.2 then 1 else 0) _ order_nat).
Qed.

Lemma tag_name_cmp_eq a b : tag_name_cmp a b = Datatypes.Eq ↔ a = b.
Proof.
  destruct a as [n x], b as [n' x']. unfold tag_name_cmp, EntryTag.then_cmp. cbn [fst snd].
  destruct (bytes_compare (as_bytes n) (as_bytes n')) eqn:E.
  - apply bytes_compare_eq, as_bytes_inj in E as ->. destruct x, x'; cbn; naive_solver.
  - split; [done|]. intros [= -> _]. by rewrite bytes_compare_refl in E.
  - split; [done|]. intros [= -> _]. by rewrite bytes_compare_refl in E.
Qed.

Definition tag_name_lt (a b : string * bool) : Prop := tag_name_cmp a b = Datatypes.Lt.

Lemma tag_name_lt_trans a b c : tag_name_lt a b → tag_name_lt b c → tag_name_lt a c.
Proof.
  unfold tag_name_lt. intros H1 H2. destruct (cmp_trans _ tag_name_order a b c) as [H H']; [congruence..|].
  destruct (tag_name_cmp a c); [|done|done]. naive_solver congruence.
Qed.

Lemma make_tag_of t : make_tag (tag_name_of t) (EntryTag.value t) = t.
Proof. by destruct t. Qed.
Lemma tag_name_make k v : tag_name_of (make_tag k v) = k.
Proof. by destruct k as [n []]. Qed.

(** ** Lemmas on grouping *)

(** The tags a map of groups holds, in order. *)
Definition ungroup (m : list ((string * bool) * list string)) : list EntryTag :=
  List.flat_map (λ g, List.map (make_tag g.1) g.2) m.

(** The tags of one name, in order. *)
Definition tags_named (k : string * bool) (l : list EntryTag) : list EntryTag := filter (λ t, tag_name_of t = k) l.

Definition groups_wf (m : list ((string * bool) * list string)) : Prop :=
  StronglySorted tag_name_lt m.*1 ∧ Forall (λ g, g.2 ≠ []) m.

Lemma entry_push_perm name value m : ungroup (entry_push name value m) ≡ₚ make_tag name value :: ungroup m.
Proof.
  induction m as [|[n vs] m IH]; [done|]. cbn [entry_push].
  destruct (tag_name_cmp name n) eqn:E; cbn [ungroup List.flat_map fst snd].
  - apply tag_name_cmp_eq in E as ->. rewrite List.map_app, <- app_assoc. cbn [List.map app]. by rewrite <- Permutation_middle.
  - done.
  - fold (ungroup (entry_push name value m)) (ungroup m). by rewrite IH, <- Permutation_middle.
Qed.

Lemma entry_push_keys name value m k : k ∈ (entry_push name value m).*1 ↔ k = name ∨ k ∈ m.*1.
Proof.
  induction m as [|[n vs] m IH]; cbn [entry_push]; [set_solver|].
  destruct (tag_name_cmp name n) eqn:E; [apply tag_name_cmp_eq in E as ->|..]; cbn [fmap list_fmap fst] in *;
    rewrite ?elem_of_cons in *; naive_solver.
Qed.

Lemma entry_push_wf name value m : groups_wf m → groups_wf (entry_push name value m).
Proof.
  induction m as [|[n vs] m IH]; intros [Hs Hf]; cbn [entry_push].
  { split; [repeat constructor|by repeat constructor]. }
  apply Forall_cons in Hf as [Hv Hf]. cbn [fmap list_fmap fst] in Hs. apply StronglySorted_inv in Hs as [Hs Ha].
  destruct (tag_name_cmp name n) eqn:E; split; cbn [fmap list_fmap fst snd].
  - by constructor.
  - constructor; [|done]. cbn. by destruct vs.
  - constructor; [by constructor|]. constructor; [done|]. eapply Forall_impl; [exact Ha|].
    intros k Hk. by eapply tag_name_lt_trans.
  - by repeat constructor.
  - destruct (IH (conj Hs Hf)) as [Hs' _]. constructor; [done|].
    apply Forall_forall. intros k [->|Hk]%entry_push_keys.
    + unfold tag_name_lt. by rewrite (cmp_antisym _ tag_name_order), E.
    + by eapply Forall_forall in Ha.
  - constructor; [done|]. by apply IH.
Qed.

Lemma tags_named_group k n vs : tags_named k (List.map (make_tag n) vs) = if decide (n = k) then List.map (make_tag n) vs else [].
Proof.
  unfold tags_named. induction vs as [|v vs IH]; cbn [List.map]; [by destruct (decide _)|].
  rewrite filter_cons, tag_name_make, IH. by destruct (decide (n = k)).
Qed.

Lemma tags_named_absent k m : k ∉ m.*1 → tags_named k (ungroup m) = [].
Proof.
  induction m as [|[n vs] m IH]; [done|]. cbn [ungroup List.flat_map fst snd fmap list_fmap].
  intros [Hn Hk]%not_elem_of_cons. unfold tags_named in *. rewrite filter_app.
  fold (tags_named k (List.map (make_tag n) vs)). rewrite tags_named_group, decide_False by congruence. by apply IH.
Qed.

Lemma entry_push_named k name value m : groups_wf m →
  tags_named k (ungroup (entry_push name value m))
  = tags_named k (ungroup m) ++ (if decide (name = k) then [make_tag name value] else []).
Proof.
  assert (Happ : ∀ l l', tags_named k (l ++ l') = tags_named k l ++ tags_named k l') by (intros; apply filter_app).
  assert (H1 : tags_named k [make_tag name value] = if decide (name = k) then [make_tag name value] else [])
    by exact (tags_named_group k name [value]).
  induction m as [|[n vs] m IH]; intros [Hs Hf]; cbn [entry_push]; [exact H1|].
  apply Forall_cons in Hf as [Hv Hf]. cbn [fmap list_fmap fst] in Hs. apply StronglySorted_inv in Hs as [Hs Ha].
  assert (Hlater : ∀ n', tag_name_lt n' n ∨ n' = n → n' ∉ m.*1).
  { intros n' Hn' Hin. eapply Forall_forall in Ha; [|exact Hin].
    assert (tag_name_lt n' n') as Hx by (destruct Hn' as [Hn'| ->]; [by eapply tag_name_lt_trans|done]).
    unfold tag_name_lt in Hx. by rewrite (proj2 (tag_name_cmp_eq _ _) eq_refl) in Hx. }
  destruct (tag_name_cmp name n) eqn:E; cbn [ungroup List.flat_map fst snd]; fold (ungroup m).
  - apply tag_name_cmp_eq in E as ->. rewrite List.map_app, !Happ. cbn [List.map]. rewrite H1.
    destruct (decide (n = k)) as [<-|]; [|by rewrite !app_nil_r].
    by rewrite (tags_named_absent n m), !app_nil_r by auto.
  - rewrite !Happ. cbn [List.map]. rewrite H1.
    destruct (decide (name = k)) as [<-|]; [|by rewrite !app_nil_r].
    assert (name ≠ n) by (intros ->; by rewrite (proj2 (tag_name_cmp_eq _ _) eq_refl) in E).
    rewrite tags_named_group, decide_False, tags_named_absent by auto. done.
  - fold (ungroup (entry_push name value m)). rewrite !Happ, IH by done. by rewrite app_assoc.
Qed.

(** Grouping sorts the tags by name and keeps those of one name in order. *)
Lemma group_tags_spec tags :
  groups_wf (group_tags tags)
  ∧ ungroup (group_tags tags) ≡ₚ tags
  ∧ ∀ k, tags_named k (ungroup (group_tags tags)) = tags_named k tags.
Proof.
  unfold group_tags. induction tags as [|t tags (Hw & Hp & Hn)] using rev_ind.
  { split_and!; [split; constructor|done|done]. }
  rewrite foldl_snoc. split_and!; [by apply entry_push_wf| |].
  - by rewrite entry_push_perm, make_tag_of, Hp, Permutation_app_comm.
  - intros k. rewrite entry_push_named, Hn, make_tag_of by done. unfold tags_named. rewrite filter_app. f_equal.
Qed.

(** ** Reading back what was written *)

(** A name whose key in the object is read as that name: it needs no escapes and, for an
    encrypted tag, is neither empty nor taken for that of a plaintext tag. *)
Definition name_readable (k : string * bool) : bool :=
  negb (key_escaped k.1)
  && (negb k.2 || match k.1 with EmptyString => false | String c _ => negb (Ascii.eqb c "~"%char) end).

Definition group_member (g : (string * bool) * list string) : string * EntryTagValues :=
  (tag_name_text g.1, match g.2 with [value] => Single value | values => Multiple values end).

Lemma serialize_tags_ok tags : serialize_tags tags = Ok (List.map group_member (group_tags tags)).
Proof.
  apply mapM_ok. eapply Forall_impl; [apply group_tags_spec|].
  intros [k [|v [|v' vs]]] Hv; done.
Qed.

Lemma tilde_escaped n : key_escaped ("~" +:+ n) = key_escaped n.
Proof. reflexivity. Qed.

Lemma text_escaped k : key_escaped (tag_name_text k) = key_escaped k.1.
Proof. destruct k as [n []]; [done|apply tilde_escaped]. Qed.

Lemma split_key_text k : name_readable k = true → split_key (tag_name_text k) = Ok k.
Proof.
  destruct k as [n []]; [|by intros _]. unfold name_readable. cbn [fst snd negb orb tag_name_text].
  destruct n as [|c n]; [by rewrite andb_false_r|]. intros [_ Hc]%andb_true_iff. cbn [split_key].
  by destruct (Ascii.eqb c "~"%char).
Qed.

Lemma elements_json l : mapM as_element (List.map JString l) = Ok l.
Proof. induction l as [|s l IH]; [done|]. cbn [List.map]. by rewrite mapM_cons, IH. Qed.

Lemma tag_values_json v : tag_values (values_json v) = Ok v.
Proof. destruct v as [s|l]; [done|]. cbn [values_json tag_values]. by rewrite elements_json. Qed.

Lemma visit_groups m : Forall (λ g, name_readable g.1 = true) m →
  visit_tags (List.map (λ kv, (map_key kv.1, values_json kv.2)) (List.map group_member m)) = Ok (ungroup m).
Proof.
  induction 1 as [|[k vs] m Hk _ IH]; [done|]. cbn [List.map visit_tags group_member fst snd].
  assert (map_key (tag_name_text k) = Borrowed (tag_name_text k)) as ->.
  { unfold map_key. rewrite text_escaped. apply andb_true_iff in Hk as [Hk _].
    cbn [fst] in Hk. by destruct (key_escaped k.1). }
  cbn [as_borrowed]. run_bind. rewrite tag_values_json. run_bind. rewrite split_key_text by done. run_bind.
  rewrite IH. by destruct vs as [|v [|v' vs]].
Qed.

Lemma visit_unescaped access l : visit_tags access = Ok l → Forall (λ kv, ∃ s, kv.1 = Borrowed s) access.
Proof.
  revert l. induction access as [|[k v] access IH]; intros l H; [done|]. cbn [visit_tags] in H.
  destruct k as [s|s]; [|done]. cbn [as_borrowed] in H. bind_inv H. bind_inv H. bind_inv H. bind_inv H.
  constructor; [by exists s|]. by eapply IH.
Qed.

Lemma visit_no_panic access : visit_tags access ≠ Panic.
Proof.
  induction access as [|[[s|s] v] access IH]; [done| |done]. cbn [visit_tags as_borrowed]. run_bind.
  assert (tag_values v ≠ Panic) as Hv.
  { destruct v as [| | | |l|]; cbn [tag_values]; try done.
    assert (mapM as_element l ≠ Panic) as Hl; [|by destruct (mapM as_element l)].
    induction l as [|x l IHl]; [done|]. rewrite mapM_cons. destruct x; try done. cbn [as_element]. run_bind.
    by destruct (mapM as_element l). }
  destruct (tag_values v); [|done|done]. run_bind.
  assert (split_key s ≠ Panic) as Hk by (by destruct s as [|c s]; [|cbn; destruct (Ascii.eqb c _)]).
  destruct (split_key s); [|done|done]. run_bind. by destruct (visit_tags access).
Qed.

Definition tag_name_le (a b : EntryTag) : Prop := tag_name_cmp (tag_name_of a) (tag_name_of b) ≠ Datatypes.Gt.

Lemma ungroup_sorted m : groups_wf m → StronglySorted tag_name_le (ungroup m).
Proof.
  induction m as [|[k vs] m IH]; intros [Hs Hf]; [constructor|].
  cbn [fmap list_fmap fst] in Hs. apply StronglySorted_inv in Hs as [Hs Ha]. apply Forall_cons in Hf as [_ Hf].
  specialize (IH (conj Hs Hf)). cbn [ungroup List.flat_map fst snd]. fold (ungroup m).
  assert (Hle : ∀ v t, t ∈ ungroup m → tag_name_le (make_tag k v) t).
  { intros v t Ht. apply list_elem_of_In, List.in_flat_map in Ht as (g & Hg & Ht).
    apply List.in_map_iff in Ht as (v' & <- & _). unfold tag_name_le. rewrite !tag_name_make.
    rewrite Forall_forall in Ha. assert (tag_name_lt k g.1) as Hlt.
    { apply Ha. apply list_elem_of_fmap. exists g. split; [done|]. by apply list_elem_of_In. }
    unfold tag_name_lt in Hlt. congruence. }
  induction vs as [|v vs IHv]; [done|]. cbn [List.map app]. constructor; [exact IHv|].
  apply Forall_forall. intros t [Ht|Ht]%elem_of_app; [|by apply Hle].
  apply list_elem_of_In, List.in_map_iff in Ht as (v' & <- & _). unfold tag_name_le. rewrite !tag_name_make.
  by rewrite (proj2 (tag_name_cmp_eq _ _) eq_refl).
Qed.

Section RoundTrip.
Context `{SerdeTags}.

Lemma tags_from_to_json tags : ∃ text, @tags_to_json _ AskarError.Error tags = Ok text
  ∧ tags_from_json text
    = map_err (λ c, AskarError.mkError AskarError.Input (Some c) (Some "Error decoding tags"))
        (map_err tag_err_text
          (visit_tags (List.map (λ kv, (map_key kv.1, values_json kv.2)) (List.map group_member (group_tags tags))))).
Proof.
  unfold tags_to_json. rewrite serialize_tags_ok. eexists. split; [done|].
  unfold tags_from_json. by rewrite tags_members_text.
Qed.

(** The name of a group is that of a tag. *)
Lemma group_names tags g : g ∈ group_tags tags → ∃ t, t ∈ tags ∧ tag_name_of t = g.1.
Proof.
  destruct (group_tags_spec tags) as ([_ Hw] & Hp & _). destruct g as [k [|v vs]]; intros Hg.
  { by eapply (proj1 (Forall_forall _ _)) in Hg; [|exact Hw]. }
  exists (make_tag k v). rewrite tag_name_make. split; [|done]. rewrite <- Hp.
  apply list_elem_of_In, List.in_flat_map. exists (k, v :: vs). split; [by apply list_elem_of_In|by left].
Qed.

Lemma tags_read_back tags text : @tags_to_json _ AskarError.Error tags = Ok text →
  Forall (λ t, name_readable (tag_name_of t) = true) tags →
  tags_from_json text = Ok (ungroup (group_tags tags)).
Proof.
  intros E Hr. destruct (tags_from_to_json tags) as (text' & E' & D). rewrite E in E'. injection E' as <-.
  rewrite D, visit_groups; [done|]. apply Forall_forall. intros g (t & Ht & <-)%group_names.
  by eapply (proj1 (Forall_forall _ _)) in Ht; [|exact Hr].
Qed.

(** C34: Tags written as JSON and read back: writing never fails; where every name can stand
    as a key, the tags read are those written, sorted by name with those of one name in
    their order; a name with a character that JSON escapes is written and then refused;
    and an encrypted tag whose name begins with a tilde comes back as a plaintext tag. *)
Theorem tags_json_roundtrip (tags : list EntryTag) :
  ∃ text, @tags_to_json _ AskarError.Error tags = Ok text
  ∧ (Forall (λ t, name_readable (tag_name_of t) = true) tags →
      ∃ r, tags_from_json text = Ok r ∧ r ≡ₚ tags ∧ StronglySorted tag_name_le r
        ∧ ∀ k, tags_named k r = tags_named k tags)
  ∧ (Exists (λ t, key_escaped (EntryTag.name t) = true) tags → ∃ e, tags_from_json text = Err e)
  ∧ (∀ n v, key_escaped n = false → tags = [EntryTag.Encrypted ("~" +:+ n) v] →
      tags_from_json text = Ok [EntryTag.Plaintext n v]).
Proof.
  destruct (tags_from_to_json tags) as (text & E & D). exists text. split; [done|].
  destruct (group_tags_spec tags) as (Hw & Hp & Hn).
  split_and!.
  - intros Hr. exists (ungroup (group_tags tags)).
    split_and!; [by apply tags_read_back|done|by apply ungroup_sorted|done].
  - intros (t & Ht & He)%Exists_exists. rewrite D.
    destruct (visit_tags _) as [l|e|] eqn:Ev; [exfalso|by eexists|exfalso].
    + apply visit_unescaped in Ev. rewrite <- Hp in Ht.
      apply list_elem_of_In, List.in_flat_map in Ht as (g & Hg & Ht).
      apply List.in_map_iff in Ht as (v & <- & _).
      eapply Forall_forall in Ev as (s & Es); [|apply list_elem_of_In, List.in_map, List.in_map; exact Hg].
      cbn [fst group_member] in Es. unfold map_key in Es. rewrite text_escaped in Es.
      assert (key_escaped g.1.1 = true) as Hx by (by destruct g as [[n []] vs]). by rewrite Hx in Es.
    + by apply visit_no_panic in Ev.
  - intros n v Hn' ->. rewrite D.
    assert (map_key ("~" +:+ n) = Borrowed ("~" +:+ n)) as Hm by (unfold map_key; by rewrite tilde_escaped, Hn').
    change (List.map _ (List.map group_member _)) with [(map_key ("~" +:+ n), JString v)]. by rewrite Hm.
Qed.
End RoundTrip.

(** ** An instance, for examples

    Objects with a comma after every member and element; a byte that JSON escapes is
    written as a backslash and the byte 64 places further. *)

Definition shift_byte (c : byte) : byte := byte_of (byte_val c + 64).
Definition unshift_byte (c : byte) : byte := byte_of (byte_val c - 64).

Lemma unshift_shift c : json_escaped c = true → unshift_byte (shift_byte c) = c ∧ shift_byte c ≠ x00.
Proof. by destruct c. Qed.

Definition toy_body (s : string) : bytes :=
  List.flat_map (λ c, if json_escaped c then [x5c; shift_byte c] else [c]) (as_bytes s) ++ [x22].
Definition toy_string (s : string) : bytes := x22 :: toy_body s.

(** The bytes up to the quote, whether any was escaped, and the rest. *)
Fixpoint read_toy_string (b : bytes) : option (bytes * bool * bytes) :=
  match b with
  | [] => None
  | c :: b' =>
      if bool_decide (c = x22) then Some ([], false, b') else
      if bool_decide (c = x5c) then
        match b' with
        | [] => None
        | c :: b' => '(s, _, rest) ← read_toy_string b'; Some (unshift_byte c :: s, true, rest)
        end
      else '(s, e, rest) ← read_toy_string b'; Some (c :: s, e, rest)
  end.

Definition toy_values (v : EntryTagValues) : bytes :=
  match v with
  | Single s => toy_string s
  | Multiple l => x5b :: List.flat_map (λ s, toy_string s ++ [x2c]) l ++ [x5d]
  end.

Fixpoint read_toy_list (fuel : nat) (b : bytes) : option (list JsonValue * bytes) :=
  match fuel, b with
  | S fuel, c :: b =>
      if bool_decide (c = x5d) then Some ([], b) else
      match read_toy_string b with
      | Some (s, _, _ :: b) =>
          '(l, rest) ← read_toy_list fuel b; Some (JString (string_of_bytes s) :: l, rest)
      | _ => None
      end
  | _, _ => None
  end.

Definition read_toy_values (b : bytes) : option (JsonValue * bytes) :=
  match b with
  | [] => None
  | c :: b =>
      if bool_decide (c = x5b) then '(l, rest) ← read_toy_list (length b) b; Some (JArray l, rest)
      else '(s, _, rest) ← read_toy_string b; Some (JString (string_of_bytes s), rest)
  end.

Fixpoint read_toy_members (fuel : nat) (b : bytes) : option (list (MapKey * JsonValue)) :=
  match fuel, b with
  | S fuel, c :: b =>
      if bool_decide (c = x7d) then Some [] else
      match read_toy_string b with
      | Some (k, e, b) =>
          '(v, b) ← read_toy_values b;
          l ← read_toy_members fuel (drop 1 b);
          Some (((if e : bool then Unescaped (string_of_bytes k) else Borrowed (string_of_bytes k)), v) :: l)
      | None => None
      end
  | _, _ => None
  end.

Definition toy_object (l : list (string * EntryTagValues)) : bytes :=
  List.flat_map (λ kv, toy_string kv.1 ++ toy_values kv.2 ++ [x2c]) l ++ [x7d].

Lemma read_toy_string_spec s rest :
  read_toy_string (toy_body s ++ rest) = Some (as_bytes s, key_escaped s, rest).
Proof.
  unfold toy_body, key_escaped. generalize (as_bytes s). intros b. rewrite <- app_assoc. cbn [app].
  induction b as [|c b IH]; [done|]. cbn [List.flat_map existsb].
  destruct (json_escaped c) eqn:E; cbn [app read_toy_string].
  - rewrite bool_decide_eq_false_2, bool_decide_eq_true_2 by done. rewrite IH. cbn.
    by rewrite (proj1 (unshift_shift c E)).
  - unfold json_escaped in E. apply orb_false_iff in E as [[_ E1]%orb_false_iff E2].
    by rewrite E1, E2, IH.
Qed.

Lemma read_toy_list_spec l rest : ∀ fuel, (length l < fuel)%nat →
  read_toy_list fuel (List.flat_map (λ s, toy_string s ++ [x2c]) l ++ x5d :: rest) = Some (List.map JString l, rest).
Proof.
  induction l as [|s l IH]; intros [|fuel] Hf; cbn [length] in Hf; [lia|done|lia|].
  cbn [List.flat_map read_toy_list app toy_string]. rewrite bool_decide_eq_false_2 by done.
  rewrite <- !app_assoc, read_toy_string_spec. cbn [app]. rewrite IH by lia. cbn. by rewrite string_of_as_bytes.
Qed.

Lemma toy_string_length s : (1 ≤ length (toy_string s))%nat.
Proof. cbn. lia. Qed.

Lemma toy_list_length (l : list string) rest :
  (length l ≤ length (List.flat_map (λ s, toy_string s ++ [x2c]) l ++ rest))%nat.
Proof.
  induction l as [|s l IH]; [cbn; lia|]. cbn [List.flat_map length]. rewrite !length_app in *. pose proof (toy_string_length s). lia.
Qed.

Lemma read_toy_values_spec v rest : read_toy_values (toy_values v ++ rest) = Some (values_json v, rest).
Proof.
  destruct v as [s|l].
  - cbn [toy_values toy_string app read_toy_values]. rewrite bool_decide_eq_false_2, read_toy_string_spec by done. cbn. by rewrite string_of_as_bytes.
  - cbn [toy_values app read_toy_values]. rewrite bool_decide_eq_true_2 by done. rewrite <- app_assoc. cbn [app]. rewrite read_toy_list_spec; [done|].
    rewrite length_app. cbn [length]. pose proof (toy_list_length l []) as Hl. rewrite app_nil_r in Hl. lia.
Qed.

Lemma read_toy_members_spec l : ∀ fuel, (length l < fuel)%nat →
  read_toy_members fuel (toy_object l) = Some (List.map (λ kv, (map_key kv.1, values_json kv.2)) l).
Proof.
  unfold toy_object. induction l as [|[k v] l IH]; intros [|fuel] Hf; cbn [length] in Hf; [lia|done|lia|].
  cbn [List.flat_map read_toy_members app toy_string fst snd]. rewrite bool_decide_eq_false_2 by done.
  rewrite <- !app_assoc, read_toy_string_spec, read_toy_values_spec.
  cbn [mbind option_bind app drop]. rewrite IH by lia. cbn. unfold map_key. rewrite string_of_as_bytes.
  by destruct (key_escaped k).
Qed.

Lemma toy_body_nonzero s : x00 ∉ toy_body s.
Proof.
  unfold toy_body. induction (as_bytes s) as [|c b IH]; cbn [List.flat_map app]; [set_solver|].
  destruct (json_escaped c) eqn:E; cbn [app]; rewrite ?not_elem_of_cons; split_and!; try done.
  - intros H. by apply (unshift_shift c E).
  - by intros <-.
Qed.

Lemma toy_string_nonzero s : x00 ∉ toy_string s.
Proof. apply not_elem_of_cons. split; [done|apply toy_body_nonzero]. Qed.

Lemma toy_values_nonzero v : x00 ∉ toy_values v.
Proof.
  destruct v as [s|l]; [apply toy_string_nonzero|]. cbn [toy_values].
  apply not_elem_of_cons. split; [done|]. apply not_elem_of_app. split; [|set_solver].
  intros (s & _ & Hs)%list_elem_of_In%List.in_flat_map. apply list_elem_of_In in Hs.
  apply elem_of_app in Hs as [Hs|Hs]; [by apply toy_string_nonzero in Hs|set_solver].
Qed.

Lemma toy_object_nonzero l : x00 ∉ toy_object l.
Proof.
  unfold toy_object. apply not_elem_of_app. split; [|set_solver].
  intros (kv & _ & Hs)%list_elem_of_In%List.in_flat_map. apply list_elem_of_In in Hs.
  rewrite !elem_of_app in Hs. destruct Hs as [Hs|[Hs|Hs]];
    [by apply toy_string_nonzero in Hs|by apply toy_values_nonzero in Hs|set_solver].
Qed.

#[export] Instance toy_serde : SerdeTags.
Proof.
  refine {|
    tags_text l := string_of_bytes (toy_object l);
    tags_members s := match read_toy_members (S (length (as_bytes s))) (as_bytes s) with
                      | Some l => Ok l | None => Err "expected an object" end;
    tag_err_text e := match e with
                      | KeyNotBorrowed => "invalid type: string, expected a borrowed string"
                      | EmptyTagName => "invalid tag name: empty string"
                      | InvalidTagValue => "expected a string or list of strings"
                      | InvalidTagElement => "expected a string"
                      end |}; intros l; [|rewrite as_bytes_of_string; apply toy_object_nonzero].
  rewrite as_bytes_of_string, read_toy_members_spec; [done|].
  unfold toy_object. enough (length l ≤ length (List.flat_map (λ kv, toy_string kv.1 ++ toy_values kv.2 ++ [x2c]) l ++ [x7d]))%nat by lia.
  induction l as [|[k v] l IH]; [cbn; lia|]. cbn [List.flat_map length fst snd]. rewrite !length_app in *.
  pose proof (toy_string_length k). lia.
Defined.

(** The tags of the test in the source, and two that do not survive. *)
Example tags_json_example :
  let tags := [EntryTag.Encrypted "a" "aval"; EntryTag.Plaintext "b" "bval"; EntryTag.Plaintext "b" "bval-2"] in
  (text ← @tags_to_json toy_serde AskarError.Error tags; tags_from_json text) = Ok tags
  ∧ (text ← tags_to_json [EntryTag.Encrypted "~a" "v"]; tags_from_json text) = Ok [EntryTag.Plaintext "a" "v"]
  ∧ is_ok (text ← tags_to_json [EntryTag.Encrypted "a\b" "v"]; tags_from_json text) = false.
Proof. vm_compute. done. Qed.

Lemma tags_json_roundtrip_witness :
  let tags := [EntryTag.Plaintext "b" "1"; EntryTag.Encrypted "a" "2"; EntryTag.Plaintext "b" "0"] in
  ∃ text r, @tags_to_json toy_serde AskarError.Error tags = Ok text ∧ tags_from_json text = Ok r ∧ r ≡ₚ tags.
Proof.
  intros tags. destruct (@tags_json_roundtrip toy_serde tags) as (text & E & Hr & _). exists text.
  destruct Hr as (r & Er & Hp & _); [subst tags; repeat constructor|]. by exists r.
Defined.
