(* ===== verification/FfiHandles.v ===== *)
(** * Handles, results and errors of the foreign function interface

    Models src/ffi/error.rs, macros.rs, handle.rs, result_list.rs and secret.rs: the
    error codes and the last error, counted references behind raw pointers, the lists of
    results with the functions that read them, and buffers handed over to the caller.
    Where the code dereferences a pointer that nothing backs, its behaviour is
    undefined; the outcome [None] stands for that. *)

From S2P Require Import Prelude Errors Wql Buffers Utf8 Entry Kdf KeyAlg Jwk JwkAttrs Repr EdKeys BlsKeys AnyKey AnyKeyLaws LocalKey KeyEntry FfiTags.
Local Open Scope string_scope.
Local Open Scope list_scope.

(** ** Error codes *)

Module ErrorCode.
Inductive t : Set :=
| Success
| Backend
| Busy
| Duplicate
| Encryption
| Input
| NotFound
| Unexpected
| Unsupported
| Custom.

(** [#[repr(i64)]]. *)
Definition value (c : t) : Z :=
  match c with
  | Success => 0
  | Backend => 1
  | Busy => 2
  | Duplicate => 3
  | Encryption => 4
  | Input => 5
  | NotFound => 6
  | Unexpected => 7
  | Unsupported => 8
  | Custom => 100
  end.

Definition from_kind (k : AskarError.ErrorKind) : t :=
  match k with
  | AskarError.Backend => Backend
  | AskarError.Busy => Busy
  | AskarError.Custom => Custom
  | AskarError.Duplicate => Duplicate
  | AskarError.Encryption => Encryption
  | AskarError.Input => Input
  | AskarError.NotFound => NotFound
  | AskarError.Unexpected => Unexpected
  | AskarError.Unsupported => Unsupported
  end.
End ErrorCode.
Abbreviation ErrorCode := ErrorCode.t.

#[export] Instance ErrorCode_eq_dec : EqDecision ErrorCode.
Proof. solve_decision. Defined.

(** [err_msg!("..")], of the kind [Input]. *)
Definition input_error (msg : string) : AskarError.Error := AskarError.from_msg AskarError.Input msg.

(** ** The last error, one for the whole process *)

Definition set_last_error (error : option AskarError.Error) (last : option AskarError.Error)
    : option AskarError.Error * ErrorCode :=
  (error, match error with Some err => ErrorCode.from_kind (AskarError.kind err) | None => ErrorCode.Success end).

(** The members of the JSON object; reading takes the error. *)
Definition get_current_error_json (last : option AskarError.Error) : option AskarError.Error * (Z * option string) :=
  match last with
  | Some err => (None, (ErrorCode.value (ErrorCode.from_kind (AskarError.kind err)), Some (AskarError.fmt err)))
  | None => (None, (0%Z, None))
  end.

(** The error a caught panic is turned into: the messages of the panics below are
    formatted, and only literal ones are kept. *)
Definition panic_error : AskarError.Error :=
  AskarError.from_msg AskarError.Unexpected "Panic during execution: 'no message'".

(** [catch_err!] around a body, in a build in which panics unwind; where they abort, as in
    the release builds of src/Cargo.toml, the process ends with the panic and the
    function does not return. *)
Definition catch_err (r : res AskarError.Error ErrorCode) (last : option AskarError.Error)
    : option AskarError.Error * ErrorCode :=
  match r with
  | Ok code => (last, code)
  | Err err => set_last_error (Some err) last
  | Panic => set_last_error (Some panic_error) last
  end.

(** [check_useful_c_ptr!]. *)
Definition check_useful_c_ptr (useful : bool) : res AskarError.Error () :=
  if useful then Ok () else Err (input_error "Invalid pointer for result value").

(** ** Counted references behind pointers *)

(** Where the allocator puts the next value. *)
Class ArcPlace := {
  arc_place : gset N → N;
  arc_place_fresh X : arc_place X ∉ X ∧ arc_place X ≠ 0%N;
}.

(** Above every address in use. *)
Definition toy_place : ArcPlace.
Proof.
  refine {| arc_place X := (1 + set_fold N.max 0 X)%N |}. intros X. split; [|lia]. intros Hin.
  assert (∀ a, a ∈ X → (a ≤ set_fold N.max 0 X)%N) as Hle.
  { apply (set_fold_ind_L (λ r X, ∀ a, a ∈ X → (a ≤ r)%N)); [set_solver|]. intros x Y r _ IH a Ha.
    apply elem_of_union in Ha as [->%elem_of_singleton|Ha]; [lia|]. specialize (IH a Ha). lia. }
  specialize (Hle _ Hin). lia.
Defined.

(** The values with their strong counts, by address; the address 0 is the null pointer. *)
Abbreviation ArcHeap T := (gmap N (T * nat)).

Section Arcs.
Context {T : Type}.

Definition arc_invalid : N := 0.

Definition arc_create `{ArcPlace} (value : T) (h : ArcHeap T) : ArcHeap T * N :=
  let a := arc_place (dom h) in (<[a := (value, 1)]> h, a).

Definition arc_validate (a : N) : res AskarError.Error () :=
  if (a =? 0)%N then Err (input_error "Invalid handle") else Ok ().

Definition arc_load (a : N) (h : ArcHeap T) : option (ArcHeap T * res AskarError.Error T) :=
  match arc_validate a with
  | Ok _ => '(value, n) ← h !! a; Some (<[a := (value, S n)]> h, Ok value)
  | Err e => Some (h, Err e)
  | Panic => Some (h, Panic)
  end.

(** A reference goes away, the last one with the value. *)
Definition arc_drop (a : N) (h : ArcHeap T) : option (ArcHeap T) :=
  '(value, n) ← h !! a;
  Some (if (n =? 1)%nat then delete a h else <[a := (value, pred n)]> h).

Definition arc_remove (a : N) (h : ArcHeap T) : option (ArcHeap T) :=
  if (a =? 0)%N then Some h else arc_drop a h.

(** [let results = handle.load()?; body]: the reference is dropped at the end of the
    body, however it ends. *)
Definition with_arc {X} (a : N) (body : T → res AskarError.Error X) (h : ArcHeap T)
    : option (ArcHeap T * res AskarError.Error X) :=
  '(h, r) ← arc_load a h;
  match r with
  | Ok value => h ← arc_drop a h; Some (h, body value)
  | Err e => Some (h, Err e)
  | Panic => Some (h, Panic)
  end.

(** A function that reads a value behind a handle and writes something it finds there
    through a pointer: the code it returns and what it wrote. *)
Definition ffi_get {X} (a : N) (body : T → res AskarError.Error X) (out : bool) (h : ArcHeap T)
    (last : option AskarError.Error) : option (ArcHeap T * option AskarError.Error * ErrorCode * option X) :=
  '(h, r) ← match check_useful_c_ptr out with
            | Ok _ => with_arc a body h
            | Err e => Some (h, Err e)
            | Panic => Some (h, Panic)
            end;
  let '(last, code) := catch_err ((λ _, ErrorCode.Success) <$> r) last in
  Some (h, last, code, match r with Ok x => Some x | _ => None end).
End Arcs.

(** ** How the library was built *)

(** The width of [usize], and what the profile says of panics and of sums that overflow:
    src/Cargo.toml has [panic = "abort"] for release builds, in which overflow is not
    checked by default; other builds unwind and check. *)
Class Build := { usize_bits : N; panic_aborts : bool; overflow_checks : bool }.

Definition release_build : Build := {| usize_bits := 64; panic_aborts := true; overflow_checks := false |}.
Definition debug_build : Build := {| usize_bits := 64; panic_aborts := false; overflow_checks := true |}.

(** ** Handles drawn from a counter *)

(** [new_sequence_handle!]: [$counter.fetch_add(1) + 1] on an [AtomicUsize].  The counter
    wraps around; the sum of its old value and one wraps around with it or panics. *)
Definition next_handle `{Build} {E} (counter : N) : N * res E nat :=
  let next := ((counter + 1) mod 2 ^ usize_bits)%N in
  (next, if overflow_checks && (next =? 0)%N then Panic else Ok (N.to_nat next)).

(** ** Lists of results *)

Inductive FfiResultList (R : Type) : Type :=
| ListSingle (row : R)
| ListRows (rows : list R).
Arguments ListSingle {R}.
Arguments ListRows {R}.

(** [as i32]. *)
Definition as_i32 (n : Z) : Z := ((n + 2 ^ 31) mod 2 ^ 32 - 2 ^ 31)%Z.

Definition get_row {R} (l : FfiResultList R) (idx : Z) : res AskarError.Error R :=
  let found :=
    if (0 <=? idx)%Z then
      match l with
      | ListSingle e => if (idx =? 0)%Z then Some e else None
      | ListRows r => r !! Z.to_nat idx
      end
    else None in
  match found with Some e => Ok e | None => Err (input_error "Invalid index for result set") end.

Definition list_len {R} (l : FfiResultList R) : Z :=
  match l with
  | ListSingle _ => 0
  | ListRows r => as_i32 (Z.of_nat (length r))
  end.

(** [CString::new(s).unwrap().into_raw()]: a C string ends at its first zero byte. *)
Definition c_string {E} (s : string) : res E string :=
  if existsb (λ c, bool_decide (c = x00)) (as_bytes s) then Panic else Ok s.

(** The null pointer for [None]. *)
Definition c_string_opt {E} (s : option string) : res E (option string) :=
  match s with Some s => Some <$> c_string s | None => Ok None end.

(** The tags of an entry, null when there are none. *)
Definition c_tags `{SerdeTags} {E} (tags : list EntryTag) : res E (option string) :=
  match tags with [] => Ok None | _ => json ← tags_to_json tags; Some <$> c_string json end.

Definition FfiEntryList : Type := FfiResultList Entry.
Definition FfiKeyEntryList : Type := FfiResultList KeyEntry.
Definition FfiStringList : Type := FfiResultList string.

(** A function that reads a field of a row. *)
Definition get_field {R X} (handle : N) (index : Z) (field : R → res AskarError.Error X)
    : bool → ArcHeap (FfiResultList R) → option AskarError.Error → option (ArcHeap (FfiResultList R) * option AskarError.Error * ErrorCode * option X) :=
  ffi_get handle (λ results, entry ← get_row results index; field entry).

Definition askar_entry_list_count (handle : N) :=
  ffi_get handle (λ results : FfiEntryList, Ok (list_len results)).
Definition askar_entry_list_get_category (handle : N) (index : Z) :=
  get_field handle index (λ entry : Entry, c_string (category entry)).
Definition askar_entry_list_get_name (handle : N) (index : Z) :=
  get_field handle index (λ entry : Entry, c_string (name entry)).
(** The value as a buffer of its own. *)
Definition askar_entry_list_get_value (handle : N) (index : Z) :=
  get_field handle index (λ entry : Entry, Ok (value entry)).
Definition askar_entry_list_get_tags `{SerdeTags} (handle : N) (index : Z) :=
  get_field handle index (λ entry : Entry, c_tags (tags entry)).
Definition askar_entry_list_free (handle : N) : ArcHeap FfiEntryList → option (ArcHeap FfiEntryList) := arc_remove handle.

Definition askar_key_entry_list_count (handle : N) :=
  ffi_get handle (λ results : FfiKeyEntryList, Ok (list_len results)).
Definition askar_key_entry_list_free (handle : N) : ArcHeap FfiKeyEntryList → option (ArcHeap FfiKeyEntryList) := arc_remove handle.
Definition askar_key_entry_list_get_algorithm (handle : N) (index : Z) :=
  get_field handle index (λ entry : KeyEntry, c_string_opt (ke_alg entry)).
Definition askar_key_entry_list_get_name (handle : N) (index : Z) :=
  get_field handle index (λ entry : KeyEntry, c_string (ke_name entry)).
Definition askar_key_entry_list_get_metadata (handle : N) (index : Z) :=
  get_field handle index (λ entry : KeyEntry, c_string_opt (ke_metadata entry)).
Definition askar_key_entry_list_get_tags `{SerdeTags} (handle : N) (index : Z) :=
  get_field handle index (λ entry : KeyEntry, c_tags (ke_tags entry)).

Definition askar_string_list_count (handle : N) :=
  ffi_get handle (λ results : FfiStringList, Ok (list_len results)).
Definition askar_string_list_get_item (handle : N) (index : Z) :=
  get_field handle index (λ entry : string, c_string entry).
Definition askar_string_list_free (handle : N) : ArcHeap FfiStringList → option (ArcHeap FfiStringList) := arc_remove handle.

(** The key of an entry, in a heap of its own. *)
Definition askar_key_entry_list_load_local `{Crypto} `{Base64} `{JsonReader} `{ArcPlace} (u : res JwkErr ())
    (handle : N) (index : Z) (out : bool) (h : ArcHeap FfiKeyEntryList) (keys : ArcHeap LocalKey)
    (last : option AskarError.Error)
    : option (ArcHeap FfiKeyEntryList * ArcHeap LocalKey * option AskarError.Error * ErrorCode * option N) :=
  '(h, last, code, key) ← get_field handle index (load_local_key u) out h last;
  let '(keys, out) :=
    match key with
    | Some key => let '(keys, a) := arc_create key keys in (keys, Some a)
    | None => (keys, None)
    end in
  Some (h, keys, last, code, out).

(** ** Buffers handed to the caller *)

Record SecretBuffer := mkSecretBuffer { sb_len : Z; sb_data : N }.

Definition secret_buffer_default : SecretBuffer := mkSecretBuffer 0 0.

(** The vectors that were given away: their bytes and capacities, by address. *)
Abbreviation VecHeap := (gmap N (bytes * nat)).

Section Buffers.
Context `{ArcPlace} `{Allocator}.

(** [i64::try_from(n).expect(..)]. *)
Definition try_i64 {E} (n : nat) : res E Z :=
  if (Z.of_nat n <? 2 ^ 63)%Z then Ok (Z.of_nat n) else Panic.

(** The pointer of a vector that has no allocation. *)
Definition dangling : N := 1.

Definition from_secret {E} (buf : SecretBytes) (h : VecHeap) : res E (VecHeap * SecretBuffer) :=
  let buf := shrink_to_fit buf in
  let '(data, _) := into_vec buf in
  len ← try_i64 (length data);
  mret (if (sec_cap buf =? 0)%nat then (h, mkSecretBuffer len dangling)
        else let a := arc_place (dom h) in (<[a := (data, sec_cap buf)]> h, mkSecretBuffer len a)).

(** [Vec::from_raw_parts(data, len, len)] is defined for a vector of that length and
    capacity, and for any pointer at length zero. *)
Definition destroy_into_secret {E} (b : SecretBuffer) (h : VecHeap) : option (VecHeap * res E SecretBytes) :=
  if (sb_data b =? 0)%N then Some (h, Ok (mkSecret [] 0 [])) else
  if (sb_len b <? 0)%Z then Some (h, Panic) else
  if (sb_len b =? 0)%Z then Some (h, Ok (secret_from_vec [] 0)) else
  '(data, cap) ← h !! sb_data b;
  if (Z.of_nat (length data) =? sb_len b)%Z && (cap =? length data)%nat
  then Some (delete (sb_data b) h, Ok (secret_from_vec data cap)) else None.

(** What is left in memory after the buffer was freed. *)
Definition askar_buffer_free {E} (b : SecretBuffer) (h : VecHeap) : option (VecHeap * res E SecretBytes) :=
  '(h, r) ← destroy_into_secret (E := E) b h; Some (h, fmap (M := res E) secret_drop r).

Record EncryptedBuffer := mkEncryptedBuffer { eb_buffer : SecretBuffer; eb_tag_pos : Z; eb_nonce_pos : Z }.

Definition from_encrypted {E} (enc : Encrypted.t) (h : VecHeap) : res E (VecHeap * EncryptedBuffer) :=
  tag_pos ← try_i64 (Encrypted.tag_pos enc);
  nonce_pos ← try_i64 (Encrypted.nonce_pos enc);
  '(h, buffer) ← from_secret (Encrypted.buffer enc) h;
  mret (h, mkEncryptedBuffer buffer tag_pos nonce_pos).

(** A secret handed over and freed by the caller: the caller gets its bytes and freeing
    them is defined and leaves nothing but zeros, provided that an allocation is as
    large as was asked for; where the allocator gives more, freeing is undefined. *)
Theorem secret_buffer_handover (s : SecretBytes) (h : VecHeap) :
  sec_ok s → (Z.of_nat (length (sec_data s)) < 2 ^ 63)%Z → sec_data s ≠ [] →
  ∃ h1 b, @from_secret AskarError.Error s h = Ok (h1, b)
  ∧ sb_len b = Z.of_nat (length (sec_data s))
  ∧ fst <$> h1 !! sb_data b = Some (sec_data s)
  ∧ if decide (sec_cap s = length (sec_data s) ∨ alloc_cap (length (sec_data s)) = length (sec_data s))
    then ∃ s', @askar_buffer_free AskarError.Error b h1 = Some (h, Ok s') ∧ sec_data s' = []
      ∧ sec_released s' = [zeroed (length (sec_data s))]
    else @askar_buffer_free AskarError.Error b h1 = None.
Proof.
  intros Hs Hl Hne. unfold from_secret. unfold sec_ok in Hs.
  assert (length (sec_data s) ≠ 0)%nat as Hn by (by destruct (sec_data s)).
  set (cap := if (length (sec_data s) <? sec_cap s)%nat then alloc_cap (length (sec_data s)) else sec_cap s).
  assert (sec_data (shrink_to_fit s) = sec_data s ∧ sec_cap (shrink_to_fit s) = cap) as [E1 E2].
  { unfold shrink_to_fit, cap. by destruct (_ <? _)%nat. }
  assert (length (sec_data s) ≤ cap)%nat as Hcap.
  { unfold cap. destruct (_ <? _)%nat; [apply alloc_cap_ge|done]. }
  unfold into_vec. rewrite E1, E2. unfold try_i64. rewrite (proj2 (Z.ltb_lt _ _)) by done. run_bind.
  rewrite (proj2 (Nat.eqb_neq cap 0)) by lia.
  destruct (arc_place_fresh (dom h)) as [Hf Hz]. set (a := arc_place (dom h)) in *.
  exists (<[a := (sec_data s, cap)]> h), (mkSecretBuffer (Z.of_nat (length (sec_data s))) a).
  split_and!; [done|done|cbn [sb_data]; by rewrite lookup_insert_eq|].
  unfold askar_buffer_free, destroy_into_secret. cbn [sb_data sb_len].
  rewrite (proj2 (N.eqb_neq a 0)) by done. rewrite (proj2 (Z.ltb_ge _ _)), (proj2 (Z.eqb_neq _ 0)) by lia.
  rewrite lookup_insert_eq. cbn [mbind option_bind]. rewrite Z.eqb_refl. cbn [andb].
  destruct (decide _) as [Hd|Hd].
  - assert (cap = length (sec_data s)) as ->.
    { unfold cap in *. destruct (Nat.ltb_spec (length (sec_data s)) (sec_cap s)); [destruct Hd; [lia|done]|lia]. }
    rewrite Nat.eqb_refl. rewrite delete_insert_id by (by apply not_elem_of_dom). by eexists.
  - rewrite (proj2 (Nat.eqb_neq cap _)); [done|]. unfold cap.
    destruct (Nat.ltb_spec (length (sec_data s)) (sec_cap s)); naive_solver lia.
Qed.
End Buffers.

(** ** Lemmas on handles *)

Section ArcLemmas.
Context {T : Type}.
Implicit Types h : ArcHeap T.

(** Reading through a handle that holds a reference leaves the heap as it was. *)
Lemma with_arc_live {X} a v n (body : T → res AskarError.Error X) h :
  a ≠ 0%N → h !! a = Some (v, S n) → with_arc a body h = Some (h, body v).
Proof.
  intros Ha Hh. unfold with_arc, arc_load, arc_validate. rewrite (proj2 (N.eqb_neq a 0)) by done.
  rewrite Hh. cbn [mbind option_bind]. unfold arc_drop. rewrite lookup_insert_eq. cbn [mbind option_bind].
  cbn [Nat.eqb pred]. by rewrite insert_insert_eq, insert_id.
Qed.

Lemma ffi_get_live {X} a v n (body : T → res AskarError.Error X) h last :
  a ≠ 0%N → h !! a = Some (v, S n) →
  ffi_get a body true h last
  = Some (h, (catch_err ((λ _, ErrorCode.Success) <$> body v) last).1, (catch_err ((λ _, ErrorCode.Success) <$> body v) last).2,
      match body v with Ok x => Some x | _ => None end).
Proof.
  intros Ha Hh. unfold ffi_get. cbn [check_useful_c_ptr]. rewrite (with_arc_live _ _ _ _ _ Ha Hh).
  cbn [mbind option_bind]. by destruct (catch_err _ _).
Qed.

Lemma ffi_get_null {X} a (body : T → res AskarError.Error X) h last out :
  out = false ∨ a = 0%N →
  ffi_get a body out h last
  = let e := input_error (if out then "Invalid handle" else "Invalid pointer for result value") in
    Some (h, Some e, ErrorCode.Input, None).
Proof. intros [->| ->]; [done|]. by destruct out. Qed.
End ArcLemmas.

Lemma as_i32_small n : (0 ≤ n < 2 ^ 31)%Z → as_i32 n = n.
Proof. intros Hn. unfold as_i32. rewrite Z.mod_small by lia. lia. Qed.

Lemma get_row_rows {R} (rows : list R) (i : Z) :
  get_row (ListRows rows) i
  = if (0 <=? i)%Z then match rows !! Z.to_nat i with Some e => Ok e | None => Err (input_error "Invalid index for result set") end
    else Err (input_error "Invalid index for result set").
Proof. unfold get_row. by destruct (0 <=? i)%Z. Qed.

Lemma c_string_nonzero {E} s : x00 ∉ as_bytes s → @c_string E s = Ok s.
Proof.
  intros Hz. unfold c_string. destruct (existsb _ _) eqn:Ex; [|done].
  apply List.existsb_exists in Ex as (c & Hc & Ec%bool_decide_eq_true). subst c. by apply list_elem_of_In in Hc.
Qed.

(** ** Lists of entries *)

Section EntryLists.
Context `{ArcPlace} `{SerdeTags}.

Lemma arc_create_live {T} (v : T) (h : ArcHeap T) :
  let '(h1, a) := arc_create v h in a ≠ 0%N ∧ h1 !! a = Some (v, 1) ∧ arc_remove a h1 = Some h.
Proof.
  unfold arc_create. destruct (arc_place_fresh (dom h)) as [Hf Hz]. set (a := arc_place (dom h)) in *.
  split_and!; [done|apply lookup_insert_eq|]. unfold arc_remove. rewrite (proj2 (N.eqb_neq a 0)) by done.
  unfold arc_drop. rewrite lookup_insert_eq. cbn. rewrite delete_insert_id; [done|by apply not_elem_of_dom].
Qed.

(** Reading a field of a row. *)
Lemma get_field_row {R X} a (rows : list R) n (field : R → res AskarError.Error X) h last i e :
  a ≠ 0%N → h !! a = Some (ListRows rows, S n) → rows !! i = Some e →
  get_field a (Z.of_nat i) field true h last
  = Some (h, (catch_err ((λ _, ErrorCode.Success) <$> field e) last).1, (catch_err ((λ _, ErrorCode.Success) <$> field e) last).2,
      match field e with Ok x => Some x | _ => None end).
Proof.
  intros Ha Hh Hi. unfold get_field. rewrite (ffi_get_live _ _ _ _ _ _ Ha Hh), get_row_rows.
  rewrite (proj2 (Z.leb_le 0 _)), Nat2Z.id, Hi by lia. done.
Qed.

(** Outside of the rows. *)
Lemma get_field_outside {R X} a (rows : list R) n (field : R → res AskarError.Error X) h last z :
  a ≠ 0%N → h !! a = Some (ListRows rows, S n) → (z < 0 ∨ Z.of_nat (length rows) ≤ z)%Z →
  get_field a z field true h last
  = Some (h, Some (input_error "Invalid index for result set"), ErrorCode.Input, None).
Proof.
  intros Ha Hh Hz. unfold get_field. rewrite (ffi_get_live _ _ _ _ _ _ Ha Hh), get_row_rows.
  destruct (Z.leb_spec 0 z); [|done]. rewrite lookup_ge_None_2 by lia. done.
Qed.

(** What a caller reads from the list of entries that a query returned: their number,
    and for every index the category, name, value and tags of that entry, the tags as
    JSON that reads back as those tags; an index outside is an error, as is a text that
    no C string can hold; freeing the handle gives the memory back. *)
Theorem entry_list_reads (rows : list Entry) h last :
  (Z.of_nat (length rows) < 2 ^ 31)%Z →
  ∃ h1 a, arc_create (ListRows rows) h = (h1, a)
  ∧ askar_entry_list_count a true h1 last = Some (h1, last, ErrorCode.Success, Some (Z.of_nat (length rows)))
  ∧ (∀ i e, rows !! i = Some e → x00 ∉ as_bytes (category e) → x00 ∉ as_bytes (name e) →
      askar_entry_list_get_category a (Z.of_nat i) true h1 last = Some (h1, last, ErrorCode.Success, Some (category e))
      ∧ askar_entry_list_get_name a (Z.of_nat i) true h1 last = Some (h1, last, ErrorCode.Success, Some (name e))
      ∧ askar_entry_list_get_value a (Z.of_nat i) true h1 last = Some (h1, last, ErrorCode.Success, Some (value e))
      ∧ ∃ json, askar_entry_list_get_tags a (Z.of_nat i) true h1 last = Some (h1, last, ErrorCode.Success, Some json)
        ∧ (json = None ↔ tags e = [])
        ∧ ∀ text, json = Some text → Forall (λ t, name_readable (tag_name_of t) = true) (tags e) →
            ∃ r, tags_from_json text = Ok r ∧ r ≡ₚ tags e)
  ∧ (∀ i e, rows !! i = Some e → x00 ∈ as_bytes (name e) →
      askar_entry_list_get_name a (Z.of_nat i) true h1 last = Some (h1, Some panic_error, ErrorCode.Unexpected, None))
  ∧ (∀ z, (z < 0 ∨ Z.of_nat (length rows) ≤ z)%Z →
      askar_entry_list_get_name a z true h1 last
      = Some (h1, Some (input_error "Invalid index for result set"), ErrorCode.Input, None))
  ∧ askar_entry_list_free a h1 = Some h.
Proof.
  intros Hn. destruct (arc_create (ListRows rows) h) as [h1 a] eqn:Ec.
  pose proof (arc_create_live (ListRows rows) h) as Hc. rewrite Ec in Hc. destruct Hc as (Ha & Hh & Hf).
  exists h1, a. split_and!; [done| | | | |done].
  - unfold askar_entry_list_count. rewrite (ffi_get_live _ _ _ _ _ _ Ha Hh). cbn [list_len catch_err fmap res_fmap fst snd].
    by rewrite as_i32_small by lia.
  - intros i e Hi Hzc Hzn. unfold askar_entry_list_get_category, askar_entry_list_get_name, askar_entry_list_get_value, askar_entry_list_get_tags.
    rewrite !(get_field_row _ _ _ _ _ _ _ _ Ha Hh Hi), !c_string_nonzero by done.
    split_and!; [done..|]. destruct (tags e) as [|t ts] eqn:Et; [by exists None|].
    cbn [c_tags]. rewrite <- Et. destruct (tags_from_to_json (tags e)) as (text & E & _). rewrite E. run_bind.
    rewrite c_string_nonzero.
    2: { unfold tags_to_json in E. destruct (serialize_tags _); [|done|done]. injection E as <-. apply tags_text_nonzero. }
    exists (Some text). split_and!; [done|by rewrite Et|]. intros ? [= <-] Hr.
    rewrite (tags_read_back _ _ E Hr). eexists. split; [done|apply group_tags_spec].
  - intros i e Hi Hz. unfold askar_entry_list_get_name. rewrite (get_field_row _ _ _ _ _ _ _ _ Ha Hh Hi).
    unfold c_string. assert (existsb (λ c, bool_decide (c = x00)) (as_bytes (name e)) = true) as ->; [|done].
    apply List.existsb_exists. exists x00. split; [by apply list_elem_of_In|done].
  - intros z Hz. by apply (get_field_outside _ _ _ _ _ _ _ Ha Hh).
Qed.
End EntryLists.

(** ** Any use of handles *)

Inductive ArcOp (T : Type) : Type :=
| ArcCreate (value : T)
| ArcLoad (a : N)
| ArcRelease (a : N)
| ArcFree (a : N).
Arguments ArcCreate {T}.
Arguments ArcLoad {T}.
Arguments ArcRelease {T}.
Arguments ArcFree {T}.

Section ArcTraces.
Context {T : Type} `{ArcPlace}.

Definition arc_step (op : ArcOp T) (h : ArcHeap T) : option (ArcHeap T) :=
  match op with
  | ArcCreate v => Some (arc_create v h).1
  | ArcLoad a => fst <$> arc_load a h
  | ArcRelease a => arc_drop a h
  | ArcFree a => arc_remove a h
  end.

Fixpoint arc_run (ops : list (ArcOp T)) (h : ArcHeap T) : option (ArcHeap T) :=
  match ops with [] => Some h | op :: ops => h ← arc_step op h; arc_run ops h end.

(** What its users know of an address: the value, whether the handle was not yet freed,
    and how many references were loaded and not yet released. *)
Abbreviation users := (gmap N (T * bool * nat)).

(** Nobody is left: the address is gone. *)
Definition settle (a : N) (v : T) (held : bool) (loads : nat) (g : users) : users :=
  if held || (0 <? loads)%nat then <[a := (v, held, loads)]> g else delete a g.

(** The uses that are allowed: a handle is loaded and freed while it is held, a
    reference released while it is there; the null handle may always be used. *)
Definition use (op : ArcOp T) (g : users) : option users :=
  match op with
  | ArcCreate v => Some (<[arc_place (dom g) := (v, true, 0)]> g)
  | ArcLoad a =>
      if (a =? 0)%N then Some g else
      match g !! a with Some (v, true, n) => Some (<[a := (v, true, S n)]> g) | _ => None end
  | ArcRelease a => match g !! a with Some (v, held, S n) => Some (settle a v held n g) | _ => None end
  | ArcFree a =>
      if (a =? 0)%N then Some g else
      match g !! a with Some (v, true, n) => Some (settle a v false n g) | _ => None end
  end.

Fixpoint uses (ops : list (ArcOp T)) (g : users) : option users :=
  match ops with [] => Some g | op :: ops => g ← use op g; uses ops g end.

(** The strong count is the number of users. *)
Definition counted (u : T * bool * nat) : T * nat := (u.1.1, ((if u.1.2 then 1 else 0) + u.2)%nat).
Definition users_ok (g : users) : Prop :=
  g !! 0%N = None ∧ ∀ a v held n, g !! a = Some (v, held, n) → held = true ∨ (0 < n)%nat.

Lemma settle_counts a v held n (g : users) :
  counted <$> settle a v held n g
  = if ((if held then 1 else 0) + n =? 0)%nat then delete a (counted <$> g)
    else <[a := (v, ((if held then 1 else 0) + n)%nat)]> (counted <$> g).
Proof. unfold settle. destruct held, n; cbn [orb Nat.add Nat.eqb Nat.ltb Nat.leb]; by rewrite ?fmap_insert, ?fmap_delete. Qed.

Lemma settle_ok a v held n (g : users) : a ≠ 0%N → users_ok g → users_ok (settle a v held n g).
Proof.
  intros Ha [H0 Hg]. unfold settle. destruct (held || (0 <? n)%nat) eqn:E; split.
  - by rewrite lookup_insert_ne.
  - intros a' v' held' n'. destruct (decide (a' = a)) as [->|]; [rewrite lookup_insert_eq|rewrite lookup_insert_ne by done; apply Hg].
    intros [= _ <- <-]. apply orb_true_iff in E as [->|E%Nat.ltb_lt]; auto.
  - by rewrite lookup_delete_ne.
  - intros a' v' held' n' [_ Hl]%lookup_delete_Some. by eapply Hg.
Qed.

Lemma arc_drop_counts a v (held : bool) n (g : users) h : h = counted <$> g → g !! a = Some (v, held, n) →
  ∀ (held' : bool) n', ((if held then 1 else 0) + n = S ((if held' then 1 else 0) + n'))%nat →
  arc_drop a h = Some (counted <$> settle a v held' n' g).
Proof.
  intros -> Hg held' n' Hn. unfold arc_drop. rewrite lookup_fmap, Hg. cbn. rewrite settle_counts, Hn. cbn. done.
Qed.

Lemma use_step op g g' h : users_ok g → h = counted <$> g → use op g = Some g' →
  arc_step op h = Some (counted <$> g') ∧ users_ok g'.
Proof.
  intros Hok -> Hu. destruct op as [v|a|a|a]; cbn [use arc_step] in *.
  - injection Hu as <-. destruct (arc_place_fresh (dom g)) as [Hf Hz].
    unfold arc_create. rewrite dom_fmap_L, fmap_insert. split; [done|]. destruct Hok as [H0 Hg]. split.
    + by rewrite lookup_insert_ne.
    + intros a v' held n. destruct (decide (a = arc_place (dom g))) as [->|].
      * rewrite lookup_insert_eq. intros [= _ <- _]. by left.
      * rewrite lookup_insert_ne by done. apply Hg.
  - unfold arc_load, arc_validate. destruct (N.eqb_spec a 0) as [->|Ha]; [by injection Hu as <-|].
    destruct (g !! a) as [[[v []] n]|] eqn:Eg; try done. injection Hu as <-.
    rewrite lookup_fmap, Eg, fmap_insert. cbn. split; [done|]. destruct Hok as [H0 Hg]. split; [by rewrite lookup_insert_ne|].
    intros a' v' held n'. destruct (decide (a' = a)) as [->|]; [rewrite lookup_insert_eq; intros [= _ <- _]; by left|].
    rewrite lookup_insert_ne by done. apply Hg.
  - destruct (g !! a) as [[[v held] [|n]]|] eqn:Eg; try done. injection Hu as <-.
    assert (a ≠ 0%N) by (intros ->; destruct Hok; congruence).
    split; [|by apply settle_ok]. apply (arc_drop_counts _ _ _ _ _ _ eq_refl Eg). lia.
  - unfold arc_remove. destruct (N.eqb_spec a 0) as [->|Ha]; [by injection Hu as <-|].
    destruct (g !! a) as [[[v []] n]|] eqn:Eg; try done. injection Hu as <-.
    split; [|by apply settle_ok]. apply (arc_drop_counts _ _ _ _ _ _ eq_refl Eg). lia.
Qed.

(** Handles under any allowed use: no step is undefined, and at every point the heap
    holds exactly the values that still have a user, each as it was created and with as
    many references as users. *)
Theorem arc_handles_safe (ops : list (ArcOp T)) (g : users) :
  uses ops ∅ = Some g →
  arc_run ops ∅ = Some (counted <$> g) ∧ ∀ a v held n, g !! a = Some (v, held, n) → held = true ∨ (0 < n)%nat.
Proof.
  enough (∀ g0, users_ok g0 → uses ops g0 = Some g → arc_run ops (counted <$> g0) = Some (counted <$> g) ∧ users_ok g) as Hgen.
  { intros Hu. destruct (Hgen ∅) as [E [_ Hok]]; [by split|done|]. rewrite fmap_empty in E. done. }
  induction ops as [|op ops IH]; intros g0 Hok Hu; cbn [uses arc_run] in *; [by injection Hu as <-|].
  apply bind_Some in Hu as (g1 & E1 & Hu). destruct (use_step op g0 g1 _ Hok eq_refl E1) as [Es Hok1].
  rewrite Es. cbn [mbind option_bind]. by apply IH.
Qed.
End ArcTraces.
