(* ===== verification/FfiPool.v ===== *)
(** * The tasks of the foreign function interface

    Models the state of src/ffi/store.rs and the asynchronous part of its functions.
    Stores, sessions and scans are kept in maps from handles.  A call that does more
    than check its arguments becomes a task of the runtime; tasks interleave at the
    points where they wait, and the runtime may pick any task that can go on.

    A session or scan sits behind a counted reference and a lock of its own.  An
    operation takes the read lock of the map, finds the session, waits for its lock
    while still holding the map's, and then runs with the session locked and the map
    free.  Inserting and removing take the write lock of the map and do not wait while
    they hold it, so that the write lock needs no state of its own here: it can be taken
    when there are no readers. *)

From stdpp Require Import sorting.
From S2P Require Import Prelude Errors Wql DbQuery Buffers Entry Kdf KeyAlg Jwk JwkAttrs Repr EdKeys BlsKeys AnyKey AnyKeyLaws LocalKey KeyEntry.
From S2P Require Import StoreKey FfiHandles.
Local Open Scope string_scope.
Local Open Scope list_scope.

(** ** Maps of resources that belong to stores *)

(** [Arc<Mutex<V>>]: the value, whether it is locked, and the references to it. *)
Record Cell (V : Type) := mkCell { c_value : V; c_locked : bool; c_refs : nat }.
Arguments mkCell {V}.
Arguments c_value {V}.
Arguments c_locked {V}.
Arguments c_refs {V}.

(** [StoreResourceMap]: the counter of its handles, the store and the cell of every
    handle, the cells, and the readers of the map.  A cell is an allocation of its own,
    known by a number that no other cell ever has ([rm_fresh] is the next one), and
    outlives its handle while somebody uses it. *)
Record ResMap (V : Type) := mkResMap {
  rm_counter : N;
  rm_map : gmap nat (nat * nat);
  rm_cells : gmap nat (Cell V);
  rm_fresh : nat;
  rm_readers : nat;
}.
Arguments mkResMap {V}.
Arguments rm_counter {V}.
Arguments rm_map {V}.
Arguments rm_cells {V}.
Arguments rm_fresh {V}.
Arguments rm_readers {V}.

Section ResMaps.
Context {V : Type}.
Implicit Types m : ResMap V.

Definition rm_new : ResMap V := mkResMap 0 ∅ ∅ 0 0.

Definition set_rm_map (x : gmap nat (nat * nat)) m : ResMap V :=
  mkResMap (rm_counter m) x (rm_cells m) (rm_fresh m) (rm_readers m).
Definition set_rm_cells (x : gmap nat (Cell V)) m : ResMap V :=
  mkResMap (rm_counter m) (rm_map m) x (rm_fresh m) (rm_readers m).
Definition set_rm_readers (n : nat) m : ResMap V :=
  mkResMap (rm_counter m) (rm_map m) (rm_cells m) (rm_fresh m) n.

(** [K::next()]: the first handle is 1. *)
Definition rm_next `{Build} m : ResMap V * res AskarError.Error nat :=
  let '(counter, r) := next_handle (rm_counter m) in
  (mkResMap counter (rm_map m) (rm_cells m) (rm_fresh m) (rm_readers m), r).

(** One reference to a cell goes away; the value comes out with the last one. *)
Definition rm_unref (cell : nat) m : ResMap V * option V :=
  match rm_cells m !! cell with
  | Some c =>
      if (c_refs c =? 1)%nat then (set_rm_cells (delete cell (rm_cells m)) m, Some (c_value c))
      else (set_rm_cells (<[cell := mkCell (c_value c) (c_locked c) (pred (c_refs c))]> (rm_cells m)) m, None)
  | None => (m, None)
  end.

(** [map.remove(&handle)], the reference that was in the map dropped. *)
Definition rm_discard (handle : nat) m : ResMap V * option V :=
  match rm_map m !! handle with
  | Some (_, cell) => rm_unref cell (set_rm_map (delete handle (rm_map m)) m)
  | None => (m, None)
  end.

(** The part of [insert] under the write lock: a new cell, in the place of what the map
    had for the handle. *)
Definition rm_insert (handle store : nat) (v : V) m : ResMap V * option V :=
  let '(m, old) := rm_discard handle m in
  (mkResMap (rm_counter m) (<[handle := (store, rm_fresh m)]> (rm_map m))
     (<[rm_fresh m := mkCell v false 1]> (rm_cells m)) (S (rm_fresh m)) (rm_readers m), old).

Definition busy_error : AskarError.Error := AskarError.from_msg AskarError.Busy "Resource handle in use".

(** [remove], under the write lock: [Arc::try_unwrap] gives the value to the owner of
    the last reference, and to nobody else. *)
Definition rm_remove (handle : nat) m : ResMap V * option (res AskarError.Error V) :=
  match rm_map m !! handle with
  | None => (m, None)
  | Some _ =>
      match rm_discard handle m with
      | (m', Some v) => (m', Some (Ok v))
      | (m', None) => (m', Some (Err busy_error))
      end
  end.

(** [borrow] up to where it waits for the lock of the cell, with that cell. *)
Definition rm_borrow (handle : nat) m : res AskarError.Error (ResMap V * nat) :=
  match ('(_, cell) ← rm_map m !! handle; c ← rm_cells m !! cell; mret (cell, c)) with
  | Some (cell, c) =>
      Ok (set_rm_readers (S (rm_readers m))
            (set_rm_cells (<[cell := mkCell (c_value c) (c_locked c) (S (c_refs c))]> (rm_cells m)) m), cell)
  | None => Err (input_error "Invalid resource handle")
  end.

(** The lock is taken, if it is free, and the map released. *)
Definition rm_lock (cell : nat) m : option (ResMap V) :=
  c ← rm_cells m !! cell;
  if c_locked c then None
  else Some (set_rm_readers (pred (rm_readers m))
         (set_rm_cells (<[cell := mkCell (c_value c) true (c_refs c)]> (rm_cells m)) m)).

(** The task that waits gives up. *)
Definition rm_unwait (cell : nat) m : ResMap V * option V := rm_unref cell (set_rm_readers (pred (rm_readers m)) m).

(** The guard of the cell is dropped, after the value has become [v]. *)
Definition rm_unlock (cell : nat) (v : V) m : ResMap V * option V :=
  match rm_cells m !! cell with
  | Some c => rm_unref cell (set_rm_cells (<[cell := mkCell v false (c_refs c)]> (rm_cells m)) m)
  | None => (m, None)
  end.

(** The values in the cells. *)
Definition rm_values m : list V := List.map (λ kc, c_value kc.2) (map_to_list (rm_cells m)).

(** [guard.range(pos..)]: the first handle from [pos] on that belongs to the store. *)
Definition first_from (store pos : nat) m : option nat :=
  List.find (λ h, bool_decide (fst <$> rm_map m !! h = Some store) && (pos <=? h)%nat)
    (merge_sort le (elements (dom (rm_map m)))).

(** The loop of [remove_all], with the values that were dropped. *)
Fixpoint remove_all_loop (fuel store pos : nat) m : ResMap V * list V :=
  match fuel with
  | O => (m, [])
  | S fuel =>
      match first_from store pos m with
      | Some h =>
          let '(m1, v) := rm_discard h m in
          let '(m2, vs) := remove_all_loop fuel store h m1 in
          (m2, option_list v ++ vs)
      | None => (m, [])
      end
  end.

(** Every turn but the last removes a handle. *)
Definition remove_all (store : nat) m : ResMap V * list V := remove_all_loop (S (size (rm_map m))) store 0 m.
End ResMaps.

(** ** Calls *)

(** What is done with a store, a scan or a session once its handle is resolved: the
    operations of src/store.rs with their arguments.  [K] is the type of keys. *)
Inductive StoreOp : Type :=
| StCreateProfile (profile : option string)
| StGetProfileName
| StListProfiles
| StRemoveProfile (profile : string)
| StGetDefaultProfile
| StSetDefaultProfile (profile : string).

Record ScanArgs := mkScanArgs {
  sa_profile : option string;
  sa_category : option string;
  sa_tag_filter : option TagFilter;
  sa_offset : option Z;
  sa_limit : option Z;
  sa_order_by : option OrderBy;
  sa_descending : bool;
}.

Inductive SessionOp (K : Type) : Type :=
| SeCount (category : option string) (tag_filter : option TagFilter)
| SeFetch (category name : string) (for_update : bool)
| SeFetchAll (category : option string) (tag_filter : option TagFilter) (limit : option Z)
    (order_by : option OrderBy) (descending for_update : bool)
| SeRemoveAll (category : option string) (tag_filter : option TagFilter)
| SeUpdate (operation : EntryOperation) (category name : string) (value : option bytes)
    (tags : option (list EntryTag)) (expiry_ms : option Z)
| SeInsertKey (name : string) (key : K) (metadata : option string) (reference : option KeyReference.t)
    (tags : option (list EntryTag)) (expiry_ms : option Z)
| SeFetchKey (name : string) (for_update : bool)
| SeFetchAllKeys (alg thumbprint : option string) (tag_filter : option TagFilter) (limit : option Z) (for_update : bool)
| SeUpdateKey (name : string) (metadata : option string) (tags : option (list EntryTag)) (expiry_ms : option Z)
| SeRemoveKey (name : string).
Arguments SeCount {K}.
Arguments SeFetch {K}.
Arguments SeFetchAll {K}.
Arguments SeRemoveAll {K}.
Arguments SeUpdate {K}.
Arguments SeInsertKey {K}.
Arguments SeFetchKey {K}.
Arguments SeFetchAllKeys {K}.
Arguments SeUpdateKey {K}.
Arguments SeRemoveKey {K}.

(** The values that callbacks receive. *)
Inductive FfiValue : Type :=
| VUnit
| VBool (b : bool)
| VInt (n : Z)
| VString (s : string)
| VStrings (l : list string)
| VStore (handle : nat)
| VSession (handle : nat)
| VScan (handle : nat)
| VEntry (e : option Entry)
| VEntries (l : list Entry)
| VPage (l : option (list Entry))
| VKeyEntry (e : option KeyEntry)
| VKeyEntries (l : list KeyEntry).

Inductive Call (K : Type) : Type :=
| CProvision (spec_uri : string) (key_method : StoreKeyMethod) (pass_key : PassKey) (profile : option string) (recreate : bool)
| COpen (spec_uri : string) (key_method : option StoreKeyMethod) (pass_key : PassKey) (profile : option string)
| CRemove (spec_uri : string)
| CMigrate (spec_uri wallet_name wallet_key kdf_level : string)
| CStore (handle : nat) (op : StoreOp)
| CRekey (handle : nat) (key_method : StoreKeyMethod) (pass_key : PassKey)
| CCopy (handle : nat) (target_uri : string) (key_method : StoreKeyMethod) (pass_key : PassKey) (recreate : bool)
| CClose (handle : nat)
| CScanStart (handle : nat) (args : ScanArgs)
| CScanNext (handle : nat)
| CScanFree (handle : nat)
| CSessionStart (handle : nat) (profile : option string) (as_transaction : bool)
| CSession (handle : nat) (op : SessionOp K)
| CSessionClose (handle : nat) (commit : bool).
Arguments CProvision {K}.
Arguments COpen {K}.
Arguments CRemove {K}.
Arguments CMigrate {K}.
Arguments CStore {K}.
Arguments CRekey {K}.
Arguments CCopy {K}.
Arguments CClose {K}.
Arguments CScanStart {K}.
Arguments CScanNext {K}.
Arguments CScanFree {K}.
Arguments CSessionStart {K}.
Arguments CSession {K}.
Arguments CSessionClose {K}.

(** ** What the tasks call

    The stores, sessions and scans of src/store.rs over whatever is below them ([G]:
    databases, servers, files), as one system: a call changes what is below and, for a
    session or a scan, the object itself.  Rekeying is told whether the caller has the
    only reference to the store.

    Closing a store has two parts, as the pool of connections of a store is closed: what
    [close] does at once ([fs_begin_close]), and what it does ([fs_close]) when no session
    or scan has a connection of the store any more; [fs_holds] and [fs_scan_holds] say
    which have one. *)
Class FfiSystem (K G St Se Sc : Type) := {
  fs_provision : string → StoreKeyMethod → PassKey → option string → bool → stm G AskarError.Error St;
  fs_open : string → option StoreKeyMethod → PassKey → option string → stm G AskarError.Error St;
  fs_remove : string → stm G AskarError.Error bool;
  (** Connecting to a wallet of the Indy SDK and migrating it. *)
  fs_migrate : string → string → string → string → stm G AskarError.Error ();
  fs_store_op : StoreOp → St → stm G AskarError.Error FfiValue;
  fs_rekey : St → bool → StoreKeyMethod → PassKey → stm G AskarError.Error ();
  fs_copy : St → string → StoreKeyMethod → PassKey → bool → stm G AskarError.Error St;
  fs_begin_close : St → G → G;
  fs_close : St → stm G AskarError.Error ();
  fs_holds : St → Se → G → bool;
  fs_scan_holds : St → Sc → G → bool;
  fs_scan : St → ScanArgs → stm G AskarError.Error Sc;
  fs_fetch_next : stm (G * Sc) AskarError.Error (option (list Entry));
  fs_session : St → option string → bool → stm G AskarError.Error Se;
  fs_session_op : SessionOp K → stm (G * Se) AskarError.Error FfiValue;
  fs_commit : Se → stm G AskarError.Error ();
  fs_drop_session : Se → G → G;
  fs_drop_scan : Sc → G → G;
  (** Whether two values are references to one store. *)
  fs_same_store : St → St → bool;
}.

(** ** Tasks *)

Section Pool.
Context `{Build} {K G St Se Sc : Type} `{FfiSystem K G St Se Sc}.
Abbreviation result := (res AskarError.Error FfiValue).

(** How far a task has come: what it holds, and what it does next. *)
Inductive Phase : Type :=
| PStart
(** A clone of the store is in hand. *)
| PStore (s : St)
(** The store was taken out of the map: it is rekeyed and put back. *)
| PTaken (s : St)
| PReplace (s : St) (r : result)
(** A store that is being closed, by the steps that are left. *)
| PCloseSessions (s : St)
| PCloseScans (s : St)
| PCloseStore (s : St)
(** The pool is closed, and what is out of it has to come back. *)
| PCloseWait (s : St)
(** A new object with the handle drawn for it, to be put in its map. *)
| PRegisterStore (s : St) (handle : nat)
| PRegisterSession (v : Se) (handle : nat)
| PRegisterScan (v : Sc) (handle : nat)
(** The map's read lock and a reference to the cell are held. *)
| PWait (cell : nat)
(** The cell is locked. *)
| PHold (cell : nat)
| PCommit (v : Se)
(** All is released and the callback is next. *)
| PResolve (r : result)
| PDone (r : result)
(** The task panicked and the process has ended. *)
| PAborted.

(** [t_cb]: whether there is a callback. *)
Record Task := mkTask { t_call : Call K; t_cb : bool; t_phase : Phase }.

(** The arguments of a callback after its id. *)
Record CbArgs := mkCbArgs { cb_code : ErrorCode; cb_value : option FfiValue }.

(** [RUNTIME]: it is started by the first call, and gone once it was shut down. *)
Inductive Runtime : Set :=
| RtNone
| RtRunning
| RtGone.

Record Ffi := mkFfi {
  f_world : G;
  f_store_counter : N;
  f_stores : gmap nat St;
  f_sessions : ResMap Se;
  f_scans : ResMap Sc;
  f_last : option AskarError.Error;
  f_runtime : Runtime;
  f_tasks : list Task;
  (** The callbacks made so far, with the tasks that made them. *)
  f_calls : list (nat * CbArgs);
}.

Definition set_world (g : G) (f : Ffi) : Ffi :=
  mkFfi g (f_store_counter f) (f_stores f) (f_sessions f) (f_scans f) (f_last f) (f_runtime f) (f_tasks f) (f_calls f).
Definition set_stores (n : N) (m : gmap nat St) (f : Ffi) : Ffi :=
  mkFfi (f_world f) n m (f_sessions f) (f_scans f) (f_last f) (f_runtime f) (f_tasks f) (f_calls f).
Definition set_sessions (m : ResMap Se) (f : Ffi) : Ffi :=
  mkFfi (f_world f) (f_store_counter f) (f_stores f) m (f_scans f) (f_last f) (f_runtime f) (f_tasks f) (f_calls f).
Definition set_scans (m : ResMap Sc) (f : Ffi) : Ffi :=
  mkFfi (f_world f) (f_store_counter f) (f_stores f) (f_sessions f) m (f_last f) (f_runtime f) (f_tasks f) (f_calls f).
Definition set_runtime (b : Runtime) (f : Ffi) : Ffi :=
  mkFfi (f_world f) (f_store_counter f) (f_stores f) (f_sessions f) (f_scans f) (f_last f) b (f_tasks f) (f_calls f).
Definition set_tasks (ts : list Task) (f : Ffi) : Ffi :=
  mkFfi (f_world f) (f_store_counter f) (f_stores f) (f_sessions f) (f_scans f) (f_last f) (f_runtime f) ts (f_calls f).
Definition set_outcome (last : option AskarError.Error) (calls : list (nat * CbArgs)) (f : Ffi) : Ffi :=
  mkFfi (f_world f) (f_store_counter f) (f_stores f) (f_sessions f) (f_scans f) last (f_runtime f) (f_tasks f) calls.

Definition set_phase (i : nat) (t : Task) (p : Phase) (f : Ffi) : Ffi :=
  set_tasks (<[i := mkTask (t_call t) (t_cb t) p]> (f_tasks f)) f.

Definition ffi_initial (g : G) : Ffi := mkFfi g 0 ∅ rm_new rm_new None RtNone [] [].

(** Runs something below the interface. *)
Definition in_world {A} (m : stm G AskarError.Error A) (f : Ffi) : Ffi * res AskarError.Error A :=
  let '(g, r) := m (f_world f) in (set_world g f, r).

Definition drop_session (v : option Se) (f : Ffi) : Ffi :=
  match v with Some v => set_world (fs_drop_session v (f_world f)) f | None => f end.
Definition drop_scan (v : option Sc) (f : Ffi) : Ffi :=
  match v with Some v => set_world (fs_drop_scan v (f_world f)) f | None => f end.

(** ** Callbacks *)

(** [EnsureCallback] dropped before it was resolved: its closure gets this error. *)
Definition dropped_error : AskarError.Error := AskarError.from_kind AskarError.Unexpected.

(** The closure converts the value first; a string with a zero byte makes it panic. *)
Definition convertible (v : FfiValue) : bool :=
  match v with VString s => is_ok (@c_string AskarError.Error s) | _ => true end.

(** Whether a task with that outcome calls its callback: [resolve] marks it as resolved
    before the closure runs, so that a panic there is the end of it. *)
Definition calls_back (cb : bool) (r : result) : bool :=
  cb && match r with Ok v => convertible v | _ => true end.

Definition callback_args (r : result) : CbArgs :=
  match r with
  | Ok v => mkCbArgs ErrorCode.Success (Some v)
  | Err e => mkCbArgs (ErrorCode.from_kind (AskarError.kind e)) None
  | Panic => mkCbArgs (ErrorCode.from_kind (AskarError.kind dropped_error)) None
  end.

(** What the callback leaves as the last error. *)
Definition callback_last (r : result) (last : option AskarError.Error) : option AskarError.Error :=
  match r with
  | Ok _ => last
  | Err e => (set_last_error (Some e) last).1
  | Panic => (set_last_error (Some dropped_error) last).1
  end.

(** The end of a task: the callback, if there is one and its closure does not panic. *)
Definition finish (i : nat) (t : Task) (r : result) (f : Ffi) : Ffi :=
  if calls_back (t_cb t) r
  then set_phase i t (PDone r) (set_outcome (callback_last r (f_last f)) (f_calls f ++ [(i, callback_args r)]) f)
  else set_phase i t (if t_cb t && panic_aborts then PAborted else PDone r) f.

(** ** Steps *)

(** A task that panicked: its callback is dropped while it unwinds, or the process ends. *)
Definition panicked : Phase := if panic_aborts then PAborted else PResolve Panic.

(** All is released, with that outcome. *)
Definition settled (r : result) : Phase := match r with Panic => panicked | _ => PResolve r end.

(** The result of something below; [next] goes on with it. *)
Definition continue {A} (i : nat) (t : Task) (x : Ffi * res AskarError.Error A) (next : A → Ffi → Ffi) : Ffi :=
  match x.2 with
  | Ok a => next a x.1
  | Err e => set_phase i t (PResolve (Err e)) x.1
  | Panic => set_phase i t panicked x.1
  end.

Definition resolve_with (i : nat) (t : Task) (v : FfiValue) (f : Ffi) : Ffi := set_phase i t (PResolve (Ok v)) f.

(** [StoreHandle::create] and [insert] up to where they take the write lock: a handle is
    drawn. *)
Definition register_store (i : nat) (t : Task) (s : St) (f : Ffi) : Ffi :=
  let '(counter, r) := next_handle (E := AskarError.Error) (f_store_counter f) in
  let f := set_stores counter (f_stores f) f in
  match r with Ok h => set_phase i t (PRegisterStore s h) f | _ => set_phase i t panicked f end.
Definition register_session (i : nat) (t : Task) (v : Se) (f : Ffi) : Ffi :=
  let '(m, r) := rm_next (f_sessions f) in
  let f := set_sessions m f in
  match r with Ok h => set_phase i t (PRegisterSession v h) f | _ => set_phase i t panicked (drop_session (Some v) f) end.
Definition register_scan (i : nat) (t : Task) (v : Sc) (f : Ffi) : Ffi :=
  let '(m, r) := rm_next (f_scans f) in
  let f := set_scans m f in
  match r with Ok h => set_phase i t (PRegisterScan v h) f | _ => set_phase i t panicked (drop_scan (Some v) f) end.

(** [handle.load().await?]. *)
Definition load_store (i : nat) (t : Task) (handle : nat) (f : Ffi) : Ffi :=
  match f_stores f !! handle with
  | Some s => set_phase i t (PStore s) f
  | None => set_phase i t (PResolve (Err (input_error "Invalid store handle"))) f
  end.

(** [handle.remove().await?]. *)
Definition remove_store (i : nat) (t : Task) (handle : nat) (next : St → Phase) (f : Ffi) : Ffi :=
  match f_stores f !! handle with
  | Some s => set_phase i t (next s) (set_stores (f_store_counter f) (delete handle (f_stores f)) f)
  | None => set_phase i t (PResolve (Err (input_error "Invalid store handle"))) f
  end.

(** The first step of a task; [None] while it cannot get the lock it needs. *)
Definition step_start (i : nat) (t : Task) (f : Ffi) : option Ffi :=
  match t_call t with
  | CProvision spec_uri key_method pass_key profile recreate =>
      Some (continue i t (in_world (fs_provision spec_uri key_method pass_key profile recreate) f) (register_store i t))
  | COpen spec_uri key_method pass_key profile =>
      Some (continue i t (in_world (fs_open spec_uri key_method pass_key profile) f) (register_store i t))
  | CRemove spec_uri =>
      Some (continue i t (in_world (fs_remove spec_uri) f) (λ removed, resolve_with i t (VBool removed)))
  | CMigrate spec_uri wallet_name wallet_key kdf_level =>
      Some (continue i t (in_world (fs_migrate spec_uri wallet_name wallet_key kdf_level) f) (λ _, resolve_with i t VUnit))
  | CStore handle _ | CCopy handle _ _ _ _ | CScanStart handle _ | CSessionStart handle _ _ =>
      Some (load_store i t handle f)
  | CRekey handle _ _ => Some (remove_store i t handle PTaken f)
  | CClose handle => Some (remove_store i t handle PCloseSessions f)
  | CScanNext handle =>
      match rm_borrow handle (f_scans f) with
      | Ok (m, cell) => Some (set_phase i t (PWait cell) (set_scans m f))
      | Err e => Some (set_phase i t (PResolve (Err e)) f)
      | Panic => Some (set_phase i t panicked f)
      end
  | CSession handle _ =>
      match rm_borrow handle (f_sessions f) with
      | Ok (m, cell) => Some (set_phase i t (PWait cell) (set_sessions m f))
      | Err e => Some (set_phase i t (PResolve (Err e)) f)
      | Panic => Some (set_phase i t panicked f)
      end
  | CScanFree handle =>
      if (rm_readers (f_scans f) =? 0)%nat then
        let '(m, r) := rm_remove handle (f_scans f) in
        let v := match r with Some (Ok v) => Some v | _ => None end in
        Some (resolve_with i t VUnit (drop_scan v (set_scans m f)))
      else None
  | CSessionClose handle commit =>
      if (rm_readers (f_sessions f) =? 0)%nat then
        let '(m, r) := rm_remove handle (f_sessions f) in
        let f := set_sessions m f in
        Some match r with
             | None => resolve_with i t VUnit f
             | Some (Ok v) =>
                 if commit then set_phase i t (PCommit v) f
                 else resolve_with i t VUnit (drop_session (Some v) f)
             | Some (Err e) => set_phase i t (PResolve (Err e)) f
             | Some Panic => set_phase i t panicked f
             end
      else None
  end.

(** The references to a store: its handles and the tasks that hold it. *)
Definition holds_store (s : St) (t : Task) : bool :=
  match t_phase t with
  | PStore s' | PTaken s' | PReplace s' _ | PCloseSessions s' | PCloseScans s' | PCloseStore s' | PCloseWait s'
  | PRegisterStore s' _ => fs_same_store s s'
  | _ => false
  end.
Definition store_refs (s : St) (f : Ffi) : nat :=
  (length (List.filter (fs_same_store s) (map_to_list (f_stores f)).*2) + length (List.filter (holds_store s) (f_tasks f)))%nat.

(** With the store in hand. *)
Definition step_store (i : nat) (t : Task) (s : St) (f : Ffi) : Ffi :=
  match t_call t with
  | CStore _ op => continue i t (in_world (fs_store_op op s) f) (resolve_with i t)
  | CCopy _ target_uri key_method pass_key recreate =>
      continue i t (in_world (fs_copy s target_uri key_method pass_key recreate) f) (register_store i t)
  | CScanStart _ args => continue i t (in_world (fs_scan s args) f) (register_scan i t)
  | CSessionStart _ profile as_transaction =>
      continue i t (in_world (fs_session s profile as_transaction) f) (register_session i t)
  | _ => set_phase i t panicked f
  end.

(** [store.rekey(..).await]: its result waits until the store is back; on a panic it is not. *)
Definition step_rekey (i : nat) (t : Task) (s : St) (f : Ffi) : Ffi :=
  match t_call t with
  | CRekey _ key_method pass_key =>
      let '(f', r) := in_world (fs_rekey s (store_refs s f =? 1)%nat key_method pass_key) f in
      match r with
      | Ok _ => set_phase i t (PReplace s (Ok VUnit)) f'
      | Err e => set_phase i t (PReplace s (Err e)) f'
      | Panic => set_phase i t panicked f'
      end
  | _ => set_phase i t panicked f
  end.

(** With the session or scan locked. *)
Definition step_hold (i : nat) (t : Task) (cell : nat) (f : Ffi) : Ffi :=
  match t_call t with
  | CSession _ op =>
      match rm_cells (f_sessions f) !! cell with
      | Some c =>
          let '((g, v), r) := fs_session_op op (f_world f, c_value c) in
          let '(m, gone) := rm_unlock cell v (f_sessions f) in
          set_phase i t (settled r) (drop_session gone (set_sessions m (set_world g f)))
      | None => set_phase i t panicked f
      end
  | CScanNext _ =>
      match rm_cells (f_scans f) !! cell with
      | Some c =>
          let '((g, v), r) := fs_fetch_next (f_world f, c_value c) in
          let '(m, gone) := rm_unlock cell v (f_scans f) in
          set_phase i t (settled (VPage <$> r)) (drop_scan gone (set_scans m (set_world g f)))
      | None => set_phase i t panicked f
      end
  | _ => set_phase i t panicked f
  end.

(** The sessions and scans that exist: in their cells, or with a task that is about to
    insert or commit them. *)
Definition task_session (t : Task) : option Se :=
  match t_phase t with PRegisterSession v _ | PCommit v => Some v | _ => None end.
Definition task_scan (t : Task) : option Sc :=
  match t_phase t with PRegisterScan v _ => Some v | _ => None end.
Definition live_sessions (f : Ffi) : list Se := rm_values (f_sessions f) ++ omap task_session (f_tasks f).
Definition live_scans (f : Ffi) : list Sc := rm_values (f_scans f) ++ omap task_scan (f_tasks f).

(** Whether a connection of the store is out. *)
Definition connected (s : St) (f : Ffi) : bool :=
  existsb (λ v, fs_holds s v (f_world f)) (live_sessions f)
  || existsb (λ v, fs_scan_holds s v (f_world f)) (live_scans f).

(** The handle that the call was made with. *)
Definition call_handle (c : Call K) : nat :=
  match c with
  | CProvision _ _ _ _ _ | COpen _ _ _ _ | CRemove _ | CMigrate _ _ _ _ => 0
  | CStore h _ | CRekey h _ _ | CCopy h _ _ _ _ | CClose h | CScanStart h _ | CScanNext h | CScanFree h
  | CSessionStart h _ _ | CSession h _ | CSessionClose h _ => h
  end.

Definition on_scans (c : Call K) : bool := match c with CScanNext _ => true | _ => false end.

(** One step of task [i]: [None] when there is nothing to do or a lock is not free. *)
Definition step_task (i : nat) (f : Ffi) : option Ffi :=
  t ← f_tasks f !! i;
  match t_phase t with
  | PStart => step_start i t f
  | PStore s => Some (step_store i t s f)
  | PTaken s => Some (step_rekey i t s f)
  | PReplace s r =>
      Some (set_phase i t (PResolve r) (set_stores (f_store_counter f) (<[call_handle (t_call t) := s]> (f_stores f)) f))
  | PCloseSessions s =>
      if (rm_readers (f_sessions f) =? 0)%nat then
        let '(m, vs) := remove_all (call_handle (t_call t)) (f_sessions f) in
        Some (set_phase i t (PCloseScans s) (set_world (foldl (λ g v, fs_drop_session v g) (f_world f) vs) (set_sessions m f)))
      else None
  | PCloseScans s =>
      if (rm_readers (f_scans f) =? 0)%nat then
        let '(m, vs) := remove_all (call_handle (t_call t)) (f_scans f) in
        Some (set_phase i t (PCloseStore s) (set_world (foldl (λ g v, fs_drop_scan v g) (f_world f) vs) (set_scans m f)))
      else None
  | PCloseStore s => Some (set_phase i t (PCloseWait s) (set_world (fs_begin_close s (f_world f)) f))
  | PCloseWait s =>
      if connected s f then None
      else Some (continue i t (in_world (fs_close s) f) (λ _, resolve_with i t VUnit))
  | PRegisterStore s h =>
      Some (resolve_with i t (VStore h) (set_stores (f_store_counter f) (<[h := s]> (f_stores f)) f))
  | PRegisterSession v h =>
      if (rm_readers (f_sessions f) =? 0)%nat then
        let '(m, old) := rm_insert h (call_handle (t_call t)) v (f_sessions f) in
        Some (resolve_with i t (VSession h) (drop_session old (set_sessions m f)))
      else None
  | PRegisterScan v h =>
      if (rm_readers (f_scans f) =? 0)%nat then
        let '(m, old) := rm_insert h (call_handle (t_call t)) v (f_scans f) in
        Some (resolve_with i t (VScan h) (drop_scan old (set_scans m f)))
      else None
  | PWait c =>
      if on_scans (t_call t) then m ← rm_lock c (f_scans f); Some (set_phase i t (PHold c) (set_scans m f))
      else m ← rm_lock c (f_sessions f); Some (set_phase i t (PHold c) (set_sessions m f))
  | PHold c => Some (step_hold i t c f)
  | PCommit v => Some (continue i t (in_world (fs_commit v) f) (λ _, resolve_with i t VUnit))
  | PResolve r => Some (finish i t r f)
  | PDone _ | PAborted => None
  end.

(** What a task gives back when the runtime drops it where it waits. *)
Definition release (t : Task) (f : Ffi) : Ffi :=
  match t_phase t with
  | PRegisterSession v _ | PCommit v => drop_session (Some v) f
  | PRegisterScan v _ => drop_scan (Some v) f
  | PWait h =>
      if on_scans (t_call t) then let '(m, gone) := rm_unwait h (f_scans f) in drop_scan gone (set_scans m f)
      else let '(m, gone) := rm_unwait h (f_sessions f) in drop_session gone (set_sessions m f)
  | PHold h =>
      if on_scans (t_call t) then
        match rm_cells (f_scans f) !! h with
        | Some c => let '(m, gone) := rm_unlock h (c_value c) (f_scans f) in drop_scan gone (set_scans m f)
        | None => f
        end
      else
        match rm_cells (f_sessions f) !! h with
        | Some c => let '(m, gone) := rm_unlock h (c_value c) (f_sessions f) in drop_session gone (set_sessions m f)
        | None => f
        end
  | _ => f
  end.

(** A task dropped by the runtime: its callback is told. *)
Definition cancel_task (i : nat) (f : Ffi) : option Ffi :=
  t ← f_tasks f !! i;
  match t_phase t with
  | PResolve _ | PDone _ | PAborted => None
  | _ => Some (finish i t Panic (release t f))
  end.

(** [spawn_ok]: the first call starts the runtime; once it was shut down a task is dropped
    at once. *)
Definition spawn (c : Call K) (cb : bool) (f : Ffi) : Ffi :=
  let i := length (f_tasks f) in
  let t := mkTask c cb PStart in
  let f' := set_tasks (f_tasks f ++ [t]) f in
  match f_runtime f with
  | RtNone | RtRunning => set_runtime RtRunning f'
  | RtGone => finish i t Panic f'
  end.

(** [askar_terminate]: nothing happens to a runtime that was not started. *)
Definition shut_down (f : Ffi) : Ffi :=
  match f_runtime f with RtNone => f | RtRunning | RtGone => set_runtime RtGone f end.

(** Whether a panic has ended the process. *)
Definition aborted (f : Ffi) : bool :=
  existsb (λ t, match t_phase t with PAborted => true | _ => false end) (f_tasks f).

(** What can happen, in a process that lives. *)
Inductive ffi_step : Ffi → Ffi → Prop :=
| StepSpawn c cb f : aborted f = false → ffi_step f (spawn c cb f)
| StepTask i f f' : aborted f = false → step_task i f = Some f' → ffi_step f f'
| StepShutDown f : aborted f = false → ffi_step f (shut_down f)
| StepCancel i f f' : aborted f = false → f_runtime f = RtGone → cancel_task i f = Some f' → ffi_step f f'.
End Pool.
