(* ===== verification/FfiPoolInv.v ===== *)
(** * The tasks of the foreign function interface: what always holds

    The references to sessions and scans are counted right and their locks exclude each
    other, whatever the tasks are and however they interleave; no set of tasks can
    block itself; every task ends and makes its callback once. *)

From stdpp Require Import sorting.
From S2P Require Import Prelude Errors Entry FfiHandles FfiPool.
Local Open Scope list_scope.

(** ** Counting *)

Section Tally.
Context {A : Type}.

Definition tally (p : A → bool) (l : list A) : nat := length (List.filter p l).

Lemma tally_app p l1 l2 : tally p (l1 ++ l2) = (tally p l1 + tally p l2)%nat.
Proof. unfold tally. by rewrite List.filter_app, length_app. Qed.

Lemma tally_insert p l i x y : l !! i = Some x →
  (tally p (<[i := y]> l) + (if p x then 1 else 0) = tally p l + (if p y then 1 else 0))%nat.
Proof.
  intros Hi. rewrite <- (take_drop_middle l i x Hi) at 2.
  rewrite insert_take_drop by (by eapply lookup_lt_Some). rewrite !tally_app.
  change (y :: ?l) with ([y] ++ l). change (x :: ?l) with ([x] ++ l). rewrite !tally_app. unfold tally. cbn [List.filter].
  destruct (p x), (p y); cbn [length]; lia.
Qed.

Lemma tally_pos p l : (1 ≤ tally p l)%nat → ∃ i x, l !! i = Some x ∧ p x = true.
Proof.
  unfold tally. intros Hl. destruct (List.filter p l) as [|x l'] eqn:E; cbn in Hl; [lia|].
  assert (List.In x (List.filter p l)) as Hin by (rewrite E; by left).
  apply List.filter_In in Hin as [Hin Hp]. apply list_elem_of_In, list_elem_of_lookup in Hin as [i Hi]. eauto.
Qed.

Lemma tally_lookup p l i x : l !! i = Some x → p x = true → (1 ≤ tally p l)%nat.
Proof.
  intros Hi Hp. pose proof (tally_insert p l i x x Hi) as E.
  unfold tally. destruct (List.filter p l) eqn:El; [|cbn; lia].
  assert (List.In x (List.filter p l)) as Hin; [|by rewrite El in Hin].
  apply List.filter_In. split; [|done]. apply list_elem_of_In. by eapply list_elem_of_lookup_2.
Qed.
End Tally.

(** ** The users of a map of resources *)

(** What a task has to do with a map: nothing, it waits for a cell with the map's lock
    held, or it has a cell locked. *)
Inductive Use : Set :=
| UNone
| UWait (c : nat)
| UHold (c : nat).

#[export] Instance Use_eq_dec : EqDecision Use.
Proof. solve_decision. Defined.

Definition is_use (u u' : Use) : bool := bool_decide (u = u').
Definition is_wait (u : Use) : bool := match u with UWait _ => true | _ => false end.

(** The number of handles that lead to a cell. *)
Definition handles_of (x : gmap nat (nat * nat)) (c : nat) : nat := size (filter (λ kv, kv.2.2 = c) x).

Lemma handles_of_insert x h s c c' : x !! h = None →
  handles_of (<[h := (s, c)]> x) c' = (handles_of x c' + if decide (c = c') then 1 else 0)%nat.
Proof.
  intros Hh. unfold handles_of. destruct (decide (c = c')) as [->|Hne].
  - rewrite map_filter_insert_True by done. rewrite map_size_insert_None; [lia|]. by apply map_lookup_filter_None_2; left.
  - rewrite map_filter_insert_False by done. rewrite delete_id by done. lia.
Qed.

Lemma handles_of_delete x h s c c' : x !! h = Some (s, c) →
  handles_of x c' = (handles_of (delete h x) c' + if decide (c = c') then 1 else 0)%nat.
Proof. intros Hh. rewrite <- (handles_of_insert _ h s) by apply lookup_delete_eq. by rewrite insert_delete_id. Qed.

Lemma handles_of_pos x h s c : x !! h = Some (s, c) → (1 ≤ handles_of x c)%nat.
Proof. intros Hh. rewrite (handles_of_delete x h s c c Hh), decide_True by done. lia. Qed.

Lemma handles_of_inv x c : (1 ≤ handles_of x c)%nat → ∃ h s, x !! h = Some (s, c).
Proof.
  intros Hp. assert (size (filter (λ kv, kv.2.2 = c) x) ≠ 0%nat) as Hs by (unfold handles_of in Hp; lia).
  apply map_size_ne_0_lookup in Hs as (h & [s c'] & [Hx Hc]%map_lookup_filter_Some). cbn in Hc. subst c'. by exists h, s.
Qed.

(** Two handles of one cell are two. *)
Lemma handles_of_unique x h h' s s' c : (handles_of x c ≤ 1)%nat → x !! h = Some (s, c) → x !! h' = Some (s', c) → h = h'.
Proof.
  intros Hle Hh Hh'. destruct (decide (h = h')) as [|Hne]; [done|].
  rewrite (handles_of_delete _ _ _ _ c Hh), decide_True in Hle by done.
  pose proof (handles_of_pos (delete h x) h' s' c ltac:(by rewrite lookup_delete_ne)). lia.
Qed.

Section MapInv.
Context {V : Type}.
Implicit Types m : ResMap V.

Definition in_map m (c : nat) : nat := handles_of (rm_map m) c.

(** What holds of a cell that [w] tasks wait for and [k] have locked. *)
Definition slot_ok m (c w k : nat) : Prop :=
  (in_map m c ≤ 1)%nat ∧
  match rm_cells m !! c with
  | Some x => c_refs x = (in_map m c + w + k)%nat ∧ (1 ≤ c_refs x)%nat ∧ k = (if c_locked x then 1 else 0)%nat ∧ (c < rm_fresh m)%nat
  | None => in_map m c = 0%nat ∧ w = 0%nat ∧ k = 0%nat
  end.

Definition rm_inv m (us : list Use) : Prop :=
  rm_readers m = tally is_wait us
  ∧ ∀ c, slot_ok m c (tally (is_use (UWait c)) us) (tally (is_use (UHold c)) us).

(** The numbers after one user has changed. *)
Lemma use_change us i u u' c : us !! i = Some u →
  (tally (is_use (UWait c)) (<[i := u']> us) + (if is_use (UWait c) u then 1 else 0)
   = tally (is_use (UWait c)) us + (if is_use (UWait c) u' then 1 else 0))%nat
  ∧ (tally (is_use (UHold c)) (<[i := u']> us) + (if is_use (UHold c) u then 1 else 0)
   = tally (is_use (UHold c)) us + (if is_use (UHold c) u' then 1 else 0))%nat
  ∧ (tally is_wait (<[i := u']> us) + (if is_wait u then 1 else 0) = tally is_wait us + (if is_wait u' then 1 else 0))%nat.
Proof. intros Hi. split_and!; by apply tally_insert. Qed.

Lemma is_use_neq u u' : u ≠ u' → is_use u u' = false.
Proof. intros ?. by apply bool_decide_eq_false_2. Qed.
Lemma is_use_eq u : is_use u u = true.
Proof. by apply bool_decide_eq_true_2. Qed.
End MapInv.

(** Decides comparisons of uses, the cells being known to be equal or not. *)
Ltac uses_simpl :=
  repeat match goal with
  | H : context [is_use ?a ?b] |- _ => first [rewrite (is_use_eq a) in H | rewrite (is_use_neq a b) in H by congruence]
  | |- context [is_use ?a ?b] => first [rewrite (is_use_eq a) | rewrite (is_use_neq a b) by congruence]
  end.

(** The numbers of one cell after the user at [i] has become [u']. *)
Ltac use_counts Hi u' c :=
  let Hc := fresh "Hc" in
  pose proof (use_change _ _ _ u' c Hi) as Hc;
  destruct Hc as (?Hw & ?Hk & ?Hr); cbn [is_wait] in *; uses_simpl.

Ltac slot := repeat first [done | lia | progress destruct_and? | progress split_and?].

(** Unfolds what holds of a cell, in the hypothesis and the goal. *)
Ltac slot_unfold :=
  unfold slot_ok, in_map in *;
  cbn [set_rm_cells set_rm_map set_rm_readers rm_cells rm_map rm_fresh rm_readers c_refs c_locked] in *.

Section MapSteps.
Context {V : Type}.
Implicit Types m : ResMap V.

Lemma rm_inv_new : rm_inv (rm_new (V := V)) [].
Proof.
  split; [done|]. intros c. slot_unfold. unfold handles_of. cbn [rm_new rm_map rm_cells].
  rewrite lookup_empty, map_filter_empty, map_size_empty. unfold tally. cbn. slot.
Qed.

Lemma rm_inv_app m us : rm_inv m us → rm_inv m (us ++ [UNone]).
Proof.
  intros [Hr Hs]. split; [by rewrite tally_app, Hr; unfold tally; cbn; lia|]. intros c. rewrite !tally_app.
  specialize (Hs c). unfold tally at 2 4. cbn [List.filter]. uses_simpl. cbn [length]. by rewrite !Nat.add_0_r.
Qed.

(** A user that stops to be one without having been counted, or that was none. *)
Lemma rm_inv_none m us i : rm_inv m us → us !! i = Some UNone → rm_inv m (<[i := UNone]> us).
Proof. intros Hm Hi. by rewrite list_insert_id. Qed.

(** Drawing a handle concerns nobody. *)
Lemma rm_inv_next `{Build} m us : rm_inv m us → rm_inv (rm_next m).1 us.
Proof. unfold rm_next. by destruct (next_handle _). Qed.

Lemma rm_inv_borrow m m' us i h c : rm_inv m us → us !! i = Some UNone → rm_borrow h m = Ok (m', c) →
  rm_inv m' (<[i := UWait c]> us).
Proof.
  intros [Hr Hs] Hi. unfold rm_borrow. destruct (rm_map m !! h) as [[s c0]|] eqn:Em; [|done].
  cbn [mbind option_bind]. destruct (rm_cells m !! c0) as [x|] eqn:Ec; [|done]. intros [= <- <-].
  split; [use_counts Hi (UWait c0) 0%nat; cbn; lia|].
  intros c. specialize (Hs c). slot_unfold. destruct (decide (c = c0)) as [->|Hne].
  - use_counts Hi (UWait c0) c0. rewrite lookup_insert_eq. cbn. rewrite Ec in Hs. slot.
  - use_counts Hi (UWait c0) c. rewrite lookup_insert_ne by done. destruct (rm_cells m !! c); slot.
Qed.

Lemma rm_inv_lock m m' us i c0 : rm_inv m us → us !! i = Some (UWait c0) → rm_lock c0 m = Some m' →
  rm_inv m' (<[i := UHold c0]> us).
Proof.
  intros [Hr Hs] Hi. unfold rm_lock. destruct (rm_cells m !! c0) as [x|] eqn:Ec; [|done]. cbn.
  destruct (c_locked x) eqn:El; [done|]. intros [= <-].
  assert (1 ≤ tally is_wait us)%nat by (eapply tally_lookup; [exact Hi|done]).
  split; [use_counts Hi (UHold c0) 0%nat; cbn; lia|].
  intros c. specialize (Hs c). slot_unfold. destruct (decide (c = c0)) as [->|Hne].
  - use_counts Hi (UHold c0) c0. rewrite lookup_insert_eq. cbn. rewrite Ec, El in *. slot.
  - use_counts Hi (UHold c0) c. rewrite lookup_insert_ne by done. destruct (rm_cells m !! c); slot.
Qed.

(** A reference to the cell [c0] that nobody accounts for any more is given up. *)
Lemma rm_inv_unref m us c0 x : rm_readers m = tally is_wait us → rm_cells m !! c0 = Some x →
  (∀ c, c ≠ c0 → slot_ok m c (tally (is_use (UWait c)) us) (tally (is_use (UHold c)) us)) →
  c_refs x = S (in_map m c0 + tally (is_use (UWait c0)) us + tally (is_use (UHold c0)) us) →
  tally (is_use (UHold c0)) us = (if c_locked x then 1 else 0)%nat → (in_map m c0 ≤ 1)%nat → (c0 < rm_fresh m)%nat →
  rm_inv (rm_unref c0 m).1 us.
Proof.
  intros Hr Hx Hs Hn Hk Hle Hf. unfold rm_unref. rewrite Hx. destruct (Nat.eqb_spec (c_refs x) 1) as [E|E].
  - split; [done|]. intros c. cbn [fst]. destruct (decide (c = c0)) as [->|Hne].
    + slot_unfold. rewrite lookup_delete_eq. slot.
    + specialize (Hs c Hne). slot_unfold. by rewrite lookup_delete_ne.
  - split; [done|]. intros c. cbn [fst]. destruct (decide (c = c0)) as [->|Hne].
    + slot_unfold. rewrite lookup_insert_eq. cbn. slot.
    + specialize (Hs c Hne). slot_unfold. by rewrite lookup_insert_ne.
Qed.

Lemma rm_inv_unwait m us i c0 : rm_inv m us → us !! i = Some (UWait c0) → rm_inv (rm_unwait c0 m).1 (<[i := UNone]> us).
Proof.
  intros [Hr Hs] Hi. assert (1 ≤ tally is_wait us)%nat by (eapply tally_lookup; [exact Hi|done]).
  assert (1 ≤ tally (is_use (UWait c0)) us)%nat by (eapply tally_lookup; [exact Hi|apply is_use_eq]).
  pose proof (Hs c0) as Hs0. unfold slot_ok, in_map in Hs0. use_counts Hi UNone c0.
  destruct (rm_cells m !! c0) as [x|] eqn:Ec; [|slot].
  eapply rm_inv_unref; [cbn; lia|exact Ec| |slot_unfold; slot..].
  intros c Hne. specialize (Hs c). use_counts Hi UNone c. slot_unfold. destruct (rm_cells m !! c); slot.
Qed.

Lemma rm_inv_unlock m us i c0 v : rm_inv m us → us !! i = Some (UHold c0) → rm_inv (rm_unlock c0 v m).1 (<[i := UNone]> us).
Proof.
  intros [Hr Hs] Hi. assert (1 ≤ tally (is_use (UHold c0)) us)%nat by (eapply tally_lookup; [exact Hi|apply is_use_eq]).
  pose proof (Hs c0) as Hs0. unfold slot_ok, in_map in Hs0. use_counts Hi UNone c0. unfold rm_unlock.
  destruct (rm_cells m !! c0) as [x|] eqn:Ec; [|slot].
  assert (tally (is_use (UHold c0)) us = 1)%nat by (destruct (c_locked x); slot).
  eapply rm_inv_unref; [cbn; lia|cbn; apply lookup_insert_eq| |slot_unfold; slot..].
  intros c Hne. specialize (Hs c). use_counts Hi UNone c. slot_unfold. rewrite lookup_insert_ne by done.
  destruct (rm_cells m !! c); slot.
Qed.

Lemma rm_inv_discard m us h : rm_inv m us → rm_inv (rm_discard h m).1 us.
Proof.
  intros [Hr Hs]. unfold rm_discard. destruct (rm_map m !! h) as [[s c0]|] eqn:Em; [|done].
  assert (Hd : ∀ c, in_map m c = (in_map (set_rm_map (delete h (rm_map m)) m) c + if decide (c0 = c) then 1 else 0)%nat)
    by (intros c; by apply handles_of_delete with (s := s)).
  pose proof (Hs c0) as [Hle Hs0]. pose proof (Hd c0) as Hd0. rewrite decide_True in Hd0 by done.
  destruct (rm_cells m !! c0) as [x|] eqn:Ec; [|slot].
  eapply rm_inv_unref; [done|exact Ec| |cbn [rm_fresh set_rm_map]; slot..].
  intros c Hne. specialize (Hs c). specialize (Hd c). rewrite decide_False in Hd by done. unfold slot_ok in *.
  cbn [rm_cells rm_fresh set_rm_map] in *. rewrite Nat.add_0_r in Hd. by rewrite <- Hd.
Qed.

Lemma discard_map h m : rm_map (rm_discard h m).1 = delete h (rm_map m).
Proof.
  unfold rm_discard. destruct (rm_map m !! h) as [[s c]|] eqn:E; [|by rewrite delete_id].
  unfold rm_unref. cbn. destruct (rm_cells m !! c) as [x|]; [|done]. by destruct (c_refs x =? 1)%nat.
Qed.

Lemma rm_inv_insert m us h store v : rm_inv m us → rm_inv (rm_insert h store v m).1 us.
Proof.
  intros Hm. unfold rm_insert. pose proof (rm_inv_discard m us h Hm) as [Hr Hs]. pose proof (discard_map h m) as Hn.
  destruct (rm_discard h m) as [m1 old]. cbn [fst] in *. split; [done|]. intros c. specialize (Hs c).
  assert (Hh : rm_map m1 !! h = None) by (rewrite Hn; apply lookup_delete_eq).
  unfold slot_ok, in_map in *. cbn [rm_cells rm_map rm_fresh]. rewrite handles_of_insert by done.
  destruct (decide (rm_fresh m1 = c)) as [<-|Hne].
  - rewrite lookup_insert_eq. cbn. destruct (rm_cells m1 !! rm_fresh m1); slot.
  - rewrite lookup_insert_ne, Nat.add_0_r by done. destruct (rm_cells m1 !! c); slot.
Qed.

Lemma rm_inv_remove m us h : rm_inv m us → rm_inv (rm_remove h m).1 us.
Proof.
  intros Hm. unfold rm_remove. destruct (rm_map m !! h); [|done].
  pose proof (rm_inv_discard m us h Hm) as H'. by destruct (rm_discard h m) as [m' [v|]].
Qed.

Lemma first_from_some store pos m h : first_from store pos m = Some h → fst <$> rm_map m !! h = Some store.
Proof.
  intros [_ Hb]%List.find_some. by apply andb_true_iff in Hb as [Hb%bool_decide_eq_true _].
Qed.

Lemma rm_inv_remove_all m us store : rm_inv m us → rm_inv (remove_all store m).1 us.
Proof.
  unfold remove_all. generalize (S (size (rm_map m))) 0%nat. intros fuel. revert m.
  induction fuel as [|fuel IH]; intros m pos Hm; cbn [remove_all_loop]; [done|].
  destruct (first_from store pos m) as [h|]; [|done].
  pose proof (rm_inv_discard m us h Hm) as H1.
  destruct (rm_discard h m) as [m1 v]. cbn [fst] in H1. specialize (IH m1 h H1).
  by destruct (remove_all_loop fuel store h m1).
Qed.
End MapSteps.

(** A locked cell is there. *)
Lemma hold_cell {V} (m : ResMap V) us i c : rm_inv m us → us !! i = Some (UHold c) → is_Some (rm_cells m !! c).
Proof.
  intros [_ Hs] Hi. specialize (Hs c). pose proof (tally_lookup (is_use (UHold c)) _ _ _ Hi (is_use_eq _)).
  destruct Hs as [_ Hs]. destruct (rm_cells m !! c); [by eexists|lia].
Qed.

(** ** The loop over the resources of a store *)

Section RemoveAll.
Context {V : Type}.
Implicit Types m : ResMap V.

Lemma find_sorted (p : nat → bool) l : StronglySorted le l →
  match List.find p l with
  | Some x => ∀ y, y ∈ l → p y = true → (x ≤ y)%nat
  | None => ∀ y, y ∈ l → p y = false
  end.
Proof.
  induction 1 as [|x l Hl IH Hx]; cbn [List.find]; [by intros y Hy%not_elem_of_nil|].
  destruct (p x) eqn:Ep.
  - intros y [->|Hy]%elem_of_cons _; [done|]. by eapply (proj1 (Forall_forall _ _)) in Hy; [|exact Hx].
  - destruct (List.find p l); intros y [->|Hy]%elem_of_cons; naive_solver congruence.
Qed.

Lemma first_from_spec store pos m :
  match first_from store pos m with
  | Some h => ∀ h', (pos ≤ h')%nat → fst <$> rm_map m !! h' = Some store → (h ≤ h')%nat
  | None => ∀ h', (pos ≤ h')%nat → fst <$> rm_map m !! h' ≠ Some store
  end.
Proof.
  unfold first_from. set (l := merge_sort le _). set (p := λ h, _).
  assert (Hin : ∀ h', fst <$> rm_map m !! h' = Some store → h' ∈ l).
  { intros h' Hh. unfold l. rewrite merge_sort_Permutation, elem_of_elements. apply elem_of_dom.
    destruct (rm_map m !! h'); [by eexists|done]. }
  assert (Hp : ∀ h', (pos ≤ h')%nat → fst <$> rm_map m !! h' = Some store → p h' = true).
  { intros h' Hh Hm. unfold p. by rewrite bool_decide_eq_true_2, (proj2 (Nat.leb_le _ _)). }
  pose proof (find_sorted p l) as Hf. assert (StronglySorted le l) as Hs by (apply (StronglySorted_merge_sort le)).
  specialize (Hf Hs). destruct (List.find p l) as [h|]; intros h' Hh; [|intros Hm]; [naive_solver|].
  specialize (Hp h' Hh Hm). by rewrite (Hf h' (Hin h' Hm)) in Hp.
Qed.

Lemma remove_all_loop_map fuel : ∀ store pos m, (size (rm_map m) < fuel)%nat →
  (∀ h, (h < pos)%nat → fst <$> rm_map m !! h ≠ Some store) →
  rm_map (remove_all_loop fuel store pos m).1 = filter (λ kv, kv.2.1 ≠ store) (rm_map m).
Proof.
  induction fuel as [|fuel IH]; intros store pos m Hf Hb; [lia|]. cbn [remove_all_loop].
  pose proof (first_from_spec store pos m) as Hs. destruct (first_from store pos m) as [h|] eqn:E.
  - apply first_from_some in E. destruct (rm_map m !! h) as [[st c]|] eqn:Eh; [|done]. injection E as ->.
    pose proof (discard_map h m) as Hm. destruct (rm_discard h m) as [m1 v]. cbn [fst] in Hm.
    specialize (IH store h m1). destruct (remove_all_loop fuel store h m1) as [m2 vs]. cbn [fst] in *.
    rewrite IH, Hm.
    + apply map_filter_delete_not. intros x. rewrite Eh. intros [= <-]. cbn. naive_solver.
    + rewrite Hm, map_size_delete, Eh.
      assert (size (rm_map m) ≠ 0%nat) as Hne by (apply map_size_ne_0_lookup; by exists h, (store, c)). lia.
    + intros h' Hh'. rewrite Hm. destruct (decide (h' = h)) as [->|Hne]; [by rewrite lookup_delete_eq|].
      rewrite lookup_delete_ne by done. intros Hm'. destruct (decide (pos ≤ h')%nat) as [Hp|Hp].
      * specialize (Hs h' Hp Hm'). lia.
      * apply (Hb h'); [lia|done].
  - cbn [fst]. symmetry. apply map_filter_id. intros h [st c] Hx. cbn. intros ->.
    assert (fst <$> rm_map m !! h = Some store) as Hx' by (by rewrite Hx).
    destruct (decide (pos ≤ h)%nat) as [Hp|Hp]; [by apply (Hs h Hp)|apply (Hb h); [lia|done]].
Qed.

(** What [remove_all] leaves: the handles of the other stores. *)
Lemma remove_all_map store m : rm_map (remove_all store m).1 = filter (λ kv, kv.2.1 ≠ store) (rm_map m).
Proof. apply remove_all_loop_map; [lia|]. intros h Hh. lia. Qed.
End RemoveAll.

(** ** The invariant of the pool *)

Section PoolInv.
Context `{Build} {K G St Se Sc : Type} `{FfiSystem K G St Se Sc}.
Abbreviation Phase := (Phase (St := St) (Se := Se) (Sc := Sc)).
Abbreviation Task := (Task (K := K) (St := St) (Se := Se) (Sc := Sc)).
Abbreviation Ffi := (Ffi (K := K) (G := G) (St := St) (Se := Se) (Sc := Sc)).

(** What a task has to do with the sessions, or with the scans. *)
Definition use_of (scan : bool) (t : Task) : Use :=
  match t_phase t with
  | PWait c => if Bool.eqb (on_scans (t_call t)) scan then UWait c else UNone
  | PHold c => if Bool.eqb (on_scans (t_call t)) scan then UHold c else UNone
  | _ => UNone
  end.

(** Only operations on sessions and scans wait for one. *)
Definition phase_ok (t : Task) : Prop :=
  match t_phase t with
  | PWait _ | PHold _ => match t_call t with CSession _ _ | CScanNext _ => True | _ => False end
  | _ => True
  end.

Definition ffi_inv (f : Ffi) : Prop :=
  rm_inv (f_sessions f) (use_of false <$> f_tasks f)
  ∧ rm_inv (f_scans f) (use_of true <$> f_tasks f)
  ∧ Forall phase_ok (f_tasks f).

(** The invariant after the task [i] went to another phase. *)
Lemma inv_set_phase i t p (f : Ffi) :
  let t' := mkTask (t_call t) (t_cb t) p in
  rm_inv (f_sessions f) (<[i := use_of false t']> (use_of false <$> f_tasks f)) →
  rm_inv (f_scans f) (<[i := use_of true t']> (use_of true <$> f_tasks f)) →
  phase_ok t' → Forall phase_ok (f_tasks f) → ffi_inv (set_phase i t p f).
Proof.
  intros t' H1 H2 Ht Hf. unfold ffi_inv, set_phase. cbn [f_sessions f_scans f_tasks set_tasks].
  rewrite !list_fmap_insert. split_and!; [done|done|]. by apply Forall_insert.
Qed.

Lemma set_world_inv g (f : Ffi) : ffi_inv f → ffi_inv (set_world g f).
Proof. done. Qed.

(** A phase in which a task has nothing to do with either map. *)
Definition quiet (p : Phase) : Prop := match p with PWait _ | PHold _ => False | _ => True end.

Lemma quiet_use c cb p : quiet p →
  let t := mkTask c cb p in (∀ scan, use_of scan t = UNone) ∧ phase_ok t.
Proof. by destruct p. Qed.

Lemma quiet_panicked : quiet panicked.
Proof. unfold panicked. by destruct panic_aborts. Qed.
Lemma quiet_settled r : quiet (settled r).
Proof. destruct r; [done|done|apply quiet_panicked]. Qed.

(** The shape of a step that leaves both maps as they are. *)
Lemma inv_neutral i t p (f : Ffi) : ffi_inv f → f_tasks f !! i = Some t →
  use_of false t = UNone → use_of true t = UNone → quiet p → ffi_inv (set_phase i t p f).
Proof.
  intros (H1 & H2 & H3) Hi U1 U2 [Hu Hp]%(quiet_use (t_call t) (t_cb t)). apply inv_set_phase; rewrite ?Hu; try done.
  - apply rm_inv_none; [done|]. by rewrite list_lookup_fmap, Hi, <- U1.
  - apply rm_inv_none; [done|]. by rewrite list_lookup_fmap, Hi, <- U2.
Qed.

Lemma inv_continue {A} i t (m : stm G AskarError.Error A) (next : A → Ffi → Ffi) (f : Ffi) :
  ffi_inv f → f_tasks f !! i = Some t → use_of false t = UNone → use_of true t = UNone →
  (∀ a g, ffi_inv (set_world g f) → ffi_inv (next a (set_world g f))) →
  ffi_inv (continue i t (in_world m f) next).
Proof.
  intros Hf Hi U1 U2 Hn. unfold continue, in_world. destruct (m (f_world f)) as [g [a|e|]]; cbn [fst snd].
  - by apply Hn.
  - by apply inv_neutral.
  - by apply inv_neutral, quiet_panicked.
Qed.

(** A step that changes the sessions, or the scans, and nothing else. *)
Lemma inv_sessions i t p m (f f' : Ffi) : ffi_inv f → f_tasks f !! i = Some t →
  f_sessions f' = m → f_scans f' = f_scans f → f_tasks f' = f_tasks f →
  let t' := mkTask (t_call t) (t_cb t) p in
  use_of true t = UNone → use_of true t' = UNone → phase_ok t' →
  rm_inv m (<[i := use_of false t']> (use_of false <$> f_tasks f)) → ffi_inv (set_phase i t p f').
Proof.
  intros (H1 & H2 & H3) Hi E1 E2 E3 t' U2 U2' Hp Hm. apply inv_set_phase; rewrite ?E1, ?E2, ?E3; try done.
  fold t'. rewrite U2'. apply rm_inv_none; [done|]. by rewrite list_lookup_fmap, Hi, <- U2.
Qed.

Lemma inv_scans i t p m (f f' : Ffi) : ffi_inv f → f_tasks f !! i = Some t →
  f_sessions f' = f_sessions f → f_scans f' = m → f_tasks f' = f_tasks f →
  let t' := mkTask (t_call t) (t_cb t) p in
  use_of false t = UNone → use_of false t' = UNone → phase_ok t' →
  rm_inv m (<[i := use_of true t']> (use_of true <$> f_tasks f)) → ffi_inv (set_phase i t p f').
Proof.
  intros (H1 & H2 & H3) Hi E1 E2 E3 t' U1 U1' Hp Hm. apply inv_set_phase; rewrite ?E1, ?E2, ?E3; try done.
  fold t'. rewrite U1'. apply rm_inv_none; [done|]. by rewrite list_lookup_fmap, Hi, <- U1.
Qed.

(** The same when the task has nothing to do with the maps afterwards. *)
Lemma inv_sessions_quiet i t p m (f f' : Ffi) : ffi_inv f → f_tasks f !! i = Some t →
  f_sessions f' = m → f_scans f' = f_scans f → f_tasks f' = f_tasks f → quiet p → use_of true t = UNone →
  rm_inv m (<[i := UNone]> (use_of false <$> f_tasks f)) → ffi_inv (set_phase i t p f').
Proof.
  intros Hf Hi E1 E2 E3 [Hu Hp]%(quiet_use (t_call t) (t_cb t)) U2 Hm. eapply inv_sessions; try done. by rewrite Hu.
Qed.

Lemma inv_scans_quiet i t p m (f f' : Ffi) : ffi_inv f → f_tasks f !! i = Some t →
  f_sessions f' = f_sessions f → f_scans f' = m → f_tasks f' = f_tasks f → quiet p → use_of false t = UNone →
  rm_inv m (<[i := UNone]> (use_of true <$> f_tasks f)) → ffi_inv (set_phase i t p f').
Proof.
  intros Hf Hi E1 E2 E3 [Hu Hp]%(quiet_use (t_call t) (t_cb t)) U1 Hm. eapply inv_scans; try done. by rewrite Hu.
Qed.

(** The use of the task at [i], as an element of the list of uses. *)
Lemma use_lookup scan i t (f : Ffi) u : f_tasks f !! i = Some t → use_of scan t = u →
  (use_of scan <$> f_tasks f) !! i = Some u.
Proof. intros Hi <-. by rewrite list_lookup_fmap, Hi. Qed.

Lemma use_keep scan i t (f : Ffi) u : f_tasks f !! i = Some t → use_of scan t = u →
  <[i := u]> (use_of scan <$> f_tasks f) = use_of scan <$> f_tasks f.
Proof. intros Hi Hu. apply list_insert_id. by eapply use_lookup. Qed.
End PoolInv.

Section Steps.
Context `{Build} {K G St Se Sc : Type} `{FfiSystem K G St Se Sc}.
Abbreviation Task := (Task (K := K) (St := St) (Se := Se) (Sc := Sc)).
Abbreviation Ffi := (Ffi (K := K) (G := G) (St := St) (Se := Se) (Sc := Sc)).
Implicit Types f : Ffi.

Lemma register_store_inv i t s f : ffi_inv f → f_tasks f !! i = Some t → use_of false t = UNone → use_of true t = UNone →
  ffi_inv (register_store i t s f).
Proof.
  intros Hf Hi U1 U2. unfold register_store. destruct (next_handle (f_store_counter f)) as [n [h|e|]];
    (apply inv_neutral; try done; apply quiet_panicked).
Qed.

Lemma register_session_inv i t v f : ffi_inv f → f_tasks f !! i = Some t → use_of false t = UNone → use_of true t = UNone →
  ffi_inv (register_session i t v f).
Proof.
  intros Hf Hi U1 U2. pose proof Hf as (H1 & _). unfold register_session.
  pose proof (rm_inv_next _ _ H1) as Hn. destruct (rm_next (f_sessions f)) as [m r]. cbn [fst] in Hn.
  rewrite <- (use_keep _ _ _ _ _ Hi U1) in Hn. destruct r as [h|e|]; eapply inv_sessions_quiet; try done; apply quiet_panicked.
Qed.

Lemma register_scan_inv i t v f : ffi_inv f → f_tasks f !! i = Some t → use_of false t = UNone → use_of true t = UNone →
  ffi_inv (register_scan i t v f).
Proof.
  intros Hf Hi U1 U2. pose proof Hf as (_ & H2 & _). unfold register_scan.
  pose proof (rm_inv_next _ _ H2) as Hn. destruct (rm_next (f_scans f)) as [m r]. cbn [fst] in Hn.
  rewrite <- (use_keep _ _ _ _ _ Hi U2) in Hn. destruct r as [h|e|]; eapply inv_scans_quiet; try done; apply quiet_panicked.
Qed.

Lemma step_start_inv i c cb f f' : let t := mkTask c cb PStart in
  ffi_inv f → f_tasks f !! i = Some t → step_start i t f = Some f' → ffi_inv f'.
Proof.
  intros t Hf Hi Hs. pose proof Hf as (H1 & H2 & _). pose proof (quiet_panicked (St := St) (Se := Se) (Sc := Sc)) as Hq.
  assert (Hload : ∀ h, ffi_inv (load_store i t h f)) by (intros h; unfold load_store; destruct (f_stores f !! h); by apply inv_neutral).
  unfold step_start in Hs. cbn [t_call t] in Hs.
  destruct c as [? ? ? ? ?|? ? ? ?|?|? ? ? ?|h op|h ? ?|h ? ? ? ?|h|h ?|h|h|h ? ?|h op|h commit].
  1,2: injection Hs as <-; apply inv_continue; try done; intros a g Hg; by apply register_store_inv.
  1,2: injection Hs as <-; apply inv_continue; try done; intros a g Hg; by apply inv_neutral.
  1,3,5,8: injection Hs as <-; apply Hload.
  1,2: injection Hs as <-; unfold remove_store; destruct (f_stores f !! h); by apply inv_neutral.
  - destruct (rm_borrow h (f_scans f)) as [[m x]|e|] eqn:E; injection Hs as <-; [|by apply inv_neutral..].
    eapply inv_scans; try done. exact (rm_inv_borrow _ _ _ _ _ _ H2 (use_lookup true _ _ _ UNone Hi eq_refl) E).
  - destruct (rm_readers (f_scans f) =? 0)%nat; [|done]. pose proof (rm_inv_remove _ _ h H2) as Hr.
    destruct (rm_remove h (f_scans f)) as [m r]. injection Hs as <-. cbn [fst] in Hr.
    rewrite <- (use_keep true _ _ _ UNone Hi eq_refl) in Hr.
    destruct r as [[v|e|]|]; by eapply inv_scans_quiet.
  - destruct (rm_borrow h (f_sessions f)) as [[m x]|e|] eqn:E; injection Hs as <-; [|by apply inv_neutral..].
    eapply inv_sessions; try done. exact (rm_inv_borrow _ _ _ _ _ _ H1 (use_lookup false _ _ _ UNone Hi eq_refl) E).
  - destruct (rm_readers (f_sessions f) =? 0)%nat; [|done]. pose proof (rm_inv_remove _ _ h H1) as Hr.
    destruct (rm_remove h (f_sessions f)) as [m r]. injection Hs as <-. cbn [fst] in Hr.
    rewrite <- (use_keep false _ _ _ UNone Hi eq_refl) in Hr.
    destruct r as [[v|e|]|]; [destruct commit|..]; by eapply inv_sessions_quiet.
Qed.

Lemma step_store_inv i c cb s f : let t := mkTask c cb (PStore s) in
  ffi_inv f → f_tasks f !! i = Some t → ffi_inv (step_store i t s f).
Proof.
  intros t Hf Hi. pose proof (quiet_panicked (St := St) (Se := Se) (Sc := Sc)) as Hq. unfold step_store. cbn [t_call t].
  destruct c; try by apply inv_neutral.
  all: apply inv_continue; try done; intros a g Hg.
  - by apply inv_neutral.
  - by apply register_store_inv.
  - by apply register_scan_inv.
  - by apply register_session_inv.
Qed.

Lemma step_rekey_inv i c cb s f : let t := mkTask c cb (PTaken s) in
  ffi_inv f → f_tasks f !! i = Some t → ffi_inv (step_rekey i t s f).
Proof.
  intros t Hf Hi. pose proof (quiet_panicked (St := St) (Se := Se) (Sc := Sc)) as Hq. unfold step_rekey. cbn [t_call t]. destruct c; try by apply inv_neutral.
  unfold in_world. destruct (fs_rekey _ _ _ _ _) as [g [a|e|]]; by apply inv_neutral.
Qed.

Lemma step_hold_inv i c cb x f : let t := mkTask c cb (PHold x) in
  ffi_inv f → f_tasks f !! i = Some t → ffi_inv (step_hold i t x f).
Proof.
  intros t Hf Hi. pose proof Hf as (H1 & H2 & H3). unfold step_hold. cbn [t_call t].
  assert (phase_ok t) as Hp by (eapply Forall_lookup_1; [exact H3|exact Hi]).
  destruct c as [| | | | | | | | |h0| | |h0 op|]; try done.
  - pose proof (use_lookup true _ _ _ (UHold x) Hi eq_refl) as Hu.
    destruct (hold_cell _ _ _ _ H2 Hu) as [c Ec].
    rewrite Ec. destruct (fs_fetch_next _) as [[g v] r]. pose proof (rm_inv_unlock _ _ _ _ v H2 Hu) as Hm.
    destruct (rm_unlock x v (f_scans f)) as [m gone]. cbn [fst] in Hm.
    destruct gone; eapply inv_scans_quiet; try done; apply quiet_settled.
  - pose proof (use_lookup false _ _ _ (UHold x) Hi eq_refl) as Hu.
    destruct (hold_cell _ _ _ _ H1 Hu) as [c Ec].
    rewrite Ec. destruct (fs_session_op op _) as [[g v] r]. pose proof (rm_inv_unlock _ _ _ _ v H1 Hu) as Hm.
    destruct (rm_unlock x v (f_sessions f)) as [m gone]. cbn [fst] in Hm.
    destruct gone; eapply inv_sessions_quiet; try done; apply quiet_settled.
Qed.

(** The end of a task is a change of its phase to a quiet one, and an outcome. *)
Lemma finish_phase i t r f : ∃ p f0, finish i t r f = set_phase i t p f0 ∧ quiet p
  ∧ f_sessions f0 = f_sessions f ∧ f_scans f0 = f_scans f ∧ f_tasks f0 = f_tasks f.
Proof.
  unfold finish. destruct (calls_back (t_cb t) r); [by eexists _, _|]. eexists _, f. split; [done|].
  by destruct (t_cb t && panic_aborts).
Qed.

Lemma finish_inv i t r f : ffi_inv f → f_tasks f !! i = Some t → use_of false t = UNone → use_of true t = UNone →
  ffi_inv (finish i t r f).
Proof.
  intros Hf Hi U1 U2. destruct (finish_phase i t r f) as (p & f0 & -> & Hq & E1 & E2 & E3). apply inv_neutral; try done.
  - unfold ffi_inv in *. by rewrite E1, E2, E3.
  - by rewrite E3.
Qed.

Lemma step_task_inv i f f' : ffi_inv f → step_task i f = Some f' → ffi_inv f'.
Proof.
  intros Hf Hs. pose proof Hf as (H1 & H2 & H3). unfold step_task in Hs.
  destruct (f_tasks f !! i) as [[c cb p]|] eqn:Hi; [|done]. cbn [mbind option_bind t_phase t_call] in Hs.
  destruct p as [|s|s|s r|s|s|s|s|s h|v h|v h|x|x|v|r|r|].
  - by eapply step_start_inv.
  - injection Hs as <-. by apply step_store_inv.
  - injection Hs as <-. by apply step_rekey_inv.
  - injection Hs as <-. by apply inv_neutral.
  - destruct (rm_readers (f_sessions f) =? 0)%nat; [|done]. pose proof (rm_inv_remove_all _ _ (call_handle c) H1) as Hr.
    destruct (remove_all (call_handle c) (f_sessions f)) as [m vs]. injection Hs as <-.
    rewrite <- (use_keep false _ _ _ UNone Hi eq_refl) in Hr. by eapply inv_sessions_quiet.
  - destruct (rm_readers (f_scans f) =? 0)%nat; [|done]. pose proof (rm_inv_remove_all _ _ (call_handle c) H2) as Hr.
    destruct (remove_all (call_handle c) (f_scans f)) as [m vs]. injection Hs as <-.
    rewrite <- (use_keep true _ _ _ UNone Hi eq_refl) in Hr. by eapply inv_scans_quiet.
  - injection Hs as <-. by apply inv_neutral.
  - destruct (connected s f); [done|]. injection Hs as <-. apply inv_continue; try done. intros a g Hg. by apply inv_neutral.
  - injection Hs as <-. by apply inv_neutral.
  - destruct (rm_readers (f_sessions f) =? 0)%nat; [|done]. pose proof (rm_inv_insert _ _ h (call_handle c) v H1) as Hr.
    destruct (rm_insert h (call_handle c) v (f_sessions f)) as [m old]. injection Hs as <-. cbn [fst] in Hr.
    rewrite <- (use_keep false _ _ _ UNone Hi eq_refl) in Hr. destruct old; by eapply inv_sessions_quiet.
  - destruct (rm_readers (f_scans f) =? 0)%nat; [|done]. pose proof (rm_inv_insert _ _ h (call_handle c) v H2) as Hr.
    destruct (rm_insert h (call_handle c) v (f_scans f)) as [m old]. injection Hs as <-. cbn [fst] in Hr.
    rewrite <- (use_keep true _ _ _ UNone Hi eq_refl) in Hr. destruct old; by eapply inv_scans_quiet.
  - assert (phase_ok (mkTask c cb (PWait x) : Task)) as Hp by (eapply Forall_lookup_1; [exact H3|exact Hi]).
    destruct (on_scans c) eqn:Eo.
    + destruct (rm_lock x (f_scans f)) as [m|] eqn:El; [|done]. injection Hs as <-.
      eapply inv_scans; try done; [unfold use_of; cbn; by rewrite Eo..|].
      assert (use_of true (mkTask c cb (PWait x) : Task) = UWait x) as Hu by (unfold use_of; cbn; by rewrite Eo).
      pose proof (rm_inv_lock _ _ _ _ _ H2 (use_lookup true _ _ _ _ Hi Hu) El) as Hm.
      unfold use_of at 1. cbn. by rewrite Eo.
    + destruct (rm_lock x (f_sessions f)) as [m|] eqn:El; [|done]. injection Hs as <-.
      eapply inv_sessions; try done; [unfold use_of; cbn; by rewrite Eo..|].
      assert (use_of false (mkTask c cb (PWait x) : Task) = UWait x) as Hu by (unfold use_of; cbn; by rewrite Eo).
      pose proof (rm_inv_lock _ _ _ _ _ H1 (use_lookup false _ _ _ _ Hi Hu) El) as Hm.
      unfold use_of at 1. cbn. by rewrite Eo.
  - injection Hs as <-. by apply step_hold_inv.
  - injection Hs as <-. apply inv_continue; try done. intros a g Hg. by apply inv_neutral.
  - injection Hs as <-. by apply finish_inv.
  - done.
  - done.
Qed.

(** A dropped task gives back what it held. *)
Lemma cancel_inv i f f' : ffi_inv f → cancel_task i f = Some f' → ffi_inv f'.
Proof.
  intros Hf Hs. pose proof Hf as (H1 & H2 & H3). unfold cancel_task in Hs.
  destruct (f_tasks f !! i) as [[c cb p]|] eqn:Hi; [|done]. cbn [mbind option_bind t_phase] in Hs.
  assert (phase_ok (mkTask c cb p : Task)) as Hp by (eapply Forall_lookup_1; [exact H3|exact Hi]).
  set (t := mkTask c cb p) in *.
  assert (Hse : ∀ m v, rm_inv m (<[i := UNone]> (use_of false <$> f_tasks f)) → use_of true t = UNone →
    ffi_inv (finish i t Panic (drop_session v (set_sessions m f)))).
  { intros m v Hm Hu. destruct (finish_phase i t Panic (drop_session v (set_sessions m f))) as (q & f0 & -> & Hq & E1 & E2 & E3).
    eapply inv_sessions_quiet; try done; by destruct v. }
  assert (Hsc : ∀ m v, rm_inv m (<[i := UNone]> (use_of true <$> f_tasks f)) → use_of false t = UNone →
    ffi_inv (finish i t Panic (drop_scan v (set_scans m f)))).
  { intros m v Hm Hu. destruct (finish_phase i t Panic (drop_scan v (set_scans m f))) as (q & f0 & -> & Hq & E1 & E2 & E3).
    eapply inv_scans_quiet; try done; by destruct v. }
  destruct p as [|s|s|s r|s|s|s|s|s h|v h|v h|x|x|v|r|r|]; try done; injection Hs as <-; unfold release; cbn [t_phase t_call t];
    try by apply finish_inv.
  - destruct c as [| | | | | | | | |h0| | |h0 op|]; try done; cbn [on_scans].
    + pose proof (rm_inv_unwait _ _ _ _ H2 (use_lookup true _ _ _ (UWait x) Hi eq_refl)) as Hm.
      destruct (rm_unwait x (f_scans f)) as [m gone]. by apply Hsc.
    + pose proof (rm_inv_unwait _ _ _ _ H1 (use_lookup false _ _ _ (UWait x) Hi eq_refl)) as Hm.
      destruct (rm_unwait x (f_sessions f)) as [m gone]. by apply Hse.
  - destruct c as [| | | | | | | | |h0| | |h0 op|]; try done; cbn [on_scans].
    + destruct (hold_cell _ _ _ _ H2 (use_lookup true _ _ _ (UHold x) Hi eq_refl)) as [c Ec]. rewrite Ec.
      pose proof (rm_inv_unlock _ _ _ _ (c_value c) H2 (use_lookup true _ _ _ (UHold x) Hi eq_refl)) as Hm.
      destruct (rm_unlock x (c_value c) (f_scans f)) as [m gone]. by apply Hsc.
    + destruct (hold_cell _ _ _ _ H1 (use_lookup false _ _ _ (UHold x) Hi eq_refl)) as [c Ec]. rewrite Ec.
      pose proof (rm_inv_unlock _ _ _ _ (c_value c) H1 (use_lookup false _ _ _ (UHold x) Hi eq_refl)) as Hm.
      destruct (rm_unlock x (c_value c) (f_sessions f)) as [m gone]. by apply Hse.
Qed.

Lemma spawn_inv c cb f : ffi_inv f → ffi_inv (spawn c cb f).
Proof.
  intros (H1 & H2 & H3). unfold spawn.
  assert (ffi_inv (set_tasks (f_tasks f ++ [mkTask c cb PStart]) f)) as Hf.
  { unfold ffi_inv. cbn [f_sessions f_scans f_tasks set_tasks]. rewrite !fmap_app.
    split_and!; [by apply rm_inv_app..|]. apply Forall_app. split; [done|]. by constructor. }
  destruct (f_runtime f); [done|done|]. apply finish_inv; try done.
  cbn [f_tasks set_tasks]. by rewrite lookup_app_r, Nat.sub_diag by lia.
Qed.

Lemma ffi_initial_inv (g : G) : ffi_inv (ffi_initial g : Ffi).
Proof. split_and!; [apply rm_inv_new..|done]. Qed.

Lemma ffi_step_inv f f' : ffi_inv f → ffi_step f f' → ffi_inv f'.
Proof.
  intros Hf Hs. destruct Hs as [c cb f _|i f f' _ Hs|f _|i f f' _ _ Hs].
  - by apply spawn_inv.
  - by eapply step_task_inv.
  - unfold shut_down. by destruct (f_runtime f).
  - by eapply cancel_inv.
Qed.

Lemma reachable_inv (g : G) f : rtc ffi_step (ffi_initial g) f → ffi_inv f.
Proof.
  intros Hr. pose proof (ffi_initial_inv g) as Hi. induction Hr as [|f1 f2 f3 Hs _ IH]; [done|].
  apply IH. by eapply ffi_step_inv.
Qed.
End Steps.
