(* ===== verification/FfiDraws.v ===== *)
(** * The tasks of the foreign function interface: handles

    Handles are drawn from counters as wide as [usize].  As long as fewer handles of a
    kind were asked for than there are, no two tasks ever get the same one, and none gets
    the null handle. *)

From S2P Require Import Prelude Errors Entry FfiHandles FfiPool FfiPoolInv.
Local Open Scope list_scope.

(** ** The counters *)

Section Counters.
Context {V : Type}.
Implicit Types m : ResMap V.

Lemma unref_counter c m : rm_counter (rm_unref c m).1 = rm_counter m.
Proof. unfold rm_unref. destruct (rm_cells m !! c) as [x|]; [|done]. by destruct (c_refs x =? 1)%nat. Qed.

Lemma discard_counter h m : rm_counter (rm_discard h m).1 = rm_counter m.
Proof. unfold rm_discard. destruct (rm_map m !! h) as [[s c]|]; [|done]. by rewrite unref_counter. Qed.

Lemma insert_counter h s v m : rm_counter (rm_insert h s v m).1 = rm_counter m.
Proof. unfold rm_insert. pose proof (discard_counter h m). by destruct (rm_discard h m). Qed.

Lemma remove_counter h m : rm_counter (rm_remove h m).1 = rm_counter m.
Proof.
  unfold rm_remove. destruct (rm_map m !! h); [|done]. pose proof (discard_counter h m).
  by destruct (rm_discard h m) as [m' []].
Qed.

Lemma remove_all_counter s m : rm_counter (remove_all s m).1 = rm_counter m.
Proof.
  unfold remove_all. generalize (S (size (rm_map m))) 0%nat. intros fuel. revert m.
  induction fuel as [|fuel IH]; intros m pos; cbn [remove_all_loop]; [done|].
  destruct (first_from s pos m) as [h|]; [|done]. pose proof (discard_counter h m) as E.
  destruct (rm_discard h m) as [m1 v]. specialize (IH m1 h).
  destruct (remove_all_loop fuel s h m1). cbn in *. congruence.
Qed.

Lemma unlock_counter c v m : rm_counter (rm_unlock c v m).1 = rm_counter m.
Proof. unfold rm_unlock. destruct (rm_cells m !! c) as [x|]; [|done]. by rewrite unref_counter. Qed.

Lemma unwait_counter c m : rm_counter (rm_unwait c m).1 = rm_counter m.
Proof. unfold rm_unwait. by rewrite unref_counter. Qed.

Lemma lock_counter c m m' : rm_lock c m = Some m' → rm_counter m' = rm_counter m.
Proof.
  unfold rm_lock. destruct (rm_cells m !! c) as [x|]; [|done]. cbn. destruct (c_locked x); [done|]. by intros [= <-].
Qed.

Lemma borrow_counter h m m' c : rm_borrow h m = Ok (m', c) → rm_counter m' = rm_counter m.
Proof.
  unfold rm_borrow. destruct (rm_map m !! h) as [[s c0]|]; [|done]. cbn. destruct (rm_cells m !! c0); [|done].
  by intros [= <- _].
Qed.

(** What the operations do to the handles that are in the map. *)
Lemma unref_map c m : rm_map (rm_unref c m).1 = rm_map m.
Proof. unfold rm_unref. destruct (rm_cells m !! c) as [x|]; [|done]. by destruct (c_refs x =? 1)%nat. Qed.

Lemma insert_map h s v m : ∃ c, rm_map (rm_insert h s v m).1 = <[h := (s, c)]> (rm_map m).
Proof.
  unfold rm_insert. pose proof (discard_map h m) as E. destruct (rm_discard h m) as [m1 old]. cbn in *. subst.
  exists (rm_fresh m1). by rewrite E, insert_delete_eq.
Qed.

Lemma remove_map h m : rm_map (rm_remove h m).1 = delete h (rm_map m).
Proof.
  unfold rm_remove. destruct (rm_map m !! h) eqn:E; [|by rewrite delete_id]. pose proof (discard_map h m).
  by destruct (rm_discard h m) as [m' []].
Qed.

Lemma unlock_map c v m : rm_map (rm_unlock c v m).1 = rm_map m.
Proof. unfold rm_unlock. destruct (rm_cells m !! c) as [x|]; [|done]. by rewrite unref_map. Qed.

Lemma unwait_map c m : rm_map (rm_unwait c m).1 = rm_map m.
Proof. unfold rm_unwait. by rewrite unref_map. Qed.

Lemma lock_map c m m' : rm_lock c m = Some m' → rm_map m' = rm_map m.
Proof.
  unfold rm_lock. destruct (rm_cells m !! c) as [x|]; [|done]. cbn. destruct (c_locked x); [done|]. by intros [= <-].
Qed.

Lemma borrow_map h m m' c : rm_borrow h m = Ok (m', c) → rm_map m' = rm_map m.
Proof.
  unfold rm_borrow. destruct (rm_map m !! h) as [[s c0]|]; [|done]. cbn. destruct (rm_cells m !! c0); [|done].
  by intros [= <- _].
Qed.

Lemma next_map `{Build} m : rm_map (rm_next m).1 = rm_map m.
Proof. unfold rm_next. by destruct (next_handle _). Qed.
End Counters.

(** ** What a task has drawn *)

Inductive Kind : Set :=
| KStore
| KSession
| KScan.

#[export] Instance Kind_eq_dec : EqDecision Kind.
Proof. solve_decision. Defined.

Section Draws.
Context `{Build} {K G St Se Sc : Type} `{FfiSystem K G St Se Sc}.
Abbreviation Task := (Task (K := K) (St := St) (Se := Se) (Sc := Sc)).
Abbreviation Phase := (Phase (St := St) (Se := Se) (Sc := Sc)).
Abbreviation Ffi := (Ffi (K := K) (G := G) (St := St) (Se := Se) (Sc := Sc)).
Implicit Types f : Ffi.

Definition counter (k : Kind) f : N :=
  match k with KStore => f_store_counter f | KSession => rm_counter (f_sessions f) | KScan => rm_counter (f_scans f) end.

(** The calls that ask for a handle. *)
Definition opens (k : Kind) (c : Call K) : bool :=
  match k, c with
  | KStore, (CProvision _ _ _ _ _ | COpen _ _ _ _ | CCopy _ _ _ _ _) => true
  | KSession, CSessionStart _ _ _ => true
  | KScan, CScanStart _ _ => true
  | _, _ => false
  end.

Definition opened (k : Kind) f : nat := tally (λ t : Task, opens k (t_call t)) (f_tasks f).

Definition handle_value (k : Kind) (v : FfiValue) : option nat :=
  match k, v with KStore, VStore h | KSession, VSession h | KScan, VScan h => Some h | _, _ => None end.

Definition phase_handle (k : Kind) (p : Phase) : option nat :=
  match p with
  | PRegisterStore _ h => handle_value k (VStore h)
  | PRegisterSession _ h => handle_value k (VSession h)
  | PRegisterScan _ h => handle_value k (VScan h)
  | PReplace _ (Ok v) | PResolve (Ok v) | PDone (Ok v) => handle_value k v
  | _ => None
  end.

(** The handle that a task was given for what it opens: it is about to enter it into its
    map, to report it, or has reported it. *)
Definition drawn (k : Kind) (t : Task) : option nat := if opens k (t_call t) then phase_handle k (t_phase t) else None.

(** Whether a task is past the point where it draws. *)
Definition past (k : Kind) (t : Task) : bool :=
  opens k (t_call t) && match t_phase t with PStart | PStore _ => false | _ => true end.

(** What a step of the task at [i] does to the handles of a kind: nothing new, or a draw. *)
Definition draw_step (k : Kind) (i : nat) f f' : Prop :=
  ∃ t p, f_tasks f !! i = Some t ∧ f_tasks f' = <[i := mkTask (t_call t) (t_cb t) p]> (f_tasks f)
  ∧ let t' := mkTask (t_call t) (t_cb t) p in
    (counter k f' = counter k f ∧ (drawn k t' = drawn k t ∨ drawn k t' = None) ∧ (past k t = true → past k t' = true))
    ∨ (past k t = false ∧ past k t' = true ∧ counter k f' = ((counter k f + 1) mod 2 ^ usize_bits)%N
       ∧ (drawn k t' = Some (N.to_nat (counter k f')) ∨ drawn k t' = None)).

(** The tasks and counters are the same. *)
Definition same_draws f0 f : Prop :=
  f_tasks f0 = f_tasks f ∧ f_store_counter f0 = f_store_counter f
  ∧ rm_counter (f_sessions f0) = rm_counter (f_sessions f) ∧ rm_counter (f_scans f0) = rm_counter (f_scans f).

Lemma same_counter k f0 f : same_draws f0 f → counter k f0 = counter k f.
Proof. intros (_ & E1 & E2 & E3). by destruct k. Qed.

Definition is_begun (p : Phase) : bool := match p with PStart | PStore _ => false | _ => true end.

(** A step without a draw. *)
Lemma plain_draw k i t p f f0 : f_tasks f !! i = Some t → same_draws f0 f →
  (is_begun (t_phase t) = true → is_begun p = true) →
  (opens k (t_call t) = true → phase_handle k p = phase_handle k (t_phase t) ∨ phase_handle k p = None) →
  draw_step k i f (set_phase i t p f0).
Proof.
  intros Hi Hs Hb Hh. exists t, p. split; [done|]. pose proof Hs as (E & _). cbn [set_phase set_tasks f_tasks]. rewrite E.
  split; [done|]. left. split; [by apply (same_counter k) in Hs; destruct k|]. unfold drawn, past. cbn [t_call t_phase].
  destruct (opens k (t_call t)); [|split; [by left|done]]. split; [by apply Hh|]. destruct (t_phase t), p; naive_solver.
Qed.

Lemma panicked_handle k : phase_handle k panicked = None.
Proof. unfold panicked. by destruct panic_aborts. Qed.
Lemma panicked_begun : is_begun panicked = true.
Proof. unfold panicked. by destruct panic_aborts. Qed.

(** To a phase that shows no handle. *)
Lemma quiet_draw k i t p f f0 : f_tasks f !! i = Some t → same_draws f0 f → is_begun p = true → phase_handle k p = None →
  draw_step k i f (set_phase i t p f0).
Proof. intros. apply plain_draw; try done. by right. Qed.

Lemma panic_draw k i t f f0 : f_tasks f !! i = Some t → same_draws f0 f → draw_step k i f (set_phase i t panicked f0).
Proof. intros. apply quiet_draw; [done|done|apply panicked_begun|apply panicked_handle]. Qed.

Lemma in_world_draws {A} (m : stm G AskarError.Error A) f : same_draws (in_world m f).1 f.
Proof. unfold in_world. by destruct (m (f_world f)). Qed.

Lemma same_draws_trans f0 f1 f : same_draws f0 f1 → same_draws f1 f → same_draws f0 f.
Proof. intros (? & ? & ? & ?) (? & ? & ? & ?). split_and!; congruence. Qed.

Lemma continue_draw {A} k i t (x : Ffi * res AskarError.Error A) next f : f_tasks f !! i = Some t → same_draws x.1 f →
  (∀ a, draw_step k i f (next a x.1)) → draw_step k i f (continue i t x next).
Proof.
  intros Hi E Hn. unfold continue. destruct x.2; [apply Hn|by apply quiet_draw|by apply panic_draw].
Qed.

(** ** Drawing *)

Lemma next_handle_spec {E} (c : N) (n : N) (r : res E nat) : next_handle c = (n, r) →
  n = ((c + 1) mod 2 ^ usize_bits)%N ∧ (r = Ok (N.to_nat n) ∨ r = Panic).
Proof. unfold next_handle. intros [= <- <-]. split; [done|]. destruct (overflow_checks && _); [by right|by left]. Qed.

(** The tasks at the point where they draw a handle of a kind. *)
Definition draws_now (k : Kind) (t : Task) : Prop := opens k (t_call t) = true ∧ is_begun (t_phase t) = false.

(** A call that asks for one kind of handle asks for no other. *)
Lemma opens_one k k' (c : Call K) : opens k c = true → opens k' c = true → k = k'.
Proof. by destruct k, k', c. Qed.

Lemma draw_now k k' i t p f f0 : f_tasks f !! i = Some t → draws_now k' t → f_tasks f0 = f_tasks f →
  counter k' f0 = ((counter k' f + 1) mod 2 ^ usize_bits)%N → (∀ k, k ≠ k' → counter k f0 = counter k f) →
  is_begun p = true → (phase_handle k' p = Some (N.to_nat (counter k' f0)) ∨ phase_handle k' p = None) →
  draw_step k i f (set_phase i t p f0).
Proof.
  intros Hi [Ho Hb] E Ec Eo Hp Hh. exists t, p. split; [done|]. cbn [set_phase set_tasks f_tasks]. rewrite E. split; [done|].
  assert (counter k (set_phase i t p f0) = counter k f0) as -> by (by destruct k).
  unfold past, drawn. cbn [t_call t_phase]. destruct (decide (k = k')) as [->|Hk].
  - right. rewrite Ho. split_and!; [by destruct (t_phase t)|by destruct p|done|done].
  - left. split; [by apply Eo|]. destruct (opens k (t_call t)) eqn:Ek; [|split; [by left|done]].
    by destruct (Hk (opens_one _ _ _ Ek Ho)).
Qed.

Lemma register_store_draw k i t s f f0 : f_tasks f !! i = Some t → same_draws f0 f → draws_now KStore t →
  draw_step k i f (register_store i t s f0).
Proof.
  intros Hi (E & E1 & E2 & E3) Hd. unfold register_store.
  destruct (next_handle (f_store_counter f0)) as [n r] eqn:En. apply next_handle_spec in En as [Hn Hr].
  destruct Hr as [-> | ->]; (eapply (draw_now k KStore); [done|done|done|cbn; congruence|by intros []| |]);
    [done|by left|apply panicked_begun|right; apply panicked_handle].
Qed.

Lemma register_session_draw k i t v f f0 : f_tasks f !! i = Some t → same_draws f0 f → draws_now KSession t →
  draw_step k i f (register_session i t v f0).
Proof.
  intros Hi (E & E1 & E2 & E3) Hd. unfold register_session, rm_next.
  destruct (next_handle (rm_counter (f_sessions f0))) as [n r] eqn:En. apply next_handle_spec in En as [Hn Hr].
  destruct Hr as [-> | ->]; (eapply (draw_now k KSession); [done|done|done|cbn; congruence|by intros []| |]);
    [done|by left|apply panicked_begun|right; apply panicked_handle].
Qed.

Lemma register_scan_draw k i t v f f0 : f_tasks f !! i = Some t → same_draws f0 f → draws_now KScan t →
  draw_step k i f (register_scan i t v f0).
Proof.
  intros Hi (E & E1 & E2 & E3) Hd. unfold register_scan, rm_next.
  destruct (next_handle (rm_counter (f_scans f0))) as [n r] eqn:En. apply next_handle_spec in En as [Hn Hr].
  destruct Hr as [-> | ->]; (eapply (draw_now k KScan); [done|done|done|cbn; congruence|by intros []| |]);
    [done|by left|apply panicked_begun|right; apply panicked_handle].
Qed.

(** ** The steps *)

(** The outcome of a call that asks for no handle. *)
Lemma settled_draw k i t r f f0 : f_tasks f !! i = Some t → same_draws f0 f → opens k (t_call t) = false →
  draw_step k i f (set_phase i t (settled r) f0).
Proof. intros Hi Hs Ho. apply plain_draw; try done; [|by rewrite Ho]. intros _. destruct r; try done. apply panicked_begun. Qed.

Lemma drops_draws f f0 : same_draws f0 f → (∀ v, same_draws (drop_session v f0) f) ∧ (∀ v, same_draws (drop_scan v f0) f).
Proof. split; by intros []. Qed.

Lemma set_sessions_draws m f : rm_counter m = rm_counter (f_sessions f) → same_draws (set_sessions m f) f.
Proof. done. Qed.
Lemma set_scans_draws m f : rm_counter m = rm_counter (f_scans f) → same_draws (set_scans m f) f.
Proof. done. Qed.

Lemma step_start_draw k i c cb f f' : let t := mkTask c cb PStart in
  f_tasks f !! i = Some t → step_start i t f = Some f' → draw_step k i f f'.
Proof.
  intros t Hi Hs. unfold step_start in Hs. cbn [t_call t] in Hs.
  assert (Hq : ∀ p f0, same_draws f0 f → is_begun p = true → phase_handle k p = None → draw_step k i f (set_phase i t p f0))
    by (intros; by apply quiet_draw).
  assert (Hp : ∀ f0, same_draws f0 f → draw_step k i f (set_phase i t panicked f0)) by (intros; by apply panic_draw).
  assert (Hcon : ∀ A (m : stm G AskarError.Error A) next, (∀ a, draw_step k i f (next a (in_world m f).1)) →
    draw_step k i f (continue i t (in_world m f) next)).
  { intros A m next Hn. apply continue_draw; [done|apply in_world_draws|done]. }
  assert (Hload : ∀ h, draw_step k i f (load_store i t h f)).
  { intros h. unfold load_store. destruct (f_stores f !! h); [|by apply Hq]. apply plain_draw; try done. by left. }
  destruct c as [? ? ? ? ?|? ? ? ?|?|? ? ? ?|h op|h ? ?|h ? ? ? ?|h|h ?|h|h|h ? ?|h op|h commit].
  1,2: injection Hs as <-; apply Hcon; intros s; apply register_store_draw; [done|apply in_world_draws|done].
  1,2: injection Hs as <-; apply Hcon; intros b; apply Hq; [apply in_world_draws|done|by destruct k].
  1,3,5,8: injection Hs as <-; apply Hload.
  1,2: injection Hs as <-; unfold remove_store; destruct (f_stores f !! h); by apply Hq.
  - destruct (rm_borrow h (f_scans f)) as [[m x]|e|] eqn:E; injection Hs as <-; [|by apply Hq|by apply Hp].
    apply Hq; try done. by apply set_scans_draws, borrow_counter with (h := h) (c := x).
  - destruct (rm_readers (f_scans f) =? 0)%nat; [|done]. pose proof (remove_counter h (f_scans f)) as E.
    destruct (rm_remove h (f_scans f)) as [m r]. injection Hs as <-. apply Hq; [|done|by destruct k].
    by apply drops_draws, set_scans_draws.
  - destruct (rm_borrow h (f_sessions f)) as [[m x]|e|] eqn:E; injection Hs as <-; [|by apply Hq|by apply Hp].
    apply Hq; try done. by apply set_sessions_draws, borrow_counter with (h := h) (c := x).
  - destruct (rm_readers (f_sessions f) =? 0)%nat; [|done]. pose proof (remove_counter h (f_sessions f)) as E.
    destruct (rm_remove h (f_sessions f)) as [m r]. injection Hs as <-.
    destruct r as [[v|e|]|]; [destruct commit|..]; try (by apply Hp); (apply Hq; [|done|by destruct k]); by apply set_sessions_draws.
Qed.

Lemma step_hold_draw k i c cb x f : let t := mkTask c cb (PHold x) in
  f_tasks f !! i = Some t → draw_step k i f (step_hold i t x f).
Proof.
  intros t Hi. unfold step_hold. cbn [t_call t].
  destruct c; try by apply panic_draw.
  - destruct (rm_cells (f_scans f) !! x); [|by apply panic_draw]. destruct (fs_fetch_next _) as [[g v] r].
    pose proof (unlock_counter x v (f_scans f)) as E. destruct (rm_unlock x v (f_scans f)) as [m gone].
    apply settled_draw; [done| |by destruct k]. apply drops_draws. by split_and!.
  - destruct (rm_cells (f_sessions f) !! x); [|by apply panic_draw]. destruct (fs_session_op _ _) as [[g v] r].
    pose proof (unlock_counter x v (f_sessions f)) as E. destruct (rm_unlock x v (f_sessions f)) as [m gone].
    apply settled_draw; [done| |by destruct k]. apply drops_draws. by split_and!.
Qed.

Lemma step_store_draw k i c cb s f : let t := mkTask c cb (PStore s) in
  f_tasks f !! i = Some t → draw_step k i f (step_store i t s f).
Proof.
  intros t Hi. unfold step_store. cbn [t_call t].
  destruct c; try by apply panic_draw.
  all: apply continue_draw; [done|apply in_world_draws|]; intros a.
  - apply plain_draw; [done|apply in_world_draws|done|by destruct k].
  - apply register_store_draw; [done|apply in_world_draws|done].
  - apply register_scan_draw; [done|apply in_world_draws|done].
  - apply register_session_draw; [done|apply in_world_draws|done].
Qed.

Lemma finish_draw k i t r f f0 : f_tasks f !! i = Some t → same_draws f0 f →
  (opens k (t_call t) = true → phase_handle k (PDone r) = phase_handle k (t_phase t) ∨ phase_handle k (PDone r) = None) →
  draw_step k i f (finish i t r f0).
Proof.
  intros Hi Hs Hh. unfold finish. destruct (calls_back (t_cb t) r); [by apply plain_draw|].
  destruct (t_cb t && panic_aborts); [by apply quiet_draw|by apply plain_draw].
Qed.

Lemma step_task_draw k i f f' : step_task i f = Some f' → draw_step k i f f'.
Proof.
  intros Hs. unfold step_task in Hs.
  destruct (f_tasks f !! i) as [[c cb p]|] eqn:Hi; [|done]. cbn [mbind option_bind t_phase t_call] in Hs.
  set (t := mkTask c cb p) in *.
  assert (Hq : ∀ p f0, same_draws f0 f → is_begun p = true → phase_handle k p = None → draw_step k i f (set_phase i t p f0))
    by (intros; by apply quiet_draw).
  assert (Hcon : ∀ A (m : stm G AskarError.Error A) next, (∀ a, draw_step k i f (next a (in_world m f).1)) →
    draw_step k i f (continue i t (in_world m f) next)).
  { intros A m next Hn. apply continue_draw; [done|apply in_world_draws|done]. }
  destruct p as [|s|s|s r|s|s|s|s|s h|v h|v h|x|x|v|r|r|].
  - by eapply step_start_draw.
  - injection Hs as <-. by apply step_store_draw.
  - injection Hs as <-. unfold step_rekey. destruct (t_call t); try by apply panic_draw.
    unfold in_world. destruct (fs_rekey _ _ _ _ _) as [g [a|e|]]; [by apply Hq; [|done|destruct k]|by apply Hq|by apply panic_draw].
  - injection Hs as <-. apply plain_draw; try done. intros _. destruct r; [by left|by right|by right].
  - destruct (rm_readers (f_sessions f) =? 0)%nat; [|done].
    pose proof (remove_all_counter (call_handle c) (f_sessions f)) as E.
    destruct (remove_all _ (f_sessions f)) as [m vs]. injection Hs as <-. apply Hq; [by split_and!|done|done].
  - destruct (rm_readers (f_scans f) =? 0)%nat; [|done].
    pose proof (remove_all_counter (call_handle c) (f_scans f)) as E.
    destruct (remove_all _ (f_scans f)) as [m vs]. injection Hs as <-. apply Hq; [by split_and!|done|done].
  - injection Hs as <-. by apply Hq.
  - destruct (connected s f); [done|]. injection Hs as <-. apply Hcon. intros a.
    apply Hq; [apply in_world_draws|done|by destruct k].
  - injection Hs as <-. apply plain_draw; try done. by left.
  - destruct (rm_readers (f_sessions f) =? 0)%nat; [|done]. pose proof (insert_counter h (call_handle c) v (f_sessions f)) as E.
    destruct (rm_insert _ _ _ _) as [m old]. injection Hs as <-. apply plain_draw; try done; [|by left].
    by apply drops_draws, set_sessions_draws.
  - destruct (rm_readers (f_scans f) =? 0)%nat; [|done]. pose proof (insert_counter h (call_handle c) v (f_scans f)) as E.
    destruct (rm_insert _ _ _ _) as [m old]. injection Hs as <-. apply plain_draw; try done; [|by left].
    by apply drops_draws, set_scans_draws.
  - destruct (on_scans c).
    + destruct (rm_lock x (f_scans f)) as [m|] eqn:El; [|done]. injection Hs as <-.
      apply Hq; try done. by apply set_scans_draws, lock_counter with (c := x).
    + destruct (rm_lock x (f_sessions f)) as [m|] eqn:El; [|done]. injection Hs as <-.
      apply Hq; try done. by apply set_sessions_draws, lock_counter with (c := x).
  - injection Hs as <-. by apply step_hold_draw.
  - injection Hs as <-. apply Hcon. intros a. apply Hq; [apply in_world_draws|done|by destruct k].
  - injection Hs as <-. apply finish_draw; try done. by left.
  - done.
  - done.
Qed.

Lemma release_draws t f : same_draws (release t f) f.
Proof.
  unfold release. destruct (t_phase t) as [| | | | | | | | | | |x|x| | | |]; try done.
  - destruct (on_scans (t_call t)).
    + pose proof (unwait_counter x (f_scans f)) as E. destruct (rm_unwait x (f_scans f)) as [m gone]. by apply drops_draws.
    + pose proof (unwait_counter x (f_sessions f)) as E. destruct (rm_unwait x (f_sessions f)) as [m gone]. by apply drops_draws.
  - destruct (on_scans (t_call t)).
    + destruct (rm_cells (f_scans f) !! x) as [c|]; [|done]. pose proof (unlock_counter x (c_value c) (f_scans f)) as E.
      destruct (rm_unlock _ _ _) as [m gone]. by apply drops_draws.
    + destruct (rm_cells (f_sessions f) !! x) as [c|]; [|done]. pose proof (unlock_counter x (c_value c) (f_sessions f)) as E.
      destruct (rm_unlock _ _ _) as [m gone]. by apply drops_draws.
Qed.

Lemma cancel_draw k i f f' : cancel_task i f = Some f' → draw_step k i f f'.
Proof.
  unfold cancel_task. destruct (f_tasks f !! i) as [t|] eqn:Hi; [|done]. cbn [mbind option_bind]. intros Hs.
  assert (f' = finish i t Panic (release t f)) as -> by (destruct (t_phase t); try done; by injection Hs as <-).
  apply finish_draw; [done|apply release_draws|by right].
Qed.

(** ** Uniqueness *)

(** As long as not all handles of a kind were asked for: the counter has counted the
    tasks that drew one, the handles given out are those up to it, and each was given
    to one task. *)
Definition draws_inv (k : Kind) f : Prop :=
  (N.of_nat (opened k f) < 2 ^ usize_bits)%N →
  (counter k f ≤ N.of_nat (tally (past k) (f_tasks f)))%N
  ∧ (∀ i t h, f_tasks f !! i = Some t → drawn k t = Some h → (1 ≤ h)%nat ∧ (N.of_nat h ≤ counter k f)%N)
  ∧ (∀ i j t t' h, f_tasks f !! i = Some t → f_tasks f !! j = Some t' → drawn k t = Some h → drawn k t' = Some h → i = j).

Lemma tally_le {A} (p q : A → bool) l : (∀ x, p x = true → q x = true) → (tally p l ≤ tally q l)%nat.
Proof.
  intros Hpq. unfold tally. induction l as [|x l IH]; [done|]. cbn [List.filter].
  destruct (p x) eqn:Ep; [rewrite (Hpq x Ep); cbn; lia|]. destruct (q x); cbn; lia.
Qed.

Lemma past_opened k f : (tally (past k) (f_tasks f) ≤ opened k f)%nat.
Proof. apply tally_le. intros t. unfold past. by intros [? _]%andb_true_iff. Qed.

Lemma draw_step_inv k i f f' : draw_step k i f f' → draws_inv k f → draws_inv k f'.
Proof.
  intros (t & p & Hi & Et & Hd) Hinv Hlt. cbv zeta in Hd. set (t' := mkTask (t_call t) (t_cb t) p) in *.
  assert (opened k f' = opened k f) as Eo.
  { unfold opened. rewrite Et. pose proof (tally_insert (λ t : Task, opens k (t_call t)) _ _ _ t' Hi) as Ht.
    cbn [t' t_call] in Ht. lia. }
  rewrite Eo in Hlt. destruct (Hinv Hlt) as (Hc & Hb & Hu).
  pose proof (tally_insert (past k) _ _ _ t' Hi) as Hp. rewrite <- Et in Hp. pose proof (past_opened k f') as Hpo. rewrite Eo in Hpo.
  clearbody t'.
  assert (Hl : ∀ j u, f_tasks f' !! j = Some u → (j = i ∧ u = t') ∨ (j ≠ i ∧ f_tasks f !! j = Some u)).
  { intros j u Hj. rewrite Et in Hj. destruct (decide (j = i)) as [->|Hne]; [left|right].
    - rewrite list_lookup_insert_eq in Hj by (by eapply lookup_lt_Some). by injection Hj as <-.
    - by rewrite list_lookup_insert_ne in Hj. }
  destruct Hd as [(Ec & Hd & Hm)|(Hp0 & Hp1 & Ec & Hd)].
  - rewrite Ec. split_and!.
    + destruct (past k t); [rewrite Hm in Hp by done; lia|]. destruct (past k t'); lia.
    + intros j u h [[-> ->]|[_ Hj]]%Hl Hh; [|by eapply Hb]. destruct Hd as [Hd|Hd]; rewrite Hd in Hh; [|done]. by eapply Hb.
    + intros j j' u u' h [[-> ->]|[Hne Hj]]%Hl [[-> ->]|[Hne' Hj']]%Hl Hh Hh'; [done|..].
      * destruct Hd as [Hd|Hd]; rewrite Hd in Hh; [|done]. eapply Hu; [exact Hi|exact Hj'|exact Hh|exact Hh'].
      * destruct Hd as [Hd|Hd]; rewrite Hd in Hh'; [|done]. eapply Hu; [exact Hj|exact Hi|exact Hh|exact Hh'].
      * eapply Hu; [exact Hj|exact Hj'|exact Hh|exact Hh'].
  - rewrite Hp0, Hp1 in Hp. rewrite N.mod_small in Ec by lia.
    assert (Hnew : ∀ j u h, f_tasks f !! j = Some u → drawn k u = Some h → drawn k t' = Some h → False).
    { intros j u h Hj Hh Hh'. destruct Hd as [Hd|Hd]; rewrite Hd in Hh'; [|done]. destruct (Hb j u h Hj Hh) as [_ Hle].
      injection Hh' as <-. lia. }
    rewrite Ec in *. split_and!; [lia|..].
    + intros j u h [[-> ->]|[_ Hj]]%Hl Hh; [destruct Hd as [Hd|Hd]; rewrite Hd in Hh; [|done]|destruct (Hb j u h Hj Hh); lia].
      injection Hh as <-. lia.
    + intros j j' u u' h [[-> ->]|[Hne Hj]]%Hl [[-> ->]|[Hne' Hj']]%Hl Hh Hh'; [done| | |].
      * exfalso. by eapply (Hnew j' u').
      * exfalso. by eapply (Hnew j u).
      * eapply Hu; [exact Hj|exact Hj'|exact Hh|exact Hh'].
Qed.

(** A call that is made and does not run yet. *)
Lemma spawned_inv k c cb f : draws_inv k f → draws_inv k (set_tasks (f_tasks f ++ [mkTask c cb PStart]) f).
Proof.
  intros Hinv Hlt. set (t := mkTask c cb PStart : Task) in *.
  assert (drawn k t = None) as Hn by (unfold drawn; by destruct (opens k (t_call t))).
  assert (past k t = false) as Hp by (unfold past; apply andb_false_r).
  assert (∀ j u h, (f_tasks f ++ [t]) !! j = Some u → drawn k u = Some h → f_tasks f !! j = Some u) as Hl.
  { intros j u h [Hj|[_ Hj]]%lookup_app_Some Hh; [done|]. apply list_lookup_singleton_Some in Hj as [_ <-]. congruence. }
  unfold opened in Hlt. cbn [f_tasks set_tasks] in *. rewrite tally_app in Hlt.
  destruct Hinv as (Hc & Hb & Hu); [unfold opened; lia|].
  assert (counter k (set_tasks (f_tasks f ++ [t]) f) = counter k f) as -> by (by destruct k).
  split_and!.
  - rewrite tally_app. lia.
  - intros j u h Hj Hh. eapply Hb; [by eapply Hl|done].
  - intros j j' u u' h Hj Hj' Hh Hh'. eapply Hu; [by eapply Hl..|done|done].
Qed.

Lemma ffi_step_draws k f f' : ffi_step f f' → draws_inv k f → draws_inv k f'.
Proof.
  intros Hs Hf. destruct Hs as [c cb f _|i f f' _ Hs|f _|i f f' _ _ Hs].
  - apply (spawned_inv k c cb) in Hf. unfold spawn. destruct (f_runtime f); [by destruct k|by destruct k|].
    eapply draw_step_inv; [|exact Hf]. apply finish_draw; [|done|by right].
    cbn [f_tasks set_tasks]. by rewrite lookup_app_r, Nat.sub_diag by lia.
  - by eapply draw_step_inv; [apply step_task_draw|].
  - unfold shut_down. destruct (f_runtime f); [done|by destruct k|by destruct k].
  - by eapply draw_step_inv; [apply cancel_draw|].
Qed.

Lemma reachable_draws k (g : G) f : rtc ffi_step (ffi_initial g) f → draws_inv k f.
Proof.
  intros Hr. assert (draws_inv k (ffi_initial g)) as Hi by (intros _; split_and!; [by destruct k|done|done]).
  induction Hr as [|f1 f2 f3 Hs _ IH]; [done|]. apply IH. by eapply ffi_step_draws.
Qed.

(** ** What is in the maps *)

(** The handle that a task has entered into its map. *)
Definition entered (k : Kind) (t : Task) : option nat :=
  if opens k (t_call t) then
    match t_phase t with PResolve (Ok v) | PDone (Ok v) => handle_value k v | _ => None end
  else None.

(** The sessions and the scans by their handles. *)
Definition entries (k : Kind) f : gmap nat (nat * nat) :=
  match k with KStore => ∅ | KSession => rm_map (f_sessions f) | KScan => rm_map (f_scans f) end.

(** A task that is about to enter something was asked for it. *)
Definition register_ok (t : Task) : Prop :=
  match t_phase t with
  | PRegisterSession _ _ => opens KSession (t_call t) = true
  | PRegisterScan _ _ => opens KScan (t_call t) = true
  | _ => True
  end.

Definition entries_inv f : Prop :=
  Forall register_ok (f_tasks f)
  ∧ ∀ k h, is_Some (entries k f !! h) → ∃ i t, f_tasks f !! i = Some t ∧ entered k t = Some h.

(** What a step does to the maps: the task enters the handle it has, or handles go. *)
Definition entry_step (i : nat) f f' : Prop :=
  ∃ t p, f_tasks f !! i = Some t ∧ f_tasks f' = <[i := mkTask (t_call t) (t_cb t) p]> (f_tasks f)
  ∧ let t' := mkTask (t_call t) (t_cb t) p in
    (register_ok t → register_ok t')
    ∧ ∀ k h, (entered k t = Some h → entered k t' = Some h)
        ∧ (is_Some (entries k f' !! h) → register_ok t → is_Some (entries k f !! h) ∨ entered k t' = Some h).

(** Tasks and maps are the same, or handles are gone. *)
Definition fewer_entries f0 f : Prop :=
  f_tasks f0 = f_tasks f ∧ rm_map (f_sessions f0) ⊆ rm_map (f_sessions f) ∧ rm_map (f_scans f0) ⊆ rm_map (f_scans f).

Definition is_settled (p : Phase) : bool := match p with PResolve _ | PDone _ => true | _ => false end.

Lemma fewer_entry_step i t p f f0 : f_tasks f !! i = Some t → fewer_entries f0 f → is_settled (t_phase t) = false →
  register_ok (mkTask (t_call t) (t_cb t) p) → entry_step i f (set_phase i t p f0).
Proof.
  intros Hi (E & H1 & H2) Hp Hr. exists t, p. split; [done|]. cbn [set_phase set_tasks f_tasks]. rewrite E. split; [done|].
  split; [done|]. intros k h. split.
  - unfold entered. destruct (opens k (t_call t)); [|done]. by destruct (t_phase t).
  - intros [x Hx] _. left. exists x. destruct k; [done|..]; cbn in *; by eapply lookup_weaken.
Qed.

Lemma fewer_refl f0 f : f_tasks f0 = f_tasks f → rm_map (f_sessions f0) = rm_map (f_sessions f) →
  rm_map (f_scans f0) = rm_map (f_scans f) → fewer_entries f0 f.
Proof. intros E E1 E2. split_and!; [done|by rewrite E1|by rewrite E2]. Qed.

Lemma in_world_fewer {A} (m : stm G AskarError.Error A) f : fewer_entries (in_world m f).1 f.
Proof. unfold in_world. destruct (m (f_world f)). by apply fewer_refl. Qed.

(** The step of a task that neither was at its end nor is about to enter something. *)
Definition plain_phase (p : Phase) : Prop := match p with PRegisterSession _ _ | PRegisterScan _ _ => False | _ => True end.

Lemma plain_register c cb p : plain_phase p → register_ok (mkTask c cb p).
Proof. by destruct p. Qed.
Lemma plain_panicked : plain_phase panicked.
Proof. unfold panicked. by destruct panic_aborts. Qed.
Lemma plain_settled r : plain_phase (settled r).
Proof. destruct r; [done|done|apply plain_panicked]. Qed.

Lemma fewer_drops f f0 : fewer_entries f0 f → (∀ v, fewer_entries (drop_session v f0) f) ∧ (∀ v, fewer_entries (drop_scan v f0) f).
Proof. split; by intros []. Qed.

Lemma set_sessions_fewer m f : rm_map m ⊆ rm_map (f_sessions f) → fewer_entries (set_sessions m f) f.
Proof. intros Hm. by refine (conj _ (conj Hm _)). Qed.
Lemma set_scans_fewer m f : rm_map m ⊆ rm_map (f_scans f) → fewer_entries (set_scans m f) f.
Proof. intros Hm. by refine (conj _ (conj _ Hm)). Qed.

Lemma continue_entry {A} i t (x : Ffi * res AskarError.Error A) next f : f_tasks f !! i = Some t → fewer_entries x.1 f →
  is_settled (t_phase t) = false → (∀ a, entry_step i f (next a x.1)) → entry_step i f (continue i t x next).
Proof.
  intros Hi E Hp Hn. unfold continue. destruct x.2; [apply Hn|by apply fewer_entry_step|].
  apply fewer_entry_step; try done. apply plain_register, plain_panicked.
Qed.

Lemma register_entry i t f f0 : f_tasks f !! i = Some t → fewer_entries f0 f → is_settled (t_phase t) = false →
  (∀ s, entry_step i f (register_store i t s f0))
  ∧ (opens KSession (t_call t) = true → ∀ v, entry_step i f (register_session i t v f0))
  ∧ (opens KScan (t_call t) = true → ∀ v, entry_step i f (register_scan i t v f0)).
Proof.
  intros Hi Hf Hp. split_and!.
  - intros s. unfold register_store. destruct (next_handle _) as [n r].
    destruct r; apply fewer_entry_step; try done; apply plain_register, plain_panicked.
  - intros Ho v. unfold register_session. pose proof (next_map (f_sessions f0)) as E. destruct (rm_next (f_sessions f0)) as [m r].
    cbn [fst] in E. assert (fewer_entries (set_sessions m f0) f) as Hf' 
      by (destruct Hf as (? & ? & ?); refine (conj _ (conj _ _)); cbn; rewrite ?E; done).
    destruct r; apply fewer_entry_step; try done; apply plain_register, plain_panicked.
  - intros Ho v. unfold register_scan. pose proof (next_map (f_scans f0)) as E. destruct (rm_next (f_scans f0)) as [m r].
    cbn [fst] in E. assert (fewer_entries (set_scans m f0) f) as Hf' 
      by (destruct Hf as (? & ? & ?); refine (conj _ (conj _ _)); cbn; rewrite ?E; done).
    destruct r; apply fewer_entry_step; try done; apply plain_register, plain_panicked.
Qed.

Lemma step_start_entry i c cb f f' : let t := mkTask c cb PStart in
  f_tasks f !! i = Some t → step_start i t f = Some f' → entry_step i f f'.
Proof.
  intros t Hi Hs. unfold step_start in Hs. cbn [t_call t] in Hs.
  assert (Hq : ∀ p f0, fewer_entries f0 f → plain_phase p → entry_step i f (set_phase i t p f0))
    by (intros; apply fewer_entry_step; try done; by apply plain_register).
  assert (Hcon : ∀ A (m : stm G AskarError.Error A) next, (∀ a, entry_step i f (next a (in_world m f).1)) →
    entry_step i f (continue i t (in_world m f) next)).
  { intros A m next Hn. apply continue_entry; [done|apply in_world_fewer|done|done]. }
  assert (Hload : ∀ h, entry_step i f (load_store i t h f)).
  { intros h. unfold load_store. destruct (f_stores f !! h); by apply Hq. }
  destruct c as [? ? ? ? ?|? ? ? ?|?|? ? ? ?|h op|h ? ?|h ? ? ? ?|h|h ?|h|h|h ? ?|h op|h commit].
  1,2: injection Hs as <-; apply Hcon; intros s; apply (register_entry i t f); [done|apply in_world_fewer|done].
  1,2: injection Hs as <-; apply Hcon; intros b; apply Hq; [apply in_world_fewer|done].
  1,3,5,8: injection Hs as <-; apply Hload.
  1,2: injection Hs as <-; unfold remove_store; destruct (f_stores f !! h); by apply Hq.
  - destruct (rm_borrow h (f_scans f)) as [[m x]|e|] eqn:E; injection Hs as <-; [|by apply Hq|by apply Hq, plain_panicked].
    apply Hq; [|done]. apply set_scans_fewer. by rewrite (borrow_map _ _ _ _ E).
  - destruct (rm_readers (f_scans f) =? 0)%nat; [|done]. pose proof (remove_map h (f_scans f)) as E.
    destruct (rm_remove h (f_scans f)) as [m r]. injection Hs as <-. cbn [fst] in E.
    apply Hq; [|done]. apply fewer_drops, set_scans_fewer. rewrite E. apply delete_subseteq.
  - destruct (rm_borrow h (f_sessions f)) as [[m x]|e|] eqn:E; injection Hs as <-; [|by apply Hq|by apply Hq, plain_panicked].
    apply Hq; [|done]. apply set_sessions_fewer. by rewrite (borrow_map _ _ _ _ E).
  - destruct (rm_readers (f_sessions f) =? 0)%nat; [|done]. pose proof (remove_map h (f_sessions f)) as E.
    destruct (rm_remove h (f_sessions f)) as [m r]. injection Hs as <-. cbn [fst] in E.
    assert (fewer_entries (set_sessions m f) f) as Hf by (apply set_sessions_fewer; rewrite E; apply delete_subseteq).
    destruct r as [[v|e|]|]; [destruct commit|..]; try (by apply Hq);
      by apply Hq, plain_panicked.
Qed.

Lemma step_hold_entry i c cb x f : let t := mkTask c cb (PHold x) in
  f_tasks f !! i = Some t → entry_step i f (step_hold i t x f).
Proof.
  intros t Hi. unfold step_hold. cbn [t_call t].
  assert (Hq : ∀ p f0, fewer_entries f0 f → plain_phase p → entry_step i f (set_phase i t p f0))
    by (intros; apply fewer_entry_step; try done; by apply plain_register).
  destruct c; try by apply Hq, plain_panicked.
  - destruct (rm_cells (f_scans f) !! x); [|by apply Hq, plain_panicked]. destruct (fs_fetch_next _) as [[g v] r].
    pose proof (unlock_map x v (f_scans f)) as E. destruct (rm_unlock x v (f_scans f)) as [m gone].
    apply Hq; [|apply plain_settled]. apply fewer_drops. by apply fewer_refl.
  - destruct (rm_cells (f_sessions f) !! x); [|by apply Hq, plain_panicked]. destruct (fs_session_op _ _) as [[g v] r].
    pose proof (unlock_map x v (f_sessions f)) as E. destruct (rm_unlock x v (f_sessions f)) as [m gone].
    apply Hq; [|apply plain_settled]. apply fewer_drops. by apply fewer_refl.
Qed.

(** The end of a task that got a handle is reported as such. *)
Lemma finish_entry i t r f : f_tasks f !! i = Some t → t_phase t = PResolve r → entry_step i f (finish i t r f).
Proof.
  intros Hi Hp. destruct (finish_phase i t r f) as (p & f0 & E & _ & E1 & E2 & E3).
  assert (p = PDone r ∨ (p = PAborted ∧ calls_back (t_cb t) r = false ∧ t_cb t = true)) as Hq.
  { unfold finish in E. destruct (calls_back (t_cb t) r).
    - injection E as _ _ _ _ _ _ _ E _. rewrite E3 in E. apply (f_equal (lookup i)) in E.
      rewrite !list_lookup_insert_eq in E by (by eapply lookup_lt_Some). injection E as <-. by left.
    - injection E as _ _ _ _ _ _ _ E _. rewrite E3 in E. apply (f_equal (lookup i)) in E.
      rewrite !list_lookup_insert_eq in E by (by eapply lookup_lt_Some). injection E as <-.
      destruct (t_cb t), panic_aborts; cbn; [by right|by left..]. }
  rewrite E. exists t, p. split; [done|]. cbn [set_phase set_tasks f_tasks]. rewrite E3. split; [done|].
  split; [intros _; apply plain_register; by destruct Hq as [-> |[-> _]]|]. intros k h. split.
  - unfold entered. rewrite Hp. cbn [t_call t_phase]. destruct (opens k (t_call t)); [|done].
    destruct Hq as [-> |(-> & Hc & Hcb)]; [done|]. destruct r as [v| |]; try done. rewrite Hcb in Hc. by destruct k, v.
  - intros Hx _. left. destruct k; [done|..]; cbn in *; congruence.
Qed.

(** A task enters its handle. *)
Lemma insert_entry k i t f f0 h st m m' : f_tasks f !! i = Some t → f_tasks f0 = f_tasks f →
  opens k (t_call t) = true ∨ ¬ register_ok t → m' = <[h := (st : nat * nat)]> m → m = entries k f →
  (∀ k', entries k' f0 = if decide (k' = k) then m' else entries k' f) → is_settled (t_phase t) = false →
  ∀ v, handle_value k v = Some h → entry_step i f (set_phase i t (PResolve (Ok v)) f0).
Proof.
  intros Hi E Ho -> -> He Hp v Hv. exists t, (PResolve (Ok v)). split; [done|]. cbn [set_phase set_tasks f_tasks]. rewrite E.
  split; [done|]. split; [done|]. intros k' h'. split.
  - unfold entered. destruct (opens k' (t_call t)); [|done]. by destruct (t_phase t).
  - intros Hx Hr. destruct Ho as [Ho|Ho]; [|done].
    assert (is_Some (entries k' f0 !! h')) as Hx' by (by destruct k'). clear Hx. rewrite He in Hx'.
    destruct (decide (k' = k)) as [->|Hk]; [|by left].
    destruct (decide (h = h')) as [<-|Hne]; [|left; by rewrite lookup_insert_ne in Hx'].
    right. unfold entered. cbn [t_call t_phase]. by rewrite Ho.
Qed.

Lemma step_task_entry i f f' : step_task i f = Some f' → entry_step i f f'.
Proof.
  intros Hs. unfold step_task in Hs.
  destruct (f_tasks f !! i) as [[c cb p]|] eqn:Hi; [|done]. cbn [mbind option_bind t_phase t_call] in Hs.
  set (t := mkTask c cb p) in *.
  assert (Hq : is_settled p = false → ∀ p' f0, fewer_entries f0 f → plain_phase p' → entry_step i f (set_phase i t p' f0))
    by (intros; apply fewer_entry_step; try done; by apply plain_register).
  assert (Hcon : is_settled p = false → ∀ A (m : stm G AskarError.Error A) next, (∀ a, entry_step i f (next a (in_world m f).1)) →
    entry_step i f (continue i t (in_world m f) next)).
  { intros Hp A m next Hn. apply continue_entry; [done|apply in_world_fewer|done|done]. }
  destruct p as [|s|s|s r|s|s|s|s|s h|v h|v h|x|x|v|r|r|]; cbn [is_settled] in Hq, Hcon;
    try (specialize (Hq eq_refl); specialize (Hcon eq_refl)).
  - by eapply step_start_entry.
  - injection Hs as <-. unfold step_store. destruct (t_call t) eqn:Ec; try by apply Hq, plain_panicked.
    all: apply Hcon; intros a.
    + apply Hq; [apply in_world_fewer|done].
    + apply (register_entry i t f _ Hi); [apply in_world_fewer|done].
    + apply (register_entry i t f _ Hi); [apply in_world_fewer|done|by rewrite Ec].
    + apply (register_entry i t f _ Hi); [apply in_world_fewer|done|by rewrite Ec].
  - injection Hs as <-. unfold step_rekey. destruct (t_call t); try by apply Hq, plain_panicked.
    unfold in_world. destruct (fs_rekey _ _ _ _ _) as [g [a|e|]]; apply Hq; try done; apply plain_panicked.
  - injection Hs as <-. by apply Hq.
  - destruct (rm_readers (f_sessions f) =? 0)%nat; [|done].
    pose proof (remove_all_map (call_handle c) (f_sessions f)) as E.
    destruct (remove_all _ (f_sessions f)) as [m vs]. injection Hs as <-. apply Hq; [|done].
    refine (conj _ (conj _ _)); [done|cbn in *; rewrite E; apply map_filter_subseteq|done].
  - destruct (rm_readers (f_scans f) =? 0)%nat; [|done].
    pose proof (remove_all_map (call_handle c) (f_scans f)) as E.
    destruct (remove_all _ (f_scans f)) as [m vs]. injection Hs as <-. apply Hq; [|done].
    refine (conj _ (conj _ _)); [done|done|cbn in *; rewrite E; apply map_filter_subseteq].
  - injection Hs as <-. by apply Hq.
  - destruct (connected s f); [done|]. injection Hs as <-. apply Hcon. intros a. apply Hq; [apply in_world_fewer|done].
  - injection Hs as <-. by apply Hq.
  - destruct (rm_readers (f_sessions f) =? 0)%nat; [|done]. destruct (insert_map h (call_handle c) v (f_sessions f)) as [x E].
    destruct (rm_insert _ _ _ _) as [m old]. injection Hs as <-. cbn [fst] in E.
    eapply (insert_entry KSession); [exact Hi|by destruct old| |exact E|done| |done|done].
    + destruct (opens KSession (t_call t)) eqn:Eo; [by left|right]. intros Hr. change (opens KSession (t_call t) = true) in Hr. congruence.
    + by intros []; destruct old.
  - destruct (rm_readers (f_scans f) =? 0)%nat; [|done]. destruct (insert_map h (call_handle c) v (f_scans f)) as [x E].
    destruct (rm_insert _ _ _ _) as [m old]. injection Hs as <-. cbn [fst] in E.
    eapply (insert_entry KScan); [exact Hi|by destruct old| |exact E|done| |done|done].
    + destruct (opens KScan (t_call t)) eqn:Eo; [by left|right]. intros Hr. change (opens KScan (t_call t) = true) in Hr. congruence.
    + by intros []; destruct old.
  - destruct (on_scans c).
    + destruct (rm_lock x (f_scans f)) as [m|] eqn:El; [|done]. injection Hs as <-.
      apply Hq; [|done]. apply set_scans_fewer. by rewrite (lock_map _ _ _ El).
    + destruct (rm_lock x (f_sessions f)) as [m|] eqn:El; [|done]. injection Hs as <-.
      apply Hq; [|done]. apply set_sessions_fewer. by rewrite (lock_map _ _ _ El).
  - injection Hs as <-. by apply step_hold_entry.
  - injection Hs as <-. apply Hcon. intros a. apply Hq; [apply in_world_fewer|done].
  - injection Hs as <-. by apply finish_entry.
  - done.
  - done.
Qed.

Lemma release_fewer t f : fewer_entries (release t f) f.
Proof.
  unfold release. destruct (t_phase t) as [| | | | | | | | | | |x|x| | | |]; try done.
  - destruct (on_scans (t_call t)).
    + pose proof (unwait_map x (f_scans f)) as E. destruct (rm_unwait x (f_scans f)) as [m gone].
      apply fewer_drops, set_scans_fewer. by cbn in E; rewrite E.
    + pose proof (unwait_map x (f_sessions f)) as E. destruct (rm_unwait x (f_sessions f)) as [m gone].
      apply fewer_drops, set_sessions_fewer. by cbn in E; rewrite E.
  - destruct (on_scans (t_call t)).
    + destruct (rm_cells (f_scans f) !! x) as [c|]; [|done]. pose proof (unlock_map x (c_value c) (f_scans f)) as E.
      destruct (rm_unlock _ _ _) as [m gone]. apply fewer_drops, set_scans_fewer. by cbn in E; rewrite E.
    + destruct (rm_cells (f_sessions f) !! x) as [c|]; [|done]. pose proof (unlock_map x (c_value c) (f_sessions f)) as E.
      destruct (rm_unlock _ _ _) as [m gone]. apply fewer_drops, set_sessions_fewer. by cbn in E; rewrite E.
Qed.

Lemma entry_step_inv i f f' : entry_step i f f' → entries_inv f → entries_inv f'.
Proof.
  intros (t & p & Hi & Et & Hd) [Hr He]. cbv zeta in Hd. set (t' := mkTask (t_call t) (t_cb t) p) in *.
  assert (register_ok t) as Ht by (by eapply Forall_lookup_1). destruct Hd as [Hrt Hd].
  assert (f_tasks f' !! i = Some t') as Hi' by (rewrite Et; apply list_lookup_insert_eq; by eapply lookup_lt_Some).
  split; [rewrite Et; by apply Forall_insert; [|apply Hrt]|]. intros k h Hx. destruct (Hd k h) as [Hm Hx'].
  destruct (Hx' Hx Ht) as [Hold|Hnew]; [|by exists i, t'].
  destruct (He k h Hold) as (j & u & Hj & Hu). destruct (decide (j = i)) as [->|Hne].
  - rewrite Hi in Hj. injection Hj as <-. exists i, t'. by split; [|apply Hm].
  - exists j, u. split; [|done]. by rewrite Et, list_lookup_insert_ne.
Qed.

Lemma entries_inv_same f0 f : f_tasks f0 = f_tasks f → (∀ k, entries k f0 = entries k f) → entries_inv f → entries_inv f0.
Proof. intros E Ee [Hr He]. split; [by rewrite E|]. intros k h Hx. rewrite Ee in Hx. rewrite E. by apply He. Qed.

Lemma ffi_step_entries f f' : ffi_step f f' → entries_inv f → entries_inv f'.
Proof.
  intros Hs Hf. destruct Hs as [c cb f _|i f f' _ Hs|f _|i f f' _ _ Hs].
  - assert (entries_inv (set_tasks (f_tasks f ++ [mkTask c cb PStart]) f)) as Hf'.
    { destruct Hf as [Hr He]. split; [apply Forall_app; by split; [|constructor]|].
      intros k h Hx. destruct (He k h) as (j & u & Hj & Hu); [by destruct k|]. exists j, u. split; [|done].
      cbn. by apply lookup_app_l_Some. }
    unfold spawn. destruct (f_runtime f); [by eapply entries_inv_same; [| |exact Hf']; [|intros []]..|].
    eapply entry_step_inv; [|exact Hf']. unfold finish. cbn [calls_back].
    set (t := mkTask c cb PStart) in *. set (f0 := set_tasks (f_tasks f ++ [t]) f) in *.
    assert (f_tasks f0 !! length (f_tasks f) = Some t) as Hi by (cbn; by rewrite lookup_app_r, Nat.sub_diag by lia).
    destruct (calls_back _ _); [by apply fewer_entry_step|].
    apply fewer_entry_step; [done|done|done|]. apply plain_register. by destruct (_ && _).
  - by eapply entry_step_inv; [apply step_task_entry|].
  - unfold shut_down. destruct (f_runtime f); [done|..]; by eapply entries_inv_same; [| |exact Hf]; [|intros []].
  - eapply entry_step_inv; [|exact Hf]. unfold cancel_task in Hs. destruct (f_tasks f !! i) as [t|] eqn:Hi; [|done].
    cbn [mbind option_bind] in Hs.
    assert (is_settled (t_phase t) = false ∧ f' = finish i t Panic (release t f)) as [Hp ->]
      by (destruct (t_phase t); try done; by injection Hs as <-).
    unfold finish. destruct (calls_back _ _); (apply fewer_entry_step; [done|by destruct (release_fewer t f)|done|]);
      apply plain_register; [done|by destruct (_ && _)].
Qed.

Lemma reachable_entries (g : G) f : rtc ffi_step (ffi_initial g) f → entries_inv f.
Proof.
  intros Hr. assert (entries_inv (ffi_initial g)) as Hi by (split; [done|]; intros [] h; cbn; rewrite lookup_empty; by intros []).
  induction Hr as [|f1 f2 f3 Hs _ IH]; [done|]. apply IH. by eapply ffi_step_entries.
Qed.
End Draws.
