(* ===== verification/FfiPoolLaws.v ===== *)
(** * The tasks of the foreign function interface: properties

    Exclusion and counting, completion, callbacks, and what closing does. *)

From stdpp Require Import sorting.
From S2P Require Import Prelude Errors Entry FfiHandles FfiPool FfiPoolInv FfiDraws.
Local Open Scope string_scope.
Local Open Scope list_scope.

Section Laws.
Context `{Build} {K G St Se Sc : Type} `{FfiSystem K G St Se Sc}.
Abbreviation Task := (Task (K := K) (St := St) (Se := Se) (Sc := Sc)).
Abbreviation Phase := (Phase (St := St) (Se := Se) (Sc := Sc)).
Abbreviation Ffi := (Ffi (K := K) (G := G) (St := St) (Se := Se) (Sc := Sc)).
Implicit Types f : Ffi.

(** ** Exclusion and counting *)

Lemma tally_unique {A} (p : A → bool) l i j x y :
  (tally p l ≤ 1)%nat → l !! i = Some x → l !! j = Some y → p x = true → p y = true → i = j.
Proof.
  revert i j. induction l as [|z l IH]; intros i j Hl Hi Hj Hx Hy; [done|].
  change (z :: l) with ([z] ++ l) in Hl. rewrite tally_app in Hl. unfold tally in Hl at 1. cbn [List.filter] in Hl.
  destruct i as [|i], j as [|j]; cbn in Hi, Hj; simplify_eq; [done|..].
  - rewrite Hx in Hl. pose proof (tally_lookup p l j y Hj Hy). cbn in Hl. lia.
  - rewrite Hy in Hl. pose proof (tally_lookup p l i x Hi Hx). cbn in Hl. lia.
  - f_equal. apply IH; try done. lia.
Qed.

(** What holds of a map of resources and the tasks that use it. *)
Definition resources_ok {V} (m : ResMap V) (us : list Use) : Prop :=
  (* the readers of the map are the tasks that wait for a cell *)
  rm_readers m = tally is_wait us
  (* a handle leads to a cell, and no other handle leads to that one *)
  ∧ (∀ h s c, rm_map m !! h = Some (s, c) → is_Some (rm_cells m !! c))
  ∧ (∀ h h' s s' c, rm_map m !! h = Some (s, c) → rm_map m !! h' = Some (s', c) → h = h')
  (* the references to a cell are its handle and the tasks that wait for it or have it *)
  ∧ (∀ c x, rm_cells m !! c = Some x →
      c_refs x = (in_map m c + tally (is_use (UWait c)) us + tally (is_use (UHold c)) us)%nat ∧ (1 ≤ c_refs x)%nat)
  (* a task that waits for a cell or has it finds it *)
  ∧ (∀ i c, us !! i = Some (UWait c) ∨ us !! i = Some (UHold c) → is_Some (rm_cells m !! c))
  (* a cell is locked when a task has it, and one task at most has it *)
  ∧ (∀ c x, rm_cells m !! c = Some x → c_locked x = true ↔ ∃ i, us !! i = Some (UHold c))
  ∧ (∀ c i j, us !! i = Some (UHold c) → us !! j = Some (UHold c) → i = j).

Lemma rm_inv_resources {V} (m : ResMap V) us : rm_inv m us → resources_ok m us.
Proof.
  intros [Hr Hs]. split_and!; [done|..].
  - intros h s c Hm. destruct (Hs c) as [_ Hc]. pose proof (handles_of_pos _ _ _ _ Hm).
    destruct (rm_cells m !! c); [by eexists|]. unfold in_map in Hc. lia.
  - intros h h' s s' c Hm Hm'. destruct (Hs c) as [Hle _]. by eapply handles_of_unique.
  - intros c x Hc. destruct (Hs c) as [_ Hx]. rewrite Hc in Hx. by destruct Hx as (? & ? & _).
  - intros i c Hu. destruct (Hs c) as [_ Hx]. destruct (rm_cells m !! c); [by eexists|].
    destruct Hu as [Hu|Hu]; pose proof (tally_lookup _ _ _ _ Hu (is_use_eq _)); lia.
  - intros c x Hc. destruct (Hs c) as [_ Hx]. rewrite Hc in Hx. destruct Hx as (_ & _ & Hk & _).
    destruct (c_locked x); split; try done.
    + intros _. destruct (tally_pos (is_use (UHold c)) us) as (i & u & Hi & Hu); [lia|].
      apply bool_decide_eq_true in Hu. subst u. eauto.
    + intros [i Hi]. pose proof (tally_lookup _ _ _ _ Hi (is_use_eq _)). lia.
  - intros c i j Hi Hj. eapply (tally_unique (is_use (UHold c))); [|exact Hi|exact Hj|apply is_use_eq..].
    destruct (Hs c) as [_ Hx]. destruct (rm_cells m !! c) as [x|]; [|lia]. destruct (c_locked x); lia.
Qed.

(** What holds of the handles of a kind, as long as there are enough of them. *)
Definition handles_ok (k : Kind) f : Prop :=
  (* no two tasks are ever given the same handle, whatever has been closed in between *)
  (∀ i j t t' h, f_tasks f !! i = Some t → f_tasks f !! j = Some t' → drawn k t = Some h → drawn k t' = Some h → i = j)
  (* and none is given the null handle *)
  ∧ (∀ i t h, f_tasks f !! i = Some t → drawn k t = Some h → (1 ≤ h)%nat ∧ (N.of_nat h < 2 ^ usize_bits)%N)
  (* a handle that is in the map was entered by the task it was given to *)
  ∧ (∀ h, is_Some (entries k f !! h) → ∃ i t, f_tasks f !! i = Some t ∧ entered k t = Some h)
  (* so that a task that enters its handle takes nobody's place *)
  ∧ (∀ i t h, f_tasks f !! i = Some t → drawn k t = Some h → entered k t = None → entries k f !! h = None).

Lemma entered_drawn k (t : Task) h : entered k t = Some h → drawn k t = Some h.
Proof. unfold entered, drawn. destruct (opens k (t_call t)); [|done]. by destruct (t_phase t). Qed.

Lemma inv_handles k f : draws_inv k f → entries_inv f → (N.of_nat (opened k f) < 2 ^ usize_bits)%N → handles_ok k f.
Proof.
  intros Hd [_ He] Hlt. destruct (Hd Hlt) as (Hc & Hb & Hu). split_and!; [exact Hu|..|exact (He k)|].
  - intros i t h Hi Hh. destruct (Hb i t h Hi Hh) as [H1 H2]. pose proof (past_opened k f). split; [done|lia].
  - intros i t h Hi Hh Hn. destruct (entries k f !! h) eqn:E; [|done]. exfalso.
    destruct (He k h) as (j & u & Hj & Hju); [by rewrite E|].
    pose proof (Hu i j t u h Hi Hj Hh (entered_drawn _ _ _ Hju)) as <-. congruence.
Qed.

(** C17: Whatever calls are made and however the tasks interleave, panic or are dropped at
    shutdown: sessions and scans are counted right, no two tasks have one session locked,
    and no task is left with a session that is gone.  Handles are drawn from counters that
    wrap around at the width of [usize]: as long as fewer calls asked for a handle of a
    kind than there are, no handle is ever given out twice, freed ones included, the null
    handle is never given out, and entering a session or scan under its handle displaces
    no other. *)
Theorem ffi_resources_safe (g : G) f : rtc ffi_step (ffi_initial g) f →
  resources_ok (f_sessions f) (use_of false <$> f_tasks f) ∧ resources_ok (f_scans f) (use_of true <$> f_tasks f)
  ∧ ∀ k, (N.of_nat (opened k f) < 2 ^ usize_bits)%N → handles_ok k f.
Proof.
  intros Hr. pose proof (reachable_inv _ _ Hr) as (H1 & H2 & _).
  split_and!; [by apply rm_inv_resources..|]. intros k Hk.
  apply inv_handles; [by eapply reachable_draws|by eapply reachable_entries|done].
Qed.

(** ** Completion *)

(** The steps that a task can still make, at most. *)
Definition rank (p : Phase) : nat :=
  match p with
  | PStart => 6
  | PCloseSessions _ => 5
  | PCloseScans _ => 4
  | PStore _ | PTaken _ | PWait _ | PCloseStore _ => 3
  | PHold _ | PCommit _ | PCloseWait _ | PReplace _ _ | PRegisterStore _ _ | PRegisterSession _ _ | PRegisterScan _ _ => 2
  | PResolve _ => 1
  | PDone _ | PAborted => 0
  end.

(** The steps that the tasks still have to make, at most. *)
Definition work f : nat := sum_list_with (λ t : Task, rank (t_phase t)) (f_tasks f).

(** The tasks, the callbacks made so far and the runtime are the same. *)
Definition same_tasks f0 f : Prop := f_tasks f0 = f_tasks f ∧ f_calls f0 = f_calls f ∧ f_runtime f0 = f_runtime f.

(** A panic is resolved where it unwinds, and ends the process where it aborts. *)
Definition build_ok (p : Phase) : Prop :=
  match p with
  | PAborted => panic_aborts = true
  | PResolve Panic => panic_aborts = false
  | PReplace _ Panic => False
  | _ => True
  end.

Definition is_end (p : Phase) : bool := match p with PDone _ => true | _ => false end.

(** A step moves one task on, not to its end. *)
Definition moves (i : nat) f f' : Prop :=
  ∃ t p, f_tasks f !! i = Some t ∧ f_tasks f' = <[i := mkTask (t_call t) (t_cb t) p]> (f_tasks f)
    ∧ f_calls f' = f_calls f ∧ f_runtime f' = f_runtime f ∧ is_end p = false ∧ (rank p < rank (t_phase t))%nat
    ∧ (build_ok (t_phase t) → build_ok p).

Lemma panicked_ok : is_end panicked = false ∧ (rank panicked ≤ 1)%nat ∧ build_ok panicked.
Proof. unfold panicked. destruct panic_aborts eqn:E; cbn; split_and!; done || lia. Qed.
Lemma settled_ok r : is_end (settled r) = false ∧ (rank (settled r) ≤ 1)%nat ∧ build_ok (settled r).
Proof. destruct r; try (cbn; split_and!; done || lia). apply panicked_ok. Qed.

Lemma moves_phase i t p f f0 : f_tasks f !! i = Some t → same_tasks f0 f →
  is_end p = false → (rank p < rank (t_phase t))%nat → build_ok p → moves i f (set_phase i t p f0).
Proof. intros Hi (E & E' & E'') He Hr Hb. exists t, p. split_and!; try done. cbn. by rewrite E. Qed.

Lemma resolve_moves i t r f f0 : f_tasks f !! i = Some t → same_tasks f0 f → (1 < rank (t_phase t))%nat → r ≠ Panic →
  moves i f (set_phase i t (PResolve r) f0).
Proof. intros. apply moves_phase; try done. by destruct r. Qed.

Lemma panic_moves i t f f0 : f_tasks f !! i = Some t → same_tasks f0 f → (1 < rank (t_phase t))%nat →
  moves i f (set_phase i t panicked f0).
Proof. intros. destruct panicked_ok as (? & ? & ?). apply moves_phase; try done. lia. Qed.

Lemma continue_moves {A} i t (x : Ffi * res AskarError.Error A) next f : f_tasks f !! i = Some t →
  same_tasks x.1 f → (1 < rank (t_phase t))%nat → (∀ a, moves i f (next a x.1)) → moves i f (continue i t x next).
Proof. intros Hi E Hr Hn. unfold continue. destruct x.2; [apply Hn|by apply resolve_moves|by apply panic_moves]. Qed.

Lemma in_world_tasks {A} (m : stm G AskarError.Error A) f : same_tasks (in_world m f).1 f.
Proof. unfold in_world. by destruct (m (f_world f)). Qed.

Lemma register_moves i t f f0 : f_tasks f !! i = Some t → same_tasks f0 f → (2 < rank (t_phase t))%nat →
  (∀ s, moves i f (register_store i t s f0)) ∧ (∀ v, moves i f (register_session i t v f0)) ∧ (∀ v, moves i f (register_scan i t v f0)).
Proof.
  intros Hi E Hr. unfold register_store, register_session, register_scan, rm_next. split_and!; intros v;
    destruct (next_handle _) as [n [h|e|]]; try (by apply moves_phase); (apply panic_moves; [done|done|lia]).
Qed.

Lemma drops_tasks f f0 : same_tasks f0 f → (∀ v, same_tasks (drop_session v f0) f) ∧ (∀ v, same_tasks (drop_scan v f0) f).
Proof. split; by intros []. Qed.

Lemma step_start_moves i c cb f f' : let t := mkTask c cb PStart in
  f_tasks f !! i = Some t → step_start i t f = Some f' → moves i f f'.
Proof.
  intros t Hi Hs. unfold step_start in Hs. cbn [t_call t] in Hs.
  assert (Hm : ∀ p f0, same_tasks f0 f → is_end p = false → (rank p < 6)%nat → build_ok p → moves i f (set_phase i t p f0))
    by (intros; by apply moves_phase).
  assert (Hp : ∀ f0, same_tasks f0 f → moves i f (set_phase i t panicked f0)) by (intros; apply panic_moves; [done|done|cbn; lia]).
  assert (Hreg : ∀ f0, same_tasks f0 f → ∀ s, moves i f (register_store i t s f0))
    by (intros f0 E0; apply (register_moves i t f f0 Hi E0); cbn; lia).
  assert (Hcon : ∀ A (m : stm G AskarError.Error A) next, (∀ a, moves i f (next a (in_world m f).1)) →
    moves i f (continue i t (in_world m f) next)).
  { intros A m next Hn. apply continue_moves; [done|apply in_world_tasks|cbn; lia|done]. }
  destruct c as [? ? ? ? ?|? ? ? ?|?|? ? ? ?|h op|h ? ?|h ? ? ? ?|h|h ?|h|h|h ? ?|h op|h commit].
  1,2: injection Hs as <-; apply Hcon; intros s; apply Hreg, in_world_tasks.
  1,2: injection Hs as <-; apply Hcon; intros b; apply Hm; [apply in_world_tasks|done|cbn; lia|done].
  1,3,5,8: injection Hs as <-; unfold load_store; destruct (f_stores f !! h); apply Hm; done || (cbn; lia).
  1,2: injection Hs as <-; unfold remove_store; destruct (f_stores f !! h); apply Hm; done || (cbn; lia).
  - destruct (rm_borrow h (f_scans f)) as [[m x]|e|]; injection Hs as <-; [apply Hm; done || (cbn; lia)..|by apply Hp].
  - destruct (rm_readers (f_scans f) =? 0)%nat; [|done]. destruct (rm_remove h (f_scans f)) as [m r].
    injection Hs as <-. apply Hm; [by apply drops_tasks|done|cbn; lia|done].
  - destruct (rm_borrow h (f_sessions f)) as [[m x]|e|]; injection Hs as <-; [apply Hm; done || (cbn; lia)..|by apply Hp].
  - destruct (rm_readers (f_sessions f) =? 0)%nat; [|done]. destruct (rm_remove h (f_sessions f)) as [m r].
    injection Hs as <-. destruct r as [[v|e|]|]; [destruct commit|..]; try (apply Hm; done || (cbn; lia)); by apply Hp.
Qed.

Lemma step_hold_moves i c cb x f : let t := mkTask c cb (PHold x) in
  f_tasks f !! i = Some t → moves i f (step_hold i t x f).
Proof.
  intros t Hi. unfold step_hold.
  assert (Hp : ∀ f0, same_tasks f0 f → moves i f (set_phase i t panicked f0)) by (intros; apply panic_moves; [done|done|cbn; lia]).
  assert (Hs : ∀ r f0, same_tasks f0 f → moves i f (set_phase i t (settled r) f0)).
  { intros r f0 E. destruct (settled_ok r) as (? & ? & ?). apply moves_phase; try done. cbn. lia. }
  destruct (t_call t); try by apply Hp.
  - destruct (rm_cells (f_scans f) !! x); [|by apply Hp]. destruct (fs_fetch_next _) as [[g v] r].
    destruct (rm_unlock x v (f_scans f)) as [m gone]. by apply Hs, drops_tasks.
  - destruct (rm_cells (f_sessions f) !! x); [|by apply Hp]. destruct (fs_session_op _ _) as [[g v] r].
    destruct (rm_unlock x v (f_sessions f)) as [m gone]. by apply Hs, drops_tasks.
Qed.

(** A step moves a task on or ends it. *)
Lemma step_task_moves i f f' : step_task i f = Some f' →
  moves i f f' ∨ ∃ t r, f_tasks f !! i = Some t ∧ t_phase t = PResolve r ∧ f' = finish i t r f.
Proof.
  intros Hs. unfold step_task in Hs.
  destruct (f_tasks f !! i) as [[c cb p]|] eqn:Hi; [|done]. cbn [mbind option_bind t_phase t_call] in Hs.
  set (t := mkTask c cb p) in *.
  assert (Hm : ∀ p' f0, same_tasks f0 f → is_end p' = false → (rank p' < rank p)%nat → build_ok p' → moves i f (set_phase i t p' f0))
    by (intros; by apply moves_phase).
  assert (Hp : (1 < rank p)%nat → ∀ f0, same_tasks f0 f → moves i f (set_phase i t panicked f0)) by (intros; by apply panic_moves).
  assert (Hcon : (1 < rank p)%nat → ∀ A (m : stm G AskarError.Error A) next, (∀ a, moves i f (next a (in_world m f).1)) →
    moves i f (continue i t (in_world m f) next)).
  { intros Hr A m next Hn. apply continue_moves; [done|apply in_world_tasks|done|done]. }
  destruct p as [|s|s|s r|s|s|s|s|s h|v h|v h|x|x|v|r|r|]; cbn [rank] in *;
    try (specialize (Hp ltac:(lia)); specialize (Hcon ltac:(lia))).
  15: { injection Hs as <-. right. by exists t, r. }
  all: left.
  - by eapply step_start_moves.
  - injection Hs as <-. unfold step_store.
    destruct (t_call t); try by apply Hp.
    all: apply Hcon; intros a.
    + apply Hm; [apply in_world_tasks|done|cbn; lia|done].
    + apply (register_moves i t f _ Hi); [apply in_world_tasks|cbn; lia].
    + apply (register_moves i t f _ Hi); [apply in_world_tasks|cbn; lia].
    + apply (register_moves i t f _ Hi); [apply in_world_tasks|cbn; lia].
  - injection Hs as <-. unfold step_rekey. destruct (t_call t); try by apply Hp.
    unfold in_world. destruct (fs_rekey _ _ _ _ _) as [g [a|e|]]; [apply Hm; done || (cbn; lia)..|by apply Hp].
  - injection Hs as <-. exists t, (PResolve r). split_and!; try done; [cbn; lia|]. by destruct r.
  - destruct (rm_readers (f_sessions f) =? 0)%nat; [|done]. destruct (remove_all _ _) as [m vs]. injection Hs as <-.
    apply Hm; done || (cbn; lia).
  - destruct (rm_readers (f_scans f) =? 0)%nat; [|done]. destruct (remove_all _ _) as [m vs]. injection Hs as <-.
    apply Hm; done || (cbn; lia).
  - injection Hs as <-. apply Hm; done || (cbn; lia).
  - destruct (connected s f); [done|]. injection Hs as <-. apply Hcon. intros a. apply Hm; [apply in_world_tasks|done|cbn; lia|done].
  - injection Hs as <-. apply Hm; done || (cbn; lia).
  - destruct (rm_readers (f_sessions f) =? 0)%nat; [|done]. destruct (rm_insert _ _ _ _) as [m old]. injection Hs as <-.
    apply Hm; [by apply drops_tasks|done|cbn; lia|done].
  - destruct (rm_readers (f_scans f) =? 0)%nat; [|done]. destruct (rm_insert _ _ _ _) as [m old]. injection Hs as <-.
    apply Hm; [by apply drops_tasks|done|cbn; lia|done].
  - destruct (on_scans c); [destruct (rm_lock x (f_scans f)); [|done]|destruct (rm_lock x (f_sessions f)); [|done]];
      injection Hs as <-; apply Hm; done || (cbn; lia).
  - injection Hs as <-. by apply step_hold_moves.
  - injection Hs as <-. apply Hcon. intros a. apply Hm; [apply in_world_tasks|done|cbn; lia|done].
  - done.
  - done.
Qed.

Lemma work_insert (l : list Task) i t t' : l !! i = Some t →
  (sum_list_with (λ t : Task, rank (t_phase t)) (<[i := t']> l) + rank (t_phase t)
   = sum_list_with (λ t : Task, rank (t_phase t)) l + rank (t_phase t'))%nat.
Proof.
  revert i. induction l as [|x l IH]; intros [|i] Hi; try done.
  - cbn in *. injection Hi as ->. lia.
  - change (<[S i := t']> (x :: l)) with (x :: <[i := t']> l). specialize (IH i Hi). cbn [sum_list_with]. lia.
Qed.

(** The end of a task: a phase of rank 0, with or without a callback. *)
Lemma finish_end i t r f : ∃ p, f_tasks (finish i t r f) = <[i := mkTask (t_call t) (t_cb t) p]> (f_tasks f)
  ∧ rank p = 0%nat ∧ build_ok p
  ∧ (f_calls (finish i t r f) = f_calls f ++ [(i, callback_args r)] ∧ p = PDone r ∧ calls_back (t_cb t) r = true
     ∨ f_calls (finish i t r f) = f_calls f ∧ calls_back (t_cb t) r = false
       ∧ (p = PDone r ∧ t_cb t && panic_aborts = false ∨ p = PAborted)).
Proof.
  unfold finish. destruct (calls_back (t_cb t) r); [exists (PDone r); split_and!; try done; by left|].
  destruct (t_cb t && panic_aborts) eqn:E; [exists PAborted|exists (PDone r)]; (split_and!; [done|done|..|right]); try done.
  - by apply andb_true_iff in E as [_ ?].
  - split_and!; [done|done|by right].
  - split_and!; [done|done|by left].
Qed.

Lemma step_work i f f' : step_task i f = Some f' → (work f' < work f)%nat.
Proof.
  assert (Hw : ∀ t p, f_tasks f !! i = Some t → f_tasks f' = <[i := mkTask (t_call t) (t_cb t) p]> (f_tasks f) →
    (rank p < rank (t_phase t))%nat → (work f' < work f)%nat).
  { intros t p Hi E Hr. unfold work. rewrite E.
    pose proof (work_insert (f_tasks f) i t (mkTask (t_call t) (t_cb t) p) Hi) as Hw. cbn in Hw. lia. }
  intros [(t & p & Hi & E & _ & _ & _ & Hr & _)|(t & r & Hi & Hp & ->)]%step_task_moves; [by eapply Hw|].
  destruct (finish_end i t r f) as (p & E & Hr & _). apply (Hw t p); [done|done|]. rewrite Hp, Hr. cbn. lia.
Qed.

(** ** Progress *)

Definition is_done (t : Task) : bool := is_end (t_phase t).

Definition can_step f : Prop := ∃ i f', step_task i f = Some f'.

Lemma use_of_inv scan i f u : (use_of scan <$> f_tasks f) !! i = Some u →
  ∃ t, f_tasks f !! i = Some t ∧ use_of scan t = u.
Proof. rewrite list_lookup_fmap. destruct (f_tasks f !! i) as [t|]; [|done]. intros [= <-]. eauto. Qed.

Lemma use_wait scan (t : Task) c : use_of scan t = UWait c → t_phase t = PWait c ∧ on_scans (t_call t) = scan.
Proof.
  unfold use_of. destruct (t_phase t); try done;
    destruct (Bool.eqb_spec (on_scans (t_call t)) scan); naive_solver.
Qed.
Lemma use_hold scan (t : Task) c : use_of scan t = UHold c → t_phase t = PHold c ∧ on_scans (t_call t) = scan.
Proof.
  unfold use_of. destruct (t_phase t); try done;
    destruct (Bool.eqb_spec (on_scans (t_call t)) scan); naive_solver.
Qed.

(** Who has a session locked can go on. *)
Lemma hold_can_step scan i c f : (use_of scan <$> f_tasks f) !! i = Some (UHold c) → can_step f.
Proof.
  intros (t & Hi & [Hp _]%use_hold)%use_of_inv. exists i. unfold step_task. rewrite Hi. cbn. rewrite Hp. eauto.
Qed.

(** Who waits for a session can go on, or somebody else can. *)
Lemma wait_can_step scan i c f : ffi_inv f → (use_of scan <$> f_tasks f) !! i = Some (UWait c) → can_step f.
Proof.
  intros (H1 & H2 & _) Hu. pose proof (use_of_inv _ _ _ _ Hu) as (t & Hi & [Hp Ho]%use_wait).
  destruct scan.
  - apply rm_inv_resources in H2 as (_ & _ & _ & _ & Hc & Hl & _). destruct (Hc i c (or_introl Hu)) as [x Ec].
    destruct (c_locked x) eqn:El; [apply (Hl c x Ec) in El as [j Hj]; by eapply hold_can_step|].
    exists i. unfold step_task. rewrite Hi. cbn. rewrite Hp, Ho. unfold rm_lock. rewrite Ec. cbn. rewrite El. eauto.
  - apply rm_inv_resources in H1 as (_ & _ & _ & _ & Hc & Hl & _). destruct (Hc i c (or_introl Hu)) as [x Ec].
    destruct (c_locked x) eqn:El; [apply (Hl c x Ec) in El as [j Hj]; by eapply hold_can_step|].
    exists i. unfold step_task. rewrite Hi. cbn. rewrite Hp, Ho. unfold rm_lock. rewrite Ec. cbn. rewrite El. eauto.
Qed.

(** A map with readers has a task that can go on. *)
Lemma sessions_read_can_step f : ffi_inv f → rm_readers (f_sessions f) ≠ 0%nat → can_step f.
Proof.
  intros Hf Hr. pose proof Hf as ([Hn _] & _). rewrite Hn in Hr.
  destruct (tally_pos is_wait (use_of false <$> f_tasks f)) as (i & u & Hu & Hw); [lia|].
  destruct u; try done. by eapply wait_can_step.
Qed.
Lemma scans_read_can_step f : ffi_inv f → rm_readers (f_scans f) ≠ 0%nat → can_step f.
Proof.
  intros Hf Hr. pose proof Hf as (_ & [Hn _] & _). rewrite Hn in Hr.
  destruct (tally_pos is_wait (use_of true <$> f_tasks f)) as (i & u & Hu & Hw); [lia|].
  destruct u; try done. by eapply wait_can_step.
Qed.

(** A task that is neither done nor waits for the connections of a store can go on, or
    somebody else can. *)
Definition resting (p : Phase) : bool := match p with PDone _ | PAborted | PCloseWait _ => true | _ => false end.

Lemma progress f i t : ffi_inv f → f_tasks f !! i = Some t → resting (t_phase t) = false → can_step f.
Proof.
  intros Hf Hi Hd. destruct (step_task i f) as [f'|] eqn:Es; [by exists i, f'|].
  pose proof (sessions_read_can_step f Hf) as Hse. pose proof (scans_read_can_step f Hf) as Hsc.
  pose proof Es as Hs. unfold step_task in Hs. rewrite Hi in Hs. destruct t as [c cb p]. cbn [mbind option_bind t_phase t_call] in *.
  destruct p as [|s|s|s r|s|s|s|s|s h|v h|v h|x|x|v|r|r|]; try done.
  - unfold step_start in Hs. cbn [t_call] in Hs. destruct c; try done.
    + by destruct (rm_borrow handle (f_scans f)) as [[]| |].
    + destruct (Nat.eqb_spec (rm_readers (f_scans f)) 0) as [E|E]; [|by apply Hsc].
      by destruct (rm_remove handle (f_scans f)).
    + by destruct (rm_borrow handle (f_sessions f)) as [[]| |].
    + destruct (Nat.eqb_spec (rm_readers (f_sessions f)) 0) as [E|E]; [|by apply Hse].
      by destruct (rm_remove handle (f_sessions f)).
  - destruct (Nat.eqb_spec (rm_readers (f_sessions f)) 0) as [E|E]; [|by apply Hse]. by destruct (remove_all _ _).
  - destruct (Nat.eqb_spec (rm_readers (f_scans f)) 0) as [E|E]; [|by apply Hsc]. by destruct (remove_all _ _).
  - destruct (Nat.eqb_spec (rm_readers (f_sessions f)) 0) as [E|E]; [by destruct (rm_insert _ _ _ _)|by apply Hse].
  - destruct (Nat.eqb_spec (rm_readers (f_scans f)) 0) as [E|E]; [by destruct (rm_insert _ _ _ _)|by apply Hsc].
  - apply (wait_can_step (on_scans c) i x); [done|]. apply (use_lookup _ _ _ _ _ Hi). unfold use_of. cbn.
    by rewrite Bool.eqb_reflx.
Qed.

(** ** Closes that wait *)

(** No task can go on but those whose closing waits. *)
Definition at_rest f : Prop := Forall (λ t : Task, resting (t_phase t) = true) (f_tasks f).

(** A session or scan with a connection of the store, open under its handle and used by
    nobody. *)
Definition held_open (s : St) f : Prop :=
  (∃ h st c v, rm_map (f_sessions f) !! h = Some (st, c) ∧ rm_cells (f_sessions f) !! c = Some (mkCell v false 1)
    ∧ fs_holds s v (f_world f) = true)
  ∨ (∃ h st c v, rm_map (f_scans f) !! h = Some (st, c) ∧ rm_cells (f_scans f) !! c = Some (mkCell v false 1)
    ∧ fs_scan_holds s v (f_world f) = true).

Lemma rest_unused scan f : at_rest f → Forall (λ u, u = UNone) (use_of scan <$> f_tasks f).
Proof.
  intros Hr. apply Forall_fmap. eapply Forall_impl; [exact Hr|]. intros t Ht. cbn in *. unfold use_of. by destruct (t_phase t).
Qed.

Lemma unused_tally (us : list Use) p : Forall (λ u, u = UNone) us → p UNone = false → tally p us = 0%nat.
Proof.
  intros Hu Hp. apply Nat.le_0_r, Nat.nlt_ge. intros Ht. destruct (tally_pos p us) as (i & u & Hi & Eu); [lia|].
  eapply Forall_lookup_1 in Hu; [|exact Hi]. congruence.
Qed.

(** With no task that uses it, a cell has a handle, and nobody else. *)
Lemma rest_cell {V} (m : ResMap V) us c x : rm_inv m us → Forall (λ u, u = UNone) us → rm_cells m !! c = Some x →
  (∃ h st, rm_map m !! h = Some (st, c)) ∧ x = mkCell (c_value x) false 1.
Proof.
  intros [_ Hs] Hu Hc. destruct (Hs c) as [Hle Hx]. rewrite Hc in Hx.
  rewrite (unused_tally us (is_use (UWait c)) Hu eq_refl), (unused_tally us (is_use (UHold c)) Hu eq_refl) in Hx.
  destruct Hx as (Hr & Hp & Hk & _). split; [apply handles_of_inv; unfold in_map in *; lia|].
  destruct x as [v l n]. cbn in *. assert (n = 1%nat) as -> by (unfold in_map in *; lia). by destruct l.
Qed.

Lemma rest_readers f : ffi_inv f → at_rest f → rm_readers (f_sessions f) = 0%nat ∧ rm_readers (f_scans f) = 0%nat.
Proof.
  intros ([H1 _] & [H2 _] & _) Hr. rewrite H1, H2. split; (apply unused_tally; [by apply rest_unused|done]).
Qed.

Lemma rest_live f : at_rest f → live_sessions f = rm_values (f_sessions f) ∧ live_scans f = rm_values (f_scans f).
Proof.
  intros Hr. unfold live_sessions, live_scans.
  assert (omap task_session (f_tasks f) = [] ∧ omap task_scan (f_tasks f) = []) as [-> ->]; [|by rewrite !app_nil_r].
  unfold at_rest in Hr. induction Hr as [|t l Ht Hr [IH1 IH2]]; [done|]. cbn [omap list_omap]. unfold task_session, task_scan.
  split; by destruct (t_phase t).
Qed.

Lemma values_inv {V} (m : ResMap V) p : existsb p (rm_values m) = true → ∃ c x, rm_cells m !! c = Some x ∧ p (c_value x) = true.
Proof.
  unfold rm_values. intros (v & Hv & Hp)%existsb_exists. apply in_map_iff in Hv as ([c x] & <- & Hin).
  apply list_elem_of_In, elem_of_map_to_list in Hin. by exists c, x.
Qed.

Lemma connected_held s f : ffi_inv f → at_rest f → connected s f = true → held_open s f.
Proof.
  intros (H1 & H2 & _) Hr. unfold connected. destruct (rest_live f Hr) as [-> ->].
  intros [Hc|Hc]%orb_true_iff; apply values_inv in Hc as (c & x & Hc & Hh).
  - destruct (rest_cell _ _ _ _ H1 (rest_unused false f Hr) Hc) as [(h & st & Hm) Ex]. left. exists h, st, c, (c_value x).
    by rewrite <- Ex.
  - destruct (rest_cell _ _ _ _ H2 (rest_unused true f Hr) Hc) as [(h & st & Hm) Ex]. right. exists h, st, c, (c_value x).
    by rewrite <- Ex.
Qed.

(** The steps of tasks, in a process that lives. *)
Definition task_step f f' : Prop := aborted f = false ∧ ∃ i, step_task i f = Some f'.

Lemma task_steps_inv f f' : ffi_inv f → rtc task_step f f' → ffi_inv f'.
Proof. intros Hf Hr. induction Hr as [|f1 f2 f3 [_ [i Hs]] _ IH]; [done|]. apply IH. by eapply step_task_inv. Qed.

Lemma steps_work n f f' : nsteps task_step n f f' → (n + work f' ≤ work f)%nat.
Proof.
  induction 1 as [|n f1 f2 f3 [_ [i Hs]] _ IH]; [lia|]. apply step_work in Hs. lia.
Qed.

Lemma not_aborted f i t : aborted f = false → f_tasks f !! i = Some t → t_phase t ≠ PAborted.
Proof.
  intros Ha Hi Hp. apply not_true_iff_false in Ha. apply Ha. apply existsb_exists. exists t.
  split; [by eapply list_elem_of_In, list_elem_of_lookup_2|by rewrite Hp].
Qed.

(** Somebody can go on, or all that is left are closes that wait. *)
Lemma step_or_rest f : ffi_inv f → aborted f = false → (∃ f', task_step f f') ∨ at_rest f.
Proof.
  intros Hf Ha. destruct (decide (Forall (λ t : Task, resting (t_phase t) = true) (f_tasks f))) as [Hd|Hd]; [by right|left].
  apply not_Forall_Exists in Hd; [|intros t; destruct (resting _); [by left|by right]].
  apply Exists_exists in Hd as (t & [i Hi]%list_elem_of_lookup & Hd).
  destruct (progress f i t Hf Hi) as (j & f'' & Hj); [by apply not_true_is_false|]. exists f''. by split; [|exists j].
Qed.

(** The process is over, somebody can go on, or every task that is not done is the
    closing of a store that waits for what is left open. *)
Lemma step_or_held f : ffi_inv f → aborted f = true ∨ (∃ f', task_step f f')
  ∨ Forall (λ t : Task, is_done t = true ∨ ∃ s, t_phase t = PCloseWait s ∧ held_open s f) (f_tasks f).
Proof.
  intros Hf. destruct (aborted f) eqn:Ha; [by left|right].
  destruct (step_or_rest f Hf Ha) as [Hs|Hr]; [by left|].
  set (held := λ t : Task, match t_phase t with PCloseWait s => connected s f | _ => true end).
  destruct (decide (Forall (λ t, held t = true) (f_tasks f))) as [Hc|Hc].
  - right. apply Forall_lookup_2. intros i t Hi. pose proof (Forall_lookup_1 _ _ _ _ Hc Hi) as Hh.
    pose proof (Forall_lookup_1 _ _ _ _ Hr Hi) as Ht. pose proof (not_aborted _ _ _ Ha Hi) as Hn. cbn in *.
    unfold is_done, held in *. destruct (t_phase t) eqn:Ep; try done; [right|by left]. eexists. split; [done|].
    by apply connected_held.
  - left. apply not_Forall_Exists in Hc; [|intros t; destruct (held t); [by left|by right]].
    apply Exists_exists in Hc as (t & [i Hi]%list_elem_of_lookup & Hc%not_true_is_false).
    assert (∃ s, t_phase t = PCloseWait s ∧ connected s f = false) as (s & Ep & Es)
      by (unfold held in Hc; destruct (t_phase t); try done; by eexists).
    eexists. split; [done|]. exists i. unfold step_task. rewrite Hi. cbn [mbind option_bind]. by rewrite Ep, Es.
Qed.

(** ** Closing what is left open *)

(** Tasks make steps, or the caller closes a session or a scan. *)
Definition closing_step f f' : Prop :=
  task_step f f'
  ∨ (aborted f = false ∧ ∃ h, f' = spawn (CSessionClose h false) true f ∨ f' = spawn (CScanFree h) false f).

(** A process that can take calls. *)
Definition running f : Prop := ffi_inv f ∧ f_runtime f ≠ RtGone.

Lemma step_task_runtime i f f' : step_task i f = Some f' → f_runtime f' = f_runtime f.
Proof.
  intros [(t & p & _ & _ & _ & E & _)|(t & r & _ & _ & ->)]%step_task_moves; [done|].
  unfold finish. by destruct (calls_back _ _).
Qed.

Lemma task_step_running f f' : task_step f f' → running f → running f'.
Proof.
  intros [_ [i Hs]] [Hf Hr]. split; [by eapply step_task_inv|]. by rewrite (step_task_runtime _ _ _ Hs).
Qed.

Lemma task_steps_closing f f' : rtc task_step f f' → rtc closing_step f f'.
Proof. intros Hs. eapply rtc_subrel; [|exact Hs]. intros x y Hxy. by left. Qed.

(** Tasks that only make steps come to rest. *)
Lemma run_to_rest n : ∀ f, (work f ≤ n)%nat → running f →
  ∃ f', rtc task_step f f' ∧ running f' ∧ (aborted f' = true ∨ at_rest f').
Proof.
  induction n as [|n IH]; intros f Hw Hf.
  all: destruct (aborted f) eqn:Ha; [exists f; split_and!; [done|done|by left]|].
  all: destruct (step_or_rest f (proj1 Hf) Ha) as [[f1 Hs]|Hr]; [|exists f; split_and!; [done|done|by right]].
  all: pose proof Hs as [_ [i Hw1%step_work]].
  - lia.
  - destruct (IH f1) as (f' & Hr & H'); [lia|by eapply task_step_running|]. exists f'. split; [by eapply rtc_l|done].
Qed.

(** With nothing open, every task comes to its end. *)
Definition ending (p : Phase) : bool := match p with PDone _ | PAborted | PCloseWait _ | PResolve _ => true | _ => false end.

Lemma ending_step f f' : Forall (λ t : Task, ending (t_phase t) = true) (f_tasks f) → task_step f f' →
  Forall (λ t : Task, ending (t_phase t) = true) (f_tasks f') ∧ f_sessions f' = f_sessions f ∧ f_scans f' = f_scans f.
Proof.
  intros He [_ [i Hs]]. unfold step_task in Hs. destruct (f_tasks f !! i) as [[c cb p]|] eqn:Hi; [|done].
  pose proof (Forall_lookup_1 _ _ _ _ He Hi) as Hp. cbn [mbind option_bind t_phase t_call] in *.
  destruct p as [| | | | | | |s| | | | | | |r| |]; try done.
  - destruct (connected s f); [done|]. injection Hs as <-. unfold continue, in_world.
    destruct (fs_close s (f_world f)) as [g r]. assert (ending panicked = true) as Hq by (unfold panicked; by destruct panic_aborts).
    destruct r; (split; [by apply Forall_insert|done]).
  - injection Hs as <-. unfold finish. cbn [t_cb]. destruct (calls_back cb r); (split; [apply Forall_insert|]; try done).
    cbn. destruct cb; [by destruct panic_aborts|done].
Qed.

Lemma run_to_end n : ∀ f, (work f ≤ n)%nat → running f → rm_map (f_sessions f) = ∅ → rm_map (f_scans f) = ∅ →
  Forall (λ t : Task, ending (t_phase t) = true) (f_tasks f) →
  ∃ f', rtc task_step f f' ∧ (aborted f' = true ∨ Forall (λ t : Task, is_done t = true) (f_tasks f')).
Proof.
  induction n as [|n IH]; intros f Hw Hf Hse Hsc He.
  all: destruct (step_or_held f (proj1 Hf)) as [Ha|[[f1 Hs]|Hh]]; [exists f; split; [done|by left]| |].
  2,4: exists f; split; [done|right]; eapply Forall_impl; [exact Hh|]; intros t [Hd|(s & _ & Ho)]; [done|];
    destruct Ho as [(h & st & c & v & Hm & _)|(h & st & c & v & Hm & _)];
    [by rewrite Hse, lookup_empty in Hm|by rewrite Hsc, lookup_empty in Hm].
  all: pose proof Hs as [_ [i Hw1%step_work]].
  - lia.
  - destruct (ending_step f f1 He Hs) as (He1 & E1 & E2).
    destruct (IH f1) as (f' & Hr & H'); [lia|by eapply task_step_running|by rewrite E1|by rewrite E2|done|].
    exists f'. split; [by eapply rtc_l|done].
Qed.

Lemma aborted_snoc l (t : Task) f : aborted f = false → f_tasks f = l → t_phase t ≠ PAborted →
  aborted (set_tasks (l ++ [t]) f) = false.
Proof.
  intros Ha <- Ht. unfold aborted in *. cbn [f_tasks set_tasks]. rewrite List.existsb_app, Ha. cbn. by destruct (t_phase t).
Qed.

(** A call that closes something, from its beginning to its end. *)
Lemma closing_call c cb f f1 : running f → at_rest f → aborted f = false →
  let i := length (f_tasks f) in
  let t := mkTask c cb PStart in
  step_start i t (spawn c cb f) = Some (resolve_with i t VUnit f1) → f_tasks f1 = f_tasks (spawn c cb f) →
  f_runtime f1 = RtRunning →
  ∃ f', rtc task_step (spawn c cb f) f' ∧ running f' ∧ at_rest f' ∧ aborted f' = false
    ∧ f_sessions f' = f_sessions f1 ∧ f_scans f' = f_scans f1 ∧ f_tasks f' = f_tasks f ++ [mkTask c cb (PDone (Ok VUnit))].
Proof.
  intros [Hf Hrt] Hrest Ha i t Hs Et Er.
  assert (f_tasks (spawn c cb f) = f_tasks f ++ [t]) as E0 by (unfold spawn; by destruct (f_runtime f)).
  assert (aborted (spawn c cb f) = false) as Ha0.
  { unfold spawn. pose proof (aborted_snoc _ t _ Ha eq_refl). destruct (f_runtime f); [by apply H1|by apply H1|done]. }
  assert (f_tasks (spawn c cb f) !! i = Some t) as Hi by (rewrite E0; by rewrite lookup_app_r, Nat.sub_diag by lia).
  set (f2 := resolve_with i t VUnit f1) in *.
  assert (step_task i (spawn c cb f) = Some f2) as Hs1 by (unfold step_task; by rewrite Hi).
  set (t2 := mkTask c cb (PResolve (Ok VUnit)) : Task).
  assert (f_tasks f2 = f_tasks f ++ [t2]) as E2.
  { cbn. rewrite Et, E0. rewrite insert_app_r_alt by lia. by rewrite Nat.sub_diag. }
  assert (aborted f2 = false) as Ha2 by (unfold aborted; rewrite E2; by apply (aborted_snoc _ t2 _ Ha)).
  assert (f_tasks f2 !! i = Some t2) as Hi2 by (rewrite E2; by rewrite lookup_app_r, Nat.sub_diag by lia).
  set (f3 := finish i t2 (Ok VUnit) f2).
  assert (step_task i f2 = Some f3) as Hs2 by (unfold step_task; by rewrite Hi2).
  assert (f_tasks f3 = f_tasks f ++ [mkTask c cb (PDone (Ok VUnit))]) as E3.
  { unfold f3, finish. destruct cb; cbn -[f2]; rewrite E2, insert_app_r_alt by lia; by rewrite Nat.sub_diag. }
  assert (f_sessions f3 = f_sessions f1 ∧ f_scans f3 = f_scans f1) as [E4 E5] by (unfold f3, finish; by destruct cb).
  assert (running (spawn c cb f)) as Hr0.
  { split; [by apply spawn_inv|]. unfold spawn. by destruct (f_runtime f). }
  assert (task_step (spawn c cb f) f2) as T1 by (split; [done|by exists i]).
  assert (task_step f2 f3) as T2 by (split; [done|by exists i]).
  exists f3. split_and!; try done.
  - eapply rtc_l; [exact T1|]. eapply rtc_l; [exact T2|apply rtc_refl].
  - by apply (task_step_running _ _ T2), (task_step_running _ _ T1).
  - unfold at_rest. rewrite E3. apply Forall_app. by split; [|constructor].
  - unfold aborted. rewrite E3. by apply (aborted_snoc _ (mkTask c cb (PDone (Ok VUnit))) _ Ha).
Qed.

Lemma rest_ending f : at_rest f → Forall (λ t : Task, ending (t_phase t) = true) (f_tasks f).
Proof. intros Hr. eapply Forall_impl; [exact Hr|]. intros t Ht. cbn in *. by destruct (t_phase t). Qed.

Lemma remove_free {V} (m : ResMap V) us h st c : rm_inv m us → Forall (λ u, u = UNone) us → rm_map m !! h = Some (st, c) →
  ∃ v m', rm_remove h m = (m', Some (Ok v)) ∧ rm_map m' = delete h (rm_map m).
Proof.
  intros Hm Hu Hh. pose proof (rm_inv_resources m us Hm) as (_ & Hc & _). destruct (Hc h st c Hh) as [x Ex].
  destruct (rest_cell m us c x Hm Hu Ex) as [_ E]. pose proof (remove_map h m) as Er. unfold rm_remove, rm_discard in *.
  rewrite Hh in *. unfold rm_unref in *. cbn [rm_cells set_rm_map] in *. rewrite Ex, E in *. cbn in *. by eexists _, _.
Qed.

(** The caller closes every session and every scan. *)
Lemma close_sessions n : ∀ f, size (rm_map (f_sessions f)) = n → running f → at_rest f → aborted f = false →
  ∃ f' l, rtc closing_step f f' ∧ running f' ∧ at_rest f' ∧ aborted f' = false ∧ rm_map (f_sessions f') = ∅
    ∧ f_tasks f' = f_tasks f ++ l.
Proof.
  induction n as [|n IH]; intros f Hn Hf Hr Ha.
  - apply map_size_empty_inv in Hn. exists f, []. split_and!; try done. by rewrite app_nil_r.
  - assert (size (rm_map (f_sessions f)) ≠ 0%nat) as (h & [st c] & Hh)%map_size_ne_0_lookup by lia.
    pose proof Hf as [(H1 & _) _]. destruct (remove_free _ _ h st c H1 (rest_unused false f Hr) Hh) as (v & m & Em & Emap).
    destruct (rest_readers f (proj1 Hf) Hr) as [Hrd _].
    destruct (closing_call (CSessionClose h false) true f
      (drop_session (Some v) (set_sessions m (spawn (CSessionClose h false) true f)))) as (f1 & Hs & Hf1 & Hr1 & Ha1 & E1 & _ & E3);
      try done.
    { unfold step_start. cbn [t_call]. assert (f_sessions (spawn (CSessionClose h false) true f) = f_sessions f) as ->
        by (unfold spawn; by destruct (f_runtime f)). by rewrite Hrd, Em. }
    { destruct Hf as [_ Hrt]. unfold spawn. by destruct (f_runtime f). }
    destruct (IH f1) as (f' & l & Hs' & H'); try done.
    { rewrite E1. cbn. rewrite Emap, map_size_delete, Hh. lia. }
    destruct H' as (? & ? & ? & ? & El). eexists f', _. split_and!; try done; [|by rewrite El, E3, <- app_assoc].
    eapply rtc_l; [right; split; [done|exists h; by left]|]. etrans; [by apply task_steps_closing|exact Hs'].
Qed.

Lemma close_scans n : ∀ f, size (rm_map (f_scans f)) = n → running f → at_rest f → aborted f = false →
  rm_map (f_sessions f) = ∅ →
  ∃ f' l, rtc closing_step f f' ∧ running f' ∧ at_rest f' ∧ rm_map (f_sessions f') = ∅ ∧ rm_map (f_scans f') = ∅
    ∧ f_tasks f' = f_tasks f ++ l.
Proof.
  induction n as [|n IH]; intros f Hn Hf Hr Ha He.
  - apply map_size_empty_inv in Hn. exists f, []. split_and!; try done. by rewrite app_nil_r.
  - assert (size (rm_map (f_scans f)) ≠ 0%nat) as (h & [st c] & Hh)%map_size_ne_0_lookup by lia.
    pose proof Hf as [(_ & H2 & _) _]. destruct (remove_free _ _ h st c H2 (rest_unused true f Hr) Hh) as (v & m & Em & Emap).
    destruct (rest_readers f (proj1 Hf) Hr) as [_ Hrd].
    destruct (closing_call (CScanFree h) false f
      (drop_scan (Some v) (set_scans m (spawn (CScanFree h) false f)))) as (f1 & Hs & Hf1 & Hr1 & Ha1 & E1 & E2 & E3);
      try done.
    { unfold step_start. cbn [t_call]. assert (f_scans (spawn (CScanFree h) false f) = f_scans f) as ->
        by (unfold spawn; by destruct (f_runtime f)). by rewrite Hrd, Em. }
    { destruct Hf as [_ Hrt]. unfold spawn. by destruct (f_runtime f). }
    destruct (IH f1) as (f' & l & Hs' & H'); try done.
    { rewrite E2. cbn. rewrite Emap, map_size_delete, Hh. lia. }
    { rewrite E1. cbn. assert (f_sessions (spawn (CScanFree h) false f) = f_sessions f) as ->
        by (unfold spawn; by destruct (f_runtime f)). done. }
    destruct H' as (? & ? & ? & ? & El). eexists f', _. split_and!; try done; [|by rewrite El, E3, <- app_assoc].
    eapply rtc_l; [right; split; [done|exists h; by right]|]. etrans; [by apply task_steps_closing|exact Hs'].
Qed.

(** Every call that was made can be brought to its end by closing what is open. *)
Lemma all_can_end f : running f →
  ∃ f', rtc closing_step f f' ∧ (aborted f' = true ∨ Forall (λ t : Task, is_done t = true) (f_tasks f')).
Proof.
  intros Hf. destruct (run_to_rest _ f (le_n _) Hf) as (f1 & S1 & Hf1 & [Ha|Hr1]).
  { exists f1. split; [by apply task_steps_closing|by left]. }
  destruct (aborted f1) eqn:Ha1; [exists f1; split; [by apply task_steps_closing|by left]|].
  destruct (close_sessions _ f1 eq_refl Hf1 Hr1 Ha1) as (f2 & l2 & S2 & Hf2 & Hr2 & Ha2 & E2 & _).
  destruct (close_scans _ f2 eq_refl Hf2 Hr2 Ha2 E2) as (f3 & l3 & S3 & Hf3 & Hr3 & E3 & E3' & _).
  destruct (run_to_end _ f3 (le_n _) Hf3 E3 E3' (rest_ending f3 Hr3)) as (f4 & S4 & H4).
  exists f4. split; [|done]. apply task_steps_closing in S1, S4.
  etrans; [exact S1|]. etrans; [exact S2|]. by etrans.
Qed.


(** ** Callbacks *)

(** The callbacks a task has made. *)
Definition calls_of (i : nat) (calls : list (nat * CbArgs)) : list CbArgs :=
  (List.filter (λ c, (c.1 =? i)%nat) calls).*2.

(** The callbacks it should have made. *)
Definition due (t : Task) : list CbArgs :=
  match t_phase t with
  | PDone r => if calls_back (t_cb t) r then [callback_args r] else []
  | _ => []
  end.

(** A task is not past a panic that ends the process, in the callback's closure neither. *)
Definition task_ok (t : Task) : Prop :=
  build_ok (t_phase t)
  ∧ match t_phase t with PDone r => panic_aborts = true → calls_back (t_cb t) r = t_cb t | _ => True end.

(** The callbacks made are those that are due. *)
Definition callbacks_ok f : Prop :=
  (∀ i, calls_of i (f_calls f) = match f_tasks f !! i with Some t => due t | None => [] end)
  ∧ Forall task_ok (f_tasks f).

Lemma calls_of_snoc i j a calls :
  calls_of i (calls ++ [(j, a)]) = calls_of i calls ++ (if (j =? i)%nat then [a] else []).
Proof. unfold calls_of. rewrite List.filter_app, fmap_app. cbn. by destruct (j =? i)%nat. Qed.

Lemma due_none (t : Task) : is_done t = false → due t = [].
Proof. unfold due, is_done. by destruct (t_phase t). Qed.

Lemma finish_callbacks i t r f : callbacks_ok f → f_tasks f !! i = Some t → is_done t = false →
  callbacks_ok (finish i t r f).
Proof.
  intros [Hc Hb] Hi Hd. destruct (finish_end i t r f) as (p & Et & _ & Hp & Hcases).
  split; [|rewrite Et; apply Forall_insert; [done|split; [done|]]].
  2: { destruct Hcases as [(_ & -> & Eb)|(_ & Eb & [[-> Ea]| ->])]; cbn; [|intros Hp'|done].
       - intros _. rewrite Eb. by destruct (t_cb t).
       - rewrite Eb. rewrite Hp', andb_true_r in Ea. by rewrite Ea. }
  intros j. specialize (Hc j). rewrite Et.
  destruct (decide (i = j)) as [<-|Hne].
  - rewrite list_lookup_insert_eq by (by eapply lookup_lt_Some). rewrite Hi, due_none in Hc by done. unfold due. cbn [t_phase t_cb].
    destruct Hcases as [(Ec & -> & Eb)|(Ec & Eb & [[-> _]| ->])]; rewrite Ec, ?calls_of_snoc, Hc, ?Nat.eqb_refl, ?Eb; done.
  - rewrite list_lookup_insert_ne by done. rewrite <- Hc.
    destruct Hcases as [(-> & _)|(-> & _)]; [|done]. by rewrite calls_of_snoc, (proj2 (Nat.eqb_neq _ _)), app_nil_r.
Qed.

Lemma moves_callbacks i f f' : callbacks_ok f → moves i f f' → callbacks_ok f'.
Proof.
  intros [Hc Hb] (t & p & Hi & Et & Ec & _ & Hp & Hr & Hbp). split.
  - intros j. specialize (Hc j). rewrite Et, Ec, Hc. destruct (decide (i = j)) as [<-|Hne]; [|by rewrite list_lookup_insert_ne].
    rewrite Hi, list_lookup_insert_eq by (by eapply lookup_lt_Some). rewrite !due_none; [done|by destruct p|].
    unfold is_done. by destruct (t_phase t); cbn in Hr; try lia.
  - rewrite Et. apply Forall_insert; [done|]. split; [|by destruct p]. apply Hbp, (Forall_lookup_1 _ _ _ _ Hb Hi).
Qed.

Lemma release_same t f : same_tasks (release t f) f.
Proof.
  unfold release. destruct (t_phase t); try done.
  - destruct (on_scans (t_call t)); [destruct (rm_unwait _ (f_scans f)) as [m gone]|destruct (rm_unwait _ (f_sessions f)) as [m gone]];
      by destruct gone.
  - destruct (on_scans (t_call t)).
    + destruct (rm_cells (f_scans f) !! _) as [c|]; [|done]. destruct (rm_unlock _ _ _) as [m gone]; by destruct gone.
    + destruct (rm_cells (f_sessions f) !! _) as [c|]; [|done]. destruct (rm_unlock _ _ _) as [m gone]; by destruct gone.
Qed.

Lemma ffi_step_callbacks f f' : callbacks_ok f → ffi_step f f' → callbacks_ok f'.
Proof.
  intros Hc Hs. destruct Hs as [c cb f _|i f f' _ Hs|f _|i f f' _ _ Hs].
  - assert (callbacks_ok (set_tasks (f_tasks f ++ [mkTask c cb PStart]) f)) as Hc'.
    { destruct Hc as [Hc Hb]. split; [|apply Forall_app; by split; [|constructor]]. intros j. specialize (Hc j). cbn [f_calls f_tasks set_tasks]. rewrite Hc.
      destruct (f_tasks f !! j) as [t|] eqn:Ej; [by rewrite (lookup_app_l_Some _ _ _ _ Ej)|].
      apply lookup_ge_None in Ej. rewrite lookup_app_r by done.
      by destruct (j - length (f_tasks f))%nat as [|[|k]]. }
    unfold spawn. destruct (f_runtime f); [done|done|]. apply finish_callbacks; [done| |done].
    cbn [f_tasks set_tasks]. by rewrite lookup_app_r, Nat.sub_diag by lia.
  - apply step_task_moves in Hs as [Hm|(t & r & Hi & Hp & ->)]; [by eapply moves_callbacks|].
    apply finish_callbacks; [done|done|]. unfold is_done. by rewrite Hp.
  - unfold shut_down. by destruct (f_runtime f).
  - unfold cancel_task in Hs. destruct (f_tasks f !! i) as [t|] eqn:Hi; [|done]. cbn [mbind option_bind] in Hs.
    destruct (release_same t f) as (Et & Ec & _).
    assert (is_done t = false ∧ f' = finish i t Panic (release t f)) as [Hd ->].
    { unfold is_done. destruct (t_phase t); try done; by injection Hs as <-. }
    apply finish_callbacks; [|by rewrite Et|done]. unfold callbacks_ok. by rewrite Et, Ec.
Qed.

Lemma reachable_callbacks (g : G) f : rtc ffi_step (ffi_initial g) f → callbacks_ok f.
Proof.
  intros Hr. assert (callbacks_ok (ffi_initial g)) as H1 by (split; [intros j|]; done).
  induction Hr as [|f1 f2 f3 Hs _ IH]; [done|]. apply IH. by eapply ffi_step_callbacks.
Qed.

(** C19: A call that became a task makes its callback exactly once, when it is done, with
    the outcome of the call, or with the error [Unexpected] when it was dropped at
    shutdown; before that it makes none.  A panic of a task is told through its callback
    as well in builds in which panics unwind; there, a result that is a text no C string
    can hold leaves the callback unmade.  In builds in which panics abort, as the release
    builds do, a panic ends the process: nothing happens after it and no callback is
    made; in such a build a task that is done and has a callback made it. *)
Theorem ffi_callback_once (g : G) f i t : rtc ffi_step (ffi_initial g) f → f_tasks f !! i = Some t →
  calls_of i (f_calls f)
  = match t_phase t with
    | PDone r => if t_cb t && match r with Ok (VString s) => is_ok (@c_string AskarError.Error s) | _ => true end
                 then [callback_args r] else []
    | _ => []
    end
  ∧ (panic_aborts = false → aborted f = false)
  ∧ (panic_aborts = true →
      t_phase t ≠ PResolve Panic
      ∧ (∀ r, t_phase t = PDone r → t_cb t = true → calls_of i (f_calls f) = [callback_args r])
      ∧ (aborted f = true → ∀ f', ¬ ffi_step f f')).
Proof.
  intros Hr Hi. destruct (reachable_callbacks g f Hr) as [Hc Hb]. specialize (Hc i). rewrite Hi in Hc.
  pose proof (Forall_lookup_1 _ _ _ _ Hb Hi) as [Ht Hd]. split_and!.
  - rewrite Hc. unfold due, calls_back, convertible. by destruct (t_phase t) as [| | | | | | | | | | | | | | |[v|e|]|].
  - intros Hp. apply not_true_is_false. intros (u & Hu & Ha)%existsb_exists.
    apply list_elem_of_In, list_elem_of_lookup in Hu as [j Hj]. pose proof (Forall_lookup_1 _ _ _ _ Hb Hj) as [Hu _].
    destruct (t_phase u); try done. cbn in Hu. congruence.
  - intros Hp. split_and!.
    + intros E. rewrite E in Ht. cbn in Ht. congruence.
    + intros r E Hcb. rewrite Hc. unfold due. rewrite E in *. by rewrite (Hd Hp), Hcb.
    + intros Ha f' Hs. destruct Hs; congruence.
Qed.

(** ** Closing *)

Lemma tasks_lookup_insert f i t t' : f_tasks f !! i = Some t → <[i := t']> (f_tasks f) !! i = Some t'.
Proof. intros Hi. apply list_lookup_insert_eq. by eapply lookup_lt_Some. Qed.

Lemma rm_unlock_last {V} c v (m : ResMap V) x : rm_cells m !! c = Some x → c_refs x = 1%nat →
  rm_unlock c v m = (set_rm_cells (delete c (rm_cells m)) m, Some v).
Proof.
  intros Hc Hr. unfold rm_unlock, rm_unref. rewrite Hc. cbn [rm_cells set_rm_cells].
  rewrite lookup_insert_eq. cbn [c_refs c_value]. rewrite Hr. cbn [Nat.eqb]. unfold set_rm_cells. cbn. by rewrite delete_insert_eq.
Qed.

(** Closing a session while one of its operations runs: the close fails with [Busy], yet
    the handle is gone, and when the operation has ended, its own callback told of
    success or not, the session is dropped: a transaction is rolled back even if the
    close asked for a commit, and there is no handle left to commit it with. *)
Theorem session_close_busy (g : G) f i j h st x h0 op commit cb cb' :
  rtc ffi_step (ffi_initial g) f →
  f_tasks f !! i = Some (mkTask (CSessionClose h commit) cb PStart) →
  f_tasks f !! j = Some (mkTask (CSession h0 op) cb' (PHold x)) →
  rm_map (f_sessions f) !! h = Some (st, x) → rm_readers (f_sessions f) = 0%nat →
  ∃ c f1 f2, rm_cells (f_sessions f) !! x = Some c ∧ step_task i f = Some f1 ∧ step_task j f1 = Some f2
  ∧ f_tasks f1 !! i = Some (mkTask (CSessionClose h commit) cb (PResolve (Err busy_error)))
  ∧ rm_map (f_sessions f1) !! h = None
  ∧ rm_cells (f_sessions f2) !! x = None
  ∧ let '((g', v), r) := fs_session_op op (f_world f, c_value c) in
    f_tasks f2 !! j = Some (mkTask (CSession h0 op) cb' (settled r)) ∧ f_world f2 = fs_drop_session v g'.
Proof.
  intros Hr Hi Hj Hm Hrd. apply reachable_inv in Hr as (H1 & _ & _).
  pose proof (use_lookup false _ _ _ (UHold x) Hj eq_refl) as Hu.
  destruct (hold_cell _ _ _ _ H1 Hu) as [c Ec]. destruct H1 as [Hn Hs]. destruct (Hs x) as [Hle Hx].
  rewrite Ec in Hx. destruct Hx as (Hrefs & _ & Hk & _). pose proof (handles_of_pos _ _ _ _ Hm) as Hp.
  assert (tally (is_use (UWait x)) (use_of false <$> f_tasks f) = 0%nat) as Hw.
  { apply Nat.le_0_r, Nat.nlt_ge. intros Hp'.
    destruct (tally_pos (is_use (UWait x)) (use_of false <$> f_tasks f)) as (y & u & Hy & Ey); [exact Hp'|].
    apply bool_decide_eq_true in Ey. subst u. pose proof (tally_lookup is_wait _ _ _ Hy eq_refl). lia. }
  pose proof (tally_lookup (is_use (UHold x)) _ _ _ Hu (is_use_eq _)) as Hh.
  assert (c_refs c = 2%nat) as H2 by (unfold in_map in *; destruct (c_locked c); lia).
  assert (i ≠ j) as Hij by (intros ->; congruence).
  set (m1 := set_rm_cells (<[x := mkCell (c_value c) (c_locked c) 1]> (rm_cells (f_sessions f)))
    (set_rm_map (delete h (rm_map (f_sessions f))) (f_sessions f))).
  set (f1 := set_phase i (mkTask (CSessionClose h commit) cb PStart) (PResolve (Err busy_error)) (set_sessions m1 f)).
  assert (step_task i f = Some f1) as E1.
  { unfold step_task. rewrite Hi. cbn [mbind option_bind t_phase]. unfold step_start. cbn [t_call].
    rewrite Hrd. cbn [Nat.eqb]. unfold rm_remove, rm_discard. rewrite Hm. unfold rm_unref. cbn [set_rm_map rm_cells]. by rewrite Ec, H2. }
  assert (f_tasks f1 !! j = Some (mkTask (CSession h0 op) cb' (PHold x))) as Hj1
    by (cbn; by rewrite list_lookup_insert_ne).
  destruct (fs_session_op op (f_world f, c_value c)) as [[g' v] r] eqn:Eo.
  eexists c, f1, _. rewrite Eo. split_and!; [done|done| | | | | |].
  - unfold step_task. rewrite Hj1. cbn [mbind option_bind t_phase]. unfold step_hold. cbn [t_call].
    assert (rm_cells (f_sessions f1) !! x = Some (mkCell (c_value c) (c_locked c) 1)) as Ec1 by (cbn; apply lookup_insert_eq).
    rewrite Ec1. cbn [c_value]. change (f_world f1) with (f_world f). rewrite Eo.
    rewrite (rm_unlock_last _ _ _ _ Ec1) by done. reflexivity.
  - apply (tasks_lookup_insert (set_sessions m1 f) i _ _ Hi).
  - cbn. apply lookup_delete_eq.
  - cbn. apply lookup_delete_eq.
  - apply (tasks_lookup_insert f1 j _ _ Hj1).
  - done.
Qed.

(** Closing a store takes the handles of its sessions away, and of no others. *)
Lemma store_close_sessions f i h cb s : f_tasks f !! i = Some (mkTask (CClose h) cb (PCloseSessions s)) →
  rm_readers (f_sessions f) = 0%nat →
  ∃ f', step_task i f = Some f' ∧ rm_map (f_sessions f') = filter (λ kv, kv.2.1 ≠ h) (rm_map (f_sessions f)).
Proof.
  intros Hi Hr. unfold step_task. rewrite Hi. cbn [mbind option_bind t_phase t_call call_handle]. rewrite Hr. cbn [Nat.eqb].
  pose proof (remove_all_map h (f_sessions f)) as Hm. destruct (remove_all h (f_sessions f)) as [m vs].
  eexists. split; [done|]. exact Hm.
Qed.
End Laws.

(** ** Concrete runs *)

Section Actions.
Context `{Build} {K G St Se Sc : Type} `{FfiSystem K G St Se Sc}.
Abbreviation Ffi := (Ffi (K := K) (G := G) (St := St) (Se := Se) (Sc := Sc)).

Inductive Action : Type :=
| ASpawn (c : Call K) (cb : bool)
| AStep (i : nat)
| AShutDown
| ACancel (i : nat).

Definition act (a : Action) (f : Ffi) : option Ffi :=
  if aborted f then None else
  match a with
  | ASpawn c cb => Some (spawn c cb f)
  | AStep i => step_task i f
  | AShutDown => Some (shut_down f)
  | ACancel i => match f_runtime f with RtGone => cancel_task i f | _ => None end
  end.

Fixpoint acts (l : list Action) (f : Ffi) : option Ffi :=
  match l with [] => Some f | a :: l => f ← act a f; acts l f end.

Lemma acts_reach l : ∀ f f', acts l f = Some f' → rtc ffi_step f f'.
Proof.
  induction l as [|a l IH]; intros f f' Ha; cbn [acts] in Ha; [by injection Ha as ->|].
  apply bind_Some in Ha as (f1 & Ea & Ha). eapply rtc_l; [|by apply IH].
  unfold act in Ea. destruct (aborted f) eqn:Hl; [done|]. destruct a as [c cb|i| |i].
  - injection Ea as <-. by apply StepSpawn.
  - by eapply StepTask.
  - injection Ea as <-. by apply StepShutDown.
  - destruct (f_runtime f) eqn:Er; [done|done|]. by eapply StepCancel.
Qed.
End Actions.

(** A system of counters: a session counts its operations, a commit adds them to the
    total below; there is one store, its sessions have connections, and its
    profile has a name that no C string can hold. *)
Definition counters : FfiSystem () Z () Z () := {|
  fs_provision _ _ _ _ _ := mret ();
  fs_open _ _ _ _ := mret ();
  fs_remove _ := mret false;
  fs_migrate _ _ _ _ := mret ();
  fs_store_op op _ := mret (match op with StGetProfileName => VString (String "000" "") | _ => VUnit end);
  fs_rekey _ _ _ _ := mret ();
  fs_copy _ _ _ _ _ := mret ();
  fs_begin_close _ g := g;
  fs_close _ := mret ();
  fs_holds _ _ _ := true;
  fs_scan_holds _ _ _ := false;
  fs_scan _ _ := mret ();
  fs_fetch_next := mret None;
  fs_session _ _ _ := mret 0%Z;
  fs_session_op _ := λ '(g, v), ((g, v + 1)%Z, Ok (VInt (v + 1)));
  fs_commit v := λ g, ((g + v)%Z, Ok ());
  fs_drop_session _ g := g;
  fs_drop_scan _ g := g;
  fs_same_store _ _ := true;
|}.

Definition run_counters {B : Build} (l : list (Action (K := ()))) :=
  acts (H0 := counters) l (ffi_initial 0%Z).

(** A store is opened, a session started, an operation is running on it, a second waits
    for it, and the session is to be closed with a commit. *)
Definition busy_actions : list (Action (K := ())) :=
  [ASpawn (COpen "" None (StoreKey.mkPassKey None) None) true; AStep 0; AStep 0; AStep 0;
   ASpawn (CSessionStart 1 None true) true; AStep 1; AStep 1; AStep 1; AStep 1;
   ASpawn (CSession 1 (SeCount None None)) true; AStep 2; AStep 2;
   ASpawn (CSessionClose 1 true) true].

(** The same with another operation that waits, then everything in turn. *)
Definition full_actions : list (Action (K := ())) :=
  take 12 busy_actions ++ [ASpawn (CSession 1 (SeFetchKey "k" true)) true; AStep 3; ASpawn (CSessionClose 1 true) true;
    AStep 2; AStep 3; AStep 2; AStep 3; AStep 3; AStep 4; AStep 4; AStep 4].

(** The store is closed while a session is being started: the session is registered after
    the sessions of the store were removed, and the close waits for it. *)
Definition waiting_actions : list (Action (K := ())) :=
  [ASpawn (COpen "" None (StoreKey.mkPassKey None) None) true; AStep 0; AStep 0; AStep 0;
   ASpawn (CSessionStart 1 None true) true; AStep 1;
   ASpawn (CClose 1) true; AStep 2; AStep 2; AStep 2; AStep 2;
   AStep 1; AStep 1; AStep 1].

#[local] Existing Instances release_build counters.

Definition busy_state := default (ffi_initial 0%Z) (run_counters busy_actions).
Definition full_state := default (ffi_initial 0%Z) (run_counters full_actions).
Definition waiting_state := default (ffi_initial 0%Z) (run_counters waiting_actions).

Lemma busy_reachable : rtc (ffi_step (H0 := counters)) (ffi_initial 0%Z) busy_state.
Proof. apply (acts_reach (H0 := counters) busy_actions). vm_compute. reflexivity. Qed.
Lemma full_reachable : rtc (ffi_step (H0 := counters)) (ffi_initial 0%Z) full_state.
Proof. apply (acts_reach (H0 := counters) full_actions). vm_compute. reflexivity. Qed.
Lemma waiting_reachable : rtc (ffi_step (H0 := counters)) (ffi_initial 0%Z) waiting_state.
Proof. apply (acts_reach (H0 := counters) waiting_actions). vm_compute. reflexivity. Qed.

Lemma ffi_resources_safe_witness :
  c_refs <$> rm_cells (f_sessions busy_state) !! 0%nat = Some 2%nat
  ∧ resources_ok (f_sessions busy_state) (use_of false <$> f_tasks busy_state)
  ∧ opened KSession busy_state = 1%nat ∧ handles_ok KSession busy_state.
Proof.
  destruct (ffi_resources_safe (H0 := counters) 0%Z busy_state busy_reachable) as (H1 & _ & H3).
  split_and!; [vm_compute; reflexivity|exact H1|vm_compute; reflexivity|]. apply H3. vm_compute. reflexivity.
Defined.


Lemma ffi_callback_once_witness :
  calls_of 3 (f_calls full_state) = [mkCbArgs ErrorCode.Success (Some (VInt 2))]
  ∧ calls_of 2 (f_calls busy_state) = [].
Proof.
  pose proof (ffi_callback_once (H0 := counters) 0%Z full_state 3 (mkTask (CSession 1 (SeFetchKey "k" true)) true
    (PDone (Ok (VInt 2)))) full_reachable) as E1.
  pose proof (ffi_callback_once (H0 := counters) 0%Z busy_state 2 (mkTask (CSession 1 (SeCount None None)) true (PHold 0))
    busy_reachable) as E2.
  split; [apply E1|apply E2]; vm_compute; reflexivity.
Defined.

Lemma session_close_busy_witness : ∃ f1 f2,
  step_task (H0 := counters) 3 busy_state = Some f1 ∧ step_task (H0 := counters) 2 f1 = Some f2
  ∧ rm_map (f_sessions f1) !! 1%nat = None ∧ rm_cells (f_sessions f2) !! 0%nat = None ∧ f_world f2 = 0%Z.
Proof.
  destruct (session_close_busy (H0 := counters) 0%Z busy_state 3 2 1 1 0 1 (SeCount None None) true true true busy_reachable)
    as (c & f1 & f2 & Ec & E1 & E2 & _ & Hm & Hc & Hw).
  - vm_compute. reflexivity.
  - vm_compute. reflexivity.
  - vm_compute. reflexivity.
  - vm_compute. reflexivity.
  - exists f1, f2. split_and!; [exact E1|exact E2|exact Hm|exact Hc|].
    vm_compute in Ec. injection Ec as <-. exact (proj2 Hw).
Defined.

(** A session that is started while its store is being closed is registered all the same,
    and the close does not end before that session is closed. *)
Example session_outlives_store :
  f_stores waiting_state !! 1%nat = None ∧ rm_map (f_sessions waiting_state) !! 1%nat = Some (1%nat, 0%nat)
  ∧ calls_of 1 (f_calls waiting_state) = [mkCbArgs ErrorCode.Success (Some (VSession 1))]
  ∧ calls_of 2 (f_calls waiting_state) = []
  ∧ ∃ f, run_counters (waiting_actions ++ [ASpawn (CSessionClose 1 false) true; AStep 3; AStep 3; AStep 2; AStep 2]) = Some f
      ∧ calls_of 2 (f_calls f) = [mkCbArgs ErrorCode.Success (Some VUnit)].
Proof. vm_compute. split_and!; [done..|]. by eexists. Qed.

(** While one operation waits for a session that another is using, no session of any
    store can be started or closed. *)
Example waiting_blocks_others :
  let f := default (ffi_initial 0%Z) (run_counters
    (take 12 busy_actions ++ [ASpawn (CSession 1 (SeFetchKey "k" true)) true; AStep 3;
      ASpawn (COpen "" None (StoreKey.mkPassKey None) None) true; AStep 4; AStep 4; AStep 4;
      ASpawn (CSessionStart 2 None false) true; AStep 5; AStep 5])) in
  step_task (H0 := counters) 3 f = None ∧ step_task (H0 := counters) 5 f = None
  ∧ is_Some (step_task (H0 := counters) 2 f).
Proof. vm_compute. split_and!; [done|done|by eexists]. Qed.

(** A runtime that was not started cannot be shut down: a call after that starts it. *)
Example shut_down_first :
  let f := default (ffi_initial 0%Z) (run_counters
    [AShutDown; ASpawn (COpen "" None (StoreKey.mkPassKey None) None) true; AStep 0; AStep 0; AStep 0]) in
  f_runtime f = RtRunning ∧ calls_of 0 (f_calls f) = [mkCbArgs ErrorCode.Success (Some (VStore 1))].
Proof. vm_compute. done. Qed.

(** After the last handle the counter starts again: in a release build the null handle is
    given out and then the first one once more, otherwise the call panics. *)
Example handles_wrap :
  next_handle (H := release_build) (E := ()) 18446744073709551615 = (0%N, Ok 0%nat)
  ∧ next_handle (H := release_build) (E := ()) 0 = (1%N, Ok 1%nat)
  ∧ next_handle (H := debug_build) (E := ()) 18446744073709551615 = (0%N, Panic).
Proof. vm_compute. done. Qed.

(** A callback whose closure panics: a release build ends there, and no call is taken any
    more; in a build that unwinds the task is done without the callback. *)
Definition panic_actions : list (Action (K := ())) :=
  [ASpawn (COpen "" None (StoreKey.mkPassKey None) None) true; AStep 0; AStep 0; AStep 0;
   ASpawn (CStore 1 StGetProfileName) true; AStep 1; AStep 1; AStep 1].

Example panic_ends_process :
  (∃ f, run_counters (B := release_build) panic_actions = Some f ∧ aborted f = true ∧ calls_of 1 (f_calls f) = []
    ∧ run_counters (B := release_build) (panic_actions ++ [ASpawn (CClose 1) true]) = None)
  ∧ (∃ f, run_counters (B := debug_build) panic_actions = Some f ∧ aborted f = false ∧ calls_of 1 (f_calls f) = []
    ∧ is_Some (run_counters (B := debug_build) (panic_actions ++ [ASpawn (CClose 1) true; AStep 2]))).
Proof. split; eexists; (split; [vm_compute; reflexivity|]); vm_compute; split_and!; try done; by eexists. Qed.
