(* ===== verification/FfiStore.v ===== *)
(** * Stores and sessions through the foreign function interface

    Models the exported functions of src/ffi/store.rs: how they read their arguments,
    what they refuse at once and which call they hand to the runtime; the stores and
    sessions of the API as the system below them; and what a caller that waits for
    every callback observes. *)

From S2P Require Import Prelude Errors Wql TagSql DbQuery TagSqlSem SqlEval Buffers Utf8 Entry Aead.
From S2P Require Import Protect Options StoreKey DbUtils Session SqliteDb Sqlite Store Backend SqliteBackend Lifecycle Copying.
From S2P Require Import Random KeyAlg Kdf Jwk JwkAttrs JwkToy Repr EdKeys BlsKeys AnyKey AnyKeyLaws LocalKey KeyEntry StoreApi.
From S2P Require Import FfiTags FfiHandles FfiPool FfiPoolInv FfiPoolLaws.
Local Open Scope string_scope.
Local Open Scope list_scope.

(** ** Arguments *)

(** [FfiStr]: the bytes before the terminating zero, or the null pointer. *)
Abbreviation FfiStr := (option bytes).

(** The crate [ffi_support]. *)
Class FfiSupport := {
  as_opt_str : FfiStr → option string;
  into_opt_string : FfiStr → option string;
  as_opt_str_null : as_opt_str None = None;
  into_opt_string_null : into_opt_string None = None;
  as_opt_str_valid b : utf8_valid b = true → as_opt_str (Some b) = Some (string_of_bytes b);
  into_opt_string_valid b : utf8_valid b = true → into_opt_string (Some b) = Some (string_of_bytes b);
}.

Section Arguments.
Context `{FfiSupport} `{UriCodec} `{SerdeTags}.
(** The parser of JSON, for tag filters. *)
Context (json_parse : string → res string JsonValue).

(** [cb.ok_or_else(|| err_msg!("No callback provided"))?]. *)
Definition need_callback (cb : bool) : ares () :=
  if cb then Ok () else Err (input_error "No callback provided").

(** [s.into_opt_string().ok_or_else(|| err_msg!(msg))?]. *)
Definition need_string (msg : string) (s : FfiStr) : ares string := ok_or (into_opt_string s) (input_error msg).

(** [StoreKeyMethod::parse_uri(method)?], if there is one. *)
Definition opt_method (s : FfiStr) : ares (option StoreKeyMethod) :=
  match as_opt_str s with Some m => Some <$> api_sres (method_parse_uri m) | None => Ok None end.
Definition some_method (s : FfiStr) : ares StoreKeyMethod := default method_default <$> opt_method s.

Definition pass_key_arg (s : FfiStr) : PassKey := mkPassKey (as_opt_str s).

(** [tag_filter.as_opt_str().map(TagFilter::from_str).transpose()?]. *)
Definition filter_arg (s : FfiStr) : ares (option TagFilter) :=
  match as_opt_str s with Some q => Some <$> api_sres (filter_from_str json_parse q) | None => Ok None end.

Definition tags_arg (s : FfiStr) : ares (option (list EntryTag)) :=
  match as_opt_str s with Some t => Some <$> tags_from_json t | None => Ok None end.

(** A negative number stands for none. *)
Definition opt_int (n : Z) : option Z := if (n <? 0)%Z then None else Some n.

Definition lower_byte (c : byte) : byte :=
  if (65 <=? byte_val c)%N && (byte_val c <=? 90)%N then byte_of (byte_val c + 32) else c.

(** The only order is "id", in either case; the outer [None] is [Unsupported]. *)
Definition order_by_arg (s : FfiStr) : option (option OrderBy) :=
  match as_opt_str s with
  | Some o => if bool_decide (List.map lower_byte (as_bytes o) = as_bytes "id") then Some (Some OrderBy.Id) else None
  | None => Some None
  end.

Definition operation_arg (operation : Z) : ares EntryOperation :=
  if (operation =? 0)%Z then Ok EntryOperation.Insert else
  if (operation =? 1)%Z then Ok EntryOperation.Replace else
  if (operation =? 2)%Z then Ok EntryOperation.Remove else
  Err (input_error "Invalid update operation").
End Arguments.

(** ** The exported functions *)

Section Functions.
Context `{HF : FfiSupport} `{HU : UriCodec} `{HT : SerdeTags} `{HCr : Crypto}.
Context `{HBu : Build} {G St Se Sc : Type} `{HS : FfiSystem LocalKey G St Se Sc}.
Context (json_parse : string → res string JsonValue).
Abbreviation Ffi := (Ffi (K := LocalKey) (G := G) (St := St) (Se := Se) (Sc := Sc)).
Implicit Types f : Ffi.

(** The body of a function inside [catch_err!]: the call it hands to the runtime, or an
    error that is set as the last one and returned.  (A panic while the arguments are read
    is such an error where panics unwind; where they abort the function does not return.) *)
Definition ffi_call (cb : bool) (body : ares (Call LocalKey)) f : Ffi * ErrorCode :=
  match body with
  | Ok c => (spawn c cb f, ErrorCode.Success)
  | Err e => let '(last, code) := catch_err (Err e) (f_last f) in (set_outcome last (f_calls f) f, code)
  | Panic => let '(last, code) := catch_err Panic (f_last f) in (set_outcome last (f_calls f) f, code)
  end.

Definition askar_store_provision (spec_uri key_method pass_key profile : FfiStr) (recreate : Z) (cb : bool) f :=
  ffi_call cb (
    _ ← need_callback cb;
    spec_uri ← need_string "No provision spec URI provided" spec_uri;
    key_method ← some_method key_method;
    mret (CProvision spec_uri key_method (pass_key_arg pass_key) (into_opt_string profile) (negb (recreate =? 0)%Z))) f.

Definition askar_store_open (spec_uri key_method pass_key profile : FfiStr) (cb : bool) f :=
  ffi_call cb (
    _ ← need_callback cb;
    spec_uri ← need_string "No store URI provided" spec_uri;
    key_method ← opt_method key_method;
    mret (COpen spec_uri key_method (pass_key_arg pass_key) (into_opt_string profile))) f.

Definition askar_store_remove (spec_uri : FfiStr) (cb : bool) f :=
  ffi_call cb (
    _ ← need_callback cb;
    spec_uri ← need_string "No store URI provided" spec_uri;
    mret (CRemove spec_uri)) f.

(** [askar_migrate_indy_sdk] of src/ffi/migration.rs. *)
Definition askar_migrate_indy_sdk (spec_uri wallet_name wallet_key kdf_level : FfiStr) (cb : bool) f :=
  ffi_call cb (
    _ ← need_callback cb;
    spec_uri ← need_string "No provision spec URI provided" spec_uri;
    wallet_name ← need_string "No wallet name provided" wallet_name;
    wallet_key ← need_string "No wallet key provided" wallet_key;
    kdf_level ← need_string "No KDF level provided" kdf_level;
    mret (CMigrate spec_uri wallet_name wallet_key kdf_level)) f.

Definition askar_store_create_profile (handle : nat) (profile : FfiStr) (cb : bool) f :=
  ffi_call cb (_ ← need_callback cb; mret (CStore handle (StCreateProfile (into_opt_string profile)))) f.

Definition askar_store_get_profile_name (handle : nat) (cb : bool) f :=
  ffi_call cb (_ ← need_callback cb; mret (CStore handle StGetProfileName)) f.

Definition askar_store_list_profiles (handle : nat) (cb : bool) f :=
  ffi_call cb (_ ← need_callback cb; mret (CStore handle StListProfiles)) f.

Definition askar_store_remove_profile (handle : nat) (profile : FfiStr) (cb : bool) f :=
  ffi_call cb (
    _ ← need_callback cb;
    profile ← need_string "Profile name not provided" profile;
    mret (CStore handle (StRemoveProfile profile))) f.

Definition askar_store_get_default_profile (handle : nat) (cb : bool) f :=
  ffi_call cb (_ ← need_callback cb; mret (CStore handle StGetDefaultProfile)) f.

Definition askar_store_set_default_profile (handle : nat) (profile : FfiStr) (cb : bool) f :=
  ffi_call cb (
    _ ← need_callback cb;
    profile ← need_string "Profile name not provided" profile;
    mret (CStore handle (StSetDefaultProfile profile))) f.

Definition askar_store_rekey (handle : nat) (key_method pass_key : FfiStr) (cb : bool) f :=
  ffi_call cb (
    _ ← need_callback cb;
    key_method ← some_method key_method;
    mret (CRekey handle key_method (pass_key_arg pass_key))) f.

Definition askar_store_copy (handle : nat) (target_uri key_method pass_key : FfiStr) (recreate : Z) (cb : bool) f :=
  ffi_call cb (
    _ ← need_callback cb;
    target_uri ← need_string "No target URI provided" target_uri;
    key_method ← some_method key_method;
    mret (CCopy handle target_uri key_method (pass_key_arg pass_key) (negb (recreate =? 0)%Z))) f.

(** The callback is optional. *)
Definition askar_store_close (handle : nat) (cb : bool) f := ffi_call cb (mret (CClose handle)) f.

Definition askar_scan_start (handle : nat) (profile category tag_filter : FfiStr) (offset limit : Z)
    (order_by : FfiStr) (descending : Z) (cb : bool) f : Ffi * ErrorCode :=
  match order_by_arg order_by with
  | None => (f, ErrorCode.Unsupported)
  | Some order_by =>
      ffi_call cb (
        _ ← need_callback cb;
        tag_filter ← filter_arg json_parse tag_filter;
        mret (CScanStart handle (mkScanArgs (into_opt_string profile) (into_opt_string category) tag_filter
          (Some offset) (opt_int limit) order_by (negb (descending =? 0)%Z)))) f
  end.

Definition askar_scan_next (handle : nat) (cb : bool) f :=
  ffi_call cb (_ ← need_callback cb; mret (CScanNext handle)) f.

(** There is no callback. *)
Definition askar_scan_free (handle : nat) f := ffi_call false (mret (CScanFree handle)) f.

Definition askar_session_start (handle : nat) (profile : FfiStr) (as_transaction : Z) (cb : bool) f :=
  ffi_call cb (
    _ ← need_callback cb;
    mret (CSessionStart handle (into_opt_string profile) (negb (as_transaction =? 0)%Z))) f.

Definition askar_session_count (handle : nat) (category tag_filter : FfiStr) (cb : bool) f :=
  ffi_call cb (
    _ ← need_callback cb;
    tag_filter ← filter_arg json_parse tag_filter;
    mret (CSession handle (SeCount (into_opt_string category) tag_filter))) f.

Definition askar_session_fetch (handle : nat) (category name : FfiStr) (for_update : Z) (cb : bool) f :=
  ffi_call cb (
    _ ← need_callback cb;
    category ← need_string "Category not provided" category;
    name ← need_string "Name not provided" name;
    mret (CSession handle (SeFetch category name (negb (for_update =? 0)%Z)))) f.

Definition askar_session_fetch_all (handle : nat) (category tag_filter : FfiStr) (limit : Z) (order_by : FfiStr)
    (descending for_update : Z) (cb : bool) f : Ffi * ErrorCode :=
  match order_by_arg order_by with
  | None => (f, ErrorCode.Unsupported)
  | Some order_by =>
      ffi_call cb (
        _ ← need_callback cb;
        tag_filter ← filter_arg json_parse tag_filter;
        mret (CSession handle (SeFetchAll (into_opt_string category) tag_filter (opt_int limit) order_by
          (negb (descending =? 0)%Z) (negb (for_update =? 0)%Z)))) f
  end.

Definition askar_session_remove_all (handle : nat) (category tag_filter : FfiStr) (cb : bool) f :=
  ffi_call cb (
    _ ← need_callback cb;
    tag_filter ← filter_arg json_parse tag_filter;
    mret (CSession handle (SeRemoveAll (into_opt_string category) tag_filter))) f.

Definition askar_session_update (handle : nat) (operation : Z) (category name : FfiStr) (value : bytes)
    (tags : FfiStr) (expiry_ms : Z) (cb : bool) f :=
  ffi_call cb (
    _ ← need_callback cb;
    operation ← operation_arg operation;
    category ← need_string "Entry category not provided" category;
    name ← need_string "Entry name not provided" name;
    tags ← tags_arg tags;
    mret (CSession handle (SeUpdate operation category name (Some value) tags (opt_int expiry_ms)))) f.

(** The task has a reference to the key, which does not change; here it has a copy.  The
    handle is looked at once there is a callback. *)
Definition askar_session_insert_key (handle : nat) (key_handle : N) (name metadata tags : FfiStr) (expiry_ms : Z)
    (cb : bool) (keys : ArcHeap LocalKey) f : option (Ffi * ErrorCode) :=
  '(_, key) ← (if cb then with_arc key_handle Ok keys else Some (keys, Panic));
  Some (ffi_call cb (
    _ ← need_callback cb;
    key ← key;
    name ← need_string "No key name provided" name;
    tags ← tags_arg tags;
    let reference := if is_hardware_backed key then Some KeyReference.MobileSecureElement else None in
    mret (CSession handle (SeInsertKey name key (into_opt_string metadata) reference tags (opt_int expiry_ms)))) f).

Definition askar_session_fetch_key (handle : nat) (name : FfiStr) (for_update : Z) (cb : bool) f :=
  ffi_call cb (
    _ ← need_callback cb;
    name ← need_string "No key name provided" name;
    mret (CSession handle (SeFetchKey name (negb (for_update =? 0)%Z)))) f.

Definition askar_session_fetch_all_keys (handle : nat) (alg thumbprint tag_filter : FfiStr) (limit for_update : Z)
    (cb : bool) f :=
  ffi_call cb (
    _ ← need_callback cb;
    tag_filter ← filter_arg json_parse tag_filter;
    mret (CSession handle (SeFetchAllKeys (into_opt_string alg) (into_opt_string thumbprint) tag_filter
      (opt_int limit) (negb (for_update =? 0)%Z)))) f.

Definition askar_session_update_key (handle : nat) (name metadata tags : FfiStr) (expiry_ms : Z) (cb : bool) f :=
  ffi_call cb (
    _ ← need_callback cb;
    name ← need_string "No key name provided" name;
    tags ← tags_arg tags;
    mret (CSession handle (SeUpdateKey name (into_opt_string metadata) tags (opt_int expiry_ms)))) f.

Definition askar_session_remove_key (handle : nat) (name : FfiStr) (cb : bool) f :=
  ffi_call cb (
    _ ← need_callback cb;
    name ← need_string "No key name provided" name;
    mret (CSession handle (SeRemoveKey name))) f.

(** The callback is optional. *)
Definition askar_session_close (handle : nat) (commit : Z) (cb : bool) f :=
  ffi_call cb (mret (CSessionClose handle (negb (commit =? 0)%Z))) f.
End Functions.

(** The seed is optional; the pointer for the key is written to unchecked. *)
Definition askar_store_generate_raw_key `{Allocator} `{AeadCipher} `{StoreCodecs} (rng : nat → bytes) (seed : bytes) (out : bool)
    : option (ErrorCode * string) :=
  let seed := match seed with [] => None | s => Some s end in
  if out then Some (ErrorCode.Success, pass_str (generate_raw_store_key rng seed)) else None.

(** ** The API as the system below *)

(** [ManageBackend]: provisioning, opening and removing by URI, in some environment. *)
Class ManageBackend (E B : Type) := {
  mb_open_backend : string → option StoreKeyMethod → PassKey → option string → stm E StorageError.Error B;
  mb_provision_backend : string → StoreKeyMethod → PassKey → option string → bool → stm E StorageError.Error B;
  mb_remove_backend : string → stm E StorageError.Error bool;
}.

(** [IndySdkToAriesAskarMigration]: [connect] and [migrate] (Migration.v). *)
Class MigrateWallet (E : Type) := {
  mw_migrate : string → string → string → string → stm E StorageError.Error ();
}.

Section ApiSystem.
Context `{HCr : Crypto} `{HAl : Allocator} `{HB64 : Base64} `{HDg : Digest} `{HP : ParamsCodec}.
Context {E B W : Type} `{HBe : Backend B W} `{HM : ManageBackend E B} `{HMi : MigrateWallet E}.

(** The environment and the stores that were opened, each known by a number.  A session
    has what it did to its store until it goes: two sessions of one store at a time are
    the database's business. *)
Record StoreWorld := mkStoreWorld { sw_env : E; sw_stores : gmap nat B; sw_next : nat }.

Definition in_env {X} (m : stm E StorageError.Error X) : stm StoreWorld AskarError.Error X := λ g,
  let '(e, r) := m (sw_env g) in (mkStoreWorld e (sw_stores g) (sw_next g), api_sres r).

(** [Store::new]. *)
Definition add_store (b : B) : stm StoreWorld AskarError.Error nat := λ g,
  (mkStoreWorld (sw_env g) (<[sw_next g := b]> (sw_stores g)) (S (sw_next g)), Ok (sw_next g)).

Definition on_store {X} (s : nat) (m : stm B AskarError.Error X) : stm StoreWorld AskarError.Error X := λ g,
  match sw_stores g !! s with
  | Some b => let '(b, r) := m b in (mkStoreWorld (sw_env g) (<[s := b]> (sw_stores g)) (sw_next g), r)
  | None => (g, Panic)
  end.

(** [Store::provision], [Store::open], [Store::remove]. *)
Definition store_provision (db_url : string) (key_method : StoreKeyMethod) (pass_key : PassKey) (profile : option string)
    (recreate : bool) : stm StoreWorld AskarError.Error nat :=
  backend ← in_env (mb_provision_backend db_url key_method pass_key profile recreate); add_store backend.
Definition store_open (db_url : string) (key_method : option StoreKeyMethod) (pass_key : PassKey) (profile : option string)
    : stm StoreWorld AskarError.Error nat :=
  backend ← in_env (mb_open_backend db_url key_method pass_key profile); add_store backend.
Definition store_remove (db_url : string) : stm StoreWorld AskarError.Error bool := in_env (mb_remove_backend db_url).

Definition store_call (op : StoreOp) : stm B AskarError.Error FfiValue :=
  match op with
  | StCreateProfile profile => name ← Api.create_profile profile; mret (VString name)
  | StGetProfileName => b ← sget; mret (VString (Api.get_active_profile b))
  | StListProfiles => rows ← Api.list_profiles; mret (VStrings rows)
  | StRemoveProfile profile => removed ← Api.remove_profile profile; mret (VBool removed)
  | StGetDefaultProfile => name ← Api.get_default_profile; mret (VString name)
  | StSetDefaultProfile profile => _ ← Api.set_default_profile profile; mret VUnit
  end.

Definition session_call (op : SessionOp LocalKey) : stm W AskarError.Error FfiValue :=
  match op with
  | SeCount category tag_filter => n ← Api.count category tag_filter; mret (VInt n)
  | SeFetch category name for_update => e ← Api.fetch category name for_update; mret (VEntry e)
  | SeFetchAll category tag_filter limit order_by descending for_update =>
      l ← Api.fetch_all category tag_filter limit order_by descending for_update; mret (VEntries l)
  | SeRemoveAll category tag_filter => n ← Api.remove_all category tag_filter; mret (VInt n)
  | SeUpdate operation category name value tags expiry_ms =>
      _ ← Api.update operation category name value tags expiry_ms; mret VUnit
  | SeInsertKey name key metadata reference tags expiry_ms =>
      _ ← Api.insert_key name key metadata reference tags expiry_ms; mret VUnit
  | SeFetchKey name for_update => e ← Api.fetch_key name for_update; mret (VKeyEntry e)
  | SeFetchAllKeys alg thumbprint tag_filter limit for_update =>
      l ← Api.fetch_all_keys alg thumbprint tag_filter limit for_update; mret (VKeyEntries l)
  | SeUpdateKey name metadata tags expiry_ms => _ ← Api.update_key name metadata tags expiry_ms; mret VUnit
  | SeRemoveKey name => _ ← Api.remove_key name; mret VUnit
  end.

(** Rekeying wants the only reference, as the erased backend checks. *)
Definition store_rekey (s : nat) (sole : bool) (method : StoreKeyMethod) (pass_key : PassKey) : stm StoreWorld AskarError.Error () :=
  if sole then on_store s (Api.rekey method pass_key)
  else sfail (input_error "Cannot re-key a store with multiple references").

(** [Store::copy_to], the target provisioned in the environment. *)
Definition store_copy (s : nat) (target_url : string) (key_method : StoreKeyMethod) (pass_key : PassKey) (recreate : bool)
    : stm StoreWorld AskarError.Error nat := λ g,
  match sw_stores g !! s with
  | None => (g, Panic)
  | Some b =>
      match (default_profile ← Api.get_default_profile; ids ← Api.list_profiles; mret (default_profile, ids)) b with
      | (b, Ok (default_profile, ids)) =>
          let g := mkStoreWorld (sw_env g) (<[s := b]> (sw_stores g)) (sw_next g) in
          match in_env (mb_provision_backend target_url key_method pass_key (Some default_profile) recreate) g with
          | (g, Ok target) =>
              let '((b, target), r) := copy_profiles ids (b, target) in
              let g := mkStoreWorld (sw_env g) (<[s := b]> (sw_stores g)) (sw_next g) in
              match api_sres r with
              | Ok _ => add_store target g
              | Err e => (g, Err e)
              | Panic => (g, Panic)
              end
          | (g, Err e) => (g, Err e)
          | (g, Panic) => (g, Panic)
          end
      | (b, Err e) => (mkStoreWorld (sw_env g) (<[s := b]> (sw_stores g)) (sw_next g), Err e)
      | (b, Panic) => (mkStoreWorld (sw_env g) (<[s := b]> (sw_stores g)) (sw_next g), Panic)
      end
  end.

(** A session that goes away gives its store what it did. *)
Definition session_gone (v : nat * W) (g : StoreWorld) : StoreWorld :=
  match sw_stores g !! v.1 with
  | Some b => mkStoreWorld (sw_env g) (<[v.1 := be_drop_session v.2 b]> (sw_stores g)) (sw_next g)
  | None => g
  end.

(** A session that is used finds the pool of its store open or closed. *)
Definition session_now (s : nat) (g : StoreWorld) (w : W) : W :=
  match sw_stores g !! s with Some b => be_visit b w | None => w end.

(** What [close] does at once, before it waits for connections. *)
Definition store_begin_close (s : nat) (g : StoreWorld) : StoreWorld :=
  match sw_stores g !! s with
  | Some b => mkStoreWorld (sw_env g) (<[s := be_begin_close b]> (sw_stores g)) (sw_next g)
  | None => g
  end.

(** A scan has a session of its store, and with it a connection if the backend is one of
    sqlx, until its stream is at its end. *)
Definition scan_holds (s : nat) (v : nat * Scan Entry) (g : StoreWorld) : bool :=
  (v.1 =? s)%nat && match sw_stores g !! s with Some b => be_scans_hold b | None => false end
  && match scan_stream v.2 with Some _ => true | None => false end.

#[export] Instance api_system : FfiSystem LocalKey StoreWorld nat (nat * W) (nat * Scan Entry) := {|
  fs_provision := store_provision;
  fs_open := store_open;
  fs_remove := store_remove;
  fs_migrate spec_uri wallet_name wallet_key kdf_level := in_env (mw_migrate spec_uri wallet_name wallet_key kdf_level);
  fs_store_op op s := on_store s (store_call op);
  fs_rekey := store_rekey;
  fs_copy := store_copy;
  fs_begin_close := store_begin_close;
  fs_close s := on_store s Api.close;
  fs_holds s v g := (v.1 =? s)%nat && be_holds v.2;
  fs_scan_holds := scan_holds;
  fs_scan s args :=
    scan ← on_store s (Api.scan (sa_profile args) (sa_category args) (sa_tag_filter args) (sa_offset args)
      (sa_limit args) (sa_order_by args) (sa_descending args));
    mret (s, scan);
  fs_fetch_next := λ '(g, (s, scan)), let '(scan, r) := fetch_next scan in ((g, (s, scan)), api_sres r);
  fs_session s profile as_transaction :=
    w ← on_store s (if as_transaction then Api.transaction profile else Api.session profile); mret (s, w);
  fs_session_op op := λ '(g, (s, w)), let '(w, r) := session_call op (session_now s g w) in ((g, (s, w)), r);
  fs_commit v := λ g, let '(w, r) := Api.commit v.2 in (session_gone (v.1, w) g, r);
  fs_drop_session := session_gone;
  fs_drop_scan scan g := g;
  fs_same_store := Nat.eqb;
|}.
End ApiSystem.

(** ** A caller that waits *)

Section Waiting.
Context `{Build} {K G St Se Sc : Type} `{FfiSystem K G St Se Sc}.
Abbreviation Ffi := (Ffi (K := K) (G := G) (St := St) (Se := Se) (Sc := Sc)).
Implicit Types f : Ffi.

(** The task [i] runs alone, [n] steps. *)
Fixpoint run_task (n i : nat) f : option Ffi :=
  match n with O => Some f | S n => f' ← step_task i f; run_task n i f' end.

(** A task that has just been moved. *)
Lemma set_phase_lookup i t p f : (i < length (f_tasks f))%nat →
  f_tasks (set_phase i t p f) !! i = Some (mkTask (t_call t) (t_cb t) p).
Proof. intros Hi. cbn. by apply list_lookup_insert_eq. Qed.

Lemma set_phase_length i t p f : length (f_tasks (set_phase i t p f)) = length (f_tasks f).
Proof. cbn. apply length_insert. Qed.

(** A cell that is locked, changed and unlocked keeps its references. *)
Lemma unlock_keeps {V} c v (m : ResMap V) x : rm_cells m !! c = Some x → (2 ≤ c_refs x)%nat →
  rm_unlock c v m = (set_rm_cells (<[c := mkCell v false (pred (c_refs x))]> (rm_cells m)) m, None).
Proof.
  intros Hc Hr. unfold rm_unlock, rm_unref. rewrite Hc. cbn [rm_cells set_rm_cells].
  rewrite lookup_insert_eq. cbn [c_refs c_value c_locked]. rewrite (proj2 (Nat.eqb_neq _ _)) by lia.
  unfold set_rm_cells. cbn. by rewrite insert_insert_eq.
Qed.

(** A call on a session that nobody else uses: four steps after it was made the callback
    has the result and the session is as the operation left it. *)
Lemma session_call_runs f h op st c x g v r :
  f_runtime f ≠ RtGone → rm_map (f_sessions f) !! h = Some (st, c) → rm_cells (f_sessions f) !! c = Some x →
  c_locked x = false → c_refs x = 1%nat → fs_session_op op (f_world f, c_value x) = ((g, v), r) → r ≠ Panic →
  ∃ f', run_task 4 (length (f_tasks f)) (spawn (CSession h op) true f) = Some f'
    ∧ f_world f' = g ∧ f_runtime f' = RtRunning ∧ rm_map (f_sessions f') = rm_map (f_sessions f)
    ∧ rm_cells (f_sessions f') !! c = Some (mkCell v false 1)
    ∧ f_calls f' = f_calls f ++ (if calls_back true r then [(length (f_tasks f), callback_args r)] else []).
Proof.
  intros Hrt Hm Hc Hl Hr Ho Hp. set (i := length (f_tasks f)). set (t := @mkTask K St Se Sc (CSession h op) true PStart).
  set (f0 := set_runtime RtRunning (set_tasks (f_tasks f ++ [t]) f)).
  assert (spawn (CSession h op) true f = f0) as -> by (unfold spawn; by destruct (f_runtime f)).
  assert (f_tasks f0 !! i = Some t) as H1 by (cbn; by rewrite lookup_app_r, Nat.sub_diag by lia).
  assert (Hi : (i < length (f_tasks f0))%nat) by (by eapply lookup_lt_Some).
  set (m1 := set_rm_readers (S (rm_readers (f_sessions f)))
    (set_rm_cells (<[c := mkCell (c_value x) (c_locked x) (S (c_refs x))]> (rm_cells (f_sessions f))) (f_sessions f))).
  set (f1 := set_phase i t (PWait c) (set_sessions m1 f0)).
  assert (step_task i f0 = Some f1) as E1.
  { unfold step_task. rewrite H1. cbn [mbind option_bind t_phase t step_start t_call]. unfold rm_borrow.
    change (f_sessions f0) with (f_sessions f). rewrite Hm. cbn [mbind option_bind]. by rewrite Hc. }
  set (m2 := set_rm_readers (rm_readers (f_sessions f)) (set_rm_cells (<[c := mkCell (c_value x) true (S (c_refs x))]> (rm_cells m1)) m1)).
  set (t1 := @mkTask K St Se Sc (CSession h op) true (PWait c)).
  set (f2 := set_phase i t1 (PHold c) (set_sessions m2 f1)).
  assert (step_task i f1 = Some f2) as E2.
  { assert (f_tasks f1 !! i = Some t1) as Hl1 by (by apply set_phase_lookup). unfold step_task. rewrite Hl1.
    cbn [t1 mbind option_bind t_phase t_call t t_cb on_scans]. unfold rm_lock. change (f_sessions f1) with m1.
    assert (rm_cells m1 !! c = Some (mkCell (c_value x) false (S (c_refs x)))) as Ec1
      by (cbn; rewrite Hl; apply lookup_insert_eq).
    by rewrite Ec1. }
  set (t2 := @mkTask K St Se Sc (CSession h op) true (PHold c)).
  set (m3 := set_rm_cells (<[c := mkCell v false (c_refs x)]> (rm_cells m2)) m2).
  set (f3 := set_phase i t2 (PResolve r) (set_sessions m3 (set_world g f2))).
  assert (length (f_tasks f1) = length (f_tasks f0)) as L1 by exact (set_phase_length i t (PWait c) (set_sessions m1 f0)).
  assert (step_task i f2 = Some f3) as E3.
  { assert (f_tasks f2 !! i = Some t2) as Hl2.
    { apply (set_phase_lookup i t1 (PHold c) (set_sessions m2 f1)). change (i < length (f_tasks f1))%nat. by rewrite L1. }
    unfold step_task. rewrite Hl2. cbn [t2 mbind option_bind t_phase t_call t1 t_cb]. unfold step_hold. cbn [t_call]. change (f_sessions f2) with m2.
    assert (rm_cells m2 !! c = Some (mkCell (c_value x) true (S (c_refs x)))) as Ec by (cbn; apply lookup_insert_eq).
    rewrite Ec. cbn [t2 t_call c_value]. change (f_world f2) with (f_world f). rewrite Ho.
    rewrite (unlock_keeps _ _ _ _ Ec) by (cbn; lia). assert (settled r = PResolve r) as -> by (by destruct r). done. }
  set (t3 := @mkTask K St Se Sc (CSession h op) true (PResolve r)).
  assert (length (f_tasks f2) = length (f_tasks f0)) as L2.
  { rewrite <- L1. exact (set_phase_length i t1 (PHold c) (set_sessions m2 f1)). }
  assert (step_task i f3 = Some (finish i t3 r f3)) as E4.
  { assert (f_tasks f3 !! i = Some t3) as Hl3.
    { apply (set_phase_lookup i t2 (PResolve r) (set_sessions m3 (set_world g f2))).
      change (i < length (f_tasks f2))%nat. by rewrite L2. }
    unfold step_task. by rewrite Hl3. }
  exists (finish i t3 r f3). split_and!.
  - change (run_task 4 i f0 = Some (finish i t3 r f3)). cbn [run_task]. rewrite E1. cbn [mbind option_bind]. rewrite E2. cbn [mbind option_bind]. rewrite E3.
    cbn [mbind option_bind]. by rewrite E4.
  - unfold finish. by destruct (calls_back _ _).
  - unfold finish. by destruct (calls_back _ _).
  - unfold finish. by destruct (calls_back _ _).
  - assert (f_sessions (finish i t3 r f3) = m3) as -> by (unfold finish; by destruct (calls_back _ _)).
    cbn [m3 rm_cells set_rm_cells]. rewrite lookup_insert_eq. by rewrite Hr.
  - unfold finish. cbn [t3 t_cb]. destruct (calls_back true r); cbn; [done|by rewrite app_nil_r].
Qed.
End Waiting.

(** ** Requests on a session *)

(** The functions on the items of a session with their arguments. *)
Inductive Request : Type :=
| RqUpdate (operation : Z) (category name : FfiStr) (value : bytes) (tags : FfiStr) (expiry_ms : Z)
| RqFetch (category name : FfiStr) (for_update : Z)
| RqCount (category tag_filter : FfiStr)
| RqRemoveAll (category tag_filter : FfiStr).

Section Requests.
Context `{HF : FfiSupport} `{HU : UriCodec} `{HT : SerdeTags}.
Context (json_parse : string → res string JsonValue).

(** The operation a request stands for, or why it is refused. *)
Definition request_op (rq : Request) : ares Op :=
  match rq with
  | RqUpdate operation category name value tags expiry_ms =>
      operation ← operation_arg operation;
      category ← need_string "Entry category not provided" category;
      name ← need_string "Entry name not provided" name;
      tags ← tags_arg tags;
      mret (OpUpdate operation EntryKind.Item category name (Some value) tags (opt_int expiry_ms))
  | RqFetch category name for_update =>
      category ← need_string "Category not provided" category;
      name ← need_string "Name not provided" name;
      mret (OpFetch EntryKind.Item category name (negb (for_update =? 0)%Z))
  | RqCount category tag_filter =>
      tag_filter ← filter_arg json_parse tag_filter;
      mret (OpCount (Some EntryKind.Item) (into_opt_string category) tag_filter)
  | RqRemoveAll category tag_filter =>
      tag_filter ← filter_arg json_parse tag_filter;
      mret (OpRemoveAll (Some EntryKind.Item) (into_opt_string category) tag_filter)
  end.

Context `{HCr : Crypto} `{HAl : Allocator} `{HB64 : Base64} `{HDg : Digest} `{HP : ParamsCodec}.
Context `{HBu : Build} {E B W : Type} `{HBe : Backend B W} `{HM : ManageBackend E B} `{HMi : MigrateWallet E} `{HC : !SessionContract W}.
Abbreviation G := (StoreWorld (E := E) (B := B)).
Abbreviation Ffi := (Ffi (K := LocalKey) (G := G) (St := nat) (Se := nat * W) (Sc := nat * Scan Entry)).
Implicit Types f : Ffi.

Definition issue (handle : nat) (rq : Request) f : Ffi * ErrorCode :=
  match rq with
  | RqUpdate operation category name value tags expiry_ms =>
      askar_session_update handle operation category name value tags expiry_ms true f
  | RqFetch category name for_update => askar_session_fetch handle category name for_update true f
  | RqCount category tag_filter => askar_session_count json_parse handle category tag_filter true f
  | RqRemoveAll category tag_filter => askar_session_remove_all json_parse handle category tag_filter true f
  end.

(** A request and the wait for its callback: what the function returned, and the
    callbacks it led to. *)
Definition run_request (handle : nat) (rq : Request) f : option (Ffi * (ErrorCode * list CbArgs)) :=
  let '(f1, code) := issue handle rq f in
  f2 ← (if decide (code = ErrorCode.Success) then run_task 4 (length (f_tasks f)) f1 else Some f1);
  Some (f2, (code, (drop (length (f_calls f)) (f_calls f2)).*2)).

Fixpoint run_requests (handle : nat) (rqs : list Request) f : option (Ffi * list (ErrorCode * list CbArgs)) :=
  match rqs with
  | [] => Some (f, [])
  | rq :: rqs =>
      '(f1, out) ← run_request handle rq f;
      '(f2, rest) ← run_requests handle rqs f1;
      Some (f2, out :: rest)
  end.

Definition result_value (r : Result) : FfiValue :=
  match r with RUnit => VUnit | REntry e => VEntry e | RCount n => VInt n end.

(** The same on the abstract store. *)
Definition a_request (rq : Request) (s : AStore) : AStore * (ErrorCode * list CbArgs) :=
  match request_op rq with
  | Ok op => let '(s1, r) := a_step (ct_like (W := W)) (ct_env (W := W)) op s in
             (s1, (ErrorCode.Success, [callback_args (result_value <$> api_sres r)]))
  | Err e => (s, (ErrorCode.from_kind (AskarError.kind e), []))
  | Panic => (s, (ErrorCode.Unexpected, []))
  end.

Fixpoint a_requests (rqs : list Request) (s : AStore) : AStore * list (ErrorCode * list CbArgs) :=
  match rqs with
  | [] => (s, [])
  | rq :: rqs =>
      let '(s1, out) := a_request rq s in
      let '(s2, rest) := a_requests rqs s1 in
      (s2, out :: rest)
  end.

(** The operation that is asked for is one the session can store, and reading the arguments
    does not end the process. *)
Definition request_ok (rq : Request) (s : AStore) : Prop :=
  match request_op rq with Ok op => ct_op_ok (W := W) op s | Err _ => True | Panic => panic_aborts = false end.

Fixpoint requests_ok (rqs : list Request) (s : AStore) : Prop :=
  match rqs with [] => True | rq :: rqs => request_ok rq s ∧ requests_ok rqs (a_request rq s).1 end.

Definition op_call (op : Op) : SessionOp LocalKey :=
  match op with
  | OpUpdate operation _ category name value tags expiry_ms => SeUpdate operation category name value tags expiry_ms
  | OpFetch _ category name for_update => SeFetch category name for_update
  | OpCount _ category tag_filter => SeCount category tag_filter
  | OpRemoveAll _ category tag_filter => SeRemoveAll category tag_filter
  end.

Definition on_items (op : Op) : Prop :=
  match op with
  | OpUpdate _ kind _ _ _ _ _ | OpFetch kind _ _ _ => kind = EntryKind.Item
  | OpCount kind _ _ | OpRemoveAll kind _ _ => kind = Some EntryKind.Item
  end.

Lemma issue_call handle rq f : issue handle rq f = ffi_call true (op ← request_op rq; mret (CSession handle (op_call op))) f.
Proof.
  destruct rq; cbn [issue request_op];
    unfold askar_session_update, askar_session_fetch, askar_session_count, askar_session_remove_all; cbn [need_callback];
    run_bind; f_equal.
  - destruct (operation_arg operation); [|done|done]. run_bind. destruct (need_string _ category); [|done|done]. run_bind.
    destruct (need_string _ name); [|done|done]. run_bind. by destruct (tags_arg tags).
  - destruct (need_string _ category); [|done|done]. run_bind. by destruct (need_string _ name).
  - by destruct (filter_arg json_parse tag_filter).
  - by destruct (filter_arg json_parse tag_filter).
Qed.

Lemma request_items rq op : request_op rq = Ok op → on_items op.
Proof. destruct rq; cbn [request_op]; intros Hr; repeat bind_inv Hr; by injection Hr as <-. Qed.

(** An operation on items is that of the session below. *)
Lemma session_call_items op (w : W) : on_items op →
  session_call (op_call op) w = ((s_step op w).1, result_value <$> api_sres (s_step op w).2).
Proof.
  destruct op as [o kind c n v ts ms|kind c n fu|kind c q|kind c q]; cbn [on_items op_call session_call s_step]; intros ->.
  - unfold Api.update, api, mbind, stm_bind. destruct (bs_update _ _ _ _ _ _ _ w) as [w' []]; done.
  - unfold Api.fetch, api, mbind, stm_bind. destruct (bs_fetch _ _ _ _ w) as [w' []]; done.
  - unfold Api.count, api, mbind, stm_bind. destruct (bs_count _ _ _ w) as [w' []]; done.
  - unfold Api.remove_all, api, mbind, stm_bind. destruct (bs_remove_all _ _ _ w) as [w' []]; done.
Qed.

Lemma result_calls_back (r : sres Result) : calls_back true (result_value <$> api_sres r) = true.
Proof. by destruct r as [[]| |]. Qed.

(** The abstract store does not panic. *)
Lemma a_step_total {R : Resolution} like env op s : (a_step like env op s).2 ≠ Panic.
Proof.
  destruct op as [o kind c n v ts ms| | |]; [|done|done|cbn [a_step]; by destruct (a_remove_all _ _ _ _ _)].
  cbn [a_step]. unfold a_update, bind_expiry, expiry_timestamp, ok_or. destruct o; [| |by destruct (s !! (kind, c, n))].
  all: destruct ms as [ms|]; cbn; [destruct (env_checked_add env _ _); cbn|]; by destruct (s !! (kind, c, n)).
Qed.

(** A session that is open under a handle and used by nobody, its store open, and the
    abstract store it stands for. *)
Definition session_at f (handle : nat) (s : AStore) : Prop :=
  f_runtime f ≠ RtGone ∧ ∃ st c sid w, rm_map (f_sessions f) !! handle = Some (st, c)
    ∧ rm_cells (f_sessions f) !! c = Some (mkCell (sid, w) false 1)
    ∧ (∀ w', session_now sid (f_world f) w' = w') ∧ ct_rep w s.

Lemma request_run handle rq f s : session_at f handle s → request_ok rq s →
  ∃ f', run_request handle rq f = Some (f', (a_request rq s).2) ∧ session_at f' handle (a_request rq s).1.
Proof.
  intros (Hrt & st & c & sid & w & Hm & Hc & Hopen & Hr) Hok. unfold run_request, a_request, request_ok in *.
  rewrite issue_call. destruct (request_op rq) as [op|e|] eqn:Eq; run_bind; unfold mret, res_ret; cbn [ffi_call].
  - destruct (contract_step op w s Hr Hok) as (w' & Es & Hr').
    pose proof (session_call_items op w (request_items rq op Eq)) as Ei. rewrite Es in Ei. cbn [fst snd] in Ei.
    match goal with |- context [@a_step ?R ?l ?e op s] => pose proof (@a_step_total R l e op s) as Hp end.
    destruct (a_step _ _ op s) as [s' r]. cbn [fst snd] in *.
    destruct (session_call_runs f handle (op_call op) st c (mkCell (sid, w) false 1) (f_world f) (sid, w')
      (result_value <$> api_sres r) Hrt Hm Hc eq_refl eq_refl) as (f' & Ef & Hw' & Hrt' & Hm' & Hc' & Hcalls).
    { cbn [fs_session_op api_system c_value]. by rewrite Hopen, Ei. }
    { by destruct r. }
    exists f'. rewrite decide_True by done. rewrite Ef. cbn [mbind option_bind]. split.
    + by rewrite Hcalls, result_calls_back, drop_app_length.
    + split; [by rewrite Hrt'|]. exists st, c, sid, w'. split_and!; [by rewrite Hm'|done|by rewrite Hw'|done].
  - eexists. cbn [catch_err set_last_error]. rewrite decide_False by (by destruct (AskarError.kind e)).
    cbn [mbind option_bind set_outcome f_calls]. rewrite drop_all. split; [done|]. split; [done|]. by exists st, c, sid, w.
  - eexists. cbn [catch_err set_last_error]. rewrite decide_False by done.
    cbn [mbind option_bind set_outcome f_calls]. rewrite drop_all. split; [done|]. split; [done|]. by exists st, c, sid, w.
Qed.

(** C7: A caller of the exported functions who waits for the callbacks, over any backend that
    keeps its contract: whatever sequence of requests is made on a session of a store that
    is open (of which in builds that abort none panics while its arguments are read), the codes
    returned, refusals included, and the results in the callbacks are those of the
    abstract store, and the session goes on standing for that store. *)
Theorem ffi_session_refines_store (handle : nat) (rqs : list Request) : ∀ f s,
  session_at f handle s → requests_ok rqs s →
  ∃ f', run_requests handle rqs f = Some (f', (a_requests rqs s).2) ∧ session_at f' handle (a_requests rqs s).1.
Proof.
  induction rqs as [|rq rqs IH]; intros f s Hf Hok; [by exists f|]. destruct Hok as [Hq Hok].
  destruct (request_run handle rq f s Hf Hq) as (f1 & E1 & Hf1). cbn [run_requests a_requests]. rewrite E1.
  destruct (a_request rq s) as [s1 out]. cbn [fst snd] in *. destruct (IH f1 s1 Hf1 Hok) as (f2 & E2 & Hf2).
  exists f2. cbn [mbind option_bind]. rewrite E2. by destruct (a_requests rqs s1) as [s2 rest].
Qed.
End Requests.

(** ** Requests on the SQLite session of the examples *)

#[export] Instance toy_ffi_support : FfiSupport.
Proof.
  refine {| as_opt_str := option_map string_of_bytes; into_opt_string := option_map string_of_bytes |}; done.
Defined.

Definition toy_manage : ManageBackend () SqliteBackend := {|
  mb_open_backend _ _ _ _ := sfail (StorageError.from_msg StorageError.NotFound "Store not found");
  mb_provision_backend _ _ _ _ _ := sfail (StorageError.from_msg StorageError.Unsupported "Read only");
  mb_remove_backend _ := mret false;
|}.

Definition toy_migration : MigrateWallet () := {| mw_migrate _ _ _ _ := mret () |}.

Definition toy_sqlite : Backend SqliteBackend (World Db KeyCache ProfileKey) :=
  @sqlite_backend demo_allocator toy_hmac toy_cipher toy_codecs toy_cbor toy_engine toy_env
    (Ok toy_profile_key) "new" (λ _, toy_rng).

Definition toy_ffi : Ffi (K := @LocalKey toy_crypto) (G := StoreWorld (E := ()) (B := SqliteBackend)) (St := nat)
    (Se := nat * World Db KeyCache ProfileKey) (Sc := nat * Scan Entry) :=
  mkFfi (mkStoreWorld () {[0%nat := toy_backend]} 1) 1 {[1%nat := 0%nat]}
    (mkResMap 1 {[1%nat := (1%nat, 0%nat)]} {[0%nat := mkCell (0%nat, toy_world) false 1]} 1 0) rm_new None RtRunning [] [].

Definition toy_requests : list Request :=
  [RqUpdate 0 (Some (as_bytes "c")) (Some (as_bytes "n")) [x01] (Some (as_bytes (tags_text [("~b", Single "2"); ("a", Single "1")]))) (-1);
   RqFetch (Some (as_bytes "c")) None 0;
   RqUpdate 7 (Some (as_bytes "c")) (Some (as_bytes "n")) [x01] None (-1);
   RqFetch (Some (as_bytes "c")) (Some (as_bytes "n")) 0;
   RqCount None None].

Lemma ffi_session_refines_store_witness : ∃ f',
  @run_requests toy_ffi_support toy_serde (λ _, Err "") toy_crypto demo_allocator b64 sha_len_digest toy_params release_build () SqliteBackend
    _ toy_sqlite toy_manage toy_migration 1 toy_requests toy_ffi
  = Some (f', [(ErrorCode.Success, [mkCbArgs ErrorCode.Success (Some VUnit)]);
               (ErrorCode.Input, []);
               (ErrorCode.Input, []);
               (ErrorCode.Success, [mkCbArgs ErrorCode.Success (Some (VEntry (Some
                  (mkEntry EntryKind.Item "c" "n" [x01] [EntryTag.Plaintext "b" "2"; EntryTag.Encrypted "a" "1"]))))]);
               (ErrorCode.Success, [mkCbArgs ErrorCode.Success (Some (VInt 1))])]).
Proof.
  pose proof (@ffi_session_refines_store toy_ffi_support toy_serde (λ _, Err "") toy_crypto demo_allocator b64 sha_len_digest
    toy_params release_build () SqliteBackend _ toy_sqlite toy_manage toy_migration toy_contract 1 toy_requests toy_ffi ∅) as E.
  destruct E as (f' & E & _).
  - split; [done|]. exists 1%nat, 0%nat, 0%nat, toy_world. split_and!; [done|done|done|exact toy_session_rep].
  - repeat split; try (vm_compute; lia); try done; repeat constructor; vm_compute; lia.
  - exists f'. exact E.
Defined.

(** A session that was started but not used before its store was closed gets no connection. *)
Example late_session_refused :
  let system := @api_system toy_crypto demo_allocator b64 sha_len_digest toy_params () SqliteBackend _ toy_sqlite toy_manage toy_migration in
  let pending := session_world toy_backend None false in
  let g := mkStoreWorld () {[0%nat := toy_backend]} 1 in
  (@fs_session_op _ _ _ _ _ system (SeCount None None) (g, (0%nat, pending))).2 = Ok (VInt 0)
  ∧ (@fs_session_op _ _ _ _ _ system (SeCount None None) (@fs_begin_close _ _ _ _ _ system 0%nat g, (0%nat, pending))).2
    = Err (AskarError.from_storage (backend_err "Error acquiring pool connection" pool_closed_text)).
Proof. vm_compute. by split. Qed.
