(* ===== verification/FfiKey.v ===== *)
(** * Keys through the foreign function interface

    Models src/ffi/key.rs: the functions on keys behind handles, over the keys of
    src/kms.  What they give out goes to the heap of keys, to the buffers of the
    caller, or is a C string or a number. *)

From S2P Require Import Prelude Errors Wql Buffers Utf8 Entry Random Aead Aes Kdf KeyAlg Jwk JwkAttrs JwkToy Repr EcKeys EdKeys BlsKeys AnyKey AnyKeyLaws.
From S2P Require Import CryptoBox LocalKey KeyEntry FfiTags FfiHandles FfiStore.
Local Open Scope string_scope.
Local Open Scope list_scope.

(** ** Computations over the heaps *)

(** A function returns, its behaviour is undefined, or its search for a key has used up
    the fuel it was given. *)
Inductive Outcome (A : Type) : Type :=
| Returns (a : A)
| Undefined
| Searching.
Arguments Returns {A}.
Arguments Undefined {A}.
Arguments Searching {A}.

Section Keys.
Context `{C : Crypto}.

Record KeyState := mkKeyState {
  ks_keys : ArcHeap LocalKey;
  ks_buffers : VecHeap;
  ks_lists : ArcHeap FfiStringList;
  ks_last : option AskarError.Error;
}.

Definition set_keys (h : ArcHeap LocalKey) (s : KeyState) : KeyState :=
  mkKeyState h (ks_buffers s) (ks_lists s) (ks_last s).
Definition set_buffers (h : VecHeap) (s : KeyState) : KeyState := mkKeyState (ks_keys s) h (ks_lists s) (ks_last s).
Definition set_lists (h : ArcHeap FfiStringList) (s : KeyState) : KeyState :=
  mkKeyState (ks_keys s) (ks_buffers s) h (ks_last s).
Definition set_last (e : option AskarError.Error) (s : KeyState) : KeyState :=
  mkKeyState (ks_keys s) (ks_buffers s) (ks_lists s) e.

Definition ffi (A : Type) : Type := KeyState → Outcome (KeyState * ares A).

#[export] Instance ffi_ret : MRet ffi := λ A a s, Returns (s, Ok a).
#[export] Instance ffi_bind : MBind ffi := λ A B k m s,
  match m s with
  | Returns (s', Ok a) => k a s'
  | Returns (s', Err e) => Returns (s', Err e)
  | Returns (s', Panic) => Returns (s', Panic)
  | Undefined => Undefined
  | Searching => Searching
  end.

Definition pure_ffi {A} (r : ares A) : ffi A := λ s, Returns (s, r).
Definition fueled {A} (r : option (ares A)) : ffi A := λ s,
  match r with Some r => Returns (s, r) | None => Searching end.

(** [handle.load()?]; the reference goes at the end of the function, and with it the count
    is as it was. *)
Definition load_key (handle : N) : ffi LocalKey := λ s,
  match with_arc handle Ok (ks_keys s) with
  | Some (h, r) => Returns (set_keys h s, r)
  | None => Undefined
  end.

Context `{HPl : ArcPlace} `{HAl : Allocator} `{HF : FfiSupport}.

(** [LocalKeyHandle::create(key)]. *)
Definition create_key (key : LocalKey) : ffi N := λ s,
  let '(h, a) := arc_create key (ks_keys s) in Returns (set_keys h s, Ok a).

(** [SecretBuffer::from_secret(..)]. *)
Definition give_secret (b : SecretBytes) : ffi SecretBuffer := λ s,
  match from_secret b (ks_buffers s) with
  | Ok (h, b) => Returns (set_buffers h s, Ok b)
  | Err e => Returns (s, Err e)
  | Panic => Returns (s, Panic)
  end.

Definition give_encrypted (enc : Encrypted.t) : ffi EncryptedBuffer := λ s,
  match from_encrypted enc (ks_buffers s) with
  | Ok (h, b) => Returns (set_buffers h s, Ok b)
  | Err e => Returns (s, Err e)
  | Panic => Returns (s, Panic)
  end.

(** A vector of bytes becomes a secret with its allocation. *)
Definition give_bytes (b : bytes) : ffi SecretBuffer := give_secret (secret_from_vec b (alloc_cap (length b))).

(** [catch_err!] around a body that first checks the pointer it writes to: the code
    returned and what was written. *)
Definition exported {A} (out : bool) (body : ffi A) (s : KeyState) : Outcome (KeyState * ErrorCode * option A) :=
  match (_ ← pure_ffi (check_useful_c_ptr out); body) s with
  | Returns (s, r) =>
      let '(last, code) := catch_err ((λ _, ErrorCode.Success) <$> r) (ks_last s) in
      Returns (set_last last s, code, match r with Ok a => Some a | _ => None end)
  | Undefined => Undefined
  | Searching => Searching
  end.

(** [KeyAlg::from_str(alg.as_opt_str().unwrap_or_default())?]. *)
Definition alg_arg (alg : FfiStr) : ffi KeyAlg.t := pure_ffi (api_cres (alg_from_str (default "" (as_opt_str alg)))).
(** [alg.as_opt_str().map(KeyAlg::from_str).transpose()?]. *)
Definition opt_alg_arg (alg : FfiStr) : ffi (option KeyAlg.t) :=
  pure_ffi (match as_opt_str alg with Some a => Some <$> api_cres (alg_from_str a) | None => Ok None end).

(** ** Making keys *)

Section Creating.
Context `{HB : Base64} `{HJ : JsonReader} `{HDg : Digest} `{HSC : StreamCipher} `{HHk : Hkdf}.

(** An unknown backend is the default one. *)
Definition askar_key_generate `{KeyMaterial R} (fuel : nat) (rng : R) (alg key_backend : FfiStr) (ephemeral : Z) (out : bool) :=
  let backend := match backend_from_str (default "" (as_opt_str key_backend)) with Ok b => b | _ => KeyBackend.Software end in
  exported out (
    alg ← alg_arg alg;
    key ← match backend with
          | KeyBackend.Software => fueled (local_generate fuel rng alg (negb (ephemeral =? 0)%Z))
          | KeyBackend.SecureElement => pure_ffi (local_generate_for_hardware alg (negb (ephemeral =? 0)%Z))
          end;
    create_key key).

Definition askar_key_from_seed (fuel : nat) (alg : FfiStr) (seed : bytes) (method : FfiStr) (out : bool) :=
  exported out (
    alg ← alg_arg alg;
    key ← fueled (local_from_seed fuel alg seed (as_opt_str method));
    create_key key).

Definition askar_key_from_jwk (u : res JwkErr ()) (jwk : bytes) (out : bool) :=
  exported out (key ← pure_ffi (local_from_jwk_slice u jwk); create_key key).

Definition askar_key_from_public_bytes (alg : FfiStr) (public : bytes) (out : bool) :=
  exported out (alg ← alg_arg alg; key ← pure_ffi (local_from_public_bytes alg public); create_key key).

Definition askar_key_from_secret_bytes (alg : FfiStr) (secret : bytes) (out : bool) :=
  exported out (alg ← alg_arg alg; key ← pure_ffi (local_from_secret_bytes alg secret); create_key key).

Definition askar_key_convert (handle : N) (alg : FfiStr) (out : bool) :=
  exported out (alg ← alg_arg alg; key ← load_key handle; key ← pure_ffi (convert_key key alg); create_key key).

Definition askar_key_from_key_exchange (alg : FfiStr) (sk_handle pk_handle : N) (out : bool) :=
  exported out (
    alg ← alg_arg alg;
    sk ← load_key sk_handle;
    pk ← load_key pk_handle;
    key ← pure_ffi (to_key_exchange sk alg pk);
    create_key key).

Definition askar_key_unwrap_key (handle : N) (alg : FfiStr) (ciphertext nonce tag : bytes) (out : bool) :=
  exported out (
    key ← load_key handle;
    alg ← alg_arg alg;
    key ← pure_ffi (unwrap_key key alg (ToDecrypt.mk ciphertext tag) nonce);
    create_key key).

Definition askar_key_derive_ecdh_es (alg : FfiStr) (ephem_key recip_key : N) (alg_id apu apv : bytes) (receive : Z)
    (out : bool) :=
  exported out (
    alg ← alg_arg alg;
    ephem_key ← load_key ephem_key;
    recip_key ← load_key recip_key;
    key ← pure_ffi (derive_key_ecdh_es alg ephem_key recip_key alg_id apu apv (receive =? 1)%Z);
    create_key key).

Definition askar_key_derive_ecdh_1pu (alg : FfiStr) (ephem_key sender_key recip_key : N)
    (alg_id apu apv cc_tag : bytes) (receive : Z) (out : bool) :=
  exported out (
    alg ← alg_arg alg;
    ephem_key ← load_key ephem_key;
    sender_key ← load_key sender_key;
    recip_key ← load_key recip_key;
    key ← pure_ffi (derive_key_ecdh_1pu alg ephem_key sender_key recip_key alg_id apu apv cc_tag (receive =? 1)%Z);
    create_key key).

(** [handle.remove()]. *)
Definition askar_key_free (handle : N) (s : KeyState) : Outcome KeyState :=
  match arc_remove handle (ks_keys s) with Some h => Returns (set_keys h s) | None => Undefined end.

(** ** Reading keys *)

Definition askar_key_get_public_bytes (handle : N) (out : bool) :=
  exported out (key ← load_key handle; public ← pure_ffi (local_to_public_bytes key); give_secret public).

Definition askar_key_get_secret_bytes (handle : N) (out : bool) :=
  exported out (key ← load_key handle; secret ← pure_ffi (local_to_secret_bytes key); give_secret secret).

Definition askar_key_get_algorithm (handle : N) (out : bool) :=
  exported out (key ← load_key handle; pure_ffi (c_string (alg_as_str (local_algorithm key)))).

Definition askar_key_get_ephemeral (handle : N) (out : bool) :=
  exported out (key ← load_key handle; mret (if ephemeral key then 1 else 0)%Z).

Definition askar_key_get_jwk_public (handle : N) (alg : FfiStr) (out : bool) :=
  exported out (
    key ← load_key handle;
    alg ← opt_alg_arg alg;
    jwk ← pure_ffi (local_to_jwk_public key alg);
    pure_ffi (c_string jwk)).

Definition askar_key_get_jwk_secret (handle : N) (out : bool) :=
  exported out (key ← load_key handle; jwk ← pure_ffi (local_to_jwk_secret key); give_secret jwk).

Definition askar_key_get_jwk_thumbprint (handle : N) (alg : FfiStr) (out : bool) :=
  exported out (
    key ← load_key handle;
    alg ← opt_alg_arg alg;
    thumb ← pure_ffi (to_jwk_thumbprint key alg);
    pure_ffi (c_string thumb)).

(** ** Using keys *)

Definition askar_key_aead_random_nonce (fill_random : nat → bytes) (handle : N) (out : bool) :=
  exported out (key ← load_key handle; nonce ← pure_ffi (aead_random_nonce fill_random key); give_bytes nonce).

(** The lengths [as i32]. *)
Definition askar_key_aead_get_params (handle : N) (out : bool) :=
  exported out (
    key ← load_key handle;
    params ← pure_ffi (local_aead_params key);
    mret (as_i32 (Z.of_nat (nonce_length params)), as_i32 (Z.of_nat (tag_length params)))).

Definition askar_key_aead_get_padding (handle : N) (msg_len : Z) (out : bool) :=
  exported out (
    _ ← pure_ffi (if (msg_len <? 0)%Z then Err (input_error "Invalid message length") else Ok ());
    key ← load_key handle;
    mret (as_i32 (Z.of_nat (local_aead_padding key (Z.to_nat msg_len))))).

Definition askar_key_aead_encrypt (fill_random : nat → bytes) (handle : N) (message nonce aad : bytes) (out : bool) :=
  exported out (
    key ← load_key handle;
    enc ← pure_ffi (aead_encrypt fill_random key message nonce aad);
    give_encrypted enc).

Definition askar_key_aead_decrypt (handle : N) (ciphertext nonce tag aad : bytes) (out : bool) :=
  exported out (
    key ← load_key handle;
    dec ← pure_ffi (aead_decrypt key (ToDecrypt.mk ciphertext tag) nonce aad);
    give_secret dec).

Definition askar_key_sign_message (handle : N) (message : bytes) (sig_type : FfiStr) (out : bool) :=
  exported out (
    key ← load_key handle;
    sig ← pure_ffi (sign_message key message (as_opt_str sig_type));
    give_bytes sig).

Definition askar_key_verify_signature (handle : N) (message signature : bytes) (sig_type : FfiStr) (out : bool) :=
  exported out (
    key ← load_key handle;
    verify ← pure_ffi (local_verify_signature key message signature (as_opt_str sig_type));
    mret (if verify : bool then 1 else 0)%Z).

Definition askar_key_wrap_key (handle other : N) (nonce : bytes) (out : bool) :=
  exported out (
    key ← load_key handle;
    other ← load_key other;
    result ← pure_ffi (wrap_key key other nonce);
    give_encrypted result).

Definition askar_key_crypto_box_random_nonce (fill_random : nat → bytes) (out : bool) :=
  exported out (nonce ← pure_ffi (crypto_box_random_nonce fill_random); give_secret (secret_from_slice nonce)).

Context {S : SalsaBox}.

Definition askar_key_crypto_box (recip_key sender_key : N) (message nonce : bytes) (out : bool) :=
  exported out (
    recip_key ← load_key recip_key;
    sender_key ← load_key sender_key;
    message ← pure_ffi (local_crypto_box recip_key sender_key message nonce);
    give_bytes message).

Definition askar_key_crypto_box_open (recip_key sender_key : N) (message nonce : bytes) (out : bool) :=
  exported out (
    recip_key ← load_key recip_key;
    sender_key ← load_key sender_key;
    message ← pure_ffi (local_crypto_box_open recip_key sender_key message nonce);
    give_secret message).

Definition askar_key_crypto_box_seal `{KeyMaterial R} (rng : R) (handle : N) (message : bytes) (out : bool) :=
  exported out (
    key ← load_key handle;
    enc ← pure_ffi (local_crypto_box_seal rng key message);
    give_bytes enc).

Definition askar_key_crypto_box_seal_open (handle : N) (ciphertext : bytes) (out : bool) :=
  exported out (
    key ← load_key handle;
    enc ← pure_ffi (local_crypto_box_seal_open key ciphertext);
    give_secret enc).

(** Without the feature for hardware keys. *)
Definition askar_key_get_supported_backends (out : bool) :=
  exported out (λ s,
    let '(h, a) := arc_create (ListRows [backend_as_str KeyBackend.Software]) (ks_lists s) in
    Returns (set_lists h s, Ok a)).
End Creating.
End Keys.

(** ** A signature between two parties *)

(** What the caller finds in a buffer that it was given. *)
Definition handed (b : SecretBuffer) (h : VecHeap) : option bytes :=
  if (sb_len b =? 0)%Z then Some [] else fst <$> h !! sb_data b.

Lemma from_secret_handed `{ArcPlace} `{Allocator} {E} (s : SecretBytes) (h : VecHeap) :
  sec_ok s → (Z.of_nat (length (sec_data s)) < 2 ^ 63)%Z →
  ∃ h1 b, @from_secret _ _ E s h = Ok (h1, b) ∧ handed b h1 = Some (sec_data s).
Proof.
  intros Hs Hl. unfold from_secret, into_vec, try_i64. unfold sec_ok in Hs.
  assert (sec_data (shrink_to_fit s) = sec_data s) as -> by (unfold shrink_to_fit; by destruct (_ <? _)%nat).
  assert (length (sec_data s) ≤ sec_cap (shrink_to_fit s))%nat as Hc.
  { unfold shrink_to_fit. destruct (_ <? _)%nat; [apply alloc_cap_ge|done]. }
  rewrite (proj2 (Z.ltb_lt _ _)) by done. run_bind. unfold handed.
  destruct (Nat.eqb_spec (sec_cap (shrink_to_fit s)) 0) as [E0|E0]; eexists _, _; (split; [done|]); cbn [sb_len sb_data].
  - assert (length (sec_data s) = 0)%nat as Hz by lia. rewrite Hz. by apply nil_length_inv in Hz as ->.
  - rewrite lookup_insert_eq. destruct (sec_data s); [done|]. by rewrite (proj2 (Z.eqb_neq _ _)) by (cbn; lia).
Qed.

Section KeyLemmas.
Context `{CL : CryptoLaws} `{HPl : ArcPlace} `{HAl : Allocator} `{HF : FfiSupport}.

Lemma load_key_live handle key n s : handle ≠ 0%N → ks_keys s !! handle = Some (key, S n) →
  load_key handle s = Returns (s, Ok key).
Proof. intros Hh Hk. unfold load_key. rewrite (with_arc_live _ _ _ _ _ Hh Hk). by destruct s. Qed.

Lemma exported_ok {A} (body : ffi A) s s' a : body s = Returns (s', Ok a) →
  exported true body s = Returns (s', ErrorCode.Success, Some a).
Proof. intros E. unfold exported. cbn [check_useful_c_ptr]. unfold mbind, ffi_bind, pure_ffi. rewrite E. by destruct s'. Qed.

(** Nothing but the last error changes in a call that fails. *)
Lemma exported_err {A} (body : ffi A) s s' e : body s = Returns (s', Err e) →
  exported true body s = Returns (set_last (Some e) s', ErrorCode.from_kind (AskarError.kind e), None).
Proof. intros E. unfold exported. cbn [check_useful_c_ptr]. unfold mbind, ffi_bind, pure_ffi. by rewrite E. Qed.

Lemma give_secret_handed b s : sec_ok b → (Z.of_nat (length (sec_data b)) < 2 ^ 63)%Z →
  ∃ h buf, give_secret b s = Returns (set_buffers h s, Ok buf) ∧ handed buf h = Some (sec_data b).
Proof.
  intros Hb Hl. destruct (from_secret_handed (E := AskarError.Error) b (ks_buffers s) Hb Hl) as (h & buf & E & Hh).
  exists h, buf. unfold give_secret. by rewrite E.
Qed.

Lemma get_public_handed handle key n s b : handle ≠ 0%N → ks_keys s !! handle = Some (key, S n) →
  any_ok (inner key) → any_public_of (inner key) = Some b → (Z.of_nat (length b) < 2 ^ 63)%Z →
  ∃ h buf, askar_key_get_public_bytes handle true s = Returns (set_buffers h s, ErrorCode.Success, Some buf)
    ∧ handed buf h = Some b.
Proof.
  intros Hh Hk Hok Hb Hl.
  assert (∃ sb, local_to_public_bytes key = Ok sb ∧ sec_ok sb ∧ sec_data sb = b) as (sb & E & Hs & <-).
  { unfold local_to_public_bytes, any_to_public_bytes, any_write_public_bytes. rewrite (any_with_public_spec _ _ Hok Hb). run_bind.
    assert (sec_inv (with_capacity 128)) as Hw by (split; [unfold sec_ok; cbn; lia|constructor]).
    destruct (@write_spec SecretBytes secret_buffer secret_lawful (with_capacity 128) b Hw) as (sb & E & [Hs _] & Es).
    exists sb. split_and!; [|done|exact Es]. by apply (f_equal api_cres) in E. }
  destruct (give_secret_handed sb s Hs Hl) as (h & buf & Eg & Hbuf). exists h, buf. split; [|done].
  apply exported_ok. unfold mbind, ffi_bind. rewrite (load_key_live _ _ _ _ Hh Hk). unfold pure_ffi. by rewrite E.
Qed.

Lemma from_public_created alg key b s : as_opt_str alg = Some (alg_as_str (local_algorithm key)) →
  any_ok (inner key) → any_public_of (inner key) = Some b →
  let '(h, a) := arc_create (mkLocal _ (any_public_only (inner key)) false) (ks_keys s) in
  askar_key_from_public_bytes alg b true s = Returns (set_keys h s, ErrorCode.Success, Some a).
Proof.
  intros Ha Hok Hb. destruct (arc_create _ _) as [h a] eqn:Ec. apply exported_ok.
  unfold alg_arg. rewrite Ha. cbn [from_option id]. rewrite alg_name_roundtrip. unfold mbind, ffi_bind, pure_ffi. cbn [api_cres map_err].
  unfold local_from_public_bytes, imported, local_algorithm. rewrite (any_public_reload _ _ Hok Hb).
  cbn [api_cres map_err mbind res_bind mret res_ret]. unfold create_key. by rewrite Ec.
Qed.

Lemma sign_handed handle key n s message sig_type sig : handle ≠ 0%N → ks_keys s !! handle = Some (key, S n) →
  any_ok (inner key) → sign_message key message (as_opt_str sig_type) = Ok sig →
  ∃ h buf, askar_key_sign_message handle message sig_type true s = Returns (set_buffers h s, ErrorCode.Success, Some buf)
    ∧ handed buf h = Some sig.
Proof.
  intros Hh Hk Hok Hsig.
  assert (length sig ≤ 96)%nat as Hl.
  { unfold sign_message in Hsig. destruct (parse_sig_type _) as [t| |]; try done. cbn [mbind res_bind] in Hsig.
    destruct (any_write_signature (inner key) message t) as [sig'| |] eqn:E; try done. injection Hsig as <-.
    destruct (any_signed _ _ _ _ Hok E) as [-> _]. destruct (algorithm _) as [| | | | |[]]; cbn; lia. }
  destruct (give_secret_handed (secret_from_vec sig (alloc_cap (length sig))) s) as (h & buf & Eg & Hbuf).
  { unfold sec_ok. cbn. apply alloc_cap_ge. }
  { cbn. lia. }
  exists h, buf. split; [|done]. apply exported_ok. unfold mbind, ffi_bind. rewrite (load_key_live _ _ _ _ Hh Hk).
  unfold pure_ffi. rewrite Hsig. exact Eg.
Qed.

Lemma public_verifies key message t sig : any_ok (inner key) → sign_message key message t = Ok sig →
  local_verify_signature (mkLocal _ (any_public_only (inner key)) false) message sig t = Ok true.
Proof.
  intros Hok. unfold sign_message, local_verify_signature. destruct (parse_sig_type t) as [st| |]; try done.
  cbn [mbind res_bind]. destruct (any_write_signature (inner key) message st) as [sig'| |] eqn:E; try done.
  intros [= <-]. destruct (any_signed _ _ _ _ Hok E) as [_ Hv]. cbn [inner]. by rewrite Hv.
Qed.

(** C30: A signature through the interface: the holder of a key pair gives its public bytes
    and a signature to someone who loads the bytes as a key of the named algorithm; the
    calls succeed, what is handed over is the key's public part and the signature, and
    the loaded key verifies it.  The handles that were there stay as they were, and
    freeing the loaded key gives its memory back.  The null handle is refused. *)
Theorem ffi_signature_exchange handle key n s alg message sig_type sig b :
  handle ≠ 0%N → ks_keys s !! handle = Some (key, S n) → any_ok (inner key) →
  any_public_of (inner key) = Some b → (Z.of_nat (length b) < 2 ^ 63)%Z →
  as_opt_str alg = Some (alg_as_str (local_algorithm key)) →
  sign_message key message (as_opt_str sig_type) = Ok sig →
  (∃ s1 s2 s3 s4 s5 public signature handle',
    askar_key_get_public_bytes handle true s = Returns (s1, ErrorCode.Success, Some public)
    ∧ handed public (ks_buffers s1) = Some b
    ∧ askar_key_from_public_bytes alg b true s1 = Returns (s2, ErrorCode.Success, Some handle')
    ∧ askar_key_sign_message handle message sig_type true s2 = Returns (s3, ErrorCode.Success, Some signature)
    ∧ handed signature (ks_buffers s3) = Some sig
    ∧ askar_key_verify_signature handle' message sig sig_type true s3 = Returns (s4, ErrorCode.Success, Some 1%Z)
    ∧ askar_key_free handle' s4 = Returns s5
    ∧ ks_keys s5 = ks_keys s ∧ ks_last s5 = ks_last s)
  ∧ askar_key_sign_message 0 message sig_type true s
    = Returns (set_last (Some (input_error "Invalid handle")) s, ErrorCode.Input, None).
Proof.
  intros Hh Hk Hok Hb Hl Ha Hsig. split; [|apply (exported_err _ s s); by destruct s].
  destruct (get_public_handed _ _ _ _ _ Hh Hk Hok Hb Hl) as (h1 & pb & E1 & Hpb).
  pose proof (from_public_created alg key b (set_buffers h1 s) Ha Hok Hb) as E2.
  pose proof (arc_create_live (mkLocal _ (any_public_only (inner key)) false) (ks_keys s)) as Hc.
  cbn [ks_keys set_buffers] in E2. destruct (arc_create _ _) as [h2 h'] eqn:Ec. destruct Hc as (Hh' & Hnew & Hfree).
  assert (ks_keys (set_keys h2 (set_buffers h1 s)) !! handle = Some (key, S n)) as Hk2.
  { cbn. unfold arc_create in Ec. injection Ec as <- <-. rewrite lookup_insert_ne; [done|].
    intros <-. destruct (arc_place_fresh (dom (ks_keys s))) as [Hf%not_elem_of_dom _]. congruence. }
  destruct (sign_handed _ _ _ _ _ _ _ Hh Hk2 Hok Hsig) as (h3 & sb & E3 & Hsb).
  eexists _, _, _, _, (set_buffers h3 (set_keys (ks_keys s) (set_buffers h1 s))), pb, sb, h'. split_and!; [exact E1|done|exact E2|exact E3|done| | |reflexivity..].
  - apply exported_ok. unfold mbind, ffi_bind. rewrite (load_key_live h' _ 0 (set_buffers h3 (set_keys h2 (set_buffers h1 s))) Hh' Hnew). unfold pure_ffi.
    by rewrite (public_verifies _ _ _ _ Hok Hsig).
  - unfold askar_key_free. cbn. rewrite Hfree. cbn. done.
Qed.
End KeyLemmas.

(** The key pair of the examples at handle 5. *)
Definition toy_keys : KeyState :=
  mkKeyState {[5%N := (mkLocal toy_crypto toy_ed false, 1)]} ∅ ∅ None.

Lemma ffi_signature_exchange_witness :
  ∃ sig s4 handle' s3, @askar_key_verify_signature toy_crypto toy_ffi_support handle' [x01; x02] sig None true s3
    = Returns (s4, ErrorCode.Success, Some 1%Z).
Proof.
  destruct (sign_message (mkLocal toy_crypto toy_ed false) [x01; x02] None) as [sig| |] eqn:E; [|discriminate E|discriminate E].
  pose proof (@ffi_signature_exchange toy_crypto toy_crypto_laws toy_place demo_allocator toy_ffi_support 5 (mkLocal toy_crypto toy_ed false)
    0 toy_keys (Some (as_bytes "ed25519")) [x01; x02] None sig (replicate 32 x07)) as [X _];
    [done|reflexivity|split_and!; [reflexivity|by eexists|split; reflexivity]|reflexivity|reflexivity|reflexivity|exact E|].
  destruct X as (s1 & s2 & s3 & s4 & s5 & pb & sb & h' & _ & _ & _ & _ & _ & E5 & _). by exists sig, s4, h', s3.
Defined.
