(* ===== verification/Hardware.v ===== *)
(** * Hardware-backed P-256 keys

    Models askar-crypto/src/alg/p256_hardware.rs, and what the feature for such keys
    adds to alg/any.rs, kms/local_key.rs, kms/entry.rs and store.rs: the key pair that
    refers to one in a secure element, keys of any type with it among them, and their
    storage by identifier.  The secure element is a parameter with a state of its own. *)

From S2P Require Import Prelude Errors Wql Buffers Utf8 Entry Aead Protect Options StoreKey DbUtils Session SqliteDb.
From S2P Require Import TagSql DbQuery TagSqlSem SqlEval Sqlite Store Backend SqliteBackend Lifecycle Copying.
From S2P Require Import Random KeyAlg Kdf Jwk JwkAttrs JwkToy Repr EcKeys EdKeys BlsKeys AnyKey AnyKeyLaws LocalKey KeyEntry StoreApi.
Local Open Scope string_scope.
Local Open Scope list_scope.

(** ** The secure element *)

Module SecureEnvError.
Inductive t :=
| UnableToGenerateKey (s : string)
| UnableToGetKeyPairById (s : string)
| UnableToCreateSignature (s : string)
| UnableToGetPublicKey (s : string)
| HardwareBackedKeysAreNotSupported (s : string)
| UnableToCreateJavaValue (s : string)
| UnableToAttachJVMToThread (s : string).
End SecureEnvError.

(** [impl From<SecureEnvError> for Error], on Android and with allocation. *)
Definition from_secure_env (err : SecureEnvError.t) : CryptoError.Error :=
  let '(kind, msg) :=
    match err with
    | SecureEnvError.UnableToGenerateKey s => (CryptoError.Invalid, s)
    | SecureEnvError.UnableToGetKeyPairById s => (CryptoError.Invalid, s)
    | SecureEnvError.UnableToCreateSignature s => (CryptoError.Invalid, s)
    | SecureEnvError.UnableToGetPublicKey s => (CryptoError.Invalid, s)
    | SecureEnvError.HardwareBackedKeysAreNotSupported s => (CryptoError.Custom, s)
    | SecureEnvError.UnableToCreateJavaValue s => (CryptoError.Custom, s)
    | SecureEnvError.UnableToAttachJVMToThread s => (CryptoError.Custom, s)
    end in
  CryptoError.from_msg kind msg.

Class SecureEnv := {
  se_state : Type;
  se_key : Type;
  (** [SecureEnvironment::generate_keypair] and [get_keypair_by_id]. *)
  se_generate : string → stm se_state SecureEnvError.t se_key;
  se_by_id : string → stm se_state SecureEnvError.t se_key;
  (** [KeyOps::get_public_key] and [sign]. *)
  se_public_key : se_key → se_state → res SecureEnvError.t bytes;
  se_sign : se_key → bytes → stm se_state SecureEnvError.t bytes;
}.

(** ** The key pair *)

Record P256HardwareKeyPair `{SecureEnv} := mkHw {
  hk_inner : se_key;
  key_id : SecretBytes;
}.

Section HardwareKey.
Context `{C : Crypto} `{SE : SecureEnv} `{HAl : Allocator}.
Abbreviation P256KeyPair := (EcKeyPair cr_p256).
Abbreviation M := (stm se_state CryptoError.Error).

(** [?] on a result of the element. *)
Definition se_try {A} (m : stm se_state SecureEnvError.t A) : M A := λ s,
  let '(s', r) := m s in (s', map_err from_secure_env r).

Definition get_p256_keypair (k : P256HardwareKeyPair) (s : se_state) : cres P256KeyPair :=
  public_key ← map_err from_secure_env (se_public_key (hk_inner k) s);
  P256.from_public_bytes public_key.

(** [try_into] an array of 64 bytes. *)
Definition hw_sign (k : P256HardwareKeyPair) (message : bytes) : M (option bytes) := λ s,
  match se_sign (hk_inner k) message s with
  | (s', Ok sig) => (s', Ok (if (length sig =? SIGNATURE_LENGTH P256.consts)%nat then Some sig else None))
  | (s', Err _) => (s', Ok None)
  | (s', Panic) => (s', Panic)
  end.

Definition hw_verify (k : P256HardwareKeyPair) (message signature : bytes) (s : se_state) : cres bool :=
  match get_p256_keypair k s with
  | Ok keypair => Ok (P256.verify keypair message signature)
  | Err _ => Ok false
  | Panic => Panic
  end.

Definition hw_generate (id : string) : M P256HardwareKeyPair :=
  inner ← se_try (se_generate id); mret (mkHw _ inner (secret_from_slice (as_bytes id))).

Definition hw_from_id (id : string) : M P256HardwareKeyPair :=
  inner ← se_try (se_by_id id); mret (mkHw _ inner (secret_from_slice (as_bytes id))).

Definition hw_public_bytes_length (k : P256HardwareKeyPair) : cres nat := Ok (PUBLIC_KEY_LENGTH P256.consts).

Definition hw_write_public_bytes {B} `{WriteBuffer B} (k : P256HardwareKeyPair) (out : B) (s : se_state) : cres B :=
  public_key ← map_err from_secure_env (se_public_key (hk_inner k) s); wb_write public_key out.

Definition hw_verify_signature (k : P256HardwareKeyPair) (message signature : bytes)
    (sig_type : option SignatureType.t) (s : se_state) : cres bool :=
  if bool_decide (sig_type = None) || bool_decide (sig_type = Some SignatureType.ES256)
  then hw_verify k message signature s
  else Err unsupported_signature.

Definition hw_write_signature (k : P256HardwareKeyPair) (message : bytes) (sig_type : option SignatureType.t) : M bytes :=
  if bool_decide (sig_type = None) || bool_decide (sig_type = Some SignatureType.ES256) then
    sig ← hw_sign k message;
    match sig with
    | Some sig => mret sig
    | None => sfail (CryptoError.from_msg CryptoError.Unsupported "Undefined secret key")
    end
  else sfail unsupported_signature.

Definition hw_key_backend (k : P256HardwareKeyPair) : KeyBackend.t := KeyBackend.SecureElement.
Definition hw_key_algorithm (k : P256HardwareKeyPair) : KeyAlg.t := KeyAlg.EcCurve EcCurves.Secp256r1.

Definition hw_encode_jwk {E} `{JwkEncoder E} (s : se_state) (k : P256HardwareKeyPair) (enc : E) : cres E :=
  if is_secret enc
  then Err (CryptoError.from_msg CryptoError.Unsupported
              "Cannot create a JWK with secret attributes from a hardware bound key") else
  kp ← get_p256_keypair k s; P256.encode_jwk kp enc.

#[export] Instance hw_meta : KeyMeta P256HardwareKeyPair := {| key_size := 32 |}.
#[export] Instance hw_keypair_meta : KeypairMeta P256HardwareKeyPair := {| public_key_size := 33; keypair_size := 65 |}.

(** ** Keys of any type *)

(** The erased key with the feature for hardware keys: one type more. *)
Inductive AnyKeyHw :=
| Software (k : AnyKey)
| Hardware (k : P256HardwareKeyPair).

Definition hw_algorithm (k : AnyKeyHw) : KeyAlg.t :=
  match k with Software k => algorithm k | Hardware k => hw_key_algorithm k end.
Definition hw_backend (k : AnyKeyHw) : KeyBackend.t :=
  match k with Software k => backend k | Hardware k => hw_key_backend k end.

(** The type of the key inside: that of an algorithm, or [None] for the hardware key pair. *)
Definition hw_key_type_id (k : AnyKeyHw) : option KeyAlg.t :=
  match k with Software k => Some (key_type_id k) | Hardware _ => None end.

(** [assume::<K>()], for the two types on the curve. *)
Definition hw_assume_p256 (k : AnyKeyHw) : cres P256KeyPair :=
  match k with Software k => assume_p256 k | Hardware _ => Panic end.
Definition assume_hardware (k : AnyKeyHw) : cres P256HardwareKeyPair :=
  match k with Hardware k => Ok k | Software _ => Panic end.

(** [uuid]: the text of the random identifier. *)
Definition hw_generate_any (uuid : string) (a : KeyAlg.t) : M AnyKeyHw :=
  match a with
  | KeyAlg.EcCurve EcCurves.Secp256r1 => k ← hw_generate uuid; mret (Hardware k)
  | _ => sfail (unsupported "Unsupported algorithm for key generation with id")
  end.

Definition hw_get_any_with_id (a : KeyAlg.t) (id : string) : M AnyKeyHw :=
  match a with
  | KeyAlg.EcCurve EcCurves.Secp256r1 => k ← hw_from_id id; mret (Hardware k)
  | _ => sfail (unsupported "Unsupported algorithm for key retrieval by id")
  end.

Definition hw_get_key_id (k : AnyKeyHw) : cres SecretBytes :=
  match hw_algorithm k with
  | KeyAlg.EcCurve EcCurves.Secp256r1 => k ← assume_hardware k; Ok (key_id k)
  | _ => Err (unsupported "Unsupported get key id operation")
  end.

(** The arms of [match_key_alg!]: a hardware key is not one of those for the others. *)
Definition hw_to_secret_bytes (k : AnyKeyHw) : cres SecretBytes :=
  match k with
  | Software k => any_to_secret_bytes k
  | Hardware _ => Err (unsupported "Secret key export is not supported for this key type")
  end.

Definition hw_to_public_bytes (k : AnyKeyHw) (s : se_state) : cres SecretBytes :=
  match k with
  | Software k => any_to_public_bytes k
  | Hardware k => hw_write_public_bytes k (with_capacity 128) s
  end.

Definition hw_convert_key (k : AnyKeyHw) (a : KeyAlg.t) : cres AnyKeyHw :=
  match k with
  | Software k => Software <$> convert_key_any k a
  | Hardware _ => Err (unsupported "Unsupported key conversion operation")
  end.

Definition hw_key_exchange (k other : AnyKeyHw) : cres bytes :=
  if negb (bool_decide (hw_key_type_id k = hw_key_type_id other)) then Err (unsupported "Unsupported key exchange") else
  match k, other with
  | Software k, Software other => any_write_key_exchange k other
  | _, _ =>
      (* the algorithm is the one of the curve *)
      a ← hw_assume_p256 k; b ← hw_assume_p256 other; P256.write_key_exchange a b
  end.

Definition hw_any_write_signature (k : AnyKeyHw) (message : bytes) (sig_type : option SignatureType.t) : M bytes :=
  match k with
  | Software k => lift (any_write_signature k message sig_type)
  | Hardware k => hw_write_signature k message sig_type
  end.

Definition hw_any_verify_signature (k : AnyKeyHw) (message signature : bytes) (sig_type : option SignatureType.t)
    (s : se_state) : cres bool :=
  match k with
  | Software k => any_verify_signature k message signature sig_type
  | Hardware k => hw_verify_signature k message signature sig_type s
  end.

Definition hw_any_encode_jwk {E} `{JwkEncoder E} (s : se_state) (k : AnyKeyHw) (enc : E) : cres E :=
  match k with
  | Software k => any_encode_jwk k enc
  | Hardware k => hw_encode_jwk s k enc
  end.

(** Reading the public key is a call of the element in its present state. *)
Definition hw_to_jwk (s : se_state) : ToJwk AnyKeyHw := {| encode_jwk E H := hw_any_encode_jwk (E := E) s |}.

Definition hw_encrypt_in_place {B} `{ResizeBuffer B} (k : AnyKeyHw) (nonce aad : bytes) (buffer : B) : cres (B * nat) :=
  match k with
  | Software k => any_encrypt_in_place k nonce aad buffer
  | Hardware _ => Err aead_unsupported
  end.

Definition hw_decrypt_in_place {B} `{ResizeBuffer B} (k : AnyKeyHw) (nonce aad : bytes) (buffer : B) : cres B :=
  match k with
  | Software k => any_decrypt_in_place k nonce aad buffer
  | Hardware _ => Err aead_unsupported
  end.
End HardwareKey.

(** ** Local keys and the store *)

Record LocalKeyHw `{Crypto} `{SecureEnv} := mkLocalHw {
  hw_inner : AnyKeyHw;
  hw_ephemeral : bool;
}.

Section LocalHw.
Context `{C : Crypto} `{SE : SecureEnv} `{HAl : Allocator} `{HB : Base64} `{HDg : Digest} `{HJ : JsonReader}.
Abbreviation K := (stm se_state AskarError.Error).

(** [?] on a result of the cryptography crate. *)
Definition hw_api {A} (m : stm se_state CryptoError.Error A) : K A := λ s,
  let '(s', r) := m s in (s', api_cres r).

Definition hw_local_generate (uuid : string) (a : KeyAlg.t) (eph : bool) : K LocalKeyHw :=
  k ← hw_api (hw_generate_any uuid a); mret (mkLocalHw _ _ k eph).

Definition hw_local_from_id (a : KeyAlg.t) (id : string) : K LocalKeyHw :=
  k ← hw_api (hw_get_any_with_id a id); mret (mkLocalHw _ _ k false).

Definition hw_is_hardware_backed (k : LocalKeyHw) : bool :=
  match hw_inner k with Hardware _ => true | Software _ => false end.

Definition hw_encode (s : se_state) (k : LocalKeyHw) : ares SecretBytes :=
  api_cres (@to_jwk_secret _ (hw_to_jwk s) base64 _ (hw_inner k) None).

Definition hw_jwk_public (s : se_state) (k : LocalKeyHw) (a : option KeyAlg.t) : ares string :=
  api_cres (string_of_bytes <$> @to_jwk_public _ (hw_to_jwk s) base64 (hw_inner k) a).

Definition hw_thumbprint (s : se_state) (k : LocalKeyHw) (a : option KeyAlg.t) : ares string :=
  api_cres (string_of_bytes <$> @write_jwk_thumbprint _ (hw_to_jwk s) base64 _ _ _ (hw_inner k) a ([] : bytes)).

Definition hw_thumbprints (s : se_state) (k : LocalKeyHw) : ares (list string) :=
  if bool_decide (hw_algorithm (hw_inner k) = KeyAlg.Bls12_381 BlsCurves.G1G2) then
    g1 ← hw_thumbprint s k (Some (KeyAlg.Bls12_381 BlsCurves.G1));
    g2 ← hw_thumbprint s k (Some (KeyAlg.Bls12_381 BlsCurves.G2));
    mret [g1; g2]
  else
    t ← hw_thumbprint s k None; mret [t].

(** [Session::insert_key], with the element in the state [s]. *)
Definition hw_insert_key `{BackendSession W} `{ParamsCodec} (s : se_state) (name : string) (key : LocalKeyHw)
    (metadata : option string) (reference : option KeyReference.t) (tags : option (list EntryTag))
    (expiry_ms : option Z) : stm W AskarError.Error () :=
  data ← lift (if hw_is_hardware_backed key then api_cres (hw_get_key_id (hw_inner key)) else hw_encode s key);
  value ← lift (params_to_bytes (mkKeyParams metadata reference (Some (sec_data data))));
  thumbs ← lift (hw_thumbprints s key);
  api (bs_update EntryKind.Kms EntryOperation.Insert Api.crypto_key name (Some value)
    (Some (Api.key_tags (alg_as_str (hw_algorithm (hw_inner key))) thumbs tags)) expiry_ms).

(** The reference the foreign interface stores a key with. *)
Definition hw_reference (key : LocalKeyHw) : option KeyReference.t :=
  if hw_is_hardware_backed key then Some KeyReference.MobileSecureElement else None.

(** [KeyEntry::load_local_key]; a key read from a JWK is a software key. *)
Definition hw_load_local_key (u : res JwkErr ()) (e : KeyEntry) : K LocalKeyHw :=
  match kp_data (ke_params e) with
  | Some key_data =>
      match kp_reference (ke_params e) with
      | Some KeyReference.MobileSecureElement =>
          id ← lift (params_to_id (ke_params e));
          a ← lift (ok_or (ke_alg e) (AskarError.from_msg AskarError.Input "Algorithm is required to get key by id"));
          a ← lift (api_cres (alg_from_str a));
          hw_local_from_id a id
      | _ => k ← lift (imported (from_jwk_slice u key_data)); mret (mkLocalHw _ _ (Software (inner k)) (ephemeral k))
      end
  | None => sfail (AskarError.from_msg AskarError.Input "Missing key data")
  end.
End LocalHw.

(** ** What the secure element documents *)

(** A key in the element has a point, which its public key encodes; its signatures
    verify; and the element keeps the keys it made under their identifiers. *)
Class SecureEnvLaws `{Crypto} `{SecureEnv} := {
  se_point : se_key → @ec_pk cr_p256;
  se_keys : se_state → string → option (@ec_pk cr_p256);
  se_public_point key s b : se_public_key key s = Ok b → b = encoded_point true (se_point key);
  se_signature key m s s' sig : se_sign key m s = (s', Ok sig) → ecdsa_verify (se_point key) m sig = Some true;
  se_generated id s s' key : se_generate id s = (s', Ok key) → se_keys s' id = Some (se_point key);
  se_found id s s' key : se_by_id id s = (s', Ok key) → se_keys s id = Some (se_point key);
}.

Section HardwareLaws.
Context `{HL : CryptoLaws} `{SE : SecureEnv} {SL : SecureEnvLaws} `{HAl : Allocator} `{HB : Base64} `{HDg : Digest} `{HJ : JsonReader}.

(** The software key with the public part of a hardware key. *)
Definition public_twin (k : P256HardwareKeyPair) : AnyKey := AnyP256 (mkEc None (se_point (hk_inner k))).

(** The element answers for the key. *)
Definition answers (k : P256HardwareKeyPair) (s : se_state) : Prop := ∃ b, se_public_key (hk_inner k) s = Ok b.

Lemma read_keypair k s : answers k s → get_p256_keypair k s = Ok (mkEc None (se_point (hk_inner k))).
Proof.
  intros [b Hb]. unfold get_p256_keypair. rewrite Hb. cbn [map_err mbind res_bind].
  rewrite (se_public_point _ _ _ Hb). unfold P256.from_public_bytes, ec_from_public_bytes.
  by rewrite (@from_sec1_encoded _ _ laws_p256).
Qed.

(** Where no secret is asked for, the hardware key is encoded as its public twin is. *)
Lemma hw_encode_twin `{JwkEncoder E} k s (e : E) : answers k s → is_secret e = false →
  hw_encode_jwk s k e = any_encode_jwk (public_twin k) e.
Proof. intros Ha He. unfold hw_encode_jwk. by rewrite He, (read_keypair k s Ha). Qed.

Lemma hw_thumbprint_twin k s a eph : answers k s →
  hw_thumbprint s (mkLocalHw _ _ (Hardware k) eph) a = to_jwk_thumbprint (mkLocal _ (public_twin k) eph) a.
Proof.
  intros Ha. unfold hw_thumbprint, to_jwk_thumbprint, write_jwk_thumbprint. cbn [hw_inner inner].
  unfold encode_jwk at 1. cbn [hw_to_jwk hw_any_encode_jwk].
  rewrite (hw_encode_twin (E := JwkBufferEncoder HashBuffer) (H0 := buffer_encoder base64)) by (done || by destruct a).
  reflexivity.
Qed.

Lemma hw_jwk_public_twin k s a eph : answers k s →
  hw_jwk_public s (mkLocalHw _ _ (Hardware k) eph) a = local_to_jwk_public (mkLocal _ (public_twin k) eph) a.
Proof.
  intros Ha. unfold hw_jwk_public, local_to_jwk_public, to_jwk_public. cbn [hw_inner inner].
  unfold encode_jwk at 1. cbn [hw_to_jwk hw_any_encode_jwk].
  rewrite (hw_encode_twin (E := JwkBufferEncoder bytes) (H0 := buffer_encoder base64)) by (done || by destruct a).
  reflexivity.
Qed.

Lemma hw_public_bytes_twin k s : answers k s → hw_to_public_bytes (Hardware k) s = any_to_public_bytes (public_twin k).
Proof.
  intros [b Hb]. cbn [hw_to_public_bytes]. unfold hw_write_public_bytes. rewrite Hb. cbn [map_err mbind res_bind].
  rewrite (se_public_point _ _ _ Hb). reflexivity.
Qed.

Lemma hw_verify_twin k s message sig t : answers k s →
  hw_any_verify_signature (Hardware k) message sig t s = any_verify_signature (public_twin k) message sig t.
Proof.
  intros Ha. cbn [hw_any_verify_signature]. unfold hw_verify_signature, hw_verify. rewrite (read_keypair k s Ha). reflexivity.
Qed.

Lemma hw_thumbprints_twin k s eph : answers k s → digest_output_size = 32%nat →
  hw_thumbprints s (mkLocalHw _ _ (Hardware k) eph) = Ok [thumb_text (public_twin k)].
Proof.
  intros Ha Hd. unfold hw_thumbprints. cbn [hw_inner hw_algorithm hw_key_algorithm].
  rewrite bool_decide_eq_false_2 by done. rewrite (hw_thumbprint_twin k s None eph Ha).
  unfold to_jwk_thumbprint. cbn [inner]. by rewrite (thumbprint_text Hd) by auto.
Qed.

Lemma hw_secret_jwk k s eph :
  hw_encode s (mkLocalHw _ _ (Hardware k) eph)
  = Err (AskarError.from_msg AskarError.Unsupported "Cannot create a JWK with secret attributes from a hardware bound key").
Proof. reflexivity. Qed.

(** The identifier of a generated key, and what the element has afterwards. *)
Lemma hw_generate_spec id s s' k : hw_generate id s = (s', Ok k) →
  se_generate id s = (s', Ok (hk_inner k)) ∧ key_id k = secret_from_slice (as_bytes id).
Proof.
  unfold hw_generate. intros H2. apply stm_bind_inv in H2 as (inner & s1 & E & H2). injection H2 as <- <-.
  unfold se_try in E. destruct (se_generate id s) as [s2 [i| |]]; by simplify_eq/=.
Qed.

(** ** Keys in a store *)

Context `{HP : ParamsCodec} `{HW : SessionContract W}.

Lemma hw_insert_run (w : W) st name k eph s metadata reference tags :
  ct_rep w st → ct_key_ok (kkey name) → st !! kkey name = None → answers k s → digest_output_size = 32%nat →
  params_wf (mkKeyParams metadata reference None) →
  ct_tags_ok (Api.key_tags "p256" [thumb_text (public_twin k)] tags) →
  (∀ v, params_to_vec (mkKeyParams metadata reference (Some (sec_data (key_id k)))) = Ok v → ct_value_ok v) →
  ∃ w' v, hw_insert_key s name (mkLocalHw _ _ (Hardware k) eph) metadata reference tags None w = (w', Ok ())
    ∧ ct_rep w' (<[kkey name := mkAVal v (Api.key_tags "p256" [thumb_text (public_twin k)] tags) None]> st)
    ∧ params_from_vec v = Ok (mkKeyParams metadata reference (Some (sec_data (key_id k)))).
Proof.
  intros Hr Hk Hn Ha Hd Hwf Ht Hv.
  destruct (params_codec (mkKeyParams metadata reference (Some (sec_data (key_id k)))) Hwf) as (v & Ev & Ef).
  destruct (ct_update w st EntryKind.Kms EntryOperation.Insert Api.crypto_key name (Some v)
    (Some (Api.key_tags "p256" [thumb_text (public_twin k)] tags)) None Hr Hk (Hv v Ev) Ht) as (w' & E & Hr').
  change (EntryKind.Kms, Api.crypto_key, name) with (kkey name) in E, Hr'.
  unfold a_update in E, Hr'. cbn [bind_expiry] in E, Hr'. rewrite Hn in E, Hr'. cbn [fst snd default] in E, Hr'.
  exists w', v. split_and!; [|exact Hr'|exact Ef].
  unfold hw_insert_key. cbn [hw_is_hardware_backed hw_inner].
  rewrite (lift_bind _ (key_id k)) by done.
  rewrite (lift_bind _ v) by (unfold params_to_bytes; by rewrite Ev).
  rewrite (lift_bind _ _ _ _ (hw_thumbprints_twin k s eph Ha Hd)). exact (api_run _ _ _ _ E).
Qed.

(** Reading an entry with the reference to the element asks it for the key. *)
Lemma hw_load_run u e id (s : se_state) : ke_alg e = Some "p256" → str_ok id →
  kp_reference (ke_params e) = Some KeyReference.MobileSecureElement → kp_data (ke_params e) = Some (as_bytes id) →
  hw_load_local_key u e s = hw_local_from_id (KeyAlg.EcCurve EcCurves.Secp256r1) id s.
Proof.
  intros Ha Hid Hr Hd. unfold hw_load_local_key. rewrite Hd, Hr.
  rewrite (lift_bind _ id) by (unfold params_to_id; rewrite Hd; unfold str_ok in Hid; by rewrite Hid, string_of_as_bytes).
  rewrite Ha. by rewrite (lift_bind _ "p256"), (lift_bind _ (KeyAlg.EcCurve EcCurves.Secp256r1)).
Qed.
End HardwareLaws.

(** ** Properties *)

(** A hardware key shows to the outside what a software key with only its public part
    shows: the same JWK, thumbprint, public bytes and verdicts on signatures, as long as
    the element answers; when it does not, exports fail with its error and every signature
    is judged invalid.  Whatever the element's state, nothing gives the secret: not the
    bytes, not a JWK, not another key; and it encrypts nothing. *)
Theorem hardware_key_public `{HL : CryptoLaws} `{SE : SecureEnv} {SL : SecureEnvLaws}
    `{HAl : Allocator} `{HB : Base64} `{HDg : Digest} k (s : se_state) eph a t message sig nonce aad (buffer : bytes) :
  let key := mkLocalHw _ _ (Hardware k) eph in
  let twin := mkLocal _ (public_twin k) eph in
  (answers k s →
     hw_jwk_public s key a = local_to_jwk_public twin a
     ∧ hw_thumbprint s key a = to_jwk_thumbprint twin a
     ∧ hw_to_public_bytes (Hardware k) s = any_to_public_bytes (public_twin k)
     ∧ hw_any_verify_signature (Hardware k) message sig t s = any_verify_signature (public_twin k) message sig t)
  ∧ (∀ e, se_public_key (hk_inner k) s = Err e →
     hw_jwk_public s key a = Err (AskarError.from_crypto (from_secure_env e))
     ∧ hw_to_public_bytes (Hardware k) s = Err (from_secure_env e)
     ∧ hw_any_verify_signature (Hardware k) message sig None s = Ok false)
  ∧ hw_to_secret_bytes (Hardware k) = Err (unsupported "Secret key export is not supported for this key type")
  ∧ hw_encode s key
    = Err (AskarError.from_msg AskarError.Unsupported "Cannot create a JWK with secret attributes from a hardware bound key")
  ∧ (∀ b, hw_convert_key (Hardware k) b = Err (unsupported "Unsupported key conversion operation"))
  ∧ hw_encrypt_in_place (Hardware k) nonce aad buffer = Err aead_unsupported
  ∧ hw_decrypt_in_place (Hardware k) nonce aad buffer = Err aead_unsupported.
Proof.
  intros key twin. split_and!; try done.
  - intros Ha. split_and!; [by apply hw_jwk_public_twin|by apply hw_thumbprint_twin|by apply hw_public_bytes_twin|
      by apply hw_verify_twin].
  - intros e He. split_and!.
    + unfold hw_jwk_public, to_jwk_public. cbn [hw_inner key]. unfold encode_jwk. cbn [hw_to_jwk hw_any_encode_jwk].
      unfold hw_encode_jwk, get_p256_keypair. rewrite He. by destruct a.
    + cbn [hw_to_public_bytes]. unfold hw_write_public_bytes. by rewrite He.
    + cbn [hw_any_verify_signature]. unfold hw_verify_signature, hw_verify, get_p256_keypair. by rewrite He.
Qed.

(** A signature of a hardware key has the length of its type and verifies, under the
    hardware key while the element answers and under the software key with its public
    part; another type of signature is refused without asking the element, and when the
    element does not sign, the error says that there is no secret key. *)
Theorem hardware_signs `{HL : CryptoLaws} `{SE : SecureEnv} {SL : SecureEnvLaws} k message (s : se_state) t :
  (∀ s' sig, hw_any_write_signature (Hardware k) message t s = (s', Ok sig) →
     length sig = 64%nat ∧ (t = None ∨ t = Some SignatureType.ES256)
     ∧ any_verify_signature (public_twin k) message sig t = Ok true
     ∧ ∀ later, answers k later → hw_any_verify_signature (Hardware k) message sig t later = Ok true)
  ∧ (t ≠ None → t ≠ Some SignatureType.ES256 →
     hw_any_write_signature (Hardware k) message t s = (s, Err unsupported_signature))
  ∧ (∀ s' e, (t = None ∨ t = Some SignatureType.ES256) → se_sign (hk_inner k) message s = (s', Err e) →
     hw_any_write_signature (Hardware k) message t s = (s', Err (unsupported "Undefined secret key"))).
Proof.
  cbn [hw_any_write_signature]. unfold hw_write_signature. split_and!.
  - intros s' sig H2. destruct (bool_decide (t = None) || bool_decide (t = Some SignatureType.ES256)) eqn:Et; [|discriminate H2].
    apply orb_prop in Et. rewrite !bool_decide_eq_true in Et.
    apply stm_bind_inv in H2 as (o & s1 & E & H2). destruct o as [sig'|]; [|discriminate H2]. injection H2 as <- <-.
    unfold hw_sign in E. destruct (se_sign (hk_inner k) message s) as [s2 [b| |]] eqn:Es; [|by simplify_eq|by simplify_eq].
    destruct (Nat.eqb_spec (length b) (SIGNATURE_LENGTH P256.consts)) as [El|]; simplify_eq.
    assert (any_verify_signature (public_twin k) message sig' t = Ok true) as Hv.
    { unfold any_verify_signature. cbn [public_twin algorithm assume_p256 mbind res_bind].
      unfold P256.verify_signature, ec_verify_signature, ec_verify. cbn [ec_public SIG_TYPE P256.consts].
      rewrite (se_signature _ _ _ _ _ Es). by destruct Et as [-> | ->]. }
    split_and!; [done|done|done|]. intros later Ha. by rewrite hw_verify_twin.
  - intros H1 H2. by rewrite !bool_decide_eq_false_2.
  - intros s' e Ht Hs. assert (bool_decide (t = None) || bool_decide (t = Some SignatureType.ES256) = true) as ->.
    { destruct Ht as [-> | ->]; by rewrite ?orb_true_r. }
    unfold hw_sign, mbind, stm_bind. by rewrite Hs.
Qed.

(** C13: A key generated in the element under an identifier, inserted with the reference the
    foreign interface gives it and fetched again: the store has the identifier and
    nothing of the key; the entry names the algorithm and has the thumbprint of the
    public part.  Loading the entry asks the element, in whatever state it then is, for
    the identifier: it gives a hardware key with the same public part as long as the
    element has kept the key, and the element's error otherwise. *)
Theorem hardware_key_stored `{HL : CryptoLaws} `{SE : SecureEnv} {SL : SecureEnvLaws} `{HAl : Allocator} `{HB : Base64}
    `{HDg : Digest} `{HJ : JsonReader} `{HP : ParamsCodec} `{HW : SessionContract W}
    u id eph (s s1 : se_state) key k (w : W) st name metadata tags fu :
  hw_local_generate id (KeyAlg.EcCurve EcCurves.Secp256r1) eph s = (s1, Ok key) → hw_inner key = Hardware k →
  str_ok id → answers k s1 → digest_output_size = 32%nat →
  ct_rep w st → ct_key_ok (kkey name) → st !! kkey name = None →
  params_wf (mkKeyParams metadata (hw_reference key) None) →
  ct_tags_ok (Api.key_tags "p256" [thumb_text (public_twin k)] tags) →
  (∀ v, params_to_vec (mkKeyParams metadata (hw_reference key) (Some (as_bytes id))) = Ok v → ct_value_ok v) →
  ∃ w1 w2 e, hw_insert_key s1 name key metadata (hw_reference key) tags None w = (w1, Ok ())
    ∧ Api.fetch_key name fu w1 = (w2, Ok (Some e))
    ∧ ke_params e = mkKeyParams metadata (Some KeyReference.MobileSecureElement) (Some (as_bytes id))
    ∧ ke_alg e = Some "p256" ∧ ke_thumbprints e = [thumb_text (public_twin k)]
    ∧ ke_tags e = sorted_tags (default [] tags)
    ∧ ∀ later,
      (∀ later' x, se_by_id id later = (later', Err x) →
         hw_load_local_key u e later = (later', Err (AskarError.from_crypto (from_secure_env x))))
      ∧ (∀ later' inner, se_by_id id later = (later', Ok inner) → se_keys later id = se_keys s1 id →
         ∃ k', hw_load_local_key u e later = (later', Ok (mkLocalHw _ _ (Hardware k') false))
           ∧ public_twin k' = public_twin k ∧ sec_data (key_id k') = as_bytes id).
Proof.
  intros Hg Hk Hid Ha Hd Hr Hko Hn Hwf Ht Hv.
  assert (key = mkLocalHw _ _ (Hardware k) eph ∧ hw_generate id s = (s1, Ok k)) as [-> Hgen].
  { unfold hw_local_generate in Hg. apply stm_bind_inv in Hg as (x & s2 & E & Hg). injection Hg as <- <-. cbn in Hk. subst x.
    split; [done|]. unfold hw_api in E. destruct (hw_generate_any id (KeyAlg.EcCurve EcCurves.Secp256r1) s) as [s3 [y| |]] eqn:Ey; simplify_eq/=.
    cbn [hw_generate_any] in Ey. apply stm_bind_inv in Ey as (k0 & s4 & E' & Ey). injection Ey as -> ->. done. }
  destruct (hw_generate_spec _ _ _ _ Hgen) as [Hse Hki].
  change (hw_reference _) with (Some KeyReference.MobileSecureElement) in *.
  destruct (hw_insert_run w st name k eph s1 metadata _ tags Hr Hko Hn Ha Hd Hwf Ht) as (w1 & v & E1 & Hr1 & Ev).
  { intros v. rewrite Hki. apply Hv. }
  destruct (fetch_key_run w1 _ name _ fu Hr1 Hko (lookup_insert_eq _ _ _) eq_refl) as (w2 & E2 & _).
  rewrite key_entry_spec in E2. unfold params_from_slice in E2. cbn [value a_entry entry_new a_value] in E2.
  rewrite Ev, Hki in E2. cbn [map_err mbind res_bind fmap res_fmap] in E2.
  destruct (key_tags_read "p256" [thumb_text (public_twin k)] tags ltac:(done)) as (Hu & Hal & Hth).
  eexists w1, w2, _. split_and!; [exact E1|exact E2|..].
  all: cbn [ke_name ke_metadata ke_params ke_alg ke_thumbprints ke_tags kp_metadata Entry.tags a_entry entry_new a_tags].
  1: done. 1-3: rewrite ?Hu, ?Hal, ?Hth; done.
  intros later. rewrite (hw_load_run u _ id later) by done. unfold hw_local_from_id, hw_api. cbn [hw_get_any_with_id].
  unfold hw_from_id, se_try. split.
  - intros later' x Ex. unfold mbind, stm_bind. by rewrite Ex.
  - intros later' inner Ei Hkeep. exists (mkHw _ inner (secret_from_slice (as_bytes id))).
    split_and!; [unfold mbind, stm_bind; by rewrite Ei| |done].
    unfold public_twin. cbn [hk_inner]. do 2 f_equal.
    pose proof (se_found _ _ _ _ Ei) as X. rewrite Hkeep, (se_generated _ _ _ _ Hse) in X. congruence.
Qed.

(** Two operations panic: the exchange of two hardware keys, whose types agree, and the
    identifier of a software key on the curve; a hardware and a software key are refused. *)
Theorem hardware_panics `{C : Crypto} `{SE : SecureEnv} (k k' : P256HardwareKeyPair) (kp : EcKeyPair cr_p256) :
  hw_key_exchange (Hardware k) (Hardware k') = Panic
  ∧ hw_get_key_id (Software (AnyP256 kp)) = Panic
  ∧ hw_key_exchange (Hardware k) (Software (AnyP256 kp)) = Err (unsupported "Unsupported key exchange")
  ∧ hw_key_exchange (Software (AnyP256 kp)) (Hardware k) = Err (unsupported "Unsupported key exchange").
Proof.
  unfold hw_key_exchange. cbn [hw_key_type_id]. rewrite bool_decide_eq_true_2 by done.
  by rewrite !bool_decide_eq_false_2.
Qed.

(** ** An element for examples: a table of keys, which may be locked *)

Record ToyElement := mkToyElement { te_locked : bool; te_keys : gmap string (ToySk 4) }.

Definition toy_locked : SecureEnvError.t := SecureEnvError.UnableToGetKeyPairById "locked".

Definition toy_element : SecureEnv := {|
  se_state := ToyElement;
  se_key := ToySk 4;
  se_generate id s :=
    if te_locked s then (s, Err (SecureEnvError.UnableToGenerateKey "locked"))
    else (mkToyElement false (<[id := toy_one]> (te_keys s)), Ok toy_one);
  se_by_id id s :=
    (s, if te_locked s then Err toy_locked else ok_or (te_keys s !! id) (SecureEnvError.UnableToGetKeyPairById "none"));
  se_public_key key s :=
    if te_locked s then Err (SecureEnvError.UnableToGetPublicKey "locked") else Ok (@encoded_point (toy_curve 4) true key);
  se_sign key m s :=
    (s, if te_locked s then Err (SecureEnvError.UnableToCreateSignature "locked")
        else Ok (@ecdsa_sign (toy_curve 4) key m));
|}.

Definition toy_element_laws : @SecureEnvLaws toy_crypto toy_element.
Proof.
  refine (@Build_SecureEnvLaws toy_crypto toy_element (λ key : ToySk 4, key) (λ s id, te_keys s !! id) _ _ _ _).
  - intros key [[] ks] b E; [discriminate E|by injection E as <-].
  - intros key m [[] ks] s' sig E; [discriminate E|]. injection E as _ <-.
    apply (@ecdsa_verify_sign (toy_curve 4) P256.consts). by apply toy_curve_laws.
  - intros id [[] ks] s' key E; [discriminate E|]. injection E as <- <-. apply lookup_insert_eq.
  - intros id [[] ks] s' key E; [discriminate E|]. injection E as _ E. cbn in *. by destruct (ks !! id); simplify_eq/=.
Defined.

Definition toy_hw : @P256HardwareKeyPair toy_element := @mkHw toy_element toy_one (@secret_from_slice demo_allocator (as_bytes "id")).
Definition toy_open : ToyElement := mkToyElement false {["id" := toy_one]}.
Definition toy_shut : ToyElement := mkToyElement true {["id" := toy_one]}.

Lemma hardware_key_public_witness :
  @hw_jwk_public toy_crypto toy_element b64 toy_open (@mkLocalHw toy_crypto toy_element (Hardware toy_hw) false) None
    = @local_to_jwk_public toy_crypto b64 (@mkLocal toy_crypto (@public_twin toy_crypto toy_element toy_element_laws toy_hw) false) None
  ∧ @hw_to_public_bytes toy_crypto toy_element demo_allocator (Hardware toy_hw) toy_shut
    = Err (CryptoError.from_msg CryptoError.Invalid "locked").
Proof.
  pose proof (@hardware_key_public toy_crypto toy_crypto_laws toy_element toy_element_laws demo_allocator b64 sha_len_digest toy_hw) as E.
  split.
  - destruct (E toy_open false None None [] [] [] [] []) as [E1 _].
    destruct E1 as [E1 _]; [by eexists|]. exact E1.
  - destruct (E toy_shut false None None [] [] [] [] []) as [_ [E2 _]]. exact (proj1 (proj2 (E2 _ eq_refl))).
Defined.

Lemma hardware_signs_witness :
  @any_verify_signature toy_crypto (@public_twin toy_crypto toy_element toy_element_laws toy_hw) [x01]
    (toy_sk 4 toy_one ++ toy_sk 4 toy_one) None = Ok true
  ∧ @hw_any_write_signature toy_crypto toy_element (Hardware toy_hw) [x01] (Some SignatureType.EdDSA) toy_open
    = (toy_open, Err unsupported_signature).
Proof.
  pose proof (@hardware_signs toy_crypto toy_crypto_laws toy_element toy_element_laws toy_hw [x01] toy_open) as E.
  split.
  - destruct (E None) as [E1 _]. exact (proj1 (proj2 (proj2 (E1 toy_open _ eq_refl)))).
  - destruct (E (Some SignatureType.EdDSA)) as (_ & E2 & _). apply E2; discriminate.
Defined.

Lemma hardware_key_stored_witness :
  ∃ w1 w2 e,
    @hw_insert_key toy_crypto toy_element demo_allocator b64 sha_len_digest _ toy_session toy_params toy_open "k1"
      (@mkLocalHw toy_crypto toy_element (Hardware toy_hw) true) None (Some KeyReference.MobileSecureElement)
      (Some toy_key_tags) None toy_world = (w1, Ok ())
    ∧ @Api.fetch_key _ toy_session toy_params "k1" false w1 = (w2, Ok (Some e))
    ∧ ke_tags e = [EntryTag.Encrypted "a" "1"; EntryTag.Plaintext "b" "2"]
    ∧ (∃ k', @hw_load_local_key toy_crypto toy_element demo_allocator b64 plain_reader (Ok ()) e toy_open
           = (toy_open, Ok (@mkLocalHw toy_crypto toy_element (Hardware k') false))
         ∧ @hk_inner toy_element k' = toy_one)
    ∧ (@hw_load_local_key toy_crypto toy_element demo_allocator b64 plain_reader (Ok ()) e toy_shut).2
      = Err (AskarError.from_msg AskarError.Input "locked").
Proof.
  pose proof (@hardware_key_stored toy_crypto toy_crypto_laws toy_element toy_element_laws demo_allocator b64 sha_len_digest
    plain_reader toy_params _ _ toy_contract (Ok ()) "id" true (mkToyElement false ∅) toy_open
    (@mkLocalHw toy_crypto toy_element (Hardware toy_hw) true) toy_hw toy_world ∅ "k1" None (Some toy_key_tags) false) as E.
  destruct E as (w1 & w2 & e & E1 & E2 & _ & _ & _ & Et & El); try reflexivity.
  - by eexists.
  - exact toy_session_rep.
  - apply toy_kkey_ok; [cbn; lia|reflexivity].
  - split; intros; discriminate.
  - split; repeat constructor; vm_compute; lia.
  - intros v [= <-]. vm_compute. lia.
  - exists w1, w2, e. split_and!; [exact E1|exact E2|exact Et| |].
    + destruct (proj2 (El toy_open) toy_open toy_one eq_refl eq_refl) as (k' & E3 & Et' & _).
      exists k'. split; [exact E3|by injection Et'].
    + pose proof (proj1 (El toy_shut) toy_shut toy_locked eq_refl) as E3. by rewrite E3.
Defined.
