(* ===== verification/FfiLog.v ===== *)
(** * Logging through the foreign interface

    Models src/ffi/log.rs: the logger that hands records to callbacks of the host, its
    installation, removal and levels.  The callbacks change a state of the host, and
    the facade (the crate log, with env_logger as the default logger) is a parameter. *)

From S2P Require Import Prelude Errors Wql Buffers FfiTags FfiHandles.
Local Open Scope string_scope.
Local Open Scope list_scope.

(** ** Levels and records *)

Module Level.
Inductive t := Error | Warn | Info | Debug | Trace.

(** [as i32]. *)
Definition value (l : t) : Z := match l with Error => 1 | Warn => 2 | Info => 3 | Debug => 4 | Trace => 5 end.
End Level.

Module LevelFilter.
Inductive t := Off | Error | Warn | Info | Debug | Trace.
Definition value (f : t) : Z := match f with Off => 0 | Error => 1 | Warn => 2 | Info => 3 | Debug => 4 | Trace => 5 end.
End LevelFilter.

#[export] Instance LevelFilter_eq_dec : EqDecision LevelFilter.t.
Proof. solve_decision. Defined.

Record LogRecord := mkRecord {
  level : Level.t;
  target : string;
  args : string;
  module_path : option string;
  file : option string;
  line : option Z;
}.

(** ** The facade *)

(** The loggers that can be installed: the one in [LOGGER], and that of env_logger. *)
Inductive LoggerRef := CustomRef | EnvRef.

#[export] Instance LoggerRef_eq_dec : EqDecision LoggerRef.
Proof. solve_decision. Defined.

Class LogFacade := {
  lf_state : Type;
  (** [log::set_logger] and [env_logger::try_init]: [None] is the error. *)
  set_logger : LoggerRef → lf_state → option lf_state;
  try_init : lf_state → option lf_state;
  set_max_level : LevelFilter.t → lf_state → lf_state;
  (** [env_logger::Logger::from_default_env().filter()]. *)
  env_filter : LevelFilter.t;
  (** The test of the macros, and the logger they hand a record to. *)
  macro_enabled : Level.t → lf_state → bool;
  installed : lf_state → option LoggerRef;
}.

(** ** The custom logger *)

Section Logger.
Context {W : Type}.

(** The callbacks take the context the host gave. *)
Definition EnabledCallback : Type := N → Z → W → W * Z.
Definition LogCallback : Type := N → Z → string → string → option string → option string → Z → W → W.
Definition FlushCallback : Type := N → W → W.

Record CustomLogger := mkLogger {
  context : N;
  enabled_cb : option EnabledCallback;
  log_cb : LogCallback;
  flush_cb : option FlushCallback;
  disabled : bool;
}.

Definition logger_new (context : N) (enabled : option EnabledCallback) (log : LogCallback)
    (flush : option FlushCallback) : CustomLogger := mkLogger context enabled log flush false.

Definition disable (l : CustomLogger) : CustomLogger :=
  mkLogger (context l) (enabled_cb l) (log_cb l) (flush_cb l) true.

Definition logger_enabled (l : CustomLogger) (lv : Level.t) (w : W) : W * bool :=
  if disabled l then (w, false) else
  match enabled_cb l with
  | Some cb => let '(w, r) := cb (context l) (Level.value lv) w in (w, negb (r =? 0)%Z)
  | None => (w, true)
  end.

(** [CString::new(..).unwrap()]: panics when the text has a NUL. *)
Definition nul_free (s : string) : bool := forallb (λ b, negb (bool_decide (b = x00))) (as_bytes s).
Definition c_string {E} (s : string) : res E string := if nul_free s then Ok s else Panic.
Definition c_string_opt {E} (s : option string) : res E (option string) :=
  match s with Some s => Some <$> c_string s | None => Ok None end.

Definition logger_log {E} (l : CustomLogger) (r : LogRecord) : stm W E () := λ w,
  let '(w, on) := logger_enabled l (level r) w in
  if negb on then (w, Ok ()) else
  match (t ← c_string (target r); m ← c_string (args r); p ← c_string_opt (module_path r); f ← c_string_opt (file r);
         Ok (t, m, p, f)) with
  | Ok (t, m, p, f) =>
      (log_cb l (context l) (Level.value (level r)) t m p f (as_i32 (default 0%Z (line r))) w, Ok ())
  | Err e => (w, Err e)
  | Panic => (w, Panic)
  end.

Definition logger_flush (l : CustomLogger) (w : W) : W :=
  match flush_cb l with Some flush => flush (context l) w | None => w end.

(** ** The process *)

Context `{LF : LogFacade}.

(** [LOGGER], the facade, the last error and the host. *)
Record LogWorld := mkLogWorld {
  lw_cell : option CustomLogger;
  lw_facade : lf_state;
  lw_last : option AskarError.Error;
  lw_host : W;
}.

Definition set_cell (c : option CustomLogger) (w : LogWorld) : LogWorld := mkLogWorld c (lw_facade w) (lw_last w) (lw_host w).
Definition set_facade (f : lf_state) (w : LogWorld) : LogWorld := mkLogWorld (lw_cell w) f (lw_last w) (lw_host w).
Definition set_host (h : W) (w : LogWorld) : LogWorld := mkLogWorld (lw_cell w) (lw_facade w) (lw_last w) h.

Abbreviation M := (stm LogWorld AskarError.Error).

(** A record given to the macros of the facade; what env_logger prints is not kept. *)
Definition emit (r : LogRecord) : M () := λ w,
  if macro_enabled (level r) (lw_facade w) then
    match installed (lw_facade w), lw_cell w with
    | Some CustomRef, Some l => let '(h, x) := logger_log l r (lw_host w) in (set_host h w, x)
    | _, _ => (w, Ok ())
    end
  else (w, Ok ()).

(** [log::logger().flush()]: the flag of the logger is not looked at. *)
Definition flush_logger : M () := λ w,
  match installed (lw_facade w), lw_cell w with
  | Some CustomRef, Some l => (set_host (logger_flush l (lw_host w)) w, Ok ())
  | _, _ => (w, Ok ())
  end.

(** What the compiler puts into the records of this file. *)
Context (this_module this_file : string).
Definition debug (msg : string) (line : Z) : M () :=
  emit (mkRecord Level.Debug this_module msg (Some this_module) (Some this_file) (Some line)).

Definition catch_call (m : M ErrorCode) (w : LogWorld) : LogWorld * ErrorCode :=
  let '(w, r) := m w in
  let '(last, code) := catch_err r (lw_last w) in
  (mkLogWorld (lw_cell w) (lw_facade w) last (lw_host w), code).

Definition get_level_filter (max_level : Z) : res AskarError.Error LevelFilter.t :=
  if (max_level =? -1)%Z then Ok env_filter else
  if (max_level =? 0)%Z then Ok LevelFilter.Off else
  if (max_level =? 1)%Z then Ok LevelFilter.Error else
  if (max_level =? 2)%Z then Ok LevelFilter.Warn else
  if (max_level =? 3)%Z then Ok LevelFilter.Info else
  if (max_level =? 4)%Z then Ok LevelFilter.Debug else
  if (max_level =? 5)%Z then Ok LevelFilter.Trace else
  Err (AskarError.from_msg AskarError.Input "Invalid log level").

Definition repeated : AskarError.Error := AskarError.from_msg AskarError.Input "Repeated logger initialization".

(** [OnceCell::set]. *)
Definition cell_set (l : CustomLogger) : M () := λ w,
  match lw_cell w with None => (set_cell (Some l) w, Ok ()) | Some _ => (w, Err repeated) end.

(** A call of the facade that may refuse. *)
Definition facade_try (f : lf_state → option lf_state) : M () := λ w,
  match f (lw_facade w) with Some s => (set_facade s w, Ok ()) | None => (w, Err repeated) end.

Definition askar_set_custom_logger (context : N) (log : LogCallback) (enabled : option EnabledCallback)
    (flush : option FlushCallback) (max_level : Z) : LogWorld → LogWorld * ErrorCode :=
  catch_call (
    max_level ← lift (get_level_filter max_level);
    _ ← cell_set (logger_new context enabled log flush);
    _ ← facade_try (set_logger CustomRef);
    _ ← smod (λ w, set_facade (set_max_level max_level (lw_facade w)) w);
    _ ← debug "Initialized custom logger" 123;
    mret ErrorCode.Success).

Definition askar_clear_custom_logger : M () :=
  _ ← debug "Removing custom logger" 130;
  smod (λ w, set_cell (disable <$> lw_cell w) w).

Definition askar_set_default_logger : LogWorld → LogWorld * ErrorCode :=
  catch_call (
    _ ← facade_try try_init;
    _ ← debug "Initialized default logger" 141;
    mret ErrorCode.Success).

Definition askar_set_max_log_level (max_level : Z) : LogWorld → LogWorld * ErrorCode :=
  catch_call (
    f ← lift (get_level_filter max_level);
    _ ← smod (λ w, set_facade (set_max_level f (lw_facade w)) w);
    mret ErrorCode.Success).
End Logger.

(** ** What the facade documents *)

(** One logger is installed, once; records pass the macros up to the maximal level. *)
Class LogFacadeLaws `{LogFacade} := {
  max_level : lf_state → LevelFilter.t;
  set_logger_spec r s :
    match set_logger r s with
    | Some s' => installed s = None ∧ installed s' = Some r ∧ max_level s' = max_level s
    | None => installed s ≠ None
    end;
  try_init_spec s :
    match try_init s with
    | Some s' => installed s = None ∧ installed s' = Some EnvRef ∧ max_level s' = env_filter
    | None => installed s ≠ None
    end;
  set_max_level_spec f s : installed (set_max_level f s) = installed s ∧ max_level (set_max_level f s) = f;
  macro_enabled_spec lv s : macro_enabled lv s = (Level.value lv <=? LevelFilter.value (max_level s))%Z;
}.

Section LogLaws.
Context {W : Type} `{LL : LogFacadeLaws} (this_module this_file : string).
Abbreviation LogWorld := (@LogWorld W _).
Abbreviation CustomLogger := (@CustomLogger W).

(** ** Sequences of calls *)

(** The exported functions, a record from any part of the library, and a flush of the
    installed logger, which any part of the process may ask for. *)
Inductive LogOp :=
| SetCustom (context : N) (log : @LogCallback W) (enabled : option (@EnabledCallback W))
    (flush : option (@FlushCallback W)) (max_level : Z)
| Clear
| SetDefault
| SetMax (max_level : Z)
| Emit (r : LogRecord)
| Flush.

Definition log_op (o : LogOp) (w : LogWorld) : LogWorld :=
  match o with
  | SetCustom c l e f m => (askar_set_custom_logger this_module this_file c l e f m w).1
  | Clear => (askar_clear_custom_logger this_module this_file w).1
  | SetDefault => (askar_set_default_logger this_module this_file w).1
  | SetMax m => (askar_set_max_log_level m w).1
  | Emit r => (emit r w).1
  | Flush => (flush_logger w).1
  end.

Definition is_flush (o : LogOp) : bool := match o with Flush => true | _ => false end.
Definition flushes (ops : list LogOp) : nat := length (List.filter is_flush ops).

Definition log_run (ops : list LogOp) (w : LogWorld) : LogWorld := fold_left (flip log_op) ops w.

(** The facade refers to [LOGGER] only when it is set. *)
Definition log_ok (w : LogWorld) : Prop := installed (lw_facade w) = Some CustomRef → is_Some (lw_cell w).

(** What no call undoes: the installed logger, and the contents of [LOGGER] but for
    the flag that disables it. *)
Definition keeps (w w' : LogWorld) : Prop :=
  (∀ r, installed (lw_facade w) = Some r → installed (lw_facade w') = Some r)
  ∧ (∀ l, lw_cell w = Some l → lw_cell w' = Some l ∨ lw_cell w' = Some (disable l)).

(** The logger says nothing any more: disabled, or another one is installed.  What is left
    is [f], what a flush does. *)
Definition silent (f : W → W) (w : LogWorld) : Prop :=
  (∃ l, installed (lw_facade w) = Some CustomRef ∧ lw_cell w = Some l ∧ disabled l = true ∧ f = logger_flush l)
  ∨ installed (lw_facade w) = Some EnvRef ∧ f = id.

#[local] Instance keeps_preorder : PreOrder keeps.
Proof.
  split; [split; auto|]. intros w1 w2 w3 [H1 C1] [H2 C2]. split; [auto|]. intros l Hl.
  destruct (C1 l Hl) as [E|E]; apply C2 in E; [done|]. destruct E as [E|E]; by right.
Qed.

Lemma silent_keeps f w w' : keeps w w' → silent f w → silent f w'.
Proof.
  intros [Hi Hc] [(l & Hl & Hcell & Hd & ->)|[He ->]]; [left|right; auto].
  destruct (Hc l Hcell) as [E|E]; [by exists l; auto|]. exists (disable l). split_and!; auto.
Qed.

(** A step that keeps what is to be kept, and leaves the host alone when the logger is silent. *)
Definition tame {A} (m : stm LogWorld AskarError.Error A) : Prop := ∀ w, log_ok w →
  let w' := (m w).1 in keeps w w' ∧ log_ok w' ∧ (∀ f, silent f w → lw_host w' = lw_host w).

Lemma tame_bind {A B} (m : stm LogWorld AskarError.Error A) (f : A → stm LogWorld AskarError.Error B) :
  tame m → (∀ a, tame (f a)) → tame (m ≫= f).
Proof.
  intros Hm Hf w Hw. specialize (Hm w Hw). unfold mbind, stm_bind. destruct (m w) as [w1 [a|e|]]; [|done|done].
  destruct Hm as (Hk & Ho & Hg). specialize (Hf a w1 Ho). destruct (f a w1) as [w2 r].
  destruct Hf as (Hk2 & Ho2 & Hg2). split_and!; [by etrans|done|]. intros fl Hw1. cbn in *.
  rewrite (Hg2 fl), (Hg fl); eauto using silent_keeps.
Qed.

Lemma tame_lift {A} (r : res AskarError.Error A) : tame (lift r).
Proof. by intros w Hw. Qed.

Lemma tame_emit r : tame (emit r).
Proof.
  intros w Hw. unfold emit. destruct (macro_enabled _ _); [|done].
  destruct (installed (lw_facade w)) as [[]|] eqn:Ei; [|done|done].
  destruct (lw_cell w) as [l|] eqn:Ec; [|done].
  destruct (logger_log l r (lw_host w)) as [h x] eqn:El. cbn. split_and!; [split; cbn; eauto|done|].
  intros fl [(l' & _ & Hl & Hd & _)|[He _]]; [|congruence]. rewrite Ec in Hl. injection Hl as <-.
  unfold logger_log, logger_enabled in El. rewrite Hd in El. cbn in El. by injection El as <- _.
Qed.

Lemma tame_cell l : tame (cell_set l).
Proof.
  intros w Hw. unfold cell_set. destruct (lw_cell w) as [l'|] eqn:Ec; [done|]. split_and!; [split; cbn; [done|congruence]|by eexists|done].
Qed.

Lemma tame_facade (f : lf_state → option lf_state) r :
  (∀ s s', f s = Some s' → installed s = None ∧ installed s' = Some r) → r = EnvRef → tame (facade_try f).
Proof.
  intros Hf -> w Hw. unfold facade_try. destruct (f (lw_facade w)) as [s|] eqn:E; [|done].
  destruct (Hf _ _ E) as [E1 E2]. split_and!; [split; cbn; [congruence|auto]| |done].
  intros X. cbn in X. congruence.
Qed.

Lemma tame_max f : tame (smod (λ w : LogWorld, set_facade (set_max_level f (lw_facade w)) w)).
Proof.
  intros w Hw. cbn. destruct (set_max_level_spec f (lw_facade w)) as [E _].
  split_and!; [split; cbn; [by rewrite E|auto]|unfold log_ok; cbn; by rewrite E|done].
Qed.

Lemma tame_clear : tame (askar_clear_custom_logger this_module this_file).
Proof.
  apply tame_bind; [apply tame_emit|]. intros _ w Hw. cbn. split_and!; [split; cbn; [done|]| |done].
  - intros l ->. by right.
  - intros X. cbn in *. destruct (Hw X) as [l ->]. by eexists.
Qed.

Lemma tame_install l : tame (_ ← cell_set l; facade_try (set_logger CustomRef)).
Proof.
  intros w Hw. unfold mbind, stm_bind, cell_set. destruct (lw_cell w) as [l'|] eqn:Ec; [done|].
  unfold facade_try. cbn. pose proof (set_logger_spec CustomRef (lw_facade w)) as Hs.
  destruct (set_logger CustomRef (lw_facade w)) as [s|]; cbn.
  - destruct Hs as (E1 & E2 & _). split_and!; [split; cbn; congruence|by eexists|done].
  - split_and!; [split; cbn; congruence|by eexists|done].
Qed.

Lemma tame_catch (m : stm LogWorld AskarError.Error ErrorCode) w : tame m → log_ok w →
  let w' := (catch_call m w).1 in keeps w w' ∧ log_ok w' ∧ (∀ f, silent f w → lw_host w' = lw_host w).
Proof.
  intros Hm Hw. specialize (Hm w Hw). unfold catch_call. destruct (m w) as [w1 r].
  destruct (catch_err r (lw_last w1)) as [last code]. exact Hm.
Qed.

Lemma flush_tame w : log_ok w →
  keeps w (flush_logger w).1 ∧ log_ok (flush_logger w).1 ∧ (∀ f, silent f w → lw_host (flush_logger w).1 = f (lw_host w)).
Proof.
  intros Hw. unfold flush_logger. destruct (installed (lw_facade w)) as [[]|] eqn:Ei.
  - destruct (lw_cell w) as [l|] eqn:Ec.
    + split_and!; [split; cbn; eauto|exact Hw|]. intros f [(l' & _ & Hl & _ & ->)|[He _]]; [|congruence].
      rewrite Ec in Hl. by injection Hl as <-.
    + split_and!; [done|done|]. intros f [(l' & _ & Hl & _)|[He _]]; congruence.
  - split_and!; [done|done|]. intros f [(l' & Hl & _)|[_ ->]]; [congruence|done].
  - split_and!; [done|done|]. intros f [(l' & Hl & _)|[He _]]; congruence.
Qed.

Lemma log_op_tame o w : log_ok w →
  keeps w (log_op o w) ∧ log_ok (log_op o w)
  ∧ (∀ f, silent f w → lw_host (log_op o w) = (if is_flush o then f else id) (lw_host w)).
Proof.
  intros Hw. destruct o as [c l e f m| | |m|r|]; cbn [log_op is_flush].
  - apply tame_catch; [|done]. apply tame_bind; [apply tame_lift|]. intros m'.
    intros w' Hw'. rewrite <- stm_bind_assoc. revert w' Hw'. apply tame_bind; [apply tame_install|]. intros _.
    apply tame_bind; [apply tame_max|]. intros _. apply tame_bind; [apply tame_emit|]. intros _. by apply (tame_lift (Ok _)).
  - by apply tame_clear.
  - apply tame_catch; [|done]. apply tame_bind.
    + eapply tame_facade; [|done]. intros s s' E. pose proof (try_init_spec s) as Hs. rewrite E in Hs. naive_solver.
    + intros _. apply tame_bind; [apply tame_emit|]. intros _. by apply (tame_lift (Ok _)).
  - apply tame_catch; [|done]. apply tame_bind; [apply tame_lift|]. intros f.
    apply tame_bind; [apply tame_max|]. intros _. by apply (tame_lift (Ok _)).
  - by apply tame_emit.
  - by apply flush_tame.
Qed.

Lemma log_run_tame ops : ∀ w, log_ok w →
  keeps w (log_run ops w) ∧ log_ok (log_run ops w)
  ∧ (∀ f, silent f w → lw_host (log_run ops w) = Nat.iter (flushes ops) f (lw_host w)).
Proof.
  induction ops as [|o ops IH]; intros w Hw; [done|]. destruct (log_op_tame o w Hw) as (Hk & Ho & Hg).
  destruct (IH _ Ho) as (Hk2 & Ho2 & Hg2). split_and!; [exact (transitivity Hk Hk2)|exact Ho2|].
  intros f Hf. etrans; [exact (Hg2 f (silent_keeps _ _ _ Hk Hf))|]. rewrite (Hg f Hf). unfold flushes. cbn [List.filter].
  destruct (is_flush o); [symmetry; apply Nat.iter_succ_r|done].
Qed.

(** ** A record and its fate *)

Definition record_texts_ok (r : LogRecord) : bool :=
  nul_free (target r) && nul_free (args r) && from_option nul_free true (module_path r) && from_option nul_free true (file r).

Lemma texts_of r : (t ← c_string (target r); m ← c_string (args r); p ← c_string_opt (module_path r);
    f ← c_string_opt (file r); Ok (t, m, p, f))
  = if record_texts_ok r then Ok (E := AskarError.Error) (target r, args r, module_path r, file r) else Panic.
Proof.
  unfold record_texts_ok, c_string_opt, c_string. destruct (nul_free (target r)); [|done]. cbn [mbind res_bind andb].
  destruct (nul_free (args r)); [|done]. cbn [mbind res_bind andb].
  destruct (module_path r) as [p|]; cbn [from_option mbind res_bind fmap res_fmap andb].
  - destruct (nul_free p); [|done]. cbn. destruct (file r) as [f|]; [cbn; by destruct (nul_free f)|done].
  - destruct (file r) as [f|]; [cbn; by destruct (nul_free f)|done].
Qed.

(** What the host has seen of a record that passed the macro. *)
Definition delivered (l : CustomLogger) (r : LogRecord) (h : W) : W * bool :=
  let '(h, on) := logger_enabled l (level r) h in
  (if on && record_texts_ok r
   then log_cb l (context l) (Level.value (level r)) (target r) (args r) (module_path r) (file r)
          (as_i32 (default 0%Z (line r))) h
   else h, on && negb (record_texts_ok r)).

Lemma emit_spec r w l : installed (lw_facade w) = Some CustomRef → lw_cell w = Some l →
  emit r w =
  if (Level.value (level r) <=? LevelFilter.value (max_level (lw_facade w)))%Z
  then (set_host (delivered l r (lw_host w)).1 w, if (delivered l r (lw_host w)).2 then Panic else Ok ())
  else (w, Ok ()).
Proof.
  intros Hi Hc. unfold emit. rewrite macro_enabled_spec, Hi, Hc.
  destruct (_ <=? _)%Z; [|done]. unfold logger_log, delivered.
  destruct (logger_enabled l (level r) (lw_host w)) as [h []]; [|done]. cbn [negb andb].
  rewrite texts_of. by destruct (record_texts_ok r).
Qed.
End LogLaws.

(** ** Properties *)

(** C20: Loggers are installed once for the process: whatever is called later, the installed
    logger stays, and a custom one keeps its context and its callbacks.  Another one is
    refused with an error; the facade and the host are as they were, but the refused
    logger is put into [LOGGER] when that was empty, because env_logger is the one that is
    installed, and is not called as long as it is.  Once the custom logger is cleared, the
    callbacks for records and levels are never called again, whatever is called or logged;
    the one for flushing is called by every flush, as before. *)
Theorem logger_installed_once {W} `{LL : LogFacadeLaws} this_module this_file ops (w : @LogWorld W _) :
  nul_free this_module = true → nul_free this_file = true → log_ok w →
  keeps w (log_run this_module this_file ops w) ∧ log_ok (log_run this_module this_file ops w)
  ∧ (∀ context log enabled flush n f, get_level_filter n = Ok f → installed (lw_facade w) ≠ None →
      askar_set_custom_logger this_module this_file context log enabled flush n w
      = (mkLogWorld (Some (default (logger_new context enabled log flush) (lw_cell w))) (lw_facade w) (Some repeated) (lw_host w),
         ErrorCode.Input))
  ∧ (installed (lw_facade w) = Some EnvRef → lw_host (log_run this_module this_file ops w) = lw_host w)
  ∧ (installed (lw_facade w) = Some CustomRef → ∃ l, lw_cell w = Some l ∧
      let '(w1, r) := askar_clear_custom_logger this_module this_file w in
      r = Ok () ∧ lw_host (log_run this_module this_file ops w1) = Nat.iter (flushes ops) (logger_flush l) (lw_host w1)).
Proof.
  intros Hm Hf Hw. destruct (log_run_tame this_module this_file ops w Hw) as (Hk & Ho & Hh).
  split_and!; [done|done|..].
  - intros context log enabled flush n f En Hi. unfold askar_set_custom_logger, catch_call.
    rewrite (lift_bind _ f) by done. unfold cell_set, mbind, stm_bind.
    destruct (lw_cell w) as [l|] eqn:Ec; [cbn; by rewrite ?Ec|].
    unfold facade_try. cbn [lw_facade set_cell]. pose proof (set_logger_spec CustomRef (lw_facade w)) as Hs.
    by destruct (set_logger CustomRef (lw_facade w)) as [s'|]; [destruct Hs|].
  - intros He. rewrite (Hh id) by (by right). clear Hh. induction (flushes ops) as [|k IH]; [done|exact IH].
  - intros Hi. destruct (Hw Hi) as [l Hl]. exists l. split; [done|].
    pose proof (tame_clear this_module this_file w Hw) as (_ & Ho1 & _).
    assert (∀ h, silent (logger_flush l) (set_cell (disable <$> lw_cell w) (set_host h w))) as Hsil.
    { intros h. left. exists (disable l). cbn. by rewrite Hl. }
    revert Ho1. unfold askar_clear_custom_logger, debug, mbind, stm_bind. rewrite (emit_spec _ _ _ Hi Hl).
    destruct (_ <=? _)%Z; cbn [fst snd].
    + unfold delivered. destruct (logger_enabled l _ _) as [h on]. unfold record_texts_ok. cbn [target args module_path file from_option].
      rewrite Hm, Hf. replace (nul_free "Removing custom logger") with true by reflexivity. rewrite andb_false_r. cbn [snd smod].
      intros Ho1. split; [done|]. apply (log_run_tame this_module this_file ops _ Ho1). apply Hsil.
    + intros Ho1. split; [done|]. apply (log_run_tame this_module this_file ops _ Ho1). apply (Hsil (lw_host w)).
Qed.

(** A custom logger set in a process without one, with a level: the call succeeds and
    hands over its own record when the level lets it; from then on a record is handed to
    the callback, as it is and exactly once, when its level is at most that one and the
    host's callback (if there is one) says that it wants it.  A record with a NUL in one
    of its texts panics in that place instead. *)
Theorem custom_logger_delivers {W} `{LL : LogFacadeLaws} this_module this_file (w : @LogWorld W _)
    context log enabled flush n f :
  nul_free this_module = true → nul_free this_file = true →
  lw_cell w = None → installed (lw_facade w) = None → get_level_filter n = Ok f →
  let l := logger_new context enabled log flush in
  let wants lv h := match enabled with
                    | Some cb => ((cb context (Level.value lv) h).1, negb ((cb context (Level.value lv) h).2 =? 0)%Z)
                    | None => (h, true)
                    end in
  ∃ w1, askar_set_custom_logger this_module this_file context log enabled flush n w = (w1, ErrorCode.Success)
    ∧ lw_last w1 = lw_last w
    ∧ lw_host w1 = (if (4 <=? LevelFilter.value f)%Z then
        let '(h, on) := wants Level.Debug (lw_host w) in
        if on then log context 4%Z this_module "Initialized custom logger" (Some this_module) (Some this_file) 123%Z h else h
        else lw_host w)
    ∧ ∀ r, emit r w1 =
        if (Level.value (level r) <=? LevelFilter.value f)%Z then
          let '(h, on) := wants (level r) (lw_host w1) in
          if negb on then (set_host h w1, Ok ()) else
          if record_texts_ok r then
            (set_host (log context (Level.value (level r)) (target r) (args r) (module_path r) (file r)
                         (as_i32 (default 0%Z (line r))) h) w1, Ok ())
          else (set_host h w1, Panic)
        else (w1, Ok ()).
Proof.
  intros Hm Hf Hc Hi En l wants.
  assert (∀ lv h, logger_enabled l lv h = wants lv h) as Hwants.
  { intros lv h. unfold logger_enabled, wants. cbn. destruct enabled as [cb|]; [|done]. by destruct (cb _ _ _). }
  pose proof (set_logger_spec CustomRef (lw_facade w)) as Hs.
  destruct (set_logger CustomRef (lw_facade w)) as [s'|] eqn:Es; [|congruence]. destruct Hs as (_ & Hi' & _).
  destruct (set_max_level_spec f s') as [Hi2 Hmax].
  set (w0 := mkLogWorld (Some l) (set_max_level f s') (lw_last w) (lw_host w)).
  assert (askar_set_custom_logger this_module this_file context log enabled flush n w
    = catch_call (_ ← debug this_module this_file "Initialized custom logger" 123; mret ErrorCode.Success) w0) as ->.
  { unfold askar_set_custom_logger, catch_call. rewrite (lift_bind _ f) by done.
    unfold mbind at 1, stm_bind at 1. unfold cell_set. rewrite Hc. unfold mbind at 1, stm_bind at 1. unfold facade_try.
    cbn [lw_facade set_cell]. rewrite Es. done. }
  assert (∀ r w', lw_cell w' = Some l → lw_facade w' = set_max_level f s' → emit r w' =
     if (Level.value (level r) <=? LevelFilter.value f)%Z
     then (set_host (delivered l r (lw_host w')).1 w', if (delivered l r (lw_host w')).2 then Panic else Ok ())
     else (w', Ok ())) as Hemit.
  { intros r w' Hc' Hf'. rewrite (emit_spec r w' l) by (rewrite ?Hf'; congruence). by rewrite Hf', Hmax. }
  unfold catch_call, debug, mbind, stm_bind. rewrite (Hemit _ w0) by done. cbn [level Level.value].
  assert (∀ h, delivered l (mkRecord Level.Debug this_module "Initialized custom logger" (Some this_module) (Some this_file) (Some 123%Z)) h
    = (let '(h, on) := wants Level.Debug h in
       if on then log context 4%Z this_module "Initialized custom logger" (Some this_module) (Some this_file) 123%Z h else h, false)) as Hd.
  { intros h. unfold delivered. cbn [level]. rewrite Hwants. destruct (wants Level.Debug h) as [h' []]; [|done].
    unfold record_texts_ok. cbn [target args module_path file from_option]. by rewrite Hm, Hf. }
  assert (∀ r h, delivered l r h = (let '(h', on) := wants (level r) h in
      (if on && record_texts_ok r
       then log context (Level.value (level r)) (target r) (args r) (module_path r) (file r) (as_i32 (default 0%Z (line r))) h'
       else h', on && negb (record_texts_ok r)))) as Hany.
  { intros r h. unfold delivered. rewrite Hwants. done. }
  rewrite Hd.
  destruct (4 <=? LevelFilter.value f)%Z; eexists; (split_and!; [reflexivity|reflexivity|reflexivity|]).
  all: intros r; rewrite Hemit by done; destruct (_ <=? _)%Z; [|done]; rewrite Hany.
  all: destruct (wants (level r) _) as [h' []]; [|done]; by destruct (record_texts_ok r).
Qed.

(** The levels the interface takes: 0 to 5 are the facade's own, -1 is the one of the
    environment, and any other number is refused and changes the last error only. *)
Theorem log_level_bounds {W} `{LL : LogFacadeLaws} n (w : @LogWorld W _) :
  let '(w1, code) := askar_set_max_log_level n w in
  (code = ErrorCode.Success ↔ (-1 ≤ n ≤ 5)%Z)
  ∧ lw_cell w1 = lw_cell w ∧ lw_host w1 = lw_host w ∧ installed (lw_facade w1) = installed (lw_facade w)
  ∧ ((0 ≤ n ≤ 5)%Z → LevelFilter.value (max_level (lw_facade w1)) = n)
  ∧ (n = (-1)%Z → max_level (lw_facade w1) = env_filter)
  ∧ (¬ (-1 ≤ n ≤ 5)%Z → code = ErrorCode.Input ∧ lw_facade w1 = lw_facade w
      ∧ lw_last w1 = Some (AskarError.from_msg AskarError.Input "Invalid log level")).
Proof.
  assert ((∃ f, get_level_filter n = Ok f ∧ (-1 ≤ n ≤ 5)%Z ∧ ((0 ≤ n)%Z → LevelFilter.value f = n) ∧ (n = (-1)%Z → f = env_filter))
    ∨ get_level_filter n = Err (AskarError.from_msg AskarError.Input "Invalid log level") ∧ ¬ (-1 ≤ n ≤ 5)%Z) as [(f & E & Hn & Hv & He)|[E Hn]].
  { unfold get_level_filter.
    repeat match goal with |- context [(n =? ?z)%Z] => destruct (Z.eqb_spec n z) as [->|] end; try (right; split; [done|lia]).
    all: left; eexists; split_and!; try done; try lia. }
  - unfold askar_set_max_log_level, catch_call. rewrite (lift_bind _ f) by done. cbn.
    destruct (set_max_level_spec f (lw_facade w)) as [Hi Hm].
    split_and!; [done|done|done|exact Hi|intros; etrans; [exact (f_equal _ Hm)|apply Hv; lia]|intros X; etrans; [exact Hm|by apply He]|intros []; lia].
  - unfold askar_set_max_log_level, catch_call. rewrite E. cbn. split_and!; try done; try lia.
Qed.

(** ** A facade for examples, and a host that keeps what it is told *)

Definition toy_facade : LogFacade := {|
  lf_state := option LoggerRef * LevelFilter.t;
  set_logger r s := match s.1 with None => Some (Some r, s.2) | Some _ => None end;
  try_init s := match s.1 with None => Some (Some EnvRef, LevelFilter.Error) | Some _ => None end;
  set_max_level f s := (s.1, f);
  env_filter := LevelFilter.Error;
  macro_enabled lv s := (Level.value lv <=? LevelFilter.value s.2)%Z;
  installed s := s.1;
|}.

Definition toy_facade_laws : @LogFacadeLaws toy_facade.
Proof.
  refine (@Build_LogFacadeLaws toy_facade (λ s : option LoggerRef * LevelFilter.t, s.2) _ _ _ _); try done.
  - intros r [[] f]; [discriminate|by split_and!].
  - intros [[] f]; [discriminate|by split_and!].
Defined.

Abbreviation Seen := (list (Z * string)).
Definition toy_log : @LogCallback Seen := λ _ lv _ message _ _ _ h, h ++ [(lv, message)].
(** No warnings, please. *)
Definition toy_enabled : @EnabledCallback Seen := λ _ lv h, (h, if (lv =? 2)%Z then 0 else 1)%Z.
Definition toy_process : @LogWorld Seen toy_facade := @mkLogWorld Seen toy_facade None (None, LevelFilter.Off) None [].
Definition toy_record (lv : Level.t) (text : string) : LogRecord := mkRecord lv "t" text None None None.
Definition toy_logging : @LogWorld Seen toy_facade :=
  (@askar_set_custom_logger Seen toy_facade "m" "f" 0 toy_log (Some toy_enabled) None 4 toy_process).1.

Lemma custom_logger_delivers_witness :
  lw_host toy_logging = [(4%Z, "Initialized custom logger")]
  ∧ lw_host (emit (toy_record Level.Error "e") toy_logging).1 = [(4%Z, "Initialized custom logger"); (1%Z, "e")]
  ∧ lw_host (emit (toy_record Level.Warn "w") toy_logging).1 = [(4%Z, "Initialized custom logger")]
  ∧ lw_host (emit (toy_record Level.Trace "t") toy_logging).1 = [(4%Z, "Initialized custom logger")]
  ∧ (emit (toy_record Level.Error (string_of_bytes [x00])) toy_logging).2 = Panic.
Proof.
  destruct (@custom_logger_delivers Seen toy_facade toy_facade_laws "m" "f" toy_process 0 toy_log (Some toy_enabled) None 4
    LevelFilter.Debug eq_refl eq_refl eq_refl eq_refl eq_refl) as (w1 & E & _ & Eh & Er).
  assert (toy_logging = w1) as -> by (unfold toy_logging; by rewrite E).
  split_and!; [exact Eh|..]; rewrite Er; cbn; by rewrite ?Eh.
Defined.

(** The host of the examples with a callback for flushing. *)
Definition toy_flush : @FlushCallback Seen := λ _ h, h ++ [(0%Z, "flush")].
Definition toy_flushing : @LogWorld Seen toy_facade :=
  (@askar_set_custom_logger Seen toy_facade "m" "f" 0 toy_log (Some toy_enabled) (Some toy_flush) 4 toy_process).1.
Definition toy_log_ops : list (@LogOp Seen) :=
  [SetMax 5; Emit (toy_record Level.Error "e"); Flush; SetCustom 1 toy_log None None 5; Emit (toy_record Level.Error "e"); SetDefault].
(** A process with env_logger. *)
Definition toy_env_logging : @LogWorld Seen toy_facade := (@askar_set_default_logger Seen toy_facade "m" "f" toy_process).1.

Lemma logger_installed_once_witness :
  let w1 := (@askar_clear_custom_logger Seen toy_facade "m" "f" toy_flushing).1 in
  lw_host w1 = [(4%Z, "Initialized custom logger"); (4%Z, "Removing custom logger")]
  ∧ lw_host (@log_run Seen toy_facade "m" "f" toy_log_ops w1) = lw_host w1 ++ [(0%Z, "flush")]
  ∧ @askar_set_custom_logger Seen toy_facade "m" "f" 1 toy_log None None 5 toy_env_logging
    = (mkLogWorld (Some (logger_new 1 None toy_log None)) (lw_facade toy_env_logging) (Some repeated) [], ErrorCode.Input)
  ∧ lw_host (@log_run Seen toy_facade "m" "f" (SetCustom 1 toy_log None None 5 :: toy_log_ops) toy_env_logging) = [].
Proof.
  intros w1.
  destruct (@logger_installed_once Seen toy_facade toy_facade_laws "m" "f" toy_log_ops toy_flushing eq_refl eq_refl ltac:(by eexists))
    as (_ & _ & _ & _ & E).
  destruct (@logger_installed_once Seen toy_facade toy_facade_laws "m" "f" (SetCustom 1 toy_log None None 5 :: toy_log_ops)
    toy_env_logging eq_refl eq_refl ltac:(discriminate)) as (_ & _ & E2 & E3 & _).
  split; [reflexivity|]. split_and!.
  - destruct (E eq_refl) as (l & El & E1). injection El as <-. revert E1. unfold w1.
    destruct (askar_clear_custom_logger "m" "f" toy_flushing) as [w2 r]. intros [_ E1]. exact E1.
  - exact (E2 1%N toy_log None None 5%Z _ eq_refl ltac:(discriminate)).
  - exact (E3 eq_refl).
Defined.
